(* ===== verification/_CoqProject ===== *)
-Q . S2P
Prelude.v
CString.v
Semver.v
Util.v
Versions.v
Dict.v
Handler.v
Bootloader.v
Grub.v
State.v
Vars.v
Crypto.v
Cpio.v
Memory.v
Keys.v
Copyfile.v
Zstd.v
Image.v
Installer.v
Handlers.v
Flash.v
Ssbl.v
Ucfw.v
Ubi.v
Hamming.v
Parse.v
Parselib.v
Settings.v
Swdesc.v
Stream.v
Multipart.v
Ranges.v
Delta.v
DeltaInstall.v
Progress.v
Ebg.v
Network.v
Ipc.v
Channel.v
Backend.v
Hawkbit.v
Artifacts.v
Suricatta.v
General.v
Downloader.v
RangeDownloader.v
