(* ===== verification/Prelude.v ===== *)
(** * SWUpdate: a verification of the update engine

    SWUpdate updates embedded devices. An update is one file, the SWU: a cpio archive that starts with a description
    (sw-description) and its signature, followed by the artifacts. The engine reads the archive as it arrives,
    verifies and parses the description, extracts or directly installs the artifacts, runs scripts and handlers, and
    changes the environment of the bootloader, which selects what the device boots next. This library models that
    engine, function by function, and proves what makes an update safe.

    ** The parts and how they interact

    A request reaches the daemon as a message of the control socket ([Ipc], [Network]) and wakes the installer thread,
    which serves it ([Stream.serve_request]): the stream is extracted ([Stream.extract_files]) with the archive reader
    ([Cpio]) and the copy pipeline ([Copyfile]); the description is read into records ([Parselib], [Swdesc]) and checked
    ([Parse]); the installer ([Installer]) runs the handlers of the registry ([Handler]), such as those of [Handlers],
    [Flash], [Hamming], [Ubi], [Ucfw], [Ssbl] and [DeltaInstall], and applies the environment ([Bootloader], [Grub], [Ebg], [Vars]); the state of the
    update is stored around it ([State]), and what happens is told to clients ([Progress]). A device that polls a server
    runs a main loop beside the daemon ([Suricatta]) that asks for actions ([Hawkbit], [General]), downloads artifacts into the
    installer ([Channel]) and reports the result; another process downloads one file on request ([Downloader]).

    - [Prelude] (this file): tactics, hint databases, orders given by comparison functions ([CmpOrder]), arithmetic with
      wrap-around, list lemmas. [CString]: the functions of the C library on strings that the code calls. [Memory]:
      numbers, arrays and strings as the bytes of a structure in memory.
    - [Semver]: core/semver.c. [Versions]: core/artifacts_versions.c. [Util]: the string, number and hash helpers of
      core/util.c. [Dict]: core/swupdate_dict.c, lists of values per key.
    - [Handler]: core/handler.c, the table of handlers.
    - [Bootloader]: core/bootloader.c, bootloader/none.c, bootloader/uboot.c; the classes [EnvStore] (set, unset and get
      behave like those of a map on the names and values that the back end supports) and [EnvScript] (a list of
      "name=value" lines is applied). [Grub]: bootloader/grub.c, an instance of both. [Ebg]: bootloader/ebg.c and
      bootloader/cboot.c.
    - [State]: core/state.c. [Vars]: core/swupdate_vars.c.
    - [Crypto]: core/crypto.c; the classes [HashSpec] and [DecryptSpec] for the libraries behind it. [Keys]:
      core/decrypt_keys.c.
    - [Cpio]: headers and buffered reads of core/cpio_utils.c. [Copyfile]: the rest of that file, the copy of one artifact
      through hash, decryption and decompression; the class [ZlibSpec] for the decompression libraries. [Zstd]: copies
      of intact zstd frames reach their end.
    - [Image]: the records of include/swupdate_image.h and include/swupdate.h, [check_if_required], and the check of the
      free space.
    - [Installer]: core/installer.c, and the version tests of parser/parser.c.
    - [Handlers]: handlers/raw_handler.c, boot_handler.c, shell_scripthandler.c, readback_handler.c, dummy_handler.c.
      [Flash]: handlers/flash_handler.c and the part of corelib/mtd-interface.c that it calls; the class [MtdSpec] for
      libmtd. [Hamming]: handlers/flash_hamming1_handler.c. [Ssbl]: erasing in corelib/mtd-interface.c and
      handlers/ssbl_handler.c; the class [NorSpec] for writes that stop at any bit. [Ubi]: handlers/ubivol_handler.c and the
      search for volumes in corelib/mtd-interface.c; the class [UbiSpec] for libubi. [Ucfw]: handlers/ucfw_handler.c.
    - [Parselib]: core/parsing_library.c and its implementations for JSON and libconfig. [Settings]: corelib/swupdate_settings.c, the
      nodes of the configuration file, and the options of a channel; the class [TypedStrings] for libconfig. [Swdesc]: parser/parser.c.
      [Parse]: core/parser.c, core/hw-compatibility.c, [set_version_range].
    - [Stream]: core/stream_interface.c. [Network]: the install requests and the notifications of core/network_thread.c.
      [Ipc]: all its messages, the messages to other processes, and the client library ipc/network_ipc.c,
      ipc/network_ipc-if.c.
    - [Progress]: core/progress_thread.c, core/notifier.c and ipc/progress_ipc.c.
    - [Channel]: corelib/channel_curl.c, downloads and requests over libcurl. [Backend]: the operations of a connector to a
      server, a state monad with a log of what was asked and answered, and the helpers of corelib/server_utils.c,
      corelib/parsing_library_libjson.c and ipc/network_ipc.c that connectors use. [Hawkbit]: suricatta/server_hawkbit.c;
      [Artifacts]: what an installation from that server downloads; [Suricatta]: suricatta/suricatta.c, the main loop, for any
      connector (the record [server_t]). [General]: suricatta/server_general.c, another connector; the class [CurlEscape] for the
      encoding of queries. [Downloader]: corelib/downloader.c.
    - [Multipart]: corelib/multipart_parser.c. [Ranges]: handlers/zchunk_range.c. [Delta]: the chunks and the
      transfers of handlers/delta_handler.c, [DeltaInstall]: its attributes, the index of the source and the handler.
      [RangeDownloader]: handlers/delta_downloader.c, the process that answers its requests.

    ** How the code is translated

    A C string is a [string], a buffer a list of bytes, an integer a [Z] with its width written out where it wraps. A
    pointer into a string is the suffix it points to. A file descriptor is the list of what its reads will deliver
    ([Cpio.fd]): blocks of any size, interruptions, errors, the end. A file that is written has a plan of short writes,
    interruptions and errors ([Copyfile.sink]). The rest of the machine is explicit state: the files by name, the
    environment of the bootloader, the variables, the dictionary of the update, and an abstract world of devices that
    only handlers, scripts and commands change ([Installer.machine]); the handlers that are modelled instantiate that
    world with devices, files and mounts. Failures of allocations and of opening files are parameters of the operations
    that test them ([Installer.io]). Compile-time options (signed images, hash verification, encrypted descriptions,
    decompression libraries) are arguments. Linked lists are lists; a pointer into one is a position or a suffix.
    Threads are sequences of steps in any order. The operations of a connector have a log; what the server, the core and the
    clock answer is arbitrary ([Backend.backend]).

    Code outside the repository is a parameter: the crypto and compression libraries, libubootenv, libebgenv, json-c,
    libconfig, zchunk, regular expressions, the Lua interpreter, the commands. The handlers are entries of a table that
    the engine calls, so they are parameters of the engine as well. Each class of laws has an instance, used in
    the witnesses.

    ** What is proved

    The conditions of each theorem are in its comment; where one is needed because the code fails without it, a theorem with
    a concrete run shows that.

    - Safety of an update: nothing happens before the signature of the extracted description was verified
      ([Stream.extract_files_verified]); a description is accepted exactly under the documented conditions
      ([Parse.parse_accepts]); an artifact with a hash is accepted only if what was written was made of bytes
      with that hash ([Copyfile.copyfile_verifies_hash]); the environment of the bootloader changes only after everything else succeeded
      ([Installer.install_images_env_last]); success is reported only if all of it happened, and the stored state tells the
      result ([Stream.request_success], [Stream.install_request_state]); with EFI Boot Guard the variables of an
      update are committed in one transaction, after all of it succeeded ([Ebg]); devices, files and flashes with bad blocks hold the artifacts ([Handlers],
      [Flash.flash_image_written], [Ubi.ubi_image_written]), a microcontroller got its firmware ([Ucfw.firmware_delivered]);
      the switch of the boot set on a NOR flash survives any interruption ([Ssbl.ssbl_swap_safe]); a delta update trusts
      neither the server nor the old software ([DeltaInstall.install_delta_trusted]), and its downloader relays exactly the reply of the
      server to a range unless the connection is lost in the middle ([RangeDownloader.range_relayed]), in messages that the handler accepts ([RangeDownloader.relayed_accepted]).
    - Updates from a server: artifacts are downloaded only from a deployment that the server offers and does not cancel
      ([Suricatta.download_authorised], [Suricatta.cancel_acknowledged]), what reaches the installer is the file of the server
      although connections break, with fewer than 254 retries ([Channel.download_exact], [Channel.download_completes]), the update is confirmed only when
      its artifacts were downloaded and installed, with the first half of their hashes compared ([Artifacts.update_confirmed]), and its result is kept until the server has
      taken it ([Hawkbit.result_reported]); the log of the installer reaches the server ([Hawkbit.log_delivered]). The general
      purpose connector downloads only where the server redirects the query about the device to
      ([General.general_download_authorised]), its queries can be read back ([General.query_roundtrip]), and its log has one line
      per event ([General.general_progress_reported]); a download on request is done only if all of it happened
      ([Downloader.download_message_done]).
    - Progress: a well-formed archive is extracted ([Stream.archive_extracted]), an intact plain artifact is copied
      ([Copyfile.copyfile_accepts_intact], [Zstd.copyfile_zstd_intact]) and written to a flash with enough
      good blocks ([Flash.flash_image_installs]), a request ends with an idle daemon
      ([Stream.serve_request_idle]), every acknowledged request leads to a run of the installer, on its
      connection or on a later one that replaced it ([Network.request_served]).
    - Interleaving: the messages of the control socket refine the daemon ([Ipc.messages_refine_daemon]), connections are
      accounted for, there is one installation at a time ([Network.daemon_exclusive]).
    - Functional behaviour of each component on all branches: decisions about members, the entries that are selected from a
      description and their order, links, cleanup, registry, dictionaries (a refinement of finite maps), notifications,
      version comparison (orders, agreement with a declarative order), caret ranges, sizes, splitting, the parts of a
      multipart body in whatever pieces it arrives, the ranges of a request, codes that correct a flipped bit.
    - Round trips: cpio headers, GRUB blocks, states, versions, hashes, progress messages, the file of installed versions,
      semantic versions.
    - What modelling found: theorems that end in a concrete run show where the code does not do what it means to, among
      them [Handler.global_handler_lost], [Installer.failed_install_recorded], [Copyfile.copyfile_single_block_lost], [RangeDownloader.lost_range_fails],
      [Stream.member_error_ignored], [Network.pending_request_replaced], [Flash.unaligned_offset_loses],
      [Ubi.corrupt_image_activated], [Ucfw.refused_records_succeed],
      [Channel.many_retries_truncated], [Settings.unset_nocheckcert_undefined], [Downloader.default_download_unverified],
      [General.log_overruns], [Artifacts.refused_report_confirms] and
      [DeltaInstall.unreadable_header_succeeds].

    ** Fuel and bounds

    Loops that recurse on their data need no fuel. [Copyfile.copy_loop] and the loops of the decompression steps take fuel,
    because a library may ask for another turn without progress; [None] means it ran out.
    [Copyfile.copyfile_accepts_intact] shows that one turn per byte and one more are enough for plain artifacts,
    [Zstd.copyfile_zstd_intact] that one per byte read or written and two more are enough for zstd. [Stream.stream_data]
    takes one unit per member of the archive and one for the trailer ([Stream.archive_extracted]); [Stream.cpfiles] needs at
    most one per byte and event. The parser of descriptions follows links, which may be cyclic; without cycles its
    depth is bounded by the number of lists ([Swdesc.parse_section_terminates]). The loop that writes a flash gets [Flash.turns], which is enough
    ([Flash.flash_image_installs]), the one that erases it gets [Ssbl.erase_turns] ([Ssbl.flash_erase_sector_erases]). The loop of a download needs no fuel, because its counter of attempts wraps
    around after 256; the loops of the main thread and of the notifications are as long as the list of what happens. The loops of a delta update ([Delta.delta_loop],
    [Delta.network_loop]) are bounded by what the downloader answers, which may never end. Theorems about results of
    fuelled functions hold for any fuel.

    ** What is not modelled

    Descriptions that are Lua programs, and the other bindings of Lua; the handlers for archives, partitions,
    containers and other devices, which are calls of libraries and ioctls; of
    hawkBit, options and settings; the options of libcurl, uploads, and the connector in Lua;
    the web server; the command line of the main program; process
    control; crypto providers; file systems; logging. Memory is only modelled where its contents or its bounds
    matter; releasing it is not. *)
From stdpp Require Export base decidable list strings.
From Stdlib Require Export ZArith Lia.
From Stdlib Require Ascii String.
Export Stdlib.Strings.Ascii (ascii(..)).
Export (notations) Stdlib.Strings.Ascii.

#[global] Open Scope Z_scope.

(** ** Notation, automation and hint databases *)

Create HintDb swu discriminated.
Create Rewrite HintDb swu.

(** Case analysis on the first boolean or decidable test met in the goal or in
    a hypothesis, the way the code's [if]s do it. *)
Ltac case_if :=
  match goal with
  | |- context [if ?b then _ else _] => destruct b eqn:?
  | H : context [if ?b then _ else _] |- _ => destruct b eqn:?
  end.

Ltac split_ifs := repeat (case_if; simplify_eq/=).

(** Turn boolean comparisons into propositions [lia] understands. *)
Ltac bool_to_prop :=
  repeat match goal with
  | H : andb _ _ = true |- _ => apply andb_true_iff in H as [? ?]
  | H : andb _ _ = false |- _ => apply andb_false_iff in H
  | H : orb _ _ = true |- _ => apply orb_true_iff in H
  | H : orb _ _ = false |- _ => apply orb_false_iff in H as [? ?]
  | H : negb _ = true |- _ => apply negb_true_iff in H
  | H : negb _ = false |- _ => apply negb_false_iff in H
  | H : (_ =? _)%Z = true |- _ => apply Z.eqb_eq in H
  | H : (_ =? _)%Z = false |- _ => apply Z.eqb_neq in H
  | H : (_ >=? _)%Z = _ |- _ => rewrite Z.geb_leb in H
  | H : (_ >? _)%Z = _ |- _ => rewrite Z.gtb_ltb in H
  | H : (_ <? _)%Z = true |- _ => apply Z.ltb_lt in H
  | H : (_ <? _)%Z = false |- _ => apply Z.ltb_ge in H
  | H : (_ <=? _)%Z = true |- _ => apply Z.leb_le in H
  | H : (_ <=? _)%Z = false |- _ => apply Z.leb_gt in H
  | H : String.eqb _ _ = true |- _ => apply String.eqb_eq in H
  | H : String.eqb _ _ = false |- _ => apply String.eqb_neq in H
  | H : Ascii.eqb _ _ = true |- _ => apply Ascii.eqb_eq in H
  | H : Ascii.eqb _ _ = false |- _ => apply Ascii.eqb_neq in H
  end.

Ltac zsolve := bool_to_prop; intuition lia.

(** ** Machine integers *)

Section Wrap.
Definition wrap (w z : Z) : Z := z mod 2 ^ w.
Definition swrap (w z : Z) : Z := (z + 2 ^ (w - 1)) mod 2 ^ w - 2 ^ (w - 1).
End Wrap.

Abbreviation u8 := (wrap 8).
Abbreviation u16 := (wrap 16).
Abbreviation u32 := (wrap 32).
Abbreviation u64 := (wrap 64).
Abbreviation i32 := (swrap 32).
Abbreviation i64 := (swrap 64).

Definition LONG_MAX : Z := 2 ^ 63 - 1.
Definition LONG_MIN : Z := - 2 ^ 63.
Definition ULONG_MAX : Z := 2 ^ 64 - 1.
Definition INT_MAX : Z := 2 ^ 31 - 1.

Lemma wrap_small w z : 0 <= z < 2 ^ w -> wrap w z = z.
Proof. apply Z.mod_small. Qed.

Lemma wrap_range w z : 0 <= w -> 0 <= wrap w z < 2 ^ w.
Proof. intros ?. apply Z.mod_pos_bound. lia. Qed.

Lemma wrap_wrap w z : 0 <= w -> wrap w (wrap w z) = wrap w z.
Proof. intros ?. apply wrap_small, wrap_range; done. Qed.

Lemma swrap_small w z : 0 < w -> - 2 ^ (w - 1) <= z < 2 ^ (w - 1) -> swrap w z = z.
Proof.
  intros ? ?. unfold swrap.
  assert (2 ^ w = 2 * 2 ^ (w - 1)) as E.
  { rewrite <- Z.pow_succ_r by lia. f_equal; lia. }
  rewrite Z.mod_small; lia.
Qed.

Lemma swrap_range w z : 0 < w -> - 2 ^ (w - 1) <= swrap w z < 2 ^ (w - 1).
Proof.
  intros ?. unfold swrap.
  assert (2 ^ w = 2 * 2 ^ (w - 1)) as E.
  { rewrite <- Z.pow_succ_r by lia. f_equal; lia. }
  pose proof (Z.mod_pos_bound (z + 2 ^ (w - 1)) (2 ^ w)). lia.
Qed.

(** ** Error numbers (Linux) *)

Definition EPERM := 1.
Definition ENOENT := 2.
Definition EINTR := 4.
Definition EIO := 5.
Definition EBADF := 9.
Definition EAGAIN := 11.
Definition ENOMEM := 12.
Definition EACCES := 13.
Definition EFAULT := 14.
Definition ENODEV := 19.
Definition EINVAL := 22.
Definition ENOSPC := 28.
Definition ERANGE := 34.
Definition ENODATA : Z := 61.

(** Sizes of [include/globals.h]. *)
Definition SWUPDATE_GENERAL_STRING_SIZE : Z := 256.
Definition MAX_IMAGE_FNAME : Z := SWUPDATE_GENERAL_STRING_SIZE.
Definition MAX_VOLNAME : Z := SWUPDATE_GENERAL_STRING_SIZE.
Definition MAX_SEEK_STRING_SIZE : Z := 32.
Definition SHA256_HASH_LENGTH : nat := 32.

(** ** Three-way comparisons

    The program compares versions by returning -1, 0 or 1; [CmpOrder] says that
    such a comparison is a total preorder, and its instances build one for
    lexicographic comparisons out of those of the components. *)

Definition Z_of_comparison (c : comparison) : Z :=
  match c with Lt => -1 | Eq => 0 | Gt => 1 end.

Lemma Z_of_comparison_opp c : Z_of_comparison (CompOpp c) = - Z_of_comparison c.
Proof. by destruct c. Qed.

Lemma Z_of_comparison_inj c d : Z_of_comparison c = Z_of_comparison d -> c = d.
Proof. by destruct c, d. Qed.

Class CmpOrder {A : Type} (cmp : A -> A -> comparison) : Prop := {
  cmp_antisym : forall x y, cmp y x = CompOpp (cmp x y);
  cmp_eq_l : forall x y z, cmp x y = Eq -> cmp x z = cmp y z;
  cmp_lt_trans : forall x y z, cmp x y = Lt -> cmp y z = Lt -> cmp x z = Lt;
}.

Section CmpOrder.
Context {A : Type} {cmp : A -> A -> comparison} `{!CmpOrder cmp}.

Lemma cmp_refl x : cmp x x = Eq.
Proof. pose proof (cmp_antisym x x). by destruct (cmp x x). Qed.

Lemma cmp_eq_r x y z : cmp x y = Eq -> cmp z x = cmp z y.
Proof.
  intros E. rewrite (cmp_antisym x z), (cmp_antisym y z).
  f_equal. by apply cmp_eq_l.
Qed.

Lemma cmp_eq_sym x y : cmp x y = Eq -> cmp y x = Eq.
Proof. intros E. by rewrite cmp_antisym, E. Qed.

Lemma cmp_gt_trans x y z : cmp x y = Gt -> cmp y z = Gt -> cmp x z = Gt.
Proof.
  intros H1 H2. rewrite cmp_antisym.
  rewrite (cmp_lt_trans z y x); [done| |];
    rewrite cmp_antisym; [by rewrite H2|by rewrite H1].
Qed.

(** [<=] is transitive. *)
Lemma cmp_le_trans x y z : cmp x y <> Gt -> cmp y z <> Gt -> cmp x z <> Gt.
Proof.
  intros H1 H2. destruct (cmp x y) eqn:E1; [by rewrite (cmp_eq_l x y)| |done].
  destruct (cmp y z) eqn:E2; [|by rewrite (cmp_lt_trans x y z)|done].
  by rewrite <- (cmp_eq_r y z x E2), E1.
Qed.
End CmpOrder.

#[export] Instance Z_compare_order : CmpOrder Z.compare.
Proof.
  split.
  - intros x y. apply Z.compare_antisym.
  - intros x y z ->%Z.compare_eq. done.
  - intros x y z. rewrite !Z.compare_lt_iff. lia.
Qed.

#[export] Instance N_compare_order : CmpOrder N.compare.
Proof.
  split.
  - intros x y. apply N.compare_antisym.
  - intros x y z ->%N.compare_eq. done.
  - intros x y z. rewrite !N.compare_lt_iff. lia.
Qed.

(** Comparison through a key. *)
Lemma cmp_order_key {A B} (f : A -> B) (cmp : B -> B -> comparison) :
  CmpOrder cmp -> CmpOrder (fun x y => cmp (f x) (f y)).
Proof.
  intros O. split; intros.
  - apply cmp_antisym.
  - by apply cmp_eq_l.
  - by eapply cmp_lt_trans.
Qed.

#[export] Instance Ascii_compare_order : CmpOrder Ascii.compare.
Proof. apply (cmp_order_key Ascii.N_of_ascii N.compare _). Qed.

(** First [c1], then [c2]. *)
Definition cmp_then (c1 c2 : comparison) : comparison :=
  match c1 with Eq => c2 | c => c end.

Definition cmp_pair {A B} (ca : A -> A -> comparison) (cb : B -> B -> comparison)
    (p q : A * B) : comparison :=
  cmp_then (ca p.1 q.1) (cb p.2 q.2).

#[export] Instance cmp_pair_order {A B} (ca : A -> A -> comparison)
    (cb : B -> B -> comparison) :
  CmpOrder ca -> CmpOrder cb -> CmpOrder (cmp_pair ca cb).
Proof.
  intros OA OB. split; unfold cmp_pair, cmp_then.
  - intros [x1 x2] [y1 y2]; simpl. rewrite (cmp_antisym x1 y1).
    destruct (ca x1 y1); simpl; [apply cmp_antisym|done|done].
  - intros [x1 x2] [y1 y2] [z1 z2]; simpl.
    destruct (ca x1 y1) eqn:E; [|done|done]. intros E2.
    rewrite (cmp_eq_l x1 y1 z1 E). destruct (ca y1 z1); [|done|done].
    by apply cmp_eq_l.
  - intros [x1 x2] [y1 y2] [z1 z2]; simpl.
    destruct (ca x1 y1) eqn:E1; [| |done]; destruct (ca y1 z1) eqn:E2; try done.
    + rewrite (cmp_eq_l x1 y1 z1 E1), E2. by apply cmp_lt_trans.
    + by rewrite (cmp_eq_l x1 y1 z1 E1), E2.
    + by rewrite <- (cmp_eq_r y1 z1 x1 E2), E1.
    + by rewrite (cmp_lt_trans x1 y1 z1 E1 E2).
Qed.

Fixpoint cmp_list {A} (cmp : A -> A -> comparison) (l k : list A) : comparison :=
  match l, k with
  | [], [] => Eq
  | [], _ :: _ => Lt
  | _ :: _, [] => Gt
  | x :: l, y :: k => cmp_then (cmp x y) (cmp_list cmp l k)
  end.

#[export] Instance cmp_list_order {A} (cmp : A -> A -> comparison) :
  CmpOrder cmp -> CmpOrder (cmp_list cmp).
Proof.
  intros O. split.
  - induction x as [|x l IH]; intros [|y k]; simpl; try done.
    rewrite (cmp_antisym x y). destruct (cmp x y); simpl; [apply IH|done|done].
  - induction x as [|x l IH]; intros [|y k] [|z m]; simpl; try done.
    all: unfold cmp_then; destruct (cmp x y) eqn:E; try done; intros E2.
    rewrite (cmp_eq_l x y z E). destruct (cmp y z); [|done|done]. by apply IH.
  - induction x as [|x l IH]; intros [|y k] [|z m]; simpl; try done.
    unfold cmp_then.
    destruct (cmp x y) eqn:E1; [| |done]; destruct (cmp y z) eqn:E2; try done.
    + rewrite (cmp_eq_l x y z E1), E2. apply IH.
    + by rewrite (cmp_eq_l x y z E1), E2.
    + by rewrite <- (cmp_eq_r y z x E2), E1.
    + by rewrite (cmp_lt_trans x y z E1 E2).
Qed.

(** An absent value is above every present one, as a missing pre-release is. *)
Definition cmp_option {A} (cmp : A -> A -> comparison) (o p : option A) : comparison :=
  match o, p with
  | None, None => Eq
  | None, Some _ => Gt
  | Some _, None => Lt
  | Some x, Some y => cmp x y
  end.

#[export] Instance cmp_option_order {A} (cmp : A -> A -> comparison) :
  CmpOrder cmp -> CmpOrder (cmp_option cmp).
Proof.
  intros O. split.
  - intros [x|] [y|]; simpl; try done; apply cmp_antisym.
  - intros [x|] [y|] [z|]; simpl; try done; apply cmp_eq_l.
  - intros [x|] [y|] [z|]; simpl; try done; apply cmp_lt_trans.
Qed.

Lemma cmp_list_eq {A} (cmp : A -> A -> comparison) l k :
  (forall x y, cmp x y = Eq -> x = y) -> cmp_list cmp l k = Eq -> l = k.
Proof.
  intros H. revert k. induction l as [|x l IH]; intros [|y k]; simpl; try done.
  unfold cmp_then. destruct (cmp x y) eqn:E; try done. intros E2.
  by rewrite (H _ _ E), (IH _ E2).
Qed.
