(* ===== verification/CString.v ===== *)
(** * C strings and the C library functions the program calls on them

    A C string is modelled by its characters before the terminating NUL, a
    pointer into a string by the suffix it points to: two pointers into the same
    string are equal exactly when their suffixes have the same length. *)
From S2P Require Import Prelude.

(** ** Characters *)

Definition byte_of (c : ascii) : Z := Z.of_N (Ascii.N_of_ascii c).

Definition byte_in (lo hi : Z) (c : ascii) : bool :=
  (lo <=? byte_of c) && (byte_of c <=? hi).

Definition isdigit : ascii -> bool := byte_in 48 57.
Definition isupper : ascii -> bool := byte_in 65 90.
Definition islower : ascii -> bool := byte_in 97 122.

(** The "C" locale's [isspace]: \t \n \v \f \r and the blank. *)
Definition isspace (c : ascii) : bool := byte_in 9 13 c || (byte_of c =? 32).

Definition isxdigit (c : ascii) : bool := isdigit c || byte_in 65 70 c || byte_in 97 102 c.

Definition ascii_of_Z (z : Z) : ascii := Ascii.ascii_of_N (Z.to_N z).

Definition toupper (c : ascii) : ascii :=
  if islower c then ascii_of_Z (byte_of c - 32) else c.
Definition tolower (c : ascii) : ascii :=
  if isupper c then ascii_of_Z (byte_of c + 32) else c.

Lemma byte_of_range c : 0 <= byte_of c < 256.
Proof.
  unfold byte_of. pose proof (Ascii.N_ascii_bounded c). lia.
Qed.
#[export] Hint Resolve byte_of_range : swu.

Lemma byte_of_inj c d : byte_of c = byte_of d -> c = d.
Proof.
  unfold byte_of. intros H%N2Z.inj.
  rewrite <- (Ascii.ascii_N_embedding c), <- (Ascii.ascii_N_embedding d). by rewrite H.
Qed.

Lemma byte_of_ascii_of_Z z : 0 <= z < 256 -> byte_of (ascii_of_Z z) = z.
Proof.
  intros ?. unfold byte_of, ascii_of_Z.
  rewrite Ascii.N_ascii_embedding; lia.
Qed.

(** ** Length, comparison, search *)

Definition strlen (s : string) : Z := Z.of_nat (String.length s).

(** C fixes the sign of the result only; -1, 0 and 1 stand for the three signs.
    Characters are compared as [unsigned char]. *)
Definition strcmp (s t : string) : Z := Z_of_comparison (String.compare s t).

Fixpoint str_take (n : nat) (s : string) : string :=
  match n, s with
  | S n, String c s => String c (str_take n s)
  | _, _ => ""
  end.

Fixpoint str_drop (n : nat) (s : string) : string :=
  match n, s with
  | S n, String _ s => str_drop n s
  | _, _ => s
  end.

Definition strncmp (s t : string) (n : Z) : Z :=
  strcmp (str_take (Z.to_nat n) s) (str_take (Z.to_nat n) t).

(** [strchr]: the suffix that starts at the first [c]. *)
Fixpoint strchr (s : string) (c : ascii) : option string :=
  match s with
  | EmptyString => None
  | String d s' => if Ascii.eqb d c then Some s else strchr s' c
  end.

Fixpoint is_prefix (p s : string) : bool :=
  match p, s with
  | EmptyString, _ => true
  | String c p, String d s => Ascii.eqb c d && is_prefix p s
  | _, _ => false
  end.

Fixpoint strstr (s needle : string) : option string :=
  if is_prefix needle s then Some s
  else match s with
       | EmptyString => None
       | String _ s' => strstr s' needle
       end.

Fixpoint str_mem (c : ascii) (s : string) : bool :=
  match s with
  | EmptyString => false
  | String d s' => Ascii.eqb d c || str_mem c s'
  end.

Fixpoint str_forall (f : ascii -> bool) (s : string) : bool :=
  match s with
  | EmptyString => true
  | String c s' => f c && str_forall f s'
  end.

Fixpoint str_filter (f : ascii -> bool) (s : string) : string :=
  match s with
  | EmptyString => ""
  | String c s' => if f c then String c (str_filter f s') else str_filter f s'
  end.

Fixpoint str_map (f : ascii -> ascii) (s : string) : string :=
  match s with
  | EmptyString => ""
  | String c s' => String (f c) (str_map f s')
  end.

(** What [strspn] and [strcspn] measure: the rest after, and the longest prefix
    of, characters that satisfy [f]. *)
Fixpoint str_skip (f : ascii -> bool) (s : string) : string :=
  match s with
  | EmptyString => ""
  | String c s' => if f c then str_skip f s' else s
  end.

Fixpoint str_span (f : ascii -> bool) (s : string) : string :=
  match s with
  | EmptyString => ""
  | String c s' => if f c then String c (str_span f s') else ""
  end.

(** [strtok_r]: the token and what [saveptr] points to afterwards. *)
Definition strtok_r (s delim : string) : option string * string :=
  let s := str_skip (fun c => str_mem c delim) s in
  match s with
  | EmptyString => (None, s)
  | _ =>
      let tok := str_span (fun c => negb (str_mem c delim)) s in
      (Some tok, str_drop (S (String.length tok)) s)
  end.

(** [getline]: the lines of a text, each with its newline. *)
Fixpoint lines_go (cur : string) (s : string) : list string :=
  match s with
  | EmptyString => if String.eqb cur "" then [] else [cur]
  | String c s' =>
      if Ascii.eqb c "010"%char then (cur +:+ String c "") :: lines_go "" s'
      else lines_go (cur +:+ String c "") s'
  end.

Definition getlines (s : string) : list string := lines_go "" s.

(** The part of [s] before the suffix [r] a pointer designates. *)
Definition str_before (s r : string) : string :=
  str_take (String.length s - String.length r) s.

(** [strlcpy (dst, src, size)]: the characters left in [dst]. *)
Definition strlcpy (src : string) (size : Z) : string :=
  str_take (Z.to_nat (size - 1)) src.

(** ** Number parsing: [strtol], [strtoul], [strtoull] *)

Definition digit_val (c : ascii) : option Z :=
  if isdigit c then Some (byte_of c - 48)
  else if isupper c then Some (byte_of c - 55)
  else if islower c then Some (byte_of c - 87)
  else None.

Definition base_digit (base : Z) (c : ascii) : option Z :=
  match digit_val c with
  | Some d => if d <? base then Some d else None
  | None => None
  end.

(** The longest run of digits: its value on top of [acc], and what follows. *)
Fixpoint scan_digits (base acc : Z) (s : string) : Z * string :=
  match s with
  | EmptyString => (acc, "")
  | String c s' =>
      match base_digit base c with
      | Some d => scan_digits base (acc * base + d) s'
      | None => (acc, s)
      end
  end.

Fixpoint skip_space (s : string) : string :=
  match s with
  | String c s' => if isspace c then skip_space s' else s
  | EmptyString => ""
  end.

Definition scan_sign (s : string) : bool * string :=
  match s with
  | String "-" s' => (true, s')
  | String "+" s' => (false, s')
  | _ => (false, s)
  end.

Definition starts_with_digit (base : Z) (s : string) : bool :=
  match s with
  | String c _ => match base_digit base c with Some _ => true | None => false end
  | EmptyString => false
  end.

Definition hex_prefix (s : string) : option string :=
  match s with
  | String "0" (String x s') =>
      if (Ascii.eqb x "x" || Ascii.eqb x "X") && starts_with_digit 16 s'
      then Some s' else None
  | _ => None
  end.

(** The base that is used and the text of the number without its prefix. *)
Definition scan_base (base : Z) (s : string) : Z * string :=
  if (base =? 0) || (base =? 16) then
    match hex_prefix s with
    | Some s' => (16, s')
    | None =>
        if base =? 16 then (16, s)
        else match s with
             | String "0" _ => (8, s)
             | _ => (10, s)
             end
    end
  else (base, s).

(** Sign, magnitude and the rest; [None] when there is no digit (the end
    pointer is then the start of the string). *)
Definition scan_number (base : Z) (s : string) : option (bool * Z * string) :=
  let '(neg, s1) := scan_sign (skip_space s) in
  let '(b, s2) := scan_base base s1 in
  if starts_with_digit b s2 then
    let '(v, r) := scan_digits b 0 s2 in Some (neg, v, r)
  else None.

Definition clamp (lo hi v : Z) : Z := Z.max lo (Z.min hi v).

(** [long strtol (s, &endptr, base)] on a 64-bit target. *)
Definition strtol (s : string) (base : Z) : Z * string :=
  match scan_number base s with
  | Some (neg, v, r) => (clamp LONG_MIN LONG_MAX (if neg then - v else v), r)
  | None => (0, s)
  end.

(** [unsigned long long strtoull (s, &endptr, base)], with the [errno] it sets:
    a minus sign negates modulo 2^64, an overflow gives [ULLONG_MAX]. *)
Definition strtoull (s : string) (base : Z) : Z * string * Z :=
  match scan_number base s with
  | Some (neg, v, r) =>
      if v <=? ULONG_MAX then (if neg then u64 (- v) else v, r, 0)
      else (ULONG_MAX, r, ERANGE)
  | None => (0, s, 0)
  end.

(** [unsigned long strtoul], the same function on a 64-bit target. *)
Definition strtoul (s : string) (base : Z) : Z := (strtoull s base).1.1.

(** ** Number printing *)

Definition digit_char (d : Z) : ascii := ascii_of_Z (if d <? 10 then 48 + d else 87 + d).

Fixpoint print_digits (fuel : nat) (base v : Z) (acc : string) : string :=
  match fuel with
  | O => acc
  | S fuel =>
      let acc := String (digit_char (v mod base)) acc in
      if v / base =? 0 then acc else print_digits fuel base (v / base) acc
  end.

(** 64 digits are enough for every 64-bit value in a base of two or more. *)
Definition print_base (base v : Z) : string := print_digits 64 base v "".

(** [sprintf ("%d")]. *)
Definition print_d (v : Z) : string :=
  if v <? 0 then "-" +:+ print_base 10 (- v) else print_base 10 v.

(** [sprintf ("%02x")] of a byte. *)
Definition print_02x (v : Z) : string :=
  String (digit_char (v / 16)) (String (digit_char (v mod 16)) "").

(** ** [strtok] with one delimiter: the maximal runs without it *)

Fixpoint strtok_go (d : ascii) (cur : string) (s : string) : list string :=
  match s with
  | EmptyString => if String.eqb cur "" then [] else [cur]
  | String c s' =>
      if Ascii.eqb c d then
        (if String.eqb cur "" then [] else [cur]) ++ strtok_go d "" s'
      else strtok_go d (cur +:+ String c "") s'
  end.

Definition strtok_all (s : string) (d : ascii) : list string := strtok_go d "" s.

(** ** Lemmas *)

Lemma str_app_length s t : String.length (s +:+ t) = (String.length s + String.length t)%nat.
Proof. induction s as [|c s IH]; simpl; [done|]. unfold String.app in *. simpl. by rewrite IH. Qed.

Lemma str_app_nil_r s : s +:+ "" = s.
Proof. induction s as [|c s IH]; [done|]. unfold String.app in *. simpl. by rewrite IH. Qed.

Lemma str_app_assoc s t u : (s +:+ t) +:+ u = s +:+ (t +:+ u).
Proof. induction s as [|c s IH]; [done|]. unfold String.app in *. simpl. by rewrite IH. Qed.

Lemma str_app_cons c s t : String c s +:+ t = String c (s +:+ t).
Proof. done. Qed.

Lemma str_app_nil_l t : "" +:+ t = t.
Proof. done. Qed.

#[export] Hint Rewrite str_app_length str_app_nil_r str_app_nil_l str_app_cons : swu.

(** *** Searching and splitting *)

(** The fields of [s] separated by [d]; empty fields are kept. *)
Fixpoint split_on (d : ascii) (s : string) : list string :=
  match s with
  | EmptyString => [""]
  | String c s' =>
      if Ascii.eqb c d then "" :: split_on d s'
      else match split_on d s' with
           | t :: ts => String c t :: ts
           | [] => [String c ""]
           end
  end.

Lemma ascii_eqb_refl c : Ascii.eqb c c = true.
Proof. by apply Ascii.eqb_eq. Qed.

Lemma strchr_none s d : strchr s d = None -> str_mem d s = false /\ split_on d s = [s].
Proof.
  induction s as [|c s IH]; simpl; [done|].
  destruct (Ascii.eqb c d); [done|]. intros H. apply IH in H as [-> ->]. done.
Qed.

Lemma strchr_some s d p :
  strchr s d = Some p ->
  exists t r, p = String d r /\ s = t +:+ String d r /\ str_mem d t = false /\
    split_on d s = t :: split_on d r.
Proof.
  induction s as [|c s IH]; simpl; [done|].
  destruct (Ascii.eqb c d) eqn:E.
  - apply Ascii.eqb_eq in E as ->. intros [= <-]. by exists "", s.
  - intros H. destruct (IH H) as (t & r & -> & -> & Ht & Hs).
    exists (String c t), r. rewrite ?str_app_cons. simpl. by rewrite E, Ht, Hs.
Qed.

Lemma strchr_app t d r : str_mem d t = false -> strchr (t +:+ String d r) d = Some (String d r).
Proof.
  induction t as [|c t IH]; simpl.
  - intros _. rewrite ?str_app_nil_l. simpl. by rewrite ascii_eqb_refl.
  - intros [H1 H2]%orb_false_iff. rewrite ?str_app_cons. simpl. rewrite H1. by apply IH.
Qed.

Lemma strchr_none_mem s d : str_mem d s = false -> strchr s d = None.
Proof.
  induction s as [|c s IH]; simpl; [done|]. intros [-> ?]%orb_false_iff. by apply IH.
Qed.

Lemma str_take_app s t : str_take (String.length s) (s +:+ t) = s.
Proof. induction s as [|c s IH]; [done|]. rewrite ?str_app_cons. simpl. by rewrite IH. Qed.

Lemma str_take_all s n : (String.length s <= n)%nat -> str_take n s = s.
Proof.
  revert n. induction s as [|c s IH]; intros [|n] H; simpl in *; try done; [lia|].
  by rewrite IH by lia.
Qed.

Lemma str_take_app_le n s t : (n <= String.length s)%nat -> str_take n (s +:+ t) = str_take n s.
Proof.
  revert n. induction s as [|c s IH]; intros [|n] H; simpl in *; try done; [lia|].
  rewrite ?str_app_cons. simpl. by rewrite IH by lia.
Qed.

Lemma str_take_length n s : String.length (str_take n s) = Nat.min n (String.length s).
Proof.
  revert n. induction s as [|c s IH]; intros [|n]; simpl; try done. by rewrite IH.
Qed.

Lemma str_before_app s t : str_before (s +:+ t) t = s.
Proof.
  unfold str_before. rewrite str_app_length.
  replace (String.length s + String.length t - String.length t)%nat
    with (String.length s) by lia. apply str_take_app.
Qed.

Lemma strlen_app s t : strlen (s +:+ t) = strlen s + strlen t.
Proof. unfold strlen. rewrite str_app_length. lia. Qed.

Lemma strlen_nonneg s : 0 <= strlen s.
Proof. unfold strlen. lia. Qed.
#[export] Hint Resolve strlen_nonneg : swu.

Lemma strlen_zero s : strlen s = 0 -> s = "".
Proof. unfold strlen. destruct s; simpl; [done|lia]. Qed.

Lemma strlen_cons c s : strlen (String c s) = 1 + strlen s.
Proof. unfold strlen. simpl. lia. Qed.

#[export] Hint Rewrite strlen_app strlen_cons str_before_app str_take_app : swu.

Lemma str_mem_app c s t : str_mem c (s +:+ t) = str_mem c s || str_mem c t.
Proof.
  induction s as [|d s IH]; [done|]. rewrite ?str_app_cons. simpl. rewrite IH.
  by rewrite orb_assoc.
Qed.

Lemma str_forall_app f s t : str_forall f (s +:+ t) = str_forall f s && str_forall f t.
Proof.
  induction s as [|d s IH]; [done|]. rewrite ?str_app_cons. simpl. rewrite IH.
  by rewrite andb_assoc.
Qed.

Lemma str_forall_weaken (f g : ascii -> bool) s :
  (forall c, f c = true -> g c = true) -> str_forall f s = true -> str_forall g s = true.
Proof.
  intros H. induction s as [|c s IH]; simpl; [done|].
  intros [H1 H2]%andb_true_iff. by rewrite H, IH.
Qed.

Lemma str_forall_mem f c s : str_forall f s = true -> f c = false -> str_mem c s = false.
Proof.
  intros H Hc. induction s as [|d s IH]; simpl in *; [done|].
  apply andb_true_iff in H as [H1 H2]. rewrite IH by done.
  destruct (Ascii.eqb d c) eqn:E; [|done]. apply Ascii.eqb_eq in E. congruence.
Qed.

(** *** String comparison is lexicographic *)

Lemma str_compare_list s t :
  String.compare s t =
  cmp_list Ascii.compare (String.list_ascii_of_string s) (String.list_ascii_of_string t).
Proof.
  revert t. induction s as [|c s IH]; intros [|d t]; simpl; try done.
  by destruct (Ascii.compare c d); simpl.
Qed.

#[export] Instance String_compare_order : CmpOrder String.compare.
Proof.
  pose proof (cmp_order_key String.list_ascii_of_string (cmp_list Ascii.compare) _) as O.
  split; intros *; rewrite !str_compare_list; apply O.
Qed.

Lemma strcmp_zero s t : strcmp s t = 0 <-> s = t.
Proof.
  unfold strcmp. split.
  - intros H. apply String.compare_eq_iff. by destruct (String.compare s t).
  - intros ->. by rewrite cmp_refl.
Qed.

(** Comparing the common length first and the lengths next, as
    [strncmp] on the shorter length followed by a length test does. *)
Lemma str_compare_prefix s t :
  let m := Nat.min (String.length s) (String.length t) in
  String.compare s t =
  cmp_then (String.compare (str_take m s) (str_take m t))
           (Nat.compare (String.length s) (String.length t)).
Proof.
  simpl. revert t. induction s as [|c s IH]; intros [|d t]; simpl; try done.
  rewrite IH. by destruct (Ascii.compare c d).
Qed.

(** *** [strtol] stops at a delimiter *)

(** A character that ends a decimal number and cannot begin one. *)
Definition num_stop (c : ascii) : bool :=
  negb (isspace c) && negb (Ascii.eqb c "-") && negb (Ascii.eqb c "+") && negb (isdigit c).

Lemma base10_digit c : base_digit 10 c = if isdigit c then Some (byte_of c - 48) else None.
Proof.
  unfold base_digit, digit_val, isdigit, isupper, islower, byte_in.
  repeat case_if; try done; zsolve.
Qed.

Section NumStop.
Context (c : ascii) (Hc : num_stop c = true).

Lemma num_stop_inv :
  isspace c = false /\ Ascii.eqb c "-" = false /\ Ascii.eqb c "+" = false /\
  base_digit 10 c = None.
Proof.
  unfold num_stop in Hc. rewrite !andb_true_iff, !negb_true_iff in Hc.
  destruct Hc as [[[-> ->] ->] Hd]. by rewrite base10_digit, Hd.
Qed.

Lemma skip_space_stop s r : skip_space (s +:+ String c r) = skip_space s +:+ String c r.
Proof.
  destruct num_stop_inv as (H & _).
  induction s as [|d s IH]; [rewrite ?str_app_nil_l; simpl; by rewrite H|].
  rewrite ?str_app_cons. simpl. by destruct (isspace d).
Qed.

Lemma scan_sign_stop s r :
  scan_sign (s +:+ String c r) =
  ((scan_sign s).1, (scan_sign s).2 +:+ String c r).
Proof.
  destruct num_stop_inv as (_ & H1 & H2 & _).
  destruct s as [|d s].
  - rewrite ?str_app_nil_l. simpl. destruct c as [[][][][][][][][]]; done.
  - rewrite ?str_app_cons. destruct d as [[][][][][][][][]]; done.
Qed.

Lemma starts_with_digit_stop s r :
  starts_with_digit 10 (s +:+ String c r) = starts_with_digit 10 s.
Proof.
  destruct num_stop_inv as (_ & _ & _ & H).
  destruct s as [|d s]; [rewrite ?str_app_nil_l; simpl; by rewrite H|done].
Qed.

Lemma scan_digits_stop acc s r :
  scan_digits 10 acc (s +:+ String c r) =
  ((scan_digits 10 acc s).1, (scan_digits 10 acc s).2 +:+ String c r).
Proof.
  destruct num_stop_inv as (_ & _ & _ & H).
  revert acc. induction s as [|d s IH]; intros acc.
  - rewrite ?str_app_nil_l. simpl. by rewrite H.
  - rewrite ?str_app_cons. simpl. by destruct (base_digit 10 d).
Qed.

Lemma scan_number_stop s r :
  scan_number 10 (s +:+ String c r) =
  match scan_number 10 s with
  | Some (neg, v, e) => Some (neg, v, e +:+ String c r)
  | None => None
  end.
Proof.
  unfold scan_number. rewrite skip_space_stop, scan_sign_stop.
  destruct (scan_sign (skip_space s)) as [neg s1]; simpl.
  rewrite starts_with_digit_stop. destruct (starts_with_digit 10 s1); [|done].
  rewrite scan_digits_stop. by destruct (scan_digits 10 0 s1).
Qed.

Lemma strtol_stop s r :
  strtol (s +:+ String c r) 10 = ((strtol s 10).1, (strtol s 10).2 +:+ String c r).
Proof.
  unfold strtol. rewrite scan_number_stop.
  by destruct (scan_number 10 s) as [[[neg v] e]|].
Qed.
End NumStop.

(** *** Printed numbers read back *)

Lemma digit_char_value d : 0 <= d < 16 ->
  byte_of (digit_char d) = if d <? 10 then 48 + d else 87 + d.
Proof.
  intros ?. unfold digit_char. rewrite byte_of_ascii_of_Z; [done|]. case_if; zsolve.
Qed.

Lemma base_digit_char base d : 0 <= d < base -> base <= 16 ->
  base_digit base (digit_char d) = Some d.
Proof.
  intros ? ?. unfold base_digit, digit_val, isdigit, isupper, islower, byte_in.
  rewrite digit_char_value by lia. repeat case_if; simplify_eq; try (f_equal; zsolve); zsolve.
Qed.

Lemma isdigit_digit_char d : 0 <= d < 10 -> isdigit (digit_char d) = true.
Proof.
  intros ?. unfold isdigit, byte_in. rewrite digit_char_value by lia.
  case_if; [|zsolve]. apply andb_true_iff. rewrite !Z.leb_le. lia.
Qed.

Lemma scan_print_digits base fuel v acc :
  2 <= base <= 16 -> 0 <= v < base ^ Z.of_nat fuel -> (0 < fuel)%nat ->
  exists k, 0 < k /\ forall a, scan_digits base a (print_digits fuel base v acc) =
    scan_digits base (a * k + v) acc.
Proof.
  intros Hb. revert v acc. induction fuel as [|fuel IH]; intros v acc Hv Hf; [lia|].
  cbn [print_digits].
  pose proof (Z.mod_pos_bound v base) as Hm. pose proof (Z.div_mod v base) as Hd.
  destruct (Z.eqb_spec (v / base) 0) as [E|E].
  - exists base. split; [lia|]. intros a. cbn [scan_digits].
    rewrite base_digit_char by lia. f_equal. nia.
  - rewrite Nat2Z.inj_succ, Z.pow_succ_r in Hv by lia.
    assert (0 <= v / base) by (apply Z.div_pos; lia).
    assert (v / base < base ^ Z.of_nat fuel) by (apply Z.div_lt_upper_bound; lia).
    assert (0 < fuel)%nat. { destruct fuel; [|lia]. simpl in *. lia. }
    destruct (IH (v / base) (String (digit_char (v mod base)) acc)) as (k & Hk & IH'); [lia|done|].
    exists (k * base). split; [nia|]. intros a. rewrite IH'. cbn [scan_digits].
    rewrite base_digit_char by lia. f_equal. nia.
Qed.

Lemma print_digits_forall f base fuel v acc :
  2 <= base -> (forall d, 0 <= d < base -> f (digit_char d) = true) ->
  str_forall f acc = true -> str_forall f (print_digits fuel base v acc) = true.
Proof.
  intros Hb Hf. revert v acc. induction fuel as [|fuel IH]; intros v acc Ha; [done|].
  cbn [print_digits]. pose proof (Z.mod_pos_bound v base).
  assert (str_forall f (String (digit_char (v mod base)) acc) = true).
  { simpl. by rewrite Hf, Ha by lia. }
  case_if; [done|]. by apply IH.
Qed.

Lemma print_digits_head base fuel v acc : (0 < fuel)%nat ->
  exists d s, print_digits fuel base v acc = String (digit_char (d mod base)) s.
Proof.
  revert v acc. induction fuel as [|fuel IH]; intros v acc Hf; [lia|].
  cbn [print_digits]. case_if; [by eexists _, _|].
  destruct fuel; [by eexists _, _|]. apply IH. lia.
Qed.

Lemma print_d_digits v : 0 <= v -> str_forall isdigit (print_d v) = true.
Proof.
  intros ?. unfold print_d, print_base. rewrite (proj2 (Z.ltb_ge v 0)) by lia.
  apply print_digits_forall; [lia| |done]. apply isdigit_digit_char.
Qed.

Lemma digit_not_space c : isdigit c = true -> isspace c = false.
Proof. unfold isdigit, isspace, byte_in. intros. bool_to_prop. apply orb_false_iff. rewrite andb_false_iff, !Z.leb_gt, Z.eqb_neq. lia. Qed.

Lemma digit_not_sign c s : isdigit c = true -> scan_sign (String c s) = (false, String c s).
Proof. destruct c as [[][][][][][][][]]; done. Qed.

Lemma scan_base_10 s : scan_base 10 s = (10, s).
Proof. done. Qed.

Lemma print_digits_app fuel base v acc t :
  print_digits fuel base v acc +:+ t = print_digits fuel base v (acc +:+ t).
Proof.
  revert v acc. induction fuel as [|fuel IH]; intros v acc; cbn [print_digits]; [done|].
  case_if; [done|]. by rewrite IH.
Qed.

(** A printed number, read up to the text [acc] behind it; [neg]: with a minus sign. *)
Lemma scan_number_digits (neg : bool) v acc : 0 <= v < 10 ^ 64 -> scan_digits 10 v acc = (v, acc) ->
  scan_number 10 ((if neg then "-" else "") +:+ print_digits 64 10 v acc) = Some (neg, v, acc).
Proof.
  intros Hv Hacc. destruct (print_digits_head 10 64 v acc) as (d & s & E); [lia|].
  pose proof (Z.mod_pos_bound d 10).
  assert (isdigit (digit_char (d mod 10)) = true) as Hd by (apply isdigit_digit_char; lia).
  destruct (scan_print_digits 10 64 v acc) as (k & _ & Hk); [lia|lia|lia|].
  unfold scan_number. set (t := print_digits 64 10 v acc) in *.
  assert (skip_space t = t) as Hs by (rewrite E; cbn [skip_space]; by rewrite digit_not_space).
  assert (scan_sign t = (false, t)) as Hg by (rewrite E; by apply digit_not_sign).
  assert (scan_sign (skip_space ((if neg then "-" else "") +:+ t)) = (neg, t)) as ->.
  { destruct neg; [by rewrite str_app_cons, str_app_nil_l|by rewrite str_app_nil_l, Hs]. }
  rewrite scan_base_10.
  assert (starts_with_digit 10 t = true) as -> by (rewrite E; cbn [starts_with_digit]; by rewrite base10_digit, Hd).
  by rewrite (Hk 0), Z.mul_0_l, Z.add_0_l, Hacc.
Qed.

Lemma scan_number_print_d v : 0 <= v < 10 ^ 64 ->
  scan_number 10 (print_d v) = Some (false, v, "").
Proof.
  intros Hv. unfold print_d. rewrite (proj2 (Z.ltb_ge v 0)) by lia. by apply (scan_number_digits false v "").
Qed.

Lemma strtol_print_d v : 0 <= v <= LONG_MAX -> strtol (print_d v) 10 = (v, "").
Proof.
  unfold LONG_MAX. intros Hv. unfold strtol. rewrite scan_number_print_d by lia.
  f_equal. unfold clamp, LONG_MIN, LONG_MAX. lia.
Qed.

Lemma print_d_nonempty v : 0 < strlen (print_d v).
Proof.
  unfold print_d, print_base.
  assert (forall w, 0 < strlen (print_digits 64 10 w "")) as H.
  { intros w. destruct (print_digits_head 10 64 w "") as (d & s & ->); [lia|].
    rewrite strlen_cons. pose proof (strlen_nonneg s). lia. }
  case_if; [rewrite strlen_app; pose proof (strlen_nonneg "-"); specialize (H (- v)); lia|done].
Qed.

Lemma print_digits_length base fuel v acc :
  strlen (print_digits fuel base v acc) <= Z.of_nat fuel + strlen acc.
Proof.
  revert v acc. induction fuel as [|fuel IH]; intros v acc; cbn [print_digits]; [lia|].
  case_if; [rewrite strlen_cons; lia|]. etrans; [apply IH|]. rewrite strlen_cons. lia.
Qed.

Lemma print_d_length v : strlen (print_d v) <= 65.
Proof.
  unfold print_d, print_base. case_if; [rewrite strlen_app|];
    pose proof (print_digits_length 10 64 v ""); pose proof (print_digits_length 10 64 (- v) "");
    change (strlen "") with 0 in *; change (strlen "-") with 1; lia.
Qed.

Lemma str_get_lt i s : (i < String.length s)%nat -> exists c, String.get i s = Some c.
Proof.
  revert i. induction s as [|c s IH]; intros [|i] H; simpl in *; try lia; [by eexists|].
  apply IH. lia.
Qed.

Lemma str_take_drop_get i s c : String.get i s = Some c ->
  str_drop i s = String c (str_drop (S i) s).
Proof.
  revert i. induction s as [|d s IH]; intros [|i]; simpl; intros H; simplify_eq; try done.
  by apply IH.
Qed.

Lemma str_take_S i s c : String.get i s = Some c ->
  str_take (S i) s = str_take i s +:+ String c "".
Proof.
  revert i. induction s as [|d s IH]; intros [|i] H; simpl in *; simplify_eq; [done|].
  rewrite ?str_app_cons. f_equal. by apply IH.
Qed.

Lemma str_drop_length i s : String.length (str_drop i s) = (String.length s - i)%nat.
Proof. revert i. induction s as [|c s IH]; intros [|i]; simpl; try done. Qed.

Lemma str_drop_app i s t : String.length s = i -> str_drop i (s +:+ t) = t.
Proof.
  intros <-. induction s as [|c s IH]; simpl; [by destruct t|]. rewrite ?str_app_cons. apply IH.
Qed.

Lemma str_drop_all i s : (String.length s <= i)%nat -> str_drop i s = "".
Proof.
  revert i. induction s as [|c s IH]; intros [|i] H; simpl in *; try done; [lia|]. apply IH. lia.
Qed.

Lemma str_take_app_exact i s t : String.length s = i -> str_take i (s +:+ t) = s.
Proof. intros <-. apply str_take_app. Qed.

Lemma str_filter_forall f s : str_forall f (str_filter f s) = true.
Proof.
  induction s as [|c s IH]; simpl; [done|]. destruct (f c) eqn:E; simpl; [by rewrite E|done].
Qed.

Lemma str_filter_length f s : (String.length (str_filter f s) <= String.length s)%nat.
Proof. induction s as [|c s IH]; simpl; [lia|]. destruct (f c); simpl; lia. Qed.

(** ** Tokens and lines *)

Lemma str_skip_stop f s : (forall c s', s = String c s' -> f c = false) -> str_skip f s = s.
Proof. destruct s as [|c s]; [done|]. intros H. cbn [str_skip]. by rewrite (H c s eq_refl). Qed.

Lemma str_span_app f s d t :
  str_forall f s = true -> f d = false -> str_span f (s +:+ String d t) = s.
Proof.
  induction s as [|c s IH]; intros H Hd; rewrite ?str_app_cons, ?str_app_nil_l; cbn [str_span].
  - by rewrite Hd.
  - cbn [str_forall] in H. apply andb_true_iff in H as [-> H]. by rewrite IH.
Qed.

Lemma str_span_all f s : str_forall f s = true -> str_span f s = s.
Proof.
  induction s as [|c s IH]; intros H; [done|]. cbn [str_span str_forall] in *.
  apply andb_true_iff in H as [-> H]. by rewrite IH.
Qed.

(** A token: not empty, without delimiters. *)
Definition is_token (delim tok : string) : bool :=
  negb (String.eqb tok "") && str_forall (fun c => negb (str_mem c delim)) tok.

Lemma is_token_skip delim tok t :
  is_token delim tok = true -> str_skip (fun c => str_mem c delim) (tok +:+ t) = tok +:+ t.
Proof.
  intros [H1 H2]%andb_true_iff. destruct tok as [|c tok]; [done|].
  rewrite str_app_cons. cbn [str_skip str_forall] in *. apply andb_true_iff in H2 as [H2 _].
  by apply negb_true_iff in H2 as ->.
Qed.

Lemma strtok_r_token delim tok d rest :
  is_token delim tok = true -> str_mem d delim = true ->
  strtok_r (tok +:+ String d rest) delim = (Some tok, rest).
Proof.
  intros H Hd. unfold strtok_r. rewrite is_token_skip by done.
  apply andb_true_iff in H as [H1 H2].
  rewrite str_span_app by (rewrite ?Hd; done).
  destruct tok as [|c tok]; [done|]. rewrite str_app_cons. do 2 f_equal.
  rewrite <- str_app_cons. clear. generalize (String c tok). induction s as [|x s IH].
  - done.
  - rewrite str_app_cons. exact IH.
Qed.

Lemma strtok_r_last delim tok :
  is_token delim tok = true -> strtok_r tok delim = (Some tok, "").
Proof.
  intros H. unfold strtok_r. pose proof (is_token_skip delim tok "" H) as E.
  rewrite str_app_nil_r in E. rewrite E. apply andb_true_iff in H as [H1 H2].
  rewrite str_span_all, str_drop_all by (done || lia). by destruct tok.
Qed.

Definition nl : ascii := "010".

Definition unlines (l : list string) : string :=
  fold_right (fun line s => line +:+ String nl s) "" l.

Lemma lines_go_line cur line s :
  str_mem nl line = false ->
  lines_go cur (line +:+ String nl s) = (cur +:+ line +:+ String nl "") :: lines_go "" s.
Proof.
  revert cur. induction line as [|c line IH]; intros cur H; rewrite ?str_app_cons, ?str_app_nil_l.
  - cbn [lines_go]. by rewrite Ascii.eqb_refl.
  - cbn [str_mem lines_go] in *. apply orb_false_iff in H as [H1 H2].
    unfold nl in H1. rewrite H1, IH, str_app_assoc by done. by rewrite str_app_cons, str_app_nil_l.
Qed.

Lemma getlines_unlines l :
  Forall (fun line => str_mem nl line = false) l ->
  getlines (unlines l) = (fun line => line +:+ String nl "") <$> l.
Proof.
  unfold getlines. induction 1 as [|line l H _ IH]; [done|].
  change (unlines (line :: l)) with (line +:+ String nl (unlines l)).
  by rewrite lines_go_line, str_app_nil_l, IH by done.
Qed.

Lemma token_no_nl delim k :
  str_mem nl delim = true -> is_token delim k = true -> str_mem nl k = false.
Proof.
  intros Hd [_ H]%andb_true_iff. induction k as [|c k IH]; [done|].
  cbn [str_forall str_mem] in *. apply andb_true_iff in H as [H1 H2].
  rewrite (IH H2), orb_false_r. apply Ascii.eqb_neq. intros ->. by rewrite Hd in H1.
Qed.

Lemma strlcpy_fits s size : strlen s < size -> strlcpy s size = s.
Proof. intros Hs. unfold strlcpy. apply str_take_all. unfold strlen in *. lia. Qed.
