(* ===== verification/Semver.v ===== *)
(** * Semantic versions: [core/semver.c]

    Parsing, comparison, satisfaction, rendering and cleaning of semantic
    version strings. [semver_t] is the C structure; the loops over [char *]
    pointers run on the suffixes the pointers designate. *)
From S2P Require Import Prelude CString.

(** ** Constants and data *)

Definition SLICE_SIZE : Z := SWUPDATE_GENERAL_STRING_SIZE.
Definition DELIMITER : ascii := ".".
Definition PR_DELIMITER : ascii := "-".
Definition MT_DELIMITER : ascii := "+".
Definition NUMBERS : string := "0123456789".
Definition ALPHA : string :=
  "abcdefghijklmnopqrstuvwxyzABCDEFGHIJKLMNOPQRSTUVWXYZ".
Definition DELIMITERS : string := ".-+".
Definition VALID_CHARS : string := NUMBERS +:+ ALPHA +:+ DELIMITERS.
Definition MAX_SIZE : Z := 255.
Definition MAX_SAFE_INT : Z := INT_MAX.

Record semver_t := mk_semver {
  major : Z;
  minor : Z;
  patch : Z;
  metadata : option string;
  prerelease : option string;
}.

(** [semver_t v = {}]. *)
Definition semver_zero : semver_t := mk_semver 0 0 0 None None.

Definition set_major (v : Z) (x : semver_t) : semver_t :=
  mk_semver v (minor x) (patch x) (metadata x) (prerelease x).
Definition set_minor (v : Z) (x : semver_t) : semver_t :=
  mk_semver (major x) v (patch x) (metadata x) (prerelease x).
Definition set_patch (v : Z) (x : semver_t) : semver_t :=
  mk_semver (major x) (minor x) v (metadata x) (prerelease x).

(** ** Private helpers *)

(** The string after the cut and the number of characters cut (or -1). *)
Definition strcut (str : string) (begin len : Z) : string * Z :=
  let l := strlen str in
  if l >? MAX_SAFE_INT then (str, -1)
  else
    let len := if len <? 0 then l - begin + 1 else len in
    let len := if begin + len >? l then l - begin else len in
    (str_take (Z.to_nat begin) str +:+ str_drop (Z.to_nat (begin + len)) str, len).

Fixpoint contains (c : ascii) (matrix : string) (len : nat) : bool :=
  match len, matrix with
  | S len, String m matrix => if Ascii.eqb m c then true else contains c matrix len
  | _, _ => false
  end.

Definition has_valid_chars (str matrix : string) : bool :=
  str_forall (fun c => contains c matrix (String.length matrix)) str.

Definition binary_comparison (x y : Z) : Z :=
  if x =? y then 0 else if x >? y then 1 else -1.

Definition parse_int (s : string) : Z :=
  if negb (has_valid_chars s NUMBERS) then -1
  else
    let num := (strtol s 10).1 in
    if num >? MAX_SAFE_INT then -1
    else if num <? 0 then -1
    else num.

(** [buf] cut at the first [sep], and the text after it. *)
Definition parse_slice (buf : string) (sep : ascii) : string * option string :=
  match strchr buf sep with
  | None => (buf, None)
  | Some pr => (str_before buf pr, Some (str_drop 1 pr))
  end.

Definition has_valid_length (s : string) : bool := strlen s <=? MAX_SIZE.

Definition semver_is_valid (s : string) : bool :=
  has_valid_length s && has_valid_chars s VALID_CHARS.

(** ** Parsing *)

(** The body of the [while] of [semver_parse_version]: [n] is what is left of
    the bound [index++ < 4], [index] the value after the increment. *)
Fixpoint semver_parse_slices (n : nat) (index : Z) (slice : option string)
    (ver : semver_t) : Z * semver_t :=
  match n, slice with
  | S n, Some slice =>
      let next := strchr slice DELIMITER in
      let len := match next with
                 | None => strlen slice
                 | Some nx => strlen slice - strlen nx
                 end in
      if len >? SLICE_SIZE then (-1, ver)
      else
        let '(v, endptr) := strtol slice 10 in
        let value := i32 v in
        let off_next := match next with
                        | None => true
                        | Some nx => negb (strlen endptr =? strlen nx)
                        end in
        if off_next && negb (String.eqb endptr "") then (-1, ver)
        else
          let ver := if index =? 1 then set_major value ver
                     else if index =? 2 then set_minor value ver
                     else if index =? 3 then set_patch value ver
                     else ver in
          semver_parse_slices n (index + 1)
            (match next with None => None | Some nx => Some (str_drop 1 nx) end) ver
  | _, _ => (0, ver)
  end.

Definition semver_parse_version (str : string) (ver : semver_t) : Z * semver_t :=
  semver_parse_slices 4 1 (Some str) ver.

(** The return value and the structure pointed to by [ver] afterwards. *)
Definition semver_parse (str : string) (ver : semver_t) : Z * semver_t :=
  if negb (semver_is_valid str) then (-1, ver)
  else
    let '(buf, meta) := parse_slice str MT_DELIMITER in
    let '(buf, pre) := parse_slice buf PR_DELIMITER in
    semver_parse_version buf
      (mk_semver (major ver) (minor ver) (patch ver) meta pre).

(** ** Comparison *)

(** The [while (1)] of [compare_prerelease]; [lastx] and [lasty] are not past
    the end of their strings. One unit of [fuel] is one iteration. *)
Fixpoint compare_identifiers (fuel : nat) (lastx lasty : string) : Z :=
  match fuel with
  | O => 0
  | S fuel =>
      let xptr := match strchr lastx DELIMITER with None => "" | Some p => p end in
      let yptr := match strchr lasty DELIMITER with None => "" | Some p => p end in
      let '(xv, xend) := strtol lastx 10 in
      let xnum := i32 xv in
      let xisnum := strlen xend =? strlen xptr in
      let '(yv, yend) := strtol lasty 10 in
      let ynum := i32 yv in
      let yisnum := strlen yend =? strlen yptr in
      if xisnum && negb yisnum then -1
      else if negb xisnum && yisnum then 1
      else
        let xn := strlen lastx - strlen xptr in
        let yn := strlen lasty - strlen yptr in
        let res := strncmp lastx lasty (Z.min xn yn) in
        if (xisnum && yisnum) && negb (xnum =? ynum) then
          (if xnum <? ynum then -1 else 1)
        else if negb (xisnum && yisnum) && negb (res =? 0) then
          (if res <? 0 then -1 else 1)
        else if negb (xisnum && yisnum) && negb (xn =? yn) then
          (if xn <? yn then -1 else 1)
        else
          match xptr, yptr with
          | EmptyString, EmptyString => 0
          | EmptyString, String _ _ => -1
          | String _ _, EmptyString => 1
          | String _ lastx, String _ lasty => compare_identifiers fuel lastx lasty
          end
  end.

Definition compare_prerelease (x y : option string) : Z :=
  match x, y with
  | None, None => 0
  | Some _, None => -1
  | None, Some _ => 1
  | Some x, Some y => compare_identifiers (S (String.length x)) x y
  end.

Definition semver_compare_prerelease (x y : semver_t) : Z :=
  compare_prerelease (prerelease x) (prerelease y).

Definition semver_compare_version (x y : semver_t) : Z :=
  let res := binary_comparison (major x) (major y) in
  if res =? 0 then
    let res := binary_comparison (minor x) (minor y) in
    if res =? 0 then binary_comparison (patch x) (patch y) else res
  else res.

Definition semver_compare (x y : semver_t) : Z :=
  let res := semver_compare_version x y in
  if res =? 0 then semver_compare_prerelease x y else res.

Definition semver_gt (x y : semver_t) : bool := semver_compare x y =? 1.
Definition semver_lt (x y : semver_t) : bool := semver_compare x y =? -1.
Definition semver_eq (x y : semver_t) : bool := semver_compare x y =? 0.
Definition semver_neq (x y : semver_t) : bool := negb (semver_compare x y =? 0).
Definition semver_gte (x y : semver_t) : bool := semver_compare x y >=? 0.
Definition semver_lte (x y : semver_t) : bool := semver_compare x y <=? 0.

(** ** Satisfaction of a version by an operator *)

Definition semver_satisfies_caret (x y : semver_t) : bool :=
  if major x =? major y then
    if major x =? 0 then
      if minor x =? 0 then (minor x =? minor y) && (patch x =? patch y)
      else if minor x =? minor y then patch x >=? patch y
      else false
    else if minor x >? minor y then true
    else if minor x =? minor y then patch x >=? patch y
    else false
  else false.

Definition semver_satisfies_patch (x y : semver_t) : bool :=
  (major x =? major y) && (minor x =? minor y).

(** [op[i]], the NUL past the end. *)
Definition op_char (op : string) (i : nat) : Z :=
  match String.get i op with Some c => byte_of c | None => 0 end.

Definition SYMBOL_GT := 62.
Definition SYMBOL_LT := 60.
Definition SYMBOL_EQ := 61.
Definition SYMBOL_TF := 126.
Definition SYMBOL_CF := 94.

Definition semver_satisfies (x y : semver_t) (op : string) : bool :=
  let first := op_char op 0 in
  let second := op_char op 1 in
  if first =? SYMBOL_CF then semver_satisfies_caret x y
  else if first =? SYMBOL_TF then semver_satisfies_patch x y
  else if first =? SYMBOL_EQ then semver_eq x y
  else if first =? SYMBOL_GT then
    (if second =? SYMBOL_EQ then semver_gte x y else semver_gt x y)
  else if first =? SYMBOL_LT then
    (if second =? SYMBOL_EQ then semver_lte x y else semver_lt x y)
  else false.

Definition semver_free (x : semver_t) : semver_t :=
  mk_semver (major x) (minor x) (patch x) None None.

(** ** Rendering *)

Definition concat_num (str : string) (x : Z) (sep : option ascii) : string :=
  match sep with
  | None => str +:+ print_d x
  | Some c => str +:+ String c (print_d x)
  end.

Definition concat_char (str x : string) (sep : ascii) : string :=
  str +:+ String sep x.

Definition semver_render (x : semver_t) (dest : string) : string :=
  let dest := concat_num dest (major x) None in
  let dest := concat_num dest (minor x) (Some DELIMITER) in
  let dest := concat_num dest (patch x) (Some DELIMITER) in
  let dest := match prerelease x with
              | Some p => concat_char dest p PR_DELIMITER | None => dest end in
  match metadata x with
  | Some m => concat_char dest m MT_DELIMITER | None => dest end.

Definition semver_bump (x : semver_t) : semver_t := set_major (i32 (major x + 1)) x.
Definition semver_bump_minor (x : semver_t) : semver_t := set_minor (i32 (minor x + 1)) x.
Definition semver_bump_patch (x : semver_t) : semver_t := set_patch (i32 (patch x + 1)) x.

(** ** Cleaning *)

(** The [for] of [semver_clean]; after a cut the loop's [--i] and [++i]
    cancel, so the same index is looked at again. *)
Fixpoint semver_clean_loop (fuel : nat) (s : string) (i len : nat) : Z * string :=
  match fuel with
  | O => (0, s)
  | S fuel =>
      if (i <? len)%nat then
        match String.get i s with
        | Some c =>
            if negb (contains c VALID_CHARS (String.length VALID_CHARS)) then
              let '(s', res) := strcut s (Z.of_nat i) 1 in
              if res =? -1 then (-1, s')
              else semver_clean_loop fuel s' i (len - 1)
            else semver_clean_loop fuel s (S i) len
        | None => (0, s)
        end
      else (0, s)
  end.

Definition semver_clean (s : string) : Z * string :=
  if negb (has_valid_length s) then (-1, s)
  else semver_clean_loop (String.length s) s 0 (String.length s).

(** ** Numeric rendering *)

Fixpoint char_to_int (str : string) : Z :=
  match str with
  | EmptyString => 0
  | String c s =>
      (if contains c VALID_CHARS (String.length VALID_CHARS) then byte_of c else 0)
      + char_to_int s
  end.

Definition semver_numeric (x : semver_t) : Z :=
  let nz v := negb (v =? 0) in
  let buf := "" in
  let buf := if nz (major x) then concat_num buf (major x) None else buf in
  let buf := if nz (major x) || nz (minor x) then concat_num buf (minor x) None else buf in
  let buf := if nz (major x) || nz (minor x) || nz (patch x)
             then concat_num buf (patch x) None else buf in
  let num := parse_int buf in
  if num =? -1 then -1
  else
    let num := match prerelease x with Some p => i32 (num + char_to_int p) | None => num end in
    match metadata x with Some m => i32 (num + char_to_int m) | None => num end.

(** * Properties *)

(** ** Pre-release comparison is a total preorder

    The reference: a pre-release is the list of its dot-separated identifiers,
    numeric ones (as [strtol] reads them, cut to an [int]) below the others, a
    list below its extensions. *)

Inductive identifier := INum (v : Z) | IStr (s : string).

Definition cmp_identifier (a b : identifier) : comparison :=
  match a, b with
  | INum x, INum y => Z.compare x y
  | INum _, IStr _ => Lt
  | IStr _, INum _ => Gt
  | IStr s, IStr t => String.compare s t
  end.

Definition identifier_of (tok : string) : identifier :=
  if String.eqb (strtol tok 10).2 "" then INum (i32 (strtol tok 10).1) else IStr tok.

Definition identifiers (s : string) : list identifier :=
  identifier_of <$> split_on DELIMITER s.

Definition prerelease_order : option string -> option string -> comparison :=
  fun x y => cmp_option (cmp_list cmp_identifier) (identifiers <$> x) (identifiers <$> y).

(** Versions are ordered by their numbers first, the pre-release next; the
    metadata is ignored. *)
Definition semver_key (x : semver_t) : Z * (Z * (Z * option (list identifier))) :=
  (major x, (minor x, (patch x, identifiers <$> prerelease x))).

Definition semver_order (x y : semver_t) : comparison :=
  cmp_pair Z.compare (cmp_pair Z.compare (cmp_pair Z.compare
    (cmp_option (cmp_list cmp_identifier)))) (semver_key x) (semver_key y).

#[export] Instance cmp_identifier_order : CmpOrder cmp_identifier.
Proof.
  split.
  - intros [x|s] [y|t]; simpl; try done; apply cmp_antisym.
  - intros [x|s] [y|t] [z|u]; simpl; try done; apply cmp_eq_l.
  - intros [x|s] [y|t] [z|u]; simpl; try done; apply cmp_lt_trans.
Qed.

#[export] Instance prerelease_order_order : CmpOrder prerelease_order.
Proof. apply (cmp_order_key (fmap identifiers) (cmp_option (cmp_list cmp_identifier)) _). Qed.

#[export] Instance semver_order_order : CmpOrder semver_order.
Proof. apply (cmp_order_key semver_key _ _). Qed.

(** What one iteration reads: the token before the next delimiter. *)
Lemma next_token (s : string) :
  exists t, let p := match strchr s DELIMITER with None => "" | Some p => p end in
  s = t +:+ p /\
  strtol s 10 = ((strtol t 10).1, (strtol t 10).2 +:+ p) /\
  split_on DELIMITER s =
    t :: match p with EmptyString => [] | String _ r => split_on DELIMITER r end.
Proof.
  destruct (strchr s DELIMITER) as [p|] eqn:E.
  - destruct (strchr_some _ _ _ E) as (t & r & -> & -> & _ & Hs).
    exists t. simpl. split; [done|]. split; [|done]. by apply strtol_stop.
  - apply strchr_none in E as [_ Hs]. exists s. simpl.
    rewrite !str_app_nil_r, Hs. by destruct (strtol s 10).
Qed.

Lemma token_length_min (t u : string) :
  Z.to_nat (Z.min (strlen t) (strlen u)) = Nat.min (String.length t) (String.length u).
Proof. unfold strlen. lia. Qed.

Lemma strncmp_tokens (t u p q : string) :
  strncmp (t +:+ p) (u +:+ q) (Z.min (strlen t) (strlen u)) =
  Z_of_comparison (String.compare (str_take (Nat.min (String.length t) (String.length u)) t)
                                  (str_take (Nat.min (String.length t) (String.length u)) u)).
Proof.
  unfold strncmp, strcmp. rewrite token_length_min.
  by rewrite !str_take_app_le by lia.
Qed.

(** One iteration decides by the identifiers of the two tokens. *)
Lemma compare_identifiers_step fuel (t u p q : string) :
  let cont := match p, q with
              | EmptyString, EmptyString => 0
              | EmptyString, String _ _ => -1
              | String _ _, EmptyString => 1
              | String _ x, String _ y => compare_identifiers fuel x y
              end in
  strtol (t +:+ p) 10 = ((strtol t 10).1, (strtol t 10).2 +:+ p) ->
  strtol (u +:+ q) 10 = ((strtol u 10).1, (strtol u 10).2 +:+ q) ->
  match strchr (t +:+ p) DELIMITER with None => "" | Some p => p end = p ->
  match strchr (u +:+ q) DELIMITER with None => "" | Some q => q end = q ->
  compare_identifiers (S fuel) (t +:+ p) (u +:+ q) =
  match cmp_identifier (identifier_of t) (identifier_of u) with
  | Eq => cont | Lt => -1 | Gt => 1 end.
Proof.
  intros cont Ht Hu Hp Hq. subst cont. cbn [compare_identifiers].
  rewrite Hp, Hq, Ht, Hu. unfold identifier_of.
  destruct (strtol t 10) as [xv xe], (strtol u 10) as [yv ye]; cbn [fst snd].
  rewrite !strlen_app.
  assert (forall a b, (strlen a + strlen b =? strlen b) = String.eqb a "") as Hnum.
  { intros a b. destruct (String.eqb a "") eqn:E; bool_to_prop.
    - subst. by apply Z.eqb_eq.
    - apply Z.eqb_neq. intros H. apply E, strlen_zero. lia. }
  rewrite !Hnum. replace (strlen t + strlen p - strlen p) with (strlen t) by lia.
  replace (strlen u + strlen q - strlen q) with (strlen u) by lia.
  destruct (String.eqb xe "") eqn:Ex, (String.eqb ye "") eqn:Ey; simpl; try done.
  - destruct (Z.compare_spec (i32 xv) (i32 yv)) as [E|E|E].
    + by rewrite (proj2 (Z.eqb_eq _ _) E).
    + rewrite (proj2 (Z.eqb_neq (i32 xv) (i32 yv))) by lia. simpl.
      by rewrite (proj2 (Z.ltb_lt _ _) E).
    + rewrite (proj2 (Z.eqb_neq (i32 xv) (i32 yv))) by lia. simpl.
      by rewrite (proj2 (Z.ltb_ge (i32 xv) (i32 yv))) by lia.
  - rewrite strncmp_tokens, (str_compare_prefix t u).
    destruct (String.compare (str_take _ t) _); simpl; try done.
    unfold strlen. destruct (Nat.compare_spec (String.length t) (String.length u)) as [E|E|E].
    + by rewrite E, Z.eqb_refl.
    + rewrite (proj2 (Z.eqb_neq _ _)) by lia. simpl.
      by rewrite (proj2 (Z.ltb_lt _ _)) by lia.
    + rewrite (proj2 (Z.eqb_neq _ _)) by lia. simpl.
      by rewrite (proj2 (Z.ltb_ge _ _)) by lia.
Qed.

(** Enough fuel: one iteration consumes at least a delimiter. *)
Lemma compare_identifiers_spec fuel (x y : string) :
  (String.length x < fuel)%nat ->
  compare_identifiers fuel x y =
  Z_of_comparison (cmp_list cmp_identifier (identifiers x) (identifiers y)).
Proof.
  revert x y. induction fuel as [|fuel IH]; intros x y Hlen; [lia|].
  destruct (next_token x) as (t & Ex & Htx & Hsx), (next_token y) as (u & Ey & Huy & Hsy).
  unfold identifiers at 1 2. rewrite Hsx, Hsy.
  set (p := match strchr x DELIMITER with None => "" | Some p => p end) in *.
  set (q := match strchr y DELIMITER with None => "" | Some p => p end) in *.
  assert (compare_identifiers (S fuel) x y =
    match cmp_identifier (identifier_of t) (identifier_of u) with
    | Eq => match p, q with
            | EmptyString, EmptyString => 0
            | EmptyString, String _ _ => -1
            | String _ _, EmptyString => 1
            | String _ x, String _ y => compare_identifiers fuel x y
            end
    | Lt => -1 | Gt => 1 end) as ->.
  { rewrite Ex, Ey. apply compare_identifiers_step; by rewrite <- ?Ex, <- ?Ey. }
  assert (String.length p <= String.length x)%nat as Hp
    by (apply (f_equal String.length) in Ex; rewrite str_app_length in Ex; lia).
  cbn [fmap list_fmap cmp_list].
  destruct (cmp_identifier (identifier_of t) (identifier_of u)); [|done|done].
  simpl. destruct p as [|? x'], q as [|? y']; try done.
  - by destruct (split_on DELIMITER y') eqn:E; [destruct y' as [|? y'']; simpl in E; repeat case_match|].
  - by destruct (split_on DELIMITER x') eqn:E; [destruct x' as [|? x'']; simpl in E; repeat case_match|].
  - simpl in Hp. apply IH. lia.
Qed.

Lemma compare_prerelease_order x y :
  compare_prerelease x y = Z_of_comparison (prerelease_order x y).
Proof.
  destruct x as [x|], y as [y|]; try done.
  apply compare_identifiers_spec. lia.
Qed.

(** [compare_prerelease], which walks both strings with [strchr], [strtol]
    and [strncmp], decides exactly as the lexicographic comparison of the two
    lists of identifiers does, an absent pre-release being above any other; in
    particular the loop's fuel is always enough. *)
Theorem compare_prerelease_spec (x y : option string) :
  compare_prerelease x y = Z_of_comparison (prerelease_order x y).
Proof. apply compare_prerelease_order. Qed.

Lemma binary_comparison_spec x y : binary_comparison x y = Z_of_comparison (x ?= y).
Proof.
  unfold binary_comparison. destruct (Z.compare_spec x y) as [->|H|H].
  - by rewrite Z.eqb_refl.
  - rewrite (proj2 (Z.eqb_neq x y)) by lia. rewrite Z.gtb_ltb.
    by rewrite (proj2 (Z.ltb_ge y x)) by lia.
  - rewrite (proj2 (Z.eqb_neq x y)) by lia. rewrite Z.gtb_ltb.
    by rewrite (proj2 (Z.ltb_lt y x)) by lia.
Qed.

Lemma semver_compare_order x y : semver_compare x y = Z_of_comparison (semver_order x y).
Proof.
  unfold semver_compare, semver_compare_version, semver_compare_prerelease.
  rewrite !binary_comparison_spec, compare_prerelease_order.
  unfold semver_order, cmp_pair, semver_key, prerelease_order; cbn [fst snd].
  destruct (major x ?= major y); simpl; try done.
  destruct (minor x ?= minor y); simpl; try done.
  by destruct (patch x ?= patch y).
Qed.

(** [semver_compare] is a total preorder on versions: it returns -1, 0 or 1,
    swapping the arguments swaps the sign, "not higher" is transitive, and
    versions it calls equal compare alike with every third version. *)
Theorem semver_compare_total_preorder (x y z : semver_t) :
  (semver_compare x y = -1 \/ semver_compare x y = 0 \/ semver_compare x y = 1) /\
  semver_compare y x = - semver_compare x y /\
  (semver_compare x y <= 0 -> semver_compare y z <= 0 -> semver_compare x z <= 0) /\
  (semver_compare x y = 0 -> semver_compare x z = semver_compare y z).
Proof.
  rewrite !semver_compare_order. split_and!.
  - destruct (semver_order x y); simpl; lia.
  - by rewrite (cmp_antisym x y), Z_of_comparison_opp.
  - intros H1 H2. pose proof (cmp_le_trans x y z) as H.
    destruct (semver_order x y), (semver_order y z), (semver_order x z); simpl in *;
      try lia; exfalso; by apply H.
  - intros H. f_equal. apply cmp_eq_l. by destruct (semver_order x y).
Qed.

(** ** Caret satisfaction is membership in a half-open range *)

Definition lex_le (x y : Z * Z * Z) : Prop :=
  let '(a, b, c) := x in let '(a', b', c') := y in
  a < a' \/ (a = a' /\ (b < b' \/ (b = b' /\ c <= c'))).

Definition lex_lt (x y : Z * Z * Z) : Prop :=
  let '(a, b, c) := x in let '(a', b', c') := y in
  a < a' \/ (a = a' /\ (b < b' \/ (b = b' /\ c < c'))).

Definition numbers (x : semver_t) : Z * Z * Z := (major x, minor x, patch x).

(** The first version that may break a user of [y]: npm's caret range. *)
Definition caret_limit (y : semver_t) : Z * Z * Z :=
  if negb (major y =? 0) then (major y + 1, 0, 0)
  else if negb (minor y =? 0) then (0, minor y + 1, 0)
  else (0, 0, patch y + 1).

Definition nonneg (x : semver_t) : Prop := 0 <= major x /\ 0 <= minor x /\ 0 <= patch x.

(** For versions with non-negative numbers, [semver_satisfies] with the caret
    operator accepts [x] exactly when [x] is in the npm caret range of [y]: from
    [y] up to, and not including, the first version that changes the leftmost
    non-zero number of [y]. *)
Theorem semver_satisfies_caret_range (x y : semver_t) :
  nonneg x -> nonneg y ->
  semver_satisfies x y "^" = true <->
  lex_le (numbers y) (numbers x) /\ lex_lt (numbers x) (caret_limit y).
Proof.
  unfold nonneg, lex_lt, lex_le, numbers, caret_limit. intros Hx Hy.
  change (semver_satisfies x y "^") with (semver_satisfies_caret x y).
  unfold semver_satisfies_caret. split_ifs; lia.
Qed.

(** ** Parsing what was rendered *)

Lemma contains_mem c m : contains c m (String.length m) = str_mem c m.
Proof. induction m as [|d m IH]; simpl; [done|]. by destruct (Ascii.eqb d c). Qed.

Definition valid_char (c : ascii) : bool := str_mem c VALID_CHARS.

Lemma has_valid_chars_forall s : has_valid_chars s VALID_CHARS = str_forall valid_char s.
Proof.
  unfold has_valid_chars, valid_char. induction s as [|c s IH]; cbn [str_forall]; [done|].
  by rewrite IH, contains_mem.
Qed.

(** The character classes met here, decided by enumeration. *)
Lemma digit_valid c : isdigit c = true -> valid_char c = true.
Proof. destruct c as [[][][][][][][][]]; vm_compute; congruence. Qed.

Lemma print_d_no v c : 0 <= v -> isdigit c = false -> str_mem c (print_d v) = false.
Proof. intros ? ?. eapply str_forall_mem; [by apply print_d_digits|done]. Qed.

Lemma parse_slices_step n index v r ver :
  0 <= v <= INT_MAX ->
  semver_parse_slices (S n) index (Some (print_d v +:+ String DELIMITER r)) ver =
  semver_parse_slices n (index + 1) (Some r)
    (if index =? 1 then set_major v ver else if index =? 2 then set_minor v ver
     else if index =? 3 then set_patch v ver else ver).
Proof.
  intros Hv. unfold INT_MAX in Hv. cbn [semver_parse_slices].
  rewrite strchr_app by (apply print_d_no; [lia|done]).
  rewrite strtol_stop, strtol_print_d by (done || unfold LONG_MAX; lia). cbn [fst snd].
  rewrite strlen_app, Z.add_simpl_r.
  pose proof (print_d_length v) as Hl. unfold SLICE_SIZE, SWUPDATE_GENERAL_STRING_SIZE.
  rewrite Z.gtb_ltb, (proj2 (Z.ltb_ge 256 (strlen (print_d v)))) by lia.
  rewrite str_app_nil_l, Z.eqb_refl.
  cbn [negb andb]. rewrite swrap_small by lia. done.
Qed.

Lemma parse_slices_last n index v ver :
  0 <= v <= INT_MAX ->
  semver_parse_slices (S n) index (Some (print_d v)) ver =
  (0, if index =? 1 then set_major v ver else if index =? 2 then set_minor v ver
      else if index =? 3 then set_patch v ver else ver).
Proof.
  intros Hv. unfold INT_MAX in Hv. cbn [semver_parse_slices].
  rewrite strchr_none_mem by (apply print_d_no; [lia|done]).
  rewrite strtol_print_d by (unfold LONG_MAX; lia).
  pose proof (print_d_length v) as Hl. unfold SLICE_SIZE, SWUPDATE_GENERAL_STRING_SIZE.
  rewrite Z.gtb_ltb, (proj2 (Z.ltb_ge 256 (strlen (print_d v)))) by lia. cbn [negb andb String.eqb].
  rewrite swrap_small by lia. by destruct n.
Qed.

Lemma parse_slice_absent s c : str_mem c s = false -> parse_slice s c = (s, None).
Proof. intros H. unfold parse_slice. by rewrite strchr_none_mem. Qed.

Lemma parse_slice_found t r c :
  str_mem c t = false -> parse_slice (t +:+ String c r) c = (t, Some r).
Proof.
  intros H. unfold parse_slice. rewrite strchr_app by done. by rewrite str_before_app.
Qed.

(** A version that a string can spell: [int] numbers that are not negative, and
    texts made of the valid characters; only the metadata may contain a plus. *)
Definition spellable (v : semver_t) : Prop :=
  0 <= major v <= INT_MAX /\ 0 <= minor v <= INT_MAX /\ 0 <= patch v <= INT_MAX /\
  (forall p, prerelease v = Some p ->
     str_forall valid_char p = true /\ str_mem MT_DELIMITER p = false) /\
  (forall m, metadata v = Some m -> str_forall valid_char m = true).

Definition core_string (v : semver_t) : string :=
  print_d (major v) +:+ String DELIMITER
    (print_d (minor v) +:+ String DELIMITER (print_d (patch v))).

Definition opt_string (sep : ascii) (o : option string) : string :=
  match o with Some s => String sep s | None => "" end.

Lemma semver_render_eq v :
  semver_render v "" =
  (core_string v +:+ opt_string PR_DELIMITER (prerelease v)) +:+
  opt_string MT_DELIMITER (metadata v).
Proof.
  unfold semver_render, concat_num, concat_char, core_string, opt_string.
  rewrite str_app_nil_l, !str_app_assoc, !str_app_cons.
  destruct (prerelease v), (metadata v); rewrite ?str_app_nil_r;
    repeat (rewrite ?str_app_cons, ?str_app_assoc); done.
Qed.

Section Spellable.
Context (v : semver_t) (Hv : spellable v).

Lemma core_string_no c : isdigit c = false -> c <> DELIMITER -> str_mem c (core_string v) = false.
Proof.
  destruct Hv as (? & ? & ? & _). intros Hc Hd. unfold core_string.
  repeat (rewrite str_mem_app, print_d_no by (done || lia); cbn [str_mem orb]).
  rewrite !print_d_no by (done || lia).
  rewrite (proj2 (Ascii.eqb_neq DELIMITER c)) by done. done.
Qed.

Lemma core_string_valid : str_forall valid_char (core_string v) = true.
Proof.
  destruct Hv as (? & ? & ? & _). unfold core_string.
  assert (forall w, 0 <= w -> str_forall valid_char (print_d w) = true) as H'.
  { intros w Hw. eapply str_forall_weaken; [apply digit_valid|by apply print_d_digits]. }
  rewrite !str_forall_app, !H' by lia. cbn [str_forall].
  rewrite !str_forall_app, !H' by lia. cbn [str_forall]. by rewrite H' by lia.
Qed.

Lemma render_valid_chars : has_valid_chars (semver_render v "") VALID_CHARS = true.
Proof.
  rewrite has_valid_chars_forall, semver_render_eq, !str_forall_app, core_string_valid.
  destruct Hv as (_ & _ & _ & Hp & Hm).
  destruct (prerelease v) as [p|], (metadata v) as [m|]; cbn [opt_string str_forall];
    by rewrite ?(proj1 (Hp _ eq_refl)), ?(Hm _ eq_refl).
Qed.

Lemma render_slices :
  parse_slice (semver_render v "") MT_DELIMITER =
    (core_string v +:+ opt_string PR_DELIMITER (prerelease v), metadata v) /\
  parse_slice (core_string v +:+ opt_string PR_DELIMITER (prerelease v)) PR_DELIMITER =
    (core_string v, prerelease v).
Proof.
  rewrite semver_render_eq.
  assert (str_mem MT_DELIMITER (core_string v +:+ opt_string PR_DELIMITER (prerelease v)) = false).
  { rewrite str_mem_app, core_string_no by done. destruct Hv as (_ & _ & _ & Hp & _).
    destruct (prerelease v) as [p|]; [|done]. cbn [opt_string str_mem].
    by rewrite (proj2 (Hp _ eq_refl)). }
  split.
  - destruct (metadata v); cbn [opt_string]; [by apply parse_slice_found|].
    rewrite str_app_nil_r. by apply parse_slice_absent.
  - destruct (prerelease v); cbn [opt_string].
    + apply parse_slice_found. by apply core_string_no.
    + rewrite str_app_nil_r. apply parse_slice_absent. by apply core_string_no.
Qed.

Lemma parse_core_string w :
  semver_parse_version (core_string v) w =
  (0, mk_semver (major v) (minor v) (patch v) (metadata w) (prerelease w)).
Proof.
  destruct Hv as (? & ? & ? & _). unfold semver_parse_version, core_string.
  by rewrite !parse_slices_step, parse_slices_last by done.
Qed.
End Spellable.

(** Parsing undoes rendering: the string [semver_render] makes of a spellable
    version, if it is short enough to be a version string, is accepted by
    [semver_parse] and gives the same version back, whatever the target
    structure held before. *)
Theorem semver_parse_render (v w : semver_t) :
  spellable v -> strlen (semver_render v "") <= MAX_SIZE ->
  semver_parse (semver_render v "") w = (0, v).
Proof.
  intros Hv Hlen. unfold semver_parse, semver_is_valid, has_valid_length.
  rewrite render_valid_chars, (proj2 (Z.leb_le _ _) Hlen) by done. cbn [andb negb].
  destruct (render_slices v Hv) as [-> ->]. rewrite (parse_core_string v Hv). by destruct v.
Qed.

Lemma semver_parse_render_witness :
  semver_parse "1.20.3-rc.1+build-7" semver_zero =
  (0, mk_semver 1 20 3 (Some "build-7") (Some "rc.1")).
Proof.
  apply (semver_parse_render (mk_semver 1 20 3 (Some "build-7") (Some "rc.1"))).
  - split_and!; simpl; try (unfold INT_MAX; lia); intros ? [= <-]; done.
  - vm_compute. congruence.
Defined.

(** ** Cleaning *)

Lemma strcut_one (s : string) (i : nat) c :
  String.get i s = Some c -> (i < String.length s)%nat -> strlen s <= MAX_SIZE ->
  strcut s (Z.of_nat i) 1 = (str_take i s +:+ str_drop (S i) s, 1).
Proof.
  unfold strlen, MAX_SIZE, strcut, MAX_SAFE_INT, INT_MAX. intros Hg Hi Hl.
  rewrite !Z.gtb_ltb, (proj2 (Z.ltb_ge _ _)) by (unfold strlen; lia). simpl.
  rewrite (proj2 (Z.ltb_ge _ _)) by (unfold strlen; lia).
  rewrite Nat2Z.id. by replace (Z.to_nat (Z.of_nat i + 1)) with (S i) by lia.
Qed.

Lemma str_take_le_length i s : (i <= String.length s)%nat -> String.length (str_take i s) = i.
Proof. intros ?. rewrite str_take_length. lia. Qed.

Lemma semver_clean_loop_spec fuel s i len :
  len = String.length s -> (i <= len)%nat -> (len - i <= fuel)%nat -> strlen s <= MAX_SIZE ->
  semver_clean_loop fuel s i len =
  (0, str_take i s +:+ str_filter valid_char (str_drop i s)).
Proof.
  revert s i len. induction fuel as [|fuel IH]; intros s i len -> Hi Hf Hl.
  - simpl. rewrite str_take_all, str_drop_all by lia. simpl. by rewrite str_app_nil_r.
  - cbn [semver_clean_loop]. destruct (Nat.ltb_spec i (String.length s)) as [H|H].
    + destruct (str_get_lt i s H) as [c Hc]. rewrite Hc, contains_mem.
      change (str_mem c VALID_CHARS) with (valid_char c).
      rewrite (str_take_drop_get _ _ _ Hc). cbn [str_filter].
      destruct (valid_char c) eqn:E; cbn [negb].
      * rewrite IH by (done || lia). rewrite (str_take_S _ _ _ Hc), str_app_assoc. done.
      * rewrite (strcut_one _ _ _ Hc) by done. cbn [Z.eqb].
        pose proof (str_take_le_length i s) as Ht.
        rewrite IH.
        -- by rewrite str_take_app_exact, str_drop_app by (apply Ht; lia).
        -- rewrite str_app_length, Ht, str_drop_length; lia.
        -- lia.
        -- lia.
        -- unfold strlen in *. rewrite str_app_length, Ht, str_drop_length; lia.
    + rewrite str_take_all, str_drop_all by lia. cbn [str_filter]. by rewrite str_app_nil_r.
Qed.

(** [semver_clean] keeps exactly the valid characters, in order: it succeeds
    on every string of at most 255 characters, leaves the string filtered by the
    character table and so a string [semver_is_valid] accepts; on a longer
    string it fails and leaves it untouched. *)
Theorem semver_clean_spec (s : string) :
  semver_clean s =
    (if strlen s <=? MAX_SIZE then (0, str_filter valid_char s) else (-1, s)) /\
  (strlen s <= MAX_SIZE -> semver_is_valid (semver_clean s).2 = true).
Proof.
  assert (semver_clean s =
    (if strlen s <=? MAX_SIZE then (0, str_filter valid_char s) else (-1, s))) as E.
  { unfold semver_clean, has_valid_length.
    destruct (Z.leb_spec (strlen s) MAX_SIZE) as [H|H]; cbn [negb]; [|done].
    rewrite semver_clean_loop_spec by (done || lia). by destruct s. }
  split; [done|]. intros H. rewrite E, (proj2 (Z.leb_le _ _) H). cbn [snd].
  unfold semver_is_valid, has_valid_length.
  rewrite has_valid_chars_forall, str_filter_forall.
  pose proof (str_filter_length valid_char s). unfold strlen in *.
  by rewrite (proj2 (Z.leb_le _ _)) by lia.
Qed.

Lemma semver_satisfies_caret_range_witness :
  semver_satisfies (mk_semver 1 4 0 None None) (mk_semver 1 2 3 None None) "^" = true /\
  lex_lt (numbers (mk_semver 1 4 0 None None)) (2, 0, 0).
Proof.
  pose proof (semver_satisfies_caret_range (mk_semver 1 4 0 None None)
    (mk_semver 1 2 3 None None)) as H.
  destruct H as [H _]; [split_and!; simpl; lia|split_and!; simpl; lia|].
  split; [reflexivity|]. destruct (H eq_refl) as [_ H2]. exact H2.
Defined.
