(* ===== verification/Util.v ===== *)
(** * Utilities: [core/util.c]

    The string and number helpers every other component uses: hexadecimal and
    size parsing, splitting, escaping, file name checks, hardware revision
    matching. Memory is assumed to be available: the branches taken when
    [malloc], [strdup] or [asprintf] fail are not modelled. *)
From S2P Require Import Prelude CString.

(** ** Hexadecimal *)

Definition LG_16 : Z := 4.
Definition codetab : string := "0123456789ABCDEF".

(** [strchr (codetab, c) - codetab]. *)
Fixpoint code_index (tab : string) (c : ascii) (i : Z) : option Z :=
  match tab with
  | EmptyString => None
  | String d tab => if Ascii.eqb d c then Some i else code_index tab c (i + 1)
  end.

(** Memory is the list of bytes from the pointer on; past its end a NUL is read. *)
Definition peek (mem : list ascii) : ascii := match mem with c :: _ => c | [] => "000" end.

Definition is_nul (c : ascii) : bool := byte_of c =? 0.

(** The leading [for] of [from_ascii]: [None] for its [return 0]; [rem] is
    [end - buf]. *)
Fixpoint skip_blanks (mem : list ascii) (rem : nat) : option (list ascii * nat) :=
  match mem with
  | c :: mem' =>
      if Ascii.eqb c " " then
        match rem with O => None | S rem => skip_blanks mem' rem end
      else Some (mem, rem)
  | [] => Some ([], rem)
  end.

(** The [while (1)] of [from_ascii]; the value at the time of its [break]. *)
Fixpoint from_ascii_loop (mem : list ascii) (rem : nat) (logbase value : Z) : Z :=
  match mem with
  | [] => value
  | c :: mem' =>
      match code_index codetab (toupper c) 0 with
      | None => value
      | Some d =>
          if Z.shiftr d logbase >? 1 then value
          else
            let value := u64 (value + d) in
            match rem with
            | S (S rem) =>
                if is_nul (peek mem') then value
                else from_ascii_loop mem' (S rem) logbase (u64 (Z.shiftl value logbase))
            | _ => value
            end
      end
  end.

Definition from_ascii (where_ : list ascii) (digs : nat) (logbase : Z) : Z :=
  match skip_blanks where_ digs with
  | None => 0
  | Some (buf, rem) =>
      if (rem =? 0)%nat || is_nul (peek buf) then 0
      else from_ascii_loop buf rem logbase 0
  end.

(** [ascii_to_bin]: the return value and, on success, the [dstlen] bytes stored;
    [src] is NULL or a string. *)
Definition ascii_to_bin (dest : list Z) (dstlen : nat) (src : option string) : Z * list Z :=
  match src with
  | None => (0, dest)
  | Some src =>
      let srclen := String.length src in
      if (srclen mod 2 =? 1)%nat then (- EINVAL, dest)
      else if (srclen =? 2 * dstlen)%nat then
        let mem := String.list_ascii_of_string src in
        (0, (fun i => u8 (from_ascii (drop (i * 2) mem) 2 LG_16)) <$> seq 0 dstlen)
      else (- EINVAL, dest)
  end.

Definition ascii_to_hash (hash : list Z) (s : option string) : Z * list Z :=
  ascii_to_bin hash SHA256_HASH_LENGTH s.

Definition hash_to_ascii (hash : list Z) : string :=
  foldr (fun b s => print_02x b +:+ s) "" (take SHA256_HASH_LENGTH hash).

(** A hash that is present ([None] is the NULL pointer) and not all zeroes. *)
Definition IsValidHash (hash : option (list Z)) : bool :=
  match hash with
  | None => false
  | Some hash => existsb (fun b => negb (b =? 0)) (take SHA256_HASH_LENGTH hash)
  end.

Definition is_hex_str (s : option string) : bool :=
  match s with
  | None => false
  | Some s => if String.eqb s "" then false else str_forall isxdigit s
  end.

(** ** Compression names *)

Inductive compression_type :=
  COMPRESSED_FALSE | COMPRESSED_TRUE | COMPRESSED_ZLIB | COMPRESSED_XZ
| COMPRESSED_ZSTD | COMPRESSED_LZ4.

#[export] Instance compression_type_eq_dec : EqDecision compression_type.
Proof. solve_decision. Defined.

Definition compressed_by_name : list (string * compression_type) :=
  [("zlib", COMPRESSED_ZLIB); ("xz", COMPRESSED_XZ);
   ("zstd", COMPRESSED_ZSTD); ("lz4", COMPRESSED_LZ4)].

Fixpoint lookup_name {A} (tab : list (string * A)) (s : string) : option A :=
  match tab with
  | [] => None
  | (n, v) :: tab => if String.eqb s n then Some v else lookup_name tab s
  end.

Definition compressed_string_to_type (s : string) : option compression_type :=
  lookup_name compressed_by_name s.

(** ** Splitting and joining *)

(** The first pass of [string_split]: the number of delimiters and the position
    of the last one. *)
Fixpoint count_delims (d : ascii) (s : string) (pos : Z) (acc : Z * option Z) : Z * option Z :=
  match s with
  | EmptyString => acc
  | String c s' =>
      count_delims d s' (pos + 1) (if Ascii.eqb d c then (acc.1 + 1, Some pos) else acc)
  end.

(** The number of pointers [string_split] allocates; a null [last_delim] is
    below every address of the string. *)
Definition string_split_slots (s : string) (d : ascii) : Z :=
  let '(count, last_delim) := count_delims d s 0 (0, None) in
  let trailing := match last_delim with
                  | None => true
                  | Some p => p <? strlen s - 1
                  end in
  count + (if trailing then 1 else 0) + 1.

(** The strings stored before the terminating NULL pointer. *)
Definition string_split (s : string) (d : ascii) : list string := strtok_all s d.

Definition count_string_array (nodes : list string) : Z := Z.of_nat (length nodes).

(** [mstrcat]: [None] is the NULL returned for an empty array. *)
Definition mstrcat (nodes : list string) (delim : option string) : option string :=
  let delim := default "" delim in
  foldl (fun dest node =>
    match dest with
    | None => Some node
    | Some dest => Some (dest +:+ delim +:+ node)
    end) None nodes.

Definition swupdate_strcat (nodes : list string) : option string := mstrcat nodes None.

Definition string_tolower (s : string) : string := str_map tolower s.

(** [splitargs]: the arguments [countargc] stores, [cur] being the one in
    progress; a blank ends it. *)
Fixpoint countargc_go (cur : string) (s : string) : list string :=
  match s with
  | EmptyString => if String.eqb cur "" then [] else [cur]
  | String c s' =>
      if isspace c then
        (if String.eqb cur "" then [] else [cur]) ++ countargc_go "" s'
      else countargc_go (cur +:+ String c "") s'
  end.

Definition splitargs (args : string) : list string := countargc_go "" args.

(** ** Sizes *)

Definition unit_factor (c : ascii) : option Z :=
  if Ascii.eqb c "G" || Ascii.eqb c "g" then Some (1024 * 1024 * 1024)
  else if Ascii.eqb c "M" || Ascii.eqb c "m" then Some (1024 * 1024)
  else if Ascii.eqb c "K" || Ascii.eqb c "k" then Some 1024
  else None.

(** [endp] after the unit: "K", "Ki" or "KiB". *)
Definition skip_unit (endp : string) : string :=
  match endp with
  | String _ (String "i" (String "B" r)) => r
  | String _ (String "i" r) => r
  | String _ r => r
  | EmptyString => ""
  end.

(** The result, [*endptr] ([None] when it is not written) and [errno]. *)
Definition ustrtoull (cp : string) (base : Z) : Z * option string * Z :=
  if strlen cp =? 0 then (0, None, 0)
  else
    let '(result, endp, err) := strtoull cp base in
    if (strlen endp =? strlen cp) || ((result =? ULONG_MAX) && (err =? ERANGE)) then
      (0, Some endp, ERANGE)
    else
      match endp with
      | EmptyString => (result, Some endp, err)
      | String c _ =>
          match unit_factor c with
          | Some f => (u64 (result * f), Some (skip_unit endp), err)
          | None => (0, Some endp, EINVAL)
          end
      end.

(** Whether [ustrtoull] consumes a unit that [strtoull] does not; a null end
    pointer differs from every other. *)
Definition size_delimiter_match (size : string) : bool :=
  let suffix := (strtoull size 10).1.2 in
  match (ustrtoull size 10).1.2 with
  | None => true
  | Some usuffix => negb (strlen suffix =? strlen usuffix)
  end.

Definition strtobool (s : option string) : bool :=
  match s with
  | Some s => String.eqb s "true" || String.eqb s "TRUE"
  | None => false
  end.

(** ** Escaping *)

Definition needs_escape (c : ascii) : bool := (byte_of c =? 92) || (byte_of c =? 34).
Definition backslash : ascii := "092".

(** The loop of [snescape] on a zeroed [dst] of [n] bytes. *)
Fixpoint snescape_loop (n : Z) (src : string) (dst : list ascii) (len : Z) : list ascii * Z :=
  match src with
  | EmptyString => (dst, len)
  | String c src =>
      let '(dst, len) :=
        if needs_escape c then
          (if len <? n - 2 then <[Z.to_nat len := backslash]> dst else dst, len + 1)
        else (dst, len) in
      let dst := if len <? n - 1 then <[Z.to_nat len := c]> dst else dst in
      snescape_loop n src dst (len + 1)
  end.

Definition snescape (dst : list ascii) (n : Z) (src : string) : list ascii * Z :=
  if n <? 3 then (dst, 0)
  else snescape_loop n src (replicate (Z.to_nat n) ("000" : ascii)) 0.

(** ** File names and hardware revisions *)

Definition is_filename_valid (file_name : option string) : bool :=
  match file_name with
  | None => false
  | Some f => negb (is_prefix "/" f) &&
              match strstr f "../" with None => true | Some _ => false end
  end.

(** [get_tmpdir]: the cached value, [getenv ("TMPDIR")], and the new cache; the
    character tested for a slash is the terminating NUL. *)
Definition get_tmpdir (TMPDIR : option string) (env : option string) : string :=
  match TMPDIR with
  | Some d => d
  | None =>
      match env with
      | None => "/tmp/"
      | Some e =>
          if match String.get (String.length e) e with
             | Some c => Ascii.eqb c "/" | None => false end
          then e
          else e +:+ "/"
      end
  end.

Definition HWID_REGEXP_PREFIX : string := "#RE:".

(** [hwid_match] returns 0 on a match. [regcomp] and [regexec] are the POSIX
    functions: the first returns 0 when the expression compiles, the second 0
    when the compiled expression matches. *)
Definition hwid_match (regcomp : string -> Z) (regexec : string -> string -> Z)
    (rev hwrev : string) : Z :=
  if negb (strncmp rev HWID_REGEXP_PREFIX (strlen HWID_REGEXP_PREFIX) =? 0) then strcmp rev hwrev
  else
    let re_str := str_drop (String.length HWID_REGEXP_PREFIX) rev in
    let ret := regcomp re_str in
    if negb (ret =? 0) then ret else regexec re_str hwrev.

(** * Properties *)

(** ** Hexadecimal numbers *)

Definition hex_code (c : ascii) (d : Z) : Prop := code_index codetab (toupper c) 0 = Some d.

(** The number a list of digits spells, after [v]. *)
Definition hex_value (v : Z) (ds : list Z) : Z := foldl (fun v d => v * 16 + d) v ds.

Lemma hex_code_range c d : hex_code c d -> 0 <= d < 16.
Proof.
  unfold hex_code. destruct c as [[][][][][][][][]]; vm_compute; intros [=<-]; by split.
Qed.

Lemma hex_code_not_blank c d : hex_code c d -> Ascii.eqb c " " = false /\ is_nul c = false.
Proof. unfold hex_code. destruct c as [[][][][][][][][]]; vm_compute; intros [=]; by split. Qed.

Lemma hex_code_digit_char d : 0 <= d < 16 -> hex_code (digit_char d) d.
Proof.
  intros H. unfold hex_code.
  assert (d = 0 \/ d = 1 \/ d = 2 \/ d = 3 \/ d = 4 \/ d = 5 \/ d = 6 \/ d = 7 \/ d = 8 \/
    d = 9 \/ d = 10 \/ d = 11 \/ d = 12 \/ d = 13 \/ d = 14 \/ d = 15) as C by lia.
  by repeat destruct C as [->|C]; [..|subst].
Qed.

Lemma hex_value_bound v ds :
  0 <= v -> Forall (fun d => 0 <= d < 16) ds ->
  0 <= hex_value v ds < (v + 1) * 16 ^ Z.of_nat (length ds).
Proof.
  intros Hv H. revert v Hv. induction H as [|d ds Hd _ IH]; intros v Hv.
  - simpl. lia.
  - cbn [hex_value foldl length]. rewrite Nat2Z.inj_succ, Z.pow_succ_r by lia.
    specialize (IH (v * 16 + d)). unfold hex_value in IH.
    assert (0 < 16 ^ Z.of_nat (length ds)) by lia. nia.
Qed.

Lemma from_ascii_loop_hex cs ds rest v :
  Forall2 hex_code cs ds -> 0 <= v -> cs <> [] ->
  (v + 1) * 16 ^ Z.of_nat (length ds) <= 2 ^ 64 ->
  from_ascii_loop (cs ++ rest) (length cs) LG_16 (v * 16) = hex_value v ds.
Proof.
  intros H. revert v. induction H as [|c d cs ds Hc H IH]; intros v Hv Hne Hb; [done|].
  cbn [app from_ascii_loop length]. rewrite Hc.
  pose proof (hex_code_range _ _ Hc) as Hd.
  rewrite (Z.shiftr_div_pow2 d LG_16), (Z.div_small d) by (unfold LG_16; lia). cbn [Z.gtb Z.compare].
  cbn [length] in Hb. rewrite Nat2Z.inj_succ, Z.pow_succ_r in Hb by lia.
  assert (0 < 16 ^ Z.of_nat (length ds)) by lia.
  rewrite (wrap_small 64 (v * 16 + d)) by nia.
  destruct H as [|c' d' cs ds Hc' H].
  - done.
  - cbn [app length peek]. rewrite (proj2 (hex_code_not_blank _ _ Hc')).
    cbn [length] in *. rewrite Nat2Z.inj_succ, Z.pow_succ_r in * by lia.
    assert (0 < 16 ^ Z.of_nat (length ds)) by lia.
    rewrite Z.shiftl_mul_pow2, wrap_small by (unfold LG_16; nia).
    change (2 ^ LG_16) with 16.
    specialize (IH (v * 16 + d)). cbn [app length hex_value foldl] in *.
    rewrite IH; [done|lia|done|nia].
Qed.

(** Up to sixteen hexadecimal digits, of either case, are read exactly. *)
Lemma from_ascii_hex cs ds rest :
  Forall2 hex_code cs ds -> (0 < length cs <= 16)%nat ->
  from_ascii (cs ++ rest) (length cs) LG_16 = hex_value 0 ds.
Proof.
  intros H Hl. destruct H as [|c d cs ds Hc H]; [simpl in Hl; lia|].
  unfold from_ascii. cbn [app skip_blanks length].
  destruct (hex_code_not_blank _ _ Hc) as [Hb Hn]. rewrite Hb. cbn [Nat.eqb peek orb].
  rewrite Hn. change (c :: cs ++ rest) with ((c :: cs) ++ rest).
  change (S (length cs)) with (length (c :: cs)). change 0 with (0 * 16) at 1.
  apply from_ascii_loop_hex; [by constructor|lia|done|].
  pose proof (Forall2_length _ _ _ H). cbn [length] in *.
  rewrite Z.mul_1_l. change (2 ^ 64) with (16 ^ 16). apply Z.pow_le_mono_r; lia.
Qed.

Lemma from_ascii_02x b rest : 0 <= b < 256 ->
  from_ascii (String.list_ascii_of_string (print_02x b) ++ rest) 2 LG_16 = b.
Proof.
  intros Hb. unfold print_02x. cbn [String.list_ascii_of_string app].
  pose proof (Z.div_lt_upper_bound b 16 16). pose proof (Z.div_pos b 16).
  pose proof (Z.mod_pos_bound b 16). pose proof (Z.div_mod b 16).
  etrans; [apply (from_ascii_hex [digit_char (b / 16); digit_char (b mod 16)]
                    [b / 16; b mod 16] rest)|cbn; lia].
  - repeat constructor; apply hex_code_digit_char; lia.
  - simpl. lia.
Qed.

Lemma list_ascii_app s t :
  String.list_ascii_of_string (s +:+ t) =
  String.list_ascii_of_string s ++ String.list_ascii_of_string t.
Proof. induction s as [|c s IH]; [done|]. rewrite ?str_app_cons. simpl. by rewrite IH. Qed.

Definition hex_string (h : list Z) : string := foldr (fun b s => print_02x b +:+ s) "" h.

Lemma hex_string_length h : String.length (hex_string h) = (2 * length h)%nat.
Proof. induction h as [|b h IH]; [done|]. cbn [hex_string foldr length]. fold (hex_string h).
  rewrite str_app_length, IH. cbn. lia. Qed.

Lemma hex_string_read h i b : Forall (fun b => 0 <= b < 256) h -> h !! i = Some b ->
  u8 (from_ascii (drop (i * 2) (String.list_ascii_of_string (hex_string h))) 2 LG_16) = b.
Proof.
  intros H. revert i. induction H as [|a h Ha H IH]; intros [|i] Hi; try done.
  - assert (a = b) as -> by (by injection Hi). cbn [hex_string foldr Nat.mul].
    rewrite drop_0, list_ascii_app, from_ascii_02x by done. by apply wrap_small.
  - by apply IH.
Qed.

(** A 32-byte hash survives the trip through its hexadecimal string:
    [ascii_to_hash] of what [hash_to_ascii] prints succeeds and stores the same
    bytes. *)
Theorem hash_ascii_roundtrip (h old : list Z) :
  length h = SHA256_HASH_LENGTH -> Forall (fun b => 0 <= b < 256) h ->
  ascii_to_hash old (Some (hash_to_ascii h)) = (0, h).
Proof.
  intros Hl Hr. unfold ascii_to_hash, ascii_to_bin, hash_to_ascii.
  rewrite take_ge by lia. fold (hex_string h). rewrite hex_string_length, Hl.
  cbn -[SHA256_HASH_LENGTH seq]. f_equal. apply list_eq. intros i.
  rewrite list_lookup_fmap. destruct (h !! i) as [b|] eqn:E.
  - pose proof (lookup_lt_Some _ _ _ E). rewrite lookup_seq_lt by lia. simpl. f_equal.
    by apply hex_string_read.
  - apply lookup_ge_None in E. by rewrite lookup_seq_ge by lia.
Qed.

Lemma hash_ascii_roundtrip_witness :
  ascii_to_hash [] (Some (hash_to_ascii (replicate 31 171 ++ [5]))) =
  (0, replicate 31 171 ++ [5]).
Proof.
  apply (hash_ascii_roundtrip (replicate 31 171 ++ [5]) []).
  - reflexivity.
  - repeat constructor; lia.
Defined.

(** ** Splitting *)

Lemma split_on_not_nil d s : exists t ts, split_on d s = t :: ts.
Proof. destruct s as [|c s]; simpl; [by eexists _, _|]. repeat case_match; by eexists _, _. Qed.

Lemma split_on_joined d s t : split_on d (s +:+ String d t) = split_on d s ++ split_on d t.
Proof.
  induction s as [|c s IH]; cbn [split_on]; [by rewrite str_app_nil_l; cbn [split_on]; rewrite ascii_eqb_refl|].
  rewrite str_app_cons. cbn [split_on]. rewrite IH. destruct (Ascii.eqb c d); [done|].
  by destruct (split_on_not_nil d s) as (x & l & ->).
Qed.

Lemma strtok_go_fields d cur s :
  strtok_go d cur s =
  filter (fun t => t <> "") (match split_on d s with t :: ts => (cur +:+ t) :: ts | [] => [] end).
Proof.
  assert (forall (t : string) ts, filter (fun t => t <> "") (t :: ts) =
    (if String.eqb t "" then [] else [t]) ++ filter (fun t => t <> "") ts) as Hf.
  { intros t ts. rewrite filter_cons. destruct (String.eqb_spec t ""); case_decide; naive_solver. }
  revert cur. induction s as [|c s IH]; intros cur; cbn [strtok_go split_on].
  - by rewrite Hf, str_app_nil_r, app_nil_r.
  - destruct (Ascii.eqb c d).
    + rewrite Hf, str_app_nil_r, IH. by destruct (split_on_not_nil d s) as (t & ts & ->).
    + rewrite IH. destruct (split_on_not_nil d s) as (t & ts & ->).
      by rewrite str_app_assoc.
Qed.

Lemma string_split_fields s d : string_split s d = filter (fun t => t <> "") (split_on d s).
Proof.
  unfold string_split, strtok_all. rewrite strtok_go_fields.
  by destruct (split_on_not_nil d s) as (t & ts & ->).
Qed.

Lemma count_delims_count d s pos acc :
  (count_delims d s pos acc).1 = acc.1 + (Z.of_nat (length (split_on d s)) - 1).
Proof.
  revert pos acc. induction s as [|c s IH]; intros pos acc; cbn [count_delims split_on].
  - simpl. lia.
  - rewrite IH, (Ascii.eqb_sym d c). destruct (Ascii.eqb c d); cbn [fst length]; [lia|].
    by destruct (split_on_not_nil d s) as (t & ts & ->).
Qed.

Lemma count_delims_last d s pos acc :
  if str_mem d s then
    exists p, (count_delims d s pos acc).2 = Some p /\
      (pos + strlen s - 1 <= p -> last (split_on d s) = Some "")
  else (count_delims d s pos acc).2 = acc.2.
Proof.
  revert pos acc. induction s as [|c s IH]; intros pos acc; cbn [count_delims split_on str_mem].
  - done.
  - rewrite (Ascii.eqb_sym d c).
    specialize (IH (pos + 1) (if Ascii.eqb c d then (acc.1 + 1, Some pos) else acc)).
    rewrite strlen_cons. destruct (Ascii.eqb c d); cbn [orb].
    + destruct (str_mem d s) eqn:E.
      * destruct IH as (p & Hp & Hl). exists p. split; [done|]. intros H.
        destruct (split_on_not_nil d s) as (t & ts & Et). rewrite Et in *. apply Hl. lia.
      * exists pos. split; [done|]. intros H. pose proof (strlen_nonneg s).
        rewrite (strlen_zero s) by lia. done.
    + destruct (str_mem d s) eqn:E; [|done]. destruct IH as (p & Hp & Hl).
      exists p. split; [done|]. intros H.
      destruct (split_on_not_nil d s) as (t & ts & Et). rewrite Et in *.
      destruct ts as [|t' ts]; [|apply Hl; lia].
      exfalso. clear -E Et. revert t Et. induction s as [|a s IH]; [done|]. simpl in *.
      destruct (Ascii.eqb a d).
      * intros t Et. destruct (split_on_not_nil d s) as (? & ? & Es). by rewrite Es in Et.
      * destruct (split_on_not_nil d s) as (u & us & Es). rewrite Es in *.
        intros t [= _ ->]. by apply (IH E u).
Qed.

Lemma filter_last_empty (l : list string) :
  last l = Some "" -> (S (length (filter (fun t => t <> "") l)) <= length l)%nat.
Proof.
  intros [k ->]%last_Some. rewrite filter_app, !length_app.
  rewrite filter_cons_False, filter_nil by naive_solver. cbn [length].
  pose proof (length_filter (fun t => t <> "") k). lia.
Qed.

(** [string_split] returns the non-empty fields of the string in order, and
    the array it allocates after counting delimiters has room for all of them
    and for the terminating NULL, whatever the string. *)
Theorem string_split_spec (s : string) (d : ascii) :
  string_split s d = filter (fun t => t <> "") (split_on d s) /\
  Z.of_nat (length (string_split s d)) + 1 <= string_split_slots s d.
Proof.
  split; [apply string_split_fields|]. rewrite string_split_fields. unfold string_split_slots.
  pose proof (count_delims_count d s 0 (0, None)) as Hc.
  pose proof (count_delims_last d s 0 (0, None)) as Hl.
  destruct (count_delims d s 0 (0, None)) as [count ld]; cbn [fst snd] in *.
  pose proof (length_filter (fun t => t <> "") (split_on d s)) as Hf.
  destruct (str_mem d s).
  - destruct Hl as (p & -> & Hl). destruct (Z.ltb_spec p (strlen s - 1)) as [H|H]; [lia|].
    pose proof (filter_last_empty _ (Hl ltac:(lia))). lia.
  - subst ld. lia.
Qed.

(** ** File names stay below the directory they are joined to *)

(** Walking a path from a directory: the stack of directories entered below it,
    or [None] once the walk leaves it. *)
Fixpoint walk (stack : list string) (comps : list string) : option (list string) :=
  match comps with
  | [] => Some stack
  | c :: comps =>
      if String.eqb c "" || String.eqb c "." then walk stack comps
      else if String.eqb c ".." then
        match stack with [] => None | _ :: stack => walk stack comps end
      else walk (c :: stack) comps
  end.

(** The directories a file name goes through before its last component. *)
Definition dir_components (f : string) : list string := removelast (split_on "/" f).

Lemma is_prefix_app p s t : s = p +:+ t -> is_prefix p s = true.
Proof.
  intros ->. induction p as [|c p IH]; [by destruct t|]. rewrite ?str_app_cons. simpl.
  by rewrite ascii_eqb_refl.
Qed.

Lemma strstr_none_app s n a b : strstr s n = None -> s <> a +:+ n +:+ b.
Proof.
  intros H ->. revert H. induction a as [|c a IH].
  - rewrite ?str_app_nil_l. intros H. destruct (n +:+ b) eqn:E; simpl in H;
      rewrite <- E, (is_prefix_app n (n +:+ b) b) in H by done; done.
  - rewrite ?str_app_cons. simpl. destruct (is_prefix n _); [done|]. apply IH.
Qed.

Lemma dir_component_inside t f : t ∈ dir_components f ->
  exists a b, f = a +:+ t +:+ String "/" b.
Proof.
  unfold dir_components. revert t. induction f as [|c f IH]; intros t; cbn [split_on].
  - simpl. by rewrite elem_of_nil.
  - destruct (split_on_not_nil "/" f) as (u & us & Eu). rewrite Eu in *.
    destruct (Ascii.eqb c "/") eqn:Ec.
    + apply Ascii.eqb_eq in Ec as ->.
      change (removelast ("" :: u :: us)) with ("" :: removelast (u :: us)).
      intros [->|H]%elem_of_cons; [by exists "", f|].
      destruct (IH _ H) as (a & b & ->). by exists (String "/" a), b.
    + destruct us as [|v us]; simpl; [by rewrite elem_of_nil|].
      intros [->|H]%elem_of_cons.
      * destruct (IH u) as (a & b & E); [simpl; by left|].
        assert (exists b, f = u +:+ String "/" b) as [b' ->].
        { clear -Eu. revert u v us Eu. induction f as [|d f IH]; intros u v us Eu; [done|].
          cbn [split_on] in Eu. destruct (Ascii.eqb d "/") eqn:Ed.
          - apply Ascii.eqb_eq in Ed as ->. injection Eu as <- _. by exists f.
          - destruct (split_on_not_nil "/" f) as (w & ws & Ew). rewrite Ew in *.
            injection Eu as <- ->. destruct (IH _ _ _ eq_refl) as [b ->]. by exists b. }
        by exists "", b'.
      * destruct (IH t) as (a & b & ->); [simpl; by right|]. by exists (String c a), b.
Qed.

Lemma walk_no_dotdot comps stack : ".." ∉ comps -> exists st, walk stack comps = Some st.
Proof.
  revert stack. induction comps as [|c comps IH]; intros stack H; cbn [walk]; [by eexists|].
  apply not_elem_of_cons in H as [Hne H].
  destruct (String.eqb c "" || String.eqb c "."); [by apply IH|].
  destruct (String.eqb_spec c ".."); [congruence|]. by apply IH.
Qed.

(** A file name [is_filename_valid] accepts is relative and its directory
    part never leaves the directory it is appended to: no prefix of it climbs
    above the start, so a cpio entry cannot be written outside TMPDIR. *)
Theorem is_filename_valid_confined (f : string) (n : nat) :
  is_filename_valid (Some f) = true ->
  is_prefix "/" f = false /\ (".." ∉ dir_components f) /\
  exists st, walk [] (take n (dir_components f)) = Some st.
Proof.
  unfold is_filename_valid. intros [H1 H2]%andb_true_iff. apply negb_true_iff in H1.
  assert (".." ∉ dir_components f) as Hn.
  { intros H. destruct (dir_component_inside _ _ H) as (a & b & E).
    destruct (strstr f "../") eqn:Es; [done|].
    by apply (strstr_none_app _ _ a b Es). }
  split_and!; [done|done|]. apply walk_no_dotdot. intros H. apply Hn.
  rewrite <- (take_drop n (dir_components f)). apply elem_of_app. by left.
Qed.

Lemma is_filename_valid_confined_witness :
  is_filename_valid (Some "a/b..c/img.bin") = true /\
  exists st, walk [] (take 2 (dir_components "a/b..c/img.bin")) = Some st.
Proof.
  split; [reflexivity|].
  apply (is_filename_valid_confined "a/b..c/img.bin" 2). reflexivity.
Defined.

(** ** Sizes with units *)

Lemma unit_char_stop c f : unit_factor c = Some f -> num_stop c = true.
Proof. destruct c as [[][][][][][][][]]; vm_compute; congruence. Qed.

Lemma strtoull_print_d v r :
  0 <= v <= ULONG_MAX -> (forall c r', r = String c r' -> num_stop c = true) ->
  strtoull (print_d v +:+ r) 10 = (v, r, 0).
Proof.
  intros Hv Hr. unfold strtoull.
  assert (scan_number 10 (print_d v +:+ r) = Some (false, v, r)) as ->.
  { assert (scan_number 10 (print_d v) = Some (false, v, "")) as H.
    { apply scan_number_print_d. unfold ULONG_MAX in *. lia. }
    destruct r as [|c r]; [by rewrite str_app_nil_r|].
    by rewrite (scan_number_stop c (Hr _ _ eq_refl)), H. }
  by rewrite (proj2 (Z.leb_le _ _)) by lia.
Qed.

(** [ustrtoull] on a decimal 64-bit number followed by one of the units K, M
    or G (in either case, optionally written Ki, KiB, ...): the result is the
    number times 1024, 1024^2 or 1024^3, reduced modulo 2^64, and [errno] is 0
    even when the product does not fit; the end pointer is behind the unit. *)
Theorem ustrtoull_scaled (v : Z) (c : ascii) (f : Z) (rest : string) :
  0 <= v <= ULONG_MAX -> unit_factor c = Some f ->
  ustrtoull (print_d v +:+ String c rest) 10 =
  (u64 (v * f), Some (skip_unit (String c rest)), 0).
Proof.
  intros Hv Hc. unfold ustrtoull. rewrite strtoull_print_d; [|done|].
  2:{ intros ? ? [= <- _]. by eapply unit_char_stop. }
  rewrite !strlen_app, strlen_cons. pose proof (strlen_nonneg rest).
  assert (0 < strlen (print_d v)) by (apply print_d_nonempty).
  rewrite !(proj2 (Z.eqb_neq _ _)) by lia. cbn [orb Z.eqb].
  replace (0 =? ERANGE) with false by done. by rewrite andb_false_r, Hc.
Qed.

Lemma ustrtoull_scaled_witness :
  ustrtoull "17179869184G" 10 = (0, Some "", 0) /\ ustrtoull "10MiB" 10 = (10485760, Some "", 0).
Proof.
  split.
  - pose proof (ustrtoull_scaled 17179869184 "G" (1024 * 1024 * 1024) "") as H.
    apply H; [unfold ULONG_MAX; lia|reflexivity].
  - pose proof (ustrtoull_scaled 10 "M" (1024 * 1024) "iB") as H.
    apply H; [unfold ULONG_MAX; lia|reflexivity].
Defined.

(** ** Escaping *)

Definition NUL : ascii := "000".

(** What each source character becomes. *)
Definition escape_unit (c : ascii) : list ascii := if needs_escape c then [backslash; c] else [c].
Definition escape_units (src : string) : list (list ascii) :=
  escape_unit <$> String.list_ascii_of_string src.

(** The leading units that fit in [room] bytes; no unit is cut in two. *)
Fixpoint fitting (room : Z) (us : list (list ascii)) : list ascii :=
  match us with
  | [] => []
  | u :: us => if Z.of_nat (length u) <=? room
               then u ++ fitting (room - Z.of_nat (length u)) us else []
  end.

Lemma snescape_full n src dst len :
  n - 1 <= len ->
  snescape_loop n src dst len = (dst, len + Z.of_nat (length (concat (escape_units src)))).
Proof.
  revert dst len. induction src as [|c src IH]; intros dst len H; cbn [snescape_loop].
  - cbn. f_equal. lia.
  - change (escape_units (String c src)) with (escape_unit c :: escape_units src).
    cbn [concat]. rewrite length_app. unfold escape_unit.
    destruct (needs_escape c); rewrite ?(proj2 (Z.ltb_ge _ _)) by lia;
      rewrite IH by lia; cbn [length]; f_equal; lia.
Qed.

Lemma insert_padded (acc : list ascii) c n :
  Z.of_nat (length acc) < n ->
  <[Z.to_nat (Z.of_nat (length acc)) := c]>
    (acc ++ replicate (Z.to_nat (n - Z.of_nat (length acc))) NUL) =
  (acc ++ [c]) ++ replicate (Z.to_nat (n - Z.of_nat (length (acc ++ [c])))) NUL.
Proof.
  intros H. rewrite Nat2Z.id, length_app. cbn [length].
  replace (Z.to_nat (n - Z.of_nat (length acc)))
    with (S (Z.to_nat (n - Z.of_nat (length acc + 1)))) by lia.
  rewrite <- (Nat.add_0_r (length acc)) at 1. rewrite insert_app_r. cbn.
  by rewrite <- app_assoc.
Qed.

Lemma snescape_loop_spec n src acc :
  Z.of_nat (length acc) <= n - 1 ->
  snescape_loop n src (acc ++ replicate (Z.to_nat (n - Z.of_nat (length acc))) NUL)
    (Z.of_nat (length acc)) =
  let out := acc ++ fitting (n - 1 - Z.of_nat (length acc)) (escape_units src) in
  (out ++ replicate (Z.to_nat (n - Z.of_nat (length out))) NUL,
   Z.of_nat (length acc) + Z.of_nat (length (concat (escape_units src)))).
Proof.
  revert acc. induction src as [|c src IH]; intros acc H; cbn [snescape_loop].
  { cbn. rewrite app_nil_r. f_equal. lia. }
  change (escape_units (String c src)) with (escape_unit c :: escape_units src).
  cbn [concat fitting].
  rewrite (length_app (escape_unit c) (concat (escape_units src))). unfold escape_unit.
  destruct (needs_escape c) eqn:Ec; cbn [length].
  - destruct (Z.ltb_spec (Z.of_nat (length acc)) (n - 2)) as [Hb|Hb].
    + rewrite insert_padded by lia.
      replace (Z.of_nat (length acc) + 1) with (Z.of_nat (length (acc ++ [backslash])))
        by (rewrite length_app; cbn; lia).
      rewrite (proj2 (Z.ltb_lt _ _)) by (rewrite length_app; cbn; lia).
      rewrite insert_padded by (rewrite length_app; cbn; lia).
      set (acc' := (acc ++ [backslash]) ++ [c]).
      assert (Z.of_nat (length acc') = Z.of_nat (length acc) + 2) as Hl
        by (unfold acc'; rewrite !length_app; cbn; lia).
      replace (Z.of_nat (length (acc ++ [backslash])) + 1) with (Z.of_nat (length acc'))
        by (rewrite Hl, length_app; cbn; lia).
      rewrite IH by lia. rewrite (proj2 (Z.leb_le _ _)) by lia. cbn zeta.
      replace (n - 1 - Z.of_nat (length acc'))
        with (n - 1 - Z.of_nat (length acc) - Z.of_nat 2) by lia.
      replace (acc' ++ fitting (n - 1 - Z.of_nat (length acc) - Z.of_nat 2) (escape_units src))
        with (acc ++ [backslash; c] ++
              fitting (n - 1 - Z.of_nat (length acc) - Z.of_nat 2) (escape_units src))
        by (unfold acc'; by rewrite <- !app_assoc).
      f_equal. lia.
    + rewrite (proj2 (Z.ltb_ge _ _)) by lia. rewrite snescape_full by lia.
      rewrite (proj2 (Z.leb_gt _ _)) by lia. cbn zeta. rewrite app_nil_r. f_equal. lia.
  - destruct (Z.ltb_spec (Z.of_nat (length acc)) (n - 1)) as [Hb|Hb].
    + rewrite insert_padded by lia.
      assert (Z.of_nat (length (acc ++ [c])) = Z.of_nat (length acc) + 1) as Hl
        by (rewrite length_app; cbn; lia).
      rewrite <- Hl, IH by lia. rewrite (proj2 (Z.leb_le _ _)) by lia. cbn zeta.
      replace (n - 1 - Z.of_nat (length (acc ++ [c])))
        with (n - 1 - Z.of_nat (length acc) - Z.of_nat 1) by lia.
      rewrite <- (app_assoc acc [c] (fitting _ _)). f_equal. lia.
    + rewrite snescape_full by lia.
      rewrite (proj2 (Z.leb_gt _ _)) by lia. cbn zeta. rewrite app_nil_r. f_equal. lia.
Qed.

Lemma fitting_length room us : 0 <= room -> Z.of_nat (length (fitting room us)) <= room.
Proof.
  revert room. induction us as [|u us IH]; intros room H; cbn [fitting length]; [lia|].
  destruct (Z.leb_spec (Z.of_nat (length u)) room); cbn [length]; [|lia].
  rewrite length_app. specialize (IH (room - Z.of_nat (length u))). lia.
Qed.

(** For a buffer of [n >= 3] bytes [snescape] stores the longest run of whole
    escaped characters that fits in [n - 1] bytes and fills the rest with NULs,
    so the result has exactly [n] bytes, is NUL-terminated and never ends in half
    an escape; it returns the length of the complete escaped text. *)
Theorem snescape_spec (dst : list ascii) (n : Z) (src : string) :
  3 <= n ->
  let out := fitting (n - 1) (escape_units src) in
  snescape dst n src =
    (out ++ replicate (Z.to_nat (n - Z.of_nat (length out))) NUL,
     Z.of_nat (length (concat (escape_units src)))) /\
  Z.of_nat (length out) <= n - 1.
Proof.
  intros H. cbn zeta. split; [|apply fitting_length; lia].
  unfold snescape. rewrite (proj2 (Z.ltb_ge _ _)) by lia.
  pose proof (snescape_loop_spec n src []) as E. cbn in E.
  rewrite !Z.sub_0_r in E. apply E. lia.
Qed.

Lemma snescape_spec_witness :
  snescape [] 4 "ab\" = (["a"%char; "b"%char; NUL; NUL], 4).
Proof. apply (snescape_spec [] 4 "ab\"). lia. Defined.
