(* ===== verification/Versions.v ===== *)
(** * Versions of artifacts: [core/artifacts_versions.c]

    The comparison that decides whether an artifact is newer than the installed
    one, and the legacy file of installed versions. *)
From S2P Require Import Prelude CString Util Semver.

(** ** Installed software *)

(** [struct sw_version]; the list head of [installed_sw_list] comes first. *)
Record sw_version := mk_sw_version {
  sw_name : string;
  sw_vers : string;
  install_if_different : bool;
  install_if_higher : bool;
}.

(** The [while (1)] of [read_sw_version_file]: [fscanf ("%ms %ms")] takes two
    blank-separated words whatever the line ends; a last single word is dropped.
    Each pair is inserted at the head of the list. *)
Fixpoint read_sw_version_words (words : list string) (l : list sw_version) : list sw_version :=
  match words with
  | name :: version :: words =>
      read_sw_version_words words
        (mk_sw_version (strlcpy name SWUPDATE_GENERAL_STRING_SIZE)
           (strlcpy version SWUPDATE_GENERAL_STRING_SIZE) false false :: l)
  | _ => l
  end.

(** [None]: the file cannot be opened. *)
Definition read_sw_version_file (file : option string) (l : list sw_version)
  : Z * list sw_version :=
  match file with
  | None => (- EACCES, l)
  | Some text => (0, read_sw_version_words (splitargs text) l)
  end.

(** ** Old-style versions *)

(** The [for] of [version_to_number]: [None] is its [goto out]. *)
Fixpoint version_fields (vers : list string) (count : nat) (version : Z) : option (nat * Z) :=
  match vers with
  | ver :: vers =>
      if (count <? 4)%nat then
        let fld := strtoul ver 10 in
        if fld >? 65535 then None
        else version_fields vers (S count) (u64 (Z.lor (u64 (Z.shiftl version 16)) fld))
      else Some (count, version)
  | [] => Some (count, version)
  end.

Definition version_to_number (version_string : string) : option Z :=
  match version_fields (string_split version_string ".") 0 0 with
  | None => None
  | Some (count, version) =>
      if (4 <? count)%nat then Some version
      else if (0 <? count)%nat then
        Some (u64 (Z.shiftl version (16 * (4 - Z.of_nat count))))
      else Some version
  end.

Definition ACCEPTED_CHARS : string := "0123456789.".

Definition is_numbered_version (version_string : string) : option Z :=
  if str_forall (fun c => str_mem c ACCEPTED_CHARS) version_string
  then version_to_number version_string else None.

Definition compare_versions (left_version right_version : string) : Z :=
  match is_numbered_version left_version, is_numbered_version right_version with
  | Some left_u64, Some right_u64 =>
      if left_u64 <? right_u64 then -1 else if left_u64 >? right_u64 then 1 else 0
  | _, _ =>
      let '(lres, left_sem) := semver_parse left_version semver_zero in
      let '(rres, right_sem) := semver_parse right_version semver_zero in
      if (lres =? 0) && (rres =? 0) then semver_compare left_sem right_sem
      else strcmp left_version right_version
  end.

(** * Properties *)

(** ** Old-style versions compare field by field *)

(** The numbers of the non-empty dot-separated fields. *)
Definition fields_of (s : string) : list Z :=
  (fun f => strtoul f 10) <$> string_split s ".".

(** The first four, padded with zeroes. *)
Definition four (l : list Z) : Z * (Z * (Z * Z)) :=
  (nth 0 l 0, (nth 1 l 0, (nth 2 l 0, nth 3 l 0))).

Definition pack (q : Z * (Z * (Z * Z))) : Z :=
  let '(a, (b, (c, d))) := q in ((a * 65536 + b) * 65536 + c) * 65536 + d.

Definition cmp_four : Z * (Z * (Z * Z)) -> Z * (Z * (Z * Z)) -> comparison :=
  cmp_pair Z.compare (cmp_pair Z.compare (cmp_pair Z.compare Z.compare)).

(** An old-style version: digits and dots, first four fields below 65536. *)
Definition old_style (s : string) : bool :=
  str_forall (fun c => str_mem c ACCEPTED_CHARS) s &&
  forallb (fun v => v <=? 65535) (take 4 (fields_of s)).

Lemma strtoul_nonneg s : 0 <= strtoul s 10.
Proof.
  unfold strtoul, strtoull. destruct (scan_number 10 s) as [[[neg v] r]|] eqn:E; cbn; [|lia].
  assert (0 <= v) as Hv.
  { unfold scan_number in E. destruct (scan_sign (skip_space s)) as [n s1].
    rewrite scan_base_10 in E. destruct (starts_with_digit 10 s1); [|done].
    destruct (scan_digits 10 0 s1) as [v' r'] eqn:Ed. injection E as _ <- _.
    assert (forall acc t, 0 <= acc -> 0 <= (scan_digits 10 acc t).1) as H.
    { intros acc t. revert acc. induction t as [|c t IH]; intros acc Ha; cbn [scan_digits]; [done|].
      rewrite base10_digit. destruct (isdigit c) eqn:Ec; [|done]. apply IH.
      unfold isdigit, byte_in in Ec. bool_to_prop. lia. }
    specialize (H 0 s1 ltac:(lia)). by rewrite Ed in H. }
  case_if; cbn; [|unfold ULONG_MAX; lia].
  destruct neg; [|done]. apply wrap_range. lia.
Qed.

Lemma lor_shift_add a f : 0 <= a -> 0 <= f < 65536 -> Z.lor (Z.shiftl a 16) f = a * 65536 + f.
Proof.
  intros Ha Hf. rewrite Z.shiftl_mul_pow2 by lia. change (2 ^ 16) with 65536.
  rewrite <- Z.lxor_lor, <- Z.add_nocarry_lxor.
  all: change 65536 with (2 ^ 16) in *; rewrite <- Z.shiftl_mul_pow2 by lia.
  all: try done; apply Z.bits_inj'; intros n Hn; rewrite Z.land_spec, Z.bits_0.
  all: destruct (Z.lt_ge_cases n 16) as [H|H];
    [by rewrite Z.shiftl_spec_low|rewrite andb_comm].
  all: assert (Z.testbit f n = false) as ->; [|done].
  all: destruct (Z.eq_dec f 0) as [->|]; [apply Z.bits_0|].
  all: apply Z.bits_above_log2; [lia|].
  all: apply Z.log2_lt_pow2; [lia|]; eapply Z.lt_le_trans; [apply Hf|].
  all: apply Z.pow_le_mono_r; lia.
Qed.

Lemma version_fields_step ver vers count version :
  (count < 4)%nat -> 0 <= version < 65536 ^ Z.of_nat count ->
  version_fields (ver :: vers) count version =
  if strtoul ver 10 <=? 65535
  then version_fields vers (S count) (version * 65536 + strtoul ver 10) else None.
Proof.
  intros Hc Hv. cbn [version_fields]. rewrite (proj2 (Nat.ltb_lt _ _) Hc), Z.gtb_ltb.
  pose proof (strtoul_nonneg ver). rewrite Z.ltb_antisym.
  destruct (Z.leb_spec (strtoul ver 10) 65535) as [H1|H1]; [|done]. cbn [negb].
  assert (version < 65536 ^ 3).
  { eapply Z.lt_le_trans; [apply Hv|]. apply Z.pow_le_mono_r; lia. }
  rewrite (wrap_small 64 (Z.shiftl version 16))
    by (rewrite Z.shiftl_mul_pow2 by lia; lia).
  rewrite lor_shift_add by lia. by rewrite wrap_small by lia.
Qed.

Lemma version_to_number_spec s :
  version_to_number s =
  if forallb (fun v => v <=? 65535) (take 4 (fields_of s))
  then Some (pack (four (fields_of s))) else None.
Proof.
  unfold version_to_number, fields_of. generalize (string_split s "."). intros vers.
  assert (forall k x, 0 <= x -> 0 <= k <= 4 -> x < 65536 ^ (4 - k) ->
    u64 (Z.shiftl x (16 * k)) = x * 65536 ^ k) as Hshift.
  { intros k x Hx Hk Hb. rewrite Z.shiftl_mul_pow2 by lia.
    rewrite Z.pow_mul_r by lia. change (2 ^ 16) with 65536. apply wrap_small.
    change (2 ^ 64) with (65536 ^ 4). replace 4 with ((4 - k) + k) by lia.
    rewrite Z.pow_add_r by lia. nia. }
  destruct vers as [|a vers]; [done|].
  rewrite version_fields_step by (simpl; lia). cbn [fmap list_fmap take forallb].
  pose proof (strtoul_nonneg a). destruct (Z.leb_spec (strtoul a 10) 65535); [|done].
  destruct vers as [|b vers].
  { cbn -[Z.shiftl Z.mul Z.add]. rewrite Hshift by lia. f_equal. lia. }
  rewrite version_fields_step by (simpl; lia). cbn [fmap list_fmap take forallb].
  pose proof (strtoul_nonneg b). destruct (Z.leb_spec (strtoul b 10) 65535); [|done].
  destruct vers as [|c vers].
  { cbn -[Z.shiftl Z.mul Z.add]. rewrite Hshift by lia. f_equal. lia. }
  rewrite version_fields_step by (simpl; lia). cbn [fmap list_fmap take forallb].
  pose proof (strtoul_nonneg c). destruct (Z.leb_spec (strtoul c 10) 65535); [|done].
  destruct vers as [|d vers].
  { cbn -[Z.shiftl Z.mul Z.add]. rewrite Hshift by lia. f_equal. lia. }
  rewrite version_fields_step by (simpl; lia). cbn [fmap list_fmap take forallb].
  pose proof (strtoul_nonneg d). destruct (Z.leb_spec (strtoul d 10) 65535); [|done].
  destruct vers as [|e vers]; cbn -[Z.shiftl Z.mul Z.add];
    rewrite Z.shiftl_0_r, wrap_small by lia; f_equal; lia.
Qed.

Lemma is_numbered_version_spec s :
  is_numbered_version s = if old_style s then Some (pack (four (fields_of s))) else None.
Proof.
  unfold is_numbered_version, old_style. rewrite version_to_number_spec.
  by destruct (str_forall _ s).
Qed.

Lemma fields_of_nth s i : 0 <= nth i (fields_of s) 0.
Proof.
  unfold fields_of. revert i. induction (string_split s ".") as [|f l IH]; intros [|i]; simpl; try lia.
  - apply strtoul_nonneg.
  - apply IH.
Qed.

Lemma old_style_nth s i : old_style s = true -> (i < 4)%nat -> 0 <= nth i (fields_of s) 0 <= 65535.
Proof.
  intros [_ H]%andb_true_iff Hi. split; [apply fields_of_nth|].
  revert i Hi H. generalize 4%nat. generalize (fields_of s).
  induction l as [|v l IH]; intros [|n] [|i]; simpl; try lia; intros Hi H; bool_to_prop; try lia.
  eapply IH; [|done]. lia.
Qed.

(** Two old-style versions (digits and dots, the first four fields at most
    65535) are compared lexicographically on those four fields, missing ones
    counting as zero; empty and further fields play no part. *)
Theorem compare_versions_old_style (l r : string) :
  old_style l = true -> old_style r = true ->
  compare_versions l r = Z_of_comparison (cmp_four (four (fields_of l)) (four (fields_of r))).
Proof.
  intros Hl Hr. unfold compare_versions. rewrite !is_numbered_version_spec, Hl, Hr.
  pose proof (old_style_nth l) as Bl. pose proof (old_style_nth r) as Br.
  pose proof (Bl 0%nat Hl ltac:(lia)). pose proof (Bl 1%nat Hl ltac:(lia)).
  pose proof (Bl 2%nat Hl ltac:(lia)). pose proof (Bl 3%nat Hl ltac:(lia)).
  pose proof (Br 0%nat Hr ltac:(lia)). pose proof (Br 1%nat Hr ltac:(lia)).
  pose proof (Br 2%nat Hr ltac:(lia)). pose proof (Br 3%nat Hr ltac:(lia)).
  unfold pack, four, cmp_four, cmp_pair, cmp_then; cbn [fst snd].
  rewrite Z.gtb_ltb. clear -H H0 H1 H2 H3 H4 H5 H6.
  repeat match goal with |- context [Z.compare ?a ?b] =>
    destruct (Z.compare_spec a b) as [?|?|?]; cbn [Z_of_comparison] end;
  repeat match goal with |- context [Z.ltb ?a ?b] =>
    destruct (Z.ltb_spec a b) end; lia.
Qed.

Lemma compare_versions_old_style_witness :
  compare_versions "1.10" "1.9.7" = 1 /\ compare_versions "2..0" "2.0.0.0.9" = 0.
Proof.
  split.
  - exact (compare_versions_old_style "1.10" "1.9.7" eq_refl eq_refl).
  - exact (compare_versions_old_style "2..0" "2.0.0.0.9" eq_refl eq_refl).
Defined.

Lemma strcmp_antisym s t : strcmp t s = - strcmp s t.
Proof. unfold strcmp. by rewrite (cmp_antisym s t), Z_of_comparison_opp. Qed.

Lemma semver_compare_antisym x y : semver_compare y x = - semver_compare x y.
Proof. rewrite !semver_compare_order, (cmp_antisym x y). apply Z_of_comparison_opp. Qed.

(** Whichever of the three methods applies, swapping the versions swaps the
    sign of the result and a version equals itself. *)
Theorem compare_versions_antisym (l r : string) :
  Z.sgn (compare_versions r l) = - Z.sgn (compare_versions l r) /\ compare_versions l l = 0.
Proof.
  assert (forall l r, Z.sgn (compare_versions r l) = - Z.sgn (compare_versions l r)) as A.
  { clear. intros l r. unfold compare_versions.
    destruct (semver_parse l semver_zero) as [lres ls], (semver_parse r semver_zero) as [rres rs].
    assert (Z.sgn (if (rres =? 0) && (lres =? 0) then semver_compare rs ls else strcmp r l) =
      - Z.sgn (if (lres =? 0) && (rres =? 0) then semver_compare ls rs else strcmp l r)) as E.
    { rewrite (andb_comm (rres =? 0)), (semver_compare_antisym ls rs), (strcmp_antisym l r).
      case_if; lia. }
    destruct (is_numbered_version l) as [a|], (is_numbered_version r) as [b|]; try exact E.
    rewrite !Z.gtb_ltb. destruct (Z.ltb_spec a b), (Z.ltb_spec b a); simpl; lia. }
  split; [apply A|]. specialize (A l l). lia.
Qed.

(** The comparison is not transitive across its three methods: "10.0" is
    above "9.0" (numbers), "9.0" above "1x" and "1x" above "10.0" (strings). *)
Theorem compare_versions_cycle :
  compare_versions "10.0" "9.0" > 0 /\ compare_versions "9.0" "1x" > 0 /\
  compare_versions "1x" "10.0" > 0.
Proof. split_and!; vm_compute; reflexivity. Qed.

Fixpoint str_repeat (n : nat) (c : ascii) : string :=
  match n with O => "" | S n => String c (str_repeat n c) end.

(** [compare_versions] renders both versions, at trace level, into
    [char left_rendered[SWUPDATE_GENERAL_STRING_SIZE]]. *)
Definition rendered_bytes (version : string) : Z :=
  strlen (semver_render (semver_parse version semver_zero).2 "") + 1.

(** Rendering a version that [semver_parse] accepts can be longer than its
    source: "1-" followed by 253 letters is a valid 255-character version, its
    rendering inserts ".0.0" and needs more than the 256 bytes of the buffer
    [compare_versions] gives it. *)
Theorem semver_render_overflow :
  let v := "1-" +:+ str_repeat 253 "a" in
  strlen v < SWUPDATE_GENERAL_STRING_SIZE /\ (semver_parse v semver_zero).1 = 0 /\
  rendered_bytes v > SWUPDATE_GENERAL_STRING_SIZE.
Proof. split_and!; vm_compute; reflexivity. Qed.
