(* ===== verification/Dict.v ===== *)
(** * Dictionaries: [core/swupdate_dict.c]

    A [struct dict] is a doubly linked list of entries, each with a key and a list
    of values; sw-description properties and the bootloader environment are kept
    in such dictionaries. A pointer to an entry is its position in the list. *)
From stdpp Require Import gmap.
From S2P Require Import Prelude CString.

Record dict_entry := mk_dict_entry {
  entry_key : string;
  entry_list : list string;
}.

Abbreviation dict := (list dict_entry).

#[export] Instance dict_entry_eq_dec : EqDecision dict_entry.
Proof. solve_decision. Defined.

(** The outcome of [malloc] is an argument [mem] of the operations that allocate:
    [true] when the block was allocated. *)

Definition insert_list_elem (mem : bool) (l : list string) (value : string)
  : Z * list string :=
  if mem then (0, value :: l) else (- ENOMEM, l).

(** The new entry is the first of the list: the pointer returned is 0. *)
Definition insert_entry (mem : bool) (dictionary : dict) (key : string)
  : option nat * dict :=
  if mem then (Some 0%nat, mk_dict_entry key [] :: dictionary) else (None, dictionary).

Fixpoint get_entry (dictionary : dict) (key : string) : option nat :=
  match dictionary with
  | [] => None
  | entry :: rest =>
      if strcmp key (entry_key entry) =? 0 then Some 0%nat
      else S <$> get_entry rest key
  end.

Definition remove_entry (dictionary : dict) (entry : nat) : dict :=
  delete entry dictionary.

Definition dict_entry_get_key (entry : option dict_entry) : option string :=
  entry_key <$> entry.

Definition dict_entry_get_value (entry : option dict_entry) : option string :=
  match entry with
  | Some e => head (entry_list e)
  | None => None
  end.

Definition dict_get_list (dictionary : dict) (key : string) : option (list string) :=
  match get_entry dictionary key with
  | None => None
  | Some i => entry_list <$> dictionary !! i
  end.

Definition dict_get_value (dictionary : dict) (key : string) : option string :=
  match get_entry dictionary key with
  | None => None
  | Some i => dict_entry_get_value (dictionary !! i)
  end.

(** [insert_list_elem (&entry->list, value)], through the pointer. *)
Definition insert_elem_at (mem : bool) (dictionary : dict) (i : nat) (value : string)
  : Z * dict :=
  match dictionary !! i with
  | None => (- ENOMEM, dictionary)
  | Some e =>
      let '(ret, l) := insert_list_elem mem (entry_list e) value in
      (ret, <[i := mk_dict_entry (entry_key e) l]> dictionary)
  end.

Definition dict_insert_value (mem_entry mem_elem : bool) (dictionary : dict)
    (key value : string) : Z * dict :=
  match get_entry dictionary key with
  | Some i => insert_elem_at mem_elem dictionary i value
  | None =>
      match insert_entry mem_entry dictionary key with
      | (None, d) => (- ENOMEM, d)
      | (Some i, d) => insert_elem_at mem_elem d i value
      end
  end.

Definition dict_set_value (mem_entry mem_elem : bool) (dictionary : dict)
    (key value : string) : Z * dict :=
  let d := match get_entry dictionary key with
           | Some i => remove_entry dictionary i
           | None => dictionary
           end in
  match insert_entry mem_entry d key with
  | (None, d) => (- ENOMEM, d)
  | (Some i, d) => insert_elem_at mem_elem d i value
  end.

Definition dict_remove (dictionary : dict) (key : string) : dict :=
  match get_entry dictionary key with
  | None => dictionary
  | Some i => remove_entry dictionary i
  end.

(** [LIST_FOREACH_SAFE]: each entry is removed while it is the first one. *)
Fixpoint dict_drop_db (dictionary : dict) : dict :=
  match dictionary with
  | [] => []
  | _ :: rest => dict_drop_db rest
  end.

Definition BLANKS : string := String "032" (String "009" (String "010" "")).
Definition TAB_NL : string := String "009" (String "010" "").

(** One turn of the [while] of [dict_parse_script]; [None] is its [goto cleanup]
    with the result of [dict_set_value]. *)
Definition parse_script_line (mem : bool * bool) (dictionary : dict) (line : string)
  : Z * dict :=
  let '(key, saveptr) := strtok_r line BLANKS in
  let '(value, _) := strtok_r saveptr TAB_NL in
  match key, value with
  | Some key, Some value => dict_set_value mem.1 mem.2 dictionary key value
  | Some key, None => (0, dict_remove dictionary key)
  | None, _ => (0, dictionary)
  end.

(** Line [n] of the script sees the allocations [mem n]. *)
Fixpoint parse_script_lines (mem : nat -> bool * bool) (n : nat) (dictionary : dict)
    (lines : list string) : Z * dict :=
  match lines with
  | [] => (0, dictionary)
  | line :: lines =>
      let '(ret, d) := parse_script_line (mem n) dictionary line in
      if ret =? 0 then parse_script_lines mem (S n) d lines else (ret, d)
  end.

(** [script] is the content of the file, [None] if it cannot be opened. *)
Definition dict_parse_script (mem : nat -> bool * bool) (dictionary : dict)
    (script : option string) : Z * dict :=
  match script with
  | None => (-1, dictionary)
  | Some text => parse_script_lines mem 0 dictionary (getlines text)
  end.

(** * Properties *)

(** ** Refinement: a finite map from keys to lists of values *)

Definition dict_abs (d : dict) : gmap string (list string) :=
  list_to_map ((fun e => (entry_key e, entry_list e)) <$> d).

(** The representation invariant: one entry per key. *)
Definition dict_ok (d : dict) : Prop := NoDup (entry_key <$> d).

Lemma strcmp_eq s t : (strcmp s t =? 0) = bool_decide (s = t).
Proof.
  unfold strcmp. case_bool_decide as E.
  - subst. by rewrite cmp_refl.
  - apply Z.eqb_neq. destruct (String.compare s t) eqn:C; simpl; try lia.
    by apply String.compare_eq_iff in C.
Qed.

Lemma dict_abs_cons e d : dict_abs (e :: d) = <[entry_key e := entry_list e]> (dict_abs d).
Proof. done. Qed.

Lemma dict_abs_nil : dict_abs [] = ∅.
Proof. done. Qed.

Lemma dict_abs_None d k : k ∉ entry_key <$> d -> dict_abs d !! k = None.
Proof.
  intros H. apply not_elem_of_list_to_map_1. by rewrite <- list_fmap_compose.
Qed.

Lemma get_entry_None d k : get_entry d k = None <-> k ∉ entry_key <$> d.
Proof.
  induction d as [|e d IH]; cbn [get_entry fmap list_fmap].
  - split; [|done]. intros _ H. by apply elem_of_nil in H.
  - rewrite strcmp_eq, not_elem_of_cons. case_bool_decide; [by split; [|tauto]|].
    rewrite fmap_None, IH. tauto.
Qed.

Lemma get_entry_Some d k i :
  get_entry d k = Some i -> exists e, d !! i = Some e /\ entry_key e = k.
Proof.
  revert i. induction d as [|e d IH]; intros i; cbn [get_entry]; [done|].
  rewrite strcmp_eq. case_bool_decide; [naive_solver|].
  intros (j & H1 & ->)%fmap_Some. eauto.
Qed.

Lemma dict_abs_lookup d k : dict_abs d !! k = dict_get_list d k.
Proof.
  unfold dict_get_list. induction d as [|e d IH]; cbn [get_entry]; [done|].
  rewrite dict_abs_cons, strcmp_eq. case_bool_decide as E.
  - subst. by rewrite lookup_insert_eq.
  - rewrite lookup_insert_ne, IH by done. by destruct (get_entry d k).
Qed.

Lemma dict_value_list d k : dict_get_value d k = dict_get_list d k ≫= head.
Proof.
  unfold dict_get_value, dict_get_list, dict_entry_get_value.
  destruct (get_entry d k) as [i|]; [|done]. by destruct (d !! i).
Qed.

Lemma keys_delete i d : entry_key <$> (delete i d : dict) = delete i (entry_key <$> d).
Proof. revert i. induction d as [|e d IH]; intros [|i]; cbn; f_equal; auto. Qed.

Lemma NoDup_delete {A} i (l : list A) : NoDup l -> NoDup (delete i l).
Proof. intros H. eapply sublist_NoDup; [done|apply sublist_delete]. Qed.

Lemma dict_abs_delete d i e :
  dict_ok d -> d !! i = Some e -> dict_abs (delete i d) = delete (entry_key e) (dict_abs d).
Proof.
  unfold dict_ok. revert i. induction d as [|f d IH]; intros i; [done|].
  cbn [fmap list_fmap]. rewrite NoDup_cons. intros [Hf Hd] Hi. destruct i as [|i]; simpl in Hi.
  - injection Hi as <-. symmetry. by apply delete_insert_id, dict_abs_None.
  - change (delete (S i) (f :: d)) with (f :: delete i d). rewrite !dict_abs_cons, IH, delete_insert_ne; [done| |done|done].
    intros E. apply Hf. rewrite <- E. apply list_elem_of_fmap. exists e. split; [done|]. by eapply list_elem_of_lookup_2.
Qed.

Lemma dict_remove_ok d k : dict_ok d -> dict_ok (dict_remove d k).
Proof.
  unfold dict_ok, dict_remove, remove_entry. intros H.
  destruct (get_entry d k); [|done]. rewrite keys_delete. by apply NoDup_delete.
Qed.

Lemma dict_remove_abs d k : dict_ok d -> dict_abs (dict_remove d k) = delete k (dict_abs d).
Proof.
  intros H. unfold dict_remove, remove_entry. destruct (get_entry d k) as [i|] eqn:E.
  - apply get_entry_Some in E as (e & Hi & <-). by apply dict_abs_delete.
  - rewrite delete_id; [done|]. by apply dict_abs_None, get_entry_None.
Qed.

Lemma dict_set_value_unfold m1 m2 d k v :
  dict_set_value m1 m2 d k v =
  if m1 then (if m2 then 0 else - ENOMEM,
    mk_dict_entry k (if m2 then [v] else []) :: dict_remove d k)
  else (- ENOMEM, dict_remove d k).
Proof.
  unfold dict_set_value, dict_remove, insert_entry, insert_elem_at, insert_list_elem.
  destruct m1, m2; reflexivity.
Qed.

Lemma dict_remove_notin d k : dict_ok d -> k ∉ entry_key <$> dict_remove d k.
Proof.
  intros H%(dict_remove_abs d k). rewrite <- get_entry_None.
  assert (dict_abs (dict_remove d k) !! k = None) as E by (by rewrite H, lookup_delete_eq).
  rewrite dict_abs_lookup in E. unfold dict_get_list in E.
  destruct (get_entry _ k) as [i|] eqn:G; [|done].
  apply get_entry_Some in G as (e & Hi & _). by rewrite Hi in E.
Qed.

Lemma dict_set_value_ok m1 m2 d k v : dict_ok d -> dict_ok (dict_set_value m1 m2 d k v).2.
Proof.
  intros H. rewrite dict_set_value_unfold. destruct m1; simpl; [|by apply dict_remove_ok].
  apply NoDup_cons. split; [by apply dict_remove_notin|by apply dict_remove_ok].
Qed.

Lemma dict_set_value_abs d k v :
  dict_ok d -> dict_abs (dict_set_value true true d k v).2 = <[k := [v]]> (dict_abs d).
Proof.
  intros H. rewrite dict_set_value_unfold. cbn [snd]. rewrite dict_abs_cons, dict_remove_abs by done.
  apply insert_delete_eq.
Qed.

Lemma dict_insert_value_new d k v m1 m2 :
  k ∉ entry_key <$> d -> dict_insert_value m1 m2 d k v = dict_set_value m1 m2 d k v.
Proof. intros H%get_entry_None. unfold dict_insert_value, dict_set_value. by rewrite H. Qed.

Lemma dict_insert_value_at d k v m1 i e :
  d !! i = Some e -> get_entry d k = Some i ->
  dict_insert_value m1 true d k v =
    (0, <[i := mk_dict_entry (entry_key e) (v :: entry_list e)]> d).
Proof.
  intros Hi H. unfold dict_insert_value, insert_elem_at. by rewrite H, Hi.
Qed.

Lemma dict_abs_insert d i e l :
  dict_ok d -> d !! i = Some e ->
  dict_abs (<[i := mk_dict_entry (entry_key e) l]> d) = <[entry_key e := l]> (dict_abs d).
Proof.
  unfold dict_ok. revert i. induction d as [|f d IH]; intros i; [done|].
  cbn [fmap list_fmap]. rewrite NoDup_cons. intros [Hf Hd] Hi. destruct i as [|i]; simpl in Hi.
  - injection Hi as <-. simpl. rewrite !dict_abs_cons. cbn [entry_key entry_list]. by rewrite insert_insert_eq.
  - simpl. rewrite !dict_abs_cons, IH by done. apply insert_insert_ne.
    intros E. apply Hf. rewrite E. apply list_elem_of_fmap. exists e.
    split; [done|]. by eapply list_elem_of_lookup_2.
Qed.

Lemma keys_insert d i e l :
  d !! i = Some e ->
  entry_key <$> (<[i := mk_dict_entry (entry_key e) l]> d : dict) = entry_key <$> d.
Proof.
  intros H. rewrite list_fmap_insert. apply list_insert_id. by rewrite list_lookup_fmap, H.
Qed.

Lemma dict_insert_value_ok m1 m2 d k v : dict_ok d -> dict_ok (dict_insert_value m1 m2 d k v).2.
Proof.
  intros H. destruct (get_entry d k) as [i|] eqn:E.
  - pose proof (get_entry_Some _ _ _ E) as (e & Hi & _).
    unfold dict_insert_value, insert_elem_at, insert_list_elem. rewrite E, Hi.
    unfold dict_ok. destruct m2; cbn; by rewrite keys_insert.
  - rewrite dict_insert_value_new by (by apply get_entry_None). by apply dict_set_value_ok.
Qed.

Lemma dict_insert_value_abs d k v :
  dict_ok d ->
  dict_abs (dict_insert_value true true d k v).2 =
  <[k := v :: default [] (dict_abs d !! k)]> (dict_abs d).
Proof.
  intros H. destruct (get_entry d k) as [i|] eqn:E.
  - pose proof (get_entry_Some _ _ _ E) as (e & Hi & Hk).
    rewrite (dict_insert_value_at d k v true i e) by done. cbn [snd].
    rewrite dict_abs_insert, dict_abs_lookup by done. unfold dict_get_list.
    by rewrite E, Hi, Hk.
  - apply get_entry_None in E. rewrite dict_insert_value_new by done.
    by rewrite dict_set_value_abs, (dict_abs_None d k) by done.
Qed.

(** What a dictionary promises its users, as operations on a finite map. *)
Definition map_set (k v : string) (m : gmap string (list string)) := <[k := [v]]> m.
Definition map_add (k v : string) (m : gmap string (list string)) :=
  <[k := v :: default [] (m !! k)]> m.

(** The linked list implements a finite map from keys to lists of values: a
    lookup reads the map, setting a value replaces the whole list of its key,
    inserting one puts it in front, removing deletes the key, no other key is
    affected, and each operation keeps one entry per key. *)
Theorem dict_refines_map (d : dict) (k v : string) :
  dict_ok d ->
  (dict_get_list d k = dict_abs d !! k /\ dict_get_value d k = dict_abs d !! k ≫= head) /\
  (let '(ret, d') := dict_set_value true true d k v in
   ret = 0 /\ dict_ok d' /\ dict_abs d' = map_set k v (dict_abs d)) /\
  (let '(ret, d') := dict_insert_value true true d k v in
   ret = 0 /\ dict_ok d' /\ dict_abs d' = map_add k v (dict_abs d)) /\
  dict_ok (dict_remove d k) /\ dict_abs (dict_remove d k) = delete k (dict_abs d).
Proof.
  intros H. split_and!.
  - by rewrite dict_abs_lookup.
  - by rewrite dict_value_list, dict_abs_lookup.
  - pose proof (dict_set_value_ok true true d k v H) as H1.
    pose proof (dict_set_value_abs d k v H) as H2.
    destruct (dict_set_value true true d k v) as [ret d'] eqn:E. split_and!; try done.
    rewrite dict_set_value_unfold in E. by injection E.
  - pose proof (dict_insert_value_ok true true d k v H) as H1.
    pose proof (dict_insert_value_abs d k v H) as H2.
    destruct (dict_insert_value true true d k v) as [ret d'] eqn:E. split_and!; try done.
    destruct (get_entry d k) as [i|] eqn:G.
    + pose proof (get_entry_Some _ _ _ G) as (e & Hi & Hk).
      rewrite (dict_insert_value_at d k v true i e) in E by done. by injection E.
    + rewrite dict_insert_value_new in E by (by apply get_entry_None).
      rewrite dict_set_value_unfold in E. by injection E.
  - by apply dict_remove_ok.
  - by apply dict_remove_abs.
Qed.

Lemma dict_refines_map_witness :
  let d := [mk_dict_entry "a" ["1"; "0"]; mk_dict_entry "b" ["2"]] in
  dict_ok d /\ dict_get_list d "a" = dict_abs d !! "a".
Proof.
  assert (dict_ok [mk_dict_entry "a" ["1"; "0"]; mk_dict_entry "b" ["2"]]) as H.
  { apply (bool_decide_unpack _). vm_compute. reflexivity. }
  split; [exact H|]. exact (proj1 (proj1 (dict_refines_map _ "a" "x" H))).
Defined.

(** When the new entry of [dict_set_value] cannot be allocated the error is
    reported, and the old value of the key is lost: it was removed first. *)
Theorem dict_set_value_oom (d : dict) (k v : string) (mem : bool) :
  dict_ok d ->
  let '(ret, d') := dict_set_value false mem d k v in
  ret = - ENOMEM /\ dict_get_value d' k = None /\
  forall k', k' <> k -> dict_get_list d' k' = dict_get_list d k'.
Proof.
  intros H. rewrite dict_set_value_unfold. split_and!; [done| |].
  - rewrite dict_value_list, <- dict_abs_lookup, dict_remove_abs by done.
    by rewrite lookup_delete_eq.
  - intros k' Hk. rewrite <- !dict_abs_lookup, dict_remove_abs by done.
    by rewrite lookup_delete_ne.
Qed.

Lemma dict_set_value_oom_witness :
  dict_get_value [mk_dict_entry "a" ["1"]] "a" = Some "1" /\
  dict_get_value (dict_set_value false true [mk_dict_entry "a" ["1"]] "a" "2").2 "a" = None.
Proof.
  assert (dict_ok [mk_dict_entry "a" ["1"]]) as H.
  { apply (bool_decide_unpack _). vm_compute. reflexivity. }
  split; [reflexivity|].
  exact (proj1 (proj2 (dict_set_value_oom _ "a" "2" true H))).
Defined.

(** ** Scripts *)

(** The two commands a script line can hold, and its text. *)
Inductive script_cmd :=
  | CmdSet (k v : string)
  | CmdUnset (k : string).

Definition print_cmd (c : script_cmd) : string :=
  match c with
  | CmdSet k v => k +:+ String " " v
  | CmdUnset k => k
  end.

Definition cmd_ok (c : script_cmd) : bool :=
  match c with
  | CmdSet k v => is_token BLANKS k && is_token TAB_NL v
  | CmdUnset k => is_token BLANKS k
  end.

Definition run_cmd (m : gmap string (list string)) (c : script_cmd) : gmap string (list string) :=
  match c with
  | CmdSet k v => map_set k v m
  | CmdUnset k => delete k m
  end.

Definition mem_ok (n : nat) : bool * bool := (true, true).

Lemma parse_script_line_cmd d c :
  dict_ok d -> cmd_ok c = true ->
  let '(ret, d') := parse_script_line (true, true) d (print_cmd c +:+ String nl "") in
  ret = 0 /\ dict_ok d' /\ dict_abs d' = run_cmd (dict_abs d) c.
Proof.
  intros H Hc. unfold parse_script_line. destruct c as [k v|k]; cbn [print_cmd cmd_ok] in *.
  - apply andb_true_iff in Hc as [Hk Hv].
    rewrite str_app_assoc, str_app_cons, strtok_r_token, strtok_r_token by done.
    cbn [fst snd]. pose proof (dict_set_value_ok true true d k v H).
    pose proof (dict_set_value_abs d k v H). rewrite dict_set_value_unfold in *. done.
  - rewrite strtok_r_token by done. cbn.
    split_and!; [done|by apply dict_remove_ok|by apply dict_remove_abs].
Qed.

Lemma print_cmd_line c : cmd_ok c = true -> str_mem nl (print_cmd c) = false.
Proof.
  destruct c as [k v|k]; cbn [cmd_ok print_cmd].
  - intros [H1 H2]%andb_true_iff. rewrite str_mem_app. cbn [str_mem].
    by rewrite (token_no_nl BLANKS k), (token_no_nl TAB_NL v).
  - by apply token_no_nl.
Qed.

Lemma parse_script_run d cmds :
  dict_ok d -> forallb cmd_ok cmds = true ->
  let '(ret, d') := dict_parse_script mem_ok d (Some (unlines (print_cmd <$> cmds))) in
  ret = 0 /\ dict_ok d' /\ dict_abs d' = fold_left run_cmd cmds (dict_abs d).
Proof.
  intros Hd Hc. unfold dict_parse_script. rewrite getlines_unlines.
  - generalize 0%nat. revert d Hd Hc.
    induction cmds as [|c cmds IH]; intros d Hd Hc n; [done|].
    cbn [forallb] in Hc. apply andb_true_iff in Hc as [Hc Hcs].
    cbn [fmap list_fmap parse_script_lines fold_left]. unfold mem_ok at 1.
    pose proof (parse_script_line_cmd d c Hd Hc) as E.
    destruct (parse_script_line _ _ _) as [ret d1]. destruct E as (-> & Hd1 & E1).
    cbn [Z.eqb]. rewrite <- E1. by apply IH.
  - apply Forall_fmap, Forall_forall. intros c Hin. apply print_cmd_line.
    rewrite forallb_forall in Hc. by apply Hc, list_elem_of_In.
Qed.

(** A script of "key value" and "key" lines is executed exactly: the
    dictionary afterwards is the result of setting, respectively removing, the
    keys in the order of the lines, values keeping their inner blanks. *)
Theorem dict_parse_script_cmds (d : dict) (cmds : list script_cmd) :
  dict_ok d -> forallb cmd_ok cmds = true ->
  let '(ret, d') := dict_parse_script mem_ok d (Some (unlines (print_cmd <$> cmds))) in
  ret = 0 /\ dict_ok d' /\ dict_abs d' = fold_left run_cmd cmds (dict_abs d).
Proof. apply parse_script_run. Qed.

Lemma dict_parse_script_cmds_witness :
  let '(ret, d) := dict_parse_script mem_ok [mk_dict_entry "a" ["1"]]
    (Some (unlines (print_cmd <$> [CmdSet "b" "x y"; CmdUnset "a"]))) in
  ret = 0 /\ dict_ok d /\ dict_abs d = {["b" := ["x y"]]}.
Proof.
  refine (dict_parse_script_cmds [mk_dict_entry "a" ["1"]] [CmdSet "b" "x y"; CmdUnset "a"] _ _).
  - apply (bool_decide_unpack _). vm_compute. reflexivity.
  - reflexivity.
Defined.
