(* ===== verification/Handler.v ===== *)
(** * The registry of handlers: [core/handler.c]

    The handlers that install the artifacts are kept in a table of 64 slots, the
    first [nr_installers] of which are in use. A handler registered from a Lua
    script of the SWU is a session handler, to be removed after the update. *)
From S2P Require Import Prelude CString.

Section Registry.
(** The C function of a handler; its private data is an opaque pointer. *)
Context {H : Type}.

Record installer_handler := mk_handler {
  desc : string;
  installer : H;
  data : Z;
  mask : Z;
  noglobal : bool;
}.

Record registry := mk_registry {
  supported_types : list installer_handler;
  nr_installers : nat;
  handler_index : Z;
}.

Inductive handler_type_t := GLOBAL_HANDLER | SESSION_HANDLER.

Definition MAX_INSTALLER_HANDLER : nat := 64.
Definition DESC_SIZE : Z := 64.

(** The [HANDLER_MASK] values. *)
Definition IMAGE_HANDLER : Z := 1.
Definition FILE_HANDLER : Z := 2.
Definition SCRIPT_HANDLER : Z := 4.
Definition BOOTLOADER_HANDLER : Z := 8.
Definition PARTITION_HANDLER : Z := 16.
Definition NO_DATA_HANDLER : Z := 32.

Definition same_desc (d : string) (h : installer_handler) : bool :=
  (strlen d =? strlen (desc h)) && (strcmp d (desc h) =? 0).

(** The search loops: the index where the loop stops, [nr_installers] if none. *)
Fixpoint search (d : string) (i n : nat) (table : list installer_handler) : nat :=
  match n, table with
  | S n, h :: table => if same_desc d h then i else search d (S i) n table
  | _, _ => i
  end.

Definition search_desc (r : registry) (d : string) : nat :=
  search d 0 (nr_installers r) (supported_types r).

Definition lifetime_noglobal (lifetime : handler_type_t) : bool :=
  match lifetime with SESSION_HANDLER => true | GLOBAL_HANDLER => false end.

(** [__register_handler]; a NULL [desc] is [None]. *)
Definition register_handler_ (d : option string) (installer : H) (mask data : Z)
    (lifetime : handler_type_t) (r : registry) : Z * registry :=
  match d with
  | None => (-1, r)
  | Some d =>
      if (MAX_INSTALLER_HANDLER - 1 <? nr_installers r)%nat then (-1, r)
      else if (search_desc r d <? nr_installers r)%nat then (-1, r)
      else
        (0, mk_registry
              (<[nr_installers r := mk_handler (strlcpy d DESC_SIZE) installer data mask
                   (lifetime_noglobal lifetime)]> (supported_types r))
              (S (nr_installers r)) (handler_index r))
  end.

Definition register_handler (d : option string) (installer : H) (mask data : Z) (r : registry) :=
  register_handler_ d installer mask data GLOBAL_HANDLER r.

Definition register_session_handler (d : option string) (installer : H) (mask data : Z)
    (r : registry) :=
  register_handler_ d installer mask data SESSION_HANDLER r.

(** [supported_types[j - 1] = supported_types[j]] field by field, as in
    [unregister_handler]: [noglobal] is not among the fields copied. *)
Definition copy_down (prev cur : installer_handler) : installer_handler :=
  mk_handler (strlcpy (desc cur) DESC_SIZE) (installer cur) (data cur) (mask cur) (noglobal prev).

(** The compaction loop, from slot [j] for [n] slots. *)
Fixpoint compact (table : list installer_handler) (j n : nat) : list installer_handler :=
  match n with
  | O => table
  | S n =>
      match table !! pred j, table !! j with
      | Some prev, Some cur => compact (<[pred j := copy_down prev cur]> table) (S j) n
      | _, _ => table
      end
  end.

Definition unregister_handler (d : string) (r : registry) : Z * registry :=
  let i := search_desc r d in
  if (i =? nr_installers r)%nat then (-1, r)
  else
    (0, mk_registry (compact (supported_types r) (S i) (nr_installers r - S i))
          (pred (nr_installers r)) (handler_index r)).

(** [for (i = nr_installers - 1; i >= 0; i--)]: [n] slots are left to visit. *)
Fixpoint unregister_session_loop (n : nat) (r : registry) : registry :=
  match n with
  | O => r
  | S i =>
      let r := match supported_types r !! i with
               | Some h => if noglobal h then (unregister_handler (desc h) r).2 else r
               | None => r
               end in
      unregister_session_loop i r
  end.

Definition unregister_session_handlers (r : registry) : registry :=
  unregister_session_loop (nr_installers r) r.

(** The lines that [print_registered_handlers] prints after its title. *)
Definition print_registered_handlers (global : bool) (r : registry) : list string :=
  if (nr_installers r =? 0)%nat then []
  else
    let l := desc <$> filter (fun h => noglobal h = negb global)
               (take (nr_installers r) (supported_types r)) in
    match l with [] => ["none registered."] | _ => l end.

(** [find_handler] looks at [img->type] only. *)
Definition find_handler (img_type : string) (r : registry) : option installer_handler :=
  let i := search_desc r img_type in
  if (nr_installers r <=? i)%nat then None else supported_types r !! i.

Definition get_next_handler (r : registry) : option installer_handler * registry :=
  let index := if handler_index r =? ULONG_MAX then 0 else handler_index r in
  if index >=? Z.of_nat (nr_installers r) then
    (None, mk_registry (supported_types r) (nr_installers r) ULONG_MAX)
  else
    (supported_types r !! Z.to_nat index,
     mk_registry (supported_types r) (nr_installers r) (u64 (index + 1))).

Definition get_handler_mask (img_type : string) (r : registry) : Z :=
  match find_handler img_type r with
  | Some h => mask h
  | None => 0
  end.

(** * Properties *)

(** The handlers in use. *)
Definition live (r : registry) : list installer_handler :=
  take (nr_installers r) (supported_types r).

(** The invariant of the table: the slots in use are within it, and their names
    are distinct and fit their buffer. *)
Record registry_ok (r : registry) : Prop := {
  table_size : length (supported_types r) = MAX_INSTALLER_HANDLER;
  nr_bound : (nr_installers r <= MAX_INSTALLER_HANDLER)%nat;
  desc_distinct : NoDup (desc <$> live r);
  desc_fits : Forall (fun h => strlen (desc h) < DESC_SIZE) (live r);
}.

(** The first handler with that name. *)
Fixpoint lookup_desc (d : string) (l : list installer_handler) : option installer_handler :=
  match l with
  | [] => None
  | h :: l => if decide (desc h = d) then Some h else lookup_desc d l
  end.

Lemma same_desc_spec d h : same_desc d h = bool_decide (desc h = d).
Proof.
  unfold same_desc. case_bool_decide as E.
  - subst. rewrite Z.eqb_refl. unfold strcmp. by rewrite cmp_refl.
  - apply andb_false_iff. right. apply Z.eqb_neq. intros C. by apply strcmp_zero in C.
Qed.

Lemma search_spec d i n table :
  (n <= length table)%nat ->
  (search d i n table = (i + n)%nat /\ d ∉ desc <$> take n table) \/
  (exists k h, search d i n table = (i + k)%nat /\ (k < n)%nat /\ table !! k = Some h /\ desc h = d).
Proof.
  revert i n. induction table as [|h table IH]; intros i n Hn; destruct n as [|n];
    cbn [search take fmap list_fmap length] in *; try lia.
  - left. split; [lia|]. apply not_elem_of_nil.
  - left. split; [lia|]. apply not_elem_of_nil.
  - rewrite same_desc_spec. case_bool_decide as E.
    + right. exists 0%nat, h. repeat split; [lia|lia|done].
    + destruct (IH (S i) n ltac:(lia)) as [[-> Hni]|(k & h' & -> & Hk & Hl & Hd)].
      * left. split; [lia|]. rewrite not_elem_of_cons. by split.
      * right. exists (S k), h'. repeat split; [lia|lia|done|done].
Qed.

Lemma live_length r : registry_ok r -> length (live r) = nr_installers r.
Proof. intros [H1 H2 _ _]. unfold live. rewrite length_take. lia. Qed.

Lemma live_lookup r i : (i < nr_installers r)%nat -> live r !! i = supported_types r !! i.
Proof. intros Hi. unfold live. by rewrite lookup_take_lt. Qed.

Lemma compact_lookup table j n k :
  (0 < j)%nat -> (j + n <= length table)%nat ->
  compact table j n !! k =
  if decide (pred j <= k < pred j + n)%nat
  then prev ← table !! k; cur ← table !! S k; Some (copy_down prev cur)
  else table !! k.
Proof.
  revert table j. induction n as [|n IH]; intros table j Hj Hlen; cbn [compact].
  - rewrite decide_False by lia. done.
  - destruct (lookup_lt_is_Some_2 table (pred j)) as [prev Hp]; [lia|].
    destruct (lookup_lt_is_Some_2 table j) as [cur Hc]; [lia|].
    rewrite Hp, Hc, IH by (rewrite ?length_insert; lia). cbn [pred].
    destruct (decide (k = pred j)) as [->|Hk].
    + rewrite decide_False by lia. rewrite decide_True by lia.
      rewrite list_lookup_insert_eq by lia. rewrite Hp.
      replace (S (pred j)) with j by lia. by rewrite Hc.
    + destruct (decide (j <= k < j + n)%nat).
      * rewrite (decide_True (P := (pred j <= k < pred j + S n)%nat)) by lia.
        by rewrite !list_lookup_insert_ne by lia.
      * rewrite (decide_False (P := (pred j <= k < pred j + S n)%nat)) by lia.
        by rewrite list_lookup_insert_ne by lia.
Qed.

(** The handlers of [l] with the flags of their positions. *)
Definition retag (l : list installer_handler) (flags : list bool) : list installer_handler :=
  zip_with (fun h f => mk_handler (desc h) (installer h) (data h) (mask h) f) l flags.

Lemma copy_down_fits prev cur :
  strlen (desc cur) < DESC_SIZE ->
  copy_down prev cur = mk_handler (desc cur) (installer cur) (data cur) (mask cur) (noglobal prev).
Proof. intros Hs. unfold copy_down. by rewrite strlcpy_fits. Qed.

(** The slots after removing slot [i]: the handlers move, the flags stay. *)
Lemma compact_live r i :
  registry_ok r -> (i < nr_installers r)%nat ->
  take (pred (nr_installers r)) (compact (supported_types r) (S i) (nr_installers r - S i)) =
  retag (delete i (live r)) (noglobal <$> live r).
Proof.
  intros Hr Hi. pose proof (live_length r Hr) as Hlen. destruct Hr as [Hsz Hnr _ Hfit].
  apply list_eq. intros k. unfold retag. rewrite lookup_zip_with, list_lookup_fmap.
  destruct (decide (k < pred (nr_installers r))%nat) as [Hk|Hk].
  - rewrite lookup_take_lt, compact_lookup by lia. cbn [pred].
    rewrite (live_lookup r k) by lia.
    destruct (lookup_lt_is_Some_2 (supported_types r) k) as [hk Hhk]; [lia|].
    destruct (lookup_lt_is_Some_2 (supported_types r) (S k)) as [hs Hhs]; [lia|].
    assert (strlen (desc hs) < DESC_SIZE) as Hfs.
    { eapply (Forall_lookup_1 _ _ (S k) _ Hfit). rewrite live_lookup by lia. done. }
    destruct (decide (i <= k)%nat).
    + rewrite decide_True, list_lookup_delete_ge by lia. rewrite (live_lookup r (S k)) by lia.
      rewrite Hhk, Hhs. cbn. by rewrite copy_down_fits.
    + rewrite decide_False, list_lookup_delete_lt, live_lookup by lia. rewrite Hhk. cbn.
      by destruct hk.
  - rewrite lookup_take_ge by lia. rewrite (lookup_ge_None_2 (delete i (live r))); [done|].
    rewrite length_delete by (apply lookup_lt_is_Some; lia). lia.
Qed.

Lemma search_desc_spec r d :
  registry_ok r ->
  (search_desc r d = nr_installers r /\ d ∉ desc <$> live r) \/
  (exists h, (search_desc r d < nr_installers r)%nat /\
     live r !! search_desc r d = Some h /\ desc h = d).
Proof.
  intros Hr. destruct (search_spec d 0 (nr_installers r) (supported_types r)) as [[E1 E2]|(k & h & E & Hk & Hl & Hd)].
  - destruct Hr as [-> ? _ _]. done.
  - by left.
  - right. exists h. unfold search_desc. rewrite E. cbn. by rewrite live_lookup.
Qed.

Lemma lookup_desc_None d l : lookup_desc d l = None <-> d ∉ desc <$> l.
Proof.
  induction l as [|h l IH]; cbn [lookup_desc fmap list_fmap].
  - split; [|done]. intros _. apply not_elem_of_nil.
  - rewrite not_elem_of_cons. case_decide as E.
    + split; [done|]. by intros [? _].
    + rewrite IH. split; [by split|by intros [_ ?]].
Qed.

Lemma lookup_desc_Some l i h :
  NoDup (desc <$> l) -> l !! i = Some h -> lookup_desc (desc h) l = Some h.
Proof.
  revert i. induction l as [|x l IH]; intros i; cbn [fmap list_fmap lookup_desc]; [done|].
  rewrite NoDup_cons. intros [Hx Hl] Hi. destruct i as [|i]; cbn in Hi.
  - injection Hi as ->. by rewrite decide_True.
  - rewrite decide_False; [by eapply IH|]. intros E. apply Hx. rewrite E.
    apply list_elem_of_fmap. exists h. split; [done|]. by eapply list_elem_of_lookup_2.
Qed.

Lemma find_handler_live d r : registry_ok r -> find_handler d r = lookup_desc d (live r).
Proof.
  intros Hr. unfold find_handler.
  destruct (search_desc_spec r d Hr) as [[-> Hni]|(h & Hk & Hl & <-)].
  - rewrite Nat.leb_refl. symmetry. by apply lookup_desc_None.
  - destruct (Nat.leb_spec (nr_installers r) (search_desc r (desc h))); [lia|].
    rewrite <- live_lookup by done. rewrite Hl. symmetry.
    eapply lookup_desc_Some; [apply Hr|done].
Qed.

(** Everything about a handler but its lifetime. *)
Definition entry_of (h : installer_handler) : string * H * Z * Z :=
  (desc h, installer h, data h, mask h).

Lemma retag_entries l flags :
  (length l <= length flags)%nat -> entry_of <$> retag l flags = entry_of <$> l.
Proof.
  revert flags. induction l as [|h l IH]; intros [|f flags] Hlen; simpl in *; try done; [lia|].
  f_equal. apply IH. lia.
Qed.

Lemma entries_desc (l : list installer_handler) : desc <$> l = (fun e => e.1.1.1) <$> (entry_of <$> l).
Proof. rewrite <- list_fmap_compose. by apply list_fmap_ext. Qed.

Lemma lookup_entries d l l' :
  entry_of <$> l = entry_of <$> l' -> entry_of <$> lookup_desc d l = entry_of <$> lookup_desc d l'.
Proof.
  revert l'. induction l as [|h l IH]; intros [|h' l'] E; try done.
  cbn [fmap list_fmap] in E. apply cons_eq_inj in E as [E1 E2]. cbn [lookup_desc].
  assert (desc h = desc h') as <- by (unfold entry_of in E1; congruence).
  case_decide; [cbn; by rewrite E1|]. by apply IH.
Qed.

Lemma lookup_desc_delete l i h d :
  NoDup (desc <$> l) -> l !! i = Some h ->
  lookup_desc d (delete i l) = if decide (desc h = d) then None else lookup_desc d l.
Proof.
  revert i. induction l as [|x l IH]; intros i; [done|]. cbn [fmap list_fmap lookup_desc].
  rewrite NoDup_cons. intros [Hx Hl] Hi. destruct i as [|i]; simpl in Hi.
  - injection Hi as ->. cbn. case_decide as E; [|done]. subst. by apply lookup_desc_None.
  - change (delete (S i) (x :: l)) with (x :: delete i l). cbn [lookup_desc].
    rewrite (IH i) by done. destruct (decide (desc x = d)) as [Ex|Ex]; [|done].
    rewrite decide_False; [done|]. intros E. apply Hx. rewrite Ex, <- E.
    apply list_elem_of_fmap. exists h. split; [done|]. by eapply list_elem_of_lookup_2.
Qed.

Lemma Forall_desc_entries (P : string -> Prop) l l' :
  entry_of <$> l = entry_of <$> l' ->
  Forall (fun h => P (desc h)) l -> Forall (fun h => P (desc h)) l'.
Proof.
  intros E. pose proof (entries_desc l) as E1. rewrite E, <- entries_desc in E1.
  intros F. apply (Forall_fmap desc P l'). rewrite <- E1. by apply Forall_fmap.
Qed.

Lemma unregister_spec d r :
  registry_ok r ->
  (unregister_handler d r = (-1, r) /\ d ∉ desc <$> live r) \/
  (exists r' i h, unregister_handler d r = (0, r') /\ live r !! i = Some h /\ desc h = d /\
     live r' = retag (delete i (live r)) (noglobal <$> live r) /\
     nr_installers r = S (nr_installers r') /\
     length (supported_types r') = MAX_INSTALLER_HANDLER).
Proof.
  intros Hr. unfold unregister_handler.
  destruct (search_desc_spec r d Hr) as [[-> Hni]|(h & Hk & Hl & Hd)].
  - left. by rewrite Nat.eqb_refl.
  - right. destruct (Nat.eqb_spec (search_desc r d) (nr_installers r)); [lia|].
    eexists _, _, h. split; [reflexivity|]. split_and!; [done|done| | |].
    + unfold live at 1. cbn [nr_installers supported_types]. by apply compact_live.
    + cbn. lia.
    + cbn. destruct Hr as [Hsz Hnr _ _].
      assert (forall n t j, (0 < j)%nat -> (j + n <= length t)%nat -> length (compact t j n) = length t) as L.
      { clear. induction n as [|n IH]; intros t j Hj Hn; [done|]. cbn [compact].
        destruct (lookup_lt_is_Some_2 t (pred j)) as [a ->]; [lia|].
        destruct (lookup_lt_is_Some_2 t j) as [b ->]; [lia|].
        rewrite IH; rewrite ?length_insert; lia. }
      rewrite L; lia.
Qed.

Lemma retag_delete_entries l i (h : installer_handler) :
  l !! i = Some h ->
  entry_of <$> retag (delete i l) (noglobal <$> l) = entry_of <$> delete i l.
Proof.
  intros Hi. apply retag_entries. rewrite length_fmap, length_delete by eauto. lia.
Qed.

Lemma desc_delete i (l : list installer_handler) : desc <$> delete i l = delete i (desc <$> l).
Proof. revert i. induction l as [|e l IH]; intros [|i]; cbn; f_equal; auto. Qed.

Lemma unregister_ok d r : registry_ok r -> registry_ok (unregister_handler d r).2.
Proof.
  intros Hr. destruct (unregister_spec d r Hr) as [[-> _]|(r' & i & h & -> & Hi & Hd & Hlive & Hnr & Hsz)];
    [done|]. cbn [snd].
  pose proof (retag_delete_entries _ _ _ Hi) as E. rewrite <- Hlive in E.
  destruct Hr as [Hsz0 Hnr0 Hdist Hfit]. split; [done|lia| |].
  - rewrite entries_desc, E, <- entries_desc, desc_delete.
    eapply sublist_NoDup; [exact Hdist|apply sublist_delete].
  - eapply (Forall_desc_entries (fun d => strlen d < DESC_SIZE)); [symmetry; exact E|].
    by apply Forall_delete.
Qed.

(** [unregister_handler] takes out the named handler, and only that one: the
    call fails and changes nothing if there is none, afterwards the name is not
    found, and every other handler is found with its function, data and mask. *)
Theorem unregister_handler_spec (d : string) (r : registry) :
  registry_ok r ->
  let '(ret, r') := unregister_handler d r in
  registry_ok r' /\
  (ret = 0 <-> find_handler d r <> None) /\ (ret <> 0 -> ret = -1 /\ r' = r) /\
  find_handler d r' = None /\
  forall d', d' <> d -> entry_of <$> find_handler d' r' = entry_of <$> find_handler d' r.
Proof.
  intros Hr. pose proof (unregister_ok d r Hr) as Hr'.
  destruct (unregister_spec d r Hr) as [[E Hni]|(r' & i & h & E & Hi & Hd & Hlive & _)];
    rewrite E in *; cbn [snd] in Hr'.
  - rewrite !find_handler_live, (proj2 (lookup_desc_None d (live r)) Hni) by done.
    split_and!; try done.
  - assert (forall d', entry_of <$> find_handler d' r' =
      if decide (d = d') then None else entry_of <$> find_handler d' r) as F.
    { intros d'. rewrite !find_handler_live, Hlive by done.
      rewrite (lookup_entries d' _ _ (retag_delete_entries _ _ _ Hi)).
      rewrite (lookup_desc_delete _ _ h) by (apply Hr || done). rewrite Hd. by case_decide. }
    split_and!; [done| |done| |].
    + split; [|done]. intros _. rewrite find_handler_live, <- Hd by done.
      by erewrite lookup_desc_Some by (apply Hr || done).
    + specialize (F d). rewrite decide_True in F by done. by apply fmap_None in F.
    + intros d' Hne. rewrite F, decide_False by done. done.
Qed.

Lemma register_spec d inst m dt life r :
  registry_ok r -> strlen d < DESC_SIZE ->
  (nr_installers r < MAX_INSTALLER_HANDLER)%nat -> d ∉ desc <$> live r ->
  exists r', register_handler_ (Some d) inst m dt life r = (0, r') /\ registry_ok r' /\
    live r' = live r ++ [mk_handler d inst dt m (lifetime_noglobal life)].
Proof.
  intros Hr Hd Hn Hni. unfold register_handler_.
  destruct (Nat.ltb_spec (MAX_INSTALLER_HANDLER - 1) (nr_installers r)); [lia|].
  destruct (search_desc_spec r d Hr) as [[-> _]|(h & Hk & Hl & Hdh)].
  2: { exfalso. apply Hni. apply list_elem_of_fmap. exists h. split; [done|].
       by eapply list_elem_of_lookup_2. }
  rewrite Nat.ltb_irrefl, strlcpy_fits by done. eexists. split; [reflexivity|].
  destruct Hr as [Hsz Hnr Hdist Hfit].
  match goal with |- registry_ok ?r' /\ _ => assert (live r' = live r ++
    [mk_handler d inst dt m (lifetime_noglobal life)]) as E end.
  { unfold live. cbn [nr_installers supported_types].
    rewrite (take_S_r _ _ (mk_handler d inst dt m (lifetime_noglobal life)))
      by (by rewrite list_lookup_insert_eq by lia).
    by rewrite take_insert_ge by lia. }
  split; [|exact E]. split; rewrite ?E; cbn [supported_types nr_installers].
  - by rewrite length_insert.
  - lia.
  - rewrite fmap_app. apply NoDup_app. split_and!; [done| |apply NoDup_singleton].
    intros x Hx ->%list_elem_of_singleton. by apply Hni.
  - apply Forall_app. split; [done|]. by apply Forall_singleton.
Qed.

Lemma lookup_desc_app d l1 l2 :
  lookup_desc d (l1 ++ l2) =
  match lookup_desc d l1 with Some h => Some h | None => lookup_desc d l2 end.
Proof. induction l1 as [|h l1 IH]; [done|]. cbn. by case_decide. Qed.

(** A name that fits its buffer can be registered while the table has room
    and no handler has it; the call fails without effect otherwise. Afterwards
    the handler is found with its function, data, mask and lifetime and the other
    handlers are found as before. *)
Theorem register_handler_spec (d : string) (inst : H) (m dt : Z) (life : handler_type_t)
    (r : registry) :
  registry_ok r -> strlen d < DESC_SIZE ->
  let '(ret, r') := register_handler_ (Some d) inst m dt life r in
  registry_ok r' /\
  (ret = 0 <-> (nr_installers r < MAX_INSTALLER_HANDLER)%nat /\ find_handler d r = None) /\
  (ret <> 0 -> ret = -1 /\ r' = r) /\
  (ret = 0 -> find_handler d r' = Some (mk_handler d inst dt m (lifetime_noglobal life)) /\
     forall d', d' <> d -> find_handler d' r' = find_handler d' r).
Proof.
  intros Hr Hd.
  destruct (decide (nr_installers r < MAX_INSTALLER_HANDLER)%nat) as [Hn|Hn].
  2: { unfold register_handler_. destruct (Nat.ltb_spec (MAX_INSTALLER_HANDLER - 1) (nr_installers r)); [|unfold MAX_INSTALLER_HANDLER in *; lia].
       split_and!; try done. split; [done|]. tauto. }
  assert (find_handler d r = None <-> d ∉ desc <$> live r) as Hf
    by (by rewrite find_handler_live, lookup_desc_None).
  destruct (decide (d ∈ desc <$> live r)) as [Hin|Hin].
  - unfold register_handler_.
    destruct (Nat.ltb_spec (MAX_INSTALLER_HANDLER - 1) (nr_installers r)); [lia|].
    destruct (search_desc_spec r d Hr) as [[_ ?]|(h & Hk & _)]; [done|].
    apply Nat.ltb_lt in Hk as ->. rewrite Hf. split_and!; try done. split; [done|]. tauto.
  - destruct (register_spec d inst m dt life r Hr Hd Hn Hin) as (r' & -> & Hr' & Hlive).
    rewrite Hf. split_and!; try done. intros _.
    rewrite (find_handler_live _ r'), Hlive, lookup_desc_app by done.
    rewrite (proj2 (lookup_desc_None d (live r)) Hin). cbn. rewrite decide_True by done.
    split; [done|]. intros d' Hne. rewrite !find_handler_live, Hlive, lookup_desc_app by done.
    cbn. rewrite decide_False by done. by destruct (lookup_desc d' (live r)).
Qed.

Lemma retag_self (l : list installer_handler) flags : retag l ((noglobal <$> l) ++ flags) = l.
Proof. induction l as [|h l IH]; [done|]. cbn. f_equal; [by destruct h|]. apply IH. Qed.

Lemma delete_last {A} (l : list A) x : delete (length l) (l ++ [x]) = l.
Proof. induction l as [|y l IH]; [done|]. cbn. f_equal. apply IH. Qed.

Lemma unregister_last r l h :
  registry_ok r -> live r = l ++ [h] -> live (unregister_handler (desc h) r).2 = l.
Proof.
  intros Hr Hl. destruct (unregister_spec (desc h) r Hr) as [[_ Hni]|(r' & i & h' & -> & Hi & Hd & Hlive & _)].
  - exfalso. apply Hni. rewrite Hl, fmap_app. apply elem_of_app. right. by apply list_elem_of_singleton.
  - cbn [snd]. assert (i = length l) as ->.
    { apply (NoDup_lookup (desc <$> live r) i (length l) (desc h)); [apply Hr| |].
      - rewrite list_lookup_fmap, Hi. cbn. by rewrite Hd.
      - rewrite list_lookup_fmap, Hl, lookup_app_r, Nat.sub_diag by lia. done. }
    rewrite Hlive, Hl, delete_last, fmap_app. apply retag_self.
Qed.

(** When the session handlers were registered after the global ones, as the
    parser does, [unregister_session_handlers] removes all of them and leaves
    the global handlers as they are. *)
Theorem unregister_session_handlers_spec (r : registry) (globals sessions : list installer_handler) :
  registry_ok r -> live r = globals ++ sessions ->
  Forall (fun h => noglobal h = false) globals ->
  Forall (fun h => noglobal h = true) sessions ->
  live (unregister_session_handlers r) = globals /\ registry_ok (unregister_session_handlers r).
Proof.
  unfold unregister_session_handlers. intros Hr Hl Hg Hs.
  assert (forall n r, registry_ok r -> live r = globals -> (n <= length globals)%nat ->
    unregister_session_loop n r = r) as G.
  { clear -Hg. induction n as [|n IH]; intros r Hr Hl Hn; [done|].
    cbn [unregister_session_loop]. pose proof (live_length r Hr) as Hlen.
    rewrite <- live_lookup, Hl by (rewrite <- Hlen, Hl; lia).
    destruct (lookup_lt_is_Some_2 globals n) as [h Hh]; [lia|]. rewrite Hh.
    assert (noglobal h = false) as -> by exact (Forall_lookup_1 _ _ _ _ Hg Hh). apply IH; [done|done|lia]. }
  revert r Hr Hl. induction sessions as [|h sessions IH] using rev_ind; intros r Hr Hl.
  - rewrite app_nil_r in Hl. by rewrite G by (try done; rewrite <- Hl, live_length; done).
  - apply Forall_app in Hs as [Hs Hh]. rewrite Forall_singleton in Hh.
    pose proof (live_length r Hr) as Hlen. rewrite app_assoc in Hl.
    rewrite Hl, length_app in Hlen. cbn [length] in Hlen. rewrite Nat.add_1_r in Hlen. rewrite <- Hlen.
    cbn [unregister_session_loop]. rewrite <- live_lookup by lia.
    rewrite Hl, lookup_app_r, Nat.sub_diag by lia. cbn [lookup list_lookup].
    rewrite Hh.
    pose proof (unregister_last r _ h Hr Hl) as Hl'.
    pose proof (unregister_ok (desc h) r Hr) as Hr'.
    specialize (IH Hs _ Hr' Hl'). rewrite <- (live_length _ Hr'), Hl' in IH. exact IH.
Qed.
End Registry.

Arguments installer_handler : clear implicits.
Arguments registry : clear implicits.

(** The zeroed table of a process that has registered nothing. *)
Definition empty_registry : registry unit :=
  mk_registry (replicate MAX_INSTALLER_HANDLER (mk_handler "" tt 0 0 false)) 0 ULONG_MAX.

Definition raw_registry : registry unit :=
  (register_handler (Some "raw") tt IMAGE_HANDLER 0 empty_registry).2.

Lemma empty_registry_ok : registry_ok empty_registry.
Proof. split; [done|cbn; unfold MAX_INSTALLER_HANDLER; lia|constructor|constructor]. Qed.

Lemma raw_registry_ok : registry_ok raw_registry.
Proof.
  split; [done|cbn; unfold MAX_INSTALLER_HANDLER; lia| |].
  - apply NoDup_singleton.
  - apply Forall_singleton. vm_compute. reflexivity.
Qed.

Lemma register_handler_spec_witness :
  find_handler "raw" (register_handler (Some "raw") tt IMAGE_HANDLER 0 empty_registry).2 =
  Some (mk_handler "raw" tt 0 IMAGE_HANDLER false).
Proof.
  exact (proj1 (proj2 (proj2 (proj2 (register_handler_spec "raw" tt IMAGE_HANDLER 0 GLOBAL_HANDLER
    empty_registry empty_registry_ok eq_refl))) eq_refl)).
Defined.

Lemma unregister_handler_spec_witness :
  find_handler "raw" (unregister_handler "raw" raw_registry).2 = None.
Proof.
  exact (proj1 (proj2 (proj2 (proj2 (unregister_handler_spec "raw" raw_registry raw_registry_ok))))).
Defined.

Lemma unregister_session_handlers_spec_witness :
  live (unregister_session_handlers raw_registry) = [mk_handler "raw" tt 0 IMAGE_HANDLER false].
Proof.
  refine (proj1 (unregister_session_handlers_spec raw_registry
    [mk_handler "raw" tt 0 IMAGE_HANDLER false] [] raw_registry_ok eq_refl _ _)).
  - by apply Forall_singleton.
  - constructor.
Defined.

(** A session handler registered before a global one. *)
Definition mixed_registry : registry unit :=
  (register_handler (Some "global") tt IMAGE_HANDLER 0
    (register_session_handler (Some "session") tt IMAGE_HANDLER 0 empty_registry).2).2.

(** The compaction leaves the lifetime flags where they were, so a global
    handler registered after a session handler becomes a session handler when
    the latter is removed: the next clean up removes the global handler. *)
Theorem global_handler_lost :
  let r1 := unregister_session_handlers mixed_registry in
  let r2 := unregister_session_handlers r1 in
  noglobal <$> find_handler "global" mixed_registry = Some false /\
  noglobal <$> find_handler "global" r1 = Some true /\
  find_handler "global" r2 = None.
Proof. vm_compute. done. Qed.

Definition long_name (c : ascii) : string :=
  String.concat "" (replicate 63 "h") +:+ String c "".

(** Two names that differ only after their first 63 characters are both
    registered, under the same truncated name. *)
Theorem long_names_registered_twice :
  let r := (register_handler (Some (long_name "a")) tt IMAGE_HANDLER 0 empty_registry).2 in
  let '(ret, r') := register_handler (Some (long_name "b")) tt IMAGE_HANDLER 0 r in
  ret = 0 /\ exists d, desc <$> live r' = [d; d].
Proof. split; [reflexivity|]. eexists. vm_compute. reflexivity. Qed.
