(* ===== verification/Bootloader.v ===== *)
(** * The bootloader environment: [core/bootloader.c], [bootloader/none.c] and
    [bootloader/uboot.c]

    SWUpdate reads and writes the environment of the bootloader through a table of
    four functions, [struct bootloader]. [EnvStore] is what the rest of the
    program relies on; the back ends are its instances. *)
From stdpp Require Import gmap.
From S2P Require Import Prelude CString Dict.

(** The functions work on a storage of type [E]; the file given to [apply_list]
    is its content, [None] if it cannot be opened. *)
Record bootloader (E : Type) := mk_bootloader {
  env_set : string -> string -> E -> Z * E;
  env_unset : string -> E -> Z * E;
  env_get : string -> E -> option string;
  apply_list : option string -> E -> Z * E;
}.
Arguments mk_bootloader {E}.
Arguments env_set {E}.
Arguments env_unset {E}.
Arguments env_get {E}.
Arguments apply_list {E}.

(** What a back end promises for the names and values it supports: a successful
    [env_set] or [env_unset] changes the one variable, a failed one nothing. *)
Class EnvStore {E : Type} (bl : bootloader E) := {
  env_ok : E -> Prop;
  env_name_ok : string -> bool;
  env_value_ok : string -> bool;
  env_set_get : forall n v e e',
    env_ok e -> env_name_ok n = true -> env_value_ok v = true ->
    env_set bl n v e = (0, e') ->
    env_ok e' /\ forall m, env_get bl m e' = if decide (m = n) then Some v else env_get bl m e;
  env_unset_get : forall n e e',
    env_ok e -> env_unset bl n e = (0, e') ->
    env_ok e' /\ forall m, env_get bl m e' = if decide (m = n) then None else env_get bl m e;
  env_set_fails : forall n v e ret e',
    env_ok e -> env_set bl n v e = (ret, e') -> ret <> 0 -> e' = e;
  env_unset_fails : forall n e ret e',
    env_ok e -> env_unset bl n e = (ret, e') -> ret <> 0 -> e' = e;
}.

(** The format that [apply_list] is called with: one "name=value" line per variable. *)
Definition script_line (kv : string * string) : string := kv.1 +:+ "=" +:+ kv.2.

Definition assoc_get (l : list (string * string)) (k : string) : option string :=
  (list_to_map l : gmap string string) !! k.

(** What a back end promises for such a file: the listed variables get their values, the
    others keep theirs. *)
Class EnvScript {E : Type} (bl : bootloader E) `{!EnvStore bl} := {
  script_var_ok : string * string -> bool;
  apply_list_get : forall l e e',
    env_ok e -> NoDup l.*1 -> Forall (fun kv => script_var_ok kv = true) l ->
    apply_list bl (Some (unlines (script_line <$> l))) e = (0, e') ->
    env_ok e' /\
    forall m, env_get bl m e' = match assoc_get l m with Some v => Some v | None => env_get bl m e end;
}.

(** ** The registry of [core/bootloader.c] *)

Section Bootloaders.
Context {E : Type}.

(** [funcs] is NULL for a bootloader whose library was not found. The four global
    function pointers are set together: [active] is the table they come from. *)
Record bl_registry := mk_bl_registry {
  available : list (string * option (bootloader E));
  current : option nat;
  active : option (bootloader E);
}.

Definition register_bootloader (mem : bool) (name : string) (bl : option (bootloader E))
    (r : bl_registry) : Z * bl_registry :=
  if mem then (0, mk_bl_registry (available r ++ [(name, bl)]) (current r) (active r))
  else (- ENOMEM, r).

Fixpoint find_bootloader (name : string) (i : nat) (l : list (string * option (bootloader E)))
  : option (nat * bootloader E) :=
  match l with
  | [] => None
  | (n, Some funcs) :: l =>
      if strcmp n name =? 0 then Some (i, funcs) else find_bootloader name (S i) l
  | (_, None) :: l => find_bootloader name (S i) l
  end.

Definition set_bootloader (name : option string) (r : bl_registry) : Z * bl_registry :=
  match name with
  | None => (- ENOENT, r)
  | Some name =>
      match find_bootloader name 0 (available r) with
      | Some (i, funcs) => (0, mk_bl_registry (available r) (Some i) (Some funcs))
      | None => (- ENOENT, r)
      end
  end.

Definition get_bootloader (r : bl_registry) : option string :=
  i ← current r; fst <$> available r !! i.

Definition is_bootloader (name : option string) (r : bl_registry) : bool :=
  match name, get_bootloader r with
  | Some name, Some cur => strcmp cur name =? 0
  | _, _ => false
  end.
End Bootloaders.
Arguments bl_registry : clear implicits.

(** ** No bootloader: [bootloader/none.c] keeps the variables in a dictionary *)

Module None_.
Definition none_do_env_set (name value : string) (environment : dict) : Z * dict :=
  (0, (dict_set_value true true environment name value).2).
Definition none_do_env_unset (name : string) (environment : dict) : Z * dict :=
  (0, dict_remove environment name).
Definition none_do_env_get (name : string) (environment : dict) : option string :=
  dict_get_value environment name.
Definition none_do_apply_list (file : option string) (environment : dict) : Z * dict :=
  dict_parse_script mem_ok environment file.
Definition none : bootloader dict :=
  mk_bootloader none_do_env_set none_do_env_unset none_do_env_get none_do_apply_list.
End None_.

(** ** U-Boot: [bootloader/uboot.c] calls libubootenv *)

Module Uboot.
Section Uboot.
(** The functions of libubootenv and what they see: [Ctx] is [struct uboot_ctx], [D]
    the storage of the environment. *)
Context {Ctx D : Type}.
Record libuboot := mk_libuboot {
  read_config_ext : D -> Z * Ctx;
  namespace_from_dt : option string;
  get_namespace : Ctx -> string -> Ctx;
  open : Ctx -> D -> Z * Ctx;
  load_file : Ctx -> option string -> Z * Ctx;
  get_env : Ctx -> string -> option string;
  set_env : Ctx -> string -> option string -> Z * Ctx;
  env_store : Ctx -> D -> Z * D;
}.
Variable lib : libuboot.
(** The content of the default environment, [CONFIG_UBOOT_DEFAULTENV]. *)
Variable defaultenv : option string.

Definition bootloader_initialize (d : D) : Z * option Ctx :=
  let '(ret, ctx) := read_config_ext lib d in
  if negb (ret =? 0) then (- EINVAL, None)
  else
    let ctx := match namespace_from_dt lib with
               | Some ns => get_namespace lib ctx ns
               | None => ctx
               end in
    let '(ret, ctx) := open lib ctx d in
    if ret <? 0 then
      let '(ret, ctx) := load_file lib ctx defaultenv in
      if ret <? 0 then (- ENODATA, None) else (0, Some ctx)
    else (0, Some ctx).

(** [value] is NULL to unset the variable. *)
Definition uboot_do_env_set_ (name : string) (value : option string) (d : D) : Z * D :=
  match bootloader_initialize d with
  | (_, Some ctx) => env_store lib (set_env lib ctx name value).2 d
  | (ret, None) => (ret, d)
  end.

Definition uboot_do_env_set (name value : string) (d : D) : Z * D := uboot_do_env_set_ name (Some value) d.
Definition uboot_do_env_unset (name : string) (d : D) : Z * D := uboot_do_env_set_ name None d.

Definition uboot_do_apply_list (filename : option string) (d : D) : Z * D :=
  match bootloader_initialize d with
  | (_, Some ctx) => env_store lib (load_file lib ctx filename).2 d
  | (ret, None) => (ret, d)
  end.

Definition uboot_do_env_get (name : string) (d : D) : option string :=
  match bootloader_initialize d with
  | (_, Some ctx) => get_env lib ctx name
  | (_, None) => None
  end.

Definition uboot : bootloader D := mk_bootloader uboot_do_env_set uboot_do_env_unset uboot_do_env_get uboot_do_apply_list.
End Uboot.
End Uboot.

(** * Properties *)

Lemma dict_value_abs d k : dict_get_value d k = dict_abs d !! k ≫= head.
Proof. by rewrite dict_value_list, dict_abs_lookup. Qed.

Lemma dict_set_get d k v m :
  dict_ok d -> dict_get_value (dict_set_value true true d k v).2 m =
  if decide (m = k) then Some v else dict_get_value d m.
Proof.
  intros H. rewrite !dict_value_abs, dict_set_value_abs by done.
  case_decide; [subst; by rewrite lookup_insert_eq|by rewrite lookup_insert_ne].
Qed.

Lemma dict_remove_get d k m :
  dict_ok d -> dict_get_value (dict_remove d k) m =
  if decide (m = k) then None else dict_get_value d m.
Proof.
  intros H. rewrite !dict_value_abs, dict_remove_abs by done.
  case_decide; [subst; by rewrite lookup_delete_eq|by rewrite lookup_delete_ne].
Qed.

#[export] Program Instance none_env_store : EnvStore None_.none := {
  env_ok := dict_ok;
  env_name_ok _ := true;
  env_value_ok _ := true;
}.
Next Obligation.
  intros n v e e' H _ _ [= <-]. split; [exact (dict_set_value_ok true true e n v H)|].
  intros m. exact (dict_set_get e n v m H).
Qed.
Next Obligation.
  intros n e e' H [= <-]. split; [exact (dict_remove_ok e n H)|].
  intros m. exact (dict_remove_get e n m H).
Qed.
Next Obligation. intros n v e ret e' _ [= <- <-]. done. Qed.
Next Obligation. intros n e ret e' _ [= <- <-]. done. Qed.
