(* ===== verification/Grub.v ===== *)
(** * The GRUB environment block: [bootloader/grub.c]

    The environment is a file of exactly 1024 bytes: a header line, one
    "name=value" line per variable and a padding of '#'. A file is the string of
    its bytes, [None] when it does not exist; C strings inside the buffer end at
    the first NUL. *)
From stdpp Require Import gmap.
From S2P Require Import Prelude CString Dict Bootloader.

Definition NULc : ascii := "000".
Definition hash_char : ascii := "#".

Definition GRUBENV_SIZE : nat := 1024.
Definition GRUBENV_HEADER : string := "# GRUB Environment Block" +:+ String nl "".

(** The C string at the start of a buffer. *)
Definition cstr (buf : string) : string := str_span (fun c => negb (Ascii.eqb c NULc)) buf.

(** [strchr] in the C string, as an offset. *)
Fixpoint index_of (c : ascii) (s : string) : option nat :=
  match s with
  | EmptyString => None
  | String d s => if Ascii.eqb d c then Some 0%nat else S <$> index_of c s
  end.

(** [buf[i] = c]. *)
Fixpoint str_set (i : nat) (c : ascii) (s : string) : string :=
  match i, s with
  | O, String _ s => String c s
  | S i, String d s => String d (str_set i c s)
  | _, EmptyString => ""
  end.

(** The [while] loop of [grubenv_open], [entry] being the rest of the
    buffer; [fuel] bounds its turns by the length of the buffer. *)
Fixpoint grubenv_loop (fuel : nat) (entry : string) (vars : dict) : Z * dict :=
  match fuel with
  | O => (0, vars)
  | S fuel =>
      match entry with
      | EmptyString => (0, vars)
      | String c _ =>
          if Ascii.eqb c NULc then (0, vars)
          else
            match index_of nl (cstr entry) with
            | None => (0, vars)
            | Some newline =>
                if Ascii.eqb c hash_char then grubenv_loop fuel (str_drop (S newline) entry) vars
                else
                  match index_of "=" (cstr entry) with
                  | None => grubenv_loop fuel (str_drop (S newline) entry) vars
                  | Some equals =>
                      let buf := str_set equals NULc (str_set newline NULc entry) in
                      let key := cstr buf in
                      let value := cstr (str_drop (S equals) buf) in
                      let '(ret, vars) :=
                        if String.eqb key "" then (0, vars)
                        else dict_set_value true true vars key value in
                      if ret =? 0 then grubenv_loop fuel (str_drop (S newline) buf) vars
                      else (ret, vars)
                  end
            end
      end
  end.

Definition grubenv_open (file : option string) : Z * dict :=
  match file with
  | None => (-1, [])
  | Some buf =>
      if negb (String.length buf =? GRUBENV_SIZE)%nat then (-1, [])
      else if negb (is_prefix (str_take (String.length GRUBENV_HEADER - 1) GRUBENV_HEADER) buf)
      then (-1, [])
      else grubenv_loop (S (String.length buf)) buf []
  end.

(** The [while] of [grubenv_parse_script]: a line without a value is skipped. *)
Fixpoint grubenv_script_lines (vars : dict) (lines : list string) : Z * dict :=
  match lines with
  | [] => (0, vars)
  | line :: lines =>
      let '(key, saveptr) := strtok_r line "=" in
      let '(value, _) := strtok_r saveptr TAB_NL in
      match key, value with
      | Some key, Some value =>
          let '(ret, vars) := dict_set_value true true vars key value in
          if ret =? 0 then grubenv_script_lines vars lines else (ret, vars)
      | _, _ => grubenv_script_lines vars lines
      end
  end.

Definition grubenv_parse_script (vars : dict) (script : option string) : Z * dict :=
  match script with
  | None => (-1, vars)
  | Some text => grubenv_script_lines vars (getlines text)
  end.

(** An entry always has a value here; [strlen (NULL)] would crash. *)
Definition entry_value (e : dict_entry) : string := default "" (head (entry_list e)).

Definition grubenv_update_size (vars : dict) : nat :=
  foldl (fun size e => size + String.length (entry_key e) + String.length (entry_value e) + 2)%nat
    0%nat vars + String.length GRUBENV_HEADER.

Fixpoint str_repeat_char (n : nat) (c : ascii) : string :=
  match n with O => "" | S n => String c (str_repeat_char n c) end.

Definition grub_line (e : dict_entry) : string := entry_key e +:+ "=" +:+ entry_value e.

(** The text built by [strncpy] and [strncat]. *)
Definition grubenv_text (vars : dict) : string :=
  GRUBENV_HEADER +:+ unlines (grub_line <$> vars).

(** [io]: opening, writing and renaming the new file succeed. On success the new
    block replaces the file, otherwise the file is as before. *)
Definition grubenv_write (io : bool) (vars : dict) (file : option string) : Z * option string :=
  let size := grubenv_update_size vars in
  if (GRUBENV_SIZE <? size)%nat then (-1, file)
  else if negb io then (-1, file)
  else (0, Some (grubenv_text vars +:+ str_repeat_char (GRUBENV_SIZE - size) hash_char)).

Definition grub_do_env_set (io : bool) (name value : string) (file : option string)
  : Z * option string :=
  let '(ret, vars) := grubenv_open file in
  if negb (ret =? 0) then (ret, file)
  else
    let '(ret, vars) := dict_set_value true true vars name value in
    if negb (ret =? 0) then (ret, file) else grubenv_write io vars file.

Definition grub_do_env_unset (io : bool) (name : string) (file : option string) : Z * option string :=
  let '(ret, vars) := grubenv_open file in
  if negb (ret =? 0) then (ret, file)
  else grubenv_write io (dict_remove vars name) file.

Definition grub_do_env_get (name : string) (file : option string) : option string :=
  let '(ret, vars) := grubenv_open file in
  if negb (ret =? 0) then None else dict_get_value vars name.

Definition grub_do_apply_list (io : bool) (script : option string) (file : option string)
  : Z * option string :=
  let '(ret, vars) := grubenv_open file in
  if negb (ret =? 0) then (ret, file)
  else
    let '(ret, vars) := grubenv_parse_script vars script in
    if negb (ret =? 0) then (ret, file) else grubenv_write io vars file.

Definition grub (io : bool) : bootloader (option string) :=
  mk_bootloader (grub_do_env_set io) (grub_do_env_unset io) grub_do_env_get (grub_do_apply_list io).

(** * Properties *)

(** A variable that survives being written and read: the name is not empty, does
    not start with '#' and has neither '=' nor a newline; the value has no
    newline. *)
Definition grub_name_ok (k : string) : bool :=
  match k with
  | EmptyString => false
  | String c _ => negb (Ascii.eqb c hash_char)
  end &&
  str_forall (fun c => negb (Ascii.eqb c "=") && negb (Ascii.eqb c nl) && negb (Ascii.eqb c NULc)) k.

Definition grub_value_ok (v : string) : bool :=
  str_forall (fun c => negb (Ascii.eqb c nl) && negb (Ascii.eqb c NULc)) v.

Definition grub_var_ok (e : dict_entry) : bool :=
  grub_name_ok (entry_key e) && grub_value_ok (entry_value e) && (length (entry_list e) =? 1)%nat.

Record grub_vars_ok (vars : dict) : Prop := {
  vars_dict_ok : dict_ok vars;
  vars_each_ok : Forall (fun e => grub_var_ok e = true) vars;
}.

(** Setting the variables of [l] one after the other. *)
Definition set_all (l : list (string * string)) (vars : dict) : dict :=
  foldl (fun vars kv => (dict_set_value true true vars kv.1 kv.2).2) vars l.

Definition pair_of (e : dict_entry) : string * string := (entry_key e, entry_value e).

Definition not_nul (c : ascii) : bool := negb (Ascii.eqb c NULc).
Definition no_nul (s : string) : bool := str_forall not_nul s.

Lemma cstr_app s t : no_nul s = true -> cstr (s +:+ t) = s +:+ cstr t.
Proof.
  induction s as [|c s IH]; intros H; [done|]. rewrite !str_app_cons.
  unfold no_nul in *. cbn [str_forall cstr str_span] in *. apply andb_true_iff in H as [H1 H2].
  unfold cstr in *. cbn [str_span]. unfold not_nul in H1. by rewrite H1, IH.
Qed.

Lemma cstr_nul s t : no_nul s = true -> cstr (s +:+ String NULc t) = s.
Proof. intros H. rewrite cstr_app by done. by rewrite str_app_nil_r. Qed.

Lemma index_of_app c s t : str_mem c s = false -> index_of c (s +:+ String c t) = Some (String.length s).
Proof.
  induction s as [|d s IH]; intros H; rewrite ?str_app_cons, ?str_app_nil_l; cbn [index_of].
  - by rewrite Ascii.eqb_refl.
  - cbn [str_mem] in H. apply orb_false_iff in H as [-> H]. by rewrite IH.
Qed.

Lemma str_set_app s c d t : str_set (String.length s) c (s +:+ String d t) = s +:+ String c t.
Proof. induction s as [|x s IH]; [done|]. rewrite !str_app_cons. cbn. by rewrite IH. Qed.

Lemma str_drop_next s d t : str_drop (S (String.length s)) (s +:+ String d t) = t.
Proof. induction s as [|x s IH]; [done|]. rewrite str_app_cons. exact IH. Qed.

Lemma str_forall_not_mem f c s : str_forall f s = true -> f c = false -> str_mem c s = false.
Proof.
  induction s as [|d s IH]; intros H Hc; [done|]. cbn [str_forall str_mem] in *.
  apply andb_true_iff in H as [H1 H2]. rewrite IH, orb_false_r by done.
  apply Ascii.eqb_neq. intros ->. by rewrite H1 in Hc.
Qed.

Lemma grub_name_spec k :
  grub_name_ok k = true ->
  no_nul k = true /\ str_mem "=" k = false /\ str_mem nl k = false /\
  exists c k', k = String c k' /\ Ascii.eqb c NULc = false /\ Ascii.eqb c hash_char = false.
Proof.
  intros [H1 H2]%andb_true_iff. split_and!.
  - eapply str_forall_weaken; [|exact H2]. unfold not_nul. by intros c [_ ?]%andb_true_iff.
  - by eapply str_forall_not_mem.
  - by eapply str_forall_not_mem.
  - destruct k as [|c k]; [done|]. exists c, k. cbn [str_forall] in H2.
    apply andb_true_iff in H2 as [[[_ _]%andb_true_iff H2]%andb_true_iff _].
    split_and!; [done|by apply negb_true_iff|by apply negb_true_iff].
Qed.

Lemma grub_value_spec v : grub_value_ok v = true -> no_nul v = true /\ str_mem nl v = false.
Proof.
  intros H. split.
  - eapply str_forall_weaken; [|exact H]. unfold not_nul. by intros c [_ ?]%andb_true_iff.
  - by eapply str_forall_not_mem.
Qed.

Lemma grubenv_loop_line fuel k v rest vars :
  grub_name_ok k = true -> grub_value_ok v = true ->
  grubenv_loop (S fuel) ((k +:+ "=" +:+ v) +:+ String nl rest) vars =
  grubenv_loop fuel rest (dict_set_value true true vars k v).2.
Proof.
  intros Hk Hv. destruct (grub_name_spec k Hk) as (Hkn & Hke & Hkl & c & k' & E & Hc0 & Hch).
  destruct (grub_value_spec v Hv) as [Hvn Hvl]. change ("=" +:+ v) with (String "=" v).
  assert (no_nul (k +:+ String "=" v) = true) as Hn.
  { unfold no_nul in *. rewrite str_forall_app. cbn [str_forall]. by rewrite Hkn, Hvn. }
  assert (str_mem nl (k +:+ String "=" v) = false) as Hl
    by (rewrite str_mem_app; cbn [str_mem]; by rewrite Hkl, Hvl).
  assert (forall x, (k +:+ String "=" v) +:+ x = k +:+ String "=" (v +:+ x)) as Ea
    by (intros x; by rewrite str_app_assoc, str_app_cons).
  assert (exists t, (k +:+ String "=" v) +:+ String nl rest = String c t) as [t Et]
    by (rewrite E, !str_app_cons; eauto).
  cbn [grubenv_loop]. rewrite Et, Hc0, Hch, <- Et, !cstr_app by done.
  replace (cstr (String nl rest)) with (String nl (cstr rest)) by done.
  rewrite index_of_app, Ea, index_of_app, str_set_app, !Ea, str_set_app by done.
  rewrite str_drop_next, !cstr_nul by done.
  assert (String.eqb k "" = false) as -> by (by rewrite E).
  rewrite dict_set_value_unfold. cbn [Z.eqb fst snd].
  replace (String.length (k +:+ String "=" v)) with (String.length (k +:+ String NULc v))
    by (rewrite !str_app_length; done).
  by rewrite <- str_app_cons, <- str_app_assoc, str_drop_next.
Qed.

Lemma grubenv_loop_header fuel rest vars :
  grubenv_loop (S fuel) (GRUBENV_HEADER +:+ rest) vars = grubenv_loop fuel rest vars.
Proof.
  unfold GRUBENV_HEADER. rewrite str_app_assoc. change (String nl "" +:+ rest) with (String nl rest).
  change (grubenv_loop (S fuel) (?h +:+ String nl rest) vars) with
    (match index_of nl (cstr (h +:+ String nl rest)) with
     | None => (0, vars)
     | Some newline => grubenv_loop fuel (str_drop (S newline) (h +:+ String nl rest)) vars
     end).
  rewrite cstr_app by done.
  replace (cstr (String nl rest)) with (String nl (cstr rest)) by done.
  rewrite index_of_app, str_drop_next by done. reflexivity.
Qed.

Lemma grubenv_loop_padding fuel n vars :
  grubenv_loop (S fuel) (str_repeat_char n hash_char) vars = (0, vars).
Proof.
  assert (index_of nl (cstr (str_repeat_char n hash_char)) = None) as E.
  { unfold cstr. rewrite str_span_all.
    - induction n as [|n IH]; [done|]. cbn [str_repeat_char index_of]. by rewrite IH.
    - induction n as [|n IH]; [done|]. cbn [str_repeat_char str_forall]. by rewrite IH. }
  destruct n as [|n]; [done|]. cbn [grubenv_loop]. rewrite E. reflexivity.
Qed.

Lemma grubenv_loop_lines (l : list (string * string)) fuel n vars :
  Forall (fun kv => grub_name_ok kv.1 = true /\ grub_value_ok kv.2 = true) l ->
  (length l < fuel)%nat ->
  grubenv_loop fuel (unlines ((fun kv => kv.1 +:+ "=" +:+ kv.2) <$> l) +:+
    str_repeat_char n hash_char) vars = (0, set_all l vars).
Proof.
  intros H. revert fuel vars. induction H as [|kv l [Hk Hv] _ IH]; intros fuel vars Hf;
    destruct fuel as [|fuel]; cbn [length] in *; try lia.
  - apply grubenv_loop_padding.
  - set (pad := str_repeat_char n hash_char) in *.
    match goal with |- grubenv_loop _ (unlines (?f <$> _) +:+ _) _ = _ => set (line := f) in * end.
    change (unlines (line <$> (kv :: l))) with (line kv +:+ String nl (unlines (line <$> l))).
    rewrite str_app_assoc, str_app_cons. unfold line at 1.
    rewrite grubenv_loop_line by done. apply IH. lia.
Qed.

(** ** Sizes *)

Lemma str_repeat_length n c : String.length (str_repeat_char n c) = n.
Proof. induction n as [|n IH]; [done|]. cbn. by rewrite IH. Qed.

Lemma grubenv_size_text vars : grubenv_update_size vars = String.length (grubenv_text vars).
Proof.
  unfold grubenv_update_size, grubenv_text. rewrite str_app_length, Nat.add_comm. f_equal.
  assert (forall acc,
    foldl (fun size e => size + String.length (entry_key e) + String.length (entry_value e) + 2)%nat
      acc vars = (acc + String.length (unlines (grub_line <$> vars)))%nat) as E.
  { induction vars as [|e vars IH]; intros acc; [cbn; lia|]. cbn [foldl]. rewrite IH.
    change (unlines (grub_line <$> (e :: vars))) with
      (grub_line e +:+ String nl (unlines (grub_line <$> vars))).
    unfold grub_line at 2. rewrite !str_app_length. cbn [String.length]. lia. }
  apply E.
Qed.

Lemma unlines_length l : (length l <= String.length (unlines l))%nat.
Proof.
  induction l as [|x l IH]; [done|].
  change (unlines (x :: l)) with (x +:+ String nl (unlines l)).
  rewrite str_app_length. cbn [String.length length]. lia.
Qed.

(** ** Dictionaries of variables *)

Lemma grub_var_pair e :
  grub_var_ok e = true ->
  grub_name_ok (entry_key e) = true /\ grub_value_ok (entry_value e) = true /\
  entry_list e = [entry_value e].
Proof.
  intros [[H1 H2]%andb_true_iff H3]%andb_true_iff. split_and!; [done|done|].
  unfold entry_value. apply Nat.eqb_eq in H3. by destruct (entry_list e) as [|v [|w l]].
Qed.

Lemma set_vars_ok vars k v :
  grub_vars_ok vars -> grub_name_ok k = true -> grub_value_ok v = true ->
  grub_vars_ok (dict_set_value true true vars k v).2.
Proof.
  intros [H1 H2] Hk Hv. split; [by apply dict_set_value_ok|].
  rewrite dict_set_value_unfold. cbn [snd]. constructor.
  - change (grub_name_ok k && grub_value_ok v && true = true). by rewrite Hk, Hv.
  - unfold dict_remove, remove_entry. destruct (get_entry vars k); [|done]. by apply Forall_delete.
Qed.

Lemma remove_vars_ok vars k : grub_vars_ok vars -> grub_vars_ok (dict_remove vars k).
Proof.
  intros [H1 H2]. split; [by apply dict_remove_ok|].
  unfold dict_remove, remove_entry. destruct (get_entry vars k); [|done]. by apply Forall_delete.
Qed.

Lemma nil_vars_ok : grub_vars_ok [].
Proof. split; constructor. Qed.

Definition pairs_ok (l : list (string * string)) : Prop :=
  Forall (fun kv => grub_name_ok kv.1 = true /\ grub_value_ok kv.2 = true) l.

Lemma set_all_ok l vars : grub_vars_ok vars -> pairs_ok l -> grub_vars_ok (set_all l vars).
Proof.
  intros H Hl. revert vars H. induction Hl as [|kv l [Hk Hv] _ IH]; intros vars H; [done|].
  apply IH. by apply set_vars_ok.
Qed.

Definition values_map (l : list (string * string)) : gmap string (list string) :=
  list_to_map ((fun kv => (kv.1, [kv.2])) <$> l).

Lemma values_map_None l k : k ∉ l.*1 -> values_map l !! k = None.
Proof. intros H. apply not_elem_of_list_to_map_1. by rewrite <- list_fmap_compose. Qed.

Lemma set_all_abs l d :
  dict_ok d -> NoDup l.*1 -> dict_abs (set_all l d) = values_map l ∪ dict_abs d.
Proof.
  revert d. induction l as [|[k v] l IH]; intros d Hd Hl; cbn [set_all foldl fmap list_fmap].
  - change (values_map []) with (∅ : gmap string (list string)). by rewrite (left_id_L ∅ (∪)).
  - cbn [fmap list_fmap] in Hl. apply NoDup_cons in Hl as [Hk Hl].
    change (foldl _ _ l) with (set_all l (dict_set_value true true d k v).2).
    rewrite IH, dict_set_value_abs by (try done; by apply dict_set_value_ok).
    change (values_map ((k, v) :: l)) with (<[k := [v]]> (values_map l)).
    rewrite <- insert_union_l. symmetry. apply insert_union_r. by apply values_map_None.
Qed.

Lemma vars_pairs vars : Forall (fun e => grub_var_ok e = true) vars -> pairs_ok (pair_of <$> vars).
Proof.
  intros H. apply Forall_fmap. eapply Forall_impl; [exact H|].
  intros e (H1 & H2 & _)%grub_var_pair. done.
Qed.

Lemma vars_values vars :
  Forall (fun e => grub_var_ok e = true) vars -> values_map (pair_of <$> vars) = dict_abs vars.
Proof.
  induction 1 as [|e vars He _ IH]; [done|]. rewrite dict_abs_cons, <- IH.
  change (values_map (pair_of <$> (e :: vars))) with
    (<[entry_key e := [entry_value e]]> (values_map (pair_of <$> vars))).
  apply grub_var_pair in He as (_ & _ & ->). done.
Qed.

Lemma grubenv_write_true vars file f' :
  grubenv_write true vars file = (0, f') ->
  (grubenv_update_size vars <= GRUBENV_SIZE)%nat /\
  f' = Some (grubenv_text vars +:+ str_repeat_char (GRUBENV_SIZE - grubenv_update_size vars) hash_char).
Proof.
  unfold grubenv_write. destruct (Nat.ltb_spec GRUBENV_SIZE (grubenv_update_size vars)); [done|].
  by intros [= <-].
Qed.

Lemma grubenv_open_write vars file f' :
  grub_vars_ok vars -> grubenv_write true vars file = (0, f') ->
  grubenv_open f' = (0, set_all (pair_of <$> vars) []).
Proof.
  intros [Hd Hv] [Hs ->]%grubenv_write_true. unfold grubenv_open.
  rewrite str_app_length, str_repeat_length, <- grubenv_size_text.
  replace (grubenv_update_size vars + (GRUBENV_SIZE - grubenv_update_size vars))%nat
    with GRUBENV_SIZE by lia.
  rewrite Nat.eqb_refl. cbn [negb].
  unfold grubenv_text. rewrite str_app_assoc.
  assert (forall x, is_prefix (str_take (String.length GRUBENV_HEADER - 1) GRUBENV_HEADER)
    (GRUBENV_HEADER +:+ x) = true) as Hp by reflexivity.
  rewrite Hp. cbn [negb]. rewrite grubenv_loop_header.
  replace (grub_line <$> vars) with ((fun kv => kv.1 +:+ "=" +:+ kv.2) <$> (pair_of <$> vars))
    by (rewrite <- list_fmap_compose; by apply list_fmap_ext).
  apply grubenv_loop_lines; [by apply vars_pairs|].
  rewrite length_fmap. rewrite grubenv_size_text in Hs. unfold grubenv_text in Hs.
  rewrite str_app_length in Hs. pose proof (unlines_length (grub_line <$> vars)).
  rewrite length_fmap in *. simpl (String.length GRUBENV_HEADER) in Hs. lia.
Qed.

Lemma grubenv_write_read vars file f' :
  grub_vars_ok vars -> grubenv_write true vars file = (0, f') ->
  exists vars', grubenv_open f' = (0, vars') /\ grub_vars_ok vars' /\ dict_abs vars' = dict_abs vars.
Proof.
  intros H E. rewrite (grubenv_open_write vars file f' H E). destruct H as [Hd Hv].
  eexists. split_and!; [done|apply set_all_ok; [apply nil_vars_ok|by apply vars_pairs]|].
  rewrite set_all_abs, vars_values by (try done; try apply nil_vars_ok;
    rewrite <- list_fmap_compose; exact Hd).
  by rewrite dict_abs_nil, (right_id_L ∅ (∪)).
Qed.

(** An environment that fits the block survives being written and read back:
    the file is opened without error and every variable has its value. *)
Theorem grubenv_roundtrip (vars : dict) (file : option string) :
  grub_vars_ok vars -> (grubenv_update_size vars <= GRUBENV_SIZE)%nat ->
  let '(ret, file') := grubenv_write true vars file in
  let '(ret', vars') := grubenv_open file' in
  ret = 0 /\ ret' = 0 /\ dict_abs vars' = dict_abs vars /\ grub_vars_ok vars'.
Proof.
  intros H Hs. destruct (grubenv_write true vars file) as [ret f'] eqn:E.
  assert (ret = 0) as ->.
  { unfold grubenv_write in E. destruct (Nat.ltb_spec GRUBENV_SIZE (grubenv_update_size vars)); [lia|].
    by injection E. }
  by destruct (grubenv_write_read vars file f' H E) as (vars' & -> & ? & ?).
Qed.

Lemma grubenv_roundtrip_witness :
  let vars := [mk_dict_entry "ustate" ["1"]; mk_dict_entry "bootcmd" ["linux root=/dev/sda2"]] in
  let '(ret, file) := grubenv_write true vars None in
  let '(ret', vars') := grubenv_open file in
  ret = 0 /\ ret' = 0 /\ dict_abs vars' = dict_abs vars /\ grub_vars_ok vars'.
Proof.
  refine (grubenv_roundtrip [mk_dict_entry "ustate" ["1"];
    mk_dict_entry "bootcmd" ["linux root=/dev/sda2"]] None _ _).
  - split.
    + apply (bool_decide_unpack _). vm_compute. reflexivity.
    + repeat constructor.
  - apply (bool_decide_unpack _). vm_compute. reflexivity.
Defined.

(** ** The GRUB back end is an environment store *)

Definition grub_env_ok (file : option string) : Prop :=
  exists vars, grubenv_open file = (0, vars) /\ grub_vars_ok vars.

Lemma grub_get_open file vars m :
  grubenv_open file = (0, vars) -> grub_do_env_get m file = dict_get_value vars m.
Proof. unfold grub_do_env_get. by intros ->. Qed.

Lemma grubenv_write_get io vars file f' :
  grub_vars_ok vars -> grubenv_write io vars file = (0, f') ->
  grub_env_ok f' /\ forall m, grub_do_env_get m f' = dict_get_value vars m.
Proof.
  intros H E. destruct io.
  2: { unfold grubenv_write in E. by case_match. }
  destruct (grubenv_write_read vars file f' H E) as (vars' & E' & Hok & Habs).
  split; [by exists vars'|]. intros m. rewrite (grub_get_open _ _ _ E').
  by rewrite !dict_value_abs, Habs.
Qed.

Lemma grubenv_write_fails io vars file ret f' :
  grubenv_write io vars file = (ret, f') -> ret <> 0 -> f' = file.
Proof. unfold grubenv_write. repeat case_match; by intros [= <- <-]. Qed.

#[export] Program Instance grub_env_store (io : bool) : EnvStore (grub io) := {
  env_ok := grub_env_ok;
  env_name_ok := grub_name_ok;
  env_value_ok := grub_value_ok;
}.
Next Obligation.
  cbn. intros io n v e e' (vars & E & H) Hn Hv. unfold grub_do_env_set. rewrite E.
  rewrite dict_set_value_unfold. cbn [Z.eqb negb]. intros W.
  pose proof (set_vars_ok vars n v H Hn Hv) as H'. rewrite dict_set_value_unfold in H'.
  destruct (grubenv_write_get io _ _ _ H' W) as [Hok Hget]. split; [done|]. intros m.
  rewrite Hget, (grub_get_open _ _ _ E).
  pose proof (dict_set_get vars n v m (vars_dict_ok _ H)) as G.
  by rewrite dict_set_value_unfold in G.
Qed.
Next Obligation.
  cbn. intros io n e e' (vars & E & H). unfold grub_do_env_unset. rewrite E. cbn [Z.eqb negb]. intros W.
  destruct (grubenv_write_get io _ _ _ (remove_vars_ok vars n H) W) as [Hok Hget].
  split; [done|]. intros m. rewrite Hget, (grub_get_open _ _ _ E). apply dict_remove_get, H.
Qed.
Next Obligation.
  cbn. intros io n v e ret e' _. unfold grub_do_env_set. destruct (grubenv_open e) as [r vars].
  case_match; [by intros [= <- <-]|]. destruct (dict_set_value true true vars n v) as [r' vars'].
  case_match; [by intros [= <- <-]|]. apply grubenv_write_fails.
Qed.
Next Obligation.
  cbn. intros io n e ret e' _. unfold grub_do_env_unset. destruct (grubenv_open e) as [r vars].
  case_match; [by intros [= <- <-]|]. apply grubenv_write_fails.
Qed.

(** A variable of a script: the value must be a word of the script's syntax. *)
Definition grub_script_ok (kv : string * string) : bool :=
  grub_name_ok kv.1 && grub_value_ok kv.2 && is_token TAB_NL kv.2.

Lemma grub_script_spec kv :
  grub_script_ok kv = true ->
  grub_name_ok kv.1 = true /\ grub_value_ok kv.2 = true /\ is_token TAB_NL kv.2 = true /\
  is_token "=" kv.1 = true /\ str_mem nl (script_line kv) = false.
Proof.
  intros [[H1 H2]%andb_true_iff H3]%andb_true_iff.
  destruct (grub_name_spec _ H1) as (_ & He & Hl & c & k & Ek & _).
  split_and!; try done.
  - unfold is_token. apply andb_true_iff. split; [by rewrite Ek|]. clear -He.
    induction (kv.1) as [|d s IH]; [done|]. cbn [str_mem str_forall] in *.
    apply orb_false_iff in He as [Hd He]. rewrite IH, andb_true_r by done.
    rewrite orb_false_r, Ascii.eqb_sym. by rewrite Hd.
  - unfold script_line. rewrite !str_mem_app, Hl. cbn [str_mem orb].
    by apply (token_no_nl TAB_NL).
Qed.

Lemma grubenv_script_set_all l vars :
  Forall (fun kv => grub_script_ok kv = true) l ->
  grubenv_parse_script vars (Some (unlines (script_line <$> l))) = (0, set_all l vars).
Proof.
  intros H. unfold grubenv_parse_script. rewrite getlines_unlines.
  - revert vars. induction H as [|kv l Hkv _ IH]; intros vars; [done|].
    apply grub_script_spec in Hkv as (_ & _ & Hv & Hk & _). cbn [fmap list_fmap grubenv_script_lines].
    unfold script_line at 1. rewrite !str_app_assoc. change ("=" +:+ ?s) with (String "=" s).
    rewrite strtok_r_token, strtok_r_token by done. cbn [fst snd].
    rewrite dict_set_value_unfold. cbn [Z.eqb]. rewrite IH.
    change (set_all (kv :: l) vars) with (set_all l (dict_set_value true true vars kv.1 kv.2).2).
    by rewrite dict_set_value_unfold.
  - apply Forall_fmap. eapply Forall_impl; [exact H|]. by intros kv (_ & _ & _ & _ & ?)%grub_script_spec.
Qed.

Lemma values_map_assoc l k : values_map l !! k = (fun v => [v]) <$> assoc_get l k.
Proof.
  unfold assoc_get. induction l as [|[k' v] l IH]; [done|].
  change (values_map ((k', v) :: l)) with (<[k' := [v]]> (values_map l)).
  cbn [list_to_map foldr]. change (foldr _ ∅ l) with (list_to_map l : gmap string string).
  destruct (decide (k = k')) as [->|Hn]; [by rewrite !lookup_insert_eq|].
  by rewrite !lookup_insert_ne.
Qed.

Lemma set_all_get l vars k :
  dict_ok vars -> NoDup l.*1 ->
  dict_get_value (set_all l vars) k =
  match assoc_get l k with Some v => Some v | None => dict_get_value vars k end.
Proof.
  intros Hd Hl. rewrite !dict_value_abs, set_all_abs by done. rewrite lookup_union, values_map_assoc.
  destruct (assoc_get l k) as [v|]; cbn; by destruct (dict_abs vars !! k).
Qed.

#[export] Program Instance grub_env_script (io : bool) : EnvScript (grub io) := {
  script_var_ok := grub_script_ok;
}.
Next Obligation.
  cbn. intros io l e e' (vars & E & H) Hl Hs. unfold grub_do_apply_list. rewrite E.
  cbn [Z.eqb negb]. rewrite grubenv_script_set_all by done. cbn [Z.eqb negb]. intros W.
  assert (grub_vars_ok (set_all l vars)) as H'.
  { apply set_all_ok; [done|]. eapply Forall_impl; [exact Hs|].
    by intros kv (? & ? & _)%grub_script_spec. }
  destruct (grubenv_write_get io _ _ _ H' W) as [Hok Hget]. split; [done|]. intros m.
  rewrite Hget, (grub_get_open _ _ _ E). apply set_all_get; [apply H|done].
Qed.

(** ** Two defects *)

Definition grub_block (lines : list string) : option string :=
  let text := GRUBENV_HEADER +:+ unlines lines in
  Some (text +:+ str_repeat_char (GRUBENV_SIZE - String.length text) hash_char).

(** A line without '=', which the comment says is skipped, makes the reader
    drop the variables that follow: the search for '=' runs into the next line
    and the '=' found there is overwritten by a NUL that ends the buffer. *)
Theorem grubenv_open_junk_line :
  let file := grub_block ["a=1"; "junk"; "b=2"; "c=3"] in
  (grubenv_open file).1 = 0 /\ grub_do_env_get "a" file = Some "1" /\
  grub_do_env_get "b" file = None /\ grub_do_env_get "c" file = None /\
  grub_do_env_get "junk" file <> None.
Proof. split_and!; vm_compute; done. Qed.

(** One past the last byte that the [strncat] calls of [grubenv_write] write, the
    NUL they append included. *)
Definition grubenv_write_extent (vars : dict) : nat := S (String.length (grubenv_text vars)).

(** An environment of exactly 1024 bytes passes the size check, and the NUL
    appended by the last [strncat] is written one byte past the buffer. *)
Theorem grubenv_write_overrun :
  let vars := [mk_dict_entry "k" [str_repeat_char 996 "v"]] in
  (grubenv_write true vars None).1 = 0 /\ (grubenv_write_extent vars > GRUBENV_SIZE)%nat.
Proof.
  split; [vm_compute; reflexivity|].
  apply (bool_decide_unpack (GRUBENV_SIZE < _)%nat). vm_compute. reflexivity.
Qed.
