(* ===== verification/State.v ===== *)
(** * The persistent update state: [core/state.c], [include/state.h]

    The state of the last update is one character of the bootloader's environment;
    a child process reads and writes it through the core process. *)
From S2P Require Import Prelude CString Dict Bootloader Grub.

(** [update_state_t] holds character codes. *)
Definition STATE_OK : Z := 48.
Definition STATE_INSTALLED : Z := 49.
Definition STATE_TESTING : Z := 50.
Definition STATE_FAILED : Z := 51.
Definition STATE_NOT_AVAILABLE : Z := 52.
Definition STATE_ERROR : Z := 53.
Definition STATE_WAIT : Z := 54.
Definition STATE_IN_PROGRESS : Z := 55.
Definition STATE_LAST : Z := STATE_IN_PROGRESS.

Definition is_valid_state (state : Z) : bool := (state >=? STATE_OK) && (state <=? STATE_LAST).

Definition get_state_string (state : Z) : string :=
  if state =? STATE_IN_PROGRESS then "in_progress"
  else if state =? STATE_FAILED then "failed"
  else if state =? STATE_OK then "ok"
  else if state =? STATE_INSTALLED then "installed"
  else if state =? STATE_TESTING then "testing"
  else if state =? STATE_NOT_AVAILABLE then "not_available"
  else if state =? STATE_ERROR then "error"
  else if state =? STATE_WAIT then "wait"
  else "<nil>".

(** [CHECK_STATE_VAR]. *)
Definition check_state_var (v : string) : string := if String.eqb v "" then "ustate" else v.

(** [*value] of a C string, as a signed [char]. *)
Definition first_char (s : string) : Z :=
  match s with EmptyString => 0 | String c _ => swrap 8 (byte_of c) end.

(** The types of an [ipc_message] that matter here. *)
Inductive msgtype := REQ_INSTALL | ACK | NACK | OTHER_MSG.

Definition is_ack (t : msgtype) : bool := match t with ACK => true | _ => false end.
Definition is_nack (t : msgtype) : bool := match t with NACK => true | _ => false end.

Section State.
Context {E : Type} (bl : bootloader E).
(** The configured [STATE_KEY]. *)
Variable STATE_KEY : string.
(** [ipc_send_cmd] with the messages [SET_UPDATE_STATE] and [GET_UPDATE_STATE]: its
    result, and the type and first byte of the answer. *)
Variable ipc_set_state : Z -> Z * msgtype.
Variable ipc_get_state : Z * msgtype * Z.

Definition do_save_state (key : string) (value : option string) (e : E) : Z * E :=
  let key := check_state_var key in
  match value with
  | None => (- EINVAL, e)
  | Some value =>
      let c := first_char value in
      if (c <? STATE_OK) || (c >? STATE_LAST) then (- EINVAL, e)
      else env_set bl key value e
  end.

(** [char value_str[2] = {value, '\0'}]: a zero value is the empty string. *)
Definition state_string (value : Z) : string :=
  if wrap 8 value =? 0 then "" else String (ascii_of_Z (wrap 8 value)) "".

(** [child]: the process is not the core process. *)
Definition save_state (child : bool) (value : Z) (e : E) : Z * E :=
  if child then
    let '(ret, t) := ipc_set_state value in
    ((if (ret =? 0) && is_ack t then 0 else 1), e)
  else do_save_state STATE_KEY (Some (state_string value)) e.

Definition read_state (key : string) (e : E) : Z :=
  match env_get bl (check_state_var key) e with
  | None => STATE_NOT_AVAILABLE
  | Some envval => first_char envval
  end.

Definition do_get_state (e : E) : Z :=
  let state := read_state STATE_KEY e in
  if state =? STATE_NOT_AVAILABLE then STATE_NOT_AVAILABLE
  else if is_valid_state state then state
  else STATE_NOT_AVAILABLE.

Definition get_state (child : bool) (e : E) : Z :=
  if child then
    let '(ret, t, m) := ipc_get_state in
    if negb (ret =? 0) || is_nack t then STATE_NOT_AVAILABLE else m
  else do_get_state e.

(** * Properties *)

Lemma valid_state_char v :
  is_valid_state v = true -> first_char (state_string v) = v /\
  state_string v = String (ascii_of_Z v) "".
Proof.
  unfold is_valid_state, STATE_OK, STATE_LAST, STATE_IN_PROGRESS. intros H. bool_to_prop.
  unfold state_string. rewrite wrap_small by lia.
  destruct (Z.eqb_spec v 0); [lia|]. split; [|done].
  cbn [first_char]. rewrite byte_of_ascii_of_Z by lia. apply swrap_small; lia.
Qed.

Context `{!EnvStore bl}.

Lemma save_state_read (v : Z) (e e' : E) :
  env_ok e -> is_valid_state v = true ->
  env_name_ok (check_state_var STATE_KEY) = true ->
  env_value_ok (state_string v) = true ->
  save_state false v e = (0, e') ->
  get_state false e' = v /\ env_ok e' /\
  forall m, m <> check_state_var STATE_KEY -> env_get bl m e' = env_get bl m e.
Proof.
  intros He Hv Hk Hs. destruct (valid_state_char v Hv) as [Hc _].
  unfold save_state, do_save_state. rewrite Hc.
  unfold is_valid_state in Hv. apply andb_true_iff in Hv as [H1 H2].
  rewrite Z.ltb_antisym, <- Z.geb_leb, H1, Z.gtb_ltb, Z.ltb_antisym, H2. cbn [negb orb].
  intros W. destruct (env_set_get _ _ _ _ He Hk Hs W) as [Hok Hget]. split_and!; [|done|].
  - unfold get_state, do_get_state, read_state. rewrite Hget, decide_True, Hc by done.
    unfold is_valid_state. rewrite H1, H2. case_if; zsolve.
  - intros m Hm. by rewrite Hget, decide_False.
Qed.

(** In the core process, a state that was saved without error is the state
    read back, on any back end that keeps its promises; no other variable of
    the bootloader is touched. *)
Theorem save_get_state (v : Z) (e e' : E) :
  env_ok e -> is_valid_state v = true ->
  env_name_ok (check_state_var STATE_KEY) = true ->
  env_value_ok (state_string v) = true ->
  save_state false v e = (0, e') ->
  get_state false e' = v /\ env_ok e' /\
  forall m, m <> check_state_var STATE_KEY -> env_get bl m e' = env_get bl m e.
Proof. apply save_state_read. Qed.

(** A value that is not a state is refused without touching the environment,
    and whatever the environment holds the core process reads a valid state. *)
Theorem state_range (v : Z) (e : E) :
  (0 <= v < 256 -> is_valid_state v = false -> save_state false v e = (- EINVAL, e)) /\
  is_valid_state (get_state false e) = true.
Proof.
  split.
  - intros Hr Hv. unfold save_state, do_save_state, state_string. rewrite wrap_small by lia.
    assert ((first_char (if v =? 0 then "" else String (ascii_of_Z v) "") <? STATE_OK)
      || (first_char (if v =? 0 then "" else String (ascii_of_Z v) "") >? STATE_LAST) = true) as ->;
      [|done].
    destruct (Z.eqb_spec v 0) as [->|Hn]; [done|]. cbn [first_char].
    rewrite byte_of_ascii_of_Z by lia. unfold is_valid_state in Hv.
    unfold STATE_LAST, STATE_IN_PROGRESS, STATE_OK in *.
    apply andb_false_iff in Hv. rewrite Z.geb_leb in Hv. rewrite Z.gtb_ltb.
    apply orb_true_iff. rewrite !Z.ltb_lt. unfold swrap. rewrite !Z.leb_gt in Hv.
    destruct (Z_lt_le_dec v 128).
    + rewrite Z.mod_small by lia. lia.
    + replace (v + 2 ^ (8 - 1)) with (v - 128 + 1 * 2 ^ 8) by lia. rewrite Z_mod_plus_full.
      rewrite Z.mod_small by lia. lia.
  - unfold get_state, do_get_state. repeat case_if; done.
Qed.
End State.

(** The two theorems on the GRUB back end, whose environment has one variable. *)
Definition sample_env : option string := grub_block ["bootpart=2"].

Lemma sample_env_ok : grub_env_ok sample_env.
Proof.
  eexists. split; [vm_compute; reflexivity|]. split.
  - apply (bool_decide_unpack _). vm_compute. reflexivity.
  - repeat constructor.
Qed.

Lemma save_get_state_witness :
  get_state (grub true) "ustate" (0, ACK, 0) false
    (save_state (grub true) "ustate" (fun _ => (0, ACK)) false STATE_INSTALLED sample_env).2 =
    STATE_INSTALLED /\
  env_get (grub true) "bootpart"
    (save_state (grub true) "ustate" (fun _ => (0, ACK)) false STATE_INSTALLED sample_env).2 =
    Some "2".
Proof.
  assert (forall p : Z * option string, p.1 = 0 -> p = (0, p.2)) as D by (intros [? ?]; simpl; congruence).
  destruct (@save_get_state _ (grub true) "ustate" (fun _ => (0, ACK)) (0, ACK, 0)
    (grub_env_store true) STATE_INSTALLED sample_env _ sample_env_ok eq_refl eq_refl eq_refl
    (D (save_state (grub true) "ustate" (fun _ => (0, ACK)) false STATE_INSTALLED sample_env)
       ltac:(vm_compute; reflexivity))) as (H1 & _ & H2).
  split; [exact H1|]. rewrite (H2 "bootpart" ltac:(discriminate)). vm_compute. reflexivity.
Defined.
