(* ===== verification/Vars.v ===== *)
(** * SWUpdate's persistent variables: [core/swupdate_vars.c]

    The variables are kept by libubootenv in a namespace of its configuration; a
    child process asks the core process for them. *)
From S2P Require Import Prelude CString Bootloader State.
Import Uboot.

Section Vars.
(** libubootenv: [find_namespace] is [libuboot_get_namespace], NULL for an unknown one. *)
Context {Ctx D : Type} (lib : @libuboot Ctx D).
Variable find_namespace : Ctx -> string -> option Ctx.
(** [ipc_send_cmd] with [GET_SWUPDATE_VARS], [SET_SWUPDATE_VARS]: its result and the
    answer. *)
Variable ipc_get_vars : string -> string -> Z * msgtype * string.
Variable ipc_set_vars : string -> string -> string -> Z * msgtype.
(** [sizeof (msg.data.vars.varname)] and of its neighbours. *)
Variable VAR_SIZE : Z.

(** [namespace_default] is NULL until it is set; an empty or NULL namespace stands for
    the default one. *)
Definition choose_namespace (namespace_default namespace : option string) : option string :=
  match namespace with
  | Some ns => if strlen ns =? 0 then namespace_default else Some ns
  | None => namespace_default
  end.

Definition swupdate_vars_initialize (namespace_default namespace : option string) (d : D)
  : Z * option Ctx :=
  match choose_namespace namespace_default namespace with
  | None => (- EINVAL, None)
  | Some ns =>
      let '(ret, ctx) := read_config_ext lib d in
      if negb (ret =? 0) then (- EINVAL, None)
      else
        match find_namespace ctx ns with
        | None => (- EINVAL, None)
        | Some ctx => (0, Some (open lib ctx d).2)
        end
  end.

Section WithDefault.
Variable namespace_default : option string.

(** [__swupdate_vars_get] and [__swupdate_vars_set]. *)
Definition swupdate_vars_get_ (name : string) (namespace : option string) (d : D) : option string :=
  match swupdate_vars_initialize namespace_default namespace d with
  | (_, Some ctx) => get_env lib ctx name
  | (_, None) => None
  end.

Definition swupdate_vars_set_ (name : string) (value namespace : option string) (d : D) : Z * D :=
  match swupdate_vars_initialize namespace_default namespace d with
  | (_, Some ctx) => env_store lib (set_env lib ctx name value).2 d
  | (ret, None) => (ret, d)
  end.

Definition ipc_field (s : option string) : string := strlcpy (default "" s) VAR_SIZE.

Definition swupdate_vars_get (child : bool) (name namespace : option string) (d : D) : option string :=
  match name with
  | None => None
  | Some name =>
      if child then
        let '(ret, t, value) := ipc_get_vars (ipc_field namespace) (ipc_field (Some name)) in
        if negb (ret =? 0) || is_nack t then None else Some value
      else swupdate_vars_get_ name namespace d
  end.

Definition swupdate_vars_set (child : bool) (name value namespace : option string) (d : D) : Z * D :=
  match name with
  | None => (- EINVAL, d)
  | Some name =>
      if child then
        let '(ret, t) :=
          ipc_set_vars (ipc_field namespace) (ipc_field (Some name)) (ipc_field value) in
        ((if (ret =? 0) && is_ack t then 0 else 1), d)
      else swupdate_vars_set_ name value namespace d
  end.

Definition swupdate_vars_unset (child : bool) (name namespace : option string) (d : D) : Z * D :=
  swupdate_vars_set child name None namespace d.

(** [filename] is the content of the file. *)
Definition swupdate_vars_apply_list (child : bool) (filename namespace : option string) (d : D)
  : Z * D :=
  if child then (- EINVAL, d)
  else
    match swupdate_vars_initialize namespace_default namespace d with
    | (_, Some ctx) => env_store lib (load_file lib ctx filename).2 d
    | (ret, None) => (ret, d)
    end.
End WithDefault.

(** What libubootenv promises for a namespace: a variable that was stored is read back, the others
    are as they were. *)
Class VarsStore := vars_store_read :
  forall namespace_default namespace d ctx name value d',
    swupdate_vars_initialize namespace_default namespace d = (0, Some ctx) ->
    env_store lib (set_env lib ctx name (Some value)).2 d = (0, d') ->
    exists ctx', swupdate_vars_initialize namespace_default namespace d' = (0, Some ctx') /\
      forall m, get_env lib ctx' m = if decide (m = name) then Some value else get_env lib ctx m.

(** The old default is freed; [mem]: [strdup] succeeds. *)
Definition swupdate_set_default_namespace (mem : bool) (namespace : string)
  : bool * option string :=
  (mem, if mem then Some namespace else None).
End Vars.
