(* ===== verification/Crypto.v ===== *)
(** * Crypto providers: [core/crypto.c], [crypto/swupdate_HASH_openssl.c]

    SWUpdate calls the crypto libraries through tables of functions; one provider
    per kind (decryption, hash, signature) is current. The libraries themselves
    are parameters: [HashSpec] and [DecryptSpec] state what they document. *)
From S2P Require Import Prelude CString.

(** A buffer. *)
Abbreviation bytes := (list ascii).

(** ** The registry *)

Section Registry.
Context {L : Type}.

(** One row of [available], [num_available] and [current]. *)
Record lib_table := mk_lib_table {
  libs : list (string * option L);
  cur_lib : option nat;
}.

Definition register_lib (mem : bool) (name : string) (lib : option L) (t : lib_table)
  : Z * lib_table :=
  if mem then (0, mk_lib_table (libs t ++ [(name, lib)]) (Some 0%nat)) else (- ENOMEM, t).

Fixpoint find_lib (name : string) (i : nat) (l : list (string * option L)) : option nat :=
  match l with
  | [] => None
  | (n, Some _) :: l => if strcmp n name =? 0 then Some i else find_lib name (S i) l
  | (_, None) :: l => find_lib name (S i) l
  end.

Definition setlib (name : option string) (t : lib_table) : Z * lib_table :=
  match name with
  | None => (- ENOENT, t)
  | Some name =>
      match find_lib name 0 (libs t) with
      | Some i => (0, mk_lib_table (libs t) (Some i))
      | None => (- ENOENT, t)
      end
  end.

Definition getlib (t : lib_table) : option string :=
  i ← cur_lib t; fst <$> libs t !! i.

Definition current_lib (t : lib_table) : option L :=
  i ← cur_lib t; libs t !! i ≫= snd.
End Registry.
Arguments lib_table : clear implicits.

(** ** Hash providers *)

(** [swupdate_HASH_lib]; an error of [HASH_update] or [HASH_final] is [None]. *)
Record hash_lib (C : Type) := mk_hash_lib {
  HASH_init : option C;
  HASH_update : C -> bytes -> option C;
  HASH_final : C -> option bytes;
  HASH_compare : bytes -> bytes -> Z;
}.
Arguments mk_hash_lib {C}.
Arguments HASH_init {C}.
Arguments HASH_update {C}.
Arguments HASH_final {C}.
Arguments HASH_compare {C}.

(** The wrappers [swupdate_HASH_*]: every call fails when there is no provider. *)
Definition swupdate_HASH {C} (t : lib_table (hash_lib C)) : hash_lib C :=
  match current_lib t with
  | Some lib => lib
  | None => mk_hash_lib None (fun _ _ => None) (fun _ => None) (fun _ _ => - EFAULT)
  end.

(** The loop of [openssl_HASH_compare] over the first [n] bytes. *)
Fixpoint hash_compare_bytes (n : nat) (h1 h2 : bytes) : Z :=
  match n, h1, h2 with
  | S n, a :: h1, b :: h2 => if Ascii.eqb a b then hash_compare_bytes n h1 h2 else -1
  | _, _, _ => 0
  end.

Definition openssl_HASH_compare (hash1 hash2 : bytes) : Z :=
  hash_compare_bytes SHA256_HASH_LENGTH hash1 hash2.

(** What a hash library documents: the digest is a function of the concatenation
    of the data given to [HASH_update], 32 bytes long for SHA-256, and two
    digests compare equal when their 32 bytes agree. *)
Class HashSpec {C} (lib : hash_lib C) := {
  sha : bytes -> bytes;
  hash_rep : C -> bytes -> Prop;
  hash_init_rep : forall c, HASH_init lib = Some c -> hash_rep c [];
  hash_update_rep : forall c c' a b,
    hash_rep c a -> HASH_update lib c b = Some c' -> hash_rep c' (a ++ b);
  hash_final_rep : forall c a md,
    hash_rep c a -> HASH_final lib c = Some md -> md = sha a;
  hash_compare_zero : forall h1 h2,
    length h1 = SHA256_HASH_LENGTH -> length h2 = SHA256_HASH_LENGTH ->
    (HASH_compare lib h1 h2 = 0 <-> h1 = h2);
}.

Lemma hash_compare_bytes_spec n h1 h2 :
  length h1 = n -> length h2 = n -> (hash_compare_bytes n h1 h2 = 0 <-> h1 = h2).
Proof.
  revert h1 h2. induction n as [|n IH]; intros [|a h1] [|b h2]; try done.
  intros [= H1] [= H2]. cbn [hash_compare_bytes].
  destruct (Ascii.eqb_spec a b) as [->|Hne].
  - rewrite IH by done. split; [by intros ->|by intros [= ->]].
  - split; [done|]. by intros [= -> _].
Qed.

(** ** Decryption providers *)

(** [swupdate_decrypt_lib]: [DECRYPT_update] and [DECRYPT_final] return a code and store
    the plaintext available so far; [- EAGAIN] says that more can follow. *)
Record decrypt_lib (C : Type) := mk_decrypt_lib {
  DECRYPT_init : option bytes -> Z -> option bytes -> Z -> option C;
  DECRYPT_update : C -> bytes -> Z * bytes * C;
  DECRYPT_final : C -> Z * bytes * C;
}.
Arguments mk_decrypt_lib {C}.
Arguments DECRYPT_init {C}.
Arguments DECRYPT_update {C}.
Arguments DECRYPT_final {C}.

Definition swupdate_DECRYPT {C} (t : lib_table (decrypt_lib C)) : decrypt_lib C :=
  match current_lib t with
  | Some lib => lib
  | None => mk_decrypt_lib (fun _ _ _ _ => None) (fun c _ => (- EINVAL, [], c))
              (fun c => (- EINVAL, [], c))
  end.

(** What a decryption library documents: the outputs of the [DECRYPT_update] calls
    and of the [DECRYPT_final] calls, concatenated, are the plaintext of the
    concatenated inputs. [dec_rep c0 c a o]: from context [c0], the input [a] has led to
    context [c] and output [o]. *)
Class DecryptSpec {C} (lib : decrypt_lib C) := {
  plain : C -> bytes -> bytes -> Prop;
  dec_rep : C -> C -> bytes -> bytes -> Prop;
  dec_init_rep : forall c, dec_rep c c [] [];
  dec_update_rep : forall c0 c c' a o b p ret,
    dec_rep c0 c a o -> DECRYPT_update lib c b = (ret, p, c') -> 0 <= ret \/ ret = - EAGAIN ->
    dec_rep c0 c' (a ++ b) (o ++ p);
  dec_final_again : forall c0 c c' a o p ret,
    dec_rep c0 c a o -> DECRYPT_final lib c = (ret, p, c') -> 0 < ret \/ ret = - EAGAIN ->
    dec_rep c0 c' a (o ++ p);
  dec_final_rep : forall c0 c c' a o p,
    dec_rep c0 c a o -> DECRYPT_final lib c = (0, p, c') -> plain c0 a (o ++ p);
}.

(** A library that answers every non-empty input with some plaintext and ends with 0 or
    an error. *)
Record never_stalls {C} (lib : decrypt_lib C) : Prop := {
  update_gives : forall c b ret p c',
    DECRYPT_update lib c b = (ret, p, c') -> b <> [] -> 0 <= ret -> p <> [];
  final_code : forall c, (DECRYPT_final lib c).1.1 <= 0;
}.

(** The provider that a process ends up with: the first one registered, until
    [setlib] selects another. *)
Lemma find_lib_some {L} name i (l : list (string * option L)) k :
  find_lib name i l = Some k ->
  exists j lib, k = (i + j)%nat /\ l !! j = Some (name, Some lib).
Proof.
  revert i. induction l as [|[n [lib|]] l IH]; intros i; cbn [find_lib]; [done| |].
  - destruct (Z.eqb_spec (strcmp n name) 0) as [E|E].
    + intros [= <-]. apply strcmp_zero in E as ->. exists 0%nat, lib. split; [lia|done].
    + intros (j & lib' & -> & H)%IH. exists (S j), lib'. split; [lia|done].
  - intros (j & lib' & -> & H)%IH. exists (S j), lib'. split; [lia|done].
Qed.
