(* ===== verification/Cpio.v ===== *)
(** * Reading the cpio archive: [core/cpio_utils.c], [include/cpiohdr.h]

    The SWU file is a cpio archive read from a file descriptor. What a descriptor
    will deliver is a list of events, one per [read]: data of at least one byte
    (a larger block than asked for is delivered in parts), an interruption or an
    error; the end of the list is the end of the file. *)
From S2P Require Import Prelude CString Util Crypto.

Inductive rd_event :=
  | RdData (b : ascii) (bs : bytes)
  | RdIntr
  | RdErr.

Abbreviation fd := (list rd_event).

(** The bytes that can be read before the end of the file or an error. *)
Fixpoint content (f : fd) : bytes :=
  match f with
  | [] => []
  | RdData b bs :: f => b :: bs ++ content f
  | RdIntr :: f => content f
  | RdErr :: _ => []
  end.

(** No error ahead. *)
Fixpoint healthy (f : fd) : Prop :=
  match f with
  | [] => True
  | RdErr :: _ => False
  | _ :: f => healthy f
  end.

(** A block as one event. *)
Definition rd_block (bs : bytes) : fd :=
  match bs with [] => [] | b :: bs => [RdData b bs] end.

(** ** [_fill_buffer] *)

Definition checksum_of (c : Z) (bs : bytes) : Z := foldl (fun c b => u32 (c + byte_of b)) c bs.

Section Fill.
Context {C : Type} (hl : hash_lib C).

(** The variables of [_fill_buffer] besides the descriptor; [checksum] and [dgst] may
    be NULL. *)
Record fill_state := mk_fill {
  fill_buf : bytes;
  fill_offs : Z;
  fill_checksum : option Z;
  fill_dgst : option C;
}.

(** One non-empty block read; [None] if the digest cannot be updated. *)
Definition fill_chunk (chunk : bytes) (s : fill_state) : fill_state * bool :=
  let cks := (fun c => checksum_of c chunk) <$> fill_checksum s in
  let next d := mk_fill (fill_buf s ++ chunk) (u64 (fill_offs s + Z.of_nat (length chunk))) cks d in
  match fill_dgst s with
  | None => (next None, true)
  | Some d =>
      match HASH_update hl d chunk with
      | Some d' => (next (Some d'), true)
      | None => (mk_fill (fill_buf s) (fill_offs s) cks (Some d), false)
      end
  end.

(** The [while (nbytes > 0)]: the result, the state and the descriptor. *)
Fixpoint fill_loop (f : fd) (nbytes : nat) (s : fill_state) : Z * fill_state * fd :=
  if (nbytes =? 0)%nat then (Z.of_nat (length (fill_buf s)), s, f)
  else
    match f with
    | [] => (Z.of_nat (length (fill_buf s)), s, [])
    | RdIntr :: f => fill_loop f nbytes s
    | RdErr :: f => (- EFAULT, s, f)
    | RdData b bs :: f =>
        let '(s', ok) := fill_chunk (take nbytes (b :: bs)) s in
        if negb ok then (- EFAULT, s', rd_block (drop nbytes (b :: bs)) ++ f)
        else if (length (b :: bs) <=? nbytes)%nat then
          fill_loop f (nbytes - length (b :: bs)) s'
        else (Z.of_nat (length (fill_buf s')), s', rd_block (drop nbytes (b :: bs)) ++ f)
    end.

Definition fill_buffer_ (f : fd) (nbytes : nat) (offs : Z) (checksum : option Z) (dgst : option C)
  : Z * fill_state * fd :=
  fill_loop f nbytes (mk_fill [] offs checksum dgst).

Definition fill_buffer (f : fd) (nbytes : nat) : Z * bytes * fd :=
  let '(ret, s, f) := fill_buffer_ f nbytes 0 None None in (ret, fill_buf s, f).

(** ** Headers *)

Definition CPIO_NEWASCII : Z := 29121.  (* 070701 *)
Definition CPIO_CRCASCII : Z := 29122.  (* 070702 *)

Definition NPAD_BYTES (o : Z) : Z := (4 - o mod 4) mod 4.

Record filehdr := mk_filehdr {
  format : Z;
  fsize : Z;
  namesize : Z;
  chksum : Z;
  filename : string;
}.

Definition FILENAME_SIZE : nat := 256.

(** [sizeof (struct new_ascii_header)] and the offsets of its fields. *)
Definition HDR_SIZE : nat := 110.
Definition OFF_FILESIZE : nat := 54.
Definition OFF_NAMESIZE : nat := 94.
Definition OFF_CHKSUM : nat := 102.

Definition FROM_HEX (buf : bytes) (off : nat) : Z := from_ascii (drop off buf) 8 LG_16.

Definition magic_is (buf : bytes) (m : string) : bool :=
  bool_decide (take 6 buf = String.list_ascii_of_string m).

(** The format is stored before the sizes are read. *)
Definition get_cpiohdr (buf : bytes) (fhdr : filehdr) : Z * filehdr :=
  let parsed fmt :=
    (0, mk_filehdr fmt (FROM_HEX buf OFF_FILESIZE) (FROM_HEX buf OFF_NAMESIZE)
          (FROM_HEX buf OFF_CHKSUM) (filename fhdr)) in
  if magic_is buf "070701" then parsed CPIO_NEWASCII
  else if magic_is buf "070702" then parsed CPIO_CRCASCII
  else (- EINVAL, fhdr).

(** Writing [bs] at the start of a buffer. *)
Definition overlay (bs buf : bytes) : bytes := bs ++ drop (length bs) buf.

(** The C string at the start of a buffer. *)
Fixpoint cstring (buf : bytes) : string :=
  match buf with
  | [] => ""
  | b :: buf => if is_nul b then "" else String b (cstring buf)
  end.

(** [buf] is the local buffer with what the stack held; the result, the header, the
    descriptor and the offset. *)
Definition extract_cpio_header (buf : bytes) (f : fd) (fhdr : filehdr) (offset : Z)
  : Z * filehdr * fd * Z :=
  let '(ret, s, f) := fill_buffer_ f HDR_SIZE offset None None in
  let offset := fill_offs s in
  let buf := overlay (fill_buf s) buf in
  if ret <? 0 then (- EINVAL, fhdr, f, offset)
  else
    let '(ret, fhdr) := get_cpiohdr buf fhdr in
    if ret <? 0 then (- EINVAL, fhdr, f, offset)
    else if namesize fhdr >=? Z.of_nat FILENAME_SIZE then (- EINVAL, fhdr, f, offset)
    else
      let '(ret, s, f) := fill_buffer_ f (Z.to_nat (namesize fhdr)) offset None None in
      let offset := fill_offs s in
      let buf := overlay (fill_buf s) buf in
      if ret <? 0 then (- EINVAL, fhdr, f, offset)
      else
        let buf := <[Z.to_nat (namesize fhdr) := NUL]> buf in
        let fhdr := mk_filehdr (format fhdr) (fsize fhdr) (namesize fhdr) (chksum fhdr)
                      (strlcpy (cstring buf) (Z.of_nat FILENAME_SIZE)) in
        let '(ret, s, f) := fill_buffer_ f (Z.to_nat (NPAD_BYTES offset)) offset None None in
        if ret <? 0 then (- EINVAL, fhdr, f, fill_offs s)
        else (0, fhdr, f, fill_offs s).

Definition swupdate_verify_chksum (chk1 : Z) (fhdr : filehdr) : bool :=
  if format fhdr =? CPIO_NEWASCII then true else chk1 =? chksum fhdr.

(** [seek offset] is the descriptor after [lseek], [None] if it fails. *)
Definition extract_img_from_cpio (seek : Z -> option fd) (buf : bytes) (offset : Z) (fdh : filehdr)
  : Z * filehdr :=
  match seek offset with
  | None => (- EBADF, fdh)
  | Some f =>
      let '(ret, fdh, _, offset) := extract_cpio_header buf f fdh offset in
      if negb (ret =? 0) then (-1, fdh)
      else match seek offset with
           | None => (-1, fdh)
           | Some _ => (0, fdh)
           end
  end.

(** * Properties *)

(** ** What [_fill_buffer] reads *)

(** [got] was read from [f], whatever the sizes of the reads: at most [n] bytes, fewer
    only at the end of the file. *)
Record fill_done (f : fd) (n : nat) (s s' : fill_state) (f' : fd) (got : bytes) : Prop := {
  done_split : content f = got ++ content f';
  done_full : length got = n \/ ((length got < n)%nat /\ f' = []);
  done_buf : fill_buf s' = fill_buf s ++ got;
  done_offs : 0 <= fill_offs s < 2 ^ 64 ->
    fill_offs s' = u64 (fill_offs s + Z.of_nat (length got)) /\ 0 <= fill_offs s' < 2 ^ 64;
  done_checksum : fill_checksum s' = (fun c => checksum_of c got) <$> fill_checksum s;
  done_dgst : forall `{!HashSpec hl} a d, fill_dgst s = Some d -> hash_rep d a ->
    exists d', fill_dgst s' = Some d' /\ hash_rep d' (a ++ got);
  done_no_dgst : fill_dgst s = None -> fill_dgst s' = None;
  done_healthy : healthy f -> healthy f';
}.

Lemma rd_block_content bs f : content (rd_block bs ++ f) = bs ++ content f.
Proof. by destruct bs. Qed.

Lemma rd_block_healthy bs f : healthy f -> healthy (rd_block bs ++ f).
Proof. by destruct bs. Qed.

Lemma fill_done_nil f n s : (n = 0%nat \/ f = []) -> fill_done f n s s f [].
Proof.
  intros H. split; try done.
  - destruct H as [->| ->]; [by left|]. destruct n; [by left|right]. simpl. split; [lia|done].
  - by rewrite app_nil_r.
  - intros Ho. rewrite Z.add_0_r, wrap_small by lia. done.
  - by destruct (fill_checksum s).
  - intros HS a d Hd Hr. exists d. by rewrite app_nil_r.
Qed.

Lemma fill_chunk_done chunk s s' f :
  fill_chunk chunk s = (s', true) -> forall f0, content f0 = chunk ++ content f ->
  (healthy f0 -> healthy f) -> fill_done f0 (length chunk) s s' f chunk.
Proof.
  unfold fill_chunk. intros E f0 Hc Hh.
  assert (exists d, s' = mk_fill (fill_buf s ++ chunk) (u64 (fill_offs s + Z.of_nat (length chunk)))
    ((fun c => checksum_of c chunk) <$> fill_checksum s) d /\
    match fill_dgst s with
    | None => d = None
    | Some d0 => exists d1, HASH_update hl d0 chunk = Some d1 /\ d = Some d1
    end) as (d & -> & Hd).
  { destruct (fill_dgst s) as [d|]; [destruct (HASH_update hl d chunk) as [d'|]|]; try done;
      injection E as <-; eauto. }
  split; cbn [fill_buf fill_offs fill_checksum fill_dgst]; try done.
  - by left.
  - intros _. split; [done|apply wrap_range; lia].
  - intros HS a d0 E0 Hr. rewrite E0 in Hd. destruct Hd as (d1 & Hu & ->).
    exists d1. split; [done|]. by eapply hash_update_rep.
  - intros E0. by rewrite E0 in Hd.
Qed.

Lemma fill_done_trans f n s f1 s1 got1 m f2 s2 got2 :
  fill_done f n s s1 f1 got1 -> length got1 = n ->
  fill_done f1 m s1 s2 f2 got2 -> fill_done f (n + m) s s2 f2 (got1 ++ got2).
Proof.
  intros [] Hn []. split.
  - rewrite done_split0, done_split1. by rewrite app_assoc.
  - rewrite length_app. destruct done_full1 as [|[? ?]]; [left|right]; lia || (split; [lia|done]).
  - by rewrite done_buf1, done_buf0, app_assoc.
  - intros Ho. destruct (done_offs0 Ho) as [E1 R1]. destruct (done_offs1 R1) as [E2 R2].
    split; [|done]. rewrite E2, E1, length_app, Nat2Z.inj_add. unfold wrap.
    rewrite Zplus_mod_idemp_l. f_equal. lia.
  - rewrite done_checksum1, done_checksum0. unfold checksum_of.
    destruct (fill_checksum s); cbn; [|done]. by rewrite foldl_app.
  - intros HS a d Hd Hr. destruct (done_dgst0 HS a d Hd Hr) as (d1 & Hd1 & Hr1).
    destruct (done_dgst1 HS _ d1 Hd1 Hr1) as (d2 & Hd2 & Hr2). exists d2. by rewrite app_assoc.
  - auto.
  - auto.
Qed.

Lemma fill_loop_spec f n s ret s' f' :
  fill_loop f n s = (ret, s', f') -> 0 <= ret ->
  exists got, ret = Z.of_nat (length (fill_buf s')) /\ fill_done f n s s' f' got.
Proof.
  revert n s. induction f as [|ev f IH]; intros n s E Hret; cbn [fill_loop] in E;
    (destruct (Nat.eqb_spec n 0) as [->|Hn];
      [injection E as <- <- <-; exists []; split; [done|apply fill_done_nil; by left]|]).
  - injection E as <- <- <-. exists []. split; [done|]. apply fill_done_nil. by right.
  - destruct ev as [b bs| |].
    + destruct (fill_chunk (take n (b :: bs)) s) as [s1 ok] eqn:Ec. destruct ok; cbn [negb] in E.
      2: { injection E as <- <- <-. unfold EFAULT in Hret. lia. }
      destruct (Nat.leb_spec (length (b :: bs)) n) as [Hl|Hl].
      * destruct (IH _ _ E Hret) as (got & Eret & Hdone). rewrite take_ge in Ec by done.
        exists ((b :: bs) ++ got). split; [done|].
        replace n with (length (b :: bs) + (n - length (b :: bs)))%nat by lia.
        eapply fill_done_trans; [|done|exact Hdone].
        by apply (fill_chunk_done _ _ _ _ Ec).
      * injection E as <- <- <-. exists (take n (b :: bs)). split; [done|].
        assert (length (take n (b :: bs)) = n) as Et by (rewrite length_take; lia).
        rewrite <- Et at 1. apply (fill_chunk_done _ _ _ _ Ec).
        -- rewrite rd_block_content, app_assoc, take_drop. done.
        -- intros Hh. by apply rd_block_healthy.
    + destruct (IH _ _ E Hret) as (got & Eret & []). exists got. split; [done|]. by split.
    + injection E as <- <- <-. unfold EFAULT in Hret. lia.
Qed.

Lemma fill_loop_neg f n s ret s' f' :
  fill_loop f n s = (ret, s', f') -> ret < 0 -> ret = - EFAULT.
Proof.
  revert n s. induction f as [|ev f IH]; intros n s E Hret; cbn [fill_loop] in E;
    (destruct (Nat.eqb_spec n 0); [injection E; lia|]).
  - injection E; lia.
  - destruct ev as [b bs| |]; [|by eapply IH|by injection E as <- _ _].
    destruct (fill_chunk _ s) as [s1 ok]. destruct ok; cbn [negb] in E; [|by injection E as <- _ _].
    destruct (length (b :: bs) <=? n)%nat; [by eapply IH|]. injection E; lia.
Qed.

Lemma fill_loop_total f n s :
  healthy f -> fill_dgst s = None -> 0 <= (fill_loop f n s).1.1.
Proof.
  revert n s. induction f as [|ev f IH]; intros n s Hf Hs; cbn [fill_loop];
    destruct (Nat.eqb_spec n 0); try (cbn; lia).
  destruct ev as [b bs| |]; [|by apply IH|done].
  unfold fill_chunk. rewrite Hs. cbn [negb].
  destruct (Nat.leb_spec (length (b :: bs)) n); [by apply IH|cbn; lia].
Qed.

(** Reading [a], the next [length a] bytes. *)
Lemma fill_buffer_exact f a rest offs :
  healthy f -> content f = a ++ rest -> 0 <= offs -> offs + Z.of_nat (length a) < 2 ^ 64 ->
  exists f', fill_buffer_ f (length a) offs None None =
      (Z.of_nat (length a), mk_fill a (offs + Z.of_nat (length a)) None None, f') /\
    (Z.of_nat (length a) <? 0) = false /\ content f' = rest /\ healthy f'.
Proof.
  intros Hf Hc Ho Hb. unfold fill_buffer_.
  pose proof (fill_loop_total f (length a) (mk_fill [] offs None None) Hf eq_refl) as Ht.
  destruct (fill_loop f (length a) (mk_fill [] offs None None)) as [[ret s'] f'] eqn:E.
  destruct (fill_loop_spec _ _ _ _ _ _ E Ht) as (got & -> & []). cbn in *.
  assert (got = a /\ content f' = rest) as [-> Hr].
  { rewrite done_split0 in Hc. destruct done_full0 as [Hl|[Hl ->]].
    - by apply app_inj_1 in Hc.
    - cbn in Hc. rewrite app_nil_r in Hc. subst got. rewrite length_app in Hl. lia. }
  exists f'. split_and!; [|by apply Z.ltb_ge; lia|done|auto].
  destruct (done_offs0 ltac:(lia)) as [Eo _]. rewrite wrap_small in Eo by lia.
  destruct s' as [b o c d]. cbn in *. rewrite done_no_dgst0 by done. by subst.
Qed.

(** ** Headers *)

(** Eight hexadecimal digits. *)
Definition hex8 (v : Z) : bytes :=
  (fun k => digit_char (v / 16 ^ k mod 16)) <$> [7; 6; 5; 4; 3; 2; 1; 0].

Lemma hex8_value (q m : Z -> Z) v :
  (forall k, 0 <= k -> q k = 16 * q (k + 1) + m k) -> q 8 = 0 -> q 0 = v ->
  hex_value 0 (m <$> [7; 6; 5; 4; 3; 2; 1; 0]) = v.
Proof.
  intros D H8 <-. cbn [fmap list_fmap hex_value foldl].
  pose proof (D 0 ltac:(lia) : q 0 = 16 * q 1 + m 0).
  pose proof (D 1 ltac:(lia) : q 1 = 16 * q 2 + m 1).
  pose proof (D 2 ltac:(lia) : q 2 = 16 * q 3 + m 2).
  pose proof (D 3 ltac:(lia) : q 3 = 16 * q 4 + m 3).
  pose proof (D 4 ltac:(lia) : q 4 = 16 * q 5 + m 4).
  pose proof (D 5 ltac:(lia) : q 5 = 16 * q 6 + m 5).
  pose proof (D 6 ltac:(lia) : q 6 = 16 * q 7 + m 6).
  pose proof (D 7 ltac:(lia) : q 7 = 16 * q 8 + m 7).
  lia.
Qed.

Lemma hex8_read v rest : 0 <= v < 2 ^ 32 -> from_ascii (hex8 v ++ rest) 8 LG_16 = v.
Proof.
  intros Hv. change 8%nat with (length (hex8 v)).
  rewrite (from_ascii_hex _ ((fun k => v / 16 ^ k mod 16) <$> [7; 6; 5; 4; 3; 2; 1; 0])).
  - apply (hex8_value (fun k => v / 16 ^ k) (fun k => v / 16 ^ k mod 16)).
    + intros k Hk. assert (0 < 16 ^ k) by (apply Z.pow_pos_nonneg; lia).
      rewrite Z.pow_add_r, Z.pow_1_r, <- Z.div_div by lia. apply Z.div_mod. lia.
    + apply Z.div_small. change (16 ^ 8) with (2 ^ 32). lia.
    + apply Z.div_1_r.
  - unfold hex8. apply Forall2_fmap, Forall_Forall2_diag, Forall_forall. intros k _.
    apply hex_code_digit_char. apply Z.mod_pos_bound. lia.
  - unfold hex8. rewrite length_fmap. cbn. lia.
Qed.

(** The header of an entry; [pre] and [mid] are the fields that SWUpdate ignores. *)
Definition cpio_header (magic : string) (pre mid : bytes) (size nsize cks : Z) : bytes :=
  String.list_ascii_of_string magic ++ pre ++ hex8 size ++ mid ++ hex8 nsize ++ hex8 cks.

Definition magic_format (magic : string) : option Z :=
  if String.eqb magic "070701" then Some CPIO_NEWASCII
  else if String.eqb magic "070702" then Some CPIO_CRCASCII else None.

Lemma drop_prefix {A} n (x y : list A) : length x = n -> drop n (x ++ y) = y.
Proof. intros <-. apply drop_app_length. Qed.

(** The three fields at their offsets. *)
Lemma cpio_header_fields magic pre mid size nsize cks tail :
  length (String.list_ascii_of_string magic) = 6%nat -> length pre = 48%nat -> length mid = 32%nat ->
  let h := cpio_header magic pre mid size nsize cks ++ tail in
  drop OFF_FILESIZE h = hex8 size ++ mid ++ hex8 nsize ++ hex8 cks ++ tail /\
  drop OFF_NAMESIZE h = hex8 nsize ++ hex8 cks ++ tail /\
  drop OFF_CHKSUM h = hex8 cks ++ tail /\
  take 6 h = String.list_ascii_of_string magic.
Proof.
  intros Hm Hp Hd. unfold cpio_header. cbn zeta. rewrite <- !app_assoc.
  set (m := String.list_ascii_of_string magic) in *. split_and!.
  - rewrite (app_assoc m). apply drop_prefix. by rewrite length_app, Hm, Hp.
  - rewrite (app_assoc m), (app_assoc (m ++ pre)), (app_assoc _ mid). apply drop_prefix.
    by rewrite !length_app, Hm, Hp, Hd.
  - rewrite (app_assoc m), (app_assoc (m ++ pre)), (app_assoc _ mid), (app_assoc _ (hex8 nsize)).
    apply drop_prefix. by rewrite !length_app, Hm, Hp, Hd.
  - rewrite <- Hm. apply take_app_length.
Qed.

Lemma magic_length magic fmt :
  magic_format magic = Some fmt -> length (String.list_ascii_of_string magic) = 6%nat.
Proof.
  unfold magic_format. destruct (String.eqb_spec magic "070701") as [->|]; [done|].
  by destruct (String.eqb_spec magic "070702") as [->|].
Qed.

Lemma get_cpiohdr_header magic fmt pre mid size nsize cks tail fhdr :
  magic_format magic = Some fmt -> length pre = 48%nat -> length mid = 32%nat ->
  0 <= size < 2 ^ 32 -> 0 <= nsize < 2 ^ 32 -> 0 <= cks < 2 ^ 32 ->
  get_cpiohdr (cpio_header magic pre mid size nsize cks ++ tail) fhdr =
  (0, mk_filehdr fmt size nsize cks (filename fhdr)).
Proof.
  intros Hm Hp Hd Hs Hn Hc.
  pose proof (magic_length _ _ Hm) as Hl.
  destruct (cpio_header_fields magic pre mid size nsize cks tail Hl Hp Hd) as (E1 & E2 & E3 & E4).
  unfold get_cpiohdr, FROM_HEX, magic_is. rewrite E1, E2, E3, E4, !hex8_read by done.
  unfold magic_format in Hm.
  destruct (String.eqb_spec magic "070701") as [->|]; [by injection Hm as <-|].
  destruct (String.eqb_spec magic "070702") as [->|]; [by injection Hm as <-|done].
Qed.

Lemma cstring_name name t :
  str_forall (fun c => negb (is_nul c)) name = true ->
  cstring (String.list_ascii_of_string name ++ NUL :: t) = name.
Proof.
  induction name as [|c name IH]; intros H; [done|].
  cbn [str_forall String.list_ascii_of_string app cstring] in *.
  apply andb_true_iff in H as [Hc H]. apply negb_true_iff in Hc as ->. by rewrite IH.
Qed.

Lemma NPAD_range o : 0 <= NPAD_BYTES o < 4.
Proof. unfold NPAD_BYTES. Z.to_euclidean_division_equations. lia. Qed.

Lemma NPAD_aligned o : (o + NPAD_BYTES o) mod 4 = 0.
Proof. unfold NPAD_BYTES. Z.to_euclidean_division_equations. lia. Qed.

Lemma list_ascii_length s : length (String.list_ascii_of_string s) = String.length s.
Proof. induction s as [|c s IH]; [done|]. cbn. by rewrite IH. Qed.

(** An entry of the archive up to its data: header, name with its NUL, padding. *)
Record cpio_entry_ok (magic : string) (fmt : Z) (pre mid : bytes) (size cks : Z) (name : string)
    (pad : bytes) (offset : Z) : Prop := {
  entry_magic : magic_format magic = Some fmt;
  entry_pre : length pre = 48%nat;
  entry_mid : length mid = 32%nat;
  entry_size : 0 <= size < 2 ^ 32;
  entry_cks : 0 <= cks < 2 ^ 32;
  entry_name_fits : (String.length name + 1 < FILENAME_SIZE)%nat;
  entry_name_nul : str_forall (fun c => negb (is_nul c)) name = true;
  entry_offset : 0 <= offset < 2 ^ 63;
  entry_pad : Z.of_nat (length pad) =
    NPAD_BYTES (offset + Z.of_nat HDR_SIZE + strlen name + 1);
}.

Definition cpio_entry (magic : string) (pre mid : bytes) (size cks : Z) (name : string) (pad : bytes)
  : bytes :=
  cpio_header magic pre mid size (strlen name + 1) cks ++
  (String.list_ascii_of_string name ++ [NUL]) ++ pad.

Lemma cpio_header_read (magic : string) (fmt : Z) (pre mid : bytes) (size cks : Z)
    (name : string) (pad rest buf : bytes) (offset : Z) (f : fd) (fhdr : filehdr) :
  cpio_entry_ok magic fmt pre mid size cks name pad offset ->
  healthy f -> content f = cpio_entry magic pre mid size cks name pad ++ rest ->
  exists f' offset',
    extract_cpio_header buf f fhdr offset =
      (0, mk_filehdr fmt size (strlen name + 1) cks name, f', offset') /\
    content f' = rest /\ healthy f' /\ offset' mod 4 = 0 /\
    offset' = offset + Z.of_nat (length (cpio_entry magic pre mid size cks name pad)).
Proof.
  intros [Hm Hp Hd Hs Hc Hn Hz Ho Hpad] Hf Hcont.
  set (hdr := cpio_header magic pre mid size (strlen name + 1) cks).
  set (nm := String.list_ascii_of_string name ++ [NUL]).
  assert (length hdr = HDR_SIZE) as Lh
    by (unfold hdr, cpio_header; rewrite !length_app, Hp, Hd; by erewrite magic_length).
  assert (length nm = S (String.length name)) as Ln.
  { unfold nm. rewrite length_app, list_ascii_length. cbn. lia. }
  assert (strlen name = Z.of_nat (String.length name)) as Hsl by done.
  pose proof (NPAD_range (offset + Z.of_nat HDR_SIZE + strlen name + 1)) as Hnp.
  assert (Z.of_nat HDR_SIZE = 110) as H110 by done. unfold FILENAME_SIZE in Hn.
  unfold cpio_entry in Hcont. fold hdr nm in Hcont. rewrite <- !app_assoc in Hcont.
  unfold extract_cpio_header.
  destruct (fill_buffer_exact f hdr (nm ++ pad ++ rest) offset Hf Hcont) as (f1 & E1 & P1 & C1 & H1);
    [lia|lia|].
  rewrite Lh in E1, P1. rewrite E1, P1. cbn [fill_offs fill_buf].
  pose proof (get_cpiohdr_header magic fmt pre mid size (strlen name + 1) cks (drop (length hdr) buf)
    fhdr Hm Hp Hd Hs ltac:(lia) Hc) as G. fold hdr in G. unfold overlay at 1. rewrite G.
  cbn [Z.ltb Z.compare namesize format fsize chksum filename].
  destruct (Z.geb_spec (strlen name + 1) (Z.of_nat FILENAME_SIZE)); [unfold FILENAME_SIZE in *; lia|].
  replace (Z.to_nat (strlen name + 1)) with (length nm) by lia.
  destruct (fill_buffer_exact f1 nm (pad ++ rest) (offset + Z.of_nat HDR_SIZE) H1 C1)
    as (f2 & E2 & P2 & C2 & H2); [lia|lia|].
  rewrite E2, P2. cbn [fill_offs fill_buf].
  replace (offset + Z.of_nat HDR_SIZE + Z.of_nat (length nm)) with
    (offset + Z.of_nat HDR_SIZE + strlen name + 1) by lia.
  rewrite <- Hpad, Nat2Z.id.
  destruct (fill_buffer_exact f2 pad rest (offset + Z.of_nat HDR_SIZE + strlen name + 1) H2 C2)
    as (f3 & E3 & P3 & C3 & H3); [lia|lia|].
  rewrite E3, P3.
  exists f3. eexists. split_and!; [|done|done| |].
  - unfold overlay. rewrite insert_app_r_alt by lia. unfold nm. rewrite <- app_assoc.
    cbn [app]. rewrite cstring_name, strlcpy_fits by (done || (unfold FILENAME_SIZE; lia)).
    reflexivity.
  - cbn [fill_offs]. rewrite Hpad. apply NPAD_aligned.
  - cbn [fill_offs]. unfold cpio_entry. fold hdr nm. rewrite !length_app, Lh, Ln. lia.
Qed.

(** C39: [extract_cpio_header] reads back the header of an archive entry: whatever
    the sizes in which the descriptor delivers the bytes, whatever the stack held,
    the size, checksum, format and name are those of the entry, and the descriptor
    is left at the first byte of the data, at an offset that is a multiple of 4. *)
Theorem extract_cpio_header_entry (magic : string) (fmt : Z) (pre mid : bytes) (size cks : Z)
    (name : string) (pad rest buf : bytes) (offset : Z) (f : fd) (fhdr : filehdr) :
  cpio_entry_ok magic fmt pre mid size cks name pad offset ->
  healthy f -> content f = cpio_entry magic pre mid size cks name pad ++ rest ->
  exists f' offset',
    extract_cpio_header buf f fhdr offset =
      (0, mk_filehdr fmt size (strlen name + 1) cks name, f', offset') /\
    content f' = rest /\ healthy f' /\ offset' mod 4 = 0 /\
    offset' = offset + Z.of_nat (length (cpio_entry magic pre mid size cks name pad)).
Proof. apply cpio_header_read. Qed.

(** ** Hostile headers *)

Lemma from_ascii_loop_bound mem rem w :
  0 <= w -> (w + 1) * 16 ^ Z.of_nat rem <= 2 ^ 64 -> (0 < rem)%nat ->
  0 <= from_ascii_loop mem rem LG_16 (w * 16) < (w + 1) * 16 ^ Z.of_nat rem.
Proof.
  revert rem w. induction mem as [|c mem IH]; intros rem w Hw Hb Hr; cbn [from_ascii_loop].
  { assert (16 ^ 1 <= 16 ^ Z.of_nat rem) by (apply Z.pow_le_mono_r; lia). nia. }
  assert (16 ^ 1 <= 16 ^ Z.of_nat rem) as H16 by (apply Z.pow_le_mono_r; lia).
  destruct (code_index codetab (toupper c) 0) as [d|] eqn:Ed; [|nia].
  pose proof (hex_code_range c d Ed) as Hd.
  rewrite (Z.shiftr_div_pow2 d LG_16), (Z.div_small d) by (unfold LG_16; lia). cbn [Z.gtb Z.compare].
  rewrite (wrap_small 64 (w * 16 + d)) by nia.
  destruct rem as [|[|rem]]; [lia|nia|]. destruct (is_nul (peek mem)); [nia|].
  assert (16 ^ Z.of_nat (S (S rem)) = 16 * 16 ^ Z.of_nat (S rem)) as E.
  { rewrite Nat2Z.inj_succ, Z.pow_succ_r by lia. done. }
  assert (16 ^ 1 <= 16 ^ Z.of_nat (S rem)) by (apply Z.pow_le_mono_r; lia).
  rewrite (wrap_small 64 (Z.shiftl _ _)) by (rewrite Z.shiftl_mul_pow2 by (unfold LG_16; lia); unfold LG_16; nia).
  rewrite Z.shiftl_mul_pow2 by (unfold LG_16; lia). change (2 ^ LG_16) with 16.
  specialize (IH (S rem) (w * 16 + d) ltac:(lia) ltac:(nia) ltac:(lia)). nia.
Qed.

Lemma skip_blanks_rem mem rem m r : skip_blanks mem rem = Some (m, r) -> (r <= rem)%nat.
Proof.
  revert rem. induction mem as [|c mem IH]; intros rem; cbn; [by intros [= _ ->]|].
  destruct (Ascii.eqb c " "); [|by intros [= _ ->]].
  destruct rem as [|rem]; [done|]. intros H%IH. lia.
Qed.

Lemma FROM_HEX_range buf off : 0 <= FROM_HEX buf off < 2 ^ 32.
Proof.
  unfold FROM_HEX, from_ascii. destruct (skip_blanks (drop off buf) 8) as [[m r]|] eqn:E; [|lia].
  apply skip_blanks_rem in E. destruct (Nat.eqb_spec r 0); [cbn; lia|]. cbn [orb].
  destruct (is_nul (peek m)); [lia|].
  assert (16 ^ Z.of_nat r <= 16 ^ 8) by (apply Z.pow_le_mono_r; lia).
  pose proof (from_ascii_loop_bound m r 0 ltac:(lia) ltac:(lia) ltac:(lia)).
  change (2 ^ 32) with (16 ^ 8). rewrite Z.mul_0_l in *. lia.
Qed.

Lemma get_cpiohdr_range buf h h' :
  get_cpiohdr buf h = (0, h') ->
  0 <= fsize h' < 2 ^ 32 /\ 0 <= namesize h' < 2 ^ 32 /\ 0 <= chksum h' < 2 ^ 32 /\
  (format h' = CPIO_NEWASCII \/ format h' = CPIO_CRCASCII).
Proof.
  unfold get_cpiohdr. case_if; [|case_if]; intros [= <-]; cbn [fsize namesize chksum format];
    split_and!; try apply FROM_HEX_range; auto.
Qed.

Lemma str_take_strlcpy s size : 0 < size -> strlen (strlcpy s size) < size.
Proof.
  intros H. unfold strlcpy, strlen. pose proof (str_take_length (Z.to_nat (size - 1)) s). lia.
Qed.

(** C40: whatever bytes arrive, a header that is accepted has a name that fits the
    256-byte buffers it is read into and copied to, and sizes below 2^32. *)
Theorem extract_cpio_header_bounds (buf : bytes) (f f' : fd) (fhdr h : filehdr) (offset offset' : Z) :
  extract_cpio_header buf f fhdr offset = (0, h, f', offset') ->
  0 <= namesize h < Z.of_nat FILENAME_SIZE /\ strlen (filename h) < Z.of_nat FILENAME_SIZE /\
  0 <= fsize h < 2 ^ 32 /\ 0 <= chksum h < 2 ^ 32 /\
  (format h = CPIO_NEWASCII \/ format h = CPIO_CRCASCII).
Proof.
  unfold extract_cpio_header. intros E.
  destruct (fill_buffer_ f HDR_SIZE offset None None) as [[r1 s1] f1].
  destruct (r1 <? 0); [done|].
  destruct (get_cpiohdr (overlay (fill_buf s1) buf) fhdr) as [r2 h2] eqn:G.
  destruct (Z.ltb_spec r2 0); [done|].
  assert (r2 = 0) as ->. { unfold get_cpiohdr in G. repeat case_if; injection G; unfold EINVAL in *; lia. }
  apply get_cpiohdr_range in G as (Hs & Hn & Hc & Hf).
  destruct (Z.geb_spec (namesize h2) (Z.of_nat FILENAME_SIZE)); [done|].
  destruct (fill_buffer_ f1 _ _ None None) as [[r3 s3] f3]. destruct (r3 <? 0); [done|].
  destruct (fill_buffer_ f3 _ _ None None) as [[r4 s4] f4]. destruct (r4 <? 0); [done|].
  injection E as <- _ _. cbn [namesize filename fsize chksum format].
  split_and!; try done; try lia. by apply str_take_strlcpy.
Qed.
End Fill.
Arguments fill_state : clear implicits.

(** ** Instances *)

Definition unit_hash_lib : hash_lib unit :=
  mk_hash_lib (Some tt) (fun _ _ => Some tt) (fun _ => Some []) (fun _ _ => 0).

Definition no_fhdr : filehdr := mk_filehdr 0 0 0 0 "".
Definition zeros (n : nat) : bytes := replicate n "0"%char.

(** The header of a file "image" of 1000 bytes, and its delivery in two reads. *)
Definition sample_entry : bytes := cpio_entry "070702" (zeros 48) (zeros 32) 1000 77 "image" [].
Definition sample_fd : fd := rd_block (take 10 sample_entry) ++ [RdIntr] ++ rd_block (drop 10 sample_entry).

Lemma extract_cpio_header_entry_witness :
  exists f' offset',
    extract_cpio_header unit_hash_lib (zeros 256) sample_fd no_fhdr 0 =
      (0, mk_filehdr CPIO_CRCASCII 1000 6 77 "image", f', offset') /\
    content f' = [] /\ healthy f' /\ offset' mod 4 = 0 /\
    offset' = 0 + Z.of_nat (length (cpio_entry "070702" (zeros 48) (zeros 32) 1000 77 "image" [])).
Proof.
  apply (extract_cpio_header_entry unit_hash_lib "070702" CPIO_CRCASCII (zeros 48) (zeros 32) 1000 77
    "image" [] [] (zeros 256) 0 sample_fd no_fhdr).
  - split; try reflexivity; try (vm_compute; split; [discriminate|reflexivity]).
    vm_compute. repeat constructor.
  - cbn. exact I.
  - vm_compute. reflexivity.
Defined.

Lemma extract_cpio_header_bounds_witness :
  let r := extract_cpio_header unit_hash_lib (zeros 256) sample_fd no_fhdr 0 in
  0 <= namesize r.1.1.2 < Z.of_nat FILENAME_SIZE.
Proof.
  refine (proj1 (extract_cpio_header_bounds unit_hash_lib (zeros 256) sample_fd _ no_fhdr _ 0 _ _)).
  vm_compute. reflexivity.
Defined.

(** A short read is not an error: at the end of the file the header is taken
    from what the stack holds, so that an empty descriptor can deliver one. *)
Theorem extract_cpio_header_stale :
  exists buf, length buf = FILENAME_SIZE /\
    (extract_cpio_header unit_hash_lib buf [] no_fhdr 0).1.1.1 = 0.
Proof.
  exists (sample_entry ++ zeros 140). split; vm_compute; reflexivity.
Qed.
