(* ===== verification/Memory.v ===== *)
(** * Memory: numbers, arrays of characters and strings as bytes

    Structures that are sent to another process go through a socket as the bytes they have in memory, and
    arrays of characters keep what is behind the string they hold. *)
From S2P Require Import Prelude CString Util Crypto Cpio.

(** Integers in memory, the low byte first. *)
Fixpoint le (n : nat) (z : Z) : bytes :=
  match n with O => [] | S n => ascii_of_Z (z mod 256) :: le n (z / 256) end.

Fixpoint of_le (bs : bytes) : Z :=
  match bs with [] => 0 | b :: bs => byte_of b + 256 * of_le bs end.

Definition slice (i n : nat) (bs : bytes) : bytes := take n (drop i bs).

(** Characters written to the start of an array; [put_str] also ends the string, and cuts it to the array. *)
Definition put (buf bs : bytes) : bytes := bs ++ drop (length bs) buf.
Definition put_str (buf : bytes) (s : string) : bytes :=
  put buf (take (length buf - 1) (String.list_ascii_of_string s) ++ [NUL]).

Definition not_nul (c : ascii) : bool := negb (is_nul c).

(** * Properties *)

Lemma u32_range z : 0 <= u32 z < 2 ^ 32.
Proof. by apply wrap_range. Qed.

Lemma le_length n z : length (le n z) = n.
Proof. revert z. induction n as [|n IH]; intros z; cbn [le length]; [done|]. by rewrite IH. Qed.

Lemma of_le_le n z : 0 <= z < 256 ^ Z.of_nat n -> of_le (le n z) = z.
Proof.
  revert z. induction n as [|n IH]; intros z Hz; cbn [le of_le]; [cbn in Hz; lia|].
  rewrite Nat2Z.inj_succ, Z.pow_succ_r in Hz by lia.
  pose proof (Z.mod_pos_bound z 256 ltac:(lia)). pose proof (Z.div_mod z 256 ltac:(lia)).
  rewrite byte_of_ascii_of_Z, IH; [lia| |done]. split; [apply Z.div_pos; lia|apply Z.div_lt_upper_bound; lia].
Qed.

Lemma slice_skip k i n a b : length a = k -> (k <= i)%nat -> slice i n (a ++ b) = slice (i - k) n b.
Proof. intros <- Hi. unfold slice. by rewrite drop_app_ge by lia. Qed.

Lemma slice_here n a b : length a = n -> slice 0 n (a ++ b) = a.
Proof. intros <-. unfold slice. rewrite drop_0. apply take_app_length. Qed.

Lemma slice_all n a : length a = n -> slice 0 n a = a.
Proof. intros <-. unfold slice. rewrite drop_0. apply take_ge. lia. Qed.

(** The member at an offset of a structure that is a sequence of members of known lengths. *)
Ltac find_slice :=
  first [rewrite slice_here by (apply le_length || assumption)
        |rewrite slice_all by (apply le_length || assumption)
        |erewrite slice_skip; [|first [apply le_length|eassumption]|lia]; cbn [Nat.sub]; find_slice].

(** ** Arrays and strings *)

Lemma put_length buf bs : (length bs <= length buf)%nat -> length (put buf bs) = length buf.
Proof. intros H. unfold put. rewrite length_app, length_drop. lia. Qed.

Lemma put_str_length buf s : (0 < length buf)%nat -> length (put_str buf s) = length buf.
Proof. intros H. apply put_length. rewrite length_app, length_take. cbn [length]. lia. Qed.

Lemma cstring_nul_length a t : (String.length (cstring (a ++ NUL :: t)) <= length a)%nat.
Proof.
  induction a as [|b a IH]; [done|]. cbn [app cstring]. destruct (is_nul b); cbn [String.length length]; lia.
Qed.

Lemma put_str_strlen buf s : (0 < length buf)%nat -> 0 <= strlen (cstring (put_str buf s)) < Z.of_nat (length buf).
Proof.
  intros H. unfold put_str, put, strlen. set (a := take _ _). rewrite <- app_assoc. cbn [app].
  assert (length a <= length buf - 1)%nat by (unfold a; rewrite length_take; lia).
  pose proof (cstring_nul_length a (drop (length (a ++ [NUL])) buf)). lia.
Qed.

Lemma cstring_all s : str_forall not_nul s = true -> cstring (String.list_ascii_of_string s) = s.
Proof.
  induction s as [|c s IH]; [done|]. cbn. unfold not_nul at 1. destruct (is_nul c); [done|]. intros H. by rewrite IH.
Qed.
