(* ===== verification/Keys.v ===== *)
(** * Decryption keys: [core/decrypt_keys.c], [include/swupdate_aes.h] *)
From S2P Require Import Prelude CString Util Crypto.

Inductive cipher_t :=
  | AES_CBC | AES_CBC_128 | AES_CBC_192 | AES_CBC_256
  | AES_CTR | AES_CTR_128 | AES_CTR_192 | AES_CTR_256
  | CMS | AES_UNKNOWN.

#[export] Instance cipher_eq_dec : EqDecision cipher_t.
Proof. solve_decision. Defined.

Definition map_cipher : list (string * cipher_t) :=
  [("aes-cbc", AES_CBC); ("aes-cbc-128", AES_CBC_128); ("aes-cbc-192", AES_CBC_192);
   ("aes-cbc-256", AES_CBC_256); ("aes-cbc-128", AES_CBC_128); ("aes-ctr-128", AES_CTR_128);
   ("aes-ctr-192", AES_CTR_192); ("aes-ctr-256", AES_CTR_256); ("aes-ctr-128", AES_CTR_128)].

Definition map_name_cipher (name : string) : cipher_t :=
  default AES_UNKNOWN (lookup_name map_cipher name).

Definition AES_BLK_SIZE : nat := 16.
Definition AES_128_KEY_LEN : nat := 16.
Definition AES_192_KEY_LEN : nat := 24.
Definition AES_256_KEY_LEN : nat := 32.

(** [struct decryption_key]; [keylen] is a [char]. A fresh structure is zeroed: its
    cipher is [AES_CBC]. *)
Record decryption_key := mk_key {
  dk_key : option bytes;
  dk_keylen : Z;
  dk_ivt : option bytes;
  dk_cipher : cipher_t;
}.

Definition fresh_key : decryption_key := mk_key None 0 None AES_CBC.

(** The state is the static pointer [decrypt_keys]. *)
Definition set_filename_as_key (fname : string) (cipher : cipher_t) (ks : option decryption_key)
  : Z * option decryption_key :=
  let k := default fresh_key ks in
  (0, Some (mk_key (Some (String.list_ascii_of_string fname)) (swrap 8 (strlen fname)) (dk_ivt k) cipher)).

Definition bytes_of (l : list Z) : bytes := ascii_of_Z <$> l.

Definition aes_keylen (keylen : nat) : bool :=
  (keylen =? AES_128_KEY_LEN * 2)%nat || (keylen =? AES_192_KEY_LEN * 2)%nat ||
  (keylen =? AES_256_KEY_LEN * 2)%nat.

Definition set_aes_key (key ivt : string) (ks : option decryption_key)
  : Z * option decryption_key :=
  let k := default fresh_key ks in
  if negb (String.length ivt =? AES_BLK_SIZE * 2)%nat || negb (is_hex_str (Some ivt))
  then (- EINVAL, Some k)
  else
    let '(ret, iv) := ascii_to_bin (replicate AES_BLK_SIZE 0) AES_BLK_SIZE (Some ivt) in
    let k := mk_key (dk_key k) (dk_keylen k) (Some (bytes_of iv)) (dk_cipher k) in
    let keylen := String.length key in
    let is_pkcs11 := is_prefix "pkcs11" key in
    if negb is_pkcs11 && negb (aes_keylen keylen) then (- EINVAL, Some k)
    else
      let dklen := if is_pkcs11 then swrap 8 (Z.of_nat keylen)
                   else swrap 8 (Z.of_nat keylen / 2) in
      let '(ret, kb) :=
        if is_pkcs11 then (ret, String.list_ascii_of_string key)
        else
          let '(r2, kb) := ascii_to_bin (replicate (Z.to_nat dklen) 0) (Z.to_nat dklen) (Some key) in
          (Z.lor (Z.lor ret (if is_hex_str (Some key) then 0 else 1)) r2, bytes_of kb) in
      let k := mk_key (Some kb) dklen (dk_ivt k) AES_CBC in
      if negb (ret =? 0) then (- EINVAL, Some k) else (0, Some k).

(** [file] is the content of the key file, [None] if it cannot be opened; [asym] is
    [CONFIG_ASYM_ENCRYPTED_SW_DESCRIPTION]. *)
Definition load_decryption_key (asym : bool) (fname : string) (file : option string)
    (ks : option decryption_key) : Z * option decryption_key :=
  if asym then set_filename_as_key fname CMS ks
  else
    match file with
    | None => (- EBADF, ks)
    | Some text =>
        match splitargs text with
        | b1 :: b2 :: _ =>
            let '(ret, ks) := set_aes_key b1 b2 ks in
            if negb (ret =? 0) then (- EINVAL, ks) else (0, ks)
        | _ => (- EINVAL, ks)
        end
    end.

Definition swupdate_get_decrypt_key (ks : option decryption_key) : option bytes := ks ≫= dk_key.
Definition swupdate_get_decrypt_keylen (ks : option decryption_key) : Z :=
  match ks with None => -1 | Some k => dk_keylen k end.
Definition get_aes_ivt (ks : option decryption_key) : option bytes := ks ≫= dk_ivt.
Definition swupdate_get_decrypt_cipher (ks : option decryption_key) : cipher_t :=
  match ks with None => AES_UNKNOWN | Some k => dk_cipher k end.

(** * Properties *)

(** The bytes spelled by pairs of hexadecimal digits. *)
Definition hex_bytes (s : string) : list Z :=
  (fun i => u8 (from_ascii (drop (i * 2) (String.list_ascii_of_string s)) 2 LG_16))
  <$> seq 0 (String.length s / 2).

Lemma ascii_to_bin_even dest n s :
  String.length s = (2 * n)%nat -> ascii_to_bin dest n (Some s) = (0, hex_bytes s).
Proof.
  intros H. unfold ascii_to_bin, hex_bytes. rewrite H, Nat.eqb_refl.
  replace ((2 * n) mod 2)%nat with 0%nat by (rewrite Nat.mul_comm; symmetry; apply Nat.Div0.mod_mul).
  cbn [Nat.eqb]. rewrite (Nat.mul_comm 2 n), Nat.div_mul by lia. done.
Qed.

(** A hexadecimal key of 128, 192 or 256 bits with a 128-bit vector is stored
    as the bytes it spells, with its length in bytes and the CBC cipher. *)
Theorem set_aes_key_hex (key ivt : string) (ks : option decryption_key) :
  aes_keylen (String.length key) = true -> is_hex_str (Some key) = true ->
  String.length ivt = (2 * AES_BLK_SIZE)%nat -> is_hex_str (Some ivt) = true ->
  set_aes_key key ivt ks =
  (0, Some (mk_key (Some (bytes_of (hex_bytes key))) (strlen key / 2)
        (Some (bytes_of (hex_bytes ivt))) AES_CBC)).
Proof.
  intros Hk Hx Hi Hix. unfold set_aes_key.
  rewrite (Nat.mul_comm AES_BLK_SIZE), Hi, Nat.eqb_refl, Hix. cbn [negb orb].
  rewrite ascii_to_bin_even by done.
  assert (is_prefix "pkcs11" key = false) as ->.
  { destruct key as [|c [|d key]]; [done| |].
    - cbn [is_hex_str String.eqb str_forall] in Hx. cbn. destruct (Ascii.eqb_spec "p" c); [subst; done|done].
    - cbn [is_hex_str String.eqb str_forall] in Hx. cbn [is_prefix].
      destruct (Ascii.eqb_spec "p" c); [subst; done|done]. }
  rewrite Hk. cbn [negb andb].
  assert (exists n, String.length key = (2 * n)%nat /\ (n <= 32)%nat) as (n & Hn & Hb).
  { unfold aes_keylen, AES_128_KEY_LEN, AES_192_KEY_LEN, AES_256_KEY_LEN in Hk.
    apply orb_true_iff in Hk as [Hk|Hk]; [apply orb_true_iff in Hk as [Hk|Hk]|];
      apply Nat.eqb_eq in Hk; [exists 16%nat|exists 24%nat|exists 32%nat]; lia. }
  assert (Z.of_nat (String.length key) / 2 = Z.of_nat n) as E.
  { rewrite Hn, Nat2Z.inj_mul, Z.mul_comm. apply Z.div_mul. lia. }
  rewrite E, swrap_small, Nat2Z.id, ascii_to_bin_even, Hx by (done || lia).
  unfold strlen. rewrite E. done.
Qed.

Lemma set_aes_key_hex_witness :
  let key := "000102030405060708090a0b0c0d0e0f" in
  let ivt := "ffeeddccbbaa99887766554433221100" in
  set_aes_key key ivt None =
  (0, Some (mk_key (Some (bytes_of (hex_bytes key))) 16 (Some (bytes_of (hex_bytes ivt))) AES_CBC)).
Proof. apply set_aes_key_hex; vm_compute; reflexivity. Defined.
