(* ===== verification/Copyfile.v ===== *)
(** * Copying an artifact: [copyfile] of [core/cpio_utils.c]

    An artifact is copied through a pipeline: the input step reads (and hashes) the
    file descriptor or a buffer, an optional step decrypts, an optional step
    decompresses, and the result is handed block by block to a write callback. *)
From S2P Require Import Prelude CString Util Crypto Keys Cpio.

Definition BUFF_SIZE : nat := Z.to_nat 16384.

(** A [PipelineStep]: an error code (negative) or a block, empty at the end. [None] is
    a loop that has not ended within the fuel of the step. *)
Definition step (S : Type) : Type := S -> nat -> option ((Z + bytes) * S).

(** ** Writing: [copy_write] *)

(** What the [write] calls on a descriptor do; after the plan they accept all. *)
Inductive wr_event :=
  | WrSome (n : nat)
  | WrIntr
  | WrErr.

Record sink := mk_sink {
  written : bytes;
  plan : list wr_event;
}.

Fixpoint copy_write_loop (pl : list wr_event) (out buf : bytes) : Z * sink :=
  match buf with
  | [] => (0, mk_sink out pl)
  | _ =>
      match pl with
      | [] => (0, mk_sink (out ++ buf) [])
      | WrIntr :: pl => copy_write_loop pl out buf
      | WrErr :: pl => (-1, mk_sink out pl)
      | WrSome n :: pl =>
          if (n =? 0)%nat then (-1, mk_sink out pl)
          else copy_write_loop pl (out ++ take n buf) (drop n buf)
      end
  end.

Definition copy_write (w : sink) (buf : bytes) : Z * sink := copy_write_loop (plan w) (written w) buf.

(** ** Input *)

Section Copy.
Context {C : Type} (hl : hash_lib C).

(** [inbuf] is [Some] for [INPUT_FROM_MEMORY]. *)
Record InputState := mk_input {
  in_fd : fd;
  in_buf : option bytes;
  in_pos : nat;
  in_nbytes : nat;
  in_offs : Z;
  in_dgst : option C;
  in_checksum : Z;
}.

Definition input_step : step InputState := fun s size =>
  let size := if (in_nbytes s <=? size)%nat then in_nbytes s else size in
  match in_buf s with
  | None =>
      let '(ret, fs, f) := fill_buffer_ hl (in_fd s) size (in_offs s) (Some (in_checksum s)) (in_dgst s) in
      let s' nb := mk_input f None (in_pos s) nb (fill_offs fs)
                     (fill_dgst fs) (default 0 (fill_checksum fs)) in
      if ret <? 0 then Some (inl ret, s' (in_nbytes s))
      else Some (inr (fill_buf fs), s' (in_nbytes s - length (fill_buf fs))%nat)
  | Some buf =>
      let chunk := resize size NUL (drop (in_pos s) buf) in
      let s' d := mk_input (in_fd s) (in_buf s) (in_pos s + size) (in_nbytes s - size)
                    (in_offs s) d (in_checksum s) in
      match in_dgst s with
      | None => Some (inr chunk, s' None)
      | Some d =>
          match HASH_update hl d chunk with
          | None => Some (inl (- EFAULT), s)
          | Some d' => Some (inr chunk, s' (Some d'))
          end
      end
  end.

(** ** Decryption *)

Section Decrypt.
Context {U : Type} (upstream : step U) {D : Type} (dl : decrypt_lib D).

(** [d_output] holds the [outlen] bytes of plaintext not yet delivered. *)
Record DecryptState := mk_decrypt {
  d_up : U;
  d_ctx : D;
  d_output : bytes;
  d_eof : bool;
}.

Definition deliver (s : DecryptState) (size : nat) : (Z + bytes) * DecryptState :=
  (inr (take size (d_output s)), mk_decrypt (d_up s) (d_ctx s) (drop size (d_output s)) (d_eof s)).

Definition decrypt_step : step DecryptState := fun s size =>
  if negb (length (d_output s) =? 0)%nat then Some (deliver s size)
  else
    match upstream (d_up s) BUFF_SIZE with
    | None => None
    | Some (inl e, u) => Some (inl e, mk_decrypt u (d_ctx s) (d_output s) (d_eof s))
    | Some (inr input, u) =>
        if d_eof s then Some (deliver (mk_decrypt u (d_ctx s) [] true) size)
        else
          let last := match input with [] => true | _ => false end in
          let '(ret, output, ctx) :=
            if last then DECRYPT_final dl (d_ctx s) else DECRYPT_update dl (d_ctx s) input in
          let s := mk_decrypt u ctx output (last && (ret =? 0)) in
          if ret <? 0 then Some (inl ret, s) else Some (deliver s size)
    end.
End Decrypt.

(** ** Decompression *)

(** The result of a call to the decompression library. *)
Inductive zret := Z_OK | Z_STREAM_END | Z_BUF_ERROR | Z_ERROR.

(** One call of [inflate] or [lzma_code] (respectively [ZSTD_decompressStream],
    [LZ4F_decompress]) with the pending input and the room in the output buffer: the
    result, the new context, the input consumed and the output produced. For zstd
    and lz4 [Z_STREAM_END] stands for a return value of zero. *)
Definition zlib (X : Type) : Type := X -> bytes -> nat -> zret * X * nat * bytes.

Section Decompress.
Context {U : Type} (upstream : step U) {X : Type} (zl : zlib X).

(** [z_in] is the input not yet consumed. *)
Record DecompressState := mk_decompress {
  z_up : U;
  z_ctx : X;
  z_in : bytes;
  z_eof : bool;
}.

(** Refill the input when it is used up: an error of the upstream step, or the state
    with the new input; an empty block sets [eof]. *)
Definition pull (s : DecompressState) : option (option Z * DecompressState) :=
  match z_in s with
  | [] =>
      match upstream (z_up s) BUFF_SIZE with
      | None => None
      | Some (inl e, u) => Some (Some e, mk_decompress u (z_ctx s) [] (z_eof s))
      | Some (inr input, u) =>
          Some (None, mk_decompress u (z_ctx s) input
                  (z_eof s || match input with [] => true | _ => false end))
      end
  | _ => Some (None, s)
  end.

(** The [while (outlen == 0)] of [gunzip_step]; that of [xz_step] is the same. *)
Fixpoint inflate_loop (fuel : nat) (s : DecompressState) (size : nat)
  : option ((Z + bytes) * DecompressState) :=
  match fuel with
  | O => None
  | S fuel =>
      match pull s with
      | None => None
      | Some (Some e, s) => Some (inl e, s)
      | Some (None, s) =>
          if z_eof s then Some (inr [], s)
          else
            let '(ret, ctx, consumed, out) := zl (z_ctx s) (z_in s) size in
            let inp := drop consumed (z_in s) in
            match ret with
            | Z_STREAM_END => Some (inr out, mk_decompress (z_up s) ctx inp true)
            | Z_ERROR => Some (inl (-1), mk_decompress (z_up s) ctx inp false)
            | _ => match out with
                   | [] => inflate_loop fuel (mk_decompress (z_up s) ctx inp false) size
                   | _ => Some (inr out, mk_decompress (z_up s) ctx inp false)
                   end
            end
      end
  end.

Definition gunzip_step (fuel : nat) : step DecompressState := inflate_loop fuel.
Definition xz_step (fuel : nat) : step DecompressState := inflate_loop fuel.

(** The inner [do] of [zstd_step]: feed the library until the output buffer is full or
    the input is used up. [None] in the second place is an error. *)
Fixpoint zstd_feed (fuel : nat) (ctx : X) (inp out : bytes) (size : nat)
  : option (option (X * bytes * bytes)) :=
  match fuel with
  | O => None
  | S fuel =>
      let '(ret, ctx, consumed, p) := zl ctx inp (size - length out)%nat in
      match ret with
      | Z_ERROR => Some None
      | _ =>
          let inp := drop consumed inp in
          let out := out ++ p in
          if (length out =? size)%nat then Some (Some (ctx, inp, out))
          else match inp with
               | [] => Some (Some (ctx, inp, out))
               | _ => zstd_feed fuel ctx inp out size
               end
      end
  end.

(** The outer [do] of [zstd_step]. *)
Fixpoint zstd_step (fuel : nat) (s : DecompressState) (size : nat)
  : option ((Z + bytes) * DecompressState) :=
  match fuel with
  | O => None
  | S fuel =>
      match pull s with
      | None => None
      | Some (Some e, s) => Some (inl e, s)
      | Some (None, s) =>
          match zstd_feed fuel (z_ctx s) (z_in s) [] size with
          | None => None
          | Some None => Some (inl (-1), s)
          | Some (Some (ctx, inp, out)) =>
              match out with
              | [] =>
                  if z_eof s then Some (inr [], mk_decompress (z_up s) ctx inp (z_eof s))
                  else zstd_step fuel (mk_decompress (z_up s) ctx inp (z_eof s)) size
              | _ => Some (inr out, mk_decompress (z_up s) ctx inp (z_eof s))
              end
          end
      end
  end.

(** [lz4_step]: it stops at once when there is no more input, and a call that neither
    consumes nor produces is an error. *)
Fixpoint lz4_step (fuel : nat) (s : DecompressState) (size : nat)
  : option ((Z + bytes) * DecompressState) :=
  match fuel with
  | O => None
  | S fuel =>
      match pull s with
      | None => None
      | Some (Some e, s) => Some (inl e, s)
      | Some (None, s) =>
          if (length (z_in s) =? 0)%nat then Some (inr [], s)
          else
            let '(ret, ctx, consumed, out) := zl (z_ctx s) (z_in s) size in
            let inp := drop consumed (z_in s) in
            match ret with
            | Z_ERROR => Some (inl (-1), s)
            | _ =>
                if (length out =? 0)%nat && (length inp =? length (z_in s))%nat
                then Some (inl (-1), mk_decompress (z_up s) ctx inp (z_eof s))
                else
                  let eof := match ret with Z_STREAM_END => true | _ => z_eof s end in
                  if (length out =? 0)%nat && negb eof
                  then lz4_step fuel (mk_decompress (z_up s) ctx inp eof) size
                  else Some (inr out, mk_decompress (z_up s) ctx inp eof)
            end
      end
  end.
End Decompress.

(** ** The pipeline *)

Context {D X : Type} (dl : decrypt_lib D).

(** The decompressors of the build: their initial context, [None] when it cannot be
    created, and their library. *)
Record config := mk_config {
  cfg_gunzip : option (option X * zlib X);
  cfg_xz : option (option X * zlib X);
  cfg_zstd : option (option X * zlib X);
  cfg_lz4 : option (option X * zlib X);
}.

Inductive stage1 :=
  | Plain (s : InputState)
  | Decrypted (s : @DecryptState InputState D).

Definition stage1_step : step stage1 := fun st size =>
  match st with
  | Plain s => (fun r => (r.1, Plain r.2)) <$> input_step s size
  | Decrypted s => (fun r => (r.1, Decrypted r.2)) <$> decrypt_step input_step dl s size
  end.

Inductive decompressor := Gunzip | Xz | Zstd | Lz4.

Inductive stage2 :=
  | Raw (s : stage1)
  | Inflated (d : decompressor) (zl : zlib X) (s : @DecompressState stage1 X).

Definition decompress_step (fuel : nat) (d : decompressor) (zl : zlib X) : step DecompressState :=
  match d with
  | Gunzip => gunzip_step stage1_step zl fuel
  | Xz => xz_step stage1_step zl fuel
  | Zstd => zstd_step stage1_step zl fuel
  | Lz4 => lz4_step stage1_step zl fuel
  end.

Definition stage2_step (fuel : nat) : step stage2 := fun st size =>
  match st with
  | Raw s => (fun r => (r.1, Raw r.2)) <$> stage1_step s size
  | Inflated d zl s =>
      (fun r => (r.1, Inflated d zl r.2)) <$> decompress_step fuel d zl s size
  end.

Definition input_of1 (st : stage1) : InputState :=
  match st with Plain s => s | Decrypted s => d_up s end.

Definition input_of (st : stage2) : InputState :=
  match st with Raw s => input_of1 s | Inflated _ _ s => input_of1 (z_up s) end.

(** ** [copyfile] *)

Section Callback.
Context {W : Type} (callback : W -> bytes -> Z * W).

(** [struct swupdate_copy]. [out_fd] is the descriptor that [args->out] points to, [-1] for NULL, and
    [lseek_ok] whether seeking it works; [hash] may be NULL. *)
Record swupdate_copy := mk_copy {
  c_fdin : fd;
  c_inbuf : option bytes;
  c_nbytes : nat;
  c_offs : Z;
  c_seek : Z;
  c_out_fd : Z;
  c_lseek_ok : bool;
  c_skip_file : bool;
  c_compressed : compression_type;
  c_hash : option bytes;
  c_encrypted : bool;
  c_imgivt : option string;
  c_imgaes : option string;
  c_cipher : cipher_t;
}.

Definition valid_hash (hash : option bytes) : bool := IsValidHash (match hash with Some h => Some (byte_of <$> h) | None => None end).

(** [strlen] of a string that may be NULL. *)
Definition nonempty (s : option string) : option string :=
  match s with
  | Some s => if String.eqb s "" then None else Some s
  | None => None
  end.

(** The choice of key and vector, and [swupdate_DECRYPT_init]. [cipher_code] is the number
    of the cipher. *)
Definition cipher_code (c : cipher_t) : Z :=
  match c with
  | AES_CBC => 0 | AES_CBC_128 => 1 | AES_CBC_192 => 2 | AES_CBC_256 => 3
  | AES_CTR => 4 | AES_CTR_128 => 5 | AES_CTR_192 => 6 | AES_CTR_256 => 7
  | CMS => 8 | AES_UNKNOWN => 9
  end.

Definition crypt_setup (ks : option decryption_key) (args : swupdate_copy) : Z + D :=
  let ivt :=
    match nonempty (c_imgivt args) with
    | Some s =>
        let '(ret, b) := ascii_to_bin (replicate AES_BLK_SIZE 0) AES_BLK_SIZE (Some s) in
        if negb (is_hex_str (Some s)) || negb (ret =? 0) then None else Some (Some (bytes_of b))
    | None => Some (get_aes_ivt ks)
    end in
  match ivt with
  | None => inl (- EINVAL)
  | Some ivt =>
      let key :=
        match nonempty (c_imgaes args) with
        | Some s =>
            let '(ret, b) := ascii_to_bin (replicate AES_256_KEY_LEN 0) AES_256_KEY_LEN (Some s) in
            if negb (is_hex_str (Some s)) || negb (ret =? 0) then None
            else Some (Some (bytes_of b), strlen s / 2)
        | None =>
            if decide (swupdate_get_decrypt_cipher ks = c_cipher args)
            then Some (swupdate_get_decrypt_key ks, swupdate_get_decrypt_keylen ks)
            else Some (None, 0)
        end in
      match key with
      | None => inl (- EINVAL)
      | Some (aes_key, keylen) =>
          match DECRYPT_init dl aes_key keylen ivt (cipher_code (c_cipher args)) with
          | None => inl (- EFAULT)
          | Some d => inr d
          end
      end
  end.

(** The choice of decompressor: [inr None] when the file is not compressed. *)
Definition decompress_setup (cfg : config) (compressed : compression_type)
  : Z + option (decompressor * zlib X * X) :=
  let init d e :=
    match e with
    | None => inl (- EINVAL)
    | Some (None, _) => inl (- EFAULT)
    | Some (Some x, zl) => inr (Some (d, zl, x))
    end in
  match compressed with
  | COMPRESSED_FALSE => inr None
  | COMPRESSED_TRUE | COMPRESSED_ZLIB => init Gunzip (cfg_gunzip cfg)
  | COMPRESSED_XZ => init Xz (cfg_xz cfg)
  | COMPRESSED_ZSTD => init Zstd (cfg_zstd cfg)
  | COMPRESSED_LZ4 => init Lz4 (cfg_lz4 cfg)
  end.

(** The [for (;;)]: the result, the pipeline, the output and the percentages reported.
    [None] when the fuel is not enough. *)
Fixpoint copy_loop (fuel : nat) (args : swupdate_copy) (st : stage2) (w : W) (prev : Z)
    (progress : list Z) : option (Z * stage2 * W * list Z) :=
  match fuel with
  | O => None
  | S fuel' =>
      match stage2_step fuel st BUFF_SIZE with
      | None => None
      | Some (inl e, st) =>
          if e =? - EAGAIN then copy_loop fuel' args st w prev progress
          else Some (e, st, w, progress)
      | Some (inr [], st) => Some (0, st, w, progress)
      | Some (inr bs, st) =>
          if c_skip_file args then copy_loop fuel' args st w prev progress
          else
            let '(ret, w) := callback w bs in
            if ret <? 0 then Some (- ENOSPC, st, w, progress)
            else
              let total := Z.of_nat (c_nbytes args) in
              let percent := u32 (100 * (total - Z.of_nat (in_nbytes (input_of st))) / total) in
              if percent =? prev then copy_loop fuel' args st w prev progress
              else copy_loop fuel' args st w percent (progress ++ [percent])
      end
  end.

Definition hash_compare (dgst : option C) (hash : bytes) : Z :=
  match dgst with
  | None => - EFAULT
  | Some d =>
      match HASH_final hl d with
      | None => - EFAULT
      | Some md =>
          if negb (length md =? SHA256_HASH_LENGTH)%nat || negb (HASH_compare hl hash md =? 0)
          then - EFAULT else 0
      end
  end.

(** What [copyfile] leaves: its result, the descriptor, [*offs], [*checksum] (when it was
    stored), the output and the progress. *)
Record copy_result := mk_result {
  r_ret : Z;
  r_fd : fd;
  r_offs : Z;
  r_checksum : Z;
  r_out : W;
  r_progress : list Z;
}.

(** The end of [copyfile], after the loop. The padding is read from the descriptor; an
    error there is ignored. *)
Definition copy_finish (args : swupdate_copy) (r : Z * stage2 * W * list Z) : copy_result :=
  let '(ret, st, w, progress) := r in
  let s := input_of st in
  if negb (ret =? 0) then mk_result ret (in_fd s) (in_offs s) 0 w progress
  else
    let bad :=
      match c_hash args with
      | Some h => valid_hash (c_hash args) && (hash_compare (in_dgst s) h <? 0)
      | None => false
      end in
    if bad then mk_result (- EFAULT) (in_fd s) (in_offs s) 0 w progress
    else
      match c_inbuf args with
      | Some _ => mk_result 0 (in_fd s) (in_offs s) (in_checksum s) w progress
      | None =>
          let '(_, fs, f) :=
            fill_buffer_ hl (in_fd s) (Z.to_nat (NPAD_BYTES (in_offs s))) (in_offs s) None None in
          mk_result 0 f (fill_offs fs) (in_checksum s) w progress
      end.

Definition copyfile (fuel : nat) (cfg : config) (ks : option decryption_key) (args : swupdate_copy)
    (w : W) : option copy_result :=
  let fail e := Some (mk_result e (c_fdin args) (c_offs args) 0 w []) in
  let dgst := if valid_hash (c_hash args) then HASH_init hl else None in
  if valid_hash (c_hash args) && negb (bool_decide (is_Some dgst)) then fail (- EFAULT)
  else
    let input := mk_input (c_fdin args) (c_inbuf args) 0 (c_nbytes args) (c_offs args) dgst 0 in
    match (if c_encrypted args
           then match crypt_setup ks args with inl e => inl e | inr d => inr (Some d) end
           else inr None) with
    | inl e => fail e
    | inr od =>
        match decompress_setup cfg (c_compressed args) with
        | inl e => fail e
        | inr oz =>
            if negb (c_seek args =? 0) && ((c_out_fd args <? 0) || negb (c_lseek_ok args))
            then fail (- EFAULT)
            else
              let st1 := match od with
                         | Some d => Decrypted (mk_decrypt input d [] false)
                         | None => Plain input
                         end in
              let st2 := match oz with
                         | Some (d, zl, x) => Inflated d zl (mk_decompress st1 x [] false)
                         | None => Raw st1
                         end in
              copy_finish args <$> copy_loop fuel args st2 w 0 []
        end
    end.
End Callback.

(** * Properties *)

(** ** Steps that respect a relation *)

(** [R s e]: in state [s] the step has emitted [e]. An [- EAGAIN] emits nothing. *)
Definition respects {S} (st : step S) (R : S -> bytes -> Prop) : Prop :=
  forall s e n r s', R s e -> st s n = Some (r, s') ->
  match r with
  | inr bs => R s' (e ++ bs)
  | inl err => err < 0 /\ (err = - EAGAIN -> R s' e)
  end.

(** [R] for some emission. *)
Definition reached {S} (R : S -> bytes -> Prop) (s : S) : Prop := exists e, R s e.

(** ** Input *)

Definition input_ok (s : InputState) : Prop :=
  match in_buf s with
  | None => True
  | Some buf => (in_pos s + in_nbytes s <= length buf)%nat
  end.

(** The bytes ahead. *)
Definition ahead (s : InputState) : bytes :=
  match in_buf s with
  | None => content (in_fd s)
  | Some buf => drop (in_pos s) buf
  end.

(** From [s0], [got] was read and [s] reached; every byte read was hashed. *)
Record advanced (s0 s : InputState) (got : bytes) : Prop := {
  adv_ok : input_ok s;
  adv_ahead : ahead s0 = got ++ ahead s;
  adv_nbytes : in_nbytes s0 = (length got + in_nbytes s)%nat;
  adv_offs : 0 <= in_offs s0 < 2 ^ 64 ->
    in_offs s = (if in_buf s0 is Some _ then in_offs s0 else u64 (in_offs s0 + Z.of_nat (length got))) /\
    0 <= in_offs s < 2 ^ 64;
  adv_checksum : in_checksum s =
    (if in_buf s0 is Some _ then in_checksum s0 else checksum_of (in_checksum s0) got);
  adv_buf : in_buf s = in_buf s0;
  adv_healthy : healthy (in_fd s0) -> healthy (in_fd s);
  adv_dgst : forall `{!HashSpec hl} a d, in_dgst s0 = Some d -> hash_rep d a ->
    exists d', in_dgst s = Some d' /\ hash_rep d' (a ++ got);
}.

Lemma advanced_refl s : input_ok s -> advanced s s [].
Proof.
  intros H. split; try done.
  - intros Ho. rewrite Z.add_0_r, wrap_small by lia. by destruct (in_buf s).
  - by destruct (in_buf s).
  - intros HS a d Hd Hr. exists d. by rewrite app_nil_r.
Qed.

Lemma advanced_trans s0 s1 s2 a b : advanced s0 s1 a -> advanced s1 s2 b -> advanced s0 s2 (a ++ b).
Proof.
  intros [] []. split; [done| | | | |congruence|auto|].
  - by rewrite adv_ahead0, adv_ahead1, app_assoc.
  - rewrite length_app. lia.
  - intros Ho. destruct (adv_offs0 Ho) as [E1 R1]. destruct (adv_offs1 R1) as [E2 R2].
    split; [|done]. rewrite E2, adv_buf0. destruct (in_buf s0); [done|].
    rewrite E1, length_app, Nat2Z.inj_add. unfold wrap. rewrite Zplus_mod_idemp_l. f_equal. lia.
  - rewrite adv_checksum1, adv_buf0, adv_checksum0. destruct (in_buf s0); [done|].
    unfold checksum_of. by rewrite foldl_app.
  - intros HS x d Hd Hr. destruct (adv_dgst0 HS x d Hd Hr) as (d1 & Hd1 & Hr1).
    destruct (adv_dgst1 HS _ d1 Hd1 Hr1) as (d2 & Hd2 & Hr2). exists d2. by rewrite app_assoc.
Qed.

Lemma input_step_spec s n r s' :
  input_ok s -> input_step s n = Some (r, s') ->
  match r with
  | inl e => e = - EFAULT
  | inr bs => advanced s s' bs /\
      (length bs = Nat.min n (in_nbytes s) \/ (in_buf s = None /\ in_fd s' = []))
  end.
Proof.
  intros Hok. unfold input_step.
  set (size := if (in_nbytes s <=? n)%nat then in_nbytes s else n).
  assert (size = Nat.min n (in_nbytes s)) as Hsize.
  { unfold size. destruct (Nat.leb_spec (in_nbytes s) n); lia. }
  clearbody size. destruct (in_buf s) as [buf|] eqn:Eb.
  - unfold input_ok in Hok. rewrite Eb in Hok.
    assert (resize size NUL (drop (in_pos s) buf) = take size (drop (in_pos s) buf)) as Ech
      by (apply resize_le; rewrite length_drop; lia).
    rewrite Ech. set (chunk := take size (drop (in_pos s) buf)).
    assert (length chunk = size) as Hl by (unfold chunk; rewrite length_take, length_drop; lia).
    assert (forall d', (forall `{!HashSpec hl} a d, in_dgst s = Some d -> hash_rep d a ->
      exists d1, d' = Some d1 /\ hash_rep d1 (a ++ chunk)) ->
      advanced s (mk_input (in_fd s) (Some buf) (in_pos s + size) (in_nbytes s - size)
        (in_offs s) d' (in_checksum s)) chunk) as Hadv.
    { intros d' Hd'. split; unfold input_ok, ahead; cbn; rewrite ?Eb; try done; try lia.
      unfold chunk. by rewrite <- drop_drop, take_drop. }
    destruct (in_dgst s) as [d|]; [destruct (HASH_update hl d chunk) as [d'|] eqn:Eu|];
      intros [= <- <-]; [split; [|left; lia]; apply Hadv|done|split; [|left; lia]; apply Hadv].
    + intros HS a d0 [= <-] Hr. exists d'. split; [done|]. by eapply hash_update_rep.
    + by intros HS a d0 [=].
  - destruct (fill_buffer_ hl (in_fd s) size (in_offs s) (Some (in_checksum s)) (in_dgst s))
      as [[ret fs] f] eqn:E.
    destruct (Z.ltb_spec ret 0) as [Hneg|Hpos].
    + intros [= <- <-]. by eapply fill_loop_neg.
    + intros [= <- <-]. destruct (fill_loop_spec hl _ _ _ _ _ _ E Hpos) as (got & _ & [Dsplit Dfull Dbuf Doffs Dcks Ddgst _ Dh]).
      cbn in Dbuf, Ddgst, Doffs, Dcks. rewrite Dbuf, Dcks. split.
      * split; unfold input_ok, ahead; cbn; rewrite ?Eb; try done.
        destruct Dfull; lia.
      * destruct Dfull as [|[_ ?]]; [left; lia|by right].
Qed.

Lemma EFAULT_not_EAGAIN : - EFAULT <> - EAGAIN.
Proof. done. Qed.

Lemma input_respects s0 : respects input_step (advanced s0).
Proof.
  intros s e n r s' R E. pose proof (input_step_spec s n r s' (adv_ok _ _ _ R) E) as H.
  destruct r as [err|bs]; [by subst err|]. destruct H as [H _]. by eapply advanced_trans.
Qed.

(** Once a step has returned an empty block, it is in a state [E] where it goes on
    returning empty blocks. *)
Record settles {S} (st : step S) (R : S -> bytes -> Prop) (E : S -> Prop) : Prop := {
  settles_end : forall s e n s', R s e -> (0 < n)%nat -> st s n = Some (inr [], s') -> E s';
  settles_stay : forall s e n r s', R s e -> E s -> st s n = Some (r, s') ->
    match r with inl err => err <> - EAGAIN | inr bs => bs = [] /\ E s' end;
}.

Definition input_ended (s : InputState) : Prop :=
  in_nbytes s = 0%nat \/ (in_buf s = None /\ in_fd s = []).

Lemma input_step_buf s n r s' : input_step s n = Some (r, s') -> in_buf s' = in_buf s.
Proof.
  unfold input_step. destruct (in_buf s) as [buf|] eqn:Eb.
  - destruct (in_dgst s); [destruct (HASH_update hl _ _)|]; intros [= <- <-]; cbn; congruence.
  - destruct (fill_buffer_ hl _ _ _ _ _) as [[ret fs] f]. case_match; by intros [= <- <-].
Qed.

Lemma fill_loop_eof n st : fill_loop hl [] n st = (Z.of_nat (length (fill_buf st)), st, []).
Proof. cbn. by case_match. Qed.

Lemma input_settles s0 : settles input_step (advanced s0) input_ended.
Proof.
  split.
  - intros s e n s' R Hn E. pose proof (input_step_spec s n _ s' (adv_ok _ _ _ R) E) as [Hadv Hf].
    pose proof (adv_nbytes _ _ _ Hadv) as H. cbn in *. unfold input_ended. destruct Hf as [Hf|[Hb Hf]]; [left; lia|right].
    by rewrite (input_step_buf _ _ _ _ E).
  - intros s e n r s' R He E.
    pose proof (input_step_spec s n _ s' (adv_ok _ _ _ R) E) as H.
    destruct r as [err|bs]; [by subst err|]. destruct H as [Hadv Hf].
    pose proof (adv_ahead _ _ _ Hadv) as Ha. pose proof (adv_nbytes _ _ _ Hadv) as Hn.
    assert (bs = []) as ->.
    { destruct He as [Hz|[Hb Hz]].
      - apply length_zero_iff_nil. lia.
      - unfold ahead in Ha. rewrite (input_step_buf _ _ _ _ E), Hb, Hz in Ha. cbn in Ha.
        symmetry in Ha. by apply app_eq_nil in Ha as [-> _]. }
    split; [done|]. cbn in Hn. destruct He as [Hz|[Hb Hz]]; [left; lia|].
    destruct Hf as [Hf|[_ Hf]]; [|right; by rewrite (input_step_buf _ _ _ _ E)].
    right. rewrite (input_step_buf _ _ _ _ E). split; [done|].
    unfold input_step in E. rewrite Hb, Hz in E. unfold fill_buffer_ in E. rewrite fill_loop_eof in E.
    cbn in E. by injection E as <-.
Qed.

(** ** Decryption *)

Section DecryptProps.
Context {U : Type} (upstream : step U) (Rup : U -> bytes -> Prop) (Eup : U -> Prop).
Context {D' : Type} (dl' : decrypt_lib D') `{!DecryptSpec dl'}.
Variable d0 : D'.
Hypothesis up_respects : respects upstream Rup.
Hypothesis up_settles : settles upstream Rup Eup.

(** The plaintext of what was read is what was delivered and what is still held. *)
Definition decrypt_rel (s : DecryptState) (e : bytes) : Prop :=
  exists a, Rup (d_up s) a /\
    if d_eof s then Eup (d_up s) /\ plain d0 a (e ++ d_output s)
    else dec_rep d0 (d_ctx s) a (e ++ d_output s).

Lemma deliver_rel s e n r s' :
  decrypt_rel s e -> deliver s n = (r, s') -> exists bs, r = inr bs /\ decrypt_rel s' (e ++ bs).
Proof.
  intros (a & Ha & H). unfold deliver. intros [= <- <-]. eexists. split; [done|].
  exists a. cbn. rewrite <- app_assoc, take_drop. done.
Qed.

Lemma BUFF_pos : (0 < BUFF_SIZE)%nat.
Proof. unfold BUFF_SIZE. lia. Qed.

(** What one call of the library does. *)
Lemma decrypt_call c u a e input ret output ctx :
  Rup u (a ++ input) -> dec_rep d0 c a e ->
  (input = [] -> Eup u) ->
  (if match input with [] => true | _ => false end
   then DECRYPT_final dl' c else DECRYPT_update dl' c input) = (ret, output, ctx) ->
  0 <= ret \/ ret = - EAGAIN ->
  decrypt_rel (mk_decrypt u ctx output (match input with [] => true | _ => false end && (ret =? 0))) e.
Proof.
  intros Hu Hd He E Hret. exists (a ++ input). split; [done|]. destruct input as [|b input]; cbn [andb d_eof].
  - rewrite app_nil_r in *. destruct (Z.eqb_spec ret 0) as [->|Hz]; cbn.
    + split; [by apply He|]. by eapply dec_final_rep.
    + eapply dec_final_again; [done|exact E|]. destruct Hret; [left; lia|by right].
  - by eapply dec_update_rep.
Qed.

Lemma decrypt_respects : respects (decrypt_step upstream dl') decrypt_rel.
Proof.
  intros s e n r s' R E. unfold decrypt_step in E.
  destruct (Nat.eqb_spec (length (d_output s)) 0) as [Hz|Hz]; cbn [negb] in E.
  2: { apply (inj Some) in E. by destruct (deliver_rel _ _ _ _ _ R E) as (bs & -> & ?). }
  apply length_zero_iff_nil in Hz. destruct R as (a & Ha & H). rewrite Hz, app_nil_r in H.
  destruct (upstream (d_up s) BUFF_SIZE) as [[[err|input] u]|] eqn:Eu; [| |done];
    pose proof (up_respects _ _ _ _ _ Ha Eu) as Hu; cbn in Hu.
  - injection E as <- <-. destruct Hu as [Hneg Hu]. split; [done|]. intros ->. exists a. cbn.
    rewrite Hz, app_nil_r. destruct (d_eof s); [|by auto]. destruct H as [He _].
    by pose proof (settles_stay _ _ _ up_settles _ _ _ _ _ Ha He Eu).
  - destruct (d_eof s).
    + destruct H as [He H]. pose proof (settles_stay _ _ _ up_settles _ _ _ _ _ Ha He Eu) as [-> He'].
      rewrite app_nil_r in Hu. apply (inj Some) in E.
      destruct (deliver_rel (mk_decrypt u (d_ctx s) [] true) e n r s') as (bs & -> & ?); [|done|done].
      exists a. cbn. by rewrite app_nil_r.
    + destruct (if match input with [] => true | _ => false end then _ else _)
        as [[ret output] ctx] eqn:Er.
      assert (0 <= ret \/ ret = - EAGAIN ->
        decrypt_rel (mk_decrypt u ctx output
          (match input with [] => true | _ => false end && (ret =? 0))) e) as Hrel.
      { intros Hret. eapply decrypt_call; [exact Hu|exact H| |exact Er|exact Hret].
        intros ->. eapply (settles_end _ _ _ up_settles); [exact Ha|apply BUFF_pos|exact Eu]. }
      destruct (Z.ltb_spec ret 0).
      * injection E as <- <-. split; [done|]. intros ->. by apply Hrel; right.
      * apply (inj Some) in E. destruct (deliver_rel _ _ _ _ _ (Hrel ltac:(by left)) E) as (bs & -> & ?).
        done.
Qed.

(** With a library that never answers non-empty input with an empty block, an empty
    block of the step means that everything was read and delivered. *)
Lemma decrypt_end s e n s' :
  never_stalls dl' -> decrypt_rel s e -> (0 < n)%nat -> decrypt_step upstream dl' s n = Some (inr [], s') ->
  exists a, Rup (d_up s') a /\ Eup (d_up s') /\ plain d0 a e.
Proof.
  intros Hstall R Hn E. pose proof (decrypt_respects _ _ _ _ _ R E) as R'.
  cbn in R'. rewrite app_nil_r in R'. unfold decrypt_step in E.
  assert (forall s0, deliver s0 n = (inr [], s') -> d_output s0 = []) as Hempty.
  { intros s0 [= Ht _]. by destruct (d_output s0), n; try done; try lia. }
  destruct (Nat.eqb_spec (length (d_output s)) 0) as [Hz|Hz]; cbn [negb] in E.
  2: { apply (inj Some) in E. apply Hempty in E. by rewrite E in Hz. }
  destruct (upstream (d_up s) BUFF_SIZE) as [[[err|input] u]|] eqn:Eu; [done| |done].
  assert (d_eof s' = true /\ d_output s' = []) as [He Ho].
  { destruct (d_eof s).
    { apply (inj Some) in E. unfold deliver in E. simplify_eq/=. split; [done|by destruct n]. }
    destruct (if match input with [] => true | _ => false end then _ else _)
      as [[ret output] ctx] eqn:Er.
    destruct (Z.ltb_spec ret 0); [done|]. apply (inj Some) in E. pose proof (Hempty _ E) as Ho.
    cbn in Ho. subst output. unfold deliver in E. simplify_eq/=. split; [|by destruct n].
    destruct input as [|b input]; [|by destruct (update_gives _ Hstall _ _ _ _ _ Er)].
    pose proof (final_code _ Hstall (d_ctx s)) as Hc. rewrite Er in Hc. cbn in *. by destruct (Z.eqb_spec ret 0); [|lia]. }
  destruct R' as (a & Ha & H). rewrite He, Ho, app_nil_r in H. exists a. tauto.
Qed.
End DecryptProps.

(** ** Decompression *)

(** What a decompression library documents: [z_rep x0 x a o]: from the initial
    context [x0], consuming [a] has led to context [x] and produced [o]. *)
Class ZlibSpec {X'} (zl : zlib X') := {
  z_rep : X' -> X' -> bytes -> bytes -> Prop;
  z_init_rep : forall x, z_rep x x [] [];
  z_call_rep : forall x0 x x' a o inp room ret n p,
    z_rep x0 x a o -> zl x inp room = (ret, x', n, p) -> ret <> Z_ERROR ->
    z_rep x0 x' (a ++ take n inp) (o ++ p);
}.

Section DecompressProps.
Context {U : Type} (upstream : step U) (Rup : U -> bytes -> Prop).
Context {X' : Type} (zl : zlib X') `{!ZlibSpec zl}.
Variable x0 : X'.
Hypothesis up_respects : respects upstream Rup.

(** The library has turned into the emitted bytes all that came from upstream but the
    pending input. *)
Definition decompress_rel (s : DecompressState) (e : bytes) : Prop :=
  exists a, Rup (z_up s) (a ++ z_in s) /\ z_rep x0 (z_ctx s) a e.

Lemma pull_rel s e r s1 :
  decompress_rel s e -> pull upstream s = Some (r, s1) ->
  match r with
  | None => decompress_rel s1 e
  | Some err => err < 0 /\ (err = - EAGAIN -> decompress_rel s1 e)
  end.
Proof.
  intros (a & Ha & Hz) E. unfold pull in E. destruct (z_in s) as [|b inp] eqn:Ein.
  - destruct (upstream (z_up s) BUFF_SIZE) as [[[err|input] u]|] eqn:Eu; [| |done];
      pose proof (up_respects _ _ _ _ _ Ha Eu) as Hu; injection E as <- <-; cbn in *.
    + destruct Hu as [Hneg Hu]. split; [done|]. intros He. exists a. split; [by apply Hu|done].
    + exists a. rewrite app_nil_r in Hu. done.
  - injection E as <- <-. exists a. by rewrite Ein.
Qed.

Lemma call_rel s e room ret x n p :
  decompress_rel s e -> zl (z_ctx s) (z_in s) room = (ret, x, n, p) -> ret <> Z_ERROR ->
  forall eof, decompress_rel (mk_decompress (z_up s) x (drop n (z_in s)) eof) (e ++ p).
Proof.
  intros (a & Ha & Hz) E Hret eof. exists (a ++ take n (z_in s)). cbn.
  rewrite <- app_assoc, take_drop. split; [done|]. by eapply z_call_rep.
Qed.

Lemma inflate_respects fuel : respects (inflate_loop upstream zl fuel) decompress_rel.
Proof.
  induction fuel as [|fuel IH]; intros s e n r s' R E; cbn [inflate_loop] in E; [done|].
  destruct (pull upstream s) as [[[err|] s1]|] eqn:Ep; [| |done].
  { injection E as <- <-. exact (pull_rel s e (Some err) s1 R Ep). }
  pose proof (pull_rel s e None s1 R Ep) as R1.
  destruct (z_eof s1); [injection E as <- <-; by rewrite app_nil_r|].
  destruct (zl (z_ctx s1) (z_in s1) n) as [[[ret ctx] consumed] out] eqn:Ez.
  pose proof (call_rel s1 e n ret ctx consumed out R1 Ez) as Hr.
  destruct ret, out as [|o out]; cbn in E; try (injection E as <- <-; by apply Hr);
    try (injection E as <- <-; done);
    (eapply IH; [|exact E]; specialize (Hr ltac:(done) false); by rewrite app_nil_r in Hr).
Qed.

Lemma zstd_feed_rel fuel up ctx inp out size ctx' inp' out' e :
  zstd_feed zl fuel ctx inp out size = Some (Some (ctx', inp', out')) ->
  decompress_rel (mk_decompress up ctx inp false) (e ++ out) ->
  decompress_rel (mk_decompress up ctx' inp' false) (e ++ out').
Proof.
  revert ctx inp out. induction fuel as [|fuel IH]; intros ctx inp out E R; cbn [zstd_feed] in E; [done|].
  destruct (zl ctx inp (size - length out)%nat) as [[[ret x] n] p] eqn:Ez.
  pose proof (call_rel _ _ _ _ _ _ _ R Ez) as Hr. cbn [z_up z_in] in Hr. rewrite <- app_assoc in Hr.
  assert (ret <> Z_ERROR -> (if (length (out ++ p) =? size)%nat then Some (Some (x, drop n inp, out ++ p))
    else match drop n inp with [] => Some (Some (x, drop n inp, out ++ p))
         | _ => zstd_feed zl fuel x (drop n inp) (out ++ p) size end) = Some (Some (ctx', inp', out')) ->
    decompress_rel (mk_decompress up ctx' inp' false) (e ++ out')) as Hgo.
  { intros Hne E1. specialize (Hr Hne false).
    destruct (length (out ++ p) =? size)%nat; [by injection E1 as <- <- <-|].
    destruct (drop n inp) as [|b rest] eqn:Ed; [by injection E1 as <- <- <-|]. by eapply IH. }
  destruct ret; try done; by apply Hgo.
Qed.

Lemma decompress_rel_eof s e eof :
  decompress_rel s e -> decompress_rel (mk_decompress (z_up s) (z_ctx s) (z_in s) eof) e.
Proof. intros (a & H). by exists a. Qed.

Lemma zstd_respects fuel : respects (zstd_step upstream zl fuel) decompress_rel.
Proof.
  induction fuel as [|fuel IH]; intros s e n r s' R E; cbn [zstd_step] in E; [done|].
  destruct (pull upstream s) as [[[err|] s1]|] eqn:Ep; [| |done].
  { injection E as <- <-. exact (pull_rel s e (Some err) s1 R Ep). }
  pose proof (pull_rel s e None s1 R Ep) as R1.
  destruct (zstd_feed zl fuel (z_ctx s1) (z_in s1) [] n) as [[[[ctx inp] out]|]|] eqn:Ez; [| |done].
  - assert (decompress_rel (mk_decompress (z_up s1) ctx inp (z_eof s1)) (e ++ out)) as R2.
    { eapply (decompress_rel_eof (mk_decompress (z_up s1) ctx inp false)).
      eapply zstd_feed_rel; [exact Ez|]. rewrite app_nil_r. by apply decompress_rel_eof. }
    destruct out as [|o out]; [|by injection E as <- <-]. rewrite app_nil_r in R2.
    destruct (z_eof s1); [injection E as <- <-; by rewrite app_nil_r|]. by eapply IH.
  - by injection E as <- <-.
Qed.

Lemma lz4_respects fuel : respects (lz4_step upstream zl fuel) decompress_rel.
Proof.
  induction fuel as [|fuel IH]; intros s e n r s' R E; cbn [lz4_step] in E; [done|].
  destruct (pull upstream s) as [[[err|] s1]|] eqn:Ep; [| |done].
  { injection E as <- <-. exact (pull_rel s e (Some err) s1 R Ep). }
  pose proof (pull_rel s e None s1 R Ep) as R1.
  destruct (length (z_in s1) =? 0)%nat; [injection E as <- <-; by rewrite app_nil_r|].
  destruct (zl (z_ctx s1) (z_in s1) n) as [[[ret ctx] consumed] out] eqn:Ez.
  pose proof (call_rel s1 e n ret ctx consumed out R1 Ez) as Hr.
  assert (forall eof, ret <> Z_ERROR ->
    (if (length out =? 0)%nat && (length (drop consumed (z_in s1)) =? length (z_in s1))%nat
     then Some (inl (-1), mk_decompress (z_up s1) ctx (drop consumed (z_in s1)) (z_eof s1))
     else if (length out =? 0)%nat && negb eof
     then lz4_step upstream zl fuel (mk_decompress (z_up s1) ctx (drop consumed (z_in s1)) eof) n
     else Some (inr out, mk_decompress (z_up s1) ctx (drop consumed (z_in s1)) eof)) = Some (r, s') ->
    match r with
    | inr bs => decompress_rel s' (e ++ bs)
    | inl err => err < 0 /\ (err = - EAGAIN -> decompress_rel s' e)
    end) as Hgo.
  { intros eof Hne E1. specialize (Hr Hne eof).
    destruct ((length out =? 0)%nat && _) eqn:E2; [by injection E1 as <- <-|].
    destruct (Nat.eqb_spec (length out) 0) as [Hz|_]; cbn [andb] in E1; [|by injection E1 as <- <-].
    apply length_zero_iff_nil in Hz. subst out. destruct eof; cbn [negb] in E1; [by injection E1 as <- <-|].
    rewrite app_nil_r in Hr. by eapply IH. }
  destruct ret; [by eapply Hgo|by eapply Hgo|by eapply Hgo|by injection E as <- <-].
Qed.
End DecompressProps.

(** ** The whole pipeline *)

Section Pipeline.
Context `{!DecryptSpec dl} (zl0 : zlib X) `{!ZlibSpec zl0}.
(** The context of the decryption and that of the decompressor, if there is one. *)
Variables (s0 : InputState) (od : option D) (ox : option X).

Definition rel1 (st : stage1) (e : bytes) : Prop :=
  match st with
  | Plain s => od = None /\ advanced s0 s e
  | Decrypted s =>
      match od with
      | Some d0 => decrypt_rel (advanced s0) input_ended dl d0 s e
      | None => False
      end
  end.

Definition rel2 (st : stage2) (e : bytes) : Prop :=
  match st with
  | Raw s => ox = None /\ rel1 s e
  | Inflated _ zl s =>
      match ox with
      | Some x0 => zl = zl0 /\ decompress_rel rel1 zl0 x0 s e
      | None => False
      end
  end.

Lemma stage1_respects : respects stage1_step rel1.
Proof.
  intros [s|s] e n r s' R E; cbn [stage1_step] in E; apply fmap_Some in E as ([r1 s1] & E & [= -> ->]).
  - destruct R as [Hn R]. pose proof (input_respects s0 s e n r1 s1 R E) as H.
    destruct r1; [|done]. split; [apply H|]. intros He. split; [done|]. by apply H.
  - cbn in R |- *. destruct od as [d0|]; [|done].
    exact (decrypt_respects input_step _ _ dl d0 (input_respects s0) (input_settles s0) s e n r1 s1 R E).
Qed.

Lemma stage2_respects fuel : respects (stage2_step fuel) rel2.
Proof.
  intros [s|d zl s] e n r s' R E; cbn [stage2_step] in E; apply fmap_Some in E as ([r1 s1] & E & [= -> ->]).
  - destruct R as [Hn R]. pose proof (stage1_respects s e n r1 s1 R E) as H.
    destruct r1; [|done]. split; [apply H|]. intros He. split; [done|]. by apply H.
  - cbn in R |- *. destruct ox as [x0|]; [|done]. destruct R as [-> R].
    assert (match r1 with
      | inr bs => decompress_rel rel1 zl0 x0 s1 (e ++ bs)
      | inl err => err < 0 /\ (err = - EAGAIN -> decompress_rel rel1 zl0 x0 s1 e)
      end) as H.
    { destruct d; cbn [decompress_step] in E;
        [eapply inflate_respects|eapply inflate_respects|eapply zstd_respects|eapply lz4_respects];
        (exact stage1_respects || exact R || exact E). }
    destruct r1; [|done]. split; [apply H|]. intros He. split; [done|]. by apply H.
Qed.

Lemma rel1_input st e : rel1 st e -> exists got, advanced s0 (input_of1 st) got.
Proof. destruct st; [intros [_ ?]; by exists e|]. cbn. destruct od; [|done]. intros (a & Ha & _). by exists a. Qed.

Lemma rel2_input st e : rel2 st e -> exists got, advanced s0 (input_of st) got.
Proof.
  destruct st; [intros [_ ?]; by eapply rel1_input|]. cbn. destruct ox; [|done].
  intros (_ & a & Ha & _). by eapply rel1_input.
Qed.
End Pipeline.

Section CopyProps.
Context {W : Type} (callback : W -> bytes -> Z * W).

(** [out] was accepted by the callback, in blocks. *)
Inductive sent : W -> bytes -> W -> Prop :=
  | sent_nil w : sent w [] w
  | sent_block w b w1 out w2 ret :
      callback w b = (ret, w1) -> 0 <= ret -> sent w1 out w2 -> sent w (b ++ out) w2.

(** What a loop that ends without error has done: the last step returned an empty
    block, and what was emitted before was written, or skipped. *)
Lemma copy_loop_spec (R : stage2 -> bytes -> Prop) args fuel st w prev prog st' w' prog' e :
  (forall f, respects (stage2_step f) R) -> R st e ->
  copy_loop callback fuel args st w prev prog = Some (0, st', w', prog') ->
  exists out st1 f, R st1 (e ++ out) /\ stage2_step f st1 BUFF_SIZE = Some (inr [], st') /\
    (if c_skip_file args then w' = w else sent w out w').
Proof.
  intros HR. revert st w prev prog e. induction fuel as [|fuel IH]; intros st w prev prog e He E; [done|].
  cbn [copy_loop] in E.
  destruct (stage2_step (S fuel) st BUFF_SIZE) as [[[err|bs] st1]|] eqn:Es; [| |done];
    pose proof (HR _ _ _ _ _ _ He Es) as H1; cbn in H1.
  - destruct H1 as [Hneg H1]. destruct (Z.eqb_spec err (- EAGAIN)) as [->|].
    + by eapply IH; [apply H1|].
    + injection E as -> _ _ _. lia.
  - destruct bs as [|b bs].
    { injection E as <- <- <-. exists [], st, (S fuel). rewrite app_nil_r.
      split_and!; [done|done|]. destruct (c_skip_file args); [done|constructor]. }
    assert (forall w1 prev1 prog1, copy_loop callback fuel args st1 w1 prev1 prog1 = Some (0, st', w', prog') ->
      exists out st2 f, R st2 (e ++ (b :: bs) ++ out) /\ stage2_step f st2 BUFF_SIZE = Some (inr [], st') /\
      (if c_skip_file args then w' = w1 else sent w1 out w')) as Hgo.
    { intros w1 prev1 prog1 E1. destruct (IH _ _ _ _ _ H1 E1) as (out & st2 & f & H2 & H3 & H4).
      exists out, st2, f. by rewrite app_assoc. }
    destruct (c_skip_file args).
    + destruct (Hgo _ _ _ E) as (out & st2 & f & H2 & H3 & H4). by exists ((b :: bs) ++ out), st2, f.
    + destruct (callback w (b :: bs)) as [ret w1] eqn:Ec.
      destruct (Z.ltb_spec ret 0); [by injection E|].
      match type of E with (if ?c then _ else _) = _ => destruct c end;
        destruct (Hgo _ _ _ E) as (out & st2 & f & H2 & H3 & H4);
        (exists ((b :: bs) ++ out), st2, f; split_and!; [done|done|]; by eapply sent_block).
Qed.

Lemma crypt_setup_neg ks args e : crypt_setup ks args = inl e -> e <> 0.
Proof. unfold crypt_setup. repeat case_match; intros [= <-]; done. Qed.

Lemma decompress_setup_neg cfg c : decompress_setup cfg c <> inl 0.
Proof. unfold decompress_setup. repeat case_match; done. Qed.

(** The pipeline that [copyfile] sets up. *)
Definition start_input (args : swupdate_copy) : InputState :=
  mk_input (c_fdin args) (c_inbuf args) 0 (c_nbytes args) (c_offs args)
    (if valid_hash (c_hash args) then HASH_init hl else None) 0.

Definition start_stage1 (args : swupdate_copy) (od : option D) : stage1 :=
  match od with
  | Some d => Decrypted (mk_decrypt (start_input args) d [] false)
  | None => Plain (start_input args)
  end.

Definition start_stage2 (args : swupdate_copy) (od : option D) (oz : option (decompressor * zlib X * X)) : stage2 :=
  match oz with
  | Some (d, zl, x) => Inflated d zl (mk_decompress (start_stage1 args od) x [] false)
  | None => Raw (start_stage1 args od)
  end.

Definition crypt_start (ks : option decryption_key) (args : swupdate_copy) (od : option D) : Prop :=
  if c_encrypted args then exists d, crypt_setup ks args = inr d /\ od = Some d else od = None.

Lemma copyfile_inv fuel cfg ks args w r :
  copyfile callback fuel cfg ks args w = Some r -> r_ret r = 0 ->
  exists od oz st' w' prog,
    crypt_start ks args od /\ decompress_setup cfg (c_compressed args) = inr oz /\
    copy_loop callback fuel args (start_stage2 args od oz) w 0 [] = Some (0, st', w', prog) /\
    r = copy_finish args (0, st', w', prog) /\
    (valid_hash (c_hash args) = true -> is_Some (HASH_init hl)).
Proof.
  unfold copyfile. intros E Hr.
  destruct (valid_hash (c_hash args) && _) eqn:Eh; [injection E as <-; by cbn in Hr|].
  assert (exists od, crypt_start ks args od /\
    (if c_encrypted args
     then match crypt_setup ks args with inl e => inl e | inr d => inr (Some d) end
     else inr None) = inr od :> Z + option D) as (od & Hod & Eod).
  { unfold crypt_start. destruct (c_encrypted args); [|by exists None].
    destruct (crypt_setup ks args) as [e|d] eqn:Ec; [|by exists (Some d); split; [exists d|]].
    injection E as <-. cbn in Hr. exfalso. apply (crypt_setup_neg ks args e Ec). done. }
  rewrite Eod in E. destruct (decompress_setup cfg (c_compressed args)) as [e|oz] eqn:Ez.
  { injection E as <-. cbn in Hr. subst e. by apply decompress_setup_neg in Ez. }
  destruct (negb (c_seek args =? 0) && _); [injection E as <-; by cbn in Hr|].
  apply fmap_Some in E as ([[[ret st'] w'] prog] & E & ->).
  assert (ret = 0) as ->.
  { cbn in Hr. destruct (Z.eqb_spec ret 0); [done|]. by cbn in Hr. }
  exists od, oz, st', w', prog. split_and!; [done|done| |done|].
  - rewrite <- E. unfold start_stage2, start_stage1, start_input. by destruct od, oz as [[[? ?] ?]|].
  - intros Hv. rewrite Hv in Eh. cbn in Eh. apply negb_false_iff, bool_decide_eq_true in Eh. done.
Qed.

(** The bytes that [copyfile] can read. *)
Definition source (args : swupdate_copy) : bytes :=
  match c_inbuf args with
  | None => content (c_fdin args)
  | Some buf => buf
  end.

Definition copy_ok (args : swupdate_copy) : Prop :=
  match c_inbuf args with
  | None => True
  | Some buf => (c_nbytes args <= length buf)%nat
  end.

Lemma start_input_ok args : copy_ok args -> input_ok (start_input args).
Proof. unfold copy_ok, input_ok. cbn. by destruct (c_inbuf args). Qed.

Lemma start_ahead args : ahead (start_input args) = source args.
Proof. unfold ahead, source. cbn. by destruct (c_inbuf args). Qed.

Lemma advanced_source args s got :
  advanced (start_input args) s got ->
  source args = got ++ ahead s /\ (length got <= c_nbytes args)%nat.
Proof. intros []. rewrite start_ahead in *. cbn in *. split; [done|lia]. Qed.

(** The two libraries need not be constrained for what concerns the input. *)
Definition any_decrypt : DecryptSpec dl.
Proof. by refine {| plain _ _ _ := True; dec_rep _ _ _ _ := True |}. Defined.

Definition any_zlib (zl : zlib X) : ZlibSpec zl.
Proof. by refine {| z_rep _ _ _ _ := True |}. Defined.

Lemma start_rel `{!DecryptSpec dl} `{!ZlibSpec zl0} args od oz :
  copy_ok args -> (forall d zl x, oz = Some (d, zl, x) -> zl = zl0) ->
  rel2 zl0 (start_input args) od (snd <$> oz) (start_stage2 args od oz) [].
Proof.
  intros Hok Hz.
  assert (rel1 (start_input args) od (start_stage1 args od) []) as H1.
  { unfold start_stage1. destruct od as [d|]; [|split; [done|]; by apply advanced_refl, start_input_ok].
    exists []. split; [by apply advanced_refl, start_input_ok|]. apply dec_init_rep. }
  unfold start_stage2. destruct oz as [[[d zl] x]|]; [|done].
  rewrite (Hz d zl x eq_refl). split; [done|]. exists []. split; [done|apply z_init_rep].
Qed.

(** The library of the pipeline; a dummy when there is none. *)
Definition zlib_of (oz : option (decompressor * zlib X * X)) : zlib X :=
  match oz with
  | Some (_, zl, _) => zl
  | None => fun x _ _ => (Z_ERROR, x, 0%nat, [])
  end.

Lemma hash_compare_zero_sha `{!HashSpec hl} dgst h a d :
  dgst = Some d -> hash_rep d a -> length h = SHA256_HASH_LENGTH -> 0 <= hash_compare dgst h -> sha a = h.
Proof.
  intros -> Hr Hl. unfold hash_compare. destruct (HASH_final hl d) as [md|] eqn:Ef; [|done].
  destruct (Nat.eqb_spec (length md) SHA256_HASH_LENGTH) as [Hm|]; [|done]. cbn [negb orb].
  destruct (Z.eqb_spec (HASH_compare hl h md) 0) as [Hc|]; [|done]. intros _.
  apply hash_compare_zero in Hc; [|done|done]. subst. symmetry. by eapply hash_final_rep.
Qed.

(** ** Where the written bytes come from *)

(** What the decryption makes of the bytes [a], all of it or all of it so far; without
    decryption, [a] itself. *)
Definition deciphers `{!DecryptSpec dl} (od : option D) (a e : bytes) : Prop :=
  match od with
  | None => e = a
  | Some d => plain d a e \/ exists c, dec_rep d c a e
  end.

(** What the decompression makes of [e]: the library may leave the end of [e] alone. *)
Definition inflates (zl : zlib X) `{!ZlibSpec zl} (ox : option X) (e out : bytes) : Prop :=
  match ox with
  | None => out = e
  | Some x => exists used pending x', e = used ++ pending /\ z_rep x x' used out
  end.

(** What the first stage has made and not handed over. *)
Definition held_of (st : stage1) : bytes :=
  match st with Plain _ => [] | Decrypted s => d_output s end.

Lemma rel1_deciphers `{!DecryptSpec dl} s0 od st e :
  rel1 s0 od st e -> exists got, advanced s0 (input_of1 st) got /\ deciphers od got (e ++ held_of st).
Proof.
  destruct st as [s|s]; cbn.
  - intros [-> H]. exists e. by rewrite app_nil_r.
  - destruct od as [d|]; [|done]. intros (a & Ha & H). exists a. split; [done|].
    destruct (d_eof s); [left; apply H|right; by eexists].
Qed.

Lemma stage1_end_held st n st' :
  (0 < n)%nat -> stage1_step st n = Some (inr [], st') -> held_of st' = [].
Proof.
  intros Hn E. destruct st as [s|s]; cbn [stage1_step] in E;
    apply fmap_Some in E as ([r1 s1] & E & [= <- ->]); [done|]. cbn [held_of].
  assert (forall s0, deliver s0 n = (inr [], s1) -> d_output s1 = []) as Hd.
  { intros s0 [= Ht <-]. cbn. destruct (d_output s0), n; done || lia. }
  unfold decrypt_step in E. repeat case_match; simplify_eq; by eapply Hd.
Qed.

Lemma rel2_inflates `{!DecryptSpec dl} (zl : zlib X) `{!ZlibSpec zl} s0 od ox st out :
  rel2 zl s0 od ox st out ->
  exists got e held, advanced s0 (input_of st) got /\ deciphers od got (e ++ held) /\ inflates zl ox e out /\
    held = (match st with Raw s => held_of s | Inflated _ _ s => held_of (z_up s) end).
Proof.
  destruct st as [s|d zl1 s]; cbn.
  - intros [-> H]. destruct (rel1_deciphers _ _ _ _ H) as (got & H1 & H2). by exists got, out, (held_of s).
  - destruct ox as [x|]; [|done]. intros (_ & a & Ha & Hz).
    destruct (rel1_deciphers _ _ _ _ Ha) as (got & H1 & H2).
    exists got, (a ++ z_in s), (held_of (z_up s)). split_and!; [done|done| |done].
    by exists a, (z_in s), (z_ctx s).
Qed.

(** Nothing is held when the last block was empty, unless a decompressor comes behind
    a decryption. *)
Lemma end_held `{!DecryptSpec dl} (zl : zlib X) `{!ZlibSpec zl} s0 od ox f st st' out :
  rel2 zl s0 od ox st' out -> stage2_step f st BUFF_SIZE = Some (inr [], st') ->
  od = None \/ ox = None ->
  match st' with Raw s => held_of s | Inflated _ _ s => held_of (z_up s) end = [].
Proof.
  intros H E Ho. destruct st as [s|d zl1 s]; cbn [stage2_step] in E;
    apply fmap_Some in E as ([r1 s1] & E & [= <- ->]).
  - by eapply stage1_end_held; [apply BUFF_pos|].
  - cbn in H. destruct ox as [x|]; [|done]. destruct Ho as [->|]; [|done].
    destruct H as (_ & a & Ha & _). destruct (z_up s1); [done|by destruct Ha].
Qed.

Lemma fill_loop_left f n s ret s' f' :
  healthy f -> fill_loop hl f n s = (ret, s', f') -> exists pad, content f = pad ++ content f' /\ (length pad <= n)%nat.
Proof.
  revert n s. induction f as [|ev f IH]; intros n s Hf E; cbn [fill_loop] in E;
    (destruct (Nat.eqb_spec n 0) as [->|Hn]; [injection E as <- <- <-; exists []; cbn; split; [done|lia]|]).
  { injection E as <- <- <-. exists []. cbn. split; [done|lia]. }
  destruct ev as [b bs| |].
  - destruct (fill_chunk hl (take n (b :: bs)) s) as [s1 ok]. destruct ok; cbn [negb] in E.
    2: { injection E as <- <- <-. exists (take n (b :: bs)).
         rewrite rd_block_content, app_assoc, take_drop, length_take. split; [done|lia]. }
    destruct (Nat.leb_spec (length (b :: bs)) n) as [Hl|Hl].
    + destruct (IH _ _ Hf E) as (pad & Hp & Hlen). exists ((b :: bs) ++ pad). rewrite length_app.
      split; [|lia]. change (content (RdData b bs :: f)) with ((b :: bs) ++ content f). by rewrite Hp, app_assoc.
    + injection E as <- <- <-. exists (take n (b :: bs)).
      rewrite rd_block_content, app_assoc, take_drop, length_take. split; [done|lia].
  - destruct (IH _ _ Hf E) as (pad & Hp & Hlen). by exists pad.
  - by destruct Hf.
Qed.

(** The descriptor that a copy without error leaves is behind what was read and at
    most three bytes of padding (the result of reading these is ignored). *)
Lemma copy_finish_left args st (w : W) prog :
  c_inbuf args = None -> in_buf (input_of st) = None -> healthy (in_fd (input_of st)) -> r_ret (copy_finish args (0, st, w, prog)) = 0 ->
  exists pad, ahead (input_of st) = pad ++ content (r_fd (copy_finish args (0, st, w, prog))) /\
    (length pad <= 3)%nat.
Proof.
  intros Hb Hs Hf Hr. unfold copy_finish in *. cbn [Z.eqb negb] in *.
  destruct (match c_hash args with Some _ => _ | None => _ end); [done|]. rewrite Hb.
  destruct (fill_buffer_ hl _ _ _ _ _) as [[ret fs] f] eqn:E. cbn. unfold ahead. rewrite Hs.
  destruct (fill_loop_left _ _ _ _ _ _ Hf E) as (pad & Hp & Hlen). exists pad. split; [done|].
  pose proof (NPAD_range (in_offs (input_of st))). lia.
Qed.

(** What a copy that compared the digest has shown. *)
Lemma copy_finish_hash `{!HashSpec hl} args st (w : W) prog h got :
  c_hash args = Some h -> length h = SHA256_HASH_LENGTH -> valid_hash (c_hash args) = true ->
  is_Some (HASH_init hl) -> advanced (start_input args) (input_of st) got ->
  r_ret (copy_finish args (0, st, w, prog)) = 0 -> sha got = h.
Proof.
  intros Hh Hl Hv [d Hd] Hadv Hr. destruct (adv_dgst _ _ _ Hadv [] d) as (d' & Hd' & Hrep).
  { cbn. by rewrite Hv. }
  { by apply hash_init_rep. }
  cbn in Hr. rewrite Hv, Hh in Hr. cbn [andb] in Hr.
  destruct (Z.ltb_spec (hash_compare (in_dgst (input_of st)) h) 0); [by cbn in Hr|].
  by eapply hash_compare_zero_sha.
Qed.

Lemma copy_finish_out args st (w : W) prog : r_out (copy_finish args (0, st, w, prog)) = w.
Proof. cbn. repeat case_match; done. Qed.

(** C3: an artifact with a hash in sw-description is accepted only if the bytes from
    which the output was made have this hash, however it is encrypted or compressed.
    When [copyfile] returns 0, it has read [got], at most [nbytes] bytes: a
    descriptor without read errors is left behind [got] and at most three bytes of
    padding. The digest of [got] is the expected one; [e] is what the decryption
    library has released for [got], possibly not all of the plaintext (but for [held],
    which a decompressor behind it has not asked for), [out] what the decompression
    made of [e], and exactly [out] was accepted by the callback, or nothing if the
    copy is to be skipped. So of an artifact that is neither encrypted nor compressed,
    exactly [got] was written. *)
Theorem copyfile_verifies_hash `{!HashSpec hl} `{!DecryptSpec dl} (zl0 : zlib X) `{!ZlibSpec zl0}
    (fuel : nat) (cfg : config) (ks : option decryption_key) (args : swupdate_copy) (w : W)
    (r : copy_result) (h : bytes) :
  copy_ok args -> c_hash args = Some h -> length h = SHA256_HASH_LENGTH ->
  valid_hash (c_hash args) = true ->
  (forall dec zl x, decompress_setup cfg (c_compressed args) = inr (Some (dec, zl, x)) -> zl = zl0) ->
  copyfile callback fuel cfg ks args w = Some r -> r_ret r = 0 ->
  exists od oz got rest e held out,
    crypt_start ks args od /\ decompress_setup cfg (c_compressed args) = inr oz /\
    source args = got ++ rest /\ (length got <= c_nbytes args)%nat /\
    (c_inbuf args = None -> healthy (c_fdin args) ->
      exists pad, rest = pad ++ content (r_fd r) /\ (length pad <= 3)%nat) /\
    sha got = h /\
    deciphers od got (e ++ held) /\ (od = None \/ oz = None -> held = []) /\
    inflates zl0 (snd <$> oz) e out /\
    (if c_skip_file args then r_out r = w else sent w out (r_out r)).
Proof.
  intros Hok Hh Hl Hv Hzl E Hr.
  destruct (copyfile_inv _ _ _ _ _ _ E Hr) as (od & oz & st' & w' & prog & Hod & Hoz & El & -> & Hinit).
  pose proof (start_rel (zl0 := zl0) args od oz Hok
    ltac:(intros d zl x ->; by eapply Hzl)) as H0.
  destruct (copy_loop_spec _ args _ _ _ _ _ _ _ _ _ (stage2_respects _ _ _ _) H0 El)
    as (out & st1 & f & H1 & H2 & H3).
  pose proof (stage2_respects _ _ _ _ _ _ _ _ _ _ H1 H2) as H4. cbn beta iota in H4. rewrite app_nil_r in H4.
  destruct (rel2_inflates _ _ _ _ _ _ H4) as (got & e & held & Hadv & Hdec & Hinf & Hheld).
  destruct (advanced_source _ _ _ Hadv) as [Hsrc Hn].
  exists od, oz, got, (ahead (input_of st')), e, held, out. split_and!; try done.
  - intros Hb Hf. apply copy_finish_left; [done| | |done].
    + by rewrite (adv_buf _ _ _ Hadv).
    + by apply (adv_healthy _ _ _ Hadv).
  - eapply copy_finish_hash; eauto.
  - intros Ho. rewrite Hheld. eapply end_held; [exact H4|exact H2|]. destruct Ho as [| ->]; [by left|by right].
  - by rewrite copy_finish_out.
Qed.

Lemma advanced_ended args s got :
  advanced (start_input args) s got -> input_ended s -> got = take (c_nbytes args) (source args).
Proof.
  intros Hadv He. destruct (advanced_source _ _ _ Hadv) as [-> Hn].
  pose proof (adv_nbytes _ _ _ Hadv) as Hb. cbn in Hb. destruct He as [Hz|[Hbuf Hf]].
  - rewrite Hb, Hz, Nat.add_0_r. by rewrite take_app_length.
  - unfold ahead. rewrite Hbuf, Hf. cbn. rewrite app_nil_r. by rewrite take_ge.
Qed.

(** The last step of a loop that succeeded, when nothing is compressed. *)
Lemma copyfile_uncompressed `{!DecryptSpec dl} fuel cfg ks args w r :
  copy_ok args -> c_compressed args = COMPRESSED_FALSE -> c_skip_file args = false ->
  copyfile callback fuel cfg ks args w = Some r -> r_ret r = 0 ->
  exists od out st st', crypt_start ks args od /\ rel1 (start_input args) od st out /\
    stage1_step st BUFF_SIZE = Some (inr [], st') /\ sent w out (r_out r).
Proof.
  intros Hok Hc Hs E Hr.
  destruct (copyfile_inv _ _ _ _ _ _ E Hr) as (od & oz & st' & w' & prog & Hod & Hoz & El & -> & _).
  rewrite Hc in Hoz. injection Hoz as <-.
  pose proof (@start_rel _ (zlib_of None) (any_zlib _) args od None Hok ltac:(done)) as H0.
  destruct (copy_loop_spec _ args _ _ _ _ _ _ _ _ _ (stage2_respects _ _ _ _) H0 El)
    as (out & st1 & f & H1 & H2 & H3). rewrite Hs in H3.
  destruct st1 as [st1|]; [|done]. destruct H1 as [_ H1]. cbn in H2.
  apply fmap_Some in H2 as ([r1 st2] & H2 & [= <- ->]).
  exists od, out, st1, st2. split_and!; [done|done|done|].
  cbn in Hr |- *. repeat case_match; done.
Qed.

(** With a decryption library that keeps its promises and answers every block with
    some plaintext, an encrypted artifact that is copied without error is written
    as the plaintext of its first [nbytes] bytes. *)
Theorem copyfile_decrypts `{!DecryptSpec dl} (fuel : nat) (cfg : config)
    (ks : option decryption_key) (args : swupdate_copy) (w : W) (r : copy_result) (d : D) :
  copy_ok args -> c_encrypted args = true -> c_compressed args = COMPRESSED_FALSE ->
  c_skip_file args = false -> crypt_setup ks args = inr d -> never_stalls dl ->
  copyfile callback fuel cfg ks args w = Some r -> r_ret r = 0 ->
  exists out, plain d (take (c_nbytes args) (source args)) out /\ sent w out (r_out r).
Proof.
  intros Hok He Hc Hs Hd Hst E Hr.
  destruct (copyfile_uncompressed _ _ _ _ _ _ Hok Hc Hs E Hr) as (od & out & st & st' & Hod & H1 & H2 & H3).
  unfold crypt_start in Hod. rewrite He in Hod. destruct Hod as (d' & Hd' & ->).
  rewrite Hd in Hd'. injection Hd' as <-. destruct st as [|s1]; [by destruct H1|]. cbn in H1, H2.
  apply fmap_Some in H2 as ([r1 s2] & H2 & [= <- _]).
  destruct (decrypt_end _ _ _ _ _ (input_respects _) (input_settles _) _ _ _ _ Hst H1 BUFF_pos H2)
    as (a & Ha & Hend & Hp).
  exists out. split; [|done]. by rewrite <- (advanced_ended _ _ _ Ha Hend).
Qed.

Lemma plain_loop_end args fuel w prev prog st' w' prog' :
  copy_ok args ->
  copy_loop callback fuel args (start_stage2 args None None) w prev prog = Some (0, st', w', prog') ->
  exists s', st' = Raw (Plain s') /\
    advanced (start_input args) s' (take (c_nbytes args) (source args)) /\
    (if c_skip_file args then w' = w else sent w (take (c_nbytes args) (source args)) w').
Proof.
  intros Hok El.
  pose proof (@start_rel any_decrypt (zlib_of None) (any_zlib _) args None None Hok ltac:(done)) as H0.
  destruct (copy_loop_spec _ args _ _ _ _ _ _ _ _ _ (stage2_respects _ _ _ _) H0 El)
    as (out & st1 & f & H1 & H2 & H3).
  destruct st1 as [[s1|]|]; [|by destruct H1|done]. destruct H1 as [_ [_ H1]]. cbn in H2, H1.
  apply fmap_Some in H2 as ([r1 st2] & H2 & [= <- ->]).
  apply fmap_Some in H2 as ([r2 s2] & H2 & [= <- ->]).
  pose proof (settles_end _ _ _ (input_settles _) _ _ _ _ H1 BUFF_pos H2) as Hend.
  pose proof (input_respects _ _ _ _ _ _ H1 H2) as H4. cbn in H4. rewrite app_nil_r in H4.
  exists s2. rewrite <- (advanced_ended _ _ _ H4 Hend). done.
Qed.

Lemma plain_loop_ret fuel args s w prev prog ret st' w' prog' :
  copy_loop callback fuel args (Raw (Plain s)) w prev prog = Some (ret, st', w', prog') -> ret <= 0.
Proof.
  revert s w prev prog. induction fuel as [|fuel IH]; intros s w prev prog; [done|].
  cbn [copy_loop stage2_step stage1_step].
  destruct (input_step s BUFF_SIZE) as [[[e|[|b bs]] s']|] eqn:Hi; cbn; [| | |done].
  - assert (e < 0) as Hneg.
    { unfold input_step in Hi. repeat case_match; simplify_eq; try done; by apply Z.ltb_lt. }
    case_if; [apply IH|]. intros ?; simplify_eq. lia.
  - intros ?; simplify_eq. lia.
  - case_if; [apply IH|]. destruct (callback w (b :: bs)) as [r w1]. case_if; [by intros ?; simplify_eq|].
    case_if; apply IH.
Qed.

(** A plain copy has no other result than 0 and the errors. *)
Lemma copyfile_plain_ret fuel cfg ks args w r :
  c_encrypted args = false -> c_compressed args = COMPRESSED_FALSE ->
  copyfile callback fuel cfg ks args w = Some r -> r_ret r <= 0.
Proof.
  intros He Hc. unfold copyfile. rewrite He, Hc.
  case_if; [intros ?; by simplify_eq/=|]. cbn [decompress_setup].
  case_if; [intros ?; by simplify_eq/=|].
  intros (x & Hx & ->)%fmap_Some. destruct x as [[[ret st] w'] prog].
  apply plain_loop_ret in Hx. unfold copy_finish. repeat case_match; cbn; done || lia.
Qed.

(** The digest of all of a plain artifact is checked. *)
Lemma copyfile_hash_plain `{!HashSpec hl} (fuel : nat) (cfg : config)
    (ks : option decryption_key) (args : swupdate_copy) (w : W) (r : copy_result) (h : bytes) :
  copy_ok args -> c_encrypted args = false -> c_compressed args = COMPRESSED_FALSE ->
  c_hash args = Some h -> length h = SHA256_HASH_LENGTH -> valid_hash (c_hash args) = true ->
  copyfile callback fuel cfg ks args w = Some r -> r_ret r = 0 ->
  sha (take (c_nbytes args) (source args)) = h.
Proof.
  intros Hok He Hc Hh Hl Hv E Hr.
  destruct (copyfile_inv _ _ _ _ _ _ E Hr) as (od & oz & st' & w' & prog & Hod & Hoz & El & -> & Hinit).
  rewrite Hc in Hoz. injection Hoz as <-. unfold crypt_start in Hod. rewrite He in Hod. subst od.
  destruct (plain_loop_end _ _ _ _ _ _ _ _ Hok El) as (s' & -> & Hadv & _).
  exact (copy_finish_hash args (Raw (Plain s')) w' prog h _ Hh Hl Hv (Hinit Hv) Hadv Hr).
Qed.

(** An artifact that is neither encrypted nor compressed and is copied without
    error is written byte by byte. *)
Theorem copyfile_copies (fuel : nat) (cfg : config) (ks : option decryption_key)
    (args : swupdate_copy) (w : W) (r : copy_result) :
  copy_ok args -> c_encrypted args = false -> c_compressed args = COMPRESSED_FALSE ->
  c_skip_file args = false ->
  copyfile callback fuel cfg ks args w = Some r -> r_ret r = 0 ->
  sent w (take (c_nbytes args) (source args)) (r_out r).
Proof.
  intros Hok He Hc Hs E Hr.
  destruct (copyfile_inv _ _ _ _ _ _ E Hr) as (od & oz & st' & w' & prog & Hod & Hoz & El & -> & _).
  rewrite Hc in Hoz. injection Hoz as <-. unfold crypt_start in Hod. rewrite He in Hod. subst od.
  destruct (plain_loop_end _ _ _ _ _ _ _ _ Hok El) as (s' & _ & _ & H3). rewrite Hs in H3.
  cbn in Hr |- *. repeat case_match; done.
Qed.

(** What is written of a compressed artifact is what the decompression library has
    produced from the bytes of the artifact in order, without loss: the bytes it
    consumed are a prefix of the first [nbytes] bytes of the source. *)
Theorem copyfile_decompresses (fuel : nat) (cfg : config) (ks : option decryption_key)
    (args : swupdate_copy) (w : W) (r : copy_result) (dec : decompressor) (zl : zlib X) (x : X)
    `{!ZlibSpec zl} :
  copy_ok args -> c_encrypted args = false -> c_skip_file args = false ->
  decompress_setup cfg (c_compressed args) = inr (Some (dec, zl, x)) ->
  copyfile callback fuel cfg ks args w = Some r -> r_ret r = 0 ->
  exists consumed rest out x', take (c_nbytes args) (source args) = consumed ++ rest /\
    z_rep x x' consumed out /\ sent w out (r_out r).
Proof.
  intros Hok He Hs Hz E Hr.
  destruct (copyfile_inv _ _ _ _ _ _ E Hr) as (od & oz & st' & w' & prog & Hod & Hoz & El & -> & _).
  unfold crypt_start in Hod. rewrite He in Hod. subst od. rewrite Hz in Hoz. injection Hoz as <-.
  pose proof (@start_rel any_decrypt zl _ args None (Some (dec, zl, x)) Hok ltac:(congruence)) as H0.
  destruct (copy_loop_spec _ args _ _ _ _ _ _ _ _ _ (stage2_respects _ _ _ _) H0 El)
    as (out & st1 & f & H1 & _ & H3). rewrite Hs in H3.
  destruct st1 as [|dec1 zl1 s1]; [by destruct H1|]. destruct H1 as [-> (a & Ha & Hrep)].
  destruct (z_up s1) as [s2|] eqn:Eup; [|done]. destruct Ha as [_ Ha].
  destruct (advanced_source _ _ _ Ha) as [Hsrc Hn].
  exists a, (z_in s1 ++ take (c_nbytes args - length (a ++ z_in s1)) (ahead s2)), out, (z_ctx s1).
  split_and!; [|done|].
  - rewrite Hsrc, take_app_ge by done. by rewrite app_assoc.
  - cbn in Hr |- *. repeat case_match; done.
Qed.

(** A compressed artifact with a hash: what is written was produced from bytes that have this hash. *)
Lemma copyfile_inflated `{!HashSpec hl} (fuel : nat) (cfg : config) (ks : option decryption_key)
    (args : swupdate_copy) (w : W) (r : copy_result) (dec : decompressor) (zl : zlib X) (x : X) (h : bytes)
    `{!ZlibSpec zl} :
  copy_ok args -> c_encrypted args = false -> c_skip_file args = false ->
  decompress_setup cfg (c_compressed args) = inr (Some (dec, zl, x)) ->
  c_hash args = Some h -> length h = SHA256_HASH_LENGTH -> valid_hash (c_hash args) = true ->
  copyfile callback fuel cfg ks args w = Some r -> r_ret r = 0 ->
  exists consumed left rest out x', source args = (consumed ++ left) ++ rest /\
    (length (consumed ++ left) <= c_nbytes args)%nat /\ sha (consumed ++ left) = h /\
    z_rep x x' consumed out /\ sent w out (r_out r).
Proof.
  intros Hok He Hs Hz Hh Hl Hv E Hr.
  destruct (copyfile_inv _ _ _ _ _ _ E Hr) as (od & oz & st' & w' & prog & Hod & Hoz & El & -> & Hinit).
  unfold crypt_start in Hod. rewrite He in Hod. subst od. rewrite Hz in Hoz. injection Hoz as <-.
  pose proof (@start_rel any_decrypt zl _ args None (Some (dec, zl, x)) Hok ltac:(congruence)) as H0.
  destruct (copy_loop_spec _ args _ _ _ _ _ _ _ _ _ (stage2_respects _ _ _ _) H0 El)
    as (out & st1 & f & H1 & H2 & H3). rewrite Hs in H3.
  pose proof (stage2_respects _ _ _ _ _ _ _ _ _ _ H1 H2) as H4. cbn beta iota in H4. rewrite app_nil_r in H4.
  destruct st' as [|dec1 zl1 s1]; [by destruct H4|]. destruct H4 as [-> (a & Ha & Hrep)].
  destruct (z_up s1) as [s2|] eqn:Eup; [|done]. destruct Ha as [_ Ha].
  destruct (advanced_source _ _ _ Ha) as [Hsrc Hn].
  exists a, (z_in s1), (ahead s2), out, (z_ctx s1). split_and!; [done|done| |done|].
  - eapply copy_finish_hash; [done|done|done|by apply Hinit| |exact Hr]. cbn [input_of]. by rewrite Eup.
  - cbn in Hr |- *. repeat case_match; done.
Qed.

(** Whatever becomes of a copy, the output is changed by the callback only. *)
Lemma copyfile_output (R : W -> W -> Prop) `{!PreOrder R} fuel cfg ks args w r :
  (forall w b, R w (callback w b).2) -> copyfile callback fuel cfg ks args w = Some r -> R w (r_out r).
Proof.
  intros Hc. assert (forall fuel st w prev prog ret st' w' prog',
    copy_loop callback fuel args st w prev prog = Some (ret, st', w', prog') -> R w w') as Hloop.
  { clear -Hc PreOrder0. induction fuel as [|fuel IH]; intros st w prev prog ret st' w' prog' E; [done|].
    cbn [copy_loop] in E. destruct (stage2_step (S fuel) st BUFF_SIZE) as [[[e|[|b bs]] st1]|]; [| | |done].
    - case_if; [by eapply IH|]. by simplify_eq.
    - by simplify_eq.
    - case_if; [by eapply IH|]. pose proof (Hc w (b :: bs)) as H1. destruct (callback w (b :: bs)) as [ret1 w1].
      cbn in H1. case_if; [by simplify_eq|]. transitivity w1; [done|]. case_if; by eapply IH. }
  unfold copyfile. intros E.
  repeat match type of E with
  | (if ?c then _ else _) = _ => destruct c; [by injection E as <-|]
  | match ?c with inl _ => _ | inr _ => _ end = _ => destruct c; [by injection E as <-|]
  end.
  apply fmap_Some in E as ([[[ret st'] w'] prog] & E & ->). apply Hloop in E.
  unfold copy_finish. repeat case_match; done.
Qed.

(** A key given in sw-description is accepted only as 64 hexadecimal digits, 256
    bits: the documentation asks for 16, 24 or 32 characters, and keys of 128 or 192
    bits are refused. *)
Theorem crypt_setup_key_length (ks : option decryption_key) (args : swupdate_copy) (key : string) :
  c_imgivt args = None -> c_imgaes args = Some key -> key <> "" -> String.length key <> 64%nat ->
  crypt_setup ks args = inl (- EINVAL).
Proof.
  intros Hi Ha Hne Hl. unfold crypt_setup. rewrite Hi, Ha. cbn [nonempty].
  destruct (String.eqb_spec key ""); [done|].
  assert (forall dest, (ascii_to_bin dest AES_256_KEY_LEN (Some key)).1 = - EINVAL) as E.
  { intros dest. unfold ascii_to_bin. case_if; [done|].
    destruct (Nat.eqb_spec (String.length key) (2 * AES_256_KEY_LEN)); [|done].
    unfold AES_256_KEY_LEN in *. lia. }
  specialize (E (replicate AES_256_KEY_LEN 0)).
  destruct (ascii_to_bin _ _ _) as [ret b]. cbn in E. subst ret. by rewrite orb_true_r.
Qed.

(** ** Intact artifacts are accepted *)

(** A hash library that does not fail. *)
Record hash_total `{!HashSpec hl} : Prop := {
  total_init : is_Some (HASH_init hl);
  total_update : forall c b, is_Some (HASH_update hl c b);
  total_final : forall c, is_Some (HASH_final hl c);
  total_length : forall a, length (sha a) = SHA256_HASH_LENGTH;
}.

Lemma fill_loop_hash_total f n st :
  (forall c b, is_Some (HASH_update hl c b)) -> healthy f -> 0 <= (fill_loop hl f n st).1.1.
Proof.
  intros Hu. revert n st. induction f as [|ev f IH]; intros n st Hf; cbn [fill_loop];
    destruct (Nat.eqb_spec n 0); try (cbn; lia).
  destruct ev as [b bs| |]; [|by apply IH|done].
  destruct (fill_chunk hl (take n (b :: bs)) st) as [st1 ok] eqn:Ec.
  assert (ok = true) as ->.
  { unfold fill_chunk in Ec. destruct (fill_dgst st) as [d|]; [|by injection Ec].
    destruct (Hu d (take n (b :: bs))) as [d' Hd]. rewrite Hd in Ec. by injection Ec. }
  cbn [negb]. destruct (Nat.leb_spec (length (b :: bs)) n); [by apply IH|cbn; lia].
Qed.

(** The callback accepts all data from a state on. *)
Definition accepting (P : W -> Prop) : Prop :=
  forall w b, P w -> 0 <= (callback w b).1 /\ P (callback w b).2.

(** ... or all data that may still come: [n] bytes. *)
Definition accepting_upto (P : W -> nat -> Prop) : Prop :=
  forall w b n, P w (length b + n)%nat -> P w n /\ 0 <= (callback w b).1 /\ P (callback w b).2 n.

Lemma accepting_all P : accepting P -> accepting_upto (fun w _ => P w).
Proof. intros H w b n Hw. destruct (H w b Hw). by split_and!. Qed.

Lemma copy_loop_plain_total P fuel args s w prev prog :
  (forall c b, is_Some (HASH_update hl c b)) -> accepting_upto P -> P w (in_nbytes s) ->
  healthy (in_fd s) -> in_buf s = None -> (in_nbytes s < fuel)%nat ->
  exists st w' prog', copy_loop callback fuel args (Raw (Plain s)) w prev prog = Some (0, st, w', prog').
Proof.
  intros Hu Hcb. revert s w prev prog. induction fuel as [|fuel IH]; intros s w prev prog Hw Hh Hb Hn; [lia|].
  cbn [copy_loop stage2_step stage1_step].
  destruct (input_step s BUFF_SIZE) as [[r s1]|] eqn:Es.
  2: { unfold input_step in Es. rewrite Hb in Es. by repeat case_match. }
  pose proof (input_step_spec s _ r s1 ltac:(unfold input_ok; by rewrite Hb) Es) as H.
  destruct r as [err|bs].
  { exfalso. unfold input_step in Es. rewrite Hb in Es.
    match type of Es with context [fill_buffer_ hl ?f ?n ?o ?c ?d] =>
      pose proof (fill_loop_hash_total f n (mk_fill [] o c d) Hu Hh) as Hp;
      change (fill_loop hl f n (mk_fill [] o c d)) with (fill_buffer_ hl f n o c d) in Hp;
      destruct (fill_buffer_ hl f n o c d) as [[ret fs] f'] end.
    cbn in Hp. destruct (Z.ltb_spec ret 0); [lia|done]. }
  destruct H as [Hadv _]. cbn [fmap option_fmap option_map fst snd].
  destruct bs as [|b bs]; [by eexists _, _, _|].
  pose proof (adv_nbytes _ _ _ Hadv) as Hl. cbn [length] in Hl.
  assert (forall w1 prev1 prog1, P w1 (in_nbytes s1) -> exists st w' prog',
    copy_loop callback fuel args (Raw (Plain s1)) w1 prev1 prog1 = Some (0, st, w', prog')) as Hgo.
  { intros. apply IH; [done|by apply Hadv|by rewrite (adv_buf _ _ _ Hadv)|lia]. }
  destruct (Hcb w (b :: bs) (in_nbytes s1)) as (Hk & Hr & Hw1); [cbn [length]; by rewrite <- Hl|].
  destruct (c_skip_file args); [by apply Hgo|]. destruct (callback w (b :: bs)) as [ret w1]. cbn in Hr, Hw1.
  destruct (Z.ltb_spec ret 0); [lia|]. case_match; by apply Hgo.
Qed.

(** A plain copy from a descriptor. *)
Record plain_copy (args : swupdate_copy) : Prop := {
  pc_buf : c_inbuf args = None;
  pc_encrypted : c_encrypted args = false;
  pc_compressed : c_compressed args = COMPRESSED_FALSE;
  pc_seek : negb (c_seek args =? 0) && ((c_out_fd args <? 0) || negb (c_lseek_ok args)) = false;
  pc_healthy : healthy (c_fdin args);
  pc_offs : 0 <= c_offs args < 2 ^ 63;
  pc_nbytes : Z.of_nat (c_nbytes args) < 2 ^ 62;
}.

(** The hash, if there is one, is that of the data. *)
Definition hash_matches `{!HashSpec hl} (args : swupdate_copy) : Prop :=
  forall h, c_hash args = Some h -> valid_hash (Some h) = true ->
  h = sha (take (c_nbytes args) (content (c_fdin args))).

(** The check of the hash after data was read that has it. *)
Lemma hash_accepted `{!HashSpec hl} args s' data :
  hash_total -> advanced (start_input args) s' data ->
  (forall h, c_hash args = Some h -> valid_hash (Some h) = true -> h = sha data) ->
  match c_hash args with
  | Some h => valid_hash (c_hash args) && (hash_compare (in_dgst s') h <? 0)
  | None => false
  end = false.
Proof.
  intros Ht Hadv Hhash. destruct (c_hash args) as [h|] eqn:Eh; [|done]. destruct (valid_hash (Some h)) eqn:Ev; [|done].
  destruct (total_init Ht) as [d Hd]. cbn [andb]. destruct (adv_dgst _ _ _ Hadv [] d) as (d' & Hd' & Hrep).
  { cbn. by rewrite Eh, Ev. }
  { by apply hash_init_rep. }
  unfold hash_compare. rewrite Hd'. destruct (total_final Ht d') as [md Hmd].
  rewrite Hmd, (hash_final_rep _ _ _ Hrep Hmd), (Hhash h eq_refl Ev). cbn [app].
  rewrite (total_length Ht), Nat.eqb_refl. cbn [negb orb].
  by rewrite (proj2 (hash_compare_zero _ _ (total_length Ht _) (total_length Ht _)) eq_refl).
Qed.

(** A plain copy reaches its end, and its hash check succeeds. *)
Lemma plain_copy_result `{!HashSpec hl} P fuel cfg ks args w :
  c_inbuf args = None -> c_encrypted args = false -> c_compressed args = COMPRESSED_FALSE ->
  negb (c_seek args =? 0) && ((c_out_fd args <? 0) || negb (c_lseek_ok args)) = false -> healthy (c_fdin args) ->
  hash_total -> accepting_upto P -> P w (c_nbytes args) -> hash_matches args -> (c_nbytes args < fuel)%nat ->
  exists s' w' prog,
    advanced (start_input args) s' (take (c_nbytes args) (content (c_fdin args))) /\
    (if c_skip_file args then w' = w
     else sent w (take (c_nbytes args) (content (c_fdin args))) w') /\
    copyfile callback fuel cfg ks args w =
    Some (let '(_, fs, f) :=
            fill_buffer_ hl (in_fd s') (Z.to_nat (NPAD_BYTES (in_offs s'))) (in_offs s') None None in
          mk_result 0 f (fill_offs fs) (in_checksum s') w' prog).
Proof.
  intros Hb He Hc Hs Hh Ht Hcb Hw Hhash Hf.
  assert (copy_ok args) as Hok by (unfold copy_ok; by rewrite Hb).
  assert (source args = content (c_fdin args)) as Esrc by (unfold source; by rewrite Hb).
  destruct (copy_loop_plain_total P fuel args (start_input args) w 0 [] (total_update Ht) Hcb Hw)
    as (st & w' & prog & El); [done|cbn; by rewrite Hb|done|].
  destruct (plain_loop_end args fuel w 0 [] st w' prog Hok El) as (s' & -> & Hadv & Hsent).
  rewrite Esrc in Hadv, Hsent. exists s', w', prog. split_and!; [done|done|].
  destruct (total_init Ht) as [d Hd].
  assert (copyfile callback fuel cfg ks args w = Some (copy_finish args (0, Raw (Plain s'), w', prog))) as ->.
  { unfold copyfile. rewrite He, Hc, Hs. cbn [decompress_setup].
    unfold start_stage2, start_stage1, start_input in El.
    destruct (valid_hash (c_hash args)); rewrite ?Hd in *; cbn [andb]; by rewrite El. }
  f_equal. unfold copy_finish. cbn [Z.eqb negb input_of input_of1]. by rewrite (hash_accepted _ _ _ Ht Hadv Hhash), Hb.
Qed.

Lemma copyfile_intact_upto `{!HashSpec hl} (P : W -> nat -> Prop) (fuel : nat) (cfg : config)
    (ks : option decryption_key) (args : swupdate_copy) (w : W) :
  plain_copy args -> hash_total -> accepting_upto P -> P w (c_nbytes args) -> hash_matches args ->
  (c_nbytes args < fuel)%nat ->
  let data := take (c_nbytes args) (content (c_fdin args)) in
  let pad := Z.to_nat (NPAD_BYTES (c_offs args + Z.of_nat (c_nbytes args))) in
  exists r, copyfile callback fuel cfg ks args w = Some r /\ r_ret r = 0 /\
    (if c_skip_file args then r_out r = w else sent w data (r_out r)) /\
    r_checksum r = checksum_of 0 data /\
    ((c_nbytes args + pad <= length (content (c_fdin args)))%nat ->
     content (r_fd r) = drop pad (drop (c_nbytes args) (content (c_fdin args))) /\
     healthy (r_fd r) /\ r_offs r mod 4 = 0 /\
     r_offs r = c_offs args + Z.of_nat (c_nbytes args) + Z.of_nat pad).
Proof.
  intros Hp Ht Hcb Hw Hhash Hf data pad.
  destruct Hp as [Hb He Hc Hs Hh Ho Hn].
  destruct (plain_copy_result P fuel cfg ks args w Hb He Hc Hs Hh Ht Hcb Hw Hhash Hf) as (s' & w' & prog & Hadv & Hsent & ->).
  destruct Hadv as [_ Ha _ Hof Hck Hbuf Hhe _].
  unfold ahead in Ha. rewrite Hbuf in Ha. cbn in Ha, Hof, Hck, Hbuf, Hhe. rewrite Hb in Ha, Hof, Hck.
  destruct (fill_buffer_ hl (in_fd s') _ (in_offs s') None None) as [[ret fs] f] eqn:Efill.
  eexists. split; [reflexivity|]. cbn [r_ret r_out r_checksum r_fd r_offs].
  split_and!; [done|done|done|]. intros Hlen.
  assert (length (take (c_nbytes args) (content (c_fdin args))) = c_nbytes args) as Hl
    by (rewrite length_take; lia).
  pose proof (NPAD_range (c_offs args + Z.of_nat (c_nbytes args))) as Hpr.
  destruct (Hof ltac:(lia)) as [Eo _]. rewrite Hl, wrap_small in Eo by lia.
  rewrite Eo in Efill. fold pad in Efill.
  assert (content (in_fd s') = drop (c_nbytes args) (content (c_fdin args))) as Er.
  { apply (app_inv_head (take (c_nbytes args) (content (c_fdin args)))). by rewrite take_drop, <- Ha. }
  destruct (fill_buffer_exact hl (in_fd s') (take pad (content (in_fd s'))) (drop pad (content (in_fd s')))
    (c_offs args + Z.of_nat (c_nbytes args))) as (f' & E' & _ & Hc' & Hh'); [by apply Hhe|by rewrite take_drop|lia| |].
  { rewrite length_take. unfold pad. lia. }
  rewrite Er in *. rewrite length_take, length_drop in E'.
  replace (Nat.min pad (length (content (c_fdin args)) - c_nbytes args)) with pad in E' by lia.
  rewrite E' in Efill. injection Efill as <- <- <-. split_and!; [done|done| |done].
  cbn [fill_offs]. unfold pad. rewrite Z2Nat.id by lia. apply NPAD_aligned.
Qed.

Lemma copyfile_intact `{!HashSpec hl} (P : W -> Prop) (fuel : nat) (cfg : config)
    (ks : option decryption_key) (args : swupdate_copy) (w : W) :
  plain_copy args -> hash_total -> accepting P -> P w -> hash_matches args ->
  (c_nbytes args < fuel)%nat ->
  let data := take (c_nbytes args) (content (c_fdin args)) in
  let pad := Z.to_nat (NPAD_BYTES (c_offs args + Z.of_nat (c_nbytes args))) in
  exists r, copyfile callback fuel cfg ks args w = Some r /\ r_ret r = 0 /\
    (if c_skip_file args then r_out r = w else sent w data (r_out r)) /\
    r_checksum r = checksum_of 0 data /\
    ((c_nbytes args + pad <= length (content (c_fdin args)))%nat ->
     content (r_fd r) = drop pad (drop (c_nbytes args) (content (c_fdin args))) /\
     healthy (r_fd r) /\ r_offs r mod 4 = 0 /\
     r_offs r = c_offs args + Z.of_nat (c_nbytes args) + Z.of_nat pad).
Proof. intros Hp Ht Hcb. apply (copyfile_intact_upto (fun w _ => P w)); [done|done|by apply accepting_all]. Qed.

(** C10: an intact artifact is accepted, if it is plain, that is neither encrypted nor
    compressed (an encrypted one can be lost, see [copyfile_single_block_lost]): with
    no read or write error and a digest that works, a plain artifact whose hash, if
    there is one, is right is copied in at most [nbytes + 1] turns of the loop; its
    checksum is the sum of its bytes, and when the archive goes on the descriptor is
    left behind the padding, at a multiple of 4. *)
Theorem copyfile_accepts_intact `{!HashSpec hl} (P : W -> Prop) (fuel : nat) (cfg : config)
    (ks : option decryption_key) (args : swupdate_copy) (w : W) :
  plain_copy args -> hash_total -> accepting P -> P w -> hash_matches args ->
  (c_nbytes args < fuel)%nat ->
  let data := take (c_nbytes args) (content (c_fdin args)) in
  let pad := Z.to_nat (NPAD_BYTES (c_offs args + Z.of_nat (c_nbytes args))) in
  exists r, copyfile callback fuel cfg ks args w = Some r /\ r_ret r = 0 /\
    (if c_skip_file args then r_out r = w else sent w data (r_out r)) /\
    r_checksum r = checksum_of 0 data /\
    ((c_nbytes args + pad <= length (content (c_fdin args)))%nat ->
     content (r_fd r) = drop pad (drop (c_nbytes args) (content (c_fdin args))) /\
     healthy (r_fd r) /\ r_offs r mod 4 = 0 /\
     r_offs r = c_offs args + Z.of_nat (c_nbytes args) + Z.of_nat pad).
Proof. apply copyfile_intact. Qed.
End CopyProps.
End Copy.

(** ** Writing to a descriptor *)

(** The whole buffer was written, or a proper prefix of it. *)
Definition wrote (out buf : bytes) (r : Z * sink) : Prop :=
  (r.1 = 0 /\ written r.2 = out ++ buf) \/
  (r.1 = -1 /\ exists n, (n < length buf)%nat /\ written r.2 = out ++ take n buf).

Lemma copy_write_loop_plan pl out buf : plan (copy_write_loop pl out buf).2 `suffix_of` pl.
Proof.
  revert out buf. induction pl as [|ev pl IH]; intros out buf; destruct buf as [|b buf]; cbn [copy_write_loop snd plan]; try done.
  destruct ev as [n| |]; [|by apply suffix_cons_r, IH|by apply suffix_cons_r]. destruct (n =? 0)%nat; [by apply suffix_cons_r|].
  by apply suffix_cons_r, IH.
Qed.

Lemma copy_write_loop_wrote pl out buf : wrote out buf (copy_write_loop pl out buf).
Proof.
  revert out buf. induction pl as [|ev pl IH]; intros out buf; destruct buf as [|b buf];
    cbn [copy_write_loop]; try (left; by rewrite ?app_nil_r).
  destruct ev as [n| |]; [|apply IH|].
  - destruct (Nat.eqb_spec n 0) as [->|Hn].
    { right. split; [done|]. exists 0%nat. cbn. split; [lia|by rewrite app_nil_r]. }
    destruct (IH (out ++ take n (b :: buf)) (drop n (b :: buf))) as [[H1 H2]|[H1 (m & Hm & H2)]].
    + left. split; [done|]. by rewrite H2, <- app_assoc, take_drop.
    + right. split; [done|]. rewrite length_drop in Hm.
      exists (n + m)%nat. split; [lia|]. by rewrite H2, <- app_assoc, take_take_drop.
  - right. split; [done|]. exists 0%nat. cbn. split; [lia|by rewrite app_nil_r].
Qed.

(** [copy_write] either writes the whole buffer, in one or several [write] calls and
    through interruptions, or fails after a proper prefix of it. *)
Theorem copy_write_all_or_error (w : sink) (buf : bytes) :
  wrote (written w) buf (copy_write w buf).
Proof. apply copy_write_loop_wrote. Qed.

Lemma sent_written w out w' : sent copy_write w out w' -> written w' = written w ++ out.
Proof.
  induction 1 as [w|w b w1 out w2 ret Hc Hr _ IH]; [by rewrite app_nil_r|].
  pose proof (copy_write_loop_wrote (plan w) (written w) b) as H. fold (copy_write w b) in H.
  rewrite Hc in H. destruct H as [[_ H]|[H _]]; cbn in H; [|lia]. by rewrite IH, H, app_assoc.
Qed.

(** ** Instances *)

(** A hash of 32 bytes: the first ones, padded. *)
Definition toy_sha (a : bytes) : bytes := resize SHA256_HASH_LENGTH NUL a.

Definition toy_hash_lib : hash_lib bytes :=
  mk_hash_lib (Some []) (fun c b => Some (c ++ b)) (fun c => Some (toy_sha c)) openssl_HASH_compare.

#[export] Program Instance toy_hash_spec : HashSpec toy_hash_lib := {
  sha := toy_sha;
  hash_rep c a := c = a;
}.
Next Obligation. cbn. by intros c [= <-]. Qed.
Next Obligation. cbn. by intros c c' a b -> [= <-]. Qed.
Next Obligation. cbn. by intros c a md -> [= <-]. Qed.
Next Obligation. intros h1 h2 H1 H2. by apply hash_compare_bytes_spec. Qed.

Lemma toy_hash_total : hash_total toy_hash_lib.
Proof. split; cbn; try by eexists. intros a. apply length_resize. Qed.

(** A stream cipher that inverts the bits. *)
Definition neg_ascii (c : ascii) : ascii :=
  match c with
  | Ascii a0 a1 a2 a3 a4 a5 a6 a7 =>
      Ascii (negb a0) (negb a1) (negb a2) (negb a3) (negb a4) (negb a5) (negb a6) (negb a7)
  end.

Definition toy_stream : decrypt_lib unit :=
  mk_decrypt_lib (fun _ _ _ _ => Some tt) (fun c b => (0, neg_ascii <$> b, c)) (fun c => (0, [], c)).

#[export] Program Instance toy_stream_spec : DecryptSpec toy_stream := {
  plain _ a p := p = neg_ascii <$> a;
  dec_rep _ _ a o := o = neg_ascii <$> a;
}.
Next Obligation. done. Qed.
Next Obligation. cbn. intros c0 c c' a o b p ret -> [= <- <- <-] _. by rewrite fmap_app. Qed.
Next Obligation. cbn. intros c0 c c' a o p ret -> [= <- <- <-] _. by rewrite app_nil_r. Qed.
Next Obligation. cbn. intros c0 c c' a o p -> [= <- <-]. by rewrite app_nil_r. Qed.

Lemma toy_stream_gives : never_stalls toy_stream.
Proof.
  split; [|done]. cbn. intros c b ret p c' [= _ <- _] Hb _. by destruct b.
Qed.

(** A decompressor that is the identity. *)
Definition toy_zlib : zlib unit := fun x inp room =>
  (Z_OK, x, Nat.min room (length inp), take room inp).

#[export] Program Instance toy_zlib_spec : ZlibSpec toy_zlib := {
  z_rep _ _ a o := a = o;
}.
Next Obligation. done. Qed.
Next Obligation.
  cbn. intros x0 x x' a o inp room ret n p -> [= <- <- <- <-] _. f_equal.
  destruct (Nat.le_gt_cases room (length inp)).
  - by rewrite Nat.min_l by done.
  - by rewrite Nat.min_r, !take_ge by lia.
Qed.

Definition toy_config : config (X := unit) :=
  mk_config (Some (Some tt, toy_zlib)) None None None.

(** Six bytes of which the first five are the artifact. *)
Definition six_bytes : bytes := String.list_ascii_of_string "hello!".

Definition toy_args (encrypted : bool) (compressed : compression_type) (hash : option bytes)
  : swupdate_copy :=
  mk_copy (rd_block (take 2 six_bytes) ++ [RdIntr] ++ rd_block (drop 2 six_bytes)) None 5 0 0 (-1) true
    false compressed hash encrypted None None AES_CBC.

Definition toy_keys : option decryption_key := Some fresh_key.

Definition toy_copy (encrypted : bool) (compressed : compression_type) (hash : option bytes) :=
  copyfile toy_hash_lib toy_stream copy_write 8 toy_config toy_keys
    (toy_args encrypted compressed hash) (mk_sink [] [WrSome 3]).

Lemma toy_encrypted_copy :
  toy_copy true COMPRESSED_ZLIB (Some (toy_sha (take 5 six_bytes))) =
    Some (mk_result 0 [] 6 532 (mk_sink (neg_ascii <$> take 5 six_bytes) []) [100]).
Proof. vm_compute. reflexivity. Qed.

(** An artifact that is encrypted and compressed. *)
Lemma copyfile_verifies_hash_witness :
  let args := toy_args true COMPRESSED_ZLIB (Some (toy_sha (take 5 six_bytes))) in
  exists od oz got rest e held out,
    crypt_start toy_stream toy_keys args od /\ decompress_setup toy_config COMPRESSED_ZLIB = inr oz /\
    source args = got ++ rest /\ (length got <= 5)%nat /\
    (None = @None bytes -> healthy (c_fdin args) -> exists pad, rest = pad ++ [] /\ (length pad <= 3)%nat) /\
    toy_sha got = toy_sha (take 5 six_bytes) /\
    deciphers toy_stream od got (e ++ held) /\ (od = None \/ oz = None -> held = []) /\
    inflates toy_zlib (snd <$> oz) e out /\
    sent copy_write (mk_sink [] [WrSome 3]) out (mk_sink (neg_ascii <$> take 5 six_bytes) []).
Proof.
  refine (copyfile_verifies_hash toy_hash_lib toy_stream copy_write toy_zlib 8 toy_config toy_keys
    (toy_args true COMPRESSED_ZLIB (Some (toy_sha (take 5 six_bytes)))) (mk_sink [] [WrSome 3])
    (mk_result 0 [] 6 532 (mk_sink (neg_ascii <$> take 5 six_bytes) []) [100])
    (toy_sha (take 5 six_bytes)) I eq_refl eq_refl _ _ toy_encrypted_copy eq_refl).
  - vm_compute. reflexivity.
  - intros dec zl x [= _ <- _]. reflexivity.
Defined.

Lemma copyfile_decrypts_witness :
  exists out, out = neg_ascii <$> take 5 six_bytes /\
    sent copy_write (mk_sink [] [WrSome 3]) out (mk_sink (neg_ascii <$> take 5 six_bytes) []).
Proof.
  refine (copyfile_decrypts toy_hash_lib toy_stream copy_write 8 toy_config toy_keys
    (toy_args true COMPRESSED_FALSE None) (mk_sink [] [WrSome 3])
    (mk_result 0 [] 6 532 (mk_sink (neg_ascii <$> take 5 six_bytes) []) [100]) tt
    I eq_refl eq_refl eq_refl eq_refl toy_stream_gives _ eq_refl).
  vm_compute. reflexivity.
Defined.

Lemma copyfile_copies_witness :
  sent copy_write (mk_sink [] [WrSome 3]) (take 5 six_bytes) (mk_sink (take 5 six_bytes) []).
Proof.
  refine (copyfile_copies toy_hash_lib toy_stream copy_write 8 toy_config toy_keys
    (toy_args false COMPRESSED_FALSE None) (mk_sink [] [WrSome 3])
    (mk_result 0 [] 6 532 (mk_sink (take 5 six_bytes) []) [100]) I eq_refl eq_refl eq_refl _ eq_refl).
  vm_compute. reflexivity.
Defined.

Lemma copyfile_decompresses_witness :
  exists consumed rest out x', take 5 six_bytes = consumed ++ rest /\
    consumed = out /\
    sent copy_write (mk_sink [] [WrSome 3]) out (mk_sink (take 5 six_bytes) []) /\ x' = tt.
Proof.
  destruct (copyfile_decompresses toy_hash_lib toy_stream copy_write 8 toy_config toy_keys
    (toy_args false COMPRESSED_ZLIB None) (mk_sink [] [WrSome 3])
    (mk_result 0 [] 6 532 (mk_sink (take 5 six_bytes) []) [100]) Gunzip toy_zlib tt
    I eq_refl eq_refl eq_refl ltac:(vm_compute; reflexivity) eq_refl)
    as (consumed & rest & out & x' & H1 & H2 & H3).
  exists consumed, rest, out, x'. destruct x'. repeat split; assumption.
Defined.

Definition append_callback (w b : bytes) : Z * bytes := (0, w ++ b).

Lemma copyfile_accepts_intact_witness :
  exists r, copyfile toy_hash_lib toy_stream append_callback 8 toy_config toy_keys
      (toy_args false COMPRESSED_FALSE (Some (toy_sha (take 5 six_bytes)))) [] = Some r /\
    r_ret r = 0 /\ sent append_callback [] (take 5 six_bytes) (r_out r).
Proof.
  destruct (copyfile_accepts_intact toy_hash_lib toy_stream append_callback (fun _ => True) 8 toy_config toy_keys
    (toy_args false COMPRESSED_FALSE (Some (toy_sha (take 5 six_bytes)))) []) as (r & H1 & H2 & H3 & _).
  - split; try reflexivity; vm_compute; try (split; [discriminate|reflexivity]); exact I.
  - exact toy_hash_total.
  - intros w b _. split; [discriminate|exact I].
  - exact I.
  - intros h [= <-] _. vm_compute. reflexivity.
  - vm_compute. repeat constructor.
  - exists r. split; [exact H1|]. split; [exact H2|exact H3].
Defined.

Lemma crypt_setup_key_length_witness :
  crypt_setup toy_stream None
    (mk_copy [] None 0 0 0 (-1) true false COMPRESSED_FALSE None true None
       (Some "000102030405060708090a0b0c0d0e0f") AES_CBC) = inl (- EINVAL).
Proof.
  refine (crypt_setup_key_length toy_stream None
    (mk_copy [] None 0 0 0 (-1) true false COMPRESSED_FALSE None true None
       (Some "000102030405060708090a0b0c0d0e0f") AES_CBC)
    "000102030405060708090a0b0c0d0e0f" eq_refl eq_refl _ _).
  - discriminate.
  - discriminate.
Defined.

(** ** Two defects *)

(** A block cipher with padding, as OpenSSL decrypts it: [DECRYPT_update] holds back the
    last block, which [DECRYPT_final] delivers. The cipher itself is the identity. *)
Definition toy_block : decrypt_lib bytes :=
  mk_decrypt_lib (fun _ _ _ _ => Some [])
    (fun c b => let all := c ++ b in
                (0, take (length all - AES_BLK_SIZE) all, drop (length all - AES_BLK_SIZE) all))
    (fun c => (0, c, [])).

#[export] Program Instance toy_block_spec : DecryptSpec toy_block := {
  plain c0 a p := p = c0 ++ a;
  dec_rep c0 c a o := c0 ++ a = o ++ c;
}.
Next Obligation. cbn. intros c. by rewrite app_nil_r. Qed.
Next Obligation.
  cbn. intros c0 c c' a o b p ret H [= <- <- <-] _.
  rewrite app_assoc, H, <- !app_assoc. f_equal. by rewrite take_drop.
Qed.
Next Obligation. cbn. intros c0 c c' a o p ret H [= <- <- <-] _. by rewrite app_nil_r. Qed.
Next Obligation. cbn. intros c0 c c' a o p H [= <- <-]. done. Qed.

Definition one_block : bytes := replicate AES_BLK_SIZE "x"%char.

(** An encrypted artifact of one cipher block is lost without an error: the first
    [DECRYPT_update] gives no plaintext, [decrypt_step] returns 0, which ends the copy
    before [DECRYPT_final] is called. The result is 0 and nothing is written, though
    the plaintext is not empty. *)
Theorem copyfile_single_block_lost :
  let args := mk_copy (rd_block one_block) None AES_BLK_SIZE 0 0 (-1) true false COMPRESSED_FALSE
                None true None None AES_CBC in
  (exists r, copyfile toy_hash_lib toy_block copy_write 8 toy_config toy_keys args (mk_sink [] []) = Some r /\
     r_ret r = 0 /\ written (r_out r) = []) /\
  forall p, plain [] (source args) p -> p <> [].
Proof.
  split.
  - eexists. split; [vm_compute; reflexivity|]. done.
  - intros p ->. done.
Qed.

(** The end of the input before [nbytes] bytes were read is not an error: without a
    hash, a truncated artifact is copied and accepted. *)
Theorem copyfile_truncated_accepted :
  let args := mk_copy (rd_block (take 3 six_bytes)) None 1000 0 0 (-1) true false COMPRESSED_FALSE
                None false None None AES_CBC in
  exists r, copyfile toy_hash_lib toy_stream copy_write 8 toy_config toy_keys args (mk_sink [] []) = Some r /\
    r_ret r = 0 /\ written (r_out r) = take 3 six_bytes.
Proof. eexists. split; [vm_compute; reflexivity|]. done. Qed.
