(* ===== verification/Zstd.v ===== *)
(** * Compressed artifacts are accepted: zstd in [core/cpio_utils.c]

    With a decompressor that keeps its promises, an intact artifact that is compressed with zstd is copied to its
    end and written as what was compressed. *)
From S2P Require Import Prelude CString Util Crypto Keys Cpio Copyfile.

(** What [ZSTD_decompressStream] documents. [F x z d]: in context [x] the bytes [z] are the rest of a frame whose
    rest of the contents is [d]. A call on the next bytes of the frame does not fail, takes some of them, gives some of
    the contents, and does one or the other as long as there is something to do. *)
Record stream_decoder {X} (zl : zlib X) (F : X -> bytes -> bytes -> Prop) : Prop := {
  decoder_call : forall x inp rest d room ret x' n p,
    F x (inp ++ rest) d -> (0 < room)%nat -> zl x inp room = (ret, x', n, p) ->
    ret <> Z_ERROR /\ (n <= length inp)%nat /\ (length p <= room)%nat /\
    (exists d', d = p ++ d' /\ F x' (drop n inp ++ rest) d') /\
    (inp <> [] \/ rest = [] /\ d <> [] -> (0 < n + length p)%nat);
}.

Section Zstd.
Context {C : Type} (hl : hash_lib C) {D X : Type} (dl : decrypt_lib D) `{!HashSpec hl} (total : hash_total hl).
Context (zl : zlib X) (F : X -> bytes -> bytes -> Prop) (dec : stream_decoder zl F).

(** ** The input *)

(** What is still to be read; reading does not fail. *)
Definition to_read (s : InputState (C := C)) : bytes := take (in_nbytes s) (ahead s).

Definition steady (s : InputState (C := C)) : Prop := input_ok s /\ (in_buf s = None -> healthy (in_fd s)).

Lemma input_total s n :
  steady s -> (0 < n)%nat ->
  exists bs s', input_step hl s n = Some (inr bs, s') /\ advanced hl s s' bs /\ steady s' /\
    to_read s = bs ++ to_read s' /\ (bs = [] -> to_read s = []).
Proof.
  intros [Hok Hh] Hn.
  assert (exists bs s', input_step hl s n = Some (inr bs, s')) as (bs & s' & E).
  { unfold input_step. destruct (in_buf s) as [buf|] eqn:Eb.
    - destruct (in_dgst s) as [d|]; [|by eexists _, _]. destruct (total_update _ total d (resize
        (if (in_nbytes s <=? n)%nat then in_nbytes s else n) NUL (drop (in_pos s) buf))) as [d' ->]. by eexists _, _.
    - match goal with |- context [fill_buffer_ hl ?f ?n ?o ?c ?d] =>
        pose proof (fill_loop_hash_total hl f n (mk_fill [] o c d) (total_update _ total) (Hh eq_refl)) as Hp;
        change (fill_loop hl f n (mk_fill [] o c d)) with (fill_buffer_ hl f n o c d) in Hp;
        destruct (fill_buffer_ hl f n o c d) as [[ret fs] f'] end.
      cbn in Hp. destruct (Z.ltb_spec ret 0); [lia|]. by eexists _, _. }
  destruct (input_step_spec hl s n _ s' Hok E) as [Hadv Hf]. exists bs, s'.
  pose proof (adv_ahead _ _ _ _ Hadv) as Ha. pose proof (adv_nbytes _ _ _ _ Hadv) as Hb. split_and!; [done|done| | |].
  - split; [apply Hadv|]. intros Hnone. apply (adv_healthy _ _ _ _ Hadv), Hh. by rewrite <- (adv_buf _ _ _ _ Hadv).
  - unfold to_read. by rewrite Ha, Hb, take_app_add.
  - intros ->. unfold to_read. destruct Hf as [Hf|[Hbuf Hf]].
    + cbn in Hf. assert (in_nbytes s = 0%nat) as -> by lia. done.
    + rewrite Ha. unfold ahead. rewrite (adv_buf _ _ _ _ Hadv), Hbuf, Hf. apply take_nil.
Qed.

(** ** The decompressor *)

Lemma feed_total fuel ctx inp rest d out size :
  F ctx (inp ++ rest) d -> (length out < size)%nat -> (length inp + length d < fuel)%nat ->
  exists ctx' inp' p d', zstd_feed zl fuel ctx inp out size = Some (Some (ctx', inp', out ++ p)) /\
    d = p ++ d' /\ F ctx' (inp' ++ rest) d' /\ (length inp' <= length inp)%nat /\
    (p = [] -> inp' = []) /\ (inp = [] -> rest = [] -> d <> [] -> p <> []).
Proof.
  revert ctx inp d out. induction fuel as [|fuel IH]; intros ctx inp d out HF Ho Hf; [lia|]. cbn [zstd_feed].
  destruct (zl ctx inp (size - length out)%nat) as [[[ret x] n] p] eqn:Ez.
  assert (0 < size - length out)%nat as Hroom by lia.
  destruct (decoder_call _ _ dec _ _ _ _ _ _ _ _ _ HF Hroom Ez) as (Hr & Hn & Hp & (d' & -> & HF') & Hprog).
  assert (length (drop n inp) = (length inp - n)%nat) as Hl by apply length_drop.
  assert (inp = [] -> rest = [] -> p ++ d' <> [] -> p <> []) as Hlast.
  { intros -> -> Hd ->. cbn in Hn. specialize (Hprog ltac:(by right)). cbn in Hprog. lia. }
  assert (exists ctx' inp' p0 d0,
    (if (length (out ++ p) =? size)%nat then Some (Some (x, drop n inp, out ++ p))
     else match drop n inp with [] => Some (Some (x, drop n inp, out ++ p))
          | _ => zstd_feed zl fuel x (drop n inp) (out ++ p) size end) = Some (Some (ctx', inp', out ++ p0)) /\
    p ++ d' = p0 ++ d0 /\ F ctx' (inp' ++ rest) d0 /\ (length inp' <= length inp)%nat /\
    (p0 = [] -> inp' = []) /\ (inp = [] -> rest = [] -> p ++ d' <> [] -> p0 <> [])) as Hgo.
  { destruct (Nat.eqb_spec (length (out ++ p)) size) as [He|He].
    { exists x, (drop n inp), p, d'. split_and!; [done|done|done|lia| |done]. intros ->. rewrite app_nil_r in He. lia. }
    destruct (drop n inp) as [|b inp'] eqn:Ed.
    { exists x, [], p, d'. split_and!; [done|done|done|cbn; lia|done|done]. }
    assert (inp <> []) as Hne by (intros ->; by rewrite drop_nil in Ed). specialize (Hprog ltac:(by left)).
    rewrite length_app in Hf, He. destruct (IH x (b :: inp') d' (out ++ p)) as (ctx' & inp2 & p2 & d2 & H1 & -> & H2 & H3 & H4 & _);
      [done|rewrite length_app; lia|lia|].
    exists ctx', inp2, (p ++ p2), d2. rewrite app_assoc. split_and!; [done|by rewrite app_assoc|done|lia| |done].
    intros [_ ->]%app_eq_nil. by apply H4. }
  destruct ret; done.
Qed.

(** The decompressor is in the middle of a frame: [d] is still to come, [got] was read from the start. *)
Definition inflating (s0 : InputState (C := C)) (s : DecompressState) (d : bytes) : Prop :=
  exists si got, z_up s = Plain (D := D) si /\ steady si /\ F (z_ctx s) (z_in s ++ to_read si) d /\
    (z_eof s = true -> z_in s = [] /\ to_read si = []) /\ advanced hl s0 si got.

Definition pending (s : DecompressState (U := stage1 (C := C) (D := D)) (X := X)) : nat :=
  (length (z_in s) + length (to_read (input_of1 (z_up s))))%nat.

Lemma pull_total s0 s d :
  inflating s0 s d ->
  exists s1, pull (stage1_step hl dl) s = Some (None, s1) /\ inflating s0 s1 d /\ pending s1 = pending s /\
    (z_in s1 = [] -> z_eof s1 = true /\ to_read (input_of1 (z_up s1)) = []).
Proof.
  intros (si & got & Hu & Hs & HF & He & Ha). unfold pull. destruct (z_in s) as [|b inp] eqn:Ei.
  2: { exists s. split_and!; [done|by exists si, got; rewrite Ei|done|by rewrite Ei]. }
  rewrite Hu. cbn [stage1_step]. destruct (input_total si BUFF_SIZE Hs BUFF_pos) as (bs & s' & E & Hadv & Hs' & Hr & Hend).
  rewrite E. cbn. eexists. split; [done|]. split_and!.
  - exists s', (got ++ bs). cbn [z_up z_in z_ctx z_eof]. cbn in HF. rewrite Hr in HF. split_and!; [done|done|done| |by eapply advanced_trans].
    intros Hor. apply orb_true_iff in Hor as [Hz|Hz].
    + destruct (He Hz) as [_ Hz']. rewrite Hr in Hz'. by apply app_eq_nil in Hz'.
    + destruct bs; [|done]. specialize (Hend eq_refl). rewrite Hr in Hend. by split.
  - unfold pending. cbn. rewrite Ei, Hu. cbn. rewrite Hr, length_app. lia.
  - cbn. intros ->. rewrite orb_true_r. specialize (Hend eq_refl). by rewrite Hr in Hend.
Qed.

Lemma zstd_step_total s0 fuel s d size :
  inflating s0 s d -> (0 < size)%nat -> (pending s + length d + 1 < fuel)%nat ->
  exists out s' d', zstd_step (stage1_step hl dl) zl fuel s size = Some (inr out, s') /\ d = out ++ d' /\
    inflating s0 s' d' /\ (pending s' <= pending s)%nat /\ (out = [] -> d = [] /\ z_eof s' = true).
Proof.
  intros H Hsz. revert s H. induction fuel as [|fuel IH]; intros s H Hf; [lia|]. cbn [zstd_step].
  destruct (pull_total s0 s d H) as (s1 & -> & H1 & Hp & Hend). clear H. rewrite <- Hp in *. clear Hp s.
  destruct H1 as (si & got & Hu & Hs & HF & He & Ha).
  destruct (feed_total fuel (z_ctx s1) (z_in s1) (to_read si) d [] size) as (ctx & inp & p & d' & E & -> & HF' & Hle & Hemp & Hlast);
    [done|done|unfold pending in Hf; lia|]. rewrite E. cbn [app].
  assert (inflating s0 (mk_decompress (z_up s1) ctx inp (z_eof s1)) d') as H'.
  { exists si, got. cbn. split_and!; try done. intros Hz. destruct (He Hz) as [Hi Hr]. rewrite Hi in Hle. cbn in Hle.
    split; [|done]. destruct inp; [done|cbn in Hle; lia]. }
  assert (pending (mk_decompress (z_up s1) ctx inp (z_eof s1)) <= pending s1)%nat as Hle' by (unfold pending; cbn; lia).
  destruct p as [|b p].
  2: { eexists _, _, d'. split_and!; [done|done|done|done|done]. }
  destruct (z_eof s1) eqn:Ez.
  - eexists [], _, d'. split_and!; [done|done|done|done|]. intros _. split; [|done].
    destruct (He eq_refl) as [Hi Hr]. destruct (decide (d' = [])) as [->|Hne]; [done|]. by destruct (Hlast Hi Hr).
  - assert (z_in s1 <> []) as Hne by (intros Hz; by destruct (Hend Hz)).
    assert (pending (mk_decompress (z_up s1) ctx inp false) + length d' + 1 < fuel)%nat as Hf'.
    { rewrite (Hemp eq_refl). unfold pending in *. cbn in *. destruct (z_in s1); [done|]. cbn in *. lia. }
    destruct (IH _ H' Hf') as (out & s' & d2 & E2 & -> & H2 & H3 & H4).
    exists out, s', d2. split_and!; [done|done|done|lia|done].
Qed.

(** ** The copy *)

Context {W : Type} (callback : W -> bytes -> Z * W) (P : W -> Prop) (Hcb : accepting callback P).

Lemma copy_loop_total s0 fuel args s d w prev prog :
  inflating s0 s d -> P w -> (pending s + length d + 1 < fuel)%nat ->
  exists s' w' prog',
    copy_loop hl dl callback fuel args (Inflated Zstd zl s) w prev prog = Some (0, Inflated Zstd zl s', w', prog') /\
    inflating s0 s' [] /\ z_eof s' = true /\ (if c_skip_file args then w' = w else sent callback w d w' /\ P w').
Proof.
  revert s d w prev prog. induction fuel as [|fuel IH]; intros s d w prev prog Hi Hw Hf; [lia|].
  cbn [copy_loop stage2_step decompress_step].
  destruct (zstd_step_total s0 (S fuel) s d BUFF_SIZE Hi BUFF_pos Hf) as (out & s1 & d1 & -> & -> & Hi1 & Hp & Hend).
  cbn [fmap option_fmap option_map fst snd]. destruct out as [|b out].
  { destruct (Hend eq_refl) as [Hd He]. cbn in Hd. subst d1. eexists s1, w, prog. split_and!; try done.
    destruct (c_skip_file args); [done|split; [constructor|done]]. }
  rewrite length_app in Hf. cbn [length] in Hf.
  destruct (c_skip_file args) eqn:Ek.
  { destruct (IH s1 d1 w prev prog) as (s' & w' & prog' & H1 & H2 & H3 & H4); [done|done|lia|]. by exists s', w', prog'. }
  destruct (Hcb w (b :: out) Hw) as [Hr Hw1]. destruct (callback w (b :: out)) as [ret w1] eqn:Ec. cbn in Hr, Hw1.
  destruct (Z.ltb_spec ret 0); [lia|].
  assert (forall prev1 prog1, exists s' w' prog',
    copy_loop hl dl callback fuel args (Inflated Zstd zl s1) w1 prev1 prog1 = Some (0, Inflated Zstd zl s', w', prog') /\
    inflating s0 s' [] /\ z_eof s' = true /\ sent callback w ((b :: out) ++ d1) w' /\ P w') as Hgo.
  { intros prev1 prog1. destruct (IH s1 d1 w1 prev1 prog1) as (s' & w' & prog' & H1 & H2 & H3 & H4); [done|done|lia|].
    destruct H4 as [H4 HP]. exists s', w', prog'. split_and!; [done|done|done|by econstructor|done]. }
  case_match; apply Hgo.
Qed.

End Zstd.

(** ** Example *)

Lemma toy_decoder : stream_decoder toy_zlib (fun _ z d => z = d).
Proof.
  split. intros x inp rest d room ret x' n p <- Hr [= <- <- <- <-]. split_and!; [done|lia|rewrite length_take; lia| |].
  - exists (drop room inp ++ rest). rewrite app_assoc, take_drop. split; [done|]. f_equal.
    destruct (Nat.le_gt_cases room (length inp)); [by rewrite Nat.min_l|]. rewrite Nat.min_r by lia.
    by rewrite !drop_ge by lia.
  - intros [Hi|[-> Hd]]; [|rewrite app_nil_r in Hd]; (destruct inp; [done|]); cbn; lia.
Qed.

Definition toy_zstd_config : config (X := unit) := mk_config None None (Some (Some tt, toy_zlib)) None.

