(* ===== verification/Image.v ===== *)
(** * Artifacts and the configuration of an update: [include/swupdate_image.h],
    [include/swupdate.h], and [check_if_required] of [core/installer.c]

    The records that the parser of sw-description fills and that the streaming
    interface and the installer work on. A [char] array is the C string it holds;
    a list head comes first in its list. Pointers to the global configuration and
    the Lua state are not fields here. *)
From S2P Require Import Prelude CString Util Versions Dict Crypto Keys Cpio.

Inductive skip_t := SKIP_NONE | SKIP_SAME | SKIP_HIGHER | SKIP_SCRIPT.

#[export] Instance skip_eq_dec : EqDecision skip_t.
Proof. solve_decision. Defined.

Record img_type := mk_img {
  id : sw_version;
  type : string;
  fname : string;
  volname : string;
  device : string;
  path : string;
  mtdname : string;
  type_data : string;
  extract_file : string;
  filesystem : string;
  lua_fcn_pre : string;
  lua_fcn_post : string;
  seek : Z;
  skip : skip_t;
  provided : bool;
  compressed : compression_type;
  preserve_attributes : bool;
  is_encrypted : bool;
  cipher : cipher_t;
  ivt_ascii : string;
  aes_ascii : string;
  install_directly : bool;
  is_script : bool;
  is_partitioner : bool;
  properties : dict;
  partsize : Z;
  img_fdin : fd;
  img_size : Z;
  checksum : Z;
  sha256 : bytes;
}.

(** The fields that change after parsing. *)
Definition set_type (t : string) (i : img_type) : img_type :=
  mk_img (id i) t (fname i) (volname i) (device i) (path i) (mtdname i) (type_data i)
    (extract_file i) (filesystem i) (lua_fcn_pre i) (lua_fcn_post i) (seek i) (skip i)
    (provided i) (compressed i) (preserve_attributes i) (is_encrypted i) (cipher i)
    (ivt_ascii i) (aes_ascii i) (install_directly i) (is_script i) (is_partitioner i)
    (properties i) (partsize i) (img_fdin i) (img_size i) (checksum i) (sha256 i).

Definition set_extract_file (f : string) (i : img_type) : img_type :=
  mk_img (id i) (type i) (fname i) (volname i) (device i) (path i) (mtdname i) (type_data i)
    f (filesystem i) (lua_fcn_pre i) (lua_fcn_post i) (seek i) (skip i)
    (provided i) (compressed i) (preserve_attributes i) (is_encrypted i) (cipher i)
    (ivt_ascii i) (aes_ascii i) (install_directly i) (is_script i) (is_partitioner i)
    (properties i) (partsize i) (img_fdin i) (img_size i) (checksum i) (sha256 i).

Definition set_provided (i : img_type) : img_type :=
  mk_img (id i) (type i) (fname i) (volname i) (device i) (path i) (mtdname i) (type_data i)
    (extract_file i) (filesystem i) (lua_fcn_pre i) (lua_fcn_post i) (seek i) (skip i)
    true (compressed i) (preserve_attributes i) (is_encrypted i) (cipher i)
    (ivt_ascii i) (aes_ascii i) (install_directly i) (is_script i) (is_partitioner i)
    (properties i) (partsize i) (img_fdin i) (img_size i) (checksum i) (sha256 i).

Definition set_size (z : Z) (i : img_type) : img_type :=
  mk_img (id i) (type i) (fname i) (volname i) (device i) (path i) (mtdname i) (type_data i)
    (extract_file i) (filesystem i) (lua_fcn_pre i) (lua_fcn_post i) (seek i) (skip i)
    (provided i) (compressed i) (preserve_attributes i) (is_encrypted i) (cipher i)
    (ivt_ascii i) (aes_ascii i) (install_directly i) (is_script i) (is_partitioner i)
    (properties i) (partsize i) (img_fdin i) z (checksum i) (sha256 i).

Definition set_fdin (f : fd) (i : img_type) : img_type :=
  mk_img (id i) (type i) (fname i) (volname i) (device i) (path i) (mtdname i) (type_data i)
    (extract_file i) (filesystem i) (lua_fcn_pre i) (lua_fcn_post i) (seek i) (skip i)
    (provided i) (compressed i) (preserve_attributes i) (is_encrypted i) (cipher i)
    (ivt_ascii i) (aes_ascii i) (install_directly i) (is_script i) (is_partitioner i)
    (properties i) (partsize i) f (img_size i) (checksum i) (sha256 i).

Definition set_install_directly (i : img_type) : img_type :=
  mk_img (id i) (type i) (fname i) (volname i) (device i) (path i) (mtdname i) (type_data i)
    (extract_file i) (filesystem i) (lua_fcn_pre i) (lua_fcn_post i) (seek i) (skip i)
    (provided i) (compressed i) (preserve_attributes i) (is_encrypted i) (cipher i)
    (ivt_ascii i) (aes_ascii i) true (is_script i) (is_partitioner i)
    (properties i) (partsize i) (img_fdin i) (img_size i) (checksum i) (sha256 i).

Inductive swupdate_reboot_t := REBOOT_UNSET | REBOOT_ENABLED | REBOOT_DISABLED.

Record swupdate_type_cfg := mk_type_cfg {
  type_name : string;
  minimum_version : string;
  maximum_version : string;
  current_version : string;
  postupdatecmd : string;
  preupdatecmd : string;
  no_downgrading : bool;
  no_reinstalling : bool;
  check_max_version : bool;
  type_reboot_enabled : swupdate_reboot_t;
}.

Record swupdate_parms := mk_parms {
  dry_run : bool;
  software_set : string;
  running_mode : string;
}.

(** [include/hw-compatibility.h]. *)
Record hw_type := mk_hw {
  boardname : string;
  revision : string;
}.

(** The dictionary of changes for the bootloader, which handlers reach through a pointer,
    is kept with the state the handlers work on. *)
Record swupdate_cfg := mk_cfg {
  update_type_name : string;
  cfg_version : string;
  bootloader_transaction_marker : bool;
  bootloader_state_marker : bool;
  update_type_required : bool;
  output_swversions : string;
  namespace_for_vars : string;
  no_transaction_marker : bool;
  no_state_marker : bool;
  reboot_enabled : swupdate_reboot_t;
  installed_sw_list : list sw_version;
  swupdate_types : list swupdate_type_cfg;
  images : list img_type;
  scripts : list img_type;
  cfg_vars : dict;
  parms : swupdate_parms;
  update_type : swupdate_type_cfg;
  swdesc_max_size : Z;
  description : string;
  cfg_output : string;
  hw : hw_type;
  hardware : list hw_type;
}.

Definition set_images (l : list img_type) (c : swupdate_cfg) : swupdate_cfg :=
  mk_cfg (update_type_name c) (cfg_version c) (bootloader_transaction_marker c)
    (bootloader_state_marker c) (update_type_required c) (output_swversions c)
    (namespace_for_vars c) (no_transaction_marker c) (no_state_marker c) (reboot_enabled c)
    (installed_sw_list c) (swupdate_types c) l (scripts c) (cfg_vars c)
    (parms c) (update_type c) (swdesc_max_size c)
    (description c) (cfg_output c) (hw c) (hardware c).

Definition set_scripts (l : list img_type) (c : swupdate_cfg) : swupdate_cfg :=
  mk_cfg (update_type_name c) (cfg_version c) (bootloader_transaction_marker c)
    (bootloader_state_marker c) (update_type_required c) (output_swversions c)
    (namespace_for_vars c) (no_transaction_marker c) (no_state_marker c) (reboot_enabled c)
    (installed_sw_list c) (swupdate_types c) (images c) l (cfg_vars c)
    (parms c) (update_type c) (swdesc_max_size c)
    (description c) (cfg_output c) (hw c) (hardware c).

Definition set_installed (l : list sw_version) (c : swupdate_cfg) : swupdate_cfg :=
  mk_cfg (update_type_name c) (cfg_version c) (bootloader_transaction_marker c)
    (bootloader_state_marker c) (update_type_required c) (output_swversions c)
    (namespace_for_vars c) (no_transaction_marker c) (no_state_marker c) (reboot_enabled c)
    l (swupdate_types c) (images c) (scripts c) (cfg_vars c)
    (parms c) (update_type c) (swdesc_max_size c)
    (description c) (cfg_output c) (hw c) (hardware c).

(** The variables and the list of hardware revisions are dropped. *)
Definition clear_vars_hw (c : swupdate_cfg) : swupdate_cfg :=
  mk_cfg (update_type_name c) (cfg_version c) (bootloader_transaction_marker c)
    (bootloader_state_marker c) (update_type_required c) (output_swversions c)
    (namespace_for_vars c) (no_transaction_marker c) (no_state_marker c) (reboot_enabled c)
    (installed_sw_list c) (swupdate_types c) (images c) (scripts c) (dict_drop_db (cfg_vars c))
    (parms c) (update_type c) (swdesc_max_size c)
    (description c) (cfg_output c) (hw c) [].

Definition set_parms (p : swupdate_parms) (c : swupdate_cfg) : swupdate_cfg :=
  mk_cfg (update_type_name c) (cfg_version c) (bootloader_transaction_marker c)
    (bootloader_state_marker c) (update_type_required c) (output_swversions c)
    (namespace_for_vars c) (no_transaction_marker c) (no_state_marker c) (reboot_enabled c)
    (installed_sw_list c) (swupdate_types c) (images c) (scripts c) (cfg_vars c)
    p (update_type c) (swdesc_max_size c)
    (description c) (cfg_output c) (hw c) (hardware c).

Definition set_update_type_name (n : string) (c : swupdate_cfg) : swupdate_cfg :=
  mk_cfg n (cfg_version c) (bootloader_transaction_marker c)
    (bootloader_state_marker c) (update_type_required c) (output_swversions c)
    (namespace_for_vars c) (no_transaction_marker c) (no_state_marker c) (reboot_enabled c)
    (installed_sw_list c) (swupdate_types c) (images c) (scripts c) (cfg_vars c)
    (parms c) (update_type c) (swdesc_max_size c)
    (description c) (cfg_output c) (hw c) (hardware c).

Definition set_update_type (u : swupdate_type_cfg) (c : swupdate_cfg) : swupdate_cfg :=
  mk_cfg (update_type_name c) (cfg_version c) (bootloader_transaction_marker c)
    (bootloader_state_marker c) (update_type_required c) (output_swversions c)
    (namespace_for_vars c) (no_transaction_marker c) (no_state_marker c) (reboot_enabled c)
    (installed_sw_list c) (swupdate_types c) (images c) (scripts c) (cfg_vars c)
    (parms c) u (swdesc_max_size c)
    (description c) (cfg_output c) (hw c) (hardware c).

(** ** [check_if_required] *)

(** [swupdate_file_t]; an error is a negative value of the same type. *)
Definition COPY_FILE : Z := 0.
Definition SKIP_FILE : Z := 1.
Definition INSTALL_FROM_STREAM : Z := 2.

(** [snprintf (img->extract_file, sizeof(img->extract_file), "%s%s", ...)]. *)
Definition extract_path (destdir name : string) : string :=
  str_take (Z.to_nat (MAX_IMAGE_FNAME - 1)) (destdir +:+ name).

(** The body of the loop for an image with the name of the file: the image after it
    and, if the loop goes on, the image is the one found. *)
Definition check_image (pfdh : filehdr) (destdir : string) (install_direct : bool) (img : img_type)
  : Z * img_type :=
  let img := set_provided img in
  if negb (img_size img =? 0) && negb (img_size img =? u32 (fsize pfdh)) then (- EINVAL, img)
  else
    let img := set_extract_file (extract_path destdir (filename pfdh)) (set_size (u32 (fsize pfdh)) img) in
    if strlen (destdir +:+ filename pfdh) >=? MAX_IMAGE_FNAME then (- EBADF, img)
    else if install_direct then (- EINVAL, img)
    else (0, img).

(** The [LIST_FOREACH]: [n] images are behind, [pimg] is the position of the image
    found last. *)
Fixpoint check_loop (pfdh : filehdr) (destdir : string) (skip : Z) (install_direct : bool)
    (pimg : option nat) (n : nat) (l : list img_type) : Z * option nat * list img_type :=
  match l with
  | [] => (skip, pimg, [])
  | img :: l =>
      if strcmp (filename pfdh) (fname img) =? 0 then
        let '(err, img') := check_image pfdh destdir install_direct img in
        if negb (err =? 0) then (err, pimg, img' :: l)
        else
          let skip := if install_directly img then INSTALL_FROM_STREAM else COPY_FILE in
          let '(ret, p, l') :=
            check_loop pfdh destdir skip (install_direct || install_directly img) (Some n) (S n) l in
          (ret, p, img' :: l')
      else
        let '(ret, p, l') := check_loop pfdh destdir skip install_direct pimg (S n) l in
        (ret, p, img :: l')
  end.

(** The new value of [*pimg] is [None] where it is not assigned. *)
Definition check_if_required (list : list img_type) (pfdh : filehdr) (destdir : string)
  : Z * option nat * Datatypes.list img_type :=
  check_loop pfdh destdir SKIP_FILE false None 0 list.

(** ** Free space: [core/util.c] *)

(** The value of a property that must be a positive size. *)
Definition property_size (img : img_type) (key : string) (strict : bool) : Z :=
  match dict_get_value (properties img) key with
  | None => if strict then - ENOENT else img_size img
  | Some s =>
      let '(v, _, errno) := ustrtoull s 0 in
      let bytes := i64 v in
      if negb (errno =? 0) || (bytes <=? 0) then -1 else bytes
  end.

Definition get_output_size (img : img_type) (strict : bool) : Z :=
  if bool_decide (compressed img <> COMPRESSED_FALSE) then property_size img "decompressed-size" strict
  else if is_encrypted img then property_size img "decrypted-size" strict
  else img_size img.

(** [fstatvfs]: the free blocks and their size, [None] if it fails. *)
Definition check_free_space (statvfs : option (Z * Z)) (size : Z) : bool :=
  match statvfs with
  | None => true
  | Some (f_bfree, f_bsize) => negb (u64 (f_bfree * f_bsize) <? size)
  end.

Definition img_check_free_space (statvfs : option (Z * Z)) (img : img_type) : bool :=
  let size := get_output_size img false in
  if size <=? 0 then true else check_free_space statvfs size.

(** * Properties *)

(** An image of the archive member. *)
Definition wants (pfdh : filehdr) (img : img_type) : bool := bool_decide (filename pfdh = fname img).

(** What becomes of an image of the list when there is no error. *)
Definition found_image (pfdh : filehdr) (destdir : string) (img : img_type) : img_type :=
  if wants pfdh img then
    set_extract_file (destdir +:+ filename pfdh) (set_size (u32 (fsize pfdh)) (set_provided img))
  else img.

(** The member can be used for the image: the declared size is the real one. *)
Definition size_agrees (pfdh : filehdr) (img : img_type) : Prop :=
  img_size img = 0 \/ img_size img = u32 (fsize pfdh).

Lemma wants_strcmp pfdh img : (strcmp (filename pfdh) (fname img) =? 0) = wants pfdh img.
Proof. unfold wants. apply strcmp_eq. Qed.

Lemma check_image_ok pfdh destdir direct img img' :
  wants pfdh img = true -> check_image pfdh destdir direct img = (0, img') ->
  direct = false /\ size_agrees pfdh img /\ strlen (destdir +:+ filename pfdh) < MAX_IMAGE_FNAME /\
  img' = found_image pfdh destdir img.
Proof.
  intros Hw. unfold check_image, found_image, size_agrees. rewrite Hw.
  destruct (negb _ && _) eqn:Hs; [done|]. destruct (Z.geb_spec (strlen (destdir +:+ filename pfdh)) MAX_IMAGE_FNAME); [done|].
  case_if; [done|]. intros [= <-]. split_and!; [done| |done|].
  - change (img_size (set_provided img)) with (img_size img) in *.
    destruct (Z.eqb_spec (img_size img) 0), (Z.eqb_spec (img_size img) (u32 (fsize pfdh)));
      try done; auto.
  - f_equal. unfold extract_path. apply str_take_all.
    unfold strlen in *. lia.
Qed.

Lemma check_image_err pfdh destdir direct img err img' :
  check_image pfdh destdir direct img = (err, img') -> err <> 0 ->
  err < 0 /\ (~ size_agrees pfdh img \/ MAX_IMAGE_FNAME <= strlen (destdir +:+ filename pfdh) \/
              direct = true).
Proof.
  unfold check_image, size_agrees. change (img_size (set_provided img)) with (img_size img).
  destruct (negb _ && _) eqn:Hs; [|destruct (Z.geb_spec (strlen (destdir +:+ filename pfdh)) MAX_IMAGE_FNAME)];
    [| |destruct direct]; intros [= <- <-] Hn; (split; [try done|]); try lia; auto.
Qed.

(** The images of a member, and the condition under which all of them can be served. *)
Definition users (pfdh : filehdr) (l : list img_type) : list img_type :=
  filter (fun img => wants pfdh img = true) l.

Fixpoint stream_last (direct : bool) (l : list img_type) : Prop :=
  match l with
  | [] => True
  | img :: l => direct = false /\ stream_last (install_directly img) l
  end.

Definition servable (pfdh : filehdr) (destdir : string) (direct : bool) (l : list img_type) : Prop :=
  Forall (size_agrees pfdh) l /\
  (l = [] \/ strlen (destdir +:+ filename pfdh) < MAX_IMAGE_FNAME) /\ stream_last direct l.

Definition serve_mode (img : img_type) : Z :=
  if install_directly img then INSTALL_FROM_STREAM else COPY_FILE.

(** The position of the last element that satisfies a test. *)
Fixpoint last_index {A} (f : A -> bool) (n : nat) (l : list A) : option nat :=
  match l with
  | [] => None
  | x :: l => match last_index f (S n) l with
              | Some i => Some i
              | None => if f x then Some n else None
              end
  end.

Lemma users_cons pfdh img l :
  users pfdh (img :: l) = if wants pfdh img then img :: users pfdh l else users pfdh l.
Proof.
  unfold users. destruct (wants pfdh img) eqn:E.
  - by rewrite filter_cons_True.
  - rewrite filter_cons_False; [done|congruence].
Qed.

Lemma check_loop_spec pfdh destdir skip direct pimg n l ret p l' :
  check_loop pfdh destdir skip direct pimg n l = (ret, p, l') ->
  (servable pfdh destdir direct (users pfdh l) /\
   l' = found_image pfdh destdir <$> l /\
   ret = default skip (serve_mode <$> last (users pfdh l)) /\
   p = match last_index (wants pfdh) n l with Some i => Some i | None => pimg end) \/
  (~ servable pfdh destdir direct (users pfdh l) /\ ret < 0).
Proof.
  revert skip direct pimg n ret p l'. induction l as [|img l IH]; intros skip direct pimg n ret p l'.
  { intros [= <- <- <-]. left. repeat split; auto. }
  cbn [check_loop fmap list_fmap last_index]. rewrite wants_strcmp, users_cons.
  destruct (wants pfdh img) eqn:Hw.
  - destruct (check_image pfdh destdir direct img) as [err img'] eqn:Ec.
    destruct (Z.eqb_spec err 0) as [->|He]; cbn [negb].
    + apply check_image_ok in Ec as (-> & Hs & Hl & ->); [|done]. cbn [orb].
      destruct (check_loop _ _ _ _ _ _ l) as [[ret' p'] l''] eqn:E. intros [= <- <- <-].
      apply IH in E as [((F & L & St) & -> & -> & ->)|[Hn Hr]].
      * left. repeat split; auto.
        -- rewrite last_cons. by destruct (last (users pfdh l)).
        -- by destruct (last_index _ _ l).
      * right. split; [|done]. contradict Hn. destruct Hn as (F & _ & St). inversion F; subst.
        destruct St as [_ St]. repeat split; auto.
    + intros [= <- <- <-]. apply check_image_err in Ec as [Hneg Hc]; [|done]. right. split; [|done].
      intros (F & [|L] & St); [done|]. inversion F; subst. destruct St as [-> _]. destruct Hc as [Hc|[Hc|Hc]]; [done|lia|done].
  - destruct (check_loop _ _ _ _ _ _ l) as [[ret' p'] l''] eqn:E. intros [= <- <- <-].
    apply IH in E as [(S & -> & -> & ->)|[Hn Hr]]; [left|by right].
    unfold found_image at 2. rewrite Hw. split_and!; try done. by destruct (last_index _ _ l).
Qed.

(** Only the last image of a member is streamed. *)
Definition streamed_is_last (l : list img_type) : Prop :=
  forall i img, l !! i = Some img -> install_directly img = true -> S i = length l.

Lemma stream_last_spec direct l :
  stream_last direct l <-> (direct = true -> l = []) /\ streamed_is_last l.
Proof.
  revert direct. induction l as [|img l IH]; intros direct; cbn [stream_last].
  - split; [|done]. intros _. split; [done|]. intros i img. by rewrite lookup_nil.
  - rewrite IH. unfold streamed_is_last. split.
    + intros (-> & H1 & H2). split; [done|]. intros [|i] img' Hi Hd; simpl in Hi.
      * injection Hi as <-. by rewrite (H1 Hd).
      * cbn [length]. f_equal. by apply (H2 i img').
    + intros [H1 H2]. split; [|split].
      * destruct direct; [by specialize (H1 eq_refl)|done].
      * intros Hd. specialize (H2 0%nat img eq_refl Hd). by destruct l.
      * intros i img' Hi Hd. specialize (H2 (S i) img' Hi Hd). by injection H2.
Qed.

Lemma last_index_shift {A} (f : A -> bool) n l :
  last_index f (S n) l = S <$> last_index f n l.
Proof.
  revert n. induction l as [|x l IH]; intros n; cbn [last_index]; [done|].
  rewrite !(IH (S n)). destruct (last_index f (S n) l); [done|]. by destruct (f x).
Qed.

Lemma last_index_users pfdh l :
  match last_index (wants pfdh) 0 l with
  | Some i => l !! i = last (users pfdh l) /\ is_Some (l !! i)
  | None => users pfdh l = []
  end.
Proof.
  induction l as [|img l IH]; [done|]. cbn [last_index]. rewrite last_index_shift, users_cons.
  destruct (last_index (wants pfdh) 0 l) as [i|]; cbn [fmap option_fmap option_map].
  - change ((img :: l) !! S i) with (l !! i). destruct IH as [IH HS]. split; [|done].
    rewrite IH. destruct HS as [x HS]. rewrite IH in HS.
    destruct (wants pfdh img); [|done]. rewrite last_cons, HS. done.
  - rewrite IH. destruct (wants pfdh img); [split; [done|by eexists]|done].
Qed.

(** The case without streaming. *)
Lemma check_if_required_copy l pfdh destdir :
  Forall (size_agrees pfdh) (users pfdh l) -> strlen (destdir +:+ filename pfdh) < MAX_IMAGE_FNAME ->
  Forall (fun img => install_directly img = false) (users pfdh l) ->
  match last (users pfdh l) with
  | None => check_if_required l pfdh destdir = (SKIP_FILE, None, l)
  | Some img => exists i, l !! i = Some img /\
      check_if_required l pfdh destdir = (COPY_FILE, Some i, found_image pfdh destdir <$> l)
  end.
Proof.
  intros F L D. destruct (check_if_required l pfdh destdir) as [[ret pimg] l'] eqn:E.
  apply check_loop_spec in E as [(_ & -> & -> & ->)|[Hn _]].
  - pose proof (last_index_users pfdh l) as Hi.
    destruct (last_index (wants pfdh) 0 l) as [i|].
    + destruct Hi as [Hi [img HS]]. rewrite <- Hi, HS. exists i. split; [done|]. cbn.
      assert (install_directly img = false) as Hd.
      { rewrite Forall_forall in D. apply D, last_Some_elem_of. congruence. }
      unfold serve_mode. by rewrite Hd.
    + rewrite Hi. cbn. f_equal. clear -Hi. induction l as [|img l IH]; [done|]. cbn [fmap list_fmap].
      rewrite users_cons in Hi. unfold found_image at 1. destruct (wants pfdh img); [done|]. by rewrite IH.
  - destruct Hn. split_and!; [done|by right|]. apply stream_last_spec. split; [done|].
    intros i img Hi Hd. rewrite Forall_lookup in D. specialize (D i img Hi). congruence.
Qed.

(** C9: what [check_if_required] decides for a member of the archive. It succeeds
    exactly when every image that names the member declares no size or the
    right one, the path to extract it to fits, and no streamed image is
    followed by another image of the same member. It then marks exactly these images
    as provided, with the size of the member and the path to extract it
    to; a member that no image names is skipped, and otherwise the last image
    that names it is returned and decides between copying and streaming. *)
Theorem check_if_required_spec (l : list img_type) (pfdh : filehdr) (destdir : string) :
  let found := users pfdh l in
  let '(ret, pimg, l') := check_if_required l pfdh destdir in
  (0 <= ret <->
   Forall (size_agrees pfdh) found /\
   (found = [] \/ strlen (destdir +:+ filename pfdh) < MAX_IMAGE_FNAME) /\
   streamed_is_last found) /\
  (0 <= ret ->
   l' = found_image pfdh destdir <$> l /\
   match last found with
   | None => ret = SKIP_FILE /\ pimg = None
   | Some img => ret = serve_mode img /\ exists i, pimg = Some i /\ l !! i = Some img
   end).
Proof.
  cbv zeta. destruct (check_if_required l pfdh destdir) as [[ret pimg] l'] eqn:E.
  apply check_loop_spec in E. unfold servable in E. rewrite stream_last_spec in E.
  assert (forall img, 0 <= serve_mode img) as Hm by (intros img; unfold serve_mode; by case_if).
  destruct E as [((F & L & [_ St]) & -> & -> & ->)|[Hn Hr]].
  - split; [split; [done|]|].
    + intros _. destruct (last (users pfdh l)); [apply Hm|done].
    + intros _. split; [done|]. pose proof (last_index_users pfdh l) as Hi.
      destruct (last_index (wants pfdh) 0 l) as [i|].
      * destruct Hi as [Hi [img HS]]. rewrite <- Hi, HS. split; [done|]. by exists i.
      * by rewrite Hi.
  - split; [|lia]. split; [lia|]. intros (F & L & St). contradict Hn. by repeat split.
Qed.

(** The test for a file that is streamed to one image and wanted by
    another one depends on their order: the second order is refused, the first
    is not, and the file is then never extracted for the first image. *)
Theorem stream_shared_file (a b : img_type) (pfdh : filehdr) (destdir : string) :
  wants pfdh a = true -> wants pfdh b = true ->
  install_directly a = false -> install_directly b = true ->
  size_agrees pfdh a -> size_agrees pfdh b ->
  strlen (destdir +:+ filename pfdh) < MAX_IMAGE_FNAME ->
  (check_if_required [a; b] pfdh destdir).1 = (INSTALL_FROM_STREAM, Some 1%nat) /\
  (check_if_required [b; a] pfdh destdir).1.1 < 0.
Proof.
  intros Ha Hb Da Db Sa Sb Hl.
  assert (servable pfdh destdir false (users pfdh [a; b])) as S1.
  { rewrite !users_cons, Ha, Hb. repeat split; auto. }
  assert (~ servable pfdh destdir false (users pfdh [b; a])) as S2.
  { rewrite !users_cons, Ha, Hb. intros (_ & _ & _ & St). cbn in St. rewrite Db in St. naive_solver. }
  split.
  - destruct (check_if_required [a; b] pfdh destdir) as [[ret p] l'] eqn:E.
    apply check_loop_spec in E as [(_ & _ & -> & ->)|[Hn _]]; [|done].
    rewrite !users_cons, Ha, Hb. cbn. unfold serve_mode. by rewrite Hb, Db.
  - destruct (check_if_required [b; a] pfdh destdir) as [[ret p] l'] eqn:E.
    by apply check_loop_spec in E as [(? & _)|[_ Hr]].
Qed.

(** An image as a parser would leave it: most fields are empty. *)
Definition simple_img (name version typ file : string) (direct script : bool) : img_type :=
  mk_img (mk_sw_version name version false false) typ file "" "" "" "" "" "" "" "" "" 0 SKIP_NONE
    false COMPRESSED_FALSE false false AES_CBC "" "" direct script false [] 0 [] 0 0 [].

Lemma stream_shared_file_witness :
  let a := simple_img "a" "1" "raw" "rootfs.img" false false in
  let b := simple_img "b" "1" "raw" "rootfs.img" true false in
  let h := mk_filehdr 0 5 11 0 "rootfs.img" in
  (check_if_required [a; b] h "/tmp/").1 = (INSTALL_FROM_STREAM, Some 1%nat) /\
  (check_if_required [b; a] h "/tmp/").1.1 < 0.
Proof.
  refine (stream_shared_file (simple_img "a" "1" "raw" "rootfs.img" false false)
    (simple_img "b" "1" "raw" "rootfs.img" true false) (mk_filehdr 0 5 11 0 "rootfs.img") "/tmp/"
    _ _ _ _ _ _ _); try reflexivity; left; reflexivity.
Defined.
