(* ===== verification/Installer.v ===== *)
(** * The installer: [core/installer.c], and the version test of [parser/parser.c]

    Once the artifacts are extracted the installer runs the pre-install scripts,
    hands every image to its handler, runs the post-install scripts, and only
    then applies the variables and the environment of the bootloader and writes
    the file of installed versions. The handlers are the functions in the
    registry; the files, the environment and the devices they work on are the
    [machine]. *)
From stdpp Require Import gmap.
From S2P Require Import Prelude CString Util Versions Dict Handler Bootloader Grub.
From S2P Require Import Vars Crypto Keys Cpio Copyfile Image.

Definition MAX_BOOT_SCRIPT_LINE_LENGTH : nat := 1024.
Definition BOOT_SCRIPT_SUFFIX : string := "boot-script".

(** ** The files the installer writes *)

Definition var_line (key value : string) : string :=
  str_take (MAX_BOOT_SCRIPT_LINE_LENGTH - 1) (key +:+ "=" +:+ value +:+ String nl "").

(** The loop of [prepare_var_script]: [short n] is the number of bytes that write [n]
    takes when it is not complete. *)
Fixpoint var_script_lines (short : nat -> option nat) (n : nat) (out : string) (d : dict) : Z * string :=
  match d with
  | [] => (0, out)
  | bootvar :: d =>
      match dict_entry_get_value (Some bootvar) with
      | None => var_script_lines short n out d
      | Some value =>
          let buf := var_line (entry_key bootvar) value in
          match short n with
          | Some k => (-1, out +:+ str_take k buf)
          | None => var_script_lines short (S n) (out +:+ buf) d
          end
      end
  end.

(** The result and the content of the file; [None] if it cannot be opened. *)
Definition prepare_var_script (open_ok : bool) (short : nat -> option nat) (d : dict)
  : Z * option string :=
  if open_ok then let '(ret, text) := var_script_lines short 0 "" d in (ret, Some text)
  else (-1, None).

Definition TABS : string := String "009" (String "009" "").

Definition swversion_line (v : sw_version) : string := sw_name v +:+ TABS +:+ sw_vers v.

Definition swversions_text (l : list sw_version) : string := unlines (swversion_line <$> l).

Definition generate_swversions (open_ok : bool) (l : list sw_version) : Z * option string :=
  if open_ok then (0, Some (swversions_text l)) else (- EACCES, None).

(** ** Installed versions *)

(** [strncpy] into a field of the same size: the fields hold strings that fit. [None]: no
    component of this name. *)
Fixpoint replace_version (l : list sw_version) (img : img_type) : option (list sw_version) :=
  match l with
  | [] => None
  | swver :: l =>
      if strncmp (sw_name (id img)) (sw_name swver) SWUPDATE_GENERAL_STRING_SIZE =? 0 then
        Some (mk_sw_version (sw_name swver) (sw_vers (id img)) (install_if_different swver)
                (install_if_higher swver) :: l)
      else cons swver <$> replace_version l img
  end.

Definition update_installed_image_version (mem : bool) (l : list sw_version) (img : img_type)
  : bool * list sw_version :=
  match replace_version l img with
  | Some l => (true, l)
  | None =>
      if strlen (sw_vers (id img)) =? 0 then (false, l)
      else if mem then
        (true, mk_sw_version (strlcpy (sw_name (id img)) SWUPDATE_GENERAL_STRING_SIZE)
                 (strlcpy (sw_vers (id img)) SWUPDATE_GENERAL_STRING_SIZE) false false :: l)
      else (false, l)
  end.

(** The tests of [parse_common_attributes] against the installed versions. *)
Definition version_candidate (img : img_type) (flag : bool) : bool :=
  negb (strlen (sw_name (id img)) =? 0) && negb (strlen (sw_vers (id img)) =? 0) && flag.

Definition same_name (img : img_type) (swver : sw_version) : bool :=
  strncmp (sw_name (id img)) (sw_name swver) SWUPDATE_GENERAL_STRING_SIZE =? 0.

Definition is_image_installed (l : list sw_version) (img : img_type) : bool :=
  version_candidate img (install_if_different (id img)) &&
  existsb (fun swver => same_name img swver &&
    (compare_versions (sw_vers (id img)) (sw_vers swver) =? 0)) l.

Definition is_image_higher (l : list sw_version) (img : img_type) : bool :=
  version_candidate img (install_if_higher (id img)) &&
  existsb (fun swver => same_name img swver &&
    (compare_versions (sw_vers (id img)) (sw_vers swver) <=? 0)) l.

Definition image_skip (l : list sw_version) (img : img_type) : skip_t :=
  if is_image_installed l img then SKIP_SAME
  else if is_image_higher l img then SKIP_HIGHER
  else SKIP_NONE.

(** ** Running handlers *)

Inductive script_fn := NONE | PREINSTALL | POSTINSTALL | POSTFAILURE.

(** [struct script_handler_data], or the private data alone. *)
Record handler_data := mk_hdata {
  scriptfn : option script_fn;
  hnd_data : Z;
}.

(** What the installer and the handlers work on: the temporary files, the environment
    of the bootloader ([E]), SWUpdate's variables ([V]), the dictionary of
    changes for the bootloader, which handlers may extend, and all the rest ([W]). *)
Record machine (E V W : Type) := mk_machine {
  m_files : gmap string bytes;
  m_env : E;
  m_vars : V;
  m_bootdict : dict;
  m_world : W;
}.
Arguments mk_machine {E V W}.
Arguments m_files {E V W}.
Arguments m_env {E V W}.
Arguments m_vars {E V W}.
Arguments m_bootdict {E V W}.
Arguments m_world {E V W}.

Definition set_files {E V W} (f : gmap string bytes) (m : machine E V W) : machine E V W :=
  mk_machine f (m_env m) (m_vars m) (m_bootdict m) (m_world m).
Definition set_env {E V W} (e : E) (m : machine E V W) : machine E V W :=
  mk_machine (m_files m) e (m_vars m) (m_bootdict m) (m_world m).
Definition set_vars {E V W} (v : V) (m : machine E V W) : machine E V W :=
  mk_machine (m_files m) (m_env m) v (m_bootdict m) (m_world m).

(** The behaviour of the file system and the allocator. *)
Record io := mk_io {
  can_write : string -> bool;
  wr_plan : string -> list wr_event;
  wr_short : nat -> option nat;
  io_mem : bool;
}.

Section Installer.
Context {E V W : Type}.
#[local] Abbreviation mach := (machine E V W).
(** A handler, or a function of the Lua state: its result, the image as it leaves it,
    and the machine. *)
#[local] Abbreviation handler_fn := (img_type -> handler_data -> mach -> Z * img_type * mach).
Variable bl : bootloader E.
Variable vars_apply_list : option string -> string -> V -> Z * V.
Variable lua_parser_fn : string -> img_type -> mach -> Z * img_type * mach.
Variable reg : registry handler_fn.
Variable os : io.
Variables TMPDIR tmpdir_scripts : string.
(** Libraries, keys and fuel of [copyfile]. *)
Context {C D X : Type} (hl : hash_lib C) (dl : decrypt_lib D).
Variable zcfg : config (X := X).
Variable keys : option decryption_key.
Variable fuel : nat.

Definition copy_args (img : img_type) (f : fd) : swupdate_copy :=
  mk_copy f None (Z.to_nat (img_size img)) 0 0 0 true false (compressed img) (Some (sha256 img))
    (is_encrypted img) (Some (ivt_ascii img)) (Some (aes_ascii img)) (cipher img).

(** [None]: the fuel of a copy is used up. *)
Fixpoint extract_scripts (head : list img_type) (files : gmap string bytes)
  : option (Z * list img_type * gmap string bytes) :=
  match head with
  | [] => Some (0, [], files)
  | script :: rest =>
      let next script files :=
        '(ret, rest, files) ← extract_scripts rest files; Some (ret, script :: rest, files) in
      if String.eqb (fname script) "" && negb (provided script) then next script files
      else if negb (provided script) then Some (-1, script :: rest, files)
      else
        let script := set_extract_file (extract_path tmpdir_scripts (fname script)) script in
        let out := extract_file script in
        if negb (can_write os out) then Some (-1, script :: rest, files)
        else
          let files := <[out := []]> files in
          if negb (io_mem os) then Some (- ENOMEM, script :: rest, files)
          else
            match files !! (TMPDIR +:+ fname script) with
            | None => Some (- ENOENT, script :: rest, files)
            | Some data =>
                r ← copyfile hl dl copy_write fuel zcfg keys (copy_args script (rd_block data))
                      (mk_sink [] (wr_plan os out));
                let files := <[out := written (r_out r)]> files in
                if r_ret r <? 0 then Some (r_ret r, script :: rest, files) else next script files
            end
  end.

Fixpoint run_prepost_scripts (l : list img_type) (fn : script_fn) (m : mach)
  : Z * list img_type * mach :=
  match l with
  | [] => (0, [], m)
  | img :: rest =>
      let next img m :=
        let '(ret, rest, m) := run_prepost_scripts rest fn m in (ret, img :: rest, m) in
      if negb (is_script img) then next img m
      else
        match find_handler (type img) reg with
        | None => next img m
        | Some hnd =>
            let '(ret, img, m) := installer hnd img (mk_hdata (Some fn) (data hnd)) m in
            if negb (ret =? 0) then (ret, img :: rest, m) else next img m
        end
  end.

Definition run_lua_pre (img : img_type) (m : mach) : img_type * mach :=
  if strlen (lua_fcn_pre img) =? 0 then (img, m)
  else let '(_, img, m) := lua_parser_fn (lua_fcn_pre img) img m in (img, m).

(** The result of the pre-install function is only traced. *)
Definition install_single_image (img : img_type) (dry_run : bool) (m : mach)
  : Z * img_type * mach :=
  let img := if dry_run then set_type "dummy" img else img in
  match find_handler (type img) reg with
  | None => (-1, img, m)
  | Some hnd =>
      let '(img, m) := run_lua_pre img m in
      let '(ret, img, m) := installer hnd img (mk_hdata None (data hnd)) m in
      if negb (ret =? 0) then (ret, img, m)
      else if strlen (lua_fcn_post img) =? 0 then (ret, img, m)
      else lua_parser_fn (lua_fcn_post img) img m
  end.

(** The loop over the images in [install_images]; an image whose temporary and final
    locations are the same is not processed, and dropped from the list. *)
Fixpoint install_loop (dry_run : bool) (l : list img_type) (installed : list sw_version) (m : mach)
  : Z * list img_type * list sw_version * mach :=
  match l with
  | [] => (0, [], installed, m)
  | img :: rest =>
      if install_directly img then
        let '(ret, rest, installed, m) := install_loop dry_run rest installed m in
        (ret, img :: rest, installed, m)
      else if negb (io_mem os) then (-1, img :: rest, installed, m)
      else
        match m_files m !! (TMPDIR +:+ fname img) with
        | None => (-1, img :: rest, installed, m)
        | Some content =>
            let img := set_fdin (rd_block content) (set_size (Z.of_nat (length content)) img) in
            let dropimg := (strlen (path img) >? 0) && (strlen (extract_file img) >? 0) &&
              (strncmp (path img) (extract_file img) MAX_IMAGE_FNAME =? 0) in
            let '(ret, img, m) :=
              if dropimg then (0, img, m) else install_single_image img dry_run m in
            let installed := (update_installed_image_version (io_mem os) installed img).2 in
            if negb (ret =? 0)
            then (ret, (if dropimg then rest else img :: rest), installed, m)
            else
              let '(ret, rest, installed, m) := install_loop dry_run rest installed m in
              (ret, (if dropimg then rest else img :: rest), installed, m)
        end
  end.

Definition update_bootloader_env (script : string) (m : mach) : Z * mach :=
  let '(ret, text) := prepare_var_script (can_write os script) (wr_short os) (m_bootdict m) in
  let m := match text with
           | Some t => set_files (<[script := String.list_ascii_of_string t]> (m_files m)) m
           | None => m
           end in
  if negb (ret =? 0) then (ret, m)
  else let '(ret, e) := apply_list bl text (m_env m) in (ret, set_env e m).

Definition update_swupdate_vars (sw : swupdate_cfg) (script : string) (m : mach) : Z * mach :=
  let '(ret, text) := prepare_var_script (can_write os script) (wr_short os) (cfg_vars sw) in
  let m := match text with
           | Some t => set_files (<[script := String.list_ascii_of_string t]> (m_files m)) m
           | None => m
           end in
  if negb (ret =? 0) then (ret, m)
  else let '(ret, v) := vars_apply_list text (namespace_for_vars sw) (m_vars m) in (ret, set_vars v m).

(** The next step, unless the last one failed. *)
Definition and_then {A} (r : Z * A) (k : A -> Z * A) : Z * A :=
  let '(ret, a) := r in if negb (ret =? 0) then (ret, a) else k a.

Definition run_scripts_step (fn : script_fn) (s : swupdate_cfg * mach)
  : Z * (swupdate_cfg * mach) :=
  let '(ret, l, m) := run_prepost_scripts (scripts s.1) fn s.2 in (ret, (set_scripts l s.1, m)).

Definition install_step (s : swupdate_cfg * mach) : Z * (swupdate_cfg * mach) :=
  let '(ret, l, installed, m) :=
    install_loop (dry_run (parms s.1)) (images s.1) (installed_sw_list s.1) s.2 in
  (ret, (set_installed installed (set_images l s.1), m)).

Definition vars_step (script : string) (s : swupdate_cfg * mach) : Z * (swupdate_cfg * mach) :=
  match cfg_vars s.1 with
  | [] => (0, s)
  | _ => let '(ret, m) := update_swupdate_vars s.1 script s.2 in (ret, (s.1, m))
  end.

Definition bootenv_step (script : string) (s : swupdate_cfg * mach)
  : Z * (swupdate_cfg * mach) :=
  match m_bootdict s.2 with
  | [] => (0, s)
  | _ => let '(ret, m) := update_bootloader_env script s.2 in (ret, (s.1, m))
  end.

Definition swversions_step (s : swupdate_cfg * mach) : Z * (swupdate_cfg * mach) :=
  let out := output_swversions s.1 in
  if strlen out =? 0 then (0, s)
  else
    let '(ret, text) := generate_swversions (can_write os out) (installed_sw_list s.1) in
    (ret, (s.1, match text with
                | Some t => set_files (<[out := String.list_ascii_of_string t]> (m_files s.2)) s.2
                | None => s.2
                end)).

(** What follows the extraction of the scripts. *)
Definition install_body (sw : swupdate_cfg) (m : mach) : Z * (swupdate_cfg * mach) :=
  let script := TMPDIR +:+ BOOT_SCRIPT_SUFFIX in
  if dry_run (parms sw) then install_step (sw, m)
  else
    and_then (and_then (and_then (and_then (and_then
      (run_scripts_step PREINSTALL (sw, m))
      install_step)
      (run_scripts_step POSTINSTALL))
      (vars_step script))
      (bootenv_step script))
      swversions_step.

Definition install_images (sw : swupdate_cfg) (m : mach)
  : option (Z * (swupdate_cfg * mach)) :=
  '(ret, l, files) ← extract_scripts (scripts sw) (m_files m);
  let sw := set_scripts l sw in
  let m := set_files files m in
  Some (if negb (ret =? 0) then (ret, (sw, m)) else install_body sw m).

(** ** The end of an update *)

(** [remove_sw_file]; [nocleanup] is [CONFIG_NOCLEANUP]. *)
Definition remove_sw_file (nocleanup : bool) (f : string) (files : gmap string bytes) : gmap string bytes :=
  if nocleanup then files else delete f files.

Definition cleaup_img_entry (nocleanup : bool) (img : img_type) (files : gmap string bytes)
  : gmap string bytes :=
  if String.eqb (fname img) "" then files
  else remove_sw_file nocleanup (TMPDIR +:+ fname img)
         (remove_sw_file nocleanup (tmpdir_scripts +:+ fname img) files).

Definition SW_DESCRIPTION_FILENAME : string := "sw-description".

(** The files and the lists; allocations succeed. [signed] is [CONFIG_SIGNED_IMAGES]. The
    session handlers go with the Lua state, see [Handler]. *)
Definition cleanup_files (nocleanup signed : bool) (sw : swupdate_cfg) (m : mach)
  : swupdate_cfg * mach :=
  let rm := remove_sw_file nocleanup in
  let files := foldl (fun files img => if String.eqb (fname img) "" then files
                        else rm (TMPDIR +:+ fname img) files) (m_files m) (images sw) in
  let files := foldl (fun files img => cleaup_img_entry nocleanup img files) files (scripts sw) in
  let files := rm (TMPDIR +:+ SW_DESCRIPTION_FILENAME) (rm (TMPDIR +:+ BOOT_SCRIPT_SUFFIX) files) in
  let files := if signed then rm (TMPDIR +:+ SW_DESCRIPTION_FILENAME +:+ ".sig") files else files in
  (clear_vars_hw (set_scripts [] (set_images [] sw)),
   mk_machine files (m_env m) (m_vars m) (dict_drop_db (m_bootdict m)) (m_world m)).

(** [run_system_cmd] and the commands of the update type. *)
Section Commands.
Variable run_system_cmd : string -> mach -> Z * mach.

Definition preupdatecmd (sw : option swupdate_cfg) (m : mach) : Z * mach :=
  match sw with
  | None => (0, m)
  | Some sw =>
      if dry_run (parms sw) then (0, m) else run_system_cmd (Image.preupdatecmd (update_type sw)) m
  end.

Definition postupdate (sw : option swupdate_cfg) (m : mach) : Z * mach :=
  match sw with
  | None => (0, m)
  | Some sw =>
      if dry_run (parms sw) then (0, m) else run_system_cmd (postupdatecmd (update_type sw)) m
  end.
End Commands.

(** * Properties *)

(** ** The order of the installation *)

(** An image is taken care of, respectively fails, in a machine. *)
Definition opened (img : img_type) (content : bytes) : img_type :=
  set_fdin (rd_block content) (set_size (Z.of_nat (length content)) img).

Definition in_place (img : img_type) : bool :=
  (strlen (path img) >? 0) && (strlen (extract_file img) >? 0) &&
  (strncmp (path img) (extract_file img) MAX_IMAGE_FNAME =? 0).

Inductive image_run (dry : bool) (img : img_type) (m : mach) : Z -> mach -> Prop :=
  | run_streamed : install_directly img = true -> image_run dry img m 0 m
  | run_in_place content : install_directly img = false ->
      m_files m !! (TMPDIR +:+ fname img) = Some content -> in_place img = true ->
      image_run dry img m 0 m
  | run_handler content ret img' m' : install_directly img = false ->
      m_files m !! (TMPDIR +:+ fname img) = Some content -> in_place img = false ->
      install_single_image (opened img content) dry m = (ret, img', m') ->
      image_run dry img m ret m'
  | run_missing : install_directly img = false ->
      m_files m !! (TMPDIR +:+ fname img) = None \/ io_mem os = false -> image_run dry img m (-1) m.

Inductive images_run (dry : bool) : list img_type -> mach -> mach -> Prop :=
  | images_nil m : images_run dry [] m m
  | images_cons img l m m1 m2 :
      image_run dry img m 0 m1 -> images_run dry l m1 m2 -> images_run dry (img :: l) m m2.

(** Every script that has a handler was run, without error; [l'] is the list after it. *)
Inductive scripts_run (fn : script_fn) : list img_type -> mach -> list img_type -> mach -> Prop :=
  | scripts_nil m : scripts_run fn [] m [] m
  | scripts_skip img l m l' m1 :
      is_script img = false \/ find_handler (type img) reg = None ->
      scripts_run fn l m l' m1 -> scripts_run fn (img :: l) m (img :: l') m1
  | scripts_cons img l hnd img' l' m m1 m2 :
      is_script img = true -> find_handler (type img) reg = Some hnd ->
      installer hnd img (mk_hdata (Some fn) (data hnd)) m = (0, img', m1) ->
      scripts_run fn l m1 l' m2 -> scripts_run fn (img :: l) m (img' :: l') m2.

(** The images are run in order up to the first that fails. *)
Definition images_outcome (dry : bool) (l : list img_type) (m : mach) (ret : Z) (m' : mach) : Prop :=
  (ret = 0 /\ images_run dry l m m') \/
  (ret <> 0 /\ exists l1 img l2 m1,
     l = l1 ++ img :: l2 /\ images_run dry l1 m m1 /\ image_run dry img m1 ret m').

Lemma images_outcome_next dry img l m m1 ret m' :
  image_run dry img m 0 m1 -> images_outcome dry l m1 ret m' -> images_outcome dry (img :: l) m ret m'.
Proof.
  intros Hi [[-> R]|(Hn & l1 & i & l2 & m2 & -> & R & F)].
  - left. split; [done|]. by econstructor.
  - right. split; [done|]. exists (img :: l1), i, l2, m2. split_and!; [done|by econstructor|done].
Qed.

Lemma images_outcome_stop dry img l m ret m' :
  ret <> 0 -> image_run dry img m ret m' -> images_outcome dry (img :: l) m ret m'.
Proof.
  intros Hr Hi. right. split; [done|]. exists [], img, l, m. split_and!; [done|constructor|done].
Qed.

Lemma install_loop_run dry l inst m :
  let '(ret, _, _, m') := install_loop dry l inst m in images_outcome dry l m ret m'.
Proof.
  revert inst m. induction l as [|img l IH]; intros inst m; cbn [install_loop].
  { left. split; [done|constructor]. }
  assert (forall inst1 m1, image_run dry img m 0 m1 ->
    let '(ret, _, _, m') := install_loop dry l inst1 m1 in images_outcome dry (img :: l) m ret m') as step.
  { intros inst1 m1 Hi. specialize (IH inst1 m1).
    destruct (install_loop dry l inst1 m1) as [[[r l1] i1] m2]. by eapply images_outcome_next. }
  assert (forall inst1 m1 f, image_run dry img m 0 m1 ->
    let '(ret, _, _, m') := (let '(ret, rest, i, m) := install_loop dry l inst1 m1 in
      (ret, f rest : list img_type, i, m)) in images_outcome dry (img :: l) m ret m') as step'.
  { intros inst1 m1 f Hi. specialize (step inst1 m1 Hi).
    by destruct (install_loop dry l inst1 m1) as [[[r l1] i1] m2]. }
  destruct (install_directly img) eqn:Hd.
  { apply (step' inst m (cons img)), (run_streamed _ _ _ Hd). }
  destruct (io_mem os) eqn:Hm; cbn [negb];
    [|by apply images_outcome_stop, run_missing; [..|right]].
  destruct (m_files m !! _) as [c|] eqn:Hf; [|by apply images_outcome_stop, run_missing; [..|left]].
  fold (opened img c). change (path (opened img c)) with (path img).
  change (extract_file (opened img c)) with (extract_file img). fold (in_place img).
  destruct (in_place img) eqn:Hp; cbn zeta.
  - apply (step' _ m (fun rest => rest)), (run_in_place _ _ _ _ Hd Hf Hp).
  - destruct (install_single_image (opened img c) dry m) as [[r img1] m1] eqn:Ei.
    pose proof (run_handler _ _ _ _ _ _ _ Hd Hf Hp Ei) as Hrun.
    destruct (Z.eqb_spec r 0) as [->|Hr]; cbn [negb]; [|by apply images_outcome_stop].
    apply (step' _ m1 (cons img1)), Hrun.
Qed.

Lemma run_prepost_run fn l m ret l' m' :
  run_prepost_scripts l fn m = (ret, l', m') -> ret = 0 -> scripts_run fn l m l' m'.
Proof.
  revert m ret l' m'. induction l as [|img l IH]; intros m ret l' m'; cbn [run_prepost_scripts].
  { intros [= <- <- <-] _. constructor. }
  destruct (is_script img) eqn:Hs; cbn [negb].
  - destruct (find_handler (type img) reg) as [hnd|] eqn:Hh.
    + destruct (installer hnd img _ m) as [[r img1] m1] eqn:Hi.
      destruct (Z.eqb_spec r 0) as [->|Hr]; cbn [negb]; [|by intros [= <- <- <-]].
      destruct (run_prepost_scripts l fn m1) as [[r2 l2] m2] eqn:Er. intros [= <- <- <-] H0.
      eapply scripts_cons; eauto.
    + destruct (run_prepost_scripts l fn m) as [[r2 l2] m2] eqn:Er. intros [= <- <- <-] H0.
      eapply scripts_skip; eauto.
  - destruct (run_prepost_scripts l fn m) as [[r2 l2] m2] eqn:Er. intros [= <- <- <-] H0.
    eapply scripts_skip; eauto.
Qed.

(** The handlers leave the environment of the bootloader to the installer. *)
Record keeps_env : Prop := {
  handler_keeps_env : forall t hnd img d m, find_handler t reg = Some hnd ->
    m_env (installer hnd img d m).2 = m_env m;
  lua_keeps_env : forall f img m, m_env (lua_parser_fn f img m).2 = m_env m;
}.

(** An invariant that the handlers and the Lua functions keep. *)
Record keeps (P : mach -> Prop) : Prop := {
  handler_keeps : forall t hnd img d m, find_handler t reg = Some hnd -> P m -> P (installer hnd img d m).2;
  lua_keeps : forall f img m, P m -> P (lua_parser_fn f img m).2;
}.

Section Keeps.
Context (P : mach -> Prop) (Hk : keeps P).

Lemma install_single_keeps img dry m : P m -> P (install_single_image img dry m).2.
Proof.
  intros HP. unfold install_single_image. set (img0 := if dry then _ else _).
  destruct (find_handler (type img0) reg) as [hnd|] eqn:Hh; [|done].
  assert (P (run_lua_pre img0 m).2) as Hp.
  { unfold run_lua_pre. case_if; [done|]. pose proof (lua_keeps P Hk (lua_fcn_pre img0) img0 m HP).
    by destruct (lua_parser_fn _ img0 m) as [[? ?] ?]. }
  destruct (run_lua_pre img0 m) as [img1 m1]. cbn [snd] in Hp.
  pose proof (handler_keeps P Hk _ _ img1 (mk_hdata None (data hnd)) m1 Hh Hp) as Hi.
  destruct (installer hnd img1 _ m1) as [[r img2] m2]. cbn [snd] in Hi.
  case_if; [done|]. case_if; [done|]. by apply (lua_keeps P Hk).
Qed.

Lemma image_run_keeps dry img m ret m' : image_run dry img m ret m' -> P m -> P m'.
Proof.
  intros [| |c r img' m1 _ _ _ Hi|]; try done.
  pose proof (install_single_keeps (opened img c) dry m) as He. by rewrite Hi in He.
Qed.

Lemma images_run_keeps dry l m m' : images_run dry l m m' -> P m -> P m'.
Proof. induction 1 as [|img l m m1 m2 Hi _ IH]; [done|]. intros. apply IH. by eapply image_run_keeps. Qed.

Lemma images_outcome_keeps dry l m ret m' : images_outcome dry l m ret m' -> P m -> P m'.
Proof.
  intros [[_ R]|(_ & l1 & img & l2 & m1 & _ & R & F)] ?; [by eapply images_run_keeps|].
  eapply image_run_keeps; [done|]. by eapply images_run_keeps.
Qed.

Lemma scripts_run_keeps fn l m l' m' : scripts_run fn l m l' m' -> P m -> P m'.
Proof.
  induction 1 as [| |img l hnd img' l' m m1 m2 _ Hh Hi _ IH]; [auto..|]. intros Hp. apply IH.
  pose proof (handler_keeps P Hk _ _ img (mk_hdata (Some fn) (data hnd)) m Hh Hp) as H. by rewrite Hi in H.
Qed.

Lemma run_prepost_keeps fn l m : P m -> P (run_prepost_scripts l fn m).2.
Proof.
  revert m. induction l as [|img l IH]; intros m Hp; cbn [run_prepost_scripts]; [done|].
  assert (forall img1 m1, P m1 ->
    P (let '(ret, rest, m) := run_prepost_scripts l fn m1 in (ret, img1 :: rest, m)).2) as step.
  { intros img1 m1 H. specialize (IH m1 H). by destruct (run_prepost_scripts l fn m1) as [[? ?] ?]. }
  case_if; [by apply step|]. destruct (find_handler (type img) reg) as [hnd|] eqn:Hh; [|by apply step].
  pose proof (handler_keeps P Hk _ _ img (mk_hdata (Some fn) (data hnd)) m Hh Hp) as Hi.
  destruct (installer hnd img _ m) as [[r img1] m1]. cbn [snd] in Hi.
  case_if; [done|]. by apply step.
Qed.
End Keeps.

Section KeepsEnv.
Context (Hk : keeps_env).

Lemma keeps_env_keeps e : keeps (fun m => m_env m = e).
Proof.
  split.
  - intros t hnd img d m Hh <-. by apply (handler_keeps_env Hk t).
  - intros f img m <-. apply (lua_keeps_env Hk).
Qed.

Lemma images_outcome_env dry l m ret m' : images_outcome dry l m ret m' -> m_env m' = m_env m.
Proof. intros H. by apply (images_outcome_keeps _ (keeps_env_keeps (m_env m)) _ _ _ _ _ H). Qed.

Lemma run_prepost_env fn l m : m_env (run_prepost_scripts l fn m).2 = m_env m.
Proof. by apply (run_prepost_keeps _ (keeps_env_keeps (m_env m))). Qed.
End KeepsEnv.

Lemma and_then_inv {A} (r : Z * A) k ret a :
  and_then r k = (ret, a) -> (r = (ret, a) /\ ret <> 0) \/ exists b, r = (0, b) /\ k b = (ret, a).
Proof.
  unfold and_then. destruct r as [r1 b]. destruct (Z.eqb_spec r1 0) as [->|Hn]; cbn [negb]; eauto.
  intros [= <- <-]. auto.
Qed.

(** Everything before the variables is done: the scripts are extracted, the pre-install
    scripts, the images and the post-install scripts have run without error. *)
Definition all_installed (sw : swupdate_cfg) (m : mach) (sw3 : swupdate_cfg) (m3 : mach) : Prop :=
  exists files scr0 scr1 m1 m2,
    extract_scripts (scripts sw) (m_files m) = Some (0, scr0, files) /\
    scripts_run PREINSTALL scr0 (set_files files m) scr1 m1 /\
    images_run false (images sw) m1 m2 /\
    scripts_run POSTINSTALL scr1 m2 (scripts sw3) m3.

Lemma all_installed_keeps (P : mach -> Prop) sw m sw3 m3 :
  keeps P -> (forall files, P (set_files files m)) -> all_installed sw m sw3 m3 -> P m3.
Proof.
  intros Hk HP (files & scr0 & scr1 & m1 & m2 & _ & H1 & H2 & H3).
  eapply scripts_run_keeps; [done..|]. eapply images_run_keeps; [done..|].
  by eapply scripts_run_keeps.
Qed.

Definition last_steps (s : swupdate_cfg * mach) : Z * (swupdate_cfg * mach) :=
  and_then (and_then (vars_step (TMPDIR +:+ BOOT_SCRIPT_SUFFIX) s)
    (bootenv_step (TMPDIR +:+ BOOT_SCRIPT_SUFFIX))) swversions_step.

Lemma and_then_assoc3 {A} (r : Z * A) f g h :
  and_then (and_then (and_then r f) g) h = and_then r (fun a => and_then (and_then (f a) g) h).
Proof. unfold and_then. destruct r as [r1 a]. by destruct (negb (r1 =? 0)) eqn:Hr; rewrite ?Hr. Qed.

Lemma run_scripts_step_inv fn s ret s' :
  run_scripts_step fn s = (ret, s') ->
  (ret = 0 -> scripts_run fn (scripts s.1) s.2 (scripts s'.1) s'.2) /\
  (keeps_env -> m_env s'.2 = m_env s.2) /\ s'.1 = set_scripts (scripts s'.1) s.1.
Proof.
  unfold run_scripts_step. destruct (run_prepost_scripts (scripts s.1) fn s.2) as [[r l] m] eqn:Er.
  intros [= <- <-]. cbn. split_and!; [|intros Hk|done].
  - intros Hr. by eapply run_prepost_run.
  - pose proof (run_prepost_env Hk fn (scripts s.1) s.2) as He. by rewrite Er in He.
Qed.

Lemma install_step_inv s ret s' :
  install_step s = (ret, s') ->
  images_outcome (dry_run (parms s.1)) (images s.1) s.2 ret s'.2 /\
  s'.1 = set_installed (installed_sw_list s'.1) (set_images (images s'.1) s.1).
Proof.
  unfold install_step.
  pose proof (install_loop_run (dry_run (parms s.1)) (images s.1) (installed_sw_list s.1) s.2) as R.
  destruct (install_loop _ _ _ _) as [[[r l] i] m]. by intros [= <- <-].
Qed.

Lemma install_body_cases sw m files scr ret s' :
  dry_run (parms sw) = false ->
  extract_scripts (scripts sw) (m_files m) = Some (0, scr, files) ->
  install_body (set_scripts scr sw) (set_files files m) = (ret, s') ->
  (ret <> 0 /\ (keeps_env -> m_env s'.2 = m_env m)) \/
  exists sw3 m3, all_installed sw m sw3 m3 /\ (keeps_env -> m_env m3 = m_env m) /\
    cfg_vars sw3 = cfg_vars sw /\ output_swversions sw3 = output_swversions sw /\
    last_steps (sw3, m3) = (ret, s').
Proof.
  intros Hd He. unfold install_body. cbn zeta. change (dry_run (parms (set_scripts scr sw))) with (dry_run (parms sw)).
  rewrite Hd, and_then_assoc3. change (fun a => and_then (and_then _ _) _) with last_steps. set (s0 := (set_scripts scr sw, set_files files m)). intros H.
  apply and_then_inv in H as [[H Hn]|(s3 & H & Hlast)].
  - left. split; [done|]. intros Hk. apply and_then_inv in H as [[H _]|(s2 & H & H3)].
    + apply and_then_inv in H as [[H _]|(s1 & H & H2)].
      * apply run_scripts_step_inv in H as (_ & H & _). by rewrite (H Hk).
      * apply run_scripts_step_inv in H as (_ & H & _). apply install_step_inv in H2 as [H2 _].
        rewrite (images_outcome_env Hk _ _ _ _ _ H2). by rewrite (H Hk).
    + apply and_then_inv in H as [[_ ?]|(s1 & H & H2)]; [done|].
      apply run_scripts_step_inv in H as (_ & H & _), H3 as (_ & H3 & _).
      apply install_step_inv in H2 as [H2 _].
      rewrite (H3 Hk), (images_outcome_env Hk _ _ _ _ _ H2). by rewrite (H Hk).
  - right. apply and_then_inv in H as [[_ ?]|(s2 & H & H3)]; [done|].
    apply and_then_inv in H as [[_ ?]|(s1 & H & H2)]; [done|].
    apply run_scripts_step_inv in H as (R1 & K1 & E1), H3 as (R3 & K3 & E3).
    apply install_step_inv in H2 as [H2 E2]. destruct s1 as [sw1 m1], s2 as [sw2 m2], s3 as [sw3 m3].
    cbn [fst snd] in *. exists sw3, m3.
    rewrite E1 in H2. cbn in H2. rewrite Hd in H2. split_and!.
    + exists files, scr, (scripts sw1), m1, m2. split_and!; [done|by apply R1| |].
      * destruct H2 as [[_ H2]|[? _]]; [exact H2|done].
      * rewrite E2 in R3. by apply R3.
    + intros Hk. by rewrite (K3 Hk), (images_outcome_env Hk _ _ _ _ _ H2), (K1 Hk).
    + rewrite E3, E2, E1. done.
    + rewrite E3, E2, E1. done.
    + done.
Qed.

(** ** The bootloader's environment *)

Definition boot_pair (e : dict_entry) : option (string * string) :=
  pair (entry_key e) <$> head (entry_list e).

Definition boot_pairs (d : dict) : list (string * string) := omap boot_pair d.

(** The line fits in the buffer of [prepare_var_script], newline included. *)
Definition line_fits (kv : string * string) : bool :=
  (String.length (script_line kv) <? MAX_BOOT_SCRIPT_LINE_LENGTH - 1)%nat.

Lemma var_line_fits kv : line_fits kv = true -> var_line kv.1 kv.2 = script_line kv +:+ String nl "".
Proof.
  unfold line_fits, var_line, script_line. intros H%Nat.ltb_lt. rewrite str_take_all.
  - by rewrite !str_app_assoc.
  - rewrite !str_app_length in *. cbn [String.length] in *. lia.
Qed.

Lemma boot_pairs_cons e d :
  boot_pairs (e :: d) = match boot_pair e with Some kv => kv :: boot_pairs d | None => boot_pairs d end.
Proof. done. Qed.

Lemma var_script_text short n out d ret text :
  Forall (fun kv => line_fits kv = true) (boot_pairs d) ->
  var_script_lines short n out d = (ret, text) -> ret = 0 ->
  text = out +:+ unlines (script_line <$> boot_pairs d).
Proof.
  revert n out. induction d as [|e d IH]; intros n out.
  - intros _ [= <- <-] _. cbn. by rewrite str_app_nil_r.
  - rewrite boot_pairs_cons. cbn [var_script_lines dict_entry_get_value]. unfold boot_pair.
    destruct (head (entry_list e)) as [v|]; cbn [fmap option_fmap option_map]; [|apply IH].
    intros [H1 H2]%Forall_cons. destruct (short n); [by intros [= <- <-]|].
    intros Ht H0. rewrite (IH _ _ H2 Ht H0). rewrite (var_line_fits _ H1 : var_line (entry_key e) v = _).
    cbn [fmap list_fmap]. change (unlines (?x :: ?l)) with (x +:+ String nl (unlines l)).
    by rewrite !str_app_assoc, str_app_cons, str_app_nil_l.
Qed.

Lemma assoc_get_cons k v l m :
  assoc_get ((k, v) :: l) m = if decide (m = k) then Some v else assoc_get l m.
Proof.
  unfold assoc_get. cbn [list_to_map foldr]. case_decide; [subst; by rewrite lookup_insert_eq|].
  by rewrite lookup_insert_ne.
Qed.

Lemma boot_pairs_keys d k : k ∈ (boot_pairs d).*1 -> k ∈ entry_key <$> d.
Proof.
  induction d as [|e d IH]; [done|]. rewrite boot_pairs_cons. unfold boot_pair. cbn [fmap list_fmap].
  destruct (head (entry_list e)); cbn [fmap option_fmap option_map list_fmap fst]; rewrite ?elem_of_cons; tauto.
Qed.

Lemma boot_pairs_NoDup d : dict_ok d -> NoDup (boot_pairs d).*1.
Proof.
  unfold dict_ok. induction d as [|e d IH]; [by constructor|]. cbn [fmap list_fmap].
  intros [H1 H2]%NoDup_cons. rewrite boot_pairs_cons. unfold boot_pair.
  destruct (head (entry_list e)); cbn [fmap option_fmap option_map list_fmap fst]; [|by apply IH].
  apply NoDup_cons. split; [|by apply IH]. contradict H1. by apply boot_pairs_keys.
Qed.

Lemma boot_pairs_get d k : dict_ok d -> assoc_get (boot_pairs d) k = dict_get_value d k.
Proof.
  unfold dict_ok. rewrite dict_value_abs. induction d as [|e d IH]; [done|]. cbn [fmap list_fmap].
  intros [H1 H2]%NoDup_cons. rewrite boot_pairs_cons, dict_abs_cons. unfold boot_pair.
  destruct (head (entry_list e)) as [v|] eqn:Hv; cbn [fmap option_fmap option_map].
  - rewrite assoc_get_cons. case_decide; [subst; by rewrite lookup_insert_eq|].
    rewrite lookup_insert_ne by done. by apply IH.
  - rewrite IH by done. destruct (decide (k = entry_key e)) as [->|Hn].
    + rewrite lookup_insert_eq, (dict_abs_None d) by done. by cbn; rewrite Hv.
    + by rewrite lookup_insert_ne.
Qed.

Lemma update_bootloader_env_get `{!EnvStore bl} `{!EnvScript bl} script m m' :
  env_ok (m_env m) -> dict_ok (m_bootdict m) ->
  Forall (fun kv => line_fits kv = true /\ script_var_ok kv = true) (boot_pairs (m_bootdict m)) ->
  update_bootloader_env script m = (0, m') ->
  env_ok (m_env m') /\
  forall k, env_get bl k (m_env m') =
    match dict_get_value (m_bootdict m) k with Some v => Some v | None => env_get bl k (m_env m) end.
Proof.
  intros He Hd Hf. unfold update_bootloader_env, prepare_var_script. apply Forall_and in Hf as [Hf Hs].
  destruct (can_write os script); [|done].
  destruct (var_script_lines (wr_short os) 0 "" (m_bootdict m)) as [r text] eqn:Ht.
  destruct (Z.eqb_spec r 0) as [->|]; cbn [negb]; [|by intros [= ? _]].
  apply var_script_text in Ht as ->; [|done..]. rewrite str_app_nil_l. cbn [m_env set_files].
  destruct (apply_list bl _ _) as [r e] eqn:Ha. intros [= -> <-]. cbn [m_env set_env].
  apply apply_list_get in Ha as [Hok Hget]; [|done|by apply boot_pairs_NoDup|done].
  split; [done|]. intros k. by rewrite Hget, boot_pairs_get.
Qed.

Lemma vars_step_keeps script s ret s' :
  vars_step script s = (ret, s') ->
  s'.1 = s.1 /\ m_env s'.2 = m_env s.2 /\ m_bootdict s'.2 = m_bootdict s.2.
Proof.
  unfold vars_step, update_swupdate_vars. destruct (cfg_vars s.1); [by intros [= <- <-]|].
  destruct (prepare_var_script _ _ _) as [r text]. destruct text; destruct (negb (r =? 0));
    try (by intros [= <- <-]); destruct (vars_apply_list _ _ _); by intros [= <- <-].
Qed.

Lemma swversions_step_keeps s ret s' :
  swversions_step s = (ret, s') ->
  s'.1 = s.1 /\ m_env s'.2 = m_env s.2 /\
  (ret = 0 -> output_swversions s.1 <> "" ->
   m_files s'.2 !! output_swversions s.1 =
   Some (String.list_ascii_of_string (swversions_text (installed_sw_list s.1)))).
Proof.
  unfold swversions_step. destruct (Z.eqb_spec (strlen (output_swversions s.1)) 0) as [H%strlen_zero|H].
  - by intros [= <- <-].
  - unfold generate_swversions. destruct (can_write os _); intros [= <- <-]; [|done].
    split_and!; [done..|]. intros _ _. apply lookup_insert_eq.
Qed.

Lemma bootenv_step_keeps script s ret s' :
  bootenv_step script s = (ret, s') ->
  s'.1 = s.1 /\
  (m_env s'.2 = m_env s.2 \/
   exists text, prepare_var_script (can_write os script) (wr_short os) (m_bootdict s.2) = (0, text) /\
     m_env s'.2 = (apply_list bl text (m_env s.2)).2).
Proof.
  unfold bootenv_step. destruct (m_bootdict s.2) as [|x d] eqn:Hd; [intros [= <- <-]; auto|].
  unfold update_bootloader_env. rewrite Hd.
  destruct (prepare_var_script _ _ _) as [r text].
  destruct (Z.eqb_spec r 0) as [->|]; cbn [negb].
  - destruct text as [t|].
    + cbn [m_env set_files]. destruct (apply_list bl (Some t) (m_env s.2)) as [r e] eqn:Ha.
      intros [= <- <-]. split; [done|]. right. exists (Some t). by rewrite Ha.
    + destruct (apply_list bl None (m_env s.2)) as [r e] eqn:Ha.
      intros [= <- <-]. split; [done|]. right. exists None. by rewrite Ha.
  - destruct text; intros [= <- <-]; auto.
Qed.

(** What is left once everything is installed concerns the files, the variables and the environment. *)
Lemma last_steps_world s ret s' : last_steps s = (ret, s') -> m_world s'.2 = m_world s.2.
Proof.
  assert (forall script s ret s', vars_step script s = (ret, s') -> m_world s'.2 = m_world s.2) as H1.
  { intros script t r t'. unfold vars_step, update_swupdate_vars. intros ?; repeat case_match; by simplify_eq/=. }
  assert (forall script s ret s', bootenv_step script s = (ret, s') -> m_world s'.2 = m_world s.2) as H2.
  { intros script t r t'. unfold bootenv_step, update_bootloader_env. intros ?; repeat case_match; by simplify_eq/=. }
  assert (forall s ret s', swversions_step s = (ret, s') -> m_world s'.2 = m_world s.2) as H3.
  { intros t r t'. unfold swversions_step. intros ?; repeat case_match; by simplify_eq/=. }
  intros H. apply and_then_inv in H as [[H _]|(s2 & H & H4%H3)].
  - apply and_then_inv in H as [[H%H1 _]|(s1 & H%H1 & H4%H2)]; congruence.
  - apply and_then_inv in H as [[H%H1 _]|(s1 & H%H1 & H5%H2)]; congruence.
Qed.

Lemma install_images_env_change (sw sw' : swupdate_cfg) (m m' : mach) (ret : Z) :
  keeps_env -> install_images sw m = Some (ret, (sw', m')) ->
  m_env m' = m_env m \/
  dry_run (parms sw) = false /\
  exists sw3 m3 text, all_installed sw m sw3 m3 /\ m_env m3 = m_env m /\
    prepare_var_script (can_write os (TMPDIR +:+ BOOT_SCRIPT_SUFFIX)) (wr_short os) (m_bootdict m3) = (0, text) /\
    m_env m' = (apply_list bl text (m_env m)).2.
Proof.
  intros Hk Hi. unfold install_images in Hi.
  destruct (extract_scripts (scripts sw) (m_files m)) as [[[r scr] files]|] eqn:He; [|done].
  cbn in Hi. apply (inj Some) in Hi. destruct (Z.eqb_spec r 0) as [->|]; cbn [negb] in Hi.
  2: { injection Hi as _ _ <-. by left. }
  destruct (dry_run (parms sw)) eqn:Hd.
  - left. unfold install_body in Hi. cbn zeta in Hi.
    change (dry_run (parms (set_scripts scr sw))) with (dry_run (parms sw)) in Hi. rewrite Hd in Hi.
    apply install_step_inv in Hi as [Hi _]. by apply (images_outcome_env Hk) in Hi.
  - apply (install_body_cases _ _ _ _ _ _ Hd He) in Hi as [[_ Hi]|(sw3 & m3 & Hall & H3 & _ & _ & Hl)];
      [left; by specialize (Hi Hk)|]. specialize (H3 Hk).
    apply and_then_inv in Hl as [[Hl _]|(s5 & Hl & Hw)];
      [|apply swversions_step_keeps in Hw as (_ & Hw & _); cbn [snd] in Hw; rewrite Hw in *].
    all: apply and_then_inv in Hl as [[Hl _]|(s4 & Hl & Hb)];
      [left; apply vars_step_keeps in Hl as (_ & Hl & _); cbn [snd] in Hl; congruence|].
    all: apply vars_step_keeps in Hl as (_ & Hl & Hbd); cbn [snd] in Hl, Hbd.
    all: apply bootenv_step_keeps in Hb as (_ & [Hb|(text & Ht & Hb)]); cbn [snd] in Hb; [left; congruence|].
    all: right; split; [done|]; exists sw3, m3, text; rewrite Hbd in Ht; split_and!; [done|done|done|congruence].
Qed.

(** A field of the description that is neither the scripts, the images nor the list of
    what was installed stays as it is. *)
Lemma install_images_field {B} (f : swupdate_cfg -> B) (sw sw' : swupdate_cfg) (m m' : mach) (ret : Z) :
  (forall l c, f (set_scripts l c) = f c) -> (forall l c, f (set_images l c) = f c) ->
  (forall l c, f (set_installed l c) = f c) ->
  install_images sw m = Some (ret, (sw', m')) -> f sw' = f sw.
Proof.
  intros Hs Hi Hl Hq.
  assert (forall fn s r s', run_scripts_step fn s = (r, s') -> f s'.1 = f s.1) as H1.
  { intros fn s r s' (_ & _ & ->)%run_scripts_step_inv. apply Hs. }
  assert (forall s r s', install_step s = (r, s') -> f s'.1 = f s.1) as H2.
  { intros s r s' [_ ->]%install_step_inv. by rewrite Hl, Hi. }
  unfold install_images in Hq.
  destruct (extract_scripts (scripts sw) (m_files m)) as [[[r scr] files]|]; [|done].
  cbn in Hq. apply (inj Some) in Hq. rewrite <- (Hs scr sw).
  destruct (negb (r =? 0)); [by injection Hq as _ <- _|].
  unfold install_body in Hq. cbn zeta in Hq. destruct (dry_run _); [by apply H2 in Hq|].
  apply and_then_inv in Hq as [[Hq _]|(s5 & Hq & E6)];
    [|apply swversions_step_keeps in E6 as [E6 _]; cbn [fst] in E6; rewrite E6].
  all: apply and_then_inv in Hq as [[Hq _]|(s4 & Hq & E5)];
    [|apply bootenv_step_keeps in E5 as [E5 _]; cbn [fst] in E5; rewrite E5].
  all: apply and_then_inv in Hq as [[Hq _]|(s3 & Hq & E4)];
    [|apply vars_step_keeps in E4 as [E4 _]; cbn [fst] in E4; rewrite E4].
  all: apply and_then_inv in Hq as [[Hq _]|(s2 & Hq & E3)]; [|apply H1 in E3; cbn [fst] in E3; rewrite E3].
  all: apply and_then_inv in Hq as [[Hq _]|(s1 & Hq & E2)]; [|apply H2 in E2; cbn [fst] in E2; rewrite E2].
  all: apply H1 in Hq; exact Hq.
Qed.

(** What became of the environment after a success: the list that was written for the
    dictionary was applied to it without error, unless the dictionary is empty. *)
Lemma install_images_env_applied (sw sw' : swupdate_cfg) (m m' : mach) :
  keeps_env -> install_images sw m = Some (0, (sw', m')) -> dry_run (parms sw) = false ->
  exists sw3 m3, all_installed sw m sw3 m3 /\
    (m_bootdict m3 = [] /\ m_env m' = m_env m \/
     exists text, prepare_var_script (can_write os (TMPDIR +:+ BOOT_SCRIPT_SUFFIX)) (wr_short os)
         (m_bootdict m3) = (0, text) /\ apply_list bl text (m_env m) = (0, m_env m')).
Proof.
  intros Hk Hi Hd. unfold install_images in Hi.
  destruct (extract_scripts (scripts sw) (m_files m)) as [[[r scr] files]|] eqn:He; [|done].
  cbn in Hi. apply (inj Some) in Hi. destruct (Z.eqb_spec r 0) as [->|]; cbn [negb] in Hi;
    [|by injection Hi].
  apply (install_body_cases _ _ _ _ _ _ Hd He) in Hi as [[? _]|(sw3 & m3 & Hall & H3 & _ & _ & Hl)]; [done|].
  specialize (H3 Hk). apply and_then_inv in Hl as [[_ ?]|(s5 & Hl & Hw)]; [done|].
  apply and_then_inv in Hl as [[_ ?]|(s4 & Hl & Hb)]; [done|].
  apply swversions_step_keeps in Hw as (_ & Hw & _). apply vars_step_keeps in Hl as (_ & Hl & Hbd).
  cbn [fst snd] in *. exists sw3, m3. split; [done|]. unfold bootenv_step in Hb. rewrite Hbd in Hb.
  destruct (m_bootdict m3) as [|x d] eqn:Ed; [left; injection Hb as <-; split; congruence|right].
  unfold update_bootloader_env in Hb. rewrite Hbd in Hb.
  destruct (prepare_var_script _ _ _) as [r text]. exists text.
  destruct (Z.eqb_spec r 0) as [->|]; cbn [negb] in Hb; [|by injection Hb]. split; [done|].
  assert (m_env (match text with
    | Some t => set_files (<[TMPDIR +:+ BOOT_SCRIPT_SUFFIX := String.list_ascii_of_string t]> (m_files s4.2)) s4.2
    | None => s4.2 end) = m_env m) as Hm by (destruct text; cbn; congruence).
  rewrite Hm in Hb. destruct (apply_list bl text (m_env m)) as [r e]. injection Hb as -> <-. cbn in Hw.
  by rewrite Hw.
Qed.

(** C2: the environment of the bootloader, which selects what the device boots, is the
    last thing an update changes. If it changed at all, it was not a dry run,
    every script was extracted, and all pre-install scripts, all images and all
    post-install scripts had run to the end without an error before; the
    change is that of the back end applying the prepared list. *)
Theorem install_images_env_last (sw sw' : swupdate_cfg) (m m' : mach) (ret : Z) :
  keeps_env -> install_images sw m = Some (ret, (sw', m')) -> m_env m' <> m_env m ->
  dry_run (parms sw) = false /\
  exists sw3 m3 text, all_installed sw m sw3 m3 /\ m_env m3 = m_env m /\
    prepare_var_script (can_write os (TMPDIR +:+ BOOT_SCRIPT_SUFFIX)) (wr_short os) (m_bootdict m3) = (0, text) /\
    m_env m' = (apply_list bl text (m_env m)).2.
Proof. intros Hk Hi Hne. by destruct (install_images_env_change _ _ _ _ _ Hk Hi). Qed.

Lemma bootenv_step_get `{!EnvStore bl} `{!EnvScript bl} script s s' :
  env_ok (m_env s.2) -> dict_ok (m_bootdict s.2) ->
  Forall (fun kv => line_fits kv = true /\ script_var_ok kv = true) (boot_pairs (m_bootdict s.2)) ->
  bootenv_step script s = (0, s') ->
  forall k, env_get bl k (m_env s'.2) =
    match dict_get_value (m_bootdict s.2) k with Some v => Some v | None => env_get bl k (m_env s.2) end.
Proof.
  intros He Hd Hf. unfold bootenv_step. destruct (m_bootdict s.2) as [|x d] eqn:Hb.
  - intros Hq k. by injection Hq as ->.
  - destruct (update_bootloader_env script s.2) as [r m'] eqn:Hu. intros [= -> <-]. rewrite <- Hb in *.
    by eapply update_bootloader_env_get.
Qed.

(** C5: when an installation that is not a dry run reports success, everything happened:
    all scripts and images ran without error, in order; the environment of the
    bootloader has the values of the update's dictionary, as the handlers left
    it, over the environment they left, provided the back end supports the
    names and values; and the file of versions lists the installed
    software. *)
Theorem install_images_complete `{!EnvStore bl} `{!EnvScript bl} (sw sw' : swupdate_cfg) (m m' : mach) :
  install_images sw m = Some (0, (sw', m')) -> dry_run (parms sw) = false ->
  exists sw3 m3, all_installed sw m sw3 m3 /\
    (env_ok (m_env m3) -> dict_ok (m_bootdict m3) ->
     Forall (fun kv => line_fits kv = true /\ script_var_ok kv = true) (boot_pairs (m_bootdict m3)) ->
     forall k, env_get bl k (m_env m') =
       match dict_get_value (m_bootdict m3) k with Some v => Some v | None => env_get bl k (m_env m3) end) /\
    (output_swversions sw <> "" ->
     m_files m' !! output_swversions sw =
     Some (String.list_ascii_of_string (swversions_text (installed_sw_list sw')))).
Proof.
  intros Hi Hd. unfold install_images in Hi.
  destruct (extract_scripts (scripts sw) (m_files m)) as [[[r scr] files]|] eqn:He; [|done].
  cbn in Hi. apply (inj Some) in Hi. destruct (Z.eqb_spec r 0) as [->|]; cbn [negb] in Hi;
    [|by injection Hi].
  apply (install_body_cases _ _ _ _ _ _ Hd He) in Hi as [[? _]|(sw3 & m3 & Hall & _ & _ & Ho & Hl)]; [done|].
  apply and_then_inv in Hl as [[_ ?]|(s5 & Hl & Hw)]; [done|].
  apply and_then_inv in Hl as [[_ ?]|(s4 & Hl & Hb)]; [done|].
  apply swversions_step_keeps in Hw as (E6 & Hwe & Hw).
  apply vars_step_keeps in Hl as (E4 & Hle & Hld). pose proof (proj1 (bootenv_step_keeps _ _ _ _ Hb)) as E5.
  cbn [fst snd] in *. exists sw3, m3. split_and!; [done| |].
  - intros H1 H2 H3. rewrite <- Hle, <- Hld in *. rewrite Hwe. by eapply bootenv_step_get.
  - rewrite E5, E4 in *. rewrite <- Ho, E6. by apply Hw.
Qed.

(** ** A dry run *)

(** A dry run leaves everything but the temporary files as it is, provided the "dummy"
    handler and the Lua functions of the images do. *)
Theorem dry_run_harmless (sw sw' : swupdate_cfg) (m m' : mach) (ret : Z) :
  dry_run (parms sw) = true ->
  (forall hnd img d m, find_handler "dummy" reg = Some hnd -> (installer hnd img d m).2 = m) ->
  (forall f img m, (lua_parser_fn f img m).2 = m) ->
  install_images sw m = Some (ret, (sw', m')) ->
  m' = set_files (m_files m') m.
Proof.
  intros Hd Hh Hlua Hi. unfold install_images in Hi.
  destruct (extract_scripts (scripts sw) (m_files m)) as [[[r scr] files]|] eqn:He; [|done].
  cbn in Hi. apply (inj Some) in Hi. destruct (Z.eqb_spec r 0) as [->|]; cbn [negb] in Hi;
    [|by injection Hi as _ _ <-].
  unfold install_body in Hi. cbn zeta in Hi.
  change (dry_run (parms (set_scripts scr sw))) with (dry_run (parms sw)) in Hi. rewrite Hd in Hi.
  apply install_step_inv in Hi as [Hi _]. cbn [fst snd] in Hi.
  change (dry_run (parms (set_scripts scr sw))) with (dry_run (parms sw)) in Hi. rewrite Hd in Hi.
  assert (forall img m, (install_single_image img true m).2 = m) as Hs.
  { intros img m0. unfold install_single_image. change (type (set_type "dummy" img)) with "dummy".
    destruct (find_handler "dummy" reg) as [hnd|] eqn:Hf; [|done].
    assert ((run_lua_pre (set_type "dummy" img) m0).2 = m0) as Hp.
    { unfold run_lua_pre. case_if; [done|]. pose proof (Hlua (lua_fcn_pre (set_type "dummy" img)) (set_type "dummy" img) m0).
      by destruct (lua_parser_fn _ _ m0) as [[? ?] ?]. }
    destruct (run_lua_pre _ m0) as [img1 m1]. cbn in Hp. subst m1.
    pose proof (Hh hnd img1 (mk_hdata None (data hnd)) m0 eq_refl) as H1.
    destruct (installer hnd img1 _ m0) as [[r' img2] m2]. cbn in H1. subst m2.
    case_if; [done|]. case_if; [done|]. apply Hlua. }
  assert (forall img m r m', image_run true img m r m' -> m' = m) as Hr.
  { intros img m0 r m1 [| |c r0 img' m2 _ _ _ Hx|]; try done. specialize (Hs (opened img c) m0).
    by rewrite Hx in Hs. }
  assert (forall l m m', images_run true l m m' -> m' = m) as Hrs.
  { induction 1 as [|img l m0 m1 m2 Hx _ IH]; [done|]. apply Hr in Hx. congruence. }
  destruct Hi as [[_ R]|(_ & l1 & img & l2 & m1 & _ & R & F)].
  - apply Hrs in R. by subst.
  - apply Hrs in R. apply Hr in F. by subst.
Qed.
End Installer.

(** ** An example: GRUB, a script and two images *)

Abbreviation sample_machine := (machine (option string) unit (list string)).

Definition log_handler (name : string) (ret : Z) (img : img_type) (d : handler_data)
    (m : sample_machine) : Z * img_type * sample_machine :=
  (ret, img, mk_machine (m_files m) (m_env m) (m_vars m) (m_bootdict m)
               (m_world m ++ [name +:+ ":" +:+ fname img])).

Definition quiet_handler (img : img_type) (d : handler_data) (m : sample_machine)
  : Z * img_type * sample_machine := (0, img, m).

Definition sample_registry :=
  mk_registry [mk_handler "raw" (log_handler "raw" 0) 0 IMAGE_HANDLER false;
               mk_handler "broken" (log_handler "broken" (-1)) 0 IMAGE_HANDLER false;
               mk_handler "shellscript" (log_handler "sh" 0) 0 SCRIPT_HANDLER false;
               mk_handler "dummy" quiet_handler 0 IMAGE_HANDLER false] 4 ULONG_MAX.

Definition sample_lua (f : string) (img : img_type) (m : sample_machine)
  : Z * img_type * sample_machine := (0, img, m).

Definition sample_io : io := mk_io (fun _ => true) (fun _ => []) (fun _ => None) true.

Definition sample_type : swupdate_type_cfg :=
  mk_type_cfg "default" "" "" "" "" "" false false false REBOOT_UNSET.

Definition sample_cfg (dry : bool) (kind : string) : swupdate_cfg :=
  mk_cfg "" "2.0" true true false "/etc/sw-versions" "" false false REBOOT_UNSET
    [mk_sw_version "rootfs" "1.0" false false] []
    [simple_img "kernel" "6.1" "raw" "uImage" false false;
     mk_img (mk_sw_version "rootfs" "2.0" true false) kind "root.img" "" "" "" "" "" "" "" "" "" 0
       SKIP_NONE true COMPRESSED_FALSE false false AES_CBC "" "" false false false [] 0 [] 0 0 []]
    [set_size 2 (set_provided (simple_img "" "" "shellscript" "pre.sh" false true))]
    [] (mk_parms dry "" "") sample_type 0 "" "" (mk_hw "" "") [].

Definition sample_state : sample_machine :=
  mk_machine {["/tmp/pre.sh" := ["a"%char; "b"%char]; "/tmp/uImage" := ["k"%char];
               "/tmp/root.img" := ["r"%char; "s"%char]]}
    (grub_block ["ustate=0"; "bootpart=2"]) tt [mk_dict_entry "bootpart" ["3"]] [].

Definition sample_install (dry : bool) (kind : string) :=
  install_images (grub true) (fun _ _ v => (0, v)) sample_lua sample_registry sample_io "/tmp/" "/tmp/scripts/"
    toy_hash_lib toy_stream toy_config None 8 (sample_cfg dry kind) sample_state.

Definition sample_end (dry : bool) (kind : string) : Z * (swupdate_cfg * sample_machine) :=
  default (1, (sample_cfg dry kind, sample_state)) (sample_install dry kind).

Lemma sample_keeps_env : keeps_env sample_lua sample_registry.
Proof.
  split; [|done]. intros t hnd img d m Hf.
  unfold find_handler in Hf. case_match; [done|]. apply list_elem_of_lookup_2 in Hf.
  change (supported_types sample_registry) with
    [mk_handler "raw" (log_handler "raw" 0) 0 IMAGE_HANDLER false;
     mk_handler "broken" (log_handler "broken" (-1)) 0 IMAGE_HANDLER false;
     mk_handler "shellscript" (log_handler "sh" 0) 0 SCRIPT_HANDLER false;
     mk_handler "dummy" quiet_handler 0 IMAGE_HANDLER false] in Hf.
  repeat (apply elem_of_cons in Hf as [->|Hf]; [done|]). by apply elem_of_nil in Hf.
Qed.

Lemma install_images_env_last_witness :
  m_env (sample_end false "raw").2.2 <> m_env sample_state /\
  (sample_install true "raw" = Some (sample_end true "raw")) /\ dry_run (parms (sample_cfg false "raw")) = false.
Proof.
  assert (m_env (sample_end false "raw").2.2 <> m_env sample_state) as Hne.
  { intros H. apply (f_equal (grub_do_env_get "bootpart")) in H. vm_compute in H. discriminate. }
  split; [exact Hne|]. split; [vm_compute; reflexivity|].
  refine (proj1 (install_images_env_last (grub true) (fun _ _ v => (0, v)) sample_lua sample_registry sample_io
    "/tmp/" "/tmp/scripts/" toy_hash_lib toy_stream toy_config None 8 (sample_cfg false "raw")
    (sample_end false "raw").2.1 sample_state (sample_end false "raw").2.2 0 sample_keeps_env _ Hne)).
  vm_compute. reflexivity.
Defined.

Lemma install_images_complete_witness :
  sample_install false "raw" = Some (0, ((sample_end false "raw").2.1, (sample_end false "raw").2.2)) /\
  m_world (sample_end false "raw").2.2 = ["sh:pre.sh"; "raw:uImage"; "raw:root.img"; "sh:pre.sh"] /\
  m_files (sample_end false "raw").2.2 !! "/etc/sw-versions" =
    Some (String.list_ascii_of_string (swversions_text (installed_sw_list (sample_end false "raw").2.1))).
Proof.
  assert (sample_install false "raw" = Some (0, ((sample_end false "raw").2.1, (sample_end false "raw").2.2))) as Hi.
  { vm_compute. reflexivity. }
  split; [exact Hi|]. split; [vm_compute; reflexivity|].
  destruct (install_images_complete (grub true) (fun _ _ v => (0, v)) sample_lua sample_registry sample_io
    "/tmp/" "/tmp/scripts/" toy_hash_lib toy_stream toy_config None 8 (sample_cfg false "raw")
    (sample_end false "raw").2.1 sample_state (sample_end false "raw").2.2 Hi eq_refl) as (sw3 & m3 & _ & _ & Hf).
  apply Hf. discriminate.
Defined.

Lemma dry_run_harmless_witness :
  (sample_end true "raw").2.2 = set_files (m_files (sample_end true "raw").2.2) sample_state.
Proof.
  refine (dry_run_harmless (grub true) (fun _ _ v => (0, v)) sample_lua sample_registry sample_io
    "/tmp/" "/tmp/scripts/" toy_hash_lib toy_stream toy_config None 8 (sample_cfg true "raw")
    (sample_end true "raw").2.1 sample_state (sample_end true "raw").2.2 0 eq_refl _ _ _).
  - intros hnd img d m Hf. vm_compute in Hf. injection Hf as <-. reflexivity.
  - reflexivity.
  - vm_compute. reflexivity.
Defined.

(** ** The list of variables on a device without a bootloader *)

Lemma run_unset_get (l : list string) (M : gmap string (list string)) (k : string) :
  k ∉ l -> fold_left run_cmd (CmdUnset <$> l) M !! k = M !! k.
Proof.
  revert M. induction l as [|x l IH]; intros M Hk; [done|].
  rewrite not_elem_of_cons in Hk. destruct Hk as [Hn Hk]. cbn [fmap list_fmap fold_left].
  rewrite IH by done. cbn [run_cmd]. by rewrite lookup_delete_ne.
Qed.

(** The list of "name=value" lines that the installer prepares is not in the format
    that the back end without a bootloader reads: it takes a line without blanks
    as a name to remove, so that the call succeeds and sets nothing. *)
Theorem none_apply_list_ignored (l : list (string * string)) (e : dict) :
  dict_ok e -> Forall (fun kv => is_token BLANKS (script_line kv) = true) l ->
  let '(ret, e') := apply_list None_.none (Some (unlines (script_line <$> l))) e in
  ret = 0 /\ forall k, str_mem "=" k = false -> env_get None_.none k e' = env_get None_.none k e.
Proof.
  intros He Hl. assert (forallb cmd_ok (CmdUnset <$> (script_line <$> l)) = true) as Hc.
  { induction Hl as [|kv l Hkv _ IH]; [done|]. cbn [fmap list_fmap forallb cmd_ok].
    by rewrite Hkv, IH. }
  pose proof (parse_script_run e (CmdUnset <$> (script_line <$> l)) He Hc) as H. rewrite <- list_fmap_compose in H.
  replace ((print_cmd ∘ CmdUnset) <$> (script_line <$> l)) with (script_line <$> l) in H
    by (rewrite <- list_fmap_compose; done).
  cbn [apply_list None_.none None_.none_do_apply_list env_get]. unfold None_.none_do_apply_list, None_.none_do_env_get.
  destruct (dict_parse_script mem_ok e _) as [ret e']. destruct H as (-> & Hok & Habs).
  split; [done|]. intros k Hk. rewrite !dict_value_abs, Habs, run_unset_get; [done|].
  intros (kv & -> & _)%list_elem_of_fmap. unfold script_line in Hk.
  rewrite !str_mem_app in Hk. cbn in Hk. by rewrite orb_true_r in Hk.
Qed.

Lemma none_apply_list_ignored_witness :
  let '(ret, e') := apply_list None_.none (Some (unlines (script_line <$> [("bootpart", "3")])))
                      [mk_dict_entry "bootpart" ["2"]] in
  ret = 0 /\ env_get None_.none "bootpart" e' = Some "2".
Proof.
  assert (dict_ok [mk_dict_entry "bootpart" ["2"]]) as Hd.
  { apply (bool_decide_unpack _). vm_compute. reflexivity. }
  pose proof (none_apply_list_ignored [("bootpart", "3")] [mk_dict_entry "bootpart" ["2"]] Hd
    ltac:(repeat constructor)) as H.
  destruct (apply_list None_.none _ _) as [ret e']. destruct H as [H1 H2].
  split; [exact H1|]. exact (H2 "bootpart" eq_refl).
Defined.

(** ** The file of versions *)

Definition is_word (s : string) : bool :=
  negb (String.eqb s "") && str_forall (fun c => negb (isspace c)) s.

Definition version_ok (v : sw_version) : bool :=
  is_word (sw_name v) && is_word (sw_vers v) &&
  (strlen (sw_name v) <? SWUPDATE_GENERAL_STRING_SIZE) &&
  (strlen (sw_vers v) <? SWUPDATE_GENERAL_STRING_SIZE).

(** The name and the version are stored, the flags are not. *)
Definition plain_version (v : sw_version) : sw_version :=
  mk_sw_version (sw_name v) (sw_vers v) false false.

Lemma countargc_word cur w c rest :
  str_forall (fun c => negb (isspace c)) w = true -> isspace c = true -> cur +:+ w <> "" ->
  countargc_go cur (w +:+ String c rest) = (cur +:+ w) :: countargc_go "" rest.
Proof.
  revert cur. induction w as [|d w IH]; intros cur Hw Hc Hne.
  - rewrite str_app_nil_r in *. cbn [countargc_go]. rewrite str_app_nil_l. cbn [countargc_go]. rewrite Hc.
    by destruct (String.eqb_spec cur "").
  - cbn [str_forall] in Hw. apply andb_true_iff in Hw as [Hd Hw]. apply negb_true_iff in Hd.
    rewrite str_app_cons. cbn [countargc_go]. rewrite Hd.
    assert ((cur +:+ String d "") +:+ w = cur +:+ String d w) as Ew.
    { by rewrite str_app_assoc, str_app_cons, str_app_nil_l. }
    rewrite IH; rewrite ?Ew; done.
Qed.

Lemma splitargs_word w c rest :
  is_word w = true -> isspace c = true -> splitargs (w +:+ String c rest) = w :: splitargs rest.
Proof.
  intros [H1 H2]%andb_true_iff Hc. unfold splitargs. rewrite countargc_word; try done.
  rewrite str_app_nil_l. by intros ->.
Qed.

Lemma splitargs_versions l :
  Forall (fun v => version_ok v = true) l ->
  splitargs (swversions_text l) = concat ((fun v => [sw_name v; sw_vers v]) <$> l).
Proof.
  induction 1 as [|v l Hv _ IH]; [done|].
  apply andb_true_iff in Hv as [[[H1 H2]%andb_true_iff _]%andb_true_iff _].
  unfold swversions_text. cbn [fmap list_fmap concat].
  change (unlines (?x :: ?r)) with (x +:+ String nl (unlines r)).
  unfold swversion_line, TABS. rewrite !str_app_assoc, str_app_cons.
  rewrite splitargs_word by done. rewrite str_app_cons.
  change (splitargs (String "009" ?r)) with (splitargs r). rewrite str_app_nil_l.
  rewrite splitargs_word by done. by rewrite <- IH.
Qed.

Lemma read_words_versions l acc :
  Forall (fun v => version_ok v = true) l ->
  read_sw_version_words (concat ((fun v => [sw_name v; sw_vers v]) <$> l)) acc =
  rev (plain_version <$> l) ++ acc.
Proof.
  intros H. revert acc. induction H as [|v l Hv _ IH]; intros acc; [done|].
  apply andb_true_iff in Hv as [[_ H3]%andb_true_iff H4]. apply Z.ltb_lt in H3, H4.
  cbn [fmap list_fmap concat app read_sw_version_words rev].
  rewrite IH, !strlcpy_fits by done. by rewrite <- app_assoc.
Qed.

(** The file of versions that an update writes is read back, at the next start, as the
    same components with the same versions (the list is reversed, and the
    flags are not stored), for names and versions that are single words. *)
Theorem swversions_roundtrip (l : list sw_version) :
  Forall (fun v => version_ok v = true) l ->
  read_sw_version_file (generate_swversions true l).2 [] = (0, rev (plain_version <$> l)).
Proof.
  intros H. cbn. by rewrite splitargs_versions, read_words_versions, app_nil_r.
Qed.

Lemma swversions_roundtrip_witness :
  read_sw_version_file
    (generate_swversions true [mk_sw_version "rootfs" "2.0" true false; mk_sw_version "kernel" "6.1" false false]).2 [] =
  (0, [mk_sw_version "kernel" "6.1" false false; mk_sw_version "rootfs" "2.0" false false]).
Proof.
  refine (swversions_roundtrip [mk_sw_version "rootfs" "2.0" true false; mk_sw_version "kernel" "6.1" false false] _).
  repeat constructor.
Defined.

(** An image without a version that replaces an installed component leaves an empty
    version in the list, and the file then no longer reads back: the next
    name is taken for the version and the components after it are lost. *)
Theorem swversions_empty_version :
  let installed := [mk_sw_version "app" "1.0" false false; mk_sw_version "rootfs" "2.0" false false] in
  let img := simple_img "app" "" "raw" "app.img" false false in
  let after := (update_installed_image_version true installed img).2 in
  read_sw_version_file (generate_swversions true after).2 [] =
  (0, [mk_sw_version "app" "rootfs" false false]).
Proof. vm_compute. reflexivity. Qed.

(** The list of installed versions is updated before the result of the handler is
    looked at: after an installation that failed, and after a dry run, the
    image counts as installed, and the next update skips it. *)
Theorem failed_install_recorded :
  (forall img, images (sample_cfg false "broken") !! 1%nat = Some img ->
     image_skip (installed_sw_list (sample_cfg false "broken")) img = SKIP_NONE /\
     (sample_end false "broken").1 = -1 /\
     image_skip (installed_sw_list (sample_end false "broken").2.1) img = SKIP_SAME) /\
  (forall img, images (sample_cfg true "raw") !! 1%nat = Some img ->
     (sample_end true "raw").1 = 0 /\
     m_world (sample_end true "raw").2.2 = [] /\
     image_skip (installed_sw_list (sample_end true "raw").2.1) img = SKIP_SAME).
Proof. split; intros img [= <-]; vm_compute; done. Qed.

(** ** Cleaning up *)

(** The names of all temporary files of an update. *)
Definition image_files (TMPDIR : string) (img : img_type) : list string :=
  if String.eqb (fname img) "" then [] else [TMPDIR +:+ fname img].

Definition script_files (TMPDIR tmpdir_scripts : string) (img : img_type) : list string :=
  if String.eqb (fname img) "" then [] else [TMPDIR +:+ fname img; tmpdir_scripts +:+ fname img].

Definition update_files (TMPDIR tmpdir_scripts : string) (signed : bool) (sw : swupdate_cfg) : list string :=
  concat (image_files TMPDIR <$> images sw) ++
  concat (script_files TMPDIR tmpdir_scripts <$> scripts sw) ++
  [TMPDIR +:+ BOOT_SCRIPT_SUFFIX; TMPDIR +:+ SW_DESCRIPTION_FILENAME] ++
  (if signed then [TMPDIR +:+ SW_DESCRIPTION_FILENAME +:+ ".sig"] else []).

Lemma foldl_remove {A} (names : A -> list string) (f : gmap string bytes -> A -> gmap string bytes) l files k :
  (forall x files k, f files x !! k = if decide (k ∈ names x) then None else files !! k) ->
  foldl f files l !! k = if decide (k ∈ concat (names <$> l)) then None else files !! k.
Proof.
  intros Hf. revert files. induction l as [|x l IH]; intros files; cbn [foldl fmap list_fmap concat].
  - by rewrite decide_False by apply not_elem_of_nil.
  - rewrite IH, Hf. repeat case_decide; rewrite ?elem_of_app in *; tauto.
Qed.

Lemma delete_lookup (f k : string) (files : gmap string bytes) :
  delete f files !! k = if decide (k = f) then None else files !! k.
Proof. case_decide; [subst; apply lookup_delete_eq|by apply lookup_delete_ne]. Qed.

(** After an update, whatever its result, the lists of images, scripts and hardware revisions and
    the dictionaries are empty, exactly the temporary files of the update are
    gone, and the environment, the variables and the devices are not
    touched. *)
Theorem cleanup_files_spec {E V W : Type} (TMPDIR tmpdir_scripts : string) (signed : bool)
    (sw : swupdate_cfg) (m : machine E V W) :
  let '(sw', m') := cleanup_files TMPDIR tmpdir_scripts false signed sw m in
  images sw' = [] /\ scripts sw' = [] /\ cfg_vars sw' = [] /\ hardware sw' = [] /\ m_bootdict m' = [] /\
  installed_sw_list sw' = installed_sw_list sw /\
  m_env m' = m_env m /\ m_vars m' = m_vars m /\ m_world m' = m_world m /\
  forall f, m_files m' !! f =
    if decide (f ∈ update_files TMPDIR tmpdir_scripts signed sw) then None else m_files m !! f.
Proof.
  assert (forall d, dict_drop_db d = []) as Hd by (intros d; by induction d).
  cbn. rewrite !Hd. split_and!; try done. intros f.
  set (l1 := foldl _ (m_files m) (images sw)). set (l2 := foldl _ l1 (scripts sw)).
  assert (l2 !! f = if decide (f ∈ concat (image_files TMPDIR <$> images sw) ++
      concat (script_files TMPDIR tmpdir_scripts <$> scripts sw)) then None else m_files m !! f) as H2.
  { unfold l2, l1. rewrite (foldl_remove (script_files TMPDIR tmpdir_scripts)), (foldl_remove (image_files TMPDIR)).
    - repeat case_decide; rewrite ?elem_of_app in *; tauto.
    - intros img fs k. unfold image_files. case_if; [by rewrite decide_False by apply not_elem_of_nil|].
      cbn [remove_sw_file]. rewrite delete_lookup. repeat case_decide; rewrite ?list_elem_of_singleton in *; tauto.
    - intros img fs k. unfold script_files, cleaup_img_entry.
      case_if; [by rewrite decide_False by apply not_elem_of_nil|]. cbn [remove_sw_file].
      rewrite !delete_lookup. repeat case_decide; rewrite ?elem_of_cons, ?elem_of_nil in *; tauto. }
  unfold update_files. destruct signed; rewrite !delete_lookup, H2;
    repeat case_decide; rewrite ?elem_of_app, ?elem_of_cons, ?elem_of_nil in *; tauto.
Qed.
