(* ===== verification/Handlers.v ===== *)
(** * Handlers: [handlers/raw_handler.c], [handlers/dummy_handler.c], [handlers/boot_handler.c],
    [handlers/shell_scripthandler.c], [handlers/readback_handler.c]

    The handlers that need nothing but files and devices, as functions on the [machine] of the
    [Installer]: an artifact is copied to a device or to a file, a file of variables is
    merged into the dictionary of the bootloader, a script is run, a device is verified. *)
From stdpp Require Import gmap.
From S2P Require Import Prelude CString Util Versions Dict Handler Bootloader Grub Crypto Keys Cpio.
From S2P Require Import Copyfile Image Installer.

#[export] Instance script_fn_eq_dec : EqDecision script_fn.
Proof. solve_decision. Defined.

(** ** Devices and file systems *)

(** The contents of devices by their path, the write protection of block devices by the name in
    /sys/class/block, and the file systems on devices. *)
Record storage := mk_storage {
  devices : gmap string bytes;
  force_ro : gmap string ascii;
  filesystems : gmap string (gmap string bytes);
}.

Definition set_devices (d : gmap string bytes) (s : storage) : storage :=
  mk_storage d (force_ro s) (filesystems s).
Definition set_force_ro (r : gmap string ascii) (s : storage) : storage :=
  mk_storage (devices s) r (filesystems s).
Definition set_filesystems (f : gmap string (gmap string bytes)) (s : storage) : storage :=
  mk_storage (devices s) (force_ro s) f.

(** The system calls: [stat] tells whether a path is a block device, [realpath] gives the path or
    [errno]; [open], [read] and [write] of the protection flag work or fail; seeking on
    a device works; a file system can be mounted, under a directory of its own;
    /dev/null can be opened; the size of a device is known. *)
Record dev_io := mk_dev_io {
  stat_blk : string -> option bool;
  realpath : string -> Z + string;
  ro_open_ok : string -> bool;
  ro_read_ok : string -> bool;
  ro_write_ok : string -> bool;
  dev_lseek_ok : string -> bool;
  dev_plan : string -> list wr_event;
  mount_ok : string -> string -> bool;
  fs_statvfs : string -> option (Z * Z);
  fsync_ok : string -> bool;
  rename_ok : string -> bool;
  null_ok : bool;
  dev_size : string -> option Z;
}.

(** Bytes written at an offset; a hole reads as zeroes. *)
Definition dev_write (old : bytes) (seek : nat) (b : bytes) : bytes :=
  match b with
  | [] => old
  | _ => resize seek NUL old ++ b ++ drop (seek + length b) old
  end.

Definition set_checksum (c : Z) (i : img_type) : img_type :=
  mk_img (id i) (type i) (fname i) (volname i) (device i) (path i) (mtdname i) (type_data i)
    (extract_file i) (filesystem i) (lua_fcn_pre i) (lua_fcn_post i) (seek i) (skip i)
    (provided i) (compressed i) (preserve_attributes i) (is_encrypted i) (cipher i)
    (ivt_ascii i) (aes_ascii i) (install_directly i) (is_script i) (is_partitioner i)
    (properties i) (partsize i) (img_fdin i) (img_size i) c (sha256 i).

Section Handlers.
Context {E V : Type}.
#[local] Abbreviation mach := (machine E V storage).
Variable os : io.
Variable dio : dev_io.
(** Libraries, keys and fuel of [copyfile]. *)
Context {C D X : Type} (hl : hash_lib C) (dl : decrypt_lib D).
Variable zcfg : config (X := X).
Variable keys : option decryption_key.
Variable fuel : nat.
Variables TMPDIR tmpdir_scripts : string.
Variable run_system_cmd : string -> mach -> Z * mach.

Definition set_world (w : storage) (m : mach) : mach :=
  mk_machine (m_files m) (m_env m) (m_vars m) (m_bootdict m) w.
Definition set_bootdict (d : dict) (m : mach) : mach :=
  mk_machine (m_files m) (m_env m) (m_vars m) d (m_world m).

(** [copyimage]; [img->offset] is 0 before the first copy. The result, the image after it, with the
    rest of its descriptor and its checksum, and the bytes written. A copy whose fuel is used up
    counts as failed. *)
Definition copy_image_args (img : img_type) (lseek_ok : bool) : swupdate_copy :=
  mk_copy (img_fdin img) None (Z.to_nat (img_size img)) 0 (seek img) 3 lseek_ok false (compressed img)
    (Some (sha256 img)) (is_encrypted img) (Some (ivt_ascii img)) (Some (aes_ascii img)) (cipher img).

Definition copyimage (img : img_type) (lseek_ok : bool) (plan : list wr_event) : Z * img_type * bytes :=
  match copyfile hl dl copy_write fuel zcfg keys (copy_image_args img lseek_ok) (mk_sink [] plan) with
  | None => (-1, img, [])
  | Some r => (r_ret r, set_checksum (r_checksum r) (set_fdin (r_fd r) img), written (r_out r))
  end.

(** ** Raw images *)

Definition PROT : ascii := "1".
Definition UNPROT : ascii := "0".

(** 1: the protection was changed. *)
Definition blkprotect (img : img_type) (on : bool) (s : storage) : Z * storage :=
  if negb (strncmp "/dev/" (device img) 5 =? 0) then (0, s)
  else
    match stat_blk dio (device img) with
    | Some true =>
        match realpath dio (device img) with
        | inl errno => (- errno, s)
        | inr abs =>
            let name := str_drop 5 abs in
            match force_ro s !! name with
            | None => (0, s)
            | Some current =>
                if negb (ro_open_ok dio name) then (- EBADF, s)
                else if negb (ro_read_ok dio name) then (- EIO, s)
                else
                  let requested := if on then PROT else UNPROT in
                  if Ascii.eqb requested current then (0, s)
                  else if ro_write_ok dio name
                  then (1, set_force_ro (<[name := requested]> (force_ro s)) s)
                  else (- EIO, s)
            end
        end
    | _ => (0, s)
    end.

(** The device is opened if it exists. *)
Definition install_raw_image (img : img_type) (d : handler_data) (m : mach) : Z * img_type * mach :=
  let '(prot, s) := blkprotect img false (m_world m) in
  if prot <? 0 then (prot, img, m)
  else
    match devices s !! device img with
    | None => (- ENODEV, img, set_world s m)
    | Some old =>
        let '(ret, img, b) := copyimage img (dev_lseek_ok dio (device img)) (dev_plan dio (device img)) in
        let s := set_devices (<[device img := dev_write old (Z.to_nat (seek img)) b]> (devices s)) s in
        let s := if prot =? 1 then (blkprotect img true s).2 else s in
        (ret, img, set_world s m)
    end.

(** ** Raw files *)

Definition PATH_SIZE : Z := 255.

(** The image is for a file system that is not mounted yet. *)
Definition use_mount (img : img_type) : bool :=
  negb (strlen (device img) =? 0) && negb (strlen (filesystem img) =? 0).

(** The mounted file system, or the one of the running system. *)
Definition target_files (mounted : bool) (img : img_type) (m : mach) : gmap string bytes :=
  if mounted then default ∅ (filesystems (m_world m) !! device img) else m_files m.

Definition put_target (mounted : bool) (img : img_type) (files : gmap string bytes) (m : mach) : mach :=
  if mounted
  then set_world (set_filesystems (<[device img := files]> (filesystems (m_world m))) (m_world m)) m
  else set_files files m.

(** [DATADST_DIR], the mount point, only counts for the length of the path: a path of a mounted
    file system is the path in it. The directories are made before, if the property
    create-destination asks for it; that they cannot be made shows when the file is opened. *)
Definition install_raw_file (DATADST_DIR : string) (img : img_type) (d : handler_data) (m : mach)
  : Z * img_type * mach :=
  let use_mount := use_mount img in
  if strlen (path img) =? 0 then (-1, img, m)
  else if use_mount && negb (mount_ok dio (device img) (filesystem img)) then (-1, img, m)
  else if (if use_mount then strlen (DATADST_DIR +:+ path img) else strlen (path img)) >=? PATH_SIZE
  then (-1, img, m)
  else
    let dir := if use_mount then DATADST_DIR else "" in
    let atomic := strtobool (dict_get_value (properties img) "atomic-install") in
    if atomic && (strlen (dir +:+ path img +:+ ".tmp") >=? PATH_SIZE) then (-1, img, m)
    else
      let tmp_path := if atomic then path img +:+ ".tmp" else path img in
      if negb (can_write os (dir +:+ tmp_path)) then (-1, img, m)
      else
        let put b := put_target use_mount img (<[tmp_path := b]> (target_files use_mount img m)) m in
        if negb (img_check_free_space (fs_statvfs dio (dir +:+ tmp_path)) img) then (- ENOSPC, img, put [])
        else
          let '(ret, img, b) := copyimage img (dev_lseek_ok dio tmp_path) (wr_plan os (dir +:+ tmp_path)) in
          let m := put (dev_write [] (Z.to_nat (seek img)) b) in
          if ret <? 0 then (ret, img, m)
          else if negb (fsync_ok dio tmp_path) then (-1, img, m)
          else if atomic then
            if negb (rename_ok dio tmp_path) then (-1, img, m)
            else
              let files := target_files use_mount img m in
              (0, img, put_target use_mount img
                 (delete tmp_path (<[path img := default [] (files !! tmp_path)]> files)) m)
          else (0, img, m).

(** ** No installation *)

Definition install_nothing (img : img_type) (d : handler_data) (m : mach) : Z * img_type * mach :=
  if is_partitioner img || is_script img then (0, img, m)
  else if negb (null_ok dio) then (-1, img, m)
  else let '(ret, img, _) := copyimage img true [] in (ret, img, m).

(** ** Variables of the bootloader from a file *)

(** [fgets] until the end of the file: pieces of at most [n] bytes that end with a newline or
    are full; [room] is what is left of the current one. *)
Fixpoint fgets_go (n room : nat) (cur s : string) : list string :=
  match s with
  | EmptyString => if String.eqb cur "" then [] else [cur]
  | String c s =>
      let cur := cur +:+ String c "" in
      match room with
      | O => cur :: fgets_go n n "" s
      | S room => if Ascii.eqb c nl then cur :: fgets_go n n "" s else fgets_go n room cur s
      end
  end.

(** The buffer has a byte for the NUL. *)
Definition fgets_lines (s : string) : list string :=
  fgets_go (MAX_BOOT_SCRIPT_LINE_LENGTH - 2) (MAX_BOOT_SCRIPT_LINE_LENGTH - 2) "" s.

(** The line without its end. *)
Fixpoint strip_eol (s : string) : string :=
  match s with
  | EmptyString => EmptyString
  | String c s' =>
      match strip_eol s' with
      | EmptyString => if Ascii.eqb c nl || Ascii.eqb c "013" then EmptyString else String c EmptyString
      | s'' => String c s''
      end
  end.

(** One line of the file, up to a NUL. *)
Definition boot_env_line (no_override : bool) (d : dict) (line : string) : dict :=
  let buf := strip_eol (str_span (fun c => negb (Ascii.eqb c NUL)) line) in
  match buf with
  | EmptyString => d
  | String c _ =>
      if Ascii.eqb c "#" then d
      else
        match string_split buf "=" with
        | [] => d
        | name :: values =>
            if no_override && bool_decide (is_Some (dict_get_value d name)) then d
            else
              match values with
              | [] => (dict_set_value true true d name "").2
              | [value] => (dict_set_value true true d name value).2
              | _ =>
                  match strchr buf "=" with
                  | Some tmp =>
                      if strlen buf - strlen tmp <? strlen buf - 1
                      then (dict_set_value true true d name (str_drop 1 tmp)).2 else d
                  | None => d
                  end
              end
        end
  end.

(** The file is the one extracted to the directory of the scripts, or is made there now. *)
Definition install_boot_environment (img : img_type) (dat : handler_data) (m : mach) : Z * img_type * mach :=
  let filename := tmpdir_scripts +:+ fname img in
  if strlen filename >=? MAX_IMAGE_FNAME then (-1, img, m)
  else
    let '(ret, img, m) :=
      match m_files m !! filename with
      | Some _ => (0, img, m)
      | None =>
          if negb (can_write os filename) then (-1, img, m)
          else
            let '(ret, img, b) := copyimage img true (wr_plan os filename) in
            (if ret <? 0 then ret else 0, img,
             set_files (<[filename := dev_write [] (Z.to_nat (seek img)) b]> (m_files m)) m)
      end in
    if ret <? 0 then (ret, img, m)
    else
      match m_files m !! filename with
      | None => (- EACCES, img, m)
      | Some b =>
          if negb (io_mem os) then (- ENOMEM, img, m)
          else
            let no_override := strtobool (dict_get_value (properties img) "nooverride") in
            let lines := fgets_lines (String.string_of_list_ascii b) in
            (0, img, set_bootdict (foldl (boot_env_line no_override) (m_bootdict m) lines) m)
      end.

(** ** Shell scripts *)

(** [chmod] works if the file exists. *)
Definition execute_shell_script (img : img_type) (fnname : string) (m : mach) : Z * mach :=
  match m_files m !! (tmpdir_scripts +:+ fname img) with
  | None => (-1, m)
  | Some _ => run_system_cmd (tmpdir_scripts +:+ fname img +:+ " " +:+ fnname +:+ " " +:+ type_data img) m
  end.

Definition script_command (fn : script_fn) : option string :=
  match fn with
  | PREINSTALL => Some "preinst"
  | POSTINSTALL => Some "postinst"
  | POSTFAILURE => Some "postfailure"
  | NONE => None
  end.

(** The data of a handler that is not called as a script is NULL. *)
Definition start_shell_script (img : img_type) (d : handler_data) (m : mach) : Z * img_type * mach :=
  match scriptfn d with
  | None => (- EINVAL, img, m)
  | Some fn =>
      match script_command fn with
      | Some fnname => let '(ret, m) := execute_shell_script img fnname m in (ret, img, m)
      | None => (0, img, m)
      end
  end.

(** The handlers "preinstall" and "postinstall" for [only]. *)
Definition start_script_only (only : script_fn) (img : img_type) (d : handler_data) (m : mach)
  : Z * img_type * mach :=
  match scriptfn d with
  | None => (- EINVAL, img, m)
  | Some fn =>
      if bool_decide (fn = only) then let '(ret, m) := execute_shell_script img "" m in (ret, img, m)
      else (0, img, m)
  end.

Definition start_preinstall_script := start_script_only PREINSTALL.
Definition start_postinstall_script := start_script_only POSTINSTALL.

(** ** Reading back *)

(** A property as a number, truncated to [width] bits. *)
Definition number_property (img : img_type) (key : string) (width : Z) : Z :=
  match dict_get_value (properties img) key with
  | Some value => wrap width (strtoul value 10)
  | None => 0
  end.

(** The size in bytes that the kernel stores is 64 bits wide, in a variable of 32: the model keeps
    the low half, what is written behind the variable is not modelled. *)
Definition readback_postinst (img : img_type) (s : storage) : Z :=
  match dict_get_value (properties img) "sha256" with
  | None => - EINVAL
  | Some ascii_hash =>
      let '(ret, hash) := ascii_to_hash (repeat 0 SHA256_HASH_LENGTH) (Some ascii_hash) in
      if (ret <? 0) || negb (IsValidHash (Some hash)) then - EINVAL
      else
        match devices s !! device img with
        | None => - ENODEV
        | Some content =>
            let size := number_property img "size" 32 in
            let offset := number_property img "offset" 64 in
            match (if size =? 0 then u32 <$> dev_size dio (device img) else Some size) with
            | None => - EFAULT
            | Some size =>
                if negb (dev_lseek_ok dio (device img)) then - EFAULT
                else
                  let args := mk_copy (rd_block (drop (Z.to_nat offset) content)) None (Z.to_nat size) 0 0 (-1)
                    true true COMPRESSED_FALSE (Some (ascii_of_Z <$> hash)) false None None AES_CBC in
                  match copyfile hl dl copy_write fuel zcfg keys args (mk_sink [] []) with
                  | Some r => r_ret r
                  | None => -1
                  end
            end
        end
  end.

Definition readback (img : img_type) (d : handler_data) (m : mach) : Z * img_type * mach :=
  match scriptfn d with
  | None => (-1, img, m)
  | Some POSTINSTALL => (readback_postinst img (m_world m), img, m)
  | Some _ => (0, img, m)
  end.
End Handlers.

(** * Properties *)

Section Properties.
Context {E V : Type}.
#[local] Abbreviation mach := (machine E V storage).
Context (os : io) (dio : dev_io).
Context {C D X : Type} (hl : hash_lib C) (dl : decrypt_lib D).
Context (zcfg : config (X := X)) (keys : option decryption_key) (fuel : nat).
Context (TMPDIR tmpdir_scripts : string).
#[local] Abbreviation raw_image := (install_raw_image (E := E) (V := V) dio hl dl zcfg keys fuel).
#[local] Abbreviation raw_file := (install_raw_file (E := E) (V := V) os dio hl dl zcfg keys fuel).
#[local] Abbreviation copy_image := (copyimage hl dl zcfg keys fuel).

Definition plain_image (img : img_type) : Prop :=
  is_encrypted img = false /\ compressed img = COMPRESSED_FALSE.

(** The bytes of the artifact that the image holds. *)
Definition img_data (img : img_type) : bytes := take (Z.to_nat (img_size img)) (content (img_fdin img)).

Lemma copyimage_data img ok plan img' b :
  plain_image img -> copy_image img ok plan = (0, img', b) -> b = img_data img.
Proof.
  intros [He Hc]. unfold copyimage.
  destruct (copyfile _ _ _ _ _ _ _ _) as [r|] eqn:Hr; [|done]. intros [= H0 <- <-].
  pose proof (copyfile_copies _ _ _ _ _ _ (copy_image_args img ok) _ _ I He Hc eq_refl Hr H0) as Hs.
  by apply sent_written in Hs.
Qed.

Lemma copyimage_hash `{!HashSpec hl} img ok plan img' b :
  plain_image img -> length (sha256 img) = SHA256_HASH_LENGTH -> valid_hash (Some (sha256 img)) = true ->
  copy_image img ok plan = (0, img', b) -> sha (img_data img) = sha256 img.
Proof.
  intros [He Hc] Hl Hv. unfold copyimage.
  destruct (copyfile _ _ _ _ _ _ _ _) as [r|] eqn:Hr; [|done]. intros [= H0 <- <-].
  by apply (copyfile_hash_plain _ _ _ _ _ _ (copy_image_args img ok) _ _ (sha256 img) I He Hc eq_refl Hl Hv Hr H0).
Qed.

Lemma copyimage_fields img ok plan ret img' b :
  copy_image img ok plan = (ret, img', b) -> device img' = device img /\ seek img' = seek img /\ path img' = path img.
Proof. unfold copyimage. case_match; by intros [= <- <- <-]. Qed.

(** ** Raw images *)

Lemma blkprotect_devices img on s : devices (blkprotect dio img on s).2 = devices s.
Proof. unfold blkprotect. by repeat case_match. Qed.

(** The protection flags are 0 or 1, and they can be written. *)
Definition flags_ok (s : storage) : Prop :=
  map_Forall (fun _ c => c = PROT \/ c = UNPROT) (force_ro s) /\ forall n, ro_write_ok dio n = true.

Lemma blkprotect_restores img s prot s1 d :
  flags_ok s -> blkprotect dio img false s = (prot, s1) -> 0 <= prot ->
  force_ro (if prot =? 1 then (blkprotect dio img true (set_devices d s1)).2 else s1) = force_ro s.
Proof.
  intros [Hf Hw]. unfold blkprotect.
  destruct (negb (strncmp "/dev/" (device img) 5 =? 0)); [by intros [= <- <-]|].
  destruct (stat_blk dio (device img)) as [[]|]; [|by intros [= <- <-]..].
  destruct (realpath dio (device img)) as [e|abs]; [intros [= <- <-] ?; by destruct (- e =? 1)|].
  destruct (force_ro s !! str_drop 5 abs) as [c|] eqn:Hc; [|by intros [= <- <-]].
  destruct (ro_open_ok dio (str_drop 5 abs)) eqn:Ho; cbn [negb]; [|by intros [= <- <-]].
  destruct (ro_read_ok dio (str_drop 5 abs)) eqn:Hr; cbn [negb]; [|by intros [= <- <-]].
  destruct (Hf _ _ Hc) as [-> | ->]; cbn [Ascii.eqb PROT UNPROT Bool.eqb].
  2:{ intros [= <- <-]. done. }
  rewrite Hw. intros [= <- <-] _. cbn. rewrite lookup_insert_eq. cbn. rewrite insert_insert_eq.
  by apply insert_id.
Qed.

Lemma install_raw_image_inv img d (m m' : mach) img' :
  plain_image img -> raw_image img d m = (0, img', m') ->
  exists old ok plan, devices (m_world m) !! device img = Some old /\
    copy_image img ok plan = (0, img', img_data img) /\
    devices (m_world m') = <[device img := dev_write old (Z.to_nat (seek img)) (img_data img)]> (devices (m_world m)) /\
    m' = set_world (m_world m') m /\ (flags_ok (m_world m) -> force_ro (m_world m') = force_ro (m_world m)).
Proof.
  intros Hp. unfold install_raw_image.
  destruct (blkprotect dio img false (m_world m)) as [prot s1] eqn:Hb.
  destruct (Z.ltb_spec prot 0) as [|Hpos]; [intros ?; simplify_eq; lia|].
  pose proof (blkprotect_devices img false (m_world m)) as Hd. rewrite Hb in Hd. cbn in Hd. rewrite Hd.
  destruct (devices (m_world m) !! device img) as [old|]; [|done].
  destruct (copyimage _ _ _ _ _ img _ _) as [[ret img1] b] eqn:Hc.
  destruct (copyimage_fields _ _ _ _ _ _ Hc) as (Hdev & Hseek & _).
  intros [= -> <- <-]. pose proof (copyimage_data _ _ _ _ _ Hp Hc) as ->.
  exists old, (dev_lseek_ok dio (device img)), (dev_plan dio (device img)).
  split; [done|]. split; [exact Hc|]. cbn.
  rewrite Hdev, Hseek. split; [by destruct (prot =? 1); [rewrite blkprotect_devices|]|].
  split; [done|]. intros Hf. rewrite <- (blkprotect_restores img _ _ _
    (<[device img := dev_write old (Z.to_nat (seek img)) (img_data img)]> (devices (m_world m))) Hf Hb Hpos).
  destruct (prot =? 1); [|done]. unfold blkprotect. by rewrite Hdev.
Qed.

(** A raw image that is installed without error is on its device, byte by byte, from the offset of
    sw-description; the rest of the device, the other devices and everything else on the machine
    are as they were, and so is the write protection of the block device, provided
    the flags in /sys are 0 or 1 and can be written. *)
Theorem raw_image_written (img img' : img_type) (d : handler_data) (m m' : mach) :
  is_encrypted img = false -> compressed img = COMPRESSED_FALSE -> raw_image img d m = (0, img', m') ->
  exists old, devices (m_world m) !! device img = Some old /\
    devices (m_world m') =
      <[device img := dev_write old (Z.to_nat (seek img)) (img_data img)]> (devices (m_world m)) /\
    m' = set_world (m_world m') m /\ (flags_ok (m_world m) -> force_ro (m_world m') = force_ro (m_world m)).
Proof.
  intros He Hc H. destruct (install_raw_image_inv _ _ _ _ _ (conj He Hc) H) as (old & _ & _ & ? & _ & ?).
  by exists old.
Qed.

(** What is read back from a device where something was written. *)
Lemma dev_write_read old k b :
  take (length b) (drop k (dev_write old k b)) = b.
Proof.
  unfold dev_write. destruct b as [|c b]; [done|].
  rewrite drop_app_ge by (rewrite length_resize; lia). rewrite length_resize, Nat.sub_diag, drop_0.
  by rewrite take_app_length.
Qed.

Lemma dev_write_before old k b i :
  (i < k)%nat -> (k <= length old)%nat -> dev_write old k b !! i = old !! i.
Proof.
  intros Hi Hk. unfold dev_write. destruct b as [|c b]; [done|].
  rewrite lookup_app_l by (rewrite length_resize; lia). rewrite resize_le by lia. by apply lookup_take_lt.
Qed.

Lemma dev_write_after old k b i :
  (k + length b <= i)%nat -> (k + length b <= length old)%nat -> dev_write old k b !! i = old !! i.
Proof.
  intros Hi Hk. unfold dev_write. destruct b as [|c b]; [done|].
  rewrite lookup_app_r by (rewrite length_resize; lia). rewrite length_resize.
  rewrite lookup_app_r by lia. rewrite lookup_drop. f_equal. lia.
Qed.

(** ** Raw files *)

Lemma target_put mounted img files m : target_files mounted img (put_target (E := E) (V := V) mounted img files m) = files.
Proof. unfold target_files, put_target. destruct mounted; [|done]. cbn. by rewrite lookup_insert_eq. Qed.

Lemma target_device mounted img img' (m : mach) :
  device img' = device img -> target_files mounted img' m = target_files mounted img m.
Proof. unfold target_files. by intros ->. Qed.

Lemma put_device mounted img img' files (m : mach) :
  device img' = device img -> put_target mounted img' files m = put_target mounted img files m.
Proof. unfold put_target. by intros ->. Qed.

Lemma tmp_path_ne p : p +:+ ".tmp" <> p.
Proof.
  intros H. apply (f_equal String.length) in H. rewrite str_app_length in H. cbn in H. lia.
Qed.

(** The file under [tmp] has some contents, or is as it was. *)
Definition tmp_written (files files' : gmap string bytes) (tmp : string) : Prop :=
  files' = files \/ exists b, files' = <[tmp := b]> files.

Lemma raw_file_cases DST img d (m m' : mach) img' ret :
  plain_image img -> strtobool (dict_get_value (properties img) "atomic-install") = true ->
  raw_file DST img d m = (ret, img', m') ->
  let files := target_files (use_mount img) img m in
  let files' := target_files (use_mount img) img m' in
  let tmp := path img +:+ ".tmp" in
  (ret <> 0 /\ tmp_written files files' tmp) \/
  (ret = 0 /\ files' = delete tmp (<[path img := dev_write [] (Z.to_nat (seek img)) (img_data img)]>
                          (<[tmp := dev_write [] (Z.to_nat (seek img)) (img_data img)]> files))).
Proof.
  intros Hp Ha. unfold install_raw_file. rewrite Ha. cbn zeta.
  repeat (case_if; [intros [= <- <- <-]; left; rewrite ?target_put; split; [done|by left; eauto] |]).
  case_if; [intros [= <- <- <-]; left; rewrite ?target_put; split; [done|right; eauto] |].
  destruct (copyimage _ _ _ _ _ img _ _) as [[r img1] b] eqn:Hc.
  destruct (copyimage_fields _ _ _ _ _ _ Hc) as (Hd & Hs & Hpa).
  destruct (Z.ltb_spec r 0) as [Hr|Hr].
  { intros [= <- <- <-]. left. rewrite target_put. split; [lia|right; eauto]. }
  assert (r = 0) as ->.
  { unfold copyimage in Hc. destruct (copyfile _ _ _ _ _ _ _ _) as [x|] eqn:Hx; [|by simplify_eq].
    destruct Hp as [He Hz]. pose proof (copyfile_plain_ret _ _ _ _ _ _ (copy_image_args img _) _ _ He Hz Hx). simplify_eq. lia. }
  pose proof (copyimage_data _ _ _ _ _ Hp Hc) as ->.
  repeat (case_if; [intros [= <- <- <-]; left; rewrite target_put; split; [done|right; eauto] |]).
  intros [= <- <- <-]. right. split; [done|].
  rewrite (put_device _ _ _ _ _ Hd), target_put, (target_device _ _ _ _ Hd), target_put, Hs, Hpa.
  by rewrite lookup_insert_eq.
Qed.

(** With the property atomic-install, a file is replaced or left alone: after a failure, whatever it
    was, the file under the final path is the old one, or still missing; after a success it is the
    artifact, and the temporary file is gone. No other file changes. *)
Theorem raw_file_atomic (DST : string) (img img' : img_type) (d : handler_data) (m m' : mach) (ret : Z) :
  is_encrypted img = false -> compressed img = COMPRESSED_FALSE ->
  strtobool (dict_get_value (properties img) "atomic-install") = true ->
  raw_file DST img d m = (ret, img', m') ->
  let files := target_files (use_mount img) img m in
  let files' := target_files (use_mount img) img m' in
  (ret <> 0 -> files' !! path img = files !! path img) /\
  (ret = 0 -> files' !! path img = Some (dev_write [] (Z.to_nat (seek img)) (img_data img)) /\
              files' !! (path img +:+ ".tmp") = None) /\
  (forall p, p <> path img -> p <> path img +:+ ".tmp" -> files' !! p = files !! p).
Proof.
  intros He Hc Ha H. pose proof (tmp_path_ne (path img)) as Hne.
  destruct (raw_file_cases _ _ _ _ _ _ _ (conj He Hc) Ha H) as [(Hr & [Hw|[b Hw]])|[-> Hw]]; cbn zeta; rewrite Hw.
  - by split_and!.
  - split_and!; [by rewrite lookup_insert_ne|done|]. intros. by rewrite lookup_insert_ne.
  - split_and!; [done| |].
    + split; [|apply lookup_delete_eq]. by rewrite lookup_delete_ne, lookup_insert_eq.
    + intros p H1 H2. by rewrite lookup_delete_ne, !lookup_insert_ne by done.
Qed.

(** ** Reading back *)

Lemma ascii_to_hash_bytes old s ret h :
  length old = SHA256_HASH_LENGTH -> Forall (fun b => 0 <= b < 256) old -> ascii_to_hash old (Some s) = (ret, h) ->
  length h = SHA256_HASH_LENGTH /\ byte_of <$> (ascii_of_Z <$> h) = h.
Proof.
  intros Hl Ho He.
  assert (length h = SHA256_HASH_LENGTH /\ Forall (fun b => 0 <= b < 256) h) as [? Hb].
  { unfold ascii_to_hash, ascii_to_bin in He. case_if; [by simplify_eq|]. case_if; [|by simplify_eq].
    apply (f_equal snd) in He. cbn [snd] in He. subst h. split; [by rewrite length_fmap, length_seq|].
    apply Forall_fmap, Forall_true. intros x. cbn. unfold u8. apply Z.mod_pos_bound. lia. }
  split; [done|]. rewrite <- list_fmap_compose. etransitivity; [|apply list_fmap_id].
  apply list_fmap_ext. intros k b Hk. cbn. apply byte_of_ascii_of_Z.
  by apply (Forall_lookup_1 (fun b => 0 <= b < 256) h k).
Qed.

(** The number of bytes that are verified. *)
Definition readback_size (img : img_type) : option Z :=
  let size := number_property img "size" 32 in
  if size =? 0 then u32 <$> dev_size dio (device img) else Some size.

(** A post-install check of a device that reports success has changed nothing, and the bytes of
    the device, from the offset on and as many as the property size says, or the size of the device
    in 32 bits, have the digest that the property sha256 spells. *)
Theorem readback_verified `{!HashSpec hl} (img img' : img_type) (d : handler_data) (m m' : mach) :
  scriptfn d = Some POSTINSTALL -> readback dio hl dl zcfg keys fuel img d m = (0, img', m') ->
  img' = img /\ m' = m /\
  exists text h content size, dict_get_value (properties img) "sha256" = Some text /\
    (ascii_to_hash (repeat 0 SHA256_HASH_LENGTH) (Some text)).2 = h /\
    devices (m_world m) !! device img = Some content /\ readback_size img = Some size /\
    sha (take (Z.to_nat size) (drop (Z.to_nat (number_property img "offset" 64)) content)) = ascii_of_Z <$> h.
Proof.
  intros Hd. unfold readback. rewrite Hd. intros [= H <- <-]. split; [done|]. split; [done|].
  unfold readback_postinst in H.
  destruct (dict_get_value (properties img) "sha256") as [text|]; [|done].
  destruct (ascii_to_hash _ (Some text)) as [r h] eqn:Ha.
  destruct ((r <? 0) || negb (IsValidHash (Some h))) eqn:Hv; [done|].
  destruct (devices (m_world m) !! device img) as [c|] eqn:Hc; [|done].
  fold (readback_size img) in H. destruct (readback_size img) as [size|]; [|done].
  case_if; [done|]. destruct (copyfile _ _ _ _ _ _ _ _) as [x|] eqn:Hx; [|done].
  destruct (ascii_to_hash_bytes (repeat 0 SHA256_HASH_LENGTH) _ _ _ eq_refl
    ltac:(by repeat constructor) Ha) as [Hl Hb].
  apply orb_false_iff in Hv as [_ Hv%negb_false_iff].
  exists text, h, c, size. rewrite Ha. split_and!; [done..|].
  pose proof (copyfile_hash_plain _ _ _ _ _ _ (mk_copy _ None _ _ _ _ _ _ _ _ _ _ _ _) _ _ (ascii_of_Z <$> h) I eq_refl eq_refl eq_refl
    ltac:(by rewrite length_fmap) ltac:(unfold valid_hash; cbn; by rewrite Hb) Hx H) as Hs.
  cbn in Hs. unfold source in Hs. cbn in Hs.
  rewrite <- (app_nil_r (rd_block _)), rd_block_content in Hs. cbn in Hs. by rewrite app_nil_r in Hs.
Qed.

(** ** Raw images and the installer *)

Section Deployed.
Context (bl : bootloader E) (vars_apply_list : option string -> string -> V -> Z * V).
Context (lua_parser_fn : string -> img_type -> mach -> Z * img_type * mach).
Context (reg : registry (img_type -> handler_data -> mach -> Z * img_type * mach)).
Context `{!HashSpec hl}.
#[local] Abbreviation run_image := (image_run lua_parser_fn reg os TMPDIR false).
#[local] Abbreviation run_images := (images_run lua_parser_fn reg os TMPDIR false).

(** A plain image with a hash for the handler of raw images, without functions in Lua. *)
Record raw_ready (img : img_type) : Prop := mk_raw_ready {
  ready_type : type img = "raw";
  ready_direct : install_directly img = false;
  ready_path : in_place img = false;
  ready_plain : plain_image img;
  ready_pre : lua_fcn_pre img = "";
  ready_post : lua_fcn_post img = "";
  ready_hash : length (sha256 img) = SHA256_HASH_LENGTH /\ valid_hash (Some (sha256 img)) = true;
}.

(** The artifact [content], with the hash of sw-description, was put on the device. *)
Definition deployed (img : img_type) (files : gmap string bytes) (before after : gmap string bytes) : Prop :=
  exists content old, files !! (TMPDIR +:+ fname img) = Some content /\ sha content = sha256 img /\
    before !! device img = Some old /\
    after !! device img = Some (dev_write old (Z.to_nat (seek img)) content).

Definition handles_raw : Prop :=
  exists hnd, find_handler "raw" reg = Some hnd /\ installer hnd = raw_image.

Lemma raw_image_run img m m' :
  handles_raw -> raw_ready img -> run_image img m 0 m' ->
  deployed img (m_files m) (devices (m_world m)) (devices (m_world m')) /\
  (forall n, n <> device img -> devices (m_world m') !! n = devices (m_world m) !! n) /\
  m_files m' = m_files m.
Proof.
  intros (hnd & Hf & Hi) [Ht Hd Hp Hpl H1 H2 [Hl Hv]].
  inversion 1 as [Hd'|c Hd' _ Hp'|c ret img' m1 _ Hc _ Hs|Hd' Hm]; subst; [congruence..|].
  unfold install_single_image in Hs. change (type (opened img c)) with (type img) in Hs. rewrite Ht, Hf in Hs.
  unfold run_lua_pre in Hs. change (lua_fcn_pre (opened img c)) with (lua_fcn_pre img) in Hs.
  rewrite H1 in Hs. change (strlen "" =? 0) with true in Hs. lazy beta iota zeta in Hs. rewrite Hi in Hs.
  destruct (raw_image (opened img c) (mk_hdata None (data hnd)) m) as [[r img1] m2] eqn:Hr.
  assert (r = 0 /\ m2 = m') as [-> ->].
  { destruct (Z.eqb_spec r 0) as [->|]; cbn [negb] in Hs; [|by injection Hs].
    split; [done|]. assert (lua_fcn_post img1 = "") as Hpost.
    { unfold install_raw_image, copyimage in Hr. repeat case_match; simplify_eq/=; done. }
    rewrite Hpost in Hs. by simplify_eq/=. }
  destruct (install_raw_image_inv (opened img c) _ _ _ _ Hpl Hr) as (old & ok & pl & Ho & Hcp & Hdv & Hm & _).
  pose proof (copyimage_hash (opened img c) _ _ _ _ Hpl Hl Hv Hcp) as Hsha.
  assert (img_data (opened img c) = c) as Hdata.
  { unfold img_data. cbn. rewrite Nat2Z.id. rewrite <- (app_nil_r (rd_block c)), rd_block_content. cbn. rewrite app_nil_r. apply firstn_all. }
  rewrite Hdata in *. cbn [device opened set_fdin set_size seek sha256] in *.
  split_and!; [|intros n Hn; by rewrite Hdv, lookup_insert_ne|by rewrite Hm].
  exists c, old. split_and!; [done..|]. rewrite Hdv. apply lookup_insert_eq.
Qed.

Lemma deployed_later img files b b' a :
  deployed img files b' a -> b' !! device img = b !! device img -> deployed img files b a.
Proof. intros (c & old & ? & ? & H & ?) Hb. exists c, old. rewrite Hb in H. done. Qed.

Lemma deployed_kept img files b a a' :
  deployed img files b a -> a' !! device img = a !! device img -> deployed img files b a'.
Proof. intros (c & old & ? & ? & ? & H) Ha. exists c, old. by rewrite Ha. Qed.

Lemma raw_images_run l m m' :
  handles_raw -> Forall raw_ready l -> NoDup (device <$> l) -> run_images l m m' ->
  Forall (fun img => deployed img (m_files m) (devices (m_world m)) (devices (m_world m'))) l /\
  (forall n, n ∉ device <$> l -> devices (m_world m') !! n = devices (m_world m) !! n).
Proof.
  intros Hh Hl Hn. induction 1 as [m|img l m m1 m2 H1 _ IH]; [done|].
  apply Forall_cons in Hl as [Hi Hl]. apply NoDup_cons in Hn as [Hni Hn].
  destruct (raw_image_run _ _ _ Hh Hi H1) as (D1 & K1 & F1). destruct (IH Hl Hn) as [D2 K2].
  split.
  - apply Forall_cons. split; [by eapply deployed_kept; [|apply K2]|].
    apply Forall_forall. intros i Hin. rewrite Forall_forall in D2. rewrite <- F1.
    eapply deployed_later; [by apply D2|]. apply K1. intros E1. apply Hni. rewrite <- E1.
    by apply list_elem_of_fmap_2.
  - intros n [? ?]%not_elem_of_cons. rewrite K2 by done. by apply K1.
Qed.

(** C34: the installer and the handler of raw images together: when an update without scripts, all
    of whose images are plain raw images with a hash for devices of their own, succeeds, every
    image is on its device, at its offset, and it is the artifact that sw-description gives
    the hash of; no other device has changed. *)
Theorem raw_images_deployed (sw sw' : swupdate_cfg) (m m' : mach) :
  handles_raw -> scripts sw = [] -> dry_run (parms sw) = false ->
  Forall raw_ready (images sw) -> NoDup (device <$> images sw) ->
  install_images bl vars_apply_list lua_parser_fn reg os TMPDIR tmpdir_scripts hl dl zcfg keys fuel sw m
    = Some (0, (sw', m')) ->
  Forall (fun img => deployed img (m_files m) (devices (m_world m)) (devices (m_world m'))) (images sw) /\
  (forall n, n ∉ device <$> images sw -> devices (m_world m') !! n = devices (m_world m) !! n).
Proof.
  intros Hh Hs Hd Hr Hn Hi. unfold install_images in Hi. rewrite Hs in Hi. cbn [extract_scripts] in Hi.
  apply (inj Some) in Hi. cbn [Z.eqb negb] in Hi.
  eapply (install_body_cases _ _ _ _ _ TMPDIR tmpdir_scripts hl dl zcfg keys fuel) in Hi
    as [[? _]|(sw3 & m3 & Hall & _ & _ & _ & Hlast)]; [done| |exact Hd|].
  2:{ rewrite Hs. reflexivity. }
  destruct Hall as (files & scr0 & scr1 & m1 & m2 & Hx & H1 & H2 & H3). rewrite Hs in Hx.
  injection Hx as <- <-. inversion H1; subst. inversion H3; subst.
  apply last_steps_world in Hlast. cbn in Hlast. rewrite Hlast.
  by apply (raw_images_run _ _ _ Hh Hr Hn H2).
Qed.
End Deployed.
End Properties.

(** ** The variables of a file *)

(** A byte that neither ends a line nor the string. *)
Definition line_byte (c : ascii) : bool := negb (Ascii.eqb c nl || Ascii.eqb c "013" || Ascii.eqb c NUL).

(** A variable of the file: a value with a "=" must have two fields around them. *)
Definition env_pair_ok (kv : string * string) : bool :=
  is_token "=" kv.1 && negb (is_prefix "#" kv.1) && str_forall line_byte kv.1 && str_forall line_byte kv.2 &&
  (negb (str_mem "=" kv.2) || (2 <=? length (string_split kv.2 "="))%nat) &&
  (String.length (script_line kv) <=? MAX_BOOT_SCRIPT_LINE_LENGTH - 2)%nat.

Lemma fgets_go_line n room cur line s :
  str_mem nl line = false -> (String.length line <= room)%nat ->
  fgets_go n room cur (line +:+ String nl s) = (cur +:+ line +:+ String nl "") :: fgets_go n n "" s.
Proof.
  revert room cur. induction line as [|c line IH]; intros room cur Hm Hr; autorewrite with swu; cbn [fgets_go].
  - rewrite ascii_eqb_refl. by destruct room.
  - cbn [str_mem] in Hm. apply orb_false_iff in Hm as [H1 H2]. cbn [String.length] in Hr.
    destruct room as [|room]; [lia|]. rewrite H1, IH by (done || lia).
    by rewrite !str_app_assoc, str_app_cons, str_app_nil_l.
Qed.

Lemma strip_eol_clean s : str_forall line_byte s = true -> strip_eol s = s /\ strip_eol (s +:+ String nl "") = s.
Proof.
  induction s as [|c s IH]; [done|]. cbn [str_forall]. intros [Hc Hs]%andb_true_iff.
  destruct (IH Hs) as [H1 H2]. rewrite str_app_cons. cbn [strip_eol]. rewrite H1, H2.
  unfold line_byte in Hc. apply negb_true_iff, orb_false_iff in Hc as [Hc _]. rewrite Hc. by destruct s.
Qed.

Lemma split_on_app d k v : str_mem d k = false -> split_on d (k +:+ String d v) = k :: split_on d v.
Proof.
  intros H. destruct (strchr_some _ _ _ (strchr_app k d v H)) as (t & r & [= <-] & E & _ & ->).
  by apply (f_equal (fun s => str_take (String.length s - String.length (String d v)) s)) in E;
    rewrite !str_app_length, !Nat.add_sub, !str_take_app in E; subst.
Qed.

Lemma split_on_one d s : str_mem d s = false -> split_on d s = [s].
Proof. intros H. by apply strchr_none, strchr_none_mem. Qed.

(** The dictionary after a variable of the file. *)
Definition set_pair (no_override : bool) (d : dict) (kv : string * string) : dict :=
  if no_override && bool_decide (is_Some (dict_get_value d kv.1)) then d
  else (dict_set_value true true d kv.1 kv.2).2.

Lemma split_value v :
  negb (str_mem "=" v) || (2 <=? length (string_split v "="))%nat = true ->
  match string_split v "=" with [] => v = "" | [x] => x = v | _ => True end.
Proof.
  destruct (str_mem "=" v) eqn:Hm; cbn [negb orb].
  - destruct (string_split v "=") as [|x [|y l]]; intros Hn%Nat.leb_le; cbn in Hn; done || lia.
  - intros _. rewrite string_split_fields, split_on_one by done.
    destruct (decide (v = "")) as [->|Hv]; [done|]. by rewrite filter_cons_True.
Qed.

Lemma boot_env_line_pair nov d kv :
  env_pair_ok kv = true -> boot_env_line nov d (script_line kv +:+ String nl "") = set_pair nov d kv.
Proof.
  destruct kv as [k v]. unfold env_pair_ok. cbn [fst snd].
  intros [[[[[Hk Hh]%andb_true_iff Hlk]%andb_true_iff Hlv]%andb_true_iff Hv%split_value]%andb_true_iff _]%andb_true_iff.
  unfold boot_env_line, script_line, set_pair. cbn [fst snd].
  apply andb_true_iff in Hk as [Hne Hk].
  assert (str_mem "=" k = false) as Hm by exact (str_forall_mem _ "=" _ Hk eq_refl).
  assert (str_forall line_byte (k +:+ "=" +:+ v) = true) as Hl.
  { rewrite !str_forall_app. by repeat (apply andb_true_iff; split). }
  rewrite str_span_all.
  2:{ rewrite str_forall_app. apply andb_true_iff. split; [|done]. eapply str_forall_weaken; [|exact Hl].
      intros c. unfold line_byte. rewrite !negb_orb. by intros [_ ->]%andb_true_iff. }
  rewrite (proj2 (strip_eol_clean _ Hl)).
  destruct k as [|c k]; [done|]. rewrite str_app_cons.
  replace (Ascii.eqb c "#") with false.
  2:{ symmetry. apply Ascii.eqb_neq. intros ->. done. }
  rewrite <- str_app_cons, string_split_fields. change ("=" +:+ v) with (String "=" v).
  rewrite split_on_app, filter_cons_True, <- string_split_fields by done.
  case_if; [done|]. destruct (string_split v "=") as [|x [|y l]] eqn:Es; [by subst..|].
  rewrite strchr_app by done. replace (_ <? _) with true; [done|].
  symmetry. apply Z.ltb_lt. unfold strlen. rewrite !str_app_length. cbn [String.length]. destruct v; [done|].
  cbn [String.length]. lia.
Qed.

Lemma fgets_lines_pairs kvs :
  forallb env_pair_ok kvs = true ->
  fgets_lines (unlines (script_line <$> kvs)) = (fun kv => script_line kv +:+ String nl "") <$> kvs.
Proof.
  unfold fgets_lines. induction kvs as [|kv kvs IH]; [done|].
  cbn [forallb]. intros [Hk Hl]%andb_true_iff. cbn [fmap list_fmap unlines fold_right].
  assert (str_mem nl (script_line kv) = false) as Hn.
  { unfold env_pair_ok in Hk. apply andb_true_iff in Hk as [[[[_ H1]%andb_true_iff H2]%andb_true_iff _]%andb_true_iff _].
    unfold script_line. rewrite !str_mem_app.
    by rewrite (str_forall_mem _ nl _ H1 eq_refl), (str_forall_mem _ nl _ H2 eq_refl). }
  rewrite fgets_go_line; [|done|].
  - rewrite str_app_nil_l. f_equal. by apply IH.
  - unfold env_pair_ok in Hk. apply andb_true_iff in Hk as [_ Hk]. by apply Nat.leb_le.
Qed.

Lemma foldl_boot_env nov d kvs :
  forallb env_pair_ok kvs = true ->
  foldl (boot_env_line nov) d ((fun kv => script_line kv +:+ String nl "") <$> kvs) = foldl (set_pair nov) d kvs.
Proof.
  revert d. induction kvs as [|kv kvs IH]; intros d; [done|]. cbn [forallb]. intros [Hk Hl]%andb_true_iff.
  cbn [fmap list_fmap foldl]. rewrite boot_env_line_pair by done. by apply IH.
Qed.

Lemma dict_get_set d k v k' :
  dict_ok d -> dict_get_value (dict_set_value true true d k v).2 k' =
    if decide (k' = k) then Some v else dict_get_value d k'.
Proof.
  intros Hd. rewrite !dict_value_list, <- !dict_abs_lookup, dict_set_value_abs by done.
  case_decide as Hk; [subst; by rewrite lookup_insert_eq|by rewrite lookup_insert_ne].
Qed.

(** Without nooverride the last variable of a name counts; with it, the one there is, and else the
    first of the file. *)
Definition merged (nov : bool) (d : dict) (kvs : list (string * string)) (k : string) : option string :=
  if nov then match dict_get_value d k with Some v => Some v | None => assoc_get kvs k end
  else match assoc_get (rev kvs) k with Some v => Some v | None => dict_get_value d k end.

Lemma assoc_get_app l1 l2 k :
  assoc_get (l1 ++ l2) k = match assoc_get l1 k with Some v => Some v | None => assoc_get l2 k end.
Proof.
  induction l1 as [|[k' v] l1 IH]; [done|]. cbn [app]. rewrite !assoc_get_cons. by case_decide.
Qed.

Lemma set_pairs_get nov d kvs k :
  dict_ok d -> dict_get_value (foldl (set_pair nov) d kvs) k = merged nov d kvs k.
Proof.
  revert d. induction kvs as [|[k' v] kvs IH]; intros d Hd; cbn [foldl].
  { unfold merged. cbn. by destruct nov; case_match. }
  rewrite IH by (unfold set_pair; case_if; [done|by apply dict_set_value_ok]).
  unfold merged, set_pair. cbn [fst snd rev]. rewrite assoc_get_cons, assoc_get_app.
  destruct nov; cbn [andb].
  - destruct (bool_decide_reflect (is_Some (dict_get_value d k'))) as [[w Hw]|Hn].
    + case_decide; [subst; by rewrite Hw|done].
    + rewrite dict_get_set by done. apply eq_None_not_Some in Hn. case_decide; [subst; by rewrite Hn|done].
  - rewrite dict_get_set by done. rewrite assoc_get_cons. case_decide; by repeat case_match.
Qed.

Section BootEnvironment.
Context {E V C D X : Type} (os : io) (hl : hash_lib C) (dl : decrypt_lib D).
Context (zcfg : config (X := X)) (keys : option decryption_key) (fuel : nat) (tmpdir_scripts : string).

(** A file of variables, one name=value to a line, is merged into the dictionary of the update,
    and only there: the environment of the bootloader is left to the end of the installation. A
    variable of the file replaces that of sw-description, and the last one of a name counts; with
    the property nooverride the variables of sw-description stay. *)
Theorem boot_environment_merged (img : img_type) (d : handler_data) (m : machine E V storage)
    (kvs : list (string * string)) :
  strlen (tmpdir_scripts +:+ fname img) < MAX_IMAGE_FNAME -> io_mem os = true -> dict_ok (m_bootdict m) ->
  forallb env_pair_ok kvs = true ->
  m_files m !! (tmpdir_scripts +:+ fname img) =
    Some (String.list_ascii_of_string (unlines (script_line <$> kvs))) ->
  let '(ret, img', m') := install_boot_environment os hl dl zcfg keys fuel tmpdir_scripts img d m in
  ret = 0 /\ img' = img /\ m' = set_bootdict (m_bootdict m') m /\
  forall k, dict_get_value (m_bootdict m') k =
    merged (strtobool (dict_get_value (properties img) "nooverride")) (m_bootdict m) kvs k.
Proof.
  intros Hl Hm Hd Hk Hf. unfold install_boot_environment.
  rewrite Z.geb_leb, (proj2 (Z.leb_gt _ _) Hl).
  rewrite Hf. cbn [Z.ltb Z.compare]. rewrite Hf, Hm. cbn [negb].
  rewrite String.string_of_list_ascii_of_string, fgets_lines_pairs, foldl_boot_env by done.
  split_and!; [done..|]. intros k. by apply set_pairs_get.
Qed.
End BootEnvironment.

(** A value that ends with "=", as base64 may, loses it. *)
Theorem boot_env_value_cut :
  boot_env_line false [] "key=Zm8=" = [mk_dict_entry "key" ["Zm8"]].
Proof. reflexivity. Qed.

(** * An example: two boot partitions, one of them protected *)

Abbreviation dev_machine := (machine (option string) unit storage).

Definition dev_image (dev : string) (off : Z) (file filesystem target : string) (props : dict) (data : bytes)
  : img_type :=
  mk_img (mk_sw_version "" "" false false) "raw" file "" dev target "" "" "" filesystem "" "" off SKIP_NONE
    true COMPRESSED_FALSE false false AES_CBC "" "" false false false props 0 (rd_block data)
    (Z.of_nat (length data)) 0 (toy_sha data).

Definition sample_dev_io : dev_io :=
  mk_dev_io (fun _ => Some true) (fun p => inr p) (fun _ => true) (fun _ => true) (fun _ => true) (fun _ => true)
    (fun _ => [WrSome 1]) (fun _ _ => true) (fun _ => None) (fun _ => true) (fun _ => true) true (fun _ => Some 6).

Definition boot_bytes : bytes := ["a"; "b"; "c"]%char.

Definition sample_storage : storage :=
  mk_storage {["/dev/boot0" := six_bytes; "/dev/boot1" := six_bytes]}
    {["boot0" := PROT; "boot1" := UNPROT]} ∅.

Definition dev_state (files : gmap string bytes) : dev_machine := mk_machine files None tt [] sample_storage.

Abbreviation toy_raw_image :=
  (install_raw_image (E := option string) (V := unit) sample_dev_io toy_hash_lib toy_stream toy_config None 8).

Lemma sample_flags_ok : flags_ok sample_dev_io sample_storage.
Proof.
  split; [|done]. apply map_Forall_insert_2; [by left|]. apply map_Forall_singleton. by right.
Qed.

Definition boot0_image : img_type := dev_image "/dev/boot0" 2 "k" "" "" [] boot_bytes.
Definition boot0_end : Z * img_type * dev_machine := toy_raw_image boot0_image (mk_hdata None 0) (dev_state ∅).

Lemma raw_image_written_witness :
  img_data boot0_image = boot_bytes /\
  devices (m_world boot0_end.2) =
    <[device boot0_image := dev_write six_bytes (Z.to_nat (seek boot0_image)) (img_data boot0_image)]>
      (devices (m_world (dev_state ∅))) /\
  force_ro (m_world boot0_end.2) = force_ro (m_world (dev_state ∅)).
Proof.
  destruct (raw_image_written sample_dev_io toy_hash_lib toy_stream toy_config None 8 boot0_image
    boot0_end.1.2 (mk_hdata None 0) (dev_state ∅) boot0_end.2
    eq_refl eq_refl ltac:(vm_compute; reflexivity)) as (old & H1 & H2 & _ & H3).
  assert (old = six_bytes) as -> by (vm_compute in H1; injection H1 as <-; reflexivity).
  split; [vm_compute; reflexivity|]. split; [exact H2|exact (H3 sample_flags_ok)].
Defined.

Definition dev_registry :=
  mk_registry [mk_handler "raw" toy_raw_image 0 IMAGE_HANDLER false] 1 ULONG_MAX.

Definition dev_cfg : swupdate_cfg :=
  mk_cfg "" "2.0" true true false "" "" false false REBOOT_UNSET [] []
    [dev_image "/dev/boot0" 2 "k" "" "" [] boot_bytes; dev_image "/dev/boot1" 0 "k" "" "" [] boot_bytes]
    [] [] (mk_parms false "" "") sample_type 0 "" "" (mk_hw "" "") [].

Definition dev_lua (f : string) (img : img_type) (m : dev_machine) : Z * img_type * dev_machine := (0, img, m).

Definition dev_start : dev_machine := dev_state {["/tmp/k" := boot_bytes]}.

Definition dev_install :=
  install_images (grub true) (fun _ _ v => (0, v)) dev_lua dev_registry sample_io "/tmp/" "/tmp/scripts/"
    toy_hash_lib toy_stream toy_config None 8 dev_cfg dev_start.

Definition dev_end : Z * (swupdate_cfg * dev_machine) := default (1, (dev_cfg, dev_state ∅)) dev_install.

Lemma raw_images_deployed_witness :
  Forall (fun img => deployed toy_hash_lib "/tmp/" img (m_files dev_start) (devices (m_world dev_start))
                       (devices (m_world dev_end.2.2))) (images dev_cfg).
Proof.
  refine (proj1 (raw_images_deployed sample_io sample_dev_io toy_hash_lib toy_stream toy_config None 8 "/tmp/"
    "/tmp/scripts/" (grub true) (fun _ _ v => (0, v)) dev_lua dev_registry dev_cfg dev_end.2.1
    dev_start dev_end.2.2 _ eq_refl eq_refl _ _ _)).
  - exists (mk_handler "raw" toy_raw_image 0 IMAGE_HANDLER false). split; reflexivity.
  - repeat (apply Forall_cons; split); [split; try (vm_compute; done)..|by apply Forall_nil].
  - apply (bool_decide_unpack _). vm_compute. done.
  - vm_compute. reflexivity.
Defined.

Definition atomic_image : img_type :=
  dev_image "" 0 "k" "" "/etc/k" [mk_dict_entry "atomic-install" ["true"]] boot_bytes.

Definition atomic_start : dev_machine := dev_state {["/etc/k" := six_bytes]}.

Definition rename_io (rename : bool) : dev_io :=
  mk_dev_io (fun _ => Some true) (fun p => inr p) (fun _ => true) (fun _ => true) (fun _ => true)
    (fun _ => true) (fun _ => []) (fun _ _ => true) (fun _ => None) (fun _ => true) (fun _ => rename) true
    (fun _ => None).

Definition atomic_end (rename : bool) : Z * img_type * dev_machine :=
  install_raw_file sample_io (rename_io rename) toy_hash_lib toy_stream toy_config None 8 "/mnt" atomic_image
    (mk_hdata None 0) atomic_start.

Lemma raw_file_atomic_witness :
  (atomic_end false).1.1 = -1 /\
  target_files (use_mount atomic_image) atomic_image (atomic_end false).2 !! path atomic_image =
    target_files (use_mount atomic_image) atomic_image atomic_start !! path atomic_image /\
  (atomic_end true).1.1 = 0 /\ m_files (atomic_end true).2 !! "/etc/k" = Some boot_bytes.
Proof.
  split; [vm_compute; reflexivity|]. split; [|split; vm_compute; reflexivity].
  refine (proj1 (raw_file_atomic sample_io (rename_io false) toy_hash_lib toy_stream toy_config None 8 "/mnt" atomic_image
    (atomic_end false).1.2 (mk_hdata None 0) atomic_start (atomic_end false).2 (-1) eq_refl eq_refl eq_refl _) _).
  - vm_compute. reflexivity.
  - discriminate.
Defined.

Definition checked_image (data : bytes) : img_type :=
  dev_image "/dev/boot0" 0 "" "" ""
    [mk_dict_entry "sha256" [hash_to_ascii (byte_of <$> toy_sha data)]; mk_dict_entry "offset" ["1"];
     mk_dict_entry "size" ["4"]] [].

Definition checked_data : bytes := take 4 (drop 1 six_bytes).

Lemma readback_verified_witness :
  exists text h content size,
    dict_get_value (properties (checked_image checked_data)) "sha256" = Some text /\
    (ascii_to_hash (repeat 0 SHA256_HASH_LENGTH) (Some text)).2 = h /\
    devices (m_world (dev_state ∅)) !! device (checked_image checked_data) = Some content /\
    readback_size sample_dev_io (checked_image checked_data) = Some size /\
    toy_sha (take (Z.to_nat size)
      (drop (Z.to_nat (number_property (checked_image checked_data) "offset" 64)) content)) = ascii_of_Z <$> h.
Proof.
  refine (proj2 (proj2 (readback_verified sample_dev_io toy_hash_lib toy_stream toy_config None 8
    (checked_image checked_data) (checked_image checked_data) (mk_hdata (Some POSTINSTALL) 0) (dev_state ∅)
    (dev_state ∅) eq_refl _))).
  vm_compute. reflexivity.
Defined.

Definition env_pairs : list (string * string) := [("bootpart", "3"); ("args", "root=/dev/sda3"); ("old", "")].

Definition env_image : img_type :=
  dev_image "" 0 "env" "" "" [mk_dict_entry "nooverride" ["true"]] [].

Definition env_start : dev_machine :=
  mk_machine {["/tmp/scripts/env" := String.list_ascii_of_string (unlines (script_line <$> env_pairs))]}
    None tt [mk_dict_entry "bootpart" ["2"]] sample_storage.

Definition env_end : Z * img_type * dev_machine :=
  install_boot_environment sample_io toy_hash_lib toy_stream toy_config None 8 "/tmp/scripts/" env_image
    (mk_hdata None 0) env_start.

Lemma boot_environment_merged_witness :
  dict_get_value (m_bootdict env_end.2) "bootpart" = Some "2" /\
  dict_get_value (m_bootdict env_end.2) "args" = Some "root=/dev/sda3".
Proof.
  pose proof (boot_environment_merged sample_io toy_hash_lib toy_stream toy_config None 8 "/tmp/scripts/" env_image
    (mk_hdata None 0) env_start env_pairs ltac:(vm_compute; reflexivity) eq_refl
    ltac:(apply (bool_decide_unpack _); vm_compute; exact I) ltac:(vm_compute; reflexivity)
    ltac:(vm_compute; reflexivity)) as H.
  fold env_end in H. destruct env_end as [[ret img'] m']. destruct H as (_ & _ & _ & H). cbn [snd].
  rewrite !H. split; vm_compute; reflexivity.
Defined.
