(* ===== verification/Flash.v ===== *)
(** * Raw flash images: [handlers/flash_handler.c]

    An image is written to a NAND or NOR flash block by block. Blocks that are bad are skipped, blocks that turn out to be
    bad are marked and their data goes to the next one. The data arrives in pieces of any size and is collected in
    a buffer of one erase block. The library behind the device, libmtd, is a parameter. *)
From stdpp Require Import gmap.
From S2P Require Import Prelude CString Util Versions Dict Handler Bootloader Grub Crypto Keys Cpio Memory.
From S2P Require Import Copyfile Image Installer Handlers.

Definition FLASH_EMPTY_BYTE : ascii := "255".

Definition ENOTSUP_KERNEL : Z := 524.
Definition EOPNOTSUPP : Z := 95.

(** [ENOTSUP] is [EOPNOTSUPP]. *)
Definition is_not_supported (code : Z) : bool := (code =? EOPNOTSUPP) || (code =? ENOTSUP_KERNEL).

Definition ROUND_UP (n s : nat) : nat := ((n + s - 1) / s * s)%nat.
Definition ROUND_DOWN (n s : nat) : nat := (n / s * s)%nat.

(** The test compares the buffer with itself, shifted by one byte. *)
Definition buffer_check_pattern (buffer : bytes) (pattern : ascii) : bool :=
  match buffer with
  | [] => false
  | b :: rest =>
      Ascii.eqb b pattern &&
      match rest with [] => true | _ => bool_decide (take (length rest) buffer = rest) end
  end.

(** What libmtd tells of a device. *)
Record mtd_dev := mk_mtd_dev {
  mtd_name : string;
  mtd_nand : bool;
  mtd_size : Z;
  mtd_eb_size : nat;
  mtd_min_io_size : nat;
  mtd_oob_size : nat;
}.

(** The calls of libmtd on a device whose state is [F]: a failure gives [errno]. [mtd_pread] is a read of the device file at
    an offset. [mtd_write] gets the data, the spare bytes ([oob], [] for NULL) and whether ECC is off. *)
Record mtd_lib (F : Type) := mk_mtd_lib {
  mtd_erase : F -> nat -> option Z * F;
  mtd_mark_bad : F -> nat -> option Z * F;
  mtd_is_bad : F -> nat -> Z + bool;
  mtd_is_locked : F -> nat -> Z + bool;
  mtd_unlock : F -> nat -> option Z * F;
  mtd_read : F -> nat -> Z + bytes;
  mtd_write : F -> nat -> nat -> bytes -> bytes -> bool -> option Z * F;
  mtd_pread : F -> Z -> nat -> option bytes;
}.
Arguments mtd_erase {F}. Arguments mtd_mark_bad {F}. Arguments mtd_is_bad {F}. Arguments mtd_is_locked {F}.
Arguments mtd_unlock {F}. Arguments mtd_read {F}. Arguments mtd_write {F}. Arguments mtd_pread {F}.

(** The parts of [struct flash_priv] that do not change. *)
Record flash_setup := mk_flash_setup {
  fs_mtd : mtd_dev;
  is_nand : bool;
  write_oob : bool;
  no_ecc : bool;
  page_len : nat;
  filebuf_size : nat;
  start_offset : Z;
  eb_end : nat;
}.

(** The others. [filebuf] holds the first [filebuf_len] bytes of the buffer. *)
Record flash_priv (F : Type) := mk_flash_priv {
  flash : F;
  imglen : Z;
  filebuf : bytes;
  writebuf_offset : nat;
  first_run : bool;
  eb : nat;
  check_bad : bool;
  check_locked : bool;
  do_unlock : bool;
}.
Arguments mk_flash_priv {F}. Arguments flash {F}. Arguments imglen {F}. Arguments filebuf {F}. Arguments writebuf_offset {F}.
Arguments first_run {F}. Arguments eb {F}. Arguments check_bad {F}. Arguments check_locked {F}. Arguments do_unlock {F}.

Section Flash.
Context {F : Type} (lib : mtd_lib F) (cfg : flash_setup).
(** Allocations, what the heap holds, and seeking on the device. *)
Context (mem : nat -> bool) (heap : nat -> bytes) (seek_ok : Z -> bool).
#[local] Abbreviation priv := (flash_priv F).
#[local] Abbreviation mtd := (fs_mtd cfg).

Definition set_flash (f : F) (p : priv) : priv :=
  mk_flash_priv f (imglen p) (filebuf p) (writebuf_offset p) (first_run p) (eb p) (check_bad p) (check_locked p) (do_unlock p).
Definition set_buf (len : Z) (buf : bytes) (p : priv) : priv :=
  mk_flash_priv (flash p) len buf (writebuf_offset p) (first_run p) (eb p) (check_bad p) (check_locked p) (do_unlock p).
Definition set_place (b off : nat) (p : priv) : priv :=
  mk_flash_priv (flash p) (imglen p) (filebuf p) off (first_run p) b (check_bad p) (check_locked p) (do_unlock p).
Definition set_first_run (r : bool) (p : priv) : priv :=
  mk_flash_priv (flash p) (imglen p) (filebuf p) (writebuf_offset p) r (eb p) (check_bad p) (check_locked p) (do_unlock p).
Definition set_checks (bad locked unlock : bool) (p : priv) : priv :=
  mk_flash_priv (flash p) (imglen p) (filebuf p) (writebuf_offset p) (first_run p) (eb p) bad locked unlock.

Definition erase_block (p : priv) : Z * priv :=
  let '(err, f) := mtd_erase lib (flash p) (eb p) in
  let p := set_flash f p in
  match err with
  | None => (0, p)
  | Some errno => (if is_not_supported errno then 0 else - errno, p)
  end.

Definition mark_bad_block (p : priv) : Z * priv :=
  let '(err, f) := mtd_mark_bad lib (flash p) (eb p) in
  let p := set_flash f p in
  match err with
  | None => (0, p)
  | Some errno => (if is_not_supported errno then 0 else - errno, p)
  end.

(** What is left of the input, and the data and the spare bytes to write, if there is enough. *)
Definition read_data (p : priv) (in_buf : bytes) : option (bytes * bytes) * bytes * priv :=
  let filebuf_offset := (writebuf_offset p / mtd_min_io_size mtd * page_len cfg)%nat in
  let to_read := Nat.min (length in_buf) (filebuf_size cfg - length (filebuf p)) in
  let buf := filebuf p ++ take to_read in_buf in
  let len := imglen p - Z.of_nat to_read in
  let buf :=
    if len =? 0 then buf ++ replicate (ROUND_UP (length buf) (page_len cfg) - length buf) FLASH_EMPTY_BYTE else buf in
  let p := set_buf len buf p in
  let rest := drop to_read in_buf in
  let wbuf := drop filebuf_offset buf in
  let write_available := length wbuf in
  if is_nand cfg then
    if (write_available <? page_len cfg)%nat then (None, rest, p)
    else
      (Some (take (mtd_min_io_size mtd) wbuf,
             if write_oob cfg then take (mtd_oob_size mtd) (drop (mtd_min_io_size mtd) wbuf) else []), rest, p)
  else
    let to_write := ROUND_DOWN write_available (mtd_min_io_size mtd) in
    if (to_write =? 0)%nat then (None, rest, p) else (Some (take to_write wbuf, []), rest, p).

(** The tests of [process_new_erase_block]: what is known of the block, or [None] to go on with it. *)
Definition test_bad (p : priv) : option Z * priv :=
  if check_bad p then
    match mtd_is_bad lib (flash p) (eb p) with
    | inr true => (Some 1, p)
    | inr false => (None, p)
    | inl errno =>
        if is_not_supported errno then (None, set_checks false (check_locked p) (do_unlock p) p) else (Some (- errno), p)
    end
  else (None, p).

Definition test_locked (p : priv) : option Z * priv :=
  if check_locked p then
    match mtd_is_locked lib (flash p) (eb p) with
    | inl errno =>
        if is_not_supported errno then (None, set_checks (check_bad p) false true p) else (Some (- errno), p)
    | inr locked => (None, set_checks (check_bad p) true locked p)
    end
  else (None, p).

Definition unlock_block (p : priv) : option Z * priv :=
  if do_unlock p then
    let '(err, f) := mtd_unlock lib (flash p) (eb p) in
    let p := set_flash f p in
    match err with
    | None => (None, p)
    | Some errno =>
        if is_not_supported errno then (None, set_checks (check_bad p) false false p) else (Some (- errno), p)
    end
  else (None, p).

Definition erase_or_mark (p : priv) : Z * priv :=
  let '(ret, p) := erase_block p in
  if ret =? 0 then (0, p)
  else if ret =? - EIO then
    let '(ret, p) := mark_bad_block p in
    if negb (ret =? 0) then (ret, p) else (1, p)
  else (ret, p).

(** 0: the block can be written; 1: it is bad. *)
Definition process_new_erase_block (p : priv) : Z * priv :=
  match test_bad p with
  | (Some ret, p) => (ret, p)
  | (None, p) =>
      match test_locked p with
      | (Some ret, p) => (ret, p)
      | (None, p) =>
          match unlock_block p with
          | (Some ret, p) => (ret, p)
          | (None, p) =>
              if is_nand cfg then erase_or_mark p
              else
                match mtd_read lib (flash p) (eb p) with
                | inl errno => (- errno, p)
                | inr readout_buf =>
                    if buffer_check_pattern readout_buf FLASH_EMPTY_BYTE then (0, p) else erase_or_mark p
                end
          end
      end
  end.

(** [n] blocks are left. *)
Fixpoint prepare_loop (n : nat) (p : priv) : Z * priv :=
  match n with
  | O => (- ENOSPC, p)
  | S n =>
      let '(ret, p) := process_new_erase_block p in
      if ret <? 0 then (ret, p)
      else if ret =? 0 then (0, p)
      else prepare_loop n (set_place (S (eb p)) (writebuf_offset p) p)
  end.

Definition prepare_new_erase_block (p : priv) : Z * priv := prepare_loop (eb_end cfg - eb p) p.

Definition flash_has_pending_data (p : priv) : bool :=
  (writebuf_offset p / mtd_min_io_size mtd * page_len cfg <? length (filebuf p))%nat.

(** A page, or for NOR what there is, goes to the block; a block that cannot be written is marked, and its data
    goes to the next one. [None]: the loop goes on. *)
Definition write_data (wbuf oob : bytes) (p : priv) : option Z * priv :=
  let empty := buffer_check_pattern wbuf FLASH_EMPTY_BYTE &&
    (negb (write_oob cfg) || buffer_check_pattern oob FLASH_EMPTY_BYTE) in
  let '(err, f) := if empty then (None, flash p)
    else mtd_write lib (flash p) (eb p) (writebuf_offset p) wbuf oob (no_ecc cfg) in
  let p := set_flash f p in
  match err with
  | Some errno =>
      if negb (errno =? EIO) then (Some (- errno), p)
      else
        let '(ret, p) := erase_block p in
        if negb (ret =? 0) && negb (ret =? - EIO) then (Some ret, p)
        else
          let '(ret, p) := mark_bad_block p in
          if negb (ret =? 0) then (Some ret, p) else (None, set_place (S (eb p)) 0 p)
  | None =>
      let off := (writebuf_offset p + length wbuf)%nat in
      if (off =? mtd_eb_size mtd)%nat then (None, set_buf (imglen p) [] (set_place (S (eb p)) 0 p))
      else (None, set_place (eb p) off p)
  end.

(** The [while]: every turn goes on in the block or to the next block. *)
Fixpoint flash_loop (fuel : nat) (p : priv) (buf : bytes) : Z * priv :=
  match fuel with
  | O => (-1, p)
  | S fuel =>
      if (length buf =? 0)%nat && negb (flash_has_pending_data p) then (0, p)
      else if (eb p =? eb_end cfg)%nat then (- ENOSPC, p)
      else
        match read_data p buf with
        | (None, _, p) => (0, p)
        | (Some (wbuf, oob), buf, p) =>
            let '(ret, p) := if (writebuf_offset p =? 0)%nat then prepare_new_erase_block p else (0, p) in
            if negb (ret =? 0) then (ret, p)
            else
              match write_data wbuf oob p with
              | (Some ret, p) => (ret, p)
              | (None, p) => flash_loop fuel p buf
              end
        end
  end.

(** Enough turns. *)
Definition turns (p : priv) : nat :=
  ((eb_end cfg - eb p) * S (mtd_eb_size mtd) + (mtd_eb_size mtd - writebuf_offset p) + 2)%nat.

(** The first data of an image that does not start with a block is put behind what the block holds. What a short read
    leaves of the buffer is what the heap held; the offset of the block is computed as an int. *)
Definition first_data (p : priv) (buf : bytes) : Z + bytes * priv :=
  if first_run p && negb (Z.land (start_offset cfg) (Z.of_nat (mtd_eb_size mtd) - 1) =? 0) then
    let rdlen := Z.to_nat (start_offset cfg mod Z.of_nat (mtd_eb_size mtd)) in
    let place := i32 (Z.of_nat (mtd_eb_size mtd) * Z.of_nat (eb p)) in
    if negb (mem (rdlen + length buf)) then inl (- ENOMEM)
    else if negb (seek_ok place) then inl (- EIO)
    else
      match mtd_pread lib (flash p) place rdlen with
      | None => inl (- EIO)
      | Some old =>
          if negb (seek_ok 0) then inl (- EIO)
          else inr (take rdlen (put (heap rdlen) (take rdlen old)) ++ buf, set_first_run false p)
      end
  else inr (buf, p).

Definition flash_write (p : priv) (buf : bytes) : Z * priv :=
  match first_data p buf with
  | inl ret => (ret, p)
  | inr (buf, p) => flash_loop (turns p) p buf
  end.
End Flash.

(** ** The handler *)

(** The MTD devices of the system, what [realpath] and [open] make of a path, the ioctl for RAW access and the result of
    [close]. *)
Record mtd_system := mk_mtd_system {
  lowest_mtd_num : Z;
  highest_mtd_num : Z;
  mtd_info : Z -> mtd_dev;
  mtd_dev_present : Z -> bool;
  mtd_dev_size : Z -> option Z;
  mtd_realpath : string -> option string;
  mtd_open : Z -> option Z;
  mtd_raw_mode : Z -> option Z;
  mtd_close : Z -> option Z;
}.

(** [sscanf] of a prefix and an int. *)
Definition scan_int (prefix s : string) : option Z :=
  if is_prefix prefix s then
    match scan_number 10 (str_drop (String.length prefix) s) with
    | Some (neg, v, _) => Some (i32 (if neg then - v else v))
    | None => None
    end
  else None.

Section Handler.
Context {E V C D X F : Type} (lib : mtd_lib F) (sys : mtd_system).
Context (mem : nat -> bool) (heap : nat -> bytes) (seek_ok : Z -> Z -> bool).
Context (hl : hash_lib C) (dl : decrypt_lib D) (zcfg : config (X := X)) (keys : option decryption_key) (fuel : nat).
(** The devices by their number. *)
#[local] Abbreviation mach := (machine E V (gmap Z F)).

Definition get_mtd_from_device (s : string) : Z :=
  let real :=
    match mtd_realpath sys s with
    | Some r => Some r
    | None => if strncmp s "/dev/" 5 =? 0 then None else mtd_realpath sys ("/dev/" +:+ s)
    end in
  match real with
  | None => -1
  | Some real_s =>
      match scan_int "mtd" real_s with
      | Some n => n
      | None => match scan_int "/dev/mtd" real_s with Some n => n | None => -1 end
      end
  end.

Fixpoint find_mtd (n : nat) (i : Z) (s : string) : Z :=
  match n with
  | O => -1
  | S n => if String.eqb (mtd_name (mtd_info sys i)) s then i else find_mtd n (i + 1) s
  end.

Definition get_mtd_from_name (s : string) : Z :=
  find_mtd (Z.to_nat (highest_mtd_num sys - lowest_mtd_num sys + 1)) (lowest_mtd_num sys) s.

Definition get_mtd_size (mtdnum : Z) : Z := match mtd_dev_size sys mtdnum with Some n => n | None => - ENODEV end.

(** The size of the image, or that of the device if it is not known. *)
Definition image_length (mtdnum : Z) (img : img_type) : Z :=
  let len := get_output_size img true in
  if len <? 0 then get_mtd_size mtdnum else len.

(** The setup of [struct flash_priv]. *)
Definition flash_setup_of (mtdnum : Z) (img : img_type) : flash_setup :=
  let mtd := mtd_info sys mtdnum in
  let nand := mtd_nand mtd in
  let oob := strtobool (dict_get_value (properties img) "oob") in
  let len := (mtd_min_io_size mtd + if oob then mtd_oob_size mtd else 0)%nat in
  mk_flash_setup mtd nand oob (strtobool (dict_get_value (properties img) "noecc") && nand) len
    (if oob then mtd_eb_size mtd / mtd_min_io_size mtd * len else mtd_eb_size mtd)%nat (seek img)
    (Z.to_nat (mtd_size mtd / Z.of_nat (mtd_eb_size mtd))).

(** An offset behind the device is refused before, by the seek of [copyfile]: the number of the block is not negative. *)
Definition start_flash (cfg : flash_setup) (len : Z) (f : F) : flash_priv F :=
  mk_flash_priv f len [] 0 true (Z.to_nat (start_offset cfg / Z.of_nat (mtd_eb_size (fs_mtd cfg)))) true true false.

(** [copyimage] with this callback; the result, the image and the state of the writer. *)
Definition copyimage_flash (mtdnum : Z) (cfg : flash_setup) (img : img_type) (p : flash_priv F)
  : Z * img_type * flash_priv F :=
  match copyfile hl dl (flash_write lib cfg mem heap (seek_ok mtdnum)) fuel zcfg keys
          (copy_image_args img (seek_ok mtdnum (seek img))) p with
  | None => (-1, img, p)
  | Some r => (r_ret r, set_checksum (r_checksum r) (set_fdin (r_fd r) img), r_out r)
  end.

(** The part behind [open]: the result, the image and the device. *)
Definition flash_write_opened (mtdnum : Z) (cfg : flash_setup) (len : Z) (img : img_type) (f : F) : Z * img_type * F :=
  match (if no_ecc cfg then mtd_raw_mode sys mtdnum else None) with
  | Some errno => (- errno, img, f)
  | None =>
      if negb (mem (filebuf_size cfg + if is_nand cfg then 0 else mtd_eb_size (fs_mtd cfg))%nat) then (- ENOMEM, img, f)
      else
        let '(ret, img, p) := copyimage_flash mtdnum cfg img (start_flash cfg len f) in (ret, img, flash p)
  end.

(** The bytes of the image without its spare bytes. *)
Definition data_len (cfg : flash_setup) (len : Z) : Z :=
  if write_oob cfg
  then (len + Z.of_nat (page_len cfg) - 1) / Z.of_nat (page_len cfg) * Z.of_nat (mtd_min_io_size (fs_mtd cfg)) else len.

Definition flash_write_image (mtdnum : Z) (img : img_type) (f : F) : Z * img_type * F :=
  let cfg := flash_setup_of mtdnum img in
  let mtd := fs_mtd cfg in
  if write_oob cfg && negb (is_nand cfg) then (- EINVAL, img, f)
  else if write_oob cfg && (mtd_oob_size mtd =? 0)%nat then (- EINVAL, img, f)
  else if negb (mtd_dev_present sys mtdnum) then (- ENODEV, img, f)
  else
    let len := image_length mtdnum img in
    if len <? 0 then (- ENODEV, img, f)
    else if len =? 0 then (0, img, f)
    else
      if data_len cfg len >? u64 (mtd_size mtd - seek img) then (- ENOSPC, img, f)
      else
        match mtd_open sys mtdnum with
        | Some errno => (- errno, img, f)
        | None =>
            let '(ret, img, f) := flash_write_opened mtdnum cfg len img f in
            let ret := match mtd_close sys mtdnum with
                       | Some errno => if ret =? 0 then - errno else ret
                       | None => ret
                       end in
            (if ret <? 0 then ret else 0, img, f)
        end.

Definition image_mtd (img : img_type) : Z :=
  if negb (strlen (mtdname img) =? 0) then get_mtd_from_name (mtdname img) else get_mtd_from_device (device img).

(** A number for which there is no device is not opened. *)
Definition install_flash_image (img : img_type) (d : handler_data) (m : mach) : Z * img_type * mach :=
  let mtdnum := image_mtd img in
  if mtdnum <? 0 then (- EINVAL, img, m)
  else
    match m_world m !! mtdnum with
    | None => (- ENODEV, img, m)
    | Some f =>
        let '(ret, img, f) := flash_write_image mtdnum img f in
        (ret, img, mk_machine (m_files m) (m_env m) (m_vars m) (m_bootdict m) (<[mtdnum := f]> (m_world m)))
    end.
End Handler.

(** * Properties *)

Lemma shifted_replicate (c : ascii) b : take (length b) (c :: b) = b -> b = replicate (length b) c.
Proof.
  revert c. induction b as [|a b IH]; intros c H; [done|]. cbn in H. injection H as -> H. cbn. f_equal. by apply IH.
Qed.

Lemma buffer_check_replicate b c : buffer_check_pattern b c = true -> b = replicate (length b) c.
Proof.
  destruct b as [|a b]; [done|]. cbn [buffer_check_pattern length replicate]. intros H. apply andb_true_iff in H as [Ha H].
  apply Ascii.eqb_eq in Ha as ->. f_equal. apply shifted_replicate. destruct b; [done|]. by apply bool_decide_eq_true in H.
Qed.

Lemma ROUND_UP_spec n s : (0 < s)%nat -> (n <= ROUND_UP n s < n + s)%nat /\ (ROUND_UP n s mod s = 0)%nat.
Proof.
  intros Hs. unfold ROUND_UP. split; [|apply Nat.Div0.mod_mul].
  pose proof (Nat.div_mod (n + s - 1) s ltac:(lia)). pose proof (Nat.mod_upper_bound (n + s - 1) s ltac:(lia)). nia.
Qed.

Lemma ROUND_DOWN_spec n s : (0 < s)%nat -> (ROUND_DOWN n s <= n < ROUND_DOWN n s + s)%nat.
Proof. intros Hs. unfold ROUND_DOWN. pose proof (Nat.div_mod n s ltac:(lia)). pose proof (Nat.mod_upper_bound n s ltac:(lia)). nia. Qed.

(** ** What libmtd promises *)

Section Spec.
Context {F : Type} (lib : mtd_lib F) (mtd : mtd_dev).

(** Pages of a block. *)
Definition ppb : nat := (mtd_eb_size mtd / mtd_min_io_size mtd)%nat.

(** [page f b j] is page [j] of block [b]: its data and its spare bytes; [bad f b]: the block is marked as bad. An operation
    changes no other block; erasing gives pages of empty bytes; what is written to empty pages can be read. *)
Class MtdSpec := {
  page : F -> nat -> nat -> bytes * bytes;
  bad : F -> nat -> bool;
  page_length : forall f b j, length (page f b j).1 = mtd_min_io_size mtd /\ length (page f b j).2 = mtd_oob_size mtd;
  is_bad_spec : forall f b v, mtd_is_bad lib f b = inr v -> v = bad f b;
  erase_spec : forall f b err f', mtd_erase lib f b = (err, f') ->
    (forall b', b' <> b -> page f' b' = page f b' /\ bad f' b' = bad f b') /\ bad f' b = bad f b /\
    (err = None -> forall j, page f' b j =
      (replicate (mtd_min_io_size mtd) FLASH_EMPTY_BYTE, replicate (mtd_oob_size mtd) FLASH_EMPTY_BYTE));
  mark_bad_spec : forall f b err f', mtd_mark_bad lib f b = (err, f') ->
    (forall b', b' <> b -> page f' b' = page f b' /\ bad f' b' = bad f b') /\ (err = None -> bad f' b = true);
  unlock_spec : forall f b err f', mtd_unlock lib f b = (err, f') -> page f' = page f /\ bad f' = bad f;
  read_spec : forall f b bs, mtd_read lib f b = inr bs -> bs = concat (map (fun j => (page f b j).1) (seq 0 ppb));
  write_spec : forall f b k m d o raw err f', mtd_write lib f b (k * mtd_min_io_size mtd) d o raw = (err, f') ->
    (0 < m)%nat -> length d = (m * mtd_min_io_size mtd)%nat -> (o = [] \/ length o = mtd_oob_size mtd) ->
    (forall b', b' <> b -> page f' b' = page f b' /\ bad f' b' = bad f b') /\ bad f' b = bad f b /\
    (err = None ->
     (forall j, (k <= j < k + m)%nat -> (page f b j).1 = replicate (mtd_min_io_size mtd) FLASH_EMPTY_BYTE) ->
     (o <> [] -> (page f b k).2 = replicate (mtd_oob_size mtd) FLASH_EMPTY_BYTE) ->
     (forall j, (j < m)%nat -> (page f' b (k + j)).1 = slice (j * mtd_min_io_size mtd) (mtd_min_io_size mtd) d) /\
     (o <> [] -> (page f' b k).2 = o) /\ (forall j, ~ (k <= j < k + m)%nat -> page f' b j = page f b j));
}.

(** The device supports bad blocks and erasing; errors have a number. *)
Record supports : Prop := {
  erase_fails : forall f b e, (mtd_erase lib f b).1 = Some e -> 0 < e /\ is_not_supported e = false;
  mark_fails : forall f b e, (mtd_mark_bad lib f b).1 = Some e -> 0 < e /\ is_not_supported e = false;
  is_bad_fails : forall f b e, mtd_is_bad lib f b = inl e -> 0 < e /\ is_not_supported e = false;
  is_locked_fails : forall f b e, mtd_is_locked lib f b = inl e -> 0 < e;
  unlock_fails : forall f b e, (mtd_unlock lib f b).1 = Some e -> 0 < e;
  read_fails : forall f b e, mtd_read lib f b = inl e -> 0 < e;
  write_fails : forall f b off d o raw e, (mtd_write lib f b off d o raw).1 = Some e -> 0 < e;
}.
End Spec.
Arguments MtdSpec {F}.
Arguments page {F lib mtd MtdSpec}. Arguments bad {F lib mtd MtdSpec}.

(** ** Blocks as bytes *)

Section Written.
Context {F : Type} (lib : mtd_lib F) (cfg : flash_setup) `{Hspec : !MtdSpec lib (fs_mtd cfg)}.
Context (mem : nat -> bool) (heap : nat -> bytes) (seek_ok : Z -> bool).
#[local] Abbreviation priv := (flash_priv F).
#[local] Abbreviation io := (mtd_min_io_size (fs_mtd cfg)).
#[local] Abbreviation oobs := (mtd_oob_size (fs_mtd cfg)).
#[local] Abbreviation pages := (ppb (fs_mtd cfg)).

Record geometry : Prop := {
  geo_io : (0 < io)%nat;
  geo_pages : (0 < pages)%nat;
  geo_eb : mtd_eb_size (fs_mtd cfg) = (pages * io)%nat;
  geo_page : page_len cfg = (io + if write_oob cfg then oobs else 0)%nat;
  geo_buf : filebuf_size cfg = (pages * page_len cfg)%nat;
  geo_oob : write_oob cfg = true -> is_nand cfg = true /\ (0 < oobs)%nat;
}.
Context (geo : geometry).

Definition page_bytes (f : F) (b j : nat) : bytes := (page f b j).1 ++ if write_oob cfg then (page f b j).2 else [].

(** What a block gives to a reader: its pages, with their spare bytes if the image has them. *)
Definition block_bytes (f : F) (b : nat) : bytes := concat (map (page_bytes f b) (seq 0 pages)).

Definition empty (n : nat) : bytes := replicate n FLASH_EMPTY_BYTE.

Lemma page_len_pos : (0 < page_len cfg)%nat.
Proof. rewrite (geo_page geo). pose proof (geo_io geo). lia. Qed.

Lemma page_bytes_length f b j : length (page_bytes f b j) = page_len cfg.
Proof.
  unfold page_bytes. destruct (page_length lib (fs_mtd cfg) f b j) as [H1 H2]. rewrite length_app, H1, (geo_page geo).
  by destruct (write_oob cfg); rewrite ?H2.
Qed.

Lemma pages_length f b i n : length (concat (map (page_bytes f b) (seq i n))) = (n * page_len cfg)%nat.
Proof. revert i. induction n as [|n IH]; intros i; [done|]. cbn. rewrite length_app, page_bytes_length, IH. lia. Qed.

Lemma block_bytes_length f b : length (block_bytes f b) = filebuf_size cfg.
Proof. unfold block_bytes. by rewrite pages_length, (geo_buf geo). Qed.

(** Pages [k] to [k + m] in a block. *)
Lemma block_split f b k m :
  (k + m <= pages)%nat ->
  block_bytes f b = concat (map (page_bytes f b) (seq 0 k)) ++ concat (map (page_bytes f b) (seq k m)) ++
    concat (map (page_bytes f b) (seq (k + m) (pages - (k + m)))).
Proof.
  intros H. unfold block_bytes. replace pages with (k + (m + (pages - (k + m))))%nat at 1 by lia.
  by rewrite !seq_app, !map_app, !concat_app, Nat.add_0_l.
Qed.

Lemma pages_ext f f' b i n :
  (forall j, (i <= j < i + n)%nat -> page f' b j = page f b j) ->
  concat (map (page_bytes f' b) (seq i n)) = concat (map (page_bytes f b) (seq i n)).
Proof.
  revert i. induction n as [|n IH]; intros i H; [done|]. cbn. f_equal; [unfold page_bytes; by rewrite H by lia|].
  apply IH. intros j Hj. apply H. lia.
Qed.

Lemma block_ext f f' b : page f' b = page f b -> block_bytes f' b = block_bytes f b.
Proof. intros H. apply pages_ext. intros j _. by rewrite H. Qed.

(** Slices of an array, one after the other. *)
Lemma slices_concat n m d : length d = (m * n)%nat -> concat (map (fun j => slice (j * n) n d) (seq 0 m)) = d.
Proof.
  revert d. induction m as [|m IH]; intros d Hd; [by destruct d|]. cbn [seq map concat]. rewrite <- seq_shift, map_map.
  transitivity (take n d ++ drop n d); [|apply take_drop]. f_equal.
  transitivity (concat (map (fun j => slice (j * n) n (drop n d)) (seq 0 m))); [|apply IH; rewrite length_drop; lia].
  f_equal. apply map_ext. intros j. unfold slice.
  by rewrite drop_drop.
Qed.

Lemma map_seq_shift {A} (g : nat -> A) k m : map g (seq k m) = map (fun j => g (k + j)%nat) (seq 0 m).
Proof.
  revert k. induction m as [|m IH]; intros k; [done|]. cbn. rewrite Nat.add_0_r. f_equal.
  rewrite IH, <- seq_shift, map_map. apply map_ext. intros j. f_equal. lia.
Qed.

(** Empty pages in a block that is empty from page [k] on. *)
Lemma empty_page f b k s j :
  block_bytes f b = s ++ empty (filebuf_size cfg - length s) -> length s = (k * page_len cfg)%nat -> (k <= j < pages)%nat ->
  page f b j = (empty io, empty oobs) \/ write_oob cfg = false /\ (page f b j).1 = empty io.
Proof.
  intros Hb Hs Hj. rewrite (block_split f b j 1) in Hb by lia. cbn [seq map concat] in Hb. rewrite app_nil_r in Hb.
  assert (page_bytes f b j = empty (page_len cfg)) as Hp.
  { apply (f_equal (fun l => take (page_len cfg) (drop (j * page_len cfg) l))) in Hb.
    rewrite drop_app_length' in Hb by (by rewrite pages_length). rewrite take_app_length' in Hb by (by rewrite page_bytes_length).
    rewrite Hb, drop_app_ge by (rewrite Hs; nia). unfold empty. rewrite drop_replicate, take_replicate. f_equal.
    rewrite (geo_buf geo), Hs. nia. }
  destruct (page_length lib (fs_mtd cfg) f b j) as [H1 H2]. unfold page_bytes in Hp. rewrite (geo_page geo) in Hp.
  destruct (write_oob cfg) eqn:Ew.
  - left. unfold empty in Hp. rewrite replicate_add in Hp. apply app_inj_1 in Hp as [Ha Hb']; [|by rewrite length_replicate].
    destruct (page f b j). by simplify_eq/=.
  - right. split; [done|]. by rewrite app_nil_r, Nat.add_0_r in Hp.
Qed.

(** The data that belongs to [m] pages, or to one page with its spare bytes. *)
Definition page_data (m : nat) (d o : bytes) : Prop :=
  length d = (m * io)%nat /\ if write_oob cfg then m = 1%nat /\ length o = oobs else o = [].

Lemma page_data_oob m d o : page_data m d o -> o = [] \/ length o = oobs.
Proof. intros [_ Ho]. destruct (write_oob cfg); [right; by destruct Ho|by left]. Qed.

Lemma page_data_length m d o : page_data m d o -> length (d ++ o) = (m * page_len cfg)%nat.
Proof. intros [Hd Ho]. rewrite length_app, (geo_page geo). destruct (write_oob cfg); [destruct Ho as [-> ?]|subst o; cbn]; lia. Qed.

Lemma new_pages f' b k m d o :
  page_data m d o ->
  (forall j, (j < m)%nat -> (page f' b (k + j)).1 = slice (j * io) io d) -> (o <> [] -> (page f' b k).2 = o) ->
  concat (map (page_bytes f' b) (seq k m)) = d ++ o.
Proof.
  intros [Hd Ho] H1 H2. destruct (write_oob cfg) eqn:Ew.
  - destruct Ho as [-> Ho]. cbn. specialize (H1 0%nat ltac:(lia)). rewrite Nat.add_0_r in H1. unfold page_bytes.
    rewrite app_nil_r, Ew, H1, H2; [by rewrite slice_all by lia|]. intros ->. pose proof (geo_oob geo Ew). cbn in Ho. lia.
  - subst o. rewrite app_nil_r, map_seq_shift. transitivity (concat (map (fun j => slice (j * io) io d) (seq 0 m)));
      [|by apply slices_concat]. f_equal. apply map_ext_in. intros j Hj%in_seq.
    unfold page_bytes. rewrite Ew, app_nil_r. apply H1. lia.
Qed.

Lemma block_parts f b k m s :
  (k + m <= pages)%nat -> block_bytes f b = s ++ empty (filebuf_size cfg - length s) -> length s = (k * page_len cfg)%nat ->
  concat (map (page_bytes f b) (seq 0 k)) = s /\
  concat (map (page_bytes f b) (seq (k + m) (pages - (k + m)))) = empty ((pages - (k + m)) * page_len cfg).
Proof.
  intros Hk Hb Hs. rewrite (block_split f b k m Hk) in Hb. apply app_inj_1 in Hb as [H1 H2]; [|by rewrite pages_length].
  split; [done|]. apply (f_equal (drop (m * page_len cfg))) in H2. rewrite drop_app_length' in H2 by (by rewrite pages_length).
  rewrite H2. unfold empty. rewrite drop_replicate. f_equal. rewrite (geo_buf geo), Hs. nia.
Qed.

Lemma block_write f f' b k m s d o raw :
  mtd_write lib f b (k * io) d o raw = (None, f') -> page_data m d o -> (k + m <= pages)%nat -> (0 < m)%nat ->
  block_bytes f b = s ++ empty (filebuf_size cfg - length s) -> length s = (k * page_len cfg)%nat ->
  block_bytes f' b = (s ++ d ++ o) ++ empty (filebuf_size cfg - length (s ++ d ++ o)).
Proof.
  intros Hw Hd Hk Hm Hb Hs. destruct (write_spec lib (fs_mtd cfg) _ _ _ m _ _ _ _ _ Hw Hm (proj1 Hd) (page_data_oob _ _ _ Hd)) as (_ & _ & Hok).
  destruct (Hok eq_refl) as (H1 & H2 & H3).
  { intros j Hj. destruct (empty_page f b k s j Hb Hs ltac:(lia)) as [->|[_ ?]]; done. }
  { intros Ho. destruct (empty_page f b k s k Hb Hs ltac:(lia)) as [->|[Ew _]]; [done|].
    destruct Hd as [_ Hd]. rewrite Ew in Hd. done. }
  destruct (block_parts f b k m s Hk Hb Hs) as [P1 P2].
  rewrite (block_split f' b k m Hk), (pages_ext f f' b 0 k), P1, (new_pages f' b k m d o Hd H1 H2),
    (pages_ext f f' b (k + m)), P2, <- !app_assoc.
  - do 3 f_equal. unfold empty. f_equal. rewrite app_assoc, !length_app.
    pose proof (page_data_length m d o Hd) as Hl. rewrite length_app in Hl. rewrite (geo_buf geo), Hs. nia.
  - intros j Hj. apply H3. lia.
  - intros j Hj. apply H3. lia.
Qed.

(** Writing empty data is not needed. *)
Lemma block_write_empty f b k m s d o :
  page_data m d o -> d ++ o = empty (length (d ++ o)) -> (k + m <= pages)%nat ->
  block_bytes f b = s ++ empty (filebuf_size cfg - length s) -> length s = (k * page_len cfg)%nat ->
  block_bytes f b = (s ++ d ++ o) ++ empty (filebuf_size cfg - length (s ++ d ++ o)).
Proof.
  intros Hd He Hk Hb Hs. rewrite Hb, <- app_assoc. f_equal. pose proof (page_data_length m d o Hd) as Hl.
  rewrite (length_app s), Hl, Hs, (geo_buf geo). rewrite He, Hl. unfold empty. rewrite <- replicate_add. f_equal. nia.
Qed.

(** ** A new block *)

Context (sup : supports lib).

Definition same (f f' : F) (b : nat) : Prop := page f' b = page f b /\ bad f' b = bad f b.

Lemma same_trans f1 f2 f3 b : same f1 f2 b -> same f2 f3 b -> same f1 f3 b.
Proof. intros [H1 H2] [H3 H4]. split; congruence. Qed.

(** An operation on the block [eb p]; the buffer is as it was. *)
Record touched (p p' : priv) : Prop := {
  t_imglen : imglen p' = imglen p;
  t_filebuf : filebuf p' = filebuf p;
  t_off : writebuf_offset p' = writebuf_offset p;
  t_first : first_run p' = first_run p;
  t_check : check_bad p' = check_bad p;
  t_eb : eb p' = eb p;
  t_same : forall b, b <> eb p -> same (flash p) (flash p') b;
}.

Lemma touched_refl p : touched p p.
Proof. by split. Qed.

Lemma touched_trans p1 p2 p3 : touched p1 p2 -> touched p2 p3 -> touched p1 p3.
Proof.
  intros [] []. split; try congruence. intros b Hb. eapply same_trans; [by apply t_same0|]. apply t_same1. congruence.
Qed.

Lemma pages_empty f b i n :
  (forall j, page f b j = (empty io, empty oobs)) -> concat (map (page_bytes f b) (seq i n)) = empty (n * page_len cfg).
Proof.
  intros H. revert i. induction n as [|n IH]; intros i; [done|]. cbn [seq map concat]. rewrite IH. unfold page_bytes. rewrite H.
  unfold empty. cbn [fst snd Nat.mul]. rewrite replicate_add, (geo_page geo). f_equal.
  destruct (write_oob cfg); [by rewrite replicate_add|by rewrite Nat.add_0_r, app_nil_r].
Qed.

Lemma erase_block_touched p ret p' :
  erase_block lib p = (ret, p') ->
  touched p p' /\ bad (flash p') (eb p) = bad (flash p) (eb p) /\ ret <= 0 /\
  (ret = 0 -> block_bytes (flash p') (eb p) = empty (filebuf_size cfg)).
Proof.
  unfold erase_block. destruct (mtd_erase lib (flash p) (eb p)) as [err f] eqn:E.
  destruct (erase_spec lib (fs_mtd cfg) _ _ _ _ E) as (H1 & H2 & H3).
  assert (touched p (set_flash f p)) as Ht by (split; try done; intros b Hb; by apply H1).
  destruct err as [e|].
  - pose proof (erase_fails lib sup (flash p) (eb p) e ltac:(by rewrite E)) as [Hp ->]. intros [= <- <-].
    split_and!; [done|done|lia|lia].
  - intros [= <- <-]. split_and!; [done|done|done|]. intros _. cbn. unfold block_bytes.
    rewrite pages_empty, (geo_buf geo); [done|by apply H3].
Qed.

Lemma mark_bad_block_touched p ret p' :
  mark_bad_block lib p = (ret, p') ->
  touched p p' /\ ret <= 0 /\ (ret = 0 -> bad (flash p') (eb p) = true).
Proof.
  unfold mark_bad_block. destruct (mtd_mark_bad lib (flash p) (eb p)) as [err f] eqn:E.
  destruct (mark_bad_spec lib (fs_mtd cfg) _ _ _ _ E) as (H1 & H2).
  assert (touched p (set_flash f p)) as Ht by (split; try done; intros b Hb; by apply H1).
  destruct err as [e|].
  - pose proof (mark_fails lib sup (flash p) (eb p) e ltac:(by rewrite E)) as [Hp ->]. intros [= <- <-].
    split_and!; [done|lia|lia].
  - intros [= <- <-]. split_and!; [done|done|]. intros _. by apply H2.
Qed.

(** The block of [p] is empty and not bad, or it is marked as bad, or there was an error. *)
Definition prepared (ret : Z) (p : priv) : Prop :=
  (ret = 0 -> bad (flash p) (eb p) = false /\ block_bytes (flash p) (eb p) = empty (filebuf_size cfg)) /\
  (0 < ret -> bad (flash p) (eb p) = true).

Lemma erase_or_mark_touched p ret p' :
  bad (flash p) (eb p) = false -> erase_or_mark lib p = (ret, p') -> touched p p' /\ prepared ret p'.
Proof.
  intros Hb. unfold erase_or_mark. destruct (erase_block lib p) as [r1 p1] eqn:E1.
  destruct (erase_block_touched p r1 p1 E1) as (T1 & B1 & R1 & H1). pose proof (t_eb _ _ T1) as Heb.
  destruct (Z.eqb_spec r1 0) as [->|Hr].
  { intros [= <- <-]. split; [done|]. split; [|done]. intros _. rewrite Heb, B1. auto. }
  destruct (Z.eqb_spec r1 (- EIO)).
  2: { intros [= <- <-]. split; [done|]. split; [done|lia]. }
  destruct (mark_bad_block lib p1) as [r2 p2] eqn:E2. destruct (mark_bad_block_touched p1 r2 p2 E2) as (T2 & R2 & H2).
  pose proof (t_eb _ _ T2) as Heb2. pose proof (touched_trans _ _ _ T1 T2).
  destruct (Z.eqb_spec r2 0) as [->|]; intros [= <- <-]; (split; [done|]); (split; [lia|]); intros ?; [|lia].
  rewrite Heb2. auto.
Qed.

Lemma test_locked_touched p r p' :
  test_locked lib p = (r, p') -> touched p p' /\ flash p' = flash p /\ (forall e, r = Some e -> e < 0).
Proof.
  unfold test_locked. destruct (check_locked p); [|by intros [= <- <-]].
  destruct (mtd_is_locked lib (flash p) (eb p)) as [e|l] eqn:E; [|by intros [= <- <-]].
  pose proof (is_locked_fails lib sup _ _ _ E). destruct (is_not_supported e); intros [= <- <-]; split_and!; try done.
  intros ? [= <-]. lia.
Qed.

Lemma unlock_block_touched p r p' :
  unlock_block lib p = (r, p') ->
  touched p p' /\ page (flash p') = page (flash p) /\ bad (flash p') = bad (flash p) /\ (forall e, r = Some e -> e < 0).
Proof.
  unfold unlock_block. destruct (do_unlock p); [|by intros [= <- <-]].
  destruct (mtd_unlock lib (flash p) (eb p)) as [err f] eqn:E. destruct (unlock_spec lib (fs_mtd cfg) _ _ _ _ E) as [H1 H2].
  assert (forall q, flash q = f -> forall b, same (flash p) (flash q) b) as Hs by (intros q <- b; split; congruence).
  destruct err as [e|]; [|intros [= <- <-]; split_and!; try done; split; try done; intros; by apply Hs].
  pose proof (unlock_fails lib sup (flash p) (eb p) e ltac:(by rewrite E)).
  destruct (is_not_supported e); intros [= <- <-]; (split_and!; [split; try done; intros; by apply Hs|done|done|]); [done|].
  intros ? [= <-]. lia.
Qed.

Lemma read_empty p readout :
  write_oob cfg = false -> mtd_read lib (flash p) (eb p) = inr readout ->
  buffer_check_pattern readout FLASH_EMPTY_BYTE = true -> block_bytes (flash p) (eb p) = empty (filebuf_size cfg).
Proof.
  intros Ew E H. apply buffer_check_replicate in H. pose proof (read_spec lib (fs_mtd cfg) _ _ _ E) as Hr.
  assert (block_bytes (flash p) (eb p) = readout) as Hb.
  { rewrite Hr. unfold block_bytes. f_equal. apply map_ext. intros j. unfold page_bytes. by rewrite Ew, app_nil_r. }
  rewrite <- (block_bytes_length (flash p) (eb p)), Hb. done.
Qed.

(** A bad block is not touched; otherwise the block is prepared. *)
Lemma process_touched p ret p' :
  check_bad p = true -> process_new_erase_block lib cfg p = (ret, p') ->
  touched p p' /\ prepared ret p' /\ (bad (flash p) (eb p) = true -> flash p' = flash p).
Proof.
  intros Hc. unfold process_new_erase_block, test_bad. rewrite Hc.
  destruct (mtd_is_bad lib (flash p) (eb p)) as [e|v] eqn:Eb.
  { pose proof (is_bad_fails lib sup _ _ _ Eb) as [He ->]. intros [= <- <-]. split; [apply touched_refl|].
    split; [split; lia|done]. }
  pose proof (is_bad_spec lib (fs_mtd cfg) _ _ _ Eb) as ->.
  destruct (bad (flash p) (eb p)) eqn:Hb.
  { intros [= <- <-]. split; [apply touched_refl|]. split; [split; [lia|done]|done]. }
  destruct (test_locked lib p) as [r1 p1] eqn:E1. destruct (test_locked_touched p r1 p1 E1) as (T1 & F1 & R1).
  destruct r1 as [r1|].
  { specialize (R1 _ eq_refl). intros [= <- <-]. split; [done|]. split; [split; lia|done]. }
  destruct (unlock_block lib p1) as [r2 p2] eqn:E2. destruct (unlock_block_touched p1 r2 p2 E2) as (T2 & P2 & B2 & R2).
  pose proof (touched_trans _ _ _ T1 T2) as T. destruct r2 as [r2|].
  { specialize (R2 _ eq_refl). intros [= <- <-]. split; [done|]. split; [split; lia|done]. }
  assert (bad (flash p2) (eb p2) = false) as Hb2 by (rewrite B2, F1, (t_eb _ _ T); done).
  assert (forall r q, erase_or_mark lib p2 = (r, q) -> touched p q /\ prepared r q /\ (false = true -> flash q = flash p)) as Hem.
  { intros r q E3. destruct (erase_or_mark_touched p2 r q Hb2 E3) as [T3 H3]. split; [by eapply touched_trans|done]. }
  destruct (is_nand cfg) eqn:En; [apply Hem|].
  destruct (mtd_read lib (flash p2) (eb p2)) as [e|readout] eqn:E3.
  { pose proof (read_fails lib sup _ _ _ E3). intros [= <- <-]. split; [done|]. split; [split; lia|done]. }
  destruct (buffer_check_pattern readout FLASH_EMPTY_BYTE) eqn:E4; [|apply Hem].
  intros [= <- <-]. split; [done|]. split; [|done]. split; [|lia]. intros _. split; [done|].
  apply (read_empty p2 readout); [|done|done]. destruct (write_oob cfg) eqn:Ew; [|done]. by destruct (geo_oob geo Ew); congruence.
Qed.

(** Blocks from [eb p] to [eb p'] were passed: they are bad. *)
Record passed (p p' : priv) : Prop := {
  ps_imglen : imglen p' = imglen p;
  ps_filebuf : filebuf p' = filebuf p;
  ps_off : writebuf_offset p' = writebuf_offset p;
  ps_first : first_run p' = first_run p;
  ps_check : check_bad p' = true;
  ps_eb : (eb p <= eb p')%nat;
  ps_bad : forall b, (eb p <= b < eb p')%nat -> bad (flash p') b = true;
  ps_same : forall b, (b < eb p \/ eb p' < b)%nat \/ bad (flash p) b = true -> same (flash p) (flash p') b;
}.

Lemma prepare_loop_passed n p ret p' :
  check_bad p = true -> (eb p + n = eb_end cfg)%nat -> prepare_loop lib cfg n p = (ret, p') ->
  passed p p' /\ (eb p' <= eb_end cfg)%nat /\
  (ret = 0 -> (eb p' < eb_end cfg)%nat /\ bad (flash p') (eb p') = false /\
     block_bytes (flash p') (eb p') = empty (filebuf_size cfg)).
Proof.
  revert p. induction n as [|n IH]; intros p Hc Hn; cbn [prepare_loop].
  { intros [= <- <-]. split; [by split; try lia|]. split; [lia|done]. }
  destruct (process_new_erase_block lib cfg p) as [r1 p1] eqn:E1.
  destruct (process_touched p r1 p1 Hc E1) as (T & [H0 H1] & Hbad). pose proof (t_eb _ _ T) as Heb.
  assert (forall b, b <> eb p \/ bad (flash p) b = true -> same (flash p) (flash p1) b) as Hs.
  { intros b [Hb|Hb]; [by apply (t_same _ _ T)|]. destruct (decide (b = eb p)) as [->|Hne]; [|by apply (t_same _ _ T)].
    by rewrite Hbad. }
  assert (passed p p1) as Hp.
  { destruct T. split; try congruence; [lia|intros; lia|]. intros b Hb. apply Hs. destruct Hb; [left; lia|by right]. }
  destruct (Z.ltb_spec r1 0); [intros [= <- <-]; split; [done|]; split; [lia|lia]|].
  destruct (Z.eqb_spec r1 0) as [->|Hr].
  { intros [= <- <-]. split; [done|]. split; [lia|]. intros _. split; [lia|]. by apply H0. }
  intros E. destruct (IH (set_place (S (eb p1)) (writebuf_offset p1) p1)) as ([] & Hle & Hok);
    [cbn; rewrite (ps_check _ _ Hp); done|cbn; lia|done|].
  cbn in *. split; [|done]. split; try first [congruence|destruct Hp; congruence|lia].
  - intros b Hb. destruct (decide (b = eb p)) as [->|Hne]; [|apply ps_bad0; lia].
    destruct (ps_same0 (eb p)) as [_ ->]; [left; lia|]. rewrite <- Heb. apply H1. lia.
  - intros b Hb. destruct (decide (b = eb p)) as [->|Hne].
    + destruct Hb as [Hb|Hb]; [lia|]. eapply same_trans; [by apply Hs; right|]. apply ps_same0. left. lia.
    + assert (same (flash p) (flash p1) b) as Hsb by (apply Hs; by left). eapply same_trans; [done|]. apply ps_same0.
      destruct Hb as [Hb|Hb]; [left; lia|]. right. destruct Hsb as [_ ->]. done.
Qed.

(** ** The image on the flash *)

Context (f0 : F) (start : nat) (len0 : Z).

Definition good (f : F) (b : nat) : Prop := bad f b = false.
#[local] Instance good_dec f b : Decision (good f b) := decide (bad f b = false).

(** [k] pages of the buffer are in the block of [p]. *)
Definition in_block (p : priv) (k : nat) : Prop :=
  (eb p < eb_end cfg)%nat /\ good (flash p) (eb p) /\
  block_bytes (flash p) (eb p) = take (k * page_len cfg) (filebuf p) ++ empty (filebuf_size cfg - k * page_len cfg).

(** [got] was received. The full blocks [u] and the buffer hold it, in order, with a padding after the last byte; [u] are
    the blocks up to the current one that are not bad; all others are as they were. *)
Record inv (got : bytes) (u : list (nat * bytes)) (p : priv) : Prop := {
  inv_len : imglen p = len0 - Z.of_nat (length got);
  inv_stream : exists n, concat u.*2 ++ filebuf p = got ++ empty n /\ (n < page_len cfg)%nat /\ (n <> 0%nat -> imglen p = 0);
  inv_pad : imglen p = 0 -> (length (filebuf p) mod page_len cfg = 0)%nat;
  inv_buf : (length (filebuf p) <= filebuf_size cfg)%nat;
  inv_used : Forall (fun bs => length bs.2 = filebuf_size cfg /\ block_bytes (flash p) bs.1 = bs.2) u;
  inv_blocks : u.*1 = filter (good (flash p)) (seq start (eb p - start));
  inv_eb : (start <= eb p <= eb_end cfg)%nat;
  inv_check : check_bad p = true;
  inv_same : forall b, (b < start \/ eb p < b)%nat \/ bad f0 b = true -> same f0 (flash p) b;
}.

(** The place in the block. *)
Definition at_page (p : priv) (k : nat) : Prop :=
  writebuf_offset p = (k * io)%nat /\ (k < pages)%nat /\ (k * page_len cfg <= length (filebuf p))%nat /\
  (k <> 0%nat -> in_block p k) /\ (k = 0%nat -> same f0 (flash p) (eb p)).

Lemma offset_page p k : at_page p k -> (writebuf_offset p / io * page_len cfg = k * page_len cfg)%nat.
Proof. intros (-> & _). rewrite Nat.div_mul; [done|]. pose proof (geo_io geo). lia. Qed.

Lemma ROUND_UP_le n m s : (0 < s)%nat -> (n <= m * s)%nat -> (ROUND_UP n s <= m * s)%nat.
Proof.
  intros Hs Hn. destruct (ROUND_UP_spec n s Hs) as [Hr Hm]. apply Nat.Div0.mod_divides in Hm as [c Hc]. rewrite Hc in *.
  destruct (Nat.le_gt_cases c m); nia.
Qed.

Lemma ROUND_UP_id n s : (0 < s)%nat -> (n mod s = 0)%nat -> ROUND_UP n s = n.
Proof.
  intros Hs Hm. apply Nat.Div0.mod_divides in Hm as [c ->]. destruct (ROUND_UP_spec (s * c) s Hs) as [Hr Hm].
  apply Nat.Div0.mod_divides in Hm as [d Hd]. rewrite Hd in *.
  destruct (Nat.lt_trichotomy d c) as [?|[->|?]]; nia.
Qed.

(** The buffer after reading. *)
Definition filled (p : priv) (buf : bytes) : priv :=
  let to_read := Nat.min (length buf) (filebuf_size cfg - length (filebuf p)) in
  let fb := filebuf p ++ take to_read buf in
  let len := imglen p - Z.of_nat to_read in
  set_buf len (if len =? 0 then fb ++ empty (ROUND_UP (length fb) (page_len cfg) - length fb) else fb) p.

Lemma filled_inv got u p k buf to_read :
  inv got u p -> at_page p k -> Z.of_nat (length buf) <= imglen p ->
  to_read = Nat.min (length buf) (filebuf_size cfg - length (filebuf p)) ->
  inv (got ++ take to_read buf) u (filled p buf) /\ at_page (filled p buf) k /\
  ((to_read < length buf)%nat -> length (filebuf (filled p buf)) = filebuf_size cfg).
Proof.
  intros [Hlen (n & Hst & Hn & Hn0) Hpad Hbuf Hu Hbl Heb Hck Hs] (Ho & Hk & Hkl & Hin & H0) Hb Hr. pose proof page_len_pos as Hpl.
  unfold filled. rewrite <- Hr. set (fb := filebuf p ++ take to_read buf). set (len := imglen p - Z.of_nat to_read).
  assert (length (take to_read buf) = to_read) as Ht by (rewrite length_take; lia).
  assert (length fb = length (filebuf p) + to_read)%nat as Hfb by (unfold fb; rewrite length_app; lia).
  destruct (ROUND_UP_spec (length fb) (page_len cfg) Hpl) as [Hru Hrm].
  assert (ROUND_UP (length fb) (page_len cfg) <= filebuf_size cfg)%nat as Hrl.
  { rewrite (geo_buf geo). apply ROUND_UP_le; [done|]. rewrite <- (geo_buf geo). lia. }
  assert (exists e, (if len =? 0 then fb ++ empty (ROUND_UP (length fb) (page_len cfg) - length fb) else fb) = fb ++ empty e /\
    (e <> 0%nat -> len = 0) /\ (len = 0 -> (length fb + e = ROUND_UP (length fb) (page_len cfg))%nat) /\
    (length fb + e <= filebuf_size cfg)%nat /\ (e < page_len cfg)%nat) as (e & -> & He0 & He & Hle & Hep).
  { destruct (Z.eqb_spec len 0); [eexists; split; [done|]; split_and!; lia|].
    exists 0%nat. rewrite app_nil_r. split_and!; try done; lia. }
  assert (length (empty e) = e) as Hee by apply length_replicate.
  split; [split; cbn [imglen filebuf flash eb check_bad set_buf]; try done|split; [split_and!; cbn [writebuf_offset filebuf set_buf]|]].
  - rewrite length_app, Ht. unfold len. lia.
  - destruct (decide (n = 0%nat)) as [->|Hne].
    + exists e. split; [|by split]. unfold fb. rewrite !app_assoc, Hst. cbn. by rewrite app_nil_r.
    + specialize (Hn0 Hne). assert (to_read = 0%nat) as Hz by lia. assert (take to_read buf = []) as Hnil by (by rewrite Hz).
      exists n. assert (fb = filebuf p) as Efb by (unfold fb; by rewrite Hnil, app_nil_r).
      assert (len = 0) as Hl0 by (unfold len; lia). specialize (He Hl0). rewrite Efb, ROUND_UP_id in He by auto.
      assert (e = 0%nat) as -> by lia. rewrite Efb, Hnil, !app_nil_r. by split_and!.
  - intros Hz. rewrite length_app, Hee, (He Hz). done.
  - rewrite length_app. lia.
  - rewrite Ho. done.
  - done.
  - rewrite length_app. lia.
  - intros Hk0. destruct (Hin Hk0) as (? & ? & Hbb). split_and!; [done|done|]. cbn. rewrite Hbb. f_equal. unfold fb.
    rewrite <- app_assoc, take_app_le by lia. done.
  - done.
  - intros Hlt. cbn. rewrite length_app, Hee. lia.
Qed.

(** What is picked from the buffer: less than a page is left, or the next pages. *)
Definition picked (d : option (bytes * bytes)) (fb : bytes) (k : nat) : Prop :=
  match d with
  | None => (length fb < k * page_len cfg + page_len cfg)%nat
  | Some (wbuf, oob) => exists m, page_data m wbuf oob /\ (0 < m)%nat /\ ((k + m) * page_len cfg <= length fb)%nat /\
      wbuf ++ oob = slice (k * page_len cfg) (m * page_len cfg) fb
  end.

Lemma read_data_filled p k buf d rest p' :
  at_page p k -> read_data cfg p buf = (d, rest, p') ->
  p' = filled p buf /\ rest = drop (Nat.min (length buf) (filebuf_size cfg - length (filebuf p))) buf /\
  ((k * page_len cfg <= length (filebuf p'))%nat -> picked d (filebuf p') k).
Proof.
  intros Hat. unfold read_data. rewrite (offset_page p k Hat). unfold filled, empty.
  set (fb := if _ =? 0 then _ else _). cbn [imglen filebuf flash set_buf].
  pose proof (geo_io geo) as Hio. pose proof (geo_page geo) as Hpl. pose proof page_len_pos.
  destruct (is_nand cfg) eqn:En.
  - destruct (Nat.ltb_spec (length (drop (k * page_len cfg) fb)) (page_len cfg)) as [Hlt|Hge]; intros [= <- <- <-];
      (split_and!; [done|done|]); cbn [filebuf set_buf picked]; intros Hk; rewrite length_drop in *; [lia|].
    exists 1%nat. unfold page_data, slice. set (w := drop _ fb). assert (page_len cfg <= length w)%nat by (unfold w; rewrite length_drop; lia).
    destruct (write_oob cfg).
    + rewrite !length_take, length_drop, Hpl. split_and!; [lia|lia|lia|lia|lia|].
      rewrite take_take_drop. f_equal. lia.
    + rewrite !length_take, Hpl, app_nil_r. split_and!; [lia|done|lia|lia|]. f_equal. lia.
  - destruct (write_oob cfg) eqn:Ew; [destruct (geo_oob geo Ew); congruence|].
    pose proof (ROUND_DOWN_spec (length (drop (k * page_len cfg) fb)) io Hio) as Hrd.
    destruct (Nat.eqb_spec (ROUND_DOWN (length (drop (k * page_len cfg) fb)) io) 0) as [Hz|Hz]; intros [= <- <- <-];
      (split_and!; [done|done|]); cbn [filebuf set_buf picked]; intros Hk; rewrite length_drop in *; [lia|].
    unfold ROUND_DOWN in *. set (m := ((length fb - k * page_len cfg) / io)%nat) in *. rewrite Nat.add_0_r in Hpl.
    exists m. unfold page_data, slice. rewrite Ew, length_take, length_drop, app_nil_r, Hpl in *. split_and!; [lia|done| |lia|done].
    destruct m; lia.
Qed.

Lemma picked_pages d o fb k :
  picked (Some (d, o)) fb k -> (length fb <= filebuf_size cfg)%nat ->
  exists m, page_data m d o /\ (0 < m)%nat /\ (k + m <= pages)%nat /\ ((k + m) * page_len cfg <= length fb)%nat /\
    take (k * page_len cfg) fb ++ d ++ o = take ((k + m) * page_len cfg) fb.
Proof.
  intros (m & Hd & Hm & Hkm & E) Hl. exists m. pose proof page_len_pos. rewrite (geo_buf geo) in Hl. split_and!; try done.
  - destruct (Nat.le_gt_cases (k + m) pages); [done|nia].
  - rewrite E. unfold slice. rewrite take_take_drop. f_equal. lia.
Qed.

Lemma filter_agree (Q R : nat -> Prop) `{!forall b, Decision (Q b)} `{!forall b, Decision (R b)} l :
  Forall (fun b => Q b <-> R b) l -> filter Q l = filter R l.
Proof.
  induction 1 as [|b l Hb _ IH]; [done|]. destruct (decide (Q b)).
  - rewrite !filter_cons_True by tauto. by rewrite IH.
  - rewrite !filter_cons_False by tauto. done.
Qed.

(** The full blocks are not touched any more. *)
Lemma used_kept u f f' e n :
  u.*1 = filter (good f) (seq start n) -> (start + n <= e)%nat -> (forall b, (b < e)%nat -> same f f' b) ->
  Forall (fun bs => length bs.2 = filebuf_size cfg /\ block_bytes f bs.1 = bs.2) u ->
  Forall (fun bs => length bs.2 = filebuf_size cfg /\ block_bytes f' bs.1 = bs.2) u /\ u.*1 = filter (good f') (seq start n).
Proof.
  intros Hb He Hs Hu. split.
  - rewrite Forall_forall in *. intros [b s] Hin. destruct (Hu _ Hin) as [H1 H2]. split; [done|]. cbn in *. rewrite <- H2.
    apply block_ext, Hs. assert (b ∈ u.*1) as Hb' by (apply list_elem_of_fmap; by exists (b, s)).
    rewrite Hb in Hb'. apply list_elem_of_filter in Hb' as [_ Hb']. apply elem_of_seq in Hb'. lia.
  - rewrite Hb. apply filter_agree, Forall_forall. intros b Hin%elem_of_seq. unfold good. by rewrite (proj2 (Hs b ltac:(lia))).
Qed.

Lemma filter_none (Q : nat -> Prop) `{!forall b, Decision (Q b)} l : Forall (fun b => ~ Q b) l -> filter Q l = [].
Proof. induction 1 as [|b l Hb _ IH]; [done|]. by rewrite filter_cons_False. Qed.

Definition open_page (p : priv) (k : nat) : Prop :=
  writebuf_offset p = (k * io)%nat /\ (k < pages)%nat /\ (k * page_len cfg <= length (filebuf p))%nat /\ in_block p k.

(** A new block, if the last one is full. *)
Lemma prepare_inv got u p k p' :
  inv got u p -> at_page p k ->
  (if (writebuf_offset p =? 0)%nat then prepare_new_erase_block lib cfg p else (0, p)) = (0, p') ->
  inv got u p' /\ open_page p' k /\ imglen p' = imglen p /\ filebuf p' = filebuf p /\ (eb p <= eb p')%nat.
Proof.
  intros H (Ho & Hk & Hkl & Hin & H0) E. pose proof (geo_io geo). destruct (Nat.eqb_spec (writebuf_offset p) 0) as [Hz|Hz].
  2: { injection E as <-. assert (k <> 0%nat) as Hne by (intros ->; lia). specialize (Hin Hne). by split_and!. }
  assert (k = 0%nat) as -> by nia. destruct H as [Hlen Hst Hpad Hbuf Hu Hbl Heb Hck Hs].
  destruct (prepare_loop_passed (eb_end cfg - eb p) p 0 p' Hck ltac:(lia) E) as ([] & Hle & Hok). destruct (Hok eq_refl) as (Hlt & Hg & He).
  destruct (used_kept u (flash p) (flash p') (eb p) (eb p - start) Hbl ltac:(lia)) as [Hu' Hbl'];
    [intros b Hb; apply ps_same0; left; lia|done|].
  split; [split; try congruence|split_and!; try congruence; try lia].
  - rewrite ps_imglen0, ps_filebuf0. done.
  - rewrite ps_imglen0, ps_filebuf0. done.
  - rewrite Hbl'. replace (eb p' - start)%nat with ((eb p - start) + (eb p' - eb p))%nat by lia.
    rewrite seq_app, filter_app. rewrite (filter_none (good (flash p')) (seq (start + _) _)), app_nil_r; [done|].
    apply Forall_forall. intros b Hb%elem_of_seq. unfold good. rewrite ps_bad0 by lia. done.
  - lia.
  - intros b Hb. assert (same f0 (flash p) b) as Hsb by (apply Hs; destruct Hb; [left; lia|by right]).
    eapply same_trans; [done|]. apply ps_same0. destruct Hb as [Hb|Hb]; [left; lia|]. right. destruct Hsb as [_ ->]. done.
  - split_and!; [rewrite ps_off0; lia|done|rewrite ps_filebuf0; lia|]. split_and!; [done|done|].
    cbn. rewrite Nat.sub_0_r. done.
Qed.

Lemma touched_good got u p :
  inv got u p -> good (flash p) (eb p) -> bad f0 (eb p) = false.
Proof.
  intros H Hg. destruct (bad f0 (eb p)) eqn:E; [|done]. destruct (inv_same _ _ _ H (eb p)) as [_ Hb]; [by right|].
  unfold good in Hg. congruence.
Qed.

(** Operations on the current block keep the invariant. *)
Lemma inv_touched got u p p' : inv got u p -> good (flash p) (eb p) -> touched p p' -> inv got u p'.
Proof.
  intros H Hg T. pose proof (touched_good _ _ _ H Hg) as Hf0. destruct H as [Hlen Hst Hpad Hbuf Hu Hbl Heb Hck Hs]. destruct T.
  destruct (used_kept u (flash p) (flash p') (eb p) (eb p - start) Hbl ltac:(lia)) as [Hu' Hbl'];
    [intros b Hb; apply t_same0; lia|done|].
  split; try congruence; rewrite ?t_imglen0, ?t_filebuf0, ?t_eb0; try done.
  intros b Hb. eapply same_trans; [by apply Hs|]. apply t_same0. intros ->. destruct Hb; [lia|congruence].
Qed.

Lemma seq_next e : (start <= e)%nat -> seq start (S e - start) = seq start (e - start) ++ [e].
Proof. intros H. replace (S e - start)%nat with (S (e - start)) by lia. rewrite seq_S. do 2 f_equal. lia. Qed.

Lemma inv_next_bad got u p :
  inv got u p -> bad (flash p) (eb p) = true -> (eb p < eb_end cfg)%nat ->
  inv got u (set_place (S (eb p)) 0 p) /\ at_page (set_place (S (eb p)) 0 p) 0.
Proof.
  intros [Hlen Hst Hpad Hbuf Hu Hbl Heb Hck Hs] Hb Hlt. split.
  - split; try done; cbn.
    + rewrite seq_next, filter_app, <- Hbl by lia. rewrite filter_none, app_nil_r; [done|].
      apply Forall_singleton. unfold good. by rewrite Hb.
    + lia.
    + intros b Hb'. apply Hs. destruct Hb'; [left; lia|by right].
  - pose proof (geo_pages geo). split_and!; cbn; try lia. intros _. apply Hs. left. lia.
Qed.

Lemma inv_next_full got u p :
  inv got u p -> in_block p pages -> length (filebuf p) = filebuf_size cfg ->
  let p' := set_buf (imglen p) [] (set_place (S (eb p)) 0 p) in
  inv got (u ++ [(eb p, filebuf p)]) p' /\ at_page p' 0.
Proof.
  intros [Hlen (n & Hst & Hn) Hpad Hbuf Hu Hbl Heb Hck Hs] (Hlt & Hg & Hbb) Hfull p'. split.
  - split; try done; cbn.
    + exists n. split; [|done]. rewrite fmap_app, concat_app. cbn. by rewrite !app_nil_r.
    + intros _. apply Nat.Div0.mod_0_l.
    + lia.
    + apply Forall_app. split; [done|]. apply Forall_singleton. cbn. split; [done|].
      rewrite Hbb, <- (geo_buf geo), Nat.sub_diag, take_ge by lia. apply app_nil_r.
    + rewrite seq_next, filter_app, fmap_app, <- Hbl by lia. f_equal. cbn. by rewrite decide_True.
    + lia.
    + intros b Hb'. apply Hs. destruct Hb'; [left; lia|by right].
  - pose proof (geo_pages geo). split_and!; cbn; try lia. intros _. apply Hs. left. lia.
Qed.

(** Pages that were written, or are empty. *)
Lemma pages_in_block p k m d o err f :
  open_page p k -> page_data m d o -> (0 < m)%nat -> (k + m <= pages)%nat ->
  take (k * page_len cfg) (filebuf p) ++ d ++ o = take ((k + m) * page_len cfg) (filebuf p) ->
  ((k + m) * page_len cfg <= length (filebuf p))%nat ->
  (if buffer_check_pattern d FLASH_EMPTY_BYTE && (negb (write_oob cfg) || buffer_check_pattern o FLASH_EMPTY_BYTE)
   then (None, flash p) else mtd_write lib (flash p) (eb p) (writebuf_offset p) d o (no_ecc cfg)) = (err, f) ->
  touched p (set_flash f p) /\ bad f (eb p) = bad (flash p) (eb p) /\ (err = None -> in_block (set_flash f p) (k + m)).
Proof.
  intros (Ho & Hk & Hkl & Hlt & Hg & Hbb) Hd Hm Hkm Ed Hl.
  assert (length (take (k * page_len cfg) (filebuf p)) = k * page_len cfg)%nat as Hs by (rewrite length_take; lia).
  assert (length (take ((k + m) * page_len cfg) (filebuf p)) = (k + m) * page_len cfg)%nat as Hs' by (rewrite length_take; lia).
  rewrite <- Hs in Hbb at 2.
  destruct (_ && _) eqn:Ee.
  - intros [= <- <-]. split_and!; [by split|done|]. intros _. split_and!; [done|done|]. cbn.
    rewrite (block_write_empty (flash p) (eb p) k m _ d o Hd) with (2 := Hkm) (3 := Hbb) (4 := Hs); [by rewrite Ed, Hs'|].
    apply andb_true_iff in Ee as [E1 E2]. apply buffer_check_replicate in E1. unfold empty. rewrite length_app, replicate_add.
    rewrite E1 at 1. f_equal. destruct Hd as [_ Hd]. destruct (write_oob cfg); [|by subst o].
    by apply buffer_check_replicate in E2.
  - rewrite Ho. intros Hw. destruct (write_spec lib (fs_mtd cfg) _ _ _ m _ _ _ _ _ Hw Hm (proj1 Hd) (page_data_oob _ _ _ Hd)) as (H1 & H2 & _).
    split_and!; [split; try done; intros b Hb; by apply H1|done|]. intros ->. split_and!; [done|cbn; unfold good; congruence|].
    cbn. rewrite (block_write _ _ _ _ _ _ _ _ _ Hw Hd Hkm Hm Hbb Hs). by rewrite Ed, Hs'.
Qed.

(** One turn of writing: the place moves on in the block, or the block is full, or it turned out to be bad. *)
Inductive advances (p : priv) (u : list (nat * bytes)) (p' : priv) : list (nat * bytes) -> Prop :=
  | adv_page : eb p' = eb p -> (writebuf_offset p < writebuf_offset p')%nat -> advances p u p' u
  | adv_full bs : eb p' = S (eb p) -> advances p u p' (u ++ [bs])
  | adv_bad off d o e : eb p' = S (eb p) -> (mtd_write lib (flash p) (eb p) off d o (no_ecc cfg)).1 = Some e -> advances p u p' u.

Lemma write_data_inv got u p k d o p' :
  inv got u p -> open_page p k -> picked (Some (d, o)) (filebuf p) k ->
  write_data lib cfg d o p = (None, p') ->
  exists u' k', inv got u' p' /\ at_page p' k' /\ imglen p' = imglen p /\ advances p u p' u'.
Proof.
  intros H Hop Hpick. destruct (picked_pages d o _ k Hpick (inv_buf _ _ _ H)) as (m & Hd & Hm & Hkm & Hl & Ed).
  unfold write_data. destruct (if _ && _ then _ else _) as [err f] eqn:Ew.
  destruct (pages_in_block p k m d o err f Hop Hd Hm Hkm Ed Hl Ew) as (T & Hb & Hin).
  destruct Hop as (Ho & Hk & Hkl & Hlt & Hg & Hbb). pose proof (inv_touched _ _ _ _ H Hg T) as H1.
  set (p1 := set_flash f p) in *. destruct err as [e|].
  - destruct (Z.eqb_spec e EIO); [|done]. cbn [negb].
    destruct (erase_block lib p1) as [r2 p2] eqn:E2. destruct (erase_block_touched p1 r2 p2 E2) as (T2 & B2 & _).
    destruct (negb (r2 =? 0) && negb (r2 =? - EIO)); [done|]. destruct (mark_bad_block lib p2) as [r3 p3] eqn:E3.
    destruct (mark_bad_block_touched p2 r3 p3 E3) as (T3 & _ & H3). destruct (Z.eqb_spec r3 0) as [->|]; cbn [negb]; [|by intros [= ?]].
    intros [= <-]. pose proof (touched_trans _ _ _ T (touched_trans _ _ _ T2 T3)) as T'.
    assert (bad (flash p3) (eb p3) = true) as Hbad by (rewrite (t_eb _ _ T3); auto).
    destruct (inv_next_bad got u p3) as [H4 H5]; [by apply (inv_touched _ _ p)|done|rewrite (t_eb _ _ T'); done|].
    exists u, 0%nat. split_and!; [done|done|apply (t_imglen _ _ T')|]. destruct (_ && _) in Ew; [done|].
    eapply adv_bad; [cbn; by rewrite (t_eb _ _ T')|by rewrite Ew].
  - specialize (Hin eq_refl). pose proof (proj1 Hd) as Hdl. cbn [writebuf_offset p1 set_flash]. rewrite Ho, Hdl.
    pose proof (geo_io geo). pose proof page_len_pos. rewrite (geo_eb geo).
    destruct (Nat.eqb_spec (k * io + m * io) (pages * io)) as [He|He]; intros [= <-].
    + assert (k + m = pages)%nat as Hkm' by nia. rewrite Hkm' in Hin, Hl. pose proof (inv_buf _ _ _ H).
      destruct (inv_next_full got u p1 H1 Hin) as [H4 H5]; [cbn; rewrite (geo_buf geo) in *; lia|].
      eexists _, 0%nat. split_and!; [done|done|done|]. by apply adv_full.
    + exists u, (k + m)%nat. split_and!; [by destruct H1|split_and!; cbn; try done; try nia|done|apply adv_page; cbn; [done|nia]].
Qed.

Lemma write_data_error d o p r p' : write_data lib cfg d o p = (Some r, p') -> r < 0.
Proof.
  unfold write_data. destruct (if _ && _ then _ else _) as [err f] eqn:Ew.
  destruct err as [e|]; [|by destruct (_ =? _)%nat]. assert (0 < e) as He.
  { destruct (_ && _) in Ew; [done|]. apply (write_fails lib sup (flash p) (eb p) (writebuf_offset p) d o (no_ecc cfg)). by rewrite Ew. }
  destruct (negb (e =? EIO)); [intros [= <- <-]; lia|].
  destruct (erase_block lib _) as [r2 p2] eqn:E2. destruct (erase_block_touched _ _ _ E2) as (_ & _ & R2 & _).
  destruct (Z.eqb_spec r2 0); cbn [negb andb].
  2: { destruct (r2 =? - EIO); cbn [negb]; [|intros [= <- <-]; lia].
       destruct (mark_bad_block lib p2) as [r3 p3] eqn:E3. destruct (mark_bad_block_touched _ _ _ E3) as (_ & R3 & _).
       destruct (Z.eqb_spec r3 0); cbn [negb]; [done|intros [= <- <-]; lia]. }
  destruct (mark_bad_block lib p2) as [r3 p3] eqn:E3. destruct (mark_bad_block_touched _ _ _ E3) as (_ & R3 & _).
  destruct (Z.eqb_spec r3 0); cbn [negb]; [done|intros [= <- <-]; lia].
Qed.

Lemma prepare_loop_ret n p : (prepare_loop lib cfg n p).1 <= 0.
Proof.
  revert p. induction n as [|n IH]; intros p; cbn [prepare_loop]; [done|].
  destruct (process_new_erase_block lib cfg p) as [r1 p1]. destruct (Z.ltb_spec r1 0); [cbn; lia|].
  destruct (Z.eqb_spec r1 0); [done|]. apply IH.
Qed.

Lemma flash_loop_ret fuel p buf : (flash_loop lib cfg fuel p buf).1 <= 0.
Proof.
  revert p buf. induction fuel as [|fuel IH]; intros p buf; cbn [flash_loop]; [done|].
  destruct (_ && _); [done|]. destruct (eb p =? eb_end cfg)%nat; [done|].
  destruct (read_data cfg p buf) as [[[[d o]|] rest] p1]; [|done].
  destruct (if (writebuf_offset p1 =? 0)%nat then _ else _) as [r2 p2] eqn:E2.
  assert (r2 <= 0) as Hr2.
  { destruct (writebuf_offset p1 =? 0)%nat; [|by injection E2 as <-]. pose proof (prepare_loop_ret (eb_end cfg - eb p1) p1) as Hp.
    unfold prepare_new_erase_block in E2. by rewrite E2 in Hp. }
  destruct (negb (r2 =? 0)); [done|]. destruct (write_data lib cfg d o p2) as [[r3|] p3] eqn:E3; [|apply IH].
  pose proof (write_data_error _ _ _ _ _ E3). cbn. lia.
Qed.

(** Less than a page is not written yet. *)
Definition settled (p : priv) (k : nat) : Prop := (length (filebuf p) < k * page_len cfg + page_len cfg)%nat.

(** Nothing is left to do. *)
Lemma done_settled p k (buf : bytes) :
  at_page p k -> (length buf =? 0)%nat && negb (flash_has_pending_data cfg p) = true -> buf = [] /\ settled p k.
Proof.
  intros Hat H. apply andb_true_iff in H as [E1%Nat.eqb_eq E2%negb_true_iff]. destruct buf; [|done]. split; [done|].
  unfold flash_has_pending_data in E2. rewrite (offset_page p k Hat) in E2. apply Nat.ltb_ge in E2.
  unfold settled. pose proof page_len_pos. lia.
Qed.

Lemma read_turn got u p k buf d rest p1 :
  inv got u p -> at_page p k -> Z.of_nat (length buf) <= imglen p -> read_data cfg p buf = (d, rest, p1) ->
  exists b, inv (got ++ b) u p1 /\ at_page p1 k /\ b ++ rest = buf /\ Z.of_nat (length rest) <= imglen p1 /\
    picked d (filebuf p1) k /\ (d = None -> rest = []) /\ eb p1 = eb p /\ writebuf_offset p1 = writebuf_offset p.
Proof.
  intros H Hat Hb E1. destruct (read_data_filled p k buf d rest p1 Hat E1) as (Ep1 & Erest & Hpick).
  destruct (filled_inv got u p k buf _ H Hat Hb eq_refl) as (H1 & Hat1 & Hfull). rewrite <- Ep1 in *.
  set (tr := Nat.min (length buf) (filebuf_size cfg - length (filebuf p))) in *.
  specialize (Hpick ltac:(apply Hat1)). exists (take tr buf). rewrite Erest. split_and!; try done.
  - apply take_drop.
  - rewrite (inv_len _ _ _ H1), length_app, length_take, length_drop. pose proof (inv_len _ _ _ H). lia.
  - intros ->. destruct (decide (tr < length buf)%nat) as [Hlt|]; [|apply drop_ge; lia]. specialize (Hfull Hlt).
    cbn in Hpick. rewrite Hfull, (geo_buf geo) in Hpick. destruct Hat1 as (_ & Hk & _). nia.
  - by rewrite Ep1.
  - by rewrite Ep1.
Qed.

Lemma flash_loop_inv fuel got u p k buf p' :
  inv got u p -> at_page p k -> Z.of_nat (length buf) <= imglen p -> flash_loop lib cfg fuel p buf = (0, p') ->
  exists u' k', inv (got ++ buf) u' p' /\ at_page p' k' /\ settled p' k'.
Proof.
  revert got u p k buf. induction fuel as [|fuel IH]; intros got u p k buf H Hat Hb; cbn [flash_loop]; [done|].
  destruct ((length buf =? 0)%nat && negb (flash_has_pending_data cfg p)) eqn:Edone.
  { intros [= <-]. destruct (done_settled p k buf Hat Edone) as [-> Hs]. exists u, k. by rewrite app_nil_r. }
  destruct (eb p =? eb_end cfg)%nat; [done|]. destruct (read_data cfg p buf) as [[d rest] p1] eqn:E1.
  destruct (read_turn got u p k buf d rest p1 H Hat Hb E1) as (b & H1 & Hat1 & <- & Hb1 & Hpick & Hnone & _).
  rewrite app_assoc. destruct d as [[d o]|].
  2: { intros [= <-]. rewrite (Hnone eq_refl), app_nil_r. by exists u, k. }
  destruct (if (writebuf_offset p1 =? 0)%nat then _ else _) as [r2 p2] eqn:E2.
  destruct (Z.eqb_spec r2 0) as [->|]; cbn [negb]; [|by intros [= ??]].
  destruct (prepare_inv _ _ _ _ _ H1 Hat1 E2) as (H2 & Hop & Hl2 & Hf2 & _). rewrite <- Hf2 in Hpick.
  destruct (write_data lib cfg d o p2) as [[r3|] p3] eqn:E3.
  { intros [= -> ->]. by pose proof (write_data_error _ _ _ _ _ E3). }
  destruct (write_data_inv _ _ _ _ _ _ _ H2 Hop Hpick E3) as (u' & k' & H3 & Hat3 & Hl3 & _).
  apply (IH _ _ _ _ _ H3 Hat3). by rewrite Hl3, Hl2.
Qed.

(** ** The whole image *)

(** What a reader finds from block [start] on that skips bad blocks. *)
Definition readable (f : F) : bytes :=
  concat (map (block_bytes f) (filter (good f) (seq start (eb_end cfg - start)))).

Lemma used_bytes f u :
  Forall (fun bs => length bs.2 = filebuf_size cfg /\ block_bytes f bs.1 = bs.2) u -> concat (map (block_bytes f) u.*1) = concat u.*2.
Proof. induction 1 as [|[b s] u [_ Hb] _ IH]; [done|]. cbn in *. by rewrite Hb, IH. Qed.

Lemma inv_readable got u p k :
  inv got u p -> at_page p k -> settled p k -> imglen p = 0 ->
  exists n, (n < page_len cfg)%nat /\ got ++ empty n `prefix_of` readable (flash p).
Proof.
  intros H (Ho & Hk & Hkl & Hin & H0) Hset Hz. pose proof page_len_pos as Hpl.
  destruct H as [Hlen (n & Hst & Hn & _) Hpad Hbuf Hu Hbl Heb Hck Hs]. exists n. split; [done|]. rewrite <- Hst. unfold readable.
  assert (length (filebuf p) = k * page_len cfg)%nat as Hfb.
  { specialize (Hpad Hz). apply Nat.Div0.mod_divides in Hpad as [c Hc]. unfold settled in Hset. rewrite Hc in *.
    destruct (Nat.lt_trichotomy c k) as [?|[->|?]]; nia. }
  replace (eb_end cfg - start)%nat with ((eb p - start) + (eb_end cfg - eb p))%nat by lia.
  rewrite seq_app, filter_app, map_app, concat_app, <- Hbl, (used_bytes _ _ Hu). apply prefix_app.
  destruct (decide (k = 0%nat)) as [->|Hne]; [destruct (filebuf p); [apply prefix_nil|cbn in *; lia]|].
  destruct (Hin Hne) as (Hlt & Hg & Hbb). replace (start + (eb p - start))%nat with (eb p) by lia.
  replace (eb_end cfg - eb p)%nat with (S (eb_end cfg - eb p - 1)) by lia. cbn [seq]. rewrite filter_cons_True by done.
  cbn [map concat]. rewrite Hbb, take_ge, <- !app_assoc by lia. by apply prefix_app_r.
Qed.

Lemma flash_write_aligned p buf :
  Z.land (start_offset cfg) (Z.of_nat (mtd_eb_size (fs_mtd cfg)) - 1) = 0 ->
  flash_write lib cfg mem heap seek_ok p buf = flash_loop lib cfg (turns cfg p) p buf.
Proof. intros H. unfold flash_write, first_data. rewrite H. by rewrite andb_false_r. Qed.

Lemma flash_sent_inv p out p' :
  Z.land (start_offset cfg) (Z.of_nat (mtd_eb_size (fs_mtd cfg)) - 1) = 0 ->
  sent (flash_write lib cfg mem heap seek_ok) p out p' ->
  forall got u k, inv got u p -> at_page p k -> settled p k -> Z.of_nat (length got + length out) <= len0 ->
  exists u' k', inv (got ++ out) u' p' /\ at_page p' k' /\ settled p' k'.
Proof.
  intros Hal. induction 1 as [p|p b p1 out p2 ret Hc Hr _ IH]; intros got u k H Hat Hset Hl.
  { exists u, k. by rewrite app_nil_r. }
  rewrite flash_write_aligned in Hc by done. pose proof (flash_loop_ret (turns cfg p) p b) as Hle. rewrite Hc in Hle. cbn in Hle.
  assert (ret = 0) as -> by lia. rewrite length_app in Hl. pose proof (inv_len _ _ _ H).
  assert (Z.of_nat (length b) <= imglen p) as Hb by lia. destruct (flash_loop_inv _ _ _ _ _ _ _ H Hat Hb Hc) as (u1 & k1 & H1 & Hat1 & Hset1).
  destruct (IH _ _ _ H1 Hat1 Hset1) as (u2 & k2 & H2); [rewrite length_app; lia|]. exists u2, k2. by rewrite <- app_assoc in H2.
Qed.
(** ** Enough blocks that do not fail *)

(** Blocks of [sound] never fail. The others may fail at any time, with [EIO]; nothing else fails. *)
Record endures (sound : nat -> bool) : Prop := {
  end_erase : forall f b e, (mtd_erase lib f b).1 = Some e -> e = EIO /\ sound b = false;
  end_write : forall f b off d o raw e, (mtd_write lib f b off d o raw).1 = Some e -> e = EIO /\ sound b = false;
  end_mark : forall f b, (mtd_mark_bad lib f b).1 = None;
  end_is_bad : forall f b e, mtd_is_bad lib f b <> inl e;
  end_locked : forall f b e, mtd_is_locked lib f b = inl e -> is_not_supported e = true;
  end_unlock : forall f b e, (mtd_unlock lib f b).1 = Some e -> is_not_supported e = true;
  end_read : forall f b e, mtd_read lib f b <> inl e;
}.
Context (sound : nat -> bool) (Hend : endures sound).

Lemma erase_block_endures p : (erase_block lib p).1 = 0 \/ (erase_block lib p).1 = - EIO /\ sound (eb p) = false.
Proof.
  unfold erase_block. destruct (mtd_erase lib (flash p) (eb p)) as [[e|] f] eqn:E; [|by left].
  right. destruct (end_erase _ Hend (flash p) (eb p) e) as [-> Hs]; [by rewrite E|]. done.
Qed.

Lemma mark_bad_block_endures p : (mark_bad_block lib p).1 = 0.
Proof.
  unfold mark_bad_block. pose proof (end_mark _ Hend (flash p) (eb p)). by destruct (mtd_mark_bad lib (flash p) (eb p)) as [[e|] f].
Qed.

Lemma erase_or_mark_endures p :
  (erase_or_mark lib p).1 = 0 \/ (erase_or_mark lib p).1 = 1 /\ sound (eb p) = false.
Proof.
  unfold erase_or_mark. pose proof (erase_block_endures p) as H. destruct (erase_block lib p) as [r p1]. cbn in H.
  destruct H as [->|[-> Hs]]; [by left|]. cbn [Z.eqb EIO Z.opp]. pose proof (mark_bad_block_endures p1) as H1.
  destruct (mark_bad_block lib p1) as [r2 p2]. cbn in H1. subst r2. right. done.
Qed.

(** A sound block is taken. *)
Lemma process_endures p ret p' :
  check_bad p = true -> process_new_erase_block lib cfg p = (ret, p') ->
  ret = 0 \/ ret = 1 /\ (bad (flash p) (eb p) = false -> sound (eb p) = false).
Proof.
  intros Hc. unfold process_new_erase_block, test_bad. rewrite Hc.
  destruct (mtd_is_bad lib (flash p) (eb p)) as [e|v] eqn:Eb; [by destruct (end_is_bad _ Hend _ _ _ Eb)|].
  pose proof (is_bad_spec lib (fs_mtd cfg) _ _ _ Eb) as ->. destruct (bad (flash p) (eb p)); [intros [= <- <-]; by right|].
  destruct (test_locked lib p) as [r1 p1] eqn:E1. destruct (test_locked_touched p r1 p1 E1) as (T1 & F1 & _).
  assert (r1 = None) as ->.
  { unfold test_locked in E1. destruct (check_locked p); [|by injection E1]. destruct (mtd_is_locked lib (flash p) (eb p)) as [e|l] eqn:El;
      [|by injection E1]. rewrite (end_locked _ Hend _ _ _ El) in E1. by injection E1. }
  destruct (unlock_block lib p1) as [r2 p2] eqn:E2. destruct (unlock_block_touched p1 r2 p2 E2) as (T2 & _).
  assert (r2 = None) as ->.
  { unfold unlock_block in E2. destruct (do_unlock p1); [|by injection E2]. pose proof (end_unlock _ Hend (flash p1) (eb p1)) as Hu.
    destruct (mtd_unlock lib (flash p1) (eb p1)) as [[e|] f] eqn:El; [|by injection E2].
    rewrite (Hu e eq_refl) in E2. by injection E2. }
  assert (forall r q, erase_or_mark lib p2 = (r, q) -> r = 0 \/ r = 1 /\ (false = false -> sound (eb p) = false)) as Hem.
  { intros r q E. pose proof (erase_or_mark_endures p2) as H. rewrite E, (t_eb _ _ T2), (t_eb _ _ T1) in H. cbn in H. tauto. }
  destruct (is_nand cfg); [apply Hem|]. destruct (mtd_read lib (flash p2) (eb p2)) as [e|bs] eqn:Er;
    [by destruct (end_read _ Hend _ _ _ Er)|]. destruct (buffer_check_pattern bs FLASH_EMPTY_BYTE); [|apply Hem].
  intros [= <- <-]. by left.
Qed.

(** The sound blocks from [b] on. *)
Definition sounds (b : nat) : nat := length (filter (fun i => sound i = true) (seq b (eb_end cfg - b))).

Lemma sounds_next b : (b < eb_end cfg)%nat -> sounds b = ((if sound b then 1 else 0) + sounds (S b))%nat.
Proof.
  intros H. unfold sounds. replace (eb_end cfg - b)%nat with (S (eb_end cfg - S b)) by lia. cbn [seq].
  destruct (sound b) eqn:E; [by rewrite filter_cons_True|]. by rewrite filter_cons_False by (by rewrite E).
Qed.

Lemma prepare_loop_endures n p :
  check_bad p = true -> (eb p + n = eb_end cfg)%nat -> (forall b, (eb p <= b)%nat -> sound b = true -> bad (flash p) b = false) ->
  (0 < sounds (eb p))%nat -> exists p', prepare_loop lib cfg n p = (0, p') /\ sounds (eb p') = sounds (eb p).
Proof.
  revert p. induction n as [|n IH]; intros p Hc Hn Hg Hs; cbn [prepare_loop].
  { unfold sounds in Hs. replace (eb_end cfg - eb p)%nat with 0%nat in Hs by lia. cbn in Hs. lia. }
  destruct (process_new_erase_block lib cfg p) as [r1 p1] eqn:E1.
  destruct (process_touched p r1 p1 Hc E1) as (T & _ & _). pose proof (t_eb _ _ T) as Heb.
  destruct (process_endures p r1 p1 Hc E1) as [->|[-> Hsb]]; cbn; [exists p1; by rewrite Heb|].
  assert (sound (eb p) = false) as Hf by (destruct (sound (eb p)) eqn:E; [|done]; apply Hsb, Hg; [lia|done]).
  pose proof (sounds_next (eb p) ltac:(lia)) as Hsn. rewrite Hf in Hsn. cbn in Hsn.
  destruct (IH (set_place (S (eb p1)) (writebuf_offset p1) p1)) as (p' & E & H); cbn.
  - by rewrite (t_check _ _ T).
  - lia.
  - intros b Hb Hs'. destruct (t_same _ _ T b) as [_ ->]; [lia|]. apply Hg; [lia|done].
  - rewrite Heb. lia.
  - exists p'. split; [done|]. cbn in H. rewrite H, Heb. lia.
Qed.

Lemma write_data_endures d o p : exists p', write_data lib cfg d o p = (None, p').
Proof.
  unfold write_data. destruct (if _ && _ then _ else _) as [err f] eqn:Ew. destruct err as [e|]; [|cbv zeta; destruct (_ =? _)%nat; by eexists].
  assert (e = EIO) as ->.
  { destruct (_ && _) in Ew; [done|]. apply (end_write _ Hend (flash p) (eb p) (writebuf_offset p) d o (no_ecc cfg) e). by rewrite Ew. }
  cbn [Z.eqb EIO negb Pos.eqb]. pose proof (erase_block_endures (set_flash f p)) as H1. destruct (erase_block lib _) as [r2 p2].
  pose proof (mark_bad_block_endures p2) as H2. destruct (mark_bad_block lib p2) as [r3 p3]. cbn in H1, H2. subst r3.
  destruct H1 as [->|[-> _]]; by eexists.
Qed.
Context (Hsound : forall b, sound b = true -> bad f0 b = false).

(** The sound blocks are enough for what is not in full blocks yet. *)
Definition enough (p : priv) (u : list (nat * bytes)) : Prop :=
  len0 <= Z.of_nat ((sounds (eb p) + length u) * filebuf_size cfg).

Lemma used_length f u :
  Forall (fun bs => length bs.2 = filebuf_size cfg /\ block_bytes f bs.1 = bs.2) u ->
  length (concat u.*2) = (length u * filebuf_size cfg)%nat.
Proof. induction 1 as [|[b s] u [Hl _] _ IH]; [done|]. cbn in *. rewrite length_app, IH, Hl. lia. Qed.

(** As long as there is data, the full blocks do not hold the image. *)
Lemma pending_used got u p k (buf : bytes) :
  inv got u p -> at_page p k -> Z.of_nat (length buf) <= imglen p ->
  (length buf =? 0)%nat && negb (flash_has_pending_data cfg p) = false ->
  Z.of_nat (length u * filebuf_size cfg) < len0.
Proof.
  intros [Hlen (n & Hst & Hn & Hn0) Hpad _ Hu _ _ _ _] Hat Hb Hd. pose proof (used_length _ _ Hu) as Hul.
  apply (f_equal length) in Hst. rewrite !length_app, Hul in Hst. unfold empty in Hst. rewrite length_replicate in Hst.
  apply andb_false_iff in Hd. unfold flash_has_pending_data in Hd. rewrite (offset_page p k Hat) in Hd.
  destruct (decide (n = 0%nat)) as [->|Hne].
  - destruct Hd as [Hd%Nat.eqb_neq|Hd%negb_false_iff%Nat.ltb_lt]; lia.
  - specialize (Hn0 Hne). specialize (Hpad Hn0). destruct Hd as [Hd%Nat.eqb_neq|Hd%negb_false_iff%Nat.ltb_lt]; [lia|].
    apply Nat.Div0.mod_divides in Hpad as [c Hc]. destruct c; [lia|]. nia.
Qed.

Definition left_turns (p : priv) : nat :=
  ((eb_end cfg - eb p) * S (mtd_eb_size (fs_mtd cfg)) + (mtd_eb_size (fs_mtd cfg) - writebuf_offset p))%nat.

Lemma prepare_enough got u p k :
  inv got u p -> at_page p k -> enough p u -> Z.of_nat (length u * filebuf_size cfg) < len0 ->
  exists p', (if (writebuf_offset p =? 0)%nat then prepare_new_erase_block lib cfg p else (0, p)) = (0, p') /\
    sounds (eb p') = sounds (eb p) /\ (writebuf_offset p' = writebuf_offset p).
Proof.
  intros H Hat He Hu. destruct (Nat.eqb_spec (writebuf_offset p) 0) as [Hz|]; [|by exists p].
  pose proof Hat as (Ho & _ & _ & _ & H0). pose proof (geo_io geo). assert (k = 0%nat) as -> by nia.
  destruct (prepare_loop_endures (eb_end cfg - eb p) p) as (p' & E & Hs).
  - apply H.
  - pose proof (inv_eb _ _ _ H). lia.
  - intros b Hb Hsb. assert (same f0 (flash p) b) as [_ ->]; [|by apply Hsound].
    destruct (decide (b = eb p)) as [->|]; [by apply H0|]. apply (inv_same _ _ _ H). left. lia.
  - unfold enough in He. destruct (sounds (eb p)); [lia|lia].
  - exists p'. split_and!; [done|done|]. pose proof (inv_check _ _ _ H). pose proof (inv_eb _ _ _ H).
    apply (prepare_loop_passed (eb_end cfg - eb p) p 0 p'); [done|lia|done].
Qed.

Lemma advances_enough p u p' u' k :
  open_page p k -> advances p u p' u' -> enough p u -> enough p' u' /\ (left_turns p' < left_turns p)%nat.
Proof.
  intros (Ho & Hk & _ & Hlt & _) Ha. pose proof (geo_io geo).
  assert (writebuf_offset p < mtd_eb_size (fs_mtd cfg))%nat as Hoff by (rewrite Ho, (geo_eb geo); nia).
  unfold enough, left_turns. pose proof (sounds_next (eb p) Hlt) as Hsn. destruct Ha as [-> Hoff'|bs ->|off d o e -> He].
  - intros H1. split; [done|lia].
  - intros H1. rewrite length_app. cbn. split; [destruct (sound (eb p)); nia|nia].
  - destruct (end_write _ Hend _ _ _ _ _ _ _ He) as [_ Hs]. rewrite Hs in Hsn. cbn in Hsn. intros H1. split; [by rewrite <- Hsn|nia].
Qed.

Lemma enough_room got u p k :
  inv got u p -> at_page p k -> enough p u -> Z.of_nat (length u * filebuf_size cfg) < len0 -> (eb p < eb_end cfg)%nat.
Proof.
  intros H (_ & _ & _ & Hin & _) He Hu. destruct (decide (k = 0%nat)); [|by apply Hin].
  destruct (decide (eb p < eb_end cfg)%nat); [done|]. unfold enough, sounds in He.
  replace (eb_end cfg - eb p)%nat with 0%nat in He by lia. cbn in He. lia.
Qed.

(** The data is written. *)
Lemma flash_loop_total fuel got u p k buf :
  inv got u p -> at_page p k -> Z.of_nat (length buf) <= imglen p -> enough p u -> (left_turns p < fuel)%nat ->
  exists p' u' k', flash_loop lib cfg fuel p buf = (0, p') /\ inv (got ++ buf) u' p' /\ at_page p' k' /\ settled p' k' /\ enough p' u'.
Proof.
  revert got u p k buf. induction fuel as [|fuel IH]; intros got u p k buf H Hat Hb He Hf; [lia|]. cbn [flash_loop].
  destruct ((length buf =? 0)%nat && negb (flash_has_pending_data cfg p)) eqn:Edone.
  { destruct (done_settled p k buf Hat Edone) as [-> Hs]. exists p, u, k. by rewrite app_nil_r. }
  pose proof (pending_used _ _ _ _ _ H Hat Hb Edone) as Hu. pose proof (enough_room _ _ _ _ H Hat He Hu) as Hroom.
  destruct (Nat.eqb_spec (eb p) (eb_end cfg)); [lia|]. destruct (read_data cfg p buf) as [[d rest] p1] eqn:E1.
  destruct (read_turn got u p k buf d rest p1 H Hat Hb E1) as (b & H1 & Hat1 & <- & Hb1 & Hpick & Hnone & Heb & Hoff).
  assert (enough p1 u) as He1 by (unfold enough; by rewrite Heb). rewrite app_assoc. destruct d as [[d o]|].
  2: { rewrite (Hnone eq_refl), app_nil_r. by exists p1, u, k. }
  destruct (prepare_enough _ _ _ _ H1 Hat1 He1 Hu) as (p2 & E2 & Hs2 & Ho2). rewrite E2. cbn [Z.eqb negb].
  destruct (prepare_inv _ _ _ _ _ H1 Hat1 E2) as (H2 & Hop & Hl2 & Hf2 & Heb2). rewrite <- Hf2 in Hpick.
  assert (enough p2 u) as He2 by (unfold enough; by rewrite Hs2).
  destruct (write_data_endures d o p2) as [p3 E3]. rewrite E3.
  destruct (write_data_inv _ _ _ _ _ _ _ H2 Hop Hpick E3) as (u' & k' & H3 & Hat3 & Hl3 & Hadv).
  destruct (advances_enough _ _ _ _ _ Hop Hadv He2) as [He3 Hlt].
  apply (IH _ _ _ _ _ H3 Hat3); [by rewrite Hl3, Hl2|done|]. unfold left_turns in *. rewrite Ho2, Hoff in Hlt. nia.
Qed.

(** The writer accepts the image. *)
Definition writes (p : priv) (n : nat) : Prop :=
  exists got u k, inv got u p /\ at_page p k /\ settled p k /\ enough p u /\ Z.of_nat (length got + n) <= len0.

Lemma flash_write_accepts :
  Z.land (start_offset cfg) (Z.of_nat (mtd_eb_size (fs_mtd cfg)) - 1) = 0 ->
  accepting_upto (flash_write lib cfg mem heap seek_ok) writes.
Proof.
  intros Hal p b n (got & u & k & H & Hat & Hset & He & Hl). split; [exists got, u, k; split_and!; try done; lia|].
  rewrite flash_write_aligned by done. pose proof (inv_len _ _ _ H).
  destruct (flash_loop_total (turns cfg p) got u p k b H Hat) as (p' & u' & k' & -> & H1 & H2 & H3 & H4); [lia|done| |].
  { unfold turns, left_turns. lia. }
  cbn. split; [done|]. exists (got ++ b), u', k'. rewrite length_app. split_and!; try done. lia.
Qed.
End Written.

(** ** The handler *)

Section Installed.
Context {E V C D X F : Type} (lib : mtd_lib F) (sys : mtd_system).
Context (mem : nat -> bool) (heap : nat -> bytes) (seek_ok : Z -> Z -> bool).
Context (hl : hash_lib C) (dl : decrypt_lib D) (zcfg : config (X := X)) (keys : option decryption_key) (fuel : nat).
#[local] Abbreviation mach := (machine E V (gmap Z F)).
#[local] Abbreviation install := (install_flash_image (E := E) (V := V) lib sys mem heap seek_ok hl dl zcfg keys fuel).
Context (mtdnum : Z).
#[local] Abbreviation mtd := (mtd_info sys mtdnum).

(** A block consists of pages. *)
Definition mtd_geometry : Prop :=
  (0 < mtd_min_io_size mtd)%nat /\ (0 < mtd_eb_size mtd)%nat /\ (mtd_eb_size mtd mod mtd_min_io_size mtd = 0)%nat.

(** Errors have a number. *)
Definition sys_errors : Prop :=
  (forall e, mtd_open sys mtdnum = Some e -> 0 < e) /\ (forall e, mtd_raw_mode sys mtdnum = Some e -> 0 < e).

Lemma setup_geometry img :
  mtd_geometry ->
  (write_oob (flash_setup_of sys mtdnum img) = true -> mtd_nand mtd = true /\ (0 < mtd_oob_size mtd)%nat) ->
  geometry (flash_setup_of sys mtdnum img).
Proof.
  intros (Hio & Heb & Hm) Hoob. apply Nat.Div0.mod_divides in Hm as [c Hc].
  assert (ppb mtd = c) as Hp by (unfold ppb; rewrite Hc, Nat.mul_comm; apply Nat.div_mul; lia).
  cbn in Hoob. split; cbn [fs_mtd page_len filebuf_size write_oob is_nand flash_setup_of]; [done|rewrite Hp; nia|rewrite Hp, Hc; lia|done| |done].
  fold (ppb mtd). rewrite Hp. destruct (strtobool _); [done|]. rewrite Hc. lia.
Qed.

(** What was opened and copied when the handler succeeds. *)
Lemma install_flash_inv img d m img' m' f :
  sys_errors -> plain_image img -> 0 < img_size img -> image_mtd sys img = mtdnum -> m_world m !! mtdnum = Some f ->
  install img d m = (0, img', m') ->
  let cfg := flash_setup_of sys mtdnum img in
  (write_oob cfg = true -> mtd_nand mtd = true /\ (0 < mtd_oob_size mtd)%nat) /\
  exists p, copyimage_flash lib mem heap seek_ok hl dl zcfg keys fuel mtdnum cfg img (start_flash cfg (img_size img) f) =
    (0, img', p) /\ m_world m' = <[mtdnum := flash p]> (m_world m).
Proof.
  intros [Hop Hraw] [Henc Hcomp] Hsz Hn Hf. unfold install_flash_image. rewrite Hn, Hf.
  destruct (Z.ltb_spec mtdnum 0); [done|].
  destruct (flash_write_image _ _ _ _ _ _ _ _ _ _ _ _ _) as [[ret img1] f1] eqn:Ew. intros [= -> <- <-]. cbn [m_world].
  unfold flash_write_image in Ew. set (cfg := flash_setup_of sys mtdnum img) in *.
  destruct (write_oob cfg && negb (is_nand cfg)) eqn:E1; [done|].
  destruct (write_oob cfg && _) eqn:E2 in Ew; [done|]. split.
  { intros Hw. rewrite Hw in E1, E2. cbn [andb] in *. apply negb_false_iff in E1. apply Nat.eqb_neq in E2.
    split; [done|]. cbn in E2. lia. }
  destruct (mtd_dev_present sys mtdnum); [|done]. cbn [negb] in Ew.
  assert (image_length sys mtdnum img = img_size img) as Hl.
  { unfold image_length, get_output_size. rewrite Hcomp, Henc, bool_decide_false by (intros Hx; by apply Hx).
    destruct (Z.ltb_spec (img_size img) 0); [lia|done]. }
  rewrite Hl in Ew. destruct (Z.ltb_spec (img_size img) 0); [lia|]. destruct (Z.eqb_spec (img_size img) 0); [lia|].
  destruct (_ >? _); [done|]. destruct (mtd_open sys mtdnum) as [e|] eqn:Eo.
  { specialize (Hop e eq_refl). injection Ew as Hr _ _. lia. }
  unfold flash_write_opened in Ew. destruct (if no_ecc cfg then mtd_raw_mode sys mtdnum else None) as [e|] eqn:Er.
  { assert (0 < e) by (destruct (no_ecc cfg); [by apply Hraw|done]). exfalso. injection Ew as Hr _ _.
    destruct (mtd_close sys mtdnum); [destruct (Z.eqb_spec (- e) 0); [lia|]|]; destruct (Z.ltb_spec (- e) 0); lia. }
  destruct (mem _); cbn [negb] in Ew.
  2: { exfalso. injection Ew as Hr _ _. destruct (mtd_close sys mtdnum); done. }
  destruct (copyimage_flash _ _ _ _ _ _ _ _ _ _ _ _ _) as [[r img2] p] eqn:Ec. injection Ew as Hr <- <-.
  assert (r <= 0) as Hr0.
  { unfold copyimage_flash in Ec. destruct (copyfile _ _ _ _ _ _ _ _) as [c|] eqn:Ecf; [|by injection Ec as <-].
    injection Ec as <- _ _. by refine (copyfile_plain_ret _ _ _ _ _ _ (copy_image_args img _) _ _ Henc Hcomp Ecf). }
  assert (r = 0) as ->; [|by exists p].
  destruct (mtd_close sys mtdnum) as [e|]; [destruct (Z.eqb_spec r 0); [done|]|]; destruct (Z.ltb_spec r 0); lia.
Qed.

Definition start_block (img : img_type) : nat := Z.to_nat (seek img / Z.of_nat (mtd_eb_size mtd)).

Lemma start_inv `{!MtdSpec lib mtd} img f :
  let cfg := flash_setup_of sys mtdnum img in
  geometry cfg -> 0 <= seek img <= mtd_size mtd -> 0 < img_size img ->
  let p := start_flash cfg (img_size img) f in
  inv lib cfg f (start_block img) (img_size img) [] [] p /\ at_page lib cfg f p 0 /\ settled cfg p 0.
Proof.
  intros cfg geo [H1 H2] Hsz p. pose proof (page_len_pos cfg geo) as Hpl. pose proof (geo_pages cfg geo). pose proof (geo_io cfg geo).
  assert (0 < Z.of_nat (mtd_eb_size mtd)) as Heb by (pose proof (geo_eb cfg geo) as He; cbn in He, H, H0; nia).
  pose proof (Z.div_le_mono _ _ _ Heb H2). pose proof (Z.div_pos _ _ H1 Heb). split_and!.
  - split; cbn; try done; try lia.
    + exists 0%nat. by split_and!.
    + by rewrite Nat.sub_diag.
    + split; [done|]. by apply Z2Nat.inj_le; [|transitivity (seek img / Z.of_nat (mtd_eb_size mtd))|].
  - split_and!; try done.
  - unfold settled. change (length (filebuf p)) with 0%nat. lia.
Qed.

(** C15: an image on a flash can be read back: when the handler succeeds, a reader that starts at the offset of the image and
    skips bad blocks finds exactly the bytes of the artifact, whose hash was verified, followed by empty bytes up to the
    next page, whatever blocks turned out to be bad while it was written. Blocks before the image and blocks that
    were bad are as they were, and no other device is changed. For an image that is neither encrypted nor compressed, has
    a known size and is delivered in full, at an offset that is a multiple of the size of a block, on a flash whose
    blocks can be asked whether they are bad, marked and erased; without these conditions data is lost or holes are left,
    see [unaligned_offset_loses], [unknown_size_loses] and [unmarked_block_hole]. *)
Theorem flash_image_written `{!HashSpec hl} `{!MtdSpec lib mtd} (img img' : img_type) (d : handler_data) (m m' : mach) (f : F) :
  supports lib -> mtd_geometry -> sys_errors -> plain_image img -> image_mtd sys img = mtdnum -> m_world m !! mtdnum = Some f ->
  0 < img_size img -> Z.of_nat (length (img_data img)) = img_size img ->
  0 <= seek img <= mtd_size mtd -> Z.land (seek img) (Z.of_nat (mtd_eb_size mtd) - 1) = 0 ->
  install img d m = (0, img', m') ->
  let cfg := flash_setup_of sys mtdnum img in
  exists f' n, m_world m' = <[mtdnum := f']> (m_world m) /\ (n < page_len cfg)%nat /\
    img_data img ++ empty n `prefix_of` readable lib cfg (start_block img) f' /\
    (forall b, (b < start_block img)%nat \/ bad f b = true -> same lib cfg f f' b) /\
    (length (sha256 img) = SHA256_HASH_LENGTH -> valid_hash (Some (sha256 img)) = true -> sha (img_data img) = sha256 img).
Proof.
  intros sup Hgeo Herr Hp Hn Hf Hsz Hlen Hseek Hal Ei cfg. pose proof Hp as [Henc Hcomp].
  destruct (install_flash_inv img d m img' m' f Herr Hp Hsz Hn Hf Ei) as (Hoob & p & Ec & Hw). fold cfg in Hoob, Ec.
  pose proof (setup_geometry img Hgeo Hoob) as geo. fold cfg in geo.
  destruct (start_inv img f geo Hseek Hsz) as (Hinv & Hat & Hset). fold cfg in Hinv, Hat, Hset.
  unfold copyimage_flash in Ec. destruct (copyfile _ _ _ _ _ _ _ _) as [r|] eqn:Ecf; [|done]. injection Ec as Hr _ Hout.
  pose proof (copyfile_copies _ _ _ _ _ _ (copy_image_args img _) _ _ I Henc Hcomp eq_refl Ecf Hr) as Hs. rewrite Hout in Hs.
  destruct (flash_sent_inv lib cfg mem heap (seek_ok mtdnum) geo sup f (start_block img) (img_size img) _ _ _ Hal Hs [] [] 0%nat
    Hinv Hat Hset) as (u & k & H1 & H2 & H3).
  { fold (img_data img). cbn. unfold img_data in Hlen. lia. }
  destruct (inv_readable lib cfg geo f (start_block img) (img_size img) _ _ _ _ H1 H2 H3) as (n & Hn' & Hpre).
  { rewrite (inv_len _ _ _ _ _ _ _ _ H1). cbn. unfold img_data in Hlen. lia. }
  exists (flash p), n. split_and!; [done|done|exact Hpre| |].
  - intros b Hb. apply (inv_same _ _ _ _ _ _ _ _ H1). destruct Hb; [left; lia|by right].
  - intros Hl Hv. by apply (copyfile_hash_plain _ _ _ _ _ _ (copy_image_args img _) _ _ (sha256 img) I Henc Hcomp eq_refl Hl Hv Ecf Hr).
Qed.

(** A system on which nothing but the flash fails. *)
Record sys_works (img : img_type) : Prop := {
  works_mem : forall n, mem n = true;
  works_seek : forall z, seek_ok mtdnum z = true;
  works_present : mtd_dev_present sys mtdnum = true;
  works_open : mtd_open sys mtdnum = None;
  works_raw : mtd_raw_mode sys mtdnum = None;
  works_close : mtd_close sys mtdnum = None;
}.

Lemma copyimage_flash_total `{!HashSpec hl} img cfg p (P : flash_priv F -> nat -> Prop) :
  hash_total hl -> plain_image img -> seek_ok mtdnum (seek img) = true -> healthy (img_fdin img) ->
  Z.of_nat (length (img_data img)) = img_size img -> img_size img < 2 ^ 62 ->
  (valid_hash (Some (sha256 img)) = true -> sha256 img = sha (img_data img)) -> (Z.to_nat (img_size img) < fuel)%nat ->
  accepting_upto (flash_write lib cfg mem heap (seek_ok mtdnum)) P -> P p (Z.to_nat (img_size img)) ->
  exists img' p', copyimage_flash lib mem heap seek_ok hl dl zcfg keys fuel mtdnum cfg img p = (0, img', p').
Proof.
  intros Ht [He Hc] Hs Hh Hlen Hsz Hhash Hf Hacc HP. unfold copyimage_flash.
  destruct (copyfile_intact_upto hl dl (flash_write lib cfg mem heap (seek_ok mtdnum)) P fuel zcfg keys (copy_image_args img (seek_ok mtdnum (seek img))) p) as (r & Hr & H0 & _).
  - split; try done; cbn; try lia. rewrite Hs. cbn. apply andb_false_r.
  - done.
  - done.
  - done.
  - intros h [= <-] Hv. by apply Hhash.
  - done.
  - rewrite Hr, H0. by eexists _, _.
Qed.

(** The image is one that the flash can hold: its blocks that do not fail are enough. *)
Record flash_fits `{!MtdSpec lib mtd} (img : img_type) (f : F) (sound : nat -> bool) : Prop := {
  fits_oob : write_oob (flash_setup_of sys mtdnum img) = true -> mtd_nand mtd = true /\ (0 < mtd_oob_size mtd)%nat;
  fits_seek : 0 <= seek img <= mtd_size mtd /\ mtd_size mtd < 2 ^ 63;
  fits_aligned : Z.land (seek img) (Z.of_nat (mtd_eb_size mtd) - 1) = 0;
  fits_size : 0 < img_size img < 2 ^ 62;
  fits_mtd : data_len (flash_setup_of sys mtdnum img) (img_size img) <= mtd_size mtd - seek img;
  fits_sound : forall b, sound b = true -> bad f b = false;
  fits_blocks : img_size img <=
    Z.of_nat (sounds (flash_setup_of sys mtdnum img) sound (start_block img) * filebuf_size (flash_setup_of sys mtdnum img));
}.

(** The artifact arrives in full and is the one of the hash. *)
Record intact_image `{!HashSpec hl} (img : img_type) : Prop := {
  intact_plain : plain_image img;
  intact_fd : healthy (img_fdin img);
  intact_length : Z.of_nat (length (img_data img)) = img_size img;
  intact_hash : valid_hash (Some (sha256 img)) = true -> sha256 img = sha (img_data img);
}.

Lemma flash_write_image_total `{!HashSpec hl} `{!MtdSpec lib mtd} img f sound :
  hash_total hl -> supports lib -> endures lib sound -> mtd_geometry -> sys_works img -> intact_image img -> flash_fits img f sound ->
  (Z.to_nat (img_size img) < fuel)%nat ->
  exists img' f', flash_write_image lib sys mem heap seek_ok hl dl zcfg keys fuel mtdnum img f = (0, img', f').
Proof.
  intros Ht sup Hend Hgeo [Hm Hs Hpr Ho Hraw Hcl] [Hp Hfd Hlen Hhash] [Foob Fseek Fal Fsz Fmtd Fsound Fbl] Hf. pose proof Hp as [Henc Hcomp].
  unfold flash_write_image. set (cfg := flash_setup_of sys mtdnum img) in *.
  pose proof (setup_geometry img Hgeo Foob) as geo. fold cfg in geo.
  destruct (start_inv img f geo) as (Hinv & Hat & Hset); [lia|lia|]. fold cfg in Hinv, Hat, Hset.
  assert (image_length sys mtdnum img = img_size img) as Hl.
  { unfold image_length, get_output_size. rewrite Hcomp, Henc, bool_decide_false by (intros Hx; by apply Hx).
    destruct (Z.ltb_spec (img_size img) 0); [lia|done]. }
  destruct (copyimage_flash_total img cfg (start_flash cfg (img_size img) f)
    (writes lib cfg f (start_block img) (img_size img) sound) Ht Hp (Hs _) Hfd Hlen ltac:(lia) Hhash Hf) as (img' & p' & Ecp).
  { by apply flash_write_accepts. }
  { exists [], [], 0%nat. split_and!; try done; [|cbn; lia]. unfold enough. cbn [length eb start_flash]. rewrite Nat.add_0_r. exact Fbl. }
  rewrite Hl, Hpr, Ho, Hcl. unfold flash_write_opened. rewrite Hm, Hraw, Ecp. cbn [negb].
  destruct (write_oob cfg && negb (is_nand cfg)) eqn:E1.
  { exfalso. apply andb_true_iff in E1 as [H1 H2]. destruct (Foob H1) as [H3 _]. unfold cfg in H2. cbn in H2. by rewrite H3 in H2. }
  destruct (write_oob cfg && (mtd_oob_size (fs_mtd cfg) =? 0)%nat) eqn:E2.
  { exfalso. apply andb_true_iff in E2 as [H1 H2%Nat.eqb_eq]. destruct (Foob H1) as [_ H3]. cbn in H2. lia. }
  destruct (Z.ltb_spec (img_size img) 0); [lia|]. destruct (Z.eqb_spec (img_size img) 0); [lia|].
  replace (u64 (mtd_size (fs_mtd cfg) - seek img)) with (mtd_size mtd - seek img) by (symmetry; apply wrap_small; cbn; lia).
  destruct (Z.gtb_spec (data_len cfg (img_size img)) (mtd_size mtd - seek img)); [lia|].
  exists img', (flash p'). by destruct (no_ecc cfg).
Qed.

End Installed.

(** ** Example *)

(** A flash of four blocks with two pages of four bytes. Erasing and writing never fails, except that blocks of [frail]
    cannot be written. *)
Definition toy_mtd (nand : bool) : mtd_dev := mk_mtd_dev "rootfs" nand 32 8 4 2.

Record toy_chip := mk_chip {
  tc_page : nat -> nat -> bytes * bytes;
  tc_bad : nat -> bool;
}.

Definition toy_page (f : toy_chip) (b j : nat) : bytes * bytes :=
  (resize 4 FLASH_EMPTY_BYTE (tc_page f b j).1, resize 2 FLASH_EMPTY_BYTE (tc_page f b j).2).

Definition toy_pages_set (f : toy_chip) (b : nat) (g : nat -> bytes * bytes) : toy_chip :=
  mk_chip (fun b' j => if (b' =? b)%nat then g j else tc_page f b' j) (tc_bad f).

Definition toy_write_pages (f : toy_chip) (b off : nat) (d o : bytes) (j : nat) : bytes * bytes :=
  let k := (off / 4)%nat in
  if (k <=? j)%nat && (j <? k + length d / 4)%nat
  then (slice ((j - k) * 4) 4 d, if (j =? k)%nat && negb (bool_decide (o = [])) then o else (tc_page f b j).2)
  else tc_page f b j.

Definition toy_mtd_lib (frail : nat -> bool) (markable : bool) : mtd_lib toy_chip := {|
  mtd_erase f b := (None, toy_pages_set f b (fun _ => ([], [])));
  mtd_mark_bad f b :=
    if markable then (None, mk_chip (tc_page f) (fun b' => (b' =? b)%nat || tc_bad f b')) else (Some EOPNOTSUPP, f);
  mtd_is_bad f b := inr (tc_bad f b);
  mtd_is_locked f b := inl EOPNOTSUPP;
  mtd_unlock f b := (Some EOPNOTSUPP, f);
  mtd_read f b := inr (concat (map (fun j => (toy_page f b j).1) (seq 0 2)));
  mtd_write f b off d o raw := if frail b then (Some EIO, f) else (None, toy_pages_set f b (toy_write_pages f b off d o));
  mtd_pread f off n := Some (take n (drop (Z.to_nat off mod 8) (concat (map (fun j => (toy_page f (Z.to_nat off / 8) j).1) (seq 0 2)))));
|}.

#[export] Program Instance toy_mtd_spec (frail : nat -> bool) (markable nand : bool) :
    MtdSpec (toy_mtd_lib frail markable) (toy_mtd nand) := {
  page := toy_page;
  bad := tc_bad;
}.
Next Obligation. intros. cbn. by rewrite !length_resize. Qed.
Next Obligation. by intros frail markable nand f b v [= <-]. Qed.
Next Obligation.
  cbn. intros frail markable nand f b err f' [= <- <-]. split_and!; [|done|].
  - intros b' Hb. apply Nat.eqb_neq in Hb. unfold toy_page, toy_pages_set. cbn. by rewrite Hb.
  - intros _ j. unfold toy_page, toy_pages_set. cbn. by rewrite Nat.eqb_refl.
Qed.
Next Obligation.
  cbn. intros frail [] nand f b err f' [= <- <-]; [|done]. split.
  - intros b' Hb. apply Nat.eqb_neq in Hb. cbn. by rewrite Hb.
  - intros _. cbn. by rewrite Nat.eqb_refl.
Qed.
Next Obligation. by intros frail markable nand f b err f' [= <- <-]. Qed.
Next Obligation. by intros frail markable nand f b bs [= <-]. Qed.
Next Obligation.
  intros frail markable nand f b k m d o raw err f' E Hm Hd Ho. cbn in E, Hd, Ho |- *.
  destruct (frail b); injection E as <- <-; (split_and!; [|done|]); try done.
  - intros b' Hb. apply Nat.eqb_neq in Hb. unfold toy_page, toy_pages_set. cbn. by rewrite Hb.
  - intros _ _ _. unfold toy_page, toy_pages_set, toy_write_pages. cbn [tc_page]. rewrite Nat.eqb_refl, Nat.div_mul by done.
    rewrite Hd, Nat.div_mul by done. split_and!.
    + intros j Hj. rewrite (proj2 (Nat.leb_le _ _)), (proj2 (Nat.ltb_lt _ _)) by lia. cbn [andb fst].
      rewrite Nat.add_sub_swap, Nat.sub_diag by lia. apply resize_all_alt. unfold slice. rewrite length_take, length_drop. lia.
    + intros Hne. rewrite Nat.leb_refl, (proj2 (Nat.ltb_lt _ _)), Nat.eqb_refl, bool_decide_false by (done || lia). cbn.
      apply resize_all_alt. by destruct Ho.
    + intros j Hj. destruct (Nat.leb_spec k j); [|done]. destruct (Nat.ltb_spec j (k + m)); [lia|done].
Qed.

Lemma toy_supports frail : supports (toy_mtd_lib frail true).
Proof. split; cbn; try done; intros; try (by case_match; simplify_eq/=); by simplify_eq. Qed.

#[local] Abbreviation flash_machine := (machine (option string) unit (gmap Z toy_chip)).

Definition mtd_path (s : string) : option string := if String.eqb s "/dev/mtd0" then Some s else None.

Definition toy_sys_of (nand : bool) : mtd_system :=
  mk_mtd_system 0 0 (fun _ => toy_mtd nand) (fun n => n =? 0) (fun _ => Some 32) mtd_path (fun _ => None) (fun _ => None)
    (fun _ => None).

Definition flash_state (f : toy_chip) : flash_machine := mk_machine ∅ None tt [] {[ 0 := f ]}.

(** Block 1 is marked as bad, the pages hold old data. *)
Definition used_chip : toy_chip := mk_chip (fun _ _ => (bytes_of [1; 2; 3; 4], bytes_of [5; 6])) (fun b => (b =? 1)%nat).

Definition toy_flash (frail : nat -> bool) (markable nand : bool) (img : img_type) : Z * img_type * flash_machine :=
  install_flash_image (toy_mtd_lib frail markable) (toy_sys_of nand) (fun _ => true) (fun n => replicate n NUL) (fun _ _ => true)
    toy_hash_lib toy_stream toy_config toy_keys 40 img (mk_hdata None 0) (flash_state used_chip).

Definition ten_bytes : bytes := String.list_ascii_of_string "0123456789".

Definition flash_image (off : Z) (data : bytes) : img_type := dev_image "/dev/mtd0" off "k" "" "" [] data.

Definition block2 (b : nat) : bool := (b =? 2)%nat.

Definition block_text (b : nat) (r : Z * img_type * flash_machine) : Z * option (string * bool) :=
  (r.1.1, (fun f => (cstring (concat (map (fun j => (toy_page f b j).1) (seq 0 2))), tc_bad f b)) <$> m_world r.2 !! 0).

(** Block 1 is skipped, block 2 cannot be written: the end of the image is in block 3. *)
Example flash_two_blocks :
  let r := toy_flash block2 true true (flash_image 0 ten_bytes) in
  block_text 0 r = (0, Some ("01234567", false)) /\ block_text 2 r = (0, Some (cstring (empty 8), true)) /\
  block_text 3 r = (0, Some ("89" +:+ cstring (empty 6), false)).
Proof. vm_compute. done. Qed.

Lemma toy_geometry nand : mtd_geometry (toy_sys_of nand) 0.
Proof. split_and!; [cbn; lia|cbn; lia|done]. Qed.

Lemma toy_sys_errors nand : sys_errors (toy_sys_of nand) 0.
Proof. by split. Qed.

Abbreviation two_blocks := (toy_flash block2 true true (flash_image 0 ten_bytes)).

Lemma flash_image_written_witness :
  exists m' f' n, two_blocks.2 = m' /\ m_world m' = <[0 := f']> {[ 0 := used_chip ]} /\
    ten_bytes ++ empty n `prefix_of` readable (toy_mtd_lib block2 true)
      (flash_setup_of (toy_sys_of true) 0 (flash_image 0 ten_bytes)) 0 f'.
Proof.
  destruct two_blocks as [[r i] m'] eqn:Ew. assert (r = 0) as ->.
  { assert (two_blocks.1.1 = 0) as H by (vm_compute; reflexivity). by rewrite Ew in H. }
  destruct (flash_image_written (toy_mtd_lib block2 true) (toy_sys_of true) (fun _ => true) (fun n => replicate n NUL) (fun _ _ => true)
    toy_hash_lib toy_stream toy_config toy_keys 40 0 (flash_image 0 ten_bytes) i (mk_hdata None 0) (flash_state used_chip) m' used_chip)
    as (f' & n & H1 & _ & H2 & _).
  - apply toy_supports.
  - apply toy_geometry.
  - apply toy_sys_errors.
  - by split.
  - vm_compute. reflexivity.
  - vm_compute. reflexivity.
  - vm_compute. reflexivity.
  - vm_compute. reflexivity.
  - vm_compute. split; discriminate.
  - vm_compute. reflexivity.
  - exact Ew.
  - exists m', f', n. split; [reflexivity|]. split; [exact H1|]. exact H2.
Defined.

Definition toy_sound (b : nat) : bool := negb (b =? 1)%nat && negb (b =? 2)%nat.

Lemma toy_endures : endures (toy_mtd_lib block2 true) toy_sound.
Proof.
  split; cbn; try done; [|intros f b e [= <-]; done|intros f b e [= <-]; done].
  intros f b off d o raw e. unfold toy_sound, block2. destruct (b =? 2)%nat; cbn; [|done]. intros [= <-]. by rewrite andb_false_r.
Qed.


(** ** What the code does not do *)

(** The bytes that are read before an offset inside a block count as bytes of the image: the length never reaches
    zero, the last page is not filled up and is not written, and the handler succeeds. *)
Theorem unaligned_offset_loses :
  let r := toy_flash (fun _ => false) true true (flash_image 4 (take 7 ten_bytes)) in
  block_text 0 r = (0, Some (cstring (bytes_of [1; 2; 3; 4]) +:+ "0123", false)) /\
  block_text 2 r = (0, Some (cstring (bytes_of [1; 2; 3; 4; 1; 2; 3; 4]), false)).
Proof. vm_compute. done. Qed.

(** A compressed image of unknown size counts as long as the device: what is left of it in the buffer is not written. *)
Theorem unknown_size_loses :
  let img := mk_img (mk_sw_version "" "" false false) "flash" "k" "" "/dev/mtd0" "" "" "" "" "" "" "" 0 SKIP_NONE
    true COMPRESSED_ZLIB false false AES_CBC "" "" false false false [] 0 (rd_block (take 6 ten_bytes)) 6 0
    (toy_sha (take 6 ten_bytes)) in
  block_text 0 (toy_flash (fun _ => false) true true img) = (0, Some ("0123" +:+ cstring (empty 4), false)).
Proof. vm_compute. done. Qed.

(** A device that cannot mark blocks: the block that failed is left out of the image, but nothing tells a reader so. *)
Theorem unmarked_block_hole :
  let r := toy_flash block2 false false (flash_image 0 ten_bytes) in
  block_text 0 r = (0, Some ("01234567", false)) /\ block_text 2 r = (0, Some (cstring (empty 8), false)) /\
  block_text 3 r = (0, Some ("89" +:+ cstring (empty 6), false)).
Proof. vm_compute. done. Qed.
