(* ===== verification/Ssbl.v ===== *)
(** * Erasing a flash and switching the boot set: [corelib/mtd-interface.c], [handlers/ssbl_handler.c]

    A first loader finds the image to start in one of two administration sectors on a NOR flash. The handler "ssblswitch"
    erases the sector that is not in use and writes it with a newer age; the magic number, which makes it valid, comes last,
    so that an interruption leaves the old sector or the new one. *)
From stdpp Require Import gmap.
From S2P Require Import Prelude CString Util Dict Crypto Keys Cpio Memory.
From S2P Require Import Copyfile Image Installer Handlers Flash.

(** ** Erasing *)

Section Erase.
Context {F : Type} (lib : mtd_lib F) (sys : mtd_system) (mem : nat -> bool).

Definition already_empty (buf : bytes) : bool := forallb (Ascii.eqb FLASH_EMPTY_BYTE) buf.

(** [false]: a block that stays locked is passed over. *)
Definition unlock_if_locked (eb : nat) (f : F) : bool * F :=
  match mtd_is_locked lib f eb with
  | inr true =>
      let '(err, f) := mtd_unlock lib f eb in
      (match err with Some errno => errno =? EOPNOTSUPP | None => true end, f)
  | _ => (true, f)
  end.

(** A block that is not bad; [Some]: the loop ends with an error. A NOR flash that is empty is not erased. *)
Definition erase_good_block (mtd : mtd_dev) (eb : nat) (f : F) : option Z * F :=
  let '(unlocked, f) := unlock_if_locked eb f in
  if negb unlocked then (None, f)
  else
    match (if mtd_nand mtd then inr [] else mtd_read lib f eb) with
    | inl _ => (Some (- EIO), f)
    | inr buf =>
        if negb (mtd_nand mtd) && already_empty buf then (None, f)
        else
          let '(err, f) := mtd_erase lib f eb in
          (match err with Some _ => Some (- EIO) | None => None end, f)
    end.

(** Whether the block is bad, an error, or, from then on, that the flash has no bad blocks. *)
Definition test_bad_block (noskipbad : bool) (eb : nat) (f : F) : (Z + bool) * bool :=
  if noskipbad then (inr false, true)
  else
    match mtd_is_bad lib f eb with
    | inr isbad => (inr isbad, false)
    | inl errno => if errno =? EOPNOTSUPP then (inr false, true) else (inl (- EFAULT), false)
    end.

(** The loop over the blocks: for a bad block, one more is erased at the end. [None]: out of fuel. *)
Fixpoint erase_loop (fuel : nat) (mtd : mtd_dev) (noskipbad : bool) (eb eb_end : nat) (f : F) : option (Z * F) :=
  match fuel with
  | O => None
  | S fuel =>
      if negb (eb <? eb_end)%nat then Some (0, f)
      else
        let '(isbad, noskipbad) := test_bad_block noskipbad eb f in
        match isbad with
        | inl ret => Some (ret, f)
        | inr true =>
            erase_loop fuel mtd noskipbad (S eb)
              (if u32 (Z.of_nat eb_end * Z.of_nat (mtd_eb_size mtd)) <? mtd_size mtd then S eb_end else eb_end) f
        | inr false =>
            match erase_good_block mtd eb f with
            | (Some ret, f) => Some (ret, f)
            | (None, f) => erase_loop fuel mtd noskipbad (S eb) eb_end f
            end
        end
  end.

(** The block behind the last one: the end of the region is computed with 32 bits. *)
Definition erase_end (mtd : mtd_dev) (start size : Z) : nat :=
  let eb_size := Z.of_nat (mtd_eb_size mtd) in
  let last := u32 (start + (if size =? 0 then mtd_size mtd else size)) in
  Z.to_nat (last / eb_size + if last mod eb_size =? 0 then 0 else 1).

(** On a device below 4 GiB there is a turn for every block. *)
Definition erase_turns (mtd : mtd_dev) (eb_end : nat) : nat :=
  S (Nat.max eb_end (S (Z.to_nat (mtd_size mtd / Z.of_nat (mtd_eb_size mtd))))).

Definition flash_erase_sector (mtdnum start size : Z) (f : F) : option (Z * F) :=
  if negb (mtd_dev_present sys mtdnum) then Some (- ENODEV, f)
  else
    let mtd := mtd_info sys mtdnum in
    if (mtd_eb_size mtd =? 0)%nat then Some (- EINVAL, f)
    else
      let eb_start := Z.to_nat (u32 start / Z.of_nat (mtd_eb_size mtd)) in
      let eb_end := erase_end mtd start size in
      match mtd_open sys mtdnum with
      | Some _ => Some (- ENODEV, f)
      | None =>
          if negb (mem (mtd_eb_size mtd)) then Some (- ENOMEM, f)
          else erase_loop (erase_turns mtd eb_end) mtd false eb_start eb_end f
      end.

Definition flash_erase (mtdnum : Z) (f : F) : option (Z * F) := flash_erase_sector mtdnum 0 0 f.
End Erase.

(** ** The administration sectors *)

Record ssbl_admin_sector := mk_sector {
  magic_age : Z;
  adm_image_offs : Z;
  adm_image_size : Z;
}.

Definition SECTOR_SIZE : nat := 12.

Definition sector_bytes (s : ssbl_admin_sector) : bytes :=
  le 4 (magic_age s) ++ le 4 (adm_image_offs s) ++ le 4 (adm_image_size s).

Definition sector_of (bs : bytes) : ssbl_admin_sector :=
  mk_sector (of_le (slice 0 4 bs)) (of_le (slice 4 4 bs)) (of_le (slice 8 4 bs)).

Record ssbl_priv := mk_ssbl {
  ssbl_device : bytes;
  admin_offs : Z;
  image_offs : Z;
  image_size : Z;
  ssbl_mtdnum : Z;
  ssbl : ssbl_admin_sector;
}.

(** The members that properties set, and the properties. *)
Inductive ssbl_member := MDevice | MAdminOffs | MImageOffs | MImageSize.

Definition ssbl_proplist : list (string * ssbl_member) :=
  [("device", MDevice); ("offset", MAdminOffs); ("imageoffs", MImageOffs); ("imagesize", MImageSize)].

(** The name is cut to the array, and then it is not terminated. *)
Definition set_member (mb : ssbl_member) (value : string) (p : ssbl_priv) : ssbl_priv :=
  let n := u32 (strtoul value 0) in
  match mb with
  | MDevice =>
      mk_ssbl (resize (Z.to_nat MAX_VOLNAME) NUL (String.list_ascii_of_string value)) (admin_offs p) (image_offs p) (image_size p)
        (ssbl_mtdnum p) (ssbl p)
  | MAdminOffs => mk_ssbl (ssbl_device p) (i32 n) (image_offs p) (image_size p) (ssbl_mtdnum p) (ssbl p)
  | MImageOffs => mk_ssbl (ssbl_device p) (admin_offs p) n (image_size p) (ssbl_mtdnum p) (ssbl p)
  | MImageSize => mk_ssbl (ssbl_device p) (admin_offs p) (image_offs p) n (ssbl_mtdnum p) (ssbl p)
  end.

Definition set_mtdnum (n : Z) (p : ssbl_priv) : ssbl_priv :=
  mk_ssbl (ssbl_device p) (admin_offs p) (image_offs p) (image_size p) n (ssbl p).
Definition set_sector (s : ssbl_admin_sector) (p : ssbl_priv) : ssbl_priv :=
  mk_ssbl (ssbl_device p) (admin_offs p) (image_offs p) (image_size p) (ssbl_mtdnum p) s.

Definition SSBL_MAGIC : Z := 0x1CEEDBEE.
Definition get_ssbl_age (t : Z) : Z := Z.land t 7 mod 3.
Definition get_ssbl_magic (t : Z) : Z := Z.shiftr (Z.land t (u32 (Z.lnot 7))) 3.

Definition ssbl_verify_magic (adm : ssbl_priv) : bool := get_ssbl_magic (magic_age (ssbl adm)) =? SSBL_MAGIC.
Definition ssbl_get_age (adm : ssbl_priv) : Z := get_ssbl_age (magic_age (ssbl adm)).

(** The array of two. *)
Definition admins : Type := ssbl_priv * ssbl_priv.

(** A property with other than two values is refused. *)
Definition ssbl_retrieve_property (img : img_type) (name : string) (mb : ssbl_member) (a : admins) : option admins :=
  match dict_get_list (properties img) name with
  | Some [v0; v1] => Some (set_member mb v0 a.1, set_member mb v1 a.2)
  | _ => None
  end.

Definition get_inactive_ssbl (a : admins) : nat :=
  if negb (ssbl_verify_magic a.1) then 0%nat
  else if negb (ssbl_verify_magic a.2) then 1%nat
  else
    let age0 := ssbl_get_age a.1 in
    let age1 := ssbl_get_age a.2 in
    let age0 := if (age0 =? 0) && (age1 =? 2) then 3 else age0 in
    let age1 := if (age1 =? 0) && (age0 =? 2) then 3 else age1 in
    if age1 >? age0 then 0%nat else 1%nat.

Definition get_active_ssbl (a : admins) : nat := if (get_inactive_ssbl a =? 1)%nat then 0%nat else 1%nat.

Definition admin_at (a : admins) (i : nat) : ssbl_priv := if (i =? 0)%nat then a.1 else a.2.

(** ** The handler *)

Section Swap.
Context {E V F : Type} (lib : mtd_lib F) (sys : mtd_system) (mem : nat -> bool).
(** [write] to the device file at an offset, and whether it can be opened again: the kernel. *)
Context (nor_write : F -> Z -> bytes -> Z * F) (reopen : Z -> option Z).
#[local] Abbreviation mach := (machine E V (gmap Z F)).

(** The string that starts at the name: without a terminator it goes on with the next members. *)
Definition device_name (p : ssbl_priv) : string :=
  cstring (ssbl_device p ++ le 4 (u32 (admin_offs p)) ++ le 4 (image_offs p) ++ le 4 (image_size p) ++
    le 4 (u32 (ssbl_mtdnum p)) ++ sector_bytes (ssbl p)).

(** A device by its file or by its name. What a short read does not fill is zero. *)
Definition read_admin (w : gmap Z F) (p : ssbl_priv) : Z + ssbl_priv :=
  let p := set_mtdnum (get_mtd_from_device sys (device_name p)) p in
  let p := if ssbl_mtdnum p <? 0 then set_mtdnum (get_mtd_from_name sys (device_name p)) p else p in
  let n := ssbl_mtdnum p in
  if (n <? 0) || negb (mtd_dev_present sys n) then inl (- ENODEV)
  else
    match mtd_open sys n, w !! n with
    | None, Some f =>
        match mtd_pread lib f 0 SECTOR_SIZE with
        | Some bs => inr (set_sector (sector_of (put (replicate SECTOR_SIZE NUL) (take SECTOR_SIZE bs))) p)
        | None => inl (- ENODEV)
        end
    | _, _ => inl (- ENODEV)
    end.

Fixpoint retrieve_all (img : img_type) (l : list (string * ssbl_member)) (a : admins) : option admins :=
  match l with
  | [] => Some a
  | (name, mb) :: l =>
      match ssbl_retrieve_property img name mb a with
      | Some a => retrieve_all img l a
      | None => None
      end
  end.

Definition no_admin : ssbl_priv := mk_ssbl (replicate (Z.to_nat MAX_VOLNAME) NUL) 0 0 0 0 (mk_sector 0 0 0).

(** The record for the inactive copy, without the magic number and with it. *)
Definition next_sector (a : admins) : ssbl_admin_sector :=
  let p := admin_at a (get_inactive_ssbl a) in
  mk_sector (Z.lor 0xFFFFFFF8 ((ssbl_get_age (admin_at a (get_active_ssbl a)) + 1) mod 3)) (image_offs p) (image_size p).

Definition with_magic (t : Z) : Z := Z.lor (Z.land t 7) (u32 (Z.shiftl SSBL_MAGIC 3)).

(** The data, and then the magic number at the start of the sector; a seek of the open device to 0 does not fail. *)
Definition write_admin (s : ssbl_admin_sector) (f : F) : Z * F :=
  let '(ret, f) := nor_write f 0 (sector_bytes s) in
  if negb (ret =? Z.of_nat SECTOR_SIZE) then (- EIO, f)
  else
    let '(ret, f) := nor_write f 0 (le 4 (with_magic (magic_age s))) in
    (if ret =? 4 then 0 else - EIO, f).

(** The switch; [None]: erasing does not end. *)
Definition perform_switch (a : admins) (w : gmap Z F) : option (Z * gmap Z F) :=
  let n := ssbl_mtdnum (admin_at a (get_inactive_ssbl a)) in
  match w !! n with
  | None => Some (- ENODEV, w)
  | Some f =>
      match flash_erase lib sys mem n f with
      | None => None
      | Some (_, f) =>
          match reopen n with
          | Some _ => Some (- ENODEV, <[n := f]> w)
          | None => let '(ret, f) := write_admin (next_sector a) f in Some (ret, <[n := f]> w)
          end
      end
  end.

Definition ssbl_swap (img : img_type) (d : handler_data) (m : mach) : option (Z * img_type * mach) :=
  match scriptfn d with
  | None => Some (- EINVAL, img, m)
  | Some POSTINSTALL =>
      match retrieve_all img ssbl_proplist (no_admin, no_admin) with
      | None => Some (- EINVAL, img, m)
      | Some a =>
          match read_admin (m_world m) a.1 with
          | inl ret => Some (ret, img, m)
          | inr p0 =>
              match read_admin (m_world m) a.2 with
              | inl ret => Some (ret, img, m)
              | inr p1 =>
                  match perform_switch (p0, p1) (m_world m) with
                  | None => None
                  | Some (ret, w) =>
                      Some (ret, img, mk_machine (m_files m) (m_env m) (m_vars m) (m_bootdict m) w)
                  end
              end
          end
      end
  | Some _ => Some (0, img, m)
  end.
End Swap.

(** * Properties *)

(** ** Erasing *)

Section Erased.
Context {F : Type} (lib : mtd_lib F) (sys : mtd_system) (mem : nat -> bool) (mtdnum : Z).
#[local] Abbreviation mtd := (mtd_info sys mtdnum).
Context `{Hspec : !MtdSpec lib mtd}.

Definition kept (f f' : F) (b : nat) : Prop := page f' b = page f b /\ bad f' b = bad f b.

Lemma kept_trans f1 f2 f3 b : kept f1 f2 b -> kept f2 f3 b -> kept f1 f3 b.
Proof. unfold kept. intros [? ?] [? ?]. split; congruence. Qed.

(** Nothing but empty bytes in a block. *)
Definition blank (f : F) (b : nat) : Prop :=
  forall j, (j < ppb mtd)%nat -> (page f b j).1 = replicate (mtd_min_io_size mtd) FLASH_EMPTY_BYTE.

Lemma read_blank f b buf : mtd_read lib f b = inr buf -> already_empty buf = true -> blank f b.
Proof.
  intros Hr He j Hj. rewrite (read_spec lib mtd _ _ _ Hr) in He. unfold already_empty in He.
  rewrite forallb_forall in He. destruct (page_length lib mtd f b j) as [<- _]. symmetry. apply replicate_as_Forall_2; [done|].
  apply List.Forall_forall. intros c Hc. apply Ascii.eqb_eq, He, in_concat. exists (page f b j).1. split; [|done].
  apply in_map_iff. exists j. split; [done|]. apply in_seq. lia.
Qed.

(** Locked blocks can be unlocked, or there are no locks. *)
Context (sup : supports lib) (Hunlock : forall f b e, (mtd_unlock lib f b).1 = Some e -> e = EOPNOTSUPP).

Lemma erase_good_block_spec eb f ret f' :
  erase_good_block lib mtd eb f = (ret, f') ->
  (forall b, b <> eb -> kept f f' b) /\ bad f' eb = bad f eb /\ (ret = None -> blank f' eb) /\
  (forall r, ret = Some r -> r < 0).
Proof.
  unfold erase_good_block. destruct (unlock_if_locked lib eb f) as [u f1] eqn:Eu.
  assert (u = true /\ forall b, kept f f1 b) as [-> H1].
  { unfold unlock_if_locked in Eu. destruct (mtd_is_locked lib f eb) as [|[]]; [by injection Eu as <- <-| |by injection Eu as <- <-].
    destruct (mtd_unlock lib f eb) as [err f2] eqn:E2. injection Eu as <- <-.
    destruct (unlock_spec lib mtd _ _ _ _ E2) as [Hp Hb]. split; [|intros b; unfold kept; by rewrite Hp, Hb].
    destruct err as [e|]; [|done]. apply Z.eqb_eq, (Hunlock f eb). by rewrite E2. }
  cbn [negb]. destruct (if mtd_nand mtd then _ else _) as [e|buf] eqn:Er.
  { intros [= <- <-]. split_and!; [auto|apply H1|done|]. by intros r [= <-]. }
  destruct (negb (mtd_nand mtd) && already_empty buf) eqn:Ee.
  { apply andb_true_iff in Ee as [Hn%negb_true_iff He]. rewrite Hn in Er. intros [= <- <-].
    split_and!; [auto|apply H1| |done]. intros _. by apply (read_blank _ _ buf). }
  destruct (mtd_erase lib f1 eb) as [err f2] eqn:E2. destruct (erase_spec lib mtd _ _ _ _ E2) as (Ho & Hb & Hp).
  intros [= <- <-]. split_and!.
  - intros b Hne. apply (kept_trans _ f1); [done|]. by apply Ho.
  - rewrite Hb. apply H1.
  - destruct err; [done|]. intros _ j _. by rewrite Hp.
  - destruct err; [|done]. by intros r [= <-].
Qed.

Context (blocks : nat) (Hblocks : mtd_size mtd = Z.of_nat blocks * Z.of_nat (mtd_eb_size mtd)).
Context (Hsmall : mtd_size mtd < 2 ^ 32) (Heb : (0 < mtd_eb_size mtd)%nat).

Definition good_blocks (f : F) (b e : nat) : nat := length (filter (fun i => bad f i = false) (seq b (e - b))).

Lemma good_blocks_step f b e :
  (b < e)%nat -> good_blocks f b e = ((if bad f b then 0 else 1) + good_blocks f (S b) e)%nat.
Proof.
  intros H. unfold good_blocks. replace (e - b)%nat with (S (e - S b)) by lia. cbn [seq]. rewrite filter_cons.
  destruct (bad f b); [rewrite decide_False by done|rewrite decide_True by done]; done.
Qed.

Lemma good_blocks_kept f f' b e : (forall i, bad f' i = bad f i) -> good_blocks f' b e = good_blocks f b e.
Proof. intros H. unfold good_blocks. f_equal. apply list_filter_iff. intros i. by rewrite H. Qed.

(** What a run over the blocks from [eb] to [eb_end] does: all the good blocks up to [e] are empty, and the region grew by
    its bad blocks, up to the end of the device. *)
Definition erased (f f' : F) (eb eb_end e : nat) : Prop :=
  (eb_end <= e <= blocks)%nat /\ (forall b, (eb <= b < e)%nat -> bad f b = false -> blank f' b) /\
  (forall b, ~ (eb <= b < e)%nat -> kept f f' b) /\
  (e = blocks \/ good_blocks f eb e = (eb_end - eb)%nat).

Lemma region_grows eb_end :
  (eb_end <= blocks)%nat ->
  (u32 (Z.of_nat eb_end * Z.of_nat (mtd_eb_size mtd)) <? mtd_size mtd) = (eb_end <? blocks)%nat.
Proof.
  intros H. rewrite wrap_small by (rewrite Hblocks in Hsmall; nia). rewrite Hblocks.
  destruct (Nat.ltb_spec eb_end blocks); [apply Z.ltb_lt|apply Z.ltb_ge]; nia.
Qed.

(** A block that is bad is never touched, and no block before the region. *)
Record erase_result (f : F) (eb eb_end : nat) (r : Z * F) : Prop := {
  er_ret : r.1 <= 0;
  er_bad : forall i, bad r.2 i = bad f i;
  er_kept : forall i, bad f i = true \/ (i < eb)%nat -> kept f r.2 i;
  er_erased : r.1 = 0 -> exists e, erased f r.2 eb eb_end e;
}.

Lemma erase_result_bad f eb eb_end r :
  (eb < eb_end <= blocks)%nat -> bad f eb = true ->
  erase_result f (S eb) (if (eb_end <? blocks)%nat then S eb_end else eb_end) r -> erase_result f eb eb_end r.
Proof.
  intros Hle Hbad [Hret Hb Hk Hz]. split; [done|done| |].
  { intros i [Hi|Hi]; apply Hk; [by left|right; lia]. }
  intros H0. destruct (Hz H0) as (e & He & Hbl & Hrest & Hcnt). exists e.
  assert (eb_end <= e <= blocks)%nat as He' by (destruct (Nat.ltb_spec eb_end blocks); lia). split_and!; [lia|lia| | |].
  - intros b [H1 H2] Hg. apply Hbl; [|done]. destruct (decide (b = eb)) as [->|]; [congruence|lia].
  - intros b Hout. apply Hrest. lia.
  - destruct (Nat.ltb_spec eb_end blocks); [|left; lia]. destruct Hcnt as [|Hcnt]; [by left|right].
    rewrite good_blocks_step, Hbad, Hcnt by lia. lia.
Qed.

Lemma erase_result_good f f1 eb eb_end r :
  (eb < eb_end <= blocks)%nat -> bad f eb = false -> erase_good_block lib mtd eb f = (None, f1) ->
  erase_result f1 (S eb) eb_end r -> erase_result f eb eb_end r.
Proof.
  intros Hle Hgood E1 [Hret Hb Hk Hz]. destruct (erase_good_block_spec _ _ _ _ E1) as (Ho & Hb1 & Hbl1 & _).
  assert (forall i, bad f1 i = bad f i) as Hb1'.
  { intros i. destruct (decide (i = eb)) as [->|Hne]; [done|by apply Ho]. }
  split; [done| | |].
  - intros i. by rewrite Hb.
  - intros i Hi. apply (kept_trans _ f1); [apply Ho; destruct Hi; [congruence|lia]|].
    apply Hk. rewrite Hb1'. destruct Hi; [by left|right; lia].
  - intros H0. destruct (Hz H0) as (e & He & Hbl & Hrest & Hcnt). exists e. split_and!; [lia|lia| | |].
    + intros b [H1 H2] Hg. destruct (decide (b = eb)) as [->|]; [|apply Hbl; [lia|by rewrite Hb1']].
      intros j Hj. destruct (Hk eb ltac:(right; lia)) as [-> _]. by apply Hbl1.
    + intros b Hout. apply (kept_trans _ f1); [apply Ho; lia|]. apply Hrest. lia.
    + destruct Hcnt as [|Hcnt]; [by left|right]. rewrite good_blocks_step, Hgood by lia.
      rewrite <- (good_blocks_kept f f1) by done. lia.
Qed.

Lemma erase_loop_spec fuel eb eb_end f :
  (eb <= eb_end <= blocks)%nat -> (blocks - eb < fuel)%nat ->
  exists r, erase_loop lib fuel mtd false eb eb_end f = Some r /\ erase_result f eb eb_end r.
Proof.
  revert eb eb_end f. induction fuel as [|fuel IH]; intros eb eb_end f Hle Hf; [lia|]. cbn [erase_loop].
  destruct (Nat.ltb_spec eb eb_end) as [Hlt|Hge]; cbn [negb].
  2: { eexists. split; [done|]. split; try done. intros _. exists eb_end. split_and!; try done; try lia. right.
       unfold good_blocks. by replace (eb_end - eb)%nat with 0%nat by lia. }
  unfold test_bad_block. destruct (mtd_is_bad lib f eb) as [errno|isbad] eqn:Eb.
  { destruct (is_bad_fails lib sup f eb errno Eb) as [Hpos Hns]. unfold is_not_supported in Hns.
    apply orb_false_iff in Hns as [-> _]. by eexists. }
  rewrite (is_bad_spec lib mtd _ _ _ Eb). destruct (bad f eb) eqn:Ebad.
  - rewrite region_grows by lia.
    destruct (IH (S eb) (if (eb_end <? blocks)%nat then S eb_end else eb_end) f) as (r & E & Hr);
      [destruct (Nat.ltb_spec eb_end blocks); lia|lia|].
    exists r. split; [done|]. apply erase_result_bad; [lia|done|done].
  - destruct (erase_good_block lib mtd eb f) as [[r|] f1] eqn:E1.
    + destruct (erase_good_block_spec _ _ _ _ E1) as (Ho & Hb1 & _ & Hr). specialize (Hr r eq_refl).
      eexists. split; [done|]. split; cbn; try lia.
      * intros i. destruct (decide (i = eb)) as [->|Hne]; [done|by apply Ho].
      * intros i [Hi|Hi]; apply Ho; [congruence|lia].
    + destruct (IH (S eb) eb_end f1) as (r & E & Hr); [lia|lia|]. exists r. split; [done|]. apply (erase_result_good f f1); [lia|done|done|done].
Qed.

(** The numbers of the first block and of the one behind the region. *)
Lemma erase_region start size :
  0 <= start -> 0 <= size -> start + (if size =? 0 then mtd_size mtd else size) <= mtd_size mtd ->
  let n := if size =? 0 then mtd_size mtd else size in
  let first := Z.to_nat (u32 start / Z.of_nat (mtd_eb_size mtd)) in
  (first <= erase_end mtd start size <= blocks)%nat /\
  (forall b, (erase_end mtd start size <= b)%nat -> start + n <= Z.of_nat b * Z.of_nat (mtd_eb_size mtd)).
Proof.
  intros Hs Hz Hn n first. unfold first, erase_end. fold n in Hn |- *. set (s := Z.of_nat (mtd_eb_size mtd)) in *.
  assert (0 < s) as Hpos by (unfold s; lia). assert (0 <= n) as Hn0.
  { unfold n. destruct (size =? 0); [rewrite Hblocks; lia|done]. }
  rewrite !(wrap_small 32) by lia.
  pose proof (Z.div_mod (start + n) s ltac:(lia)) as Hd. pose proof (Z.mod_pos_bound (start + n) s Hpos) as Hm.
  pose proof (Z.div_le_mono start (start + n) s Hpos ltac:(lia)) as Hmono. pose proof (Z.div_pos start s Hs Hpos).
  fold s in Hblocks. set (q := (start + n) / s) in *. set (r := (start + n) mod s) in *.
  assert (q + (if r =? 0 then 0 else 1) <= Z.of_nat blocks) as Hup by (destruct (Z.eqb_spec r 0); nia).
  split; [destruct (r =? 0); lia|]. intros b Hb. destruct (Z.eqb_spec r 0); nia.
Qed.

(** The number of blocks that a region of the device needs is erased, bad blocks not counted, as far as the device has them;
    every other block is as it was. *)
Theorem flash_erase_sector_erases start size f :
  mtd_dev_present sys mtdnum = true -> mtd_open sys mtdnum = None -> mem (mtd_eb_size mtd) = true ->
  0 <= start -> 0 <= size -> start + (if size =? 0 then mtd_size mtd else size) <= mtd_size mtd ->
  exists r, flash_erase_sector lib sys mem mtdnum start size f = Some r /\
    erase_result f (Z.to_nat (start / Z.of_nat (mtd_eb_size mtd))) (erase_end mtd start size) r.
Proof.
  intros Hp Ho Hm Hs Hz Hn. unfold flash_erase_sector. rewrite Hp, Ho, Hm. cbn [negb].
  destruct (erase_region start size Hs Hz Hn) as [Hr _].
  assert (0 <= if size =? 0 then mtd_size mtd else size) by (destruct (size =? 0); [rewrite Hblocks; lia|done]).
  rewrite (wrap_small 32 start) in * by lia. destruct (Nat.eqb_spec (mtd_eb_size mtd) 0); [lia|].
  apply erase_loop_spec; [done|]. unfold erase_turns. rewrite Hblocks, Z.div_mul, Nat2Z.id by lia. lia.
Qed.

(** A device below 4 GiB is erased as a whole. *)
Corollary flash_erase_erases f :
  mtd_dev_present sys mtdnum = true -> mtd_open sys mtdnum = None -> mem (mtd_eb_size mtd) = true ->
  exists ret f', flash_erase lib sys mem mtdnum f = Some (ret, f') /\ ret <= 0 /\ (forall b, bad f' b = bad f b) /\
    (ret = 0 -> forall b, (b < blocks)%nat -> bad f b = false -> blank f' b).
Proof.
  intros Hp Ho Hm. assert (0 <= mtd_size mtd) by (rewrite Hblocks; lia).
  destruct (flash_erase_sector_erases 0 0 f) as ([ret f'] & E & [H1 H2 _ H4]); [done|done|done|lia|lia|cbn; lia|].
  exists ret, f'. split_and!; [done|done|done|]. intros H0 b Hb. destruct (H4 H0) as (e & He & Hbl & _). apply Hbl.
  destruct (erase_region 0 0) as [_ Hend]; [lia|lia|cbn; lia|]. cbn in Hend. specialize (Hend e ltac:(lia)).
  assert (blocks <= e)%nat by (rewrite Hblocks in Hend; nia). split; [rewrite Zdiv_0_l; cbn; lia|lia].
Qed.
End Erased.

(** ** Ages and magic numbers *)

Lemma of_le_bounds bs : 0 <= of_le bs < 256 ^ Z.of_nat (length bs).
Proof.
  induction bs as [|b bs IH]; [done|]. cbn [of_le length]. rewrite Nat2Z.inj_succ, Z.pow_succ_r by lia.
  pose proof (byte_of_range b). lia.
Qed.

Lemma le_of_le bs : le (length bs) (of_le bs) = bs.
Proof.
  induction bs as [|b bs IH]; [done|]. cbn [of_le length le]. pose proof (byte_of_range b) as Hb.
  rewrite (Z.mul_comm 256), Z.mod_add, Z.mod_small, Z.div_add, Z.div_small, Z.add_0_l, IH by lia. f_equal.
  apply byte_of_inj. by rewrite byte_of_ascii_of_Z.
Qed.

Lemma get_ssbl_magic_div t : 0 <= t < 2 ^ 32 -> get_ssbl_magic t = t / 8.
Proof.
  intros Ht. unfold get_ssbl_magic. rewrite Z.shiftr_land. change (Z.shiftr (u32 (Z.lnot 7)) 3) with (Z.ones 29).
  rewrite Z.land_ones, Z.shiftr_div_pow2 by lia. apply Z.mod_small. split; [apply Z.div_pos; lia|apply Z.div_lt_upper_bound; lia].
Qed.

(** A valid sector starts with one of eight words. *)
Lemma valid_words bs :
  length bs = 4%nat -> get_ssbl_magic (of_le bs) = SSBL_MAGIC ->
  In bs (map (fun a => le 4 (SSBL_MAGIC * 8 + Z.of_nat a)) (seq 0 8)).
Proof.
  intros Hl. pose proof (of_le_bounds bs) as Hb. rewrite Hl in Hb. rewrite get_ssbl_magic_div by (cbn in Hb; lia). intros Hm.
  apply in_map_iff. exists (Z.to_nat (of_le bs mod 8)). pose proof (Z.mod_pos_bound (of_le bs) 8 ltac:(lia)).
  split; [|apply in_seq; lia]. rewrite Z2Nat.id by lia. rewrite <- Hm, Z.mul_comm, <- Z.div_mod, <- Hl by lia. apply le_of_le.
Qed.

Lemma age_range t : 0 <= get_ssbl_age t < 3.
Proof. apply Z.mod_pos_bound. lia. Qed.

Definition valid_sector (s : ssbl_admin_sector) : bool := get_ssbl_magic (magic_age s) =? SSBL_MAGIC.

(** The sector of the loader's choice is the newer one. *)
Lemma newer_is_active p q :
  ssbl_verify_magic p = true -> ssbl_verify_magic q = true -> ssbl_get_age q = (ssbl_get_age p + 1) mod 3 ->
  get_active_ssbl (p, q) = 1%nat /\ get_active_ssbl (q, p) = 0%nat.
Proof.
  intros Hp Hq Ha. unfold get_active_ssbl, get_inactive_ssbl. cbn [fst snd]. rewrite Hp, Hq, Ha. cbn [negb].
  pose proof (age_range (magic_age (ssbl p))) as Hr. fold (ssbl_get_age p) in Hr.
  assert (ssbl_get_age p = 0 \/ ssbl_get_age p = 1 \/ ssbl_get_age p = 2) as [->|[->| ->]] by lia; done.
Qed.

Lemma invalid_is_inactive p q :
  ssbl_verify_magic p = true -> ssbl_verify_magic q = false -> get_active_ssbl (p, q) = 0%nat /\ get_active_ssbl (q, p) = 1%nat.
Proof. intros Hp Hq. unfold get_active_ssbl, get_inactive_ssbl. cbn [fst snd]. by rewrite Hp, Hq. Qed.

(** ** What a NOR flash promises *)

(** A write clears bits. One that does not complete may have cleared any of them. *)
Definition and_byte (c x : ascii) : ascii := ascii_of_Z (Z.land (byte_of c) (byte_of x)).
Definition bits_between (c x c' : ascii) : bool :=
  (Z.land (byte_of c') (byte_of c) =? byte_of c') &&
  (Z.land (Z.land (byte_of c) (byte_of x)) (byte_of c') =? Z.land (byte_of c) (byte_of x)).

Fixpoint programmed (complete : bool) (old d new : bytes) {struct d} : Prop :=
  match d, old, new with
  | [], _, _ => new = old
  | x :: d, c :: old, c' :: new =>
      (if complete then c' = and_byte c x else bits_between c x c' = true) /\ programmed complete old d new
  | _, _, _ => False
  end.

Section Nor.
Context {F : Type} (lib : mtd_lib F) (mtd : mtd_dev) (nor_write : F -> Z -> bytes -> Z * F).

(** The first block holds the administration sector. *)
Definition first_block `{!MtdSpec lib mtd} (f : F) : bytes := concat (map (fun j => (page f 0 j).1) (seq 0 (ppb mtd))).

Class NorSpec `{!MtdSpec lib mtd} := {
  nor_pread : forall f n, mtd_pread lib f 0 n = Some (take n (first_block f));
  nor_write_spec : forall f d ret f', nor_write f 0 d = (ret, f') -> (length d <= mtd_eb_size mtd)%nat ->
    programmed (ret =? Z.of_nat (length d)) (first_block f) d (first_block f');
}.
End Nor.

(** ** Writing a sector *)

Lemma programmed_length full old d new : programmed full old d new -> length new = length old.
Proof.
  revert old new. induction d as [|x d IH]; intros old new; [by intros ->|].
  destruct old, new; try done. cbn. intros [_ H]. f_equal. by apply IH.
Qed.

Lemma programmed_drop full old d new : programmed full old d new -> drop (length d) new = drop (length d) old.
Proof.
  revert old new. induction d as [|x d IH]; intros old new; [by intros ->|]. destruct old, new; try done. cbn. intros [_ H]. by apply IH.
Qed.

(** A complete write gives the bits that both have; on an empty flash, the data. *)
Lemma programmed_take old d new : programmed true old d new -> take (length d) new = zip_with and_byte old d.
Proof.
  revert old new. induction d as [|x d IH]; intros old new; [by destruct old|]. destruct old, new; try done.
  cbn. intros [-> H]. f_equal. by apply IH.
Qed.

Lemma and_empty x : and_byte FLASH_EMPTY_BYTE x = x.
Proof.
  apply byte_of_inj. unfold and_byte. pose proof (byte_of_range x). change (byte_of FLASH_EMPTY_BYTE) with (Z.ones 8).
  rewrite Z.land_comm, Z.land_ones, Z.mod_small by lia. apply byte_of_ascii_of_Z. lia.
Qed.

Lemma zip_empty n d : (length d <= n)%nat -> zip_with and_byte (replicate n FLASH_EMPTY_BYTE) d = d.
Proof.
  revert n. induction d as [|x d IH]; intros n Hn; [by destruct n|]. destruct n as [|n]; [cbn in Hn; lia|].
  cbn [replicate zip_with]. rewrite and_empty, IH; [done|]. cbn in Hn. lia.
Qed.

Lemma sector_bytes_length s : length (sector_bytes s) = SECTOR_SIZE.
Proof. unfold sector_bytes. by rewrite !length_app, !le_length. Qed.

(** A sector whose numbers have their width. *)
Definition sector_ok (s : ssbl_admin_sector) : Prop :=
  0 <= magic_age s < 2 ^ 32 /\ 0 <= adm_image_offs s < 2 ^ 32 /\ 0 <= adm_image_size s < 2 ^ 32.

Lemma sector_roundtrip s rest : sector_ok s -> sector_of (sector_bytes s ++ rest) = s.
Proof.
  intros (H1 & H2 & H3). unfold sector_of, sector_bytes. rewrite <- !app_assoc.
  rewrite !slice_here by apply le_length. rewrite (slice_skip 4 4), (slice_skip 4 8), (slice_skip 4 (8 - 4)) by (apply le_length || lia).
  cbn [Nat.sub]. rewrite !slice_here by apply le_length. rewrite !of_le_le by (cbn; lia). by destruct s.
Qed.

(** The new record: three ages are possible. *)
Definition unmarked (s : ssbl_admin_sector) : Prop := exists a, (a < 3)%nat /\ magic_age s = Z.lor 0xFFFFFFF8 (Z.of_nat a).

Definition marked (s : ssbl_admin_sector) : ssbl_admin_sector :=
  mk_sector (with_magic (magic_age s)) (adm_image_offs s) (adm_image_size s).

Ltac three_ages H :=
  let a := fresh in let Ha := fresh in
  destruct H as (a & Ha & H); assert (a = 0 \/ a = 1 \/ a = 2)%nat as [->|[->| ->]] by lia; clear Ha.

Lemma marked_ok s : unmarked s -> sector_ok s -> sector_ok (marked s).
Proof. intros Hu (H1 & H2 & H3). split_and!; try apply H2; try apply H3; cbn; three_ages Hu; rewrite Hu; by vm_compute. Qed.

Lemma marked_valid s : unmarked s -> valid_sector (marked s) = true /\ get_ssbl_age (magic_age (marked s)) = get_ssbl_age (magic_age s).
Proof. intros Hu. unfold valid_sector, marked. cbn [magic_age]. three_ages Hu; rewrite Hu; by vm_compute. Qed.

(** The first bytes of a write. *)
Lemma programmed_word full n a b c d rest new :
  programmed full (replicate n FLASH_EMPTY_BYTE) (a :: b :: c :: d :: rest) new ->
  exists a' b' c' d' new', new = a' :: b' :: c' :: d' :: new'.
Proof. intros Hp. do 4 (destruct n as [|n]; [done|]; destruct new as [|? new]; [done|]; destruct Hp as [_ Hp]). by eexists _, _, _, _, _. Qed.

(** Before the magic number is written, no state of the sector is valid. *)
Lemma torn_data_invalid s new n :
  unmarked s -> programmed false (replicate n FLASH_EMPTY_BYTE) (sector_bytes s) new -> valid_sector (sector_of new) = false.
Proof.
  intros Hu Hp. destruct (valid_sector (sector_of new)) eqn:Ev; [|done]. exfalso. apply Z.eqb_eq in Ev. cbn [magic_age sector_of] in Ev.
  unfold sector_bytes in Hp. cbn [le app] in Hp. destruct (programmed_word _ _ _ _ _ _ _ _ Hp) as (a & b & c & d & new' & ->).
  destruct n as [|[|n]]; [done|by destruct Hp|]. destruct Hp as (_ & Hb & _).
  apply (valid_words [a; b; c; d] eq_refl) in Ev. three_ages Hu; rewrite Hu in Hb; vm_compute in Ev;
  repeat (destruct Ev as [Ev|Ev]; [injection Ev as <- <- <- <-; done|]); done.
Qed.

(** The magic number is there in full or the sector is not valid: the age is already on the flash. *)
Lemma torn_magic_word full s a b c d :
  unmarked s -> programmed full (le 4 (magic_age s)) (le 4 (with_magic (magic_age s))) [a; b; c; d] ->
  full = true \/ get_ssbl_magic (of_le [a; b; c; d]) = SSBL_MAGIC -> [a; b; c; d] = le 4 (with_magic (magic_age s)).
Proof.
  intros Hu Hp Hv. destruct full.
  { clear Hv. three_ages Hu; rewrite Hu in *; destruct Hp as (-> & -> & -> & -> & _); by vm_compute. }
  destruct Hv as [|Ev]; [done|]. apply (valid_words [a; b; c; d] eq_refl) in Ev. vm_compute in Ev.
  destruct Hp as (Ha & _). three_ages Hu; rewrite Hu in *;
  repeat (destruct Ev as [Ev|Ev]; [injection Ev as <- <- <- <-; first [reflexivity|vm_compute in Ha; discriminate Ha]|]); done.
Qed.

Lemma torn_magic full s rest new :
  unmarked s -> sector_ok s -> programmed full (sector_bytes s ++ rest) (le 4 (with_magic (magic_age s))) new ->
  full = true \/ valid_sector (sector_of new) = true -> sector_of new = marked s.
Proof.
  intros Hu Hok Hp Hv. pose proof (programmed_drop _ _ _ _ Hp) as Hd. rewrite le_length in Hd.
  assert (exists a b c d new', new = a :: b :: c :: d :: new') as (a & b & c & d & new' & ->).
  { apply programmed_length in Hp. rewrite length_app, sector_bytes_length in Hp.
    do 4 (destruct new as [|? new]; [cbn in Hp; lia|]). by eexists _, _, _, _, _. }
  assert (programmed full (le 4 (magic_age s)) (le 4 (with_magic (magic_age s))) [a; b; c; d]) as Hw.
  { cbn [sector_bytes le app programmed] in Hp |- *. destruct Hp as (? & ? & ? & ? & _). by split_and!. }
  assert ([a; b; c; d] = le 4 (with_magic (magic_age s))) as Hn.
  { apply (torn_magic_word full); [done|done|]. destruct Hv as [|Hv%Z.eqb_eq]; [by left|by right]. }
  change (a :: b :: c :: d :: new') with ([a; b; c; d] ++ new') in *. rewrite Hn in *. rewrite drop_app_length' in Hd by (by rewrite le_length).
  unfold sector_bytes in Hd. rewrite <- !app_assoc, drop_app_length' in Hd by (by rewrite le_length). rewrite Hd.
  rewrite <- (sector_roundtrip (marked s) rest) by (by apply marked_ok). unfold sector_bytes, marked. by rewrite <- !app_assoc.
Qed.

(** ** The switch *)

Section Switched.
Context {E V F : Type} (lib : mtd_lib F) (sys : mtd_system) (mem : nat -> bool).
Context (nor_write : F -> Z -> bytes -> Z * F) (reopen : Z -> option Z).
#[local] Abbreviation mach := (machine E V (gmap Z F)).

Lemma write_admin_safe mtd `{!MtdSpec lib mtd} `{!NorSpec lib mtd nor_write} s f ret f' n :
  unmarked s -> sector_ok s -> first_block lib mtd f = replicate n FLASH_EMPTY_BYTE ->
  (SECTOR_SIZE <= n)%nat -> (SECTOR_SIZE <= mtd_eb_size mtd)%nat -> write_admin nor_write s f = (ret, f') ->
  let t := sector_of (first_block lib mtd f') in
  length (first_block lib mtd f') = n /\ (ret = 0 \/ valid_sector t = true -> t = marked s).
Proof.
  intros Hu Hok Hf Hn Heb. unfold write_admin. destruct (nor_write f 0 (sector_bytes s)) as [r1 f1] eqn:E1.
  pose proof (nor_write_spec lib mtd nor_write _ _ _ _ E1) as H1. rewrite sector_bytes_length, Hf in H1. specialize (H1 Heb).
  pose proof (programmed_length _ _ _ _ H1) as Hl1. rewrite length_replicate in Hl1.
  destruct (r1 =? Z.of_nat SECTOR_SIZE); cbn [negb].
  2: { intros [= <- <-]. split; [done|]. rewrite (torn_data_invalid _ _ _ Hu H1). by intros [|]. }
  destruct (nor_write f1 0 _) as [r2 f2] eqn:E2. intros [= <- <-].
  pose proof (nor_write_spec lib mtd nor_write _ _ _ _ E2) as H2. rewrite le_length in H2. specialize (H2 ltac:(unfold SECTOR_SIZE in *; lia)).
  pose proof (programmed_length _ _ _ _ H2) as Hl2. split; [congruence|]. intros Hv.
  rewrite <- (take_drop SECTOR_SIZE (first_block lib mtd f1)) in H2. pose proof (programmed_take _ _ _ H1) as Ht.
  rewrite sector_bytes_length, zip_empty in Ht by (by rewrite sector_bytes_length). rewrite Ht in H2.
  apply (torn_magic _ _ _ _ Hu Hok H2). destruct Hv as [Hv|Hv]; [left|by right]. change (Z.of_nat 4) with 4.
  by destruct (r2 =? 4).
Qed.

Lemma next_unmarked a : unmarked (next_sector a).
Proof.
  set (g := ssbl_get_age (admin_at a (get_active_ssbl a)) + 1). exists (Z.to_nat (g mod 3)).
  pose proof (Z.mod_pos_bound g 3 ltac:(lia)). split; [lia|]. cbn [magic_age next_sector]. by rewrite Z2Nat.id by lia.
Qed.

Lemma next_age a : get_ssbl_age (magic_age (marked (next_sector a))) = (ssbl_get_age (admin_at a (get_active_ssbl a)) + 1) mod 3.
Proof.
  rewrite (proj2 (marked_valid _ (next_unmarked a))). cbn [magic_age next_sector].
  pose proof (Z.mod_pos_bound (ssbl_get_age (admin_at a (get_active_ssbl a)) + 1) 3 ltac:(lia)) as H.
  set (g := (ssbl_get_age (admin_at a (get_active_ssbl a)) + 1) mod 3) in *.
  assert (g = 0 \/ g = 1 \/ g = 2) as [->|[->| ->]] by lia; done.
Qed.

(** A device that was read can be read again, with what it holds then. *)
Lemma read_admin_inv w p q :
  read_admin lib sys w p = inr q ->
  (exists f, w !! ssbl_mtdnum q = Some f) /\
  (forall w', w' !! ssbl_mtdnum q = w !! ssbl_mtdnum q -> read_admin lib sys w' p = inr q) /\
  (forall w' f' bs, w' !! ssbl_mtdnum q = Some f' -> mtd_pread lib f' 0 SECTOR_SIZE = Some bs -> length bs = SECTOR_SIZE ->
    read_admin lib sys w' p = inr (set_sector (sector_of bs) q)) /\
  mtd_dev_present sys (ssbl_mtdnum q) = true /\ mtd_open sys (ssbl_mtdnum q) = None.
Proof.
  unfold read_admin. set (p1 := if _ <? 0 then _ else _). destruct (_ || _) eqn:Eg; [done|].
  apply orb_false_iff in Eg as [_ Hp%negb_false_iff]. destruct (mtd_open sys (ssbl_mtdnum p1)) eqn:Eo; [done|].
  destruct (w !! ssbl_mtdnum p1) as [f|] eqn:Ew; [|done]. destruct (mtd_pread lib f 0 SECTOR_SIZE) as [bs|] eqn:Er; [|done].
  intros [= <-]. cbn [set_sector ssbl_mtdnum]. split_and!; [by exists f| | |done|done].
  - intros w' ->. by rewrite Ew, Er.
  - intros w' f' bs' -> -> Hl. replace (put _ (take SECTOR_SIZE bs')) with bs'; [done|].
    rewrite take_ge by lia. unfold put. by rewrite drop_ge, app_nil_r by (rewrite length_replicate; lia).
Qed.
(** The two copies after the inactive one has got [t]. *)
Definition replaced (a : admins) (t : ssbl_admin_sector) : admins :=
  if (get_inactive_ssbl a =? 0)%nat then (set_sector t a.1, a.2) else (a.1, set_sector t a.2).

Lemma replaced_active a t :
  ssbl_verify_magic (admin_at a (get_active_ssbl a)) = true -> (valid_sector t = true -> t = marked (next_sector a)) ->
  let q := replaced a t in
  (valid_sector t = false -> get_active_ssbl q = get_active_ssbl a /\ admin_at q (get_active_ssbl q) = admin_at a (get_active_ssbl a)) /\
  (valid_sector t = true -> get_active_ssbl q = get_inactive_ssbl a /\ ssbl (admin_at q (get_active_ssbl q)) = t).
Proof.
  intros Hold Ht q. pose proof (next_age a) as Hage. unfold q, replaced.
  assert (get_inactive_ssbl a = 0%nat \/ get_inactive_ssbl a = 1%nat) as Hi.
  { unfold get_inactive_ssbl. repeat (destruct (negb _)); auto. destruct (_ >? _); auto. }
  assert (get_active_ssbl a = (1 - get_inactive_ssbl a)%nat) as Ha by (unfold get_active_ssbl; destruct Hi as [-> | ->]; done).
  rewrite Ha in *. destruct a as [p0 p1]. cbn [fst snd].
  destruct Hi as [Hi|Hi]; rewrite Hi in *; cbn [Nat.eqb Nat.sub admin_at fst snd] in *.
  - split; intros Hv.
    + destruct (invalid_is_inactive p1 (set_sector t p0) Hold Hv) as [_ ->]. done.
    + destruct (newer_is_active p1 (set_sector t p0) Hold Hv) as [_ ->]; [|done]. unfold ssbl_get_age at 1. cbn [ssbl set_sector].
      by rewrite (Ht Hv), Hage.
  - split; intros Hv.
    + destruct (invalid_is_inactive p0 (set_sector t p1) Hold Hv) as [-> _]. done.
    + destruct (newer_is_active p0 (set_sector t p1) Hold Hv) as [-> _]; [|done]. unfold ssbl_get_age at 1. cbn [ssbl set_sector].
      by rewrite (Ht Hv), Hage.
Qed.
(** The numbers of the properties have 32 bits. *)
Definition numbers_ok (p : ssbl_priv) : Prop := 0 <= image_offs p < 2 ^ 32 /\ 0 <= image_size p < 2 ^ 32.

Lemma retrieve_numbers img l a a' :
  retrieve_all img l a = Some a' -> numbers_ok a.1 /\ numbers_ok a.2 -> numbers_ok a'.1 /\ numbers_ok a'.2.
Proof.
  revert a. induction l as [|[name mb] l IH]; intros a; cbn [retrieve_all]; [by intros [= <-]|].
  unfold ssbl_retrieve_property. destruct (dict_get_list _ _) as [[|v0 [|v1 [|]]]|]; try done. intros H Ha. apply (IH _ H).
  pose proof (fun v => wrap_range 32 (strtoul v 0) ltac:(lia)) as Hr. destruct Ha as [[] []].
  destruct mb; cbn; repeat split; cbn; try apply Hr; lia.
Qed.

Lemma read_numbers w p q : read_admin lib sys w p = inr q -> numbers_ok p -> numbers_ok q.
Proof.
  unfold read_admin. set (p1 := if _ <? 0 then _ else _). assert (numbers_ok p -> numbers_ok p1) as H.
  { unfold p1. by destruct (_ <? 0). }
  destruct (_ || _); [done|]. destruct (mtd_open sys _); [done|]. destruct (w !! _); [|done]. destruct (mtd_pread lib _ 0 _); [|done].
  intros [= <-]. exact H.
Qed.

(** A NOR device: its blocks, whose first one is good, can be erased, and a sector fits into one. *)
Record nor_device (n : Z) (f : F) `{!MtdSpec lib (mtd_info sys n)} : Prop := {
  nd_blocks : exists blocks, (0 < blocks)%nat /\
    mtd_size (mtd_info sys n) = Z.of_nat blocks * Z.of_nat (mtd_eb_size (mtd_info sys n));
  nd_size : mtd_size (mtd_info sys n) < 2 ^ 32;
  nd_geometry : mtd_geometry sys n;
  nd_sector : (SECTOR_SIZE <= mtd_eb_size (mtd_info sys n))%nat;
  nd_good : bad f 0 = false;
  nd_mem : mem (mtd_eb_size (mtd_info sys n)) = true;
  nd_erase : forall ret f', flash_erase lib sys mem n f = Some (ret, f') -> ret = 0;
}.

Lemma blank_first_block n f `{!MtdSpec lib (mtd_info sys n)} :
  mtd_geometry sys n -> blank lib sys n f 0 ->
  first_block lib (mtd_info sys n) f = replicate (mtd_eb_size (mtd_info sys n)) FLASH_EMPTY_BYTE.
Proof.
  intros (Hio & Heb & Hm) Hb. apply Nat.Div0.mod_divides in Hm as [c Hc].
  assert (ppb (mtd_info sys n) = c) as Hp by (unfold ppb; rewrite Hc, Nat.mul_comm; apply Nat.div_mul; lia).
  unfold first_block, blank in *. rewrite Hp in *. rewrite Hc, Nat.mul_comm. clear Hc Hp.
  induction c as [|c IH]; [done|]. rewrite seq_S, map_app, concat_app, IH by auto. cbn [map concat Nat.add].
  rewrite app_nil_r, Hb, <- replicate_add by lia. f_equal. lia.
Qed.

Lemma erased_sector n f `{!MtdSpec lib (mtd_info sys n)} :
  supports lib -> (forall f b e, (mtd_unlock lib f b).1 = Some e -> e = EOPNOTSUPP) -> nor_device n f ->
  mtd_dev_present sys n = true -> mtd_open sys n = None ->
  exists f', flash_erase lib sys mem n f = Some (0, f') /\
    first_block lib (mtd_info sys n) f' = replicate (mtd_eb_size (mtd_info sys n)) FLASH_EMPTY_BYTE.
Proof.
  intros sup Hun [[blocks [Hb Hbl]] Hsz Hgeo Hsec Hgood Hmem Her] Hp Ho.
  destruct (flash_erase_erases lib sys mem n sup Hun blocks Hbl Hsz) with (f := f) as (ret & f' & E1 & _ & _ & Hblank); try done.
  { unfold SECTOR_SIZE in Hsec. lia. }
  exists f'. pose proof (Her _ _ E1) as ->. split; [done|]. apply blank_first_block; [done|]. by apply Hblank.
Qed.
Lemma blank_invalid n : (SECTOR_SIZE <= n)%nat -> valid_sector (sector_of (replicate n FLASH_EMPTY_BYTE)) = false.
Proof. intros H. unfold SECTOR_SIZE in H. do 4 (destruct n as [|n]; [lia|]). done. Qed.

(** Whatever the kernel answers, the inactive copy is not valid or it is the new one. *)
Lemma perform_switch_safe (a : admins) w f (n := ssbl_mtdnum (admin_at a (get_inactive_ssbl a)))
    `{!MtdSpec lib (mtd_info sys n)} `{!NorSpec lib (mtd_info sys n) nor_write} :
  supports lib -> (forall f b e, (mtd_unlock lib f b).1 = Some e -> e = EOPNOTSUPP) -> nor_device n f -> w !! n = Some f ->
  mtd_dev_present sys n = true -> mtd_open sys n = None -> numbers_ok (admin_at a (get_inactive_ssbl a)) ->
  exists ret f', perform_switch lib sys mem nor_write reopen a w = Some (ret, <[n := f']> w) /\
    (SECTOR_SIZE <= length (first_block lib (mtd_info sys n) f'))%nat /\
    let t := sector_of (first_block lib (mtd_info sys n) f') in ret = 0 \/ valid_sector t = true -> t = marked (next_sector a).
Proof.
  intros sup Hun Hnd Hw Hp Ho Hnum. unfold perform_switch. fold n. rewrite Hw.
  destruct (erased_sector n f sup Hun Hnd Hp Ho) as (f1 & -> & Hblank). pose proof (nd_sector _ _ Hnd) as Hs.
  destruct (reopen n).
  { exists (- ENODEV), f1. rewrite Hblank, length_replicate. split_and!; [done|done|]. rewrite blank_invalid by done. by intros [|]. }
  destruct (write_admin nor_write (next_sector a) f1) as [ret f2] eqn:Ew. exists ret, f2.
  destruct (write_admin_safe (mtd_info sys n) (next_sector a) f1 ret f2 (mtd_eb_size (mtd_info sys n))) as [Hl Ht]; try done.
  - apply next_unmarked.
  - destruct Hnum. split; [|done]. cbn [magic_age next_sector].
    pose proof (Z.mod_pos_bound (ssbl_get_age (admin_at a (get_active_ssbl a)) + 1) 3 ltac:(lia)) as H3.
    set (g := (_ + 1) mod 3) in *. assert (g = 0 \/ g = 1 \/ g = 2) as [->|[->| ->]] by lia; by vm_compute.
  - split_and!; [done|by rewrite Hl|done].
Qed.

Lemma sector_of_take bs : sector_of (take SECTOR_SIZE bs) = sector_of bs.
Proof. unfold sector_of, slice. by rewrite !skipn_firstn_comm, !take_take. Qed.

(** The copies that are read afterwards. *)
Lemma reread w (a : admins) p0 p1 f' (n := ssbl_mtdnum (admin_at (p0, p1) (get_inactive_ssbl (p0, p1))))
    `{!MtdSpec lib (mtd_info sys n)} `{!NorSpec lib (mtd_info sys n) nor_write} :
  read_admin lib sys w a.1 = inr p0 -> read_admin lib sys w a.2 = inr p1 -> ssbl_mtdnum p0 <> ssbl_mtdnum p1 ->
  (SECTOR_SIZE <= length (first_block lib (mtd_info sys n) f'))%nat ->
  let q := replaced (p0, p1) (sector_of (first_block lib (mtd_info sys n) f')) in
  read_admin lib sys (<[n := f']> w) a.1 = inr q.1 /\ read_admin lib sys (<[n := f']> w) a.2 = inr q.2.
Proof.
  intros H0 H1 Hne Hl. pose proof (nor_pread lib (mtd_info sys n) nor_write f' SECTOR_SIZE) as Hr.
  apply read_admin_inv in H0 as (_ & K0 & R0 & _). apply read_admin_inv in H1 as (_ & K1 & R1 & _).
  assert (length (take SECTOR_SIZE (first_block lib (mtd_info sys n) f')) = SECTOR_SIZE) as Ht by (rewrite length_take; lia).
  revert Hr Ht. rewrite <- (sector_of_take (first_block _ _ _)). generalize (take SECTOR_SIZE (first_block lib (mtd_info sys n) f')).
  intros bs Hr Ht. unfold replaced. subst n. destruct (Nat.eqb_spec (get_inactive_ssbl (p0, p1)) 0) as [Hi|Hi]; unfold admin_at.
  - rewrite Hi. cbn [fst snd Nat.eqb]. split; [apply (R0 _ f'); [apply lookup_insert_eq|done|done]|].
    apply K1. by rewrite lookup_insert_ne.
  - apply Nat.eqb_neq in Hi. rewrite Hi. cbn [fst snd]. split; [apply K0; by rewrite lookup_insert_ne|].
    apply (R1 _ f'); [apply lookup_insert_eq|done|done].
Qed.

(** C24: the switch of the boot set is safe: whatever fails after the inactive sector is erased, also a write that stops after
    any number of bits, the flash holds a valid record for the loader, the one that was in use or, complete, the new
    one. When the handler succeeds it is the new one, with the image that the description names, and the age
    is the next one, so that the copies alternate. *)
Theorem ssbl_swap_safe (img : img_type) (d : handler_data) (m : mach) (a : admins) (p0 p1 : ssbl_priv) (f : F)
    (old := admin_at (p0, p1) (get_active_ssbl (p0, p1))) (next := admin_at (p0, p1) (get_inactive_ssbl (p0, p1)))
    `{!MtdSpec lib (mtd_info sys (ssbl_mtdnum next))} `{!NorSpec lib (mtd_info sys (ssbl_mtdnum next)) nor_write} :
  supports lib -> (forall f b e, (mtd_unlock lib f b).1 = Some e -> e = EOPNOTSUPP) ->
  scriptfn d = Some POSTINSTALL -> retrieve_all img ssbl_proplist (no_admin, no_admin) = Some a ->
  read_admin lib sys (m_world m) a.1 = inr p0 -> read_admin lib sys (m_world m) a.2 = inr p1 ->
  ssbl_mtdnum p0 <> ssbl_mtdnum p1 -> ssbl_verify_magic old = true ->
  m_world m !! ssbl_mtdnum next = Some f -> nor_device (ssbl_mtdnum next) f ->
  exists ret m' q0 q1, ssbl_swap lib sys mem nor_write reopen img d m = Some (ret, img, m') /\
    read_admin lib sys (m_world m') a.1 = inr q0 /\ read_admin lib sys (m_world m') a.2 = inr q1 /\
    let active := admin_at (q0, q1) (get_active_ssbl (q0, q1)) in
    ssbl_verify_magic active = true /\
    (ret = 0 \/ ssbl active <> ssbl old ->
     get_active_ssbl (q0, q1) = get_inactive_ssbl (p0, p1) /\ ssbl_get_age active = (ssbl_get_age old + 1) mod 3 /\
     adm_image_offs (ssbl active) = image_offs next /\ adm_image_size (ssbl active) = image_size next).
Proof.
  intros sup Hun Hd Ha H0 H1 Hne Hold Hw Hnd.
  assert (numbers_ok next /\ mtd_dev_present sys (ssbl_mtdnum next) = true /\ mtd_open sys (ssbl_mtdnum next) = None) as (Hnum & Hp & Ho).
  { destruct (retrieve_numbers _ _ _ _ Ha) as [N0 N1]; [by cbn|].
    apply (read_numbers _ _ _ H0) in N0. apply (read_numbers _ _ _ H1) in N1.
    apply read_admin_inv in H0 as (_ & _ & _ & P0 & O0). apply read_admin_inv in H1 as (_ & _ & _ & P1 & O1).
    unfold next, admin_at. by destruct (_ =? 0)%nat. }
  destruct (perform_switch_safe (p0, p1) (m_world m) f sup Hun Hnd Hw Hp Ho Hnum) as (ret & f' & Es & Hl & Ht).
  destruct (reread (m_world m) a p0 p1 f' H0 H1 Hne Hl) as [R0 R1]. fold next in R0, R1, Ht.
  set (t := sector_of _) in *. set (q := replaced (p0, p1) t) in *.
  exists ret, (mk_machine (m_files m) (m_env m) (m_vars m) (m_bootdict m) (<[ssbl_mtdnum next := f']> (m_world m))), q.1, q.2.
  split; [unfold ssbl_swap; rewrite Hd, Ha, H0, H1, Es; done|]. split_and!; [exact R0|exact R1|]. rewrite <- surjective_pairing.
  destruct (replaced_active (p0, p1) t Hold) as [Hinv Hval]; [intros Hv; apply Ht; by right|]. fold q in Hinv, Hval.
  destruct (valid_sector t) eqn:Ev.
  - destruct (Hval eq_refl) as [-> Hs]. assert (t = marked (next_sector (p0, p1))) as Et by (apply Ht; by right).
    rewrite Et in Hs, Ev. split; [unfold ssbl_verify_magic; by rewrite Hs|].
    intros _. unfold ssbl_get_age at 1. rewrite Hs, next_age. done.
  - destruct (Hinv eq_refl) as [_ ->]. split; [done|]. intros [H|H]; [|done].
    assert (t = marked (next_sector (p0, p1))) as Et by (apply Ht; by left).
    by rewrite Et, (proj1 (marked_valid _ (next_unmarked _))) in Ev.
Qed.
End Switched.

(** A device of 4 GiB is not erased, and the result says that it is. *)
Theorem huge_device_not_erased {F} (lib : mtd_lib F) (sys : mtd_system) (mem : nat -> bool) (mtdnum : Z) (f : F) :
  mtd_dev_present sys mtdnum = true -> mtd_open sys mtdnum = None -> (forall n, mem n = true) ->
  (0 < mtd_eb_size (mtd_info sys mtdnum))%nat -> mtd_size (mtd_info sys mtdnum) = 2 ^ 32 ->
  flash_erase lib sys mem mtdnum f = Some (0, f).
Proof.
  intros Hp Ho Hm Heb Hs. unfold flash_erase, flash_erase_sector. rewrite Hp, Ho, Hm. cbn [negb].
  destruct (Nat.eqb_spec (mtd_eb_size (mtd_info sys mtdnum)) 0); [lia|].
  replace (erase_end (mtd_info sys mtdnum) 0 0) with 0%nat; [done|].
  unfold erase_end. rewrite Hs. cbn [Z.eqb]. change (u32 (0 + 2 ^ 32)) with 0. by rewrite Zdiv_0_l, Zmod_0_l.
Qed.

(** ** Example *)

(** Two NOR devices with two blocks of 16 bytes. [frail]: erasing fails. *)
Definition nor_mtd : mtd_dev := mk_mtd_dev "admin" false 32 16 16 0.
Definition nor_chip : Type := nat -> bytes.
Definition nor_block (f : nor_chip) (b : nat) : bytes := resize 16 FLASH_EMPTY_BYTE (f b).

Definition nor_lib (frail : bool) : mtd_lib nor_chip := {|
  mtd_erase f b := if frail then (Some EIO, f) else (None, fun b' => if (b' =? b)%nat then [] else f b');
  mtd_mark_bad f b := (Some EIO, f);
  mtd_is_bad f b := inr false;
  mtd_is_locked f b := inl EOPNOTSUPP;
  mtd_unlock f b := (Some EOPNOTSUPP, f);
  mtd_read f b := inr (nor_block f b);
  mtd_write f b off d o raw := (Some EIO, f);
  mtd_pread f off n := Some (take n (drop (Z.to_nat off) (nor_block f 0)));
|}.

#[export] Program Instance nor_mtd_spec frail : MtdSpec (nor_lib frail) nor_mtd := {
  page f b j := (nor_block f b, []);
  bad f b := false;
}.
Next Obligation. intros. split; [apply length_resize|done]. Qed.
Next Obligation. by intros frail f b v [= <-]. Qed.
Next Obligation.
  cbn. intros [] f b err f' [= <- <-]; (split_and!; [|done|]); try done; unfold nor_block.
  - intros b' Hb. apply Nat.eqb_neq in Hb. by rewrite Hb.
  - intros _ _. by rewrite Nat.eqb_refl.
Qed.
Next Obligation. by intros frail f b err f' [= <- <-]. Qed.
Next Obligation. by intros frail f b err f' [= <- <-]. Qed.
Next Obligation. intros frail f b bs [= <-]. cbn. by rewrite app_nil_r. Qed.
Next Obligation. by intros frail f b k m d o raw err f' [= <- <-]. Qed.

Lemma nor_supports frail : supports (nor_lib frail).
Proof. split; cbn; try done; intros; destruct frail; by simplify_eq/=. Qed.

(** A write that stops after [limit] bytes. *)
Definition stopping_write (limit : nat -> nat) (f : nor_chip) (off : Z) (d : bytes) : Z * nor_chip :=
  let n := Nat.min (limit (length d)) (length d) in
  (Z.of_nat n,
   fun b => if (b =? 0)%nat then zip_with and_byte (nor_block f 0) (take n d) ++ drop n (nor_block f 0) else f b).

Lemma and_byte_of c x : byte_of (and_byte c x) = Z.land (byte_of c) (byte_of x).
Proof.
  unfold and_byte. apply byte_of_ascii_of_Z. pose proof (byte_of_range c). pose proof (byte_of_range x).
  assert (Z.land (byte_of c) (byte_of x) = Z.land (byte_of c) (byte_of x) mod 2 ^ 8) as ->; [|by apply Z.mod_pos_bound].
  rewrite <- (Z.land_ones _ 8), <- Z.land_assoc, (Z.land_ones (byte_of x) 8), (Z.mod_small (byte_of x)) by lia. done.
Qed.

Lemma bits_between_ends c x : bits_between c x c = true /\ bits_between c x (and_byte c x) = true.
Proof.
  unfold bits_between. rewrite and_byte_of, !Z.land_diag, !Z.eqb_refl, (Z.land_comm _ (byte_of c)), Z.land_assoc, Z.land_diag, Z.eqb_refl.
  done.
Qed.

Lemma programmed_prefix n old d :
  (length d <= length old)%nat ->
  programmed (length d <=? n)%nat old d (zip_with and_byte old (take n d) ++ drop (Nat.min n (length d)) old).
Proof.
  revert n old. induction d as [|x d IH]; intros n old Hl; [by rewrite Nat.min_0_r, take_nil; destruct old|].
  destruct old as [|c old]; [cbn in Hl; lia|]. cbn in Hl. destruct n as [|n].
  - cbn [Nat.leb length take]. rewrite zip_with_nil_r. cbn [app drop Nat.min programmed]. split; [apply bits_between_ends|].
    specialize (IH 0%nat old ltac:(lia)). rewrite take_0, zip_with_nil_r in IH. by destruct d.
  - cbn [Nat.leb length take zip_with app Nat.min drop programmed]. split; [|apply IH; lia].
    destruct (_ <=? _)%nat; [done|]. apply bits_between_ends.
Qed.

#[export] Instance stopping_nor_spec frail limit : NorSpec (nor_lib frail) nor_mtd (stopping_write limit).
Proof.
  assert (forall f, first_block (nor_lib frail) nor_mtd f = nor_block f 0) as Hf by (intros f; apply app_nil_r).
  split.
  - intros f n. by rewrite Hf.
  - intros f d ret f' [= <- <-] Hl. cbn in Hl. rewrite !Hf. set (k := limit (length d)).
    assert (length (nor_block f 0) = 16%nat) as H16 by apply length_resize.
    pose proof (programmed_prefix k (nor_block f 0) d ltac:(rewrite H16; exact Hl)) as Hp.
    replace (Z.of_nat (Nat.min k (length d)) =? Z.of_nat (length d)) with (length d <=? k)%nat.
    2: { destruct (Nat.leb_spec (length d) k); symmetry; [apply Z.eqb_eq|apply Z.eqb_neq]; lia. }
    assert (take (Nat.min k (length d)) d = take k d) as Ht.
    { destruct (decide (k <= length d)%nat); [by rewrite Nat.min_l by lia|]. rewrite Nat.min_r, !take_ge by lia. done. }
    unfold nor_block at 2. cbn [Nat.eqb]. rewrite Ht, resize_all_alt; [done|].
    rewrite <- H16. by apply programmed_length in Hp.
Qed.

Definition nor_sys : mtd_system :=
  mk_mtd_system 0 1 (fun _ => nor_mtd) (fun _ => true) (fun _ => Some 32) Some (fun _ => None) (fun _ => None)
    (fun _ => None).

(** Copy 0 with age 1 is in use, copy 1 with age 0 is the older one. *)
Definition in_use : ssbl_admin_sector := mk_sector (SSBL_MAGIC * 8 + 1) 0x100 0x40.
Definition older : ssbl_admin_sector := mk_sector (SSBL_MAGIC * 8) 0x200 0x50.

Definition nor_state : machine unit unit (gmap Z nor_chip) :=
  mk_machine ∅ tt tt [] {[ 0 := (fun _ => sector_bytes in_use); 1 := (fun _ => sector_bytes older) ]}.

Definition switch_image : img_type :=
  dev_image "" 0 "" "" "" [mk_dict_entry "device" ["mtd0"; "mtd1"]; mk_dict_entry "offset" ["0"; "0"];
    mk_dict_entry "imageoffs" ["0x100"; "0x280"]; mk_dict_entry "imagesize" ["0x40"; "0x50"]] [].

#[local] Abbreviation run_switch frail limit :=
  (ssbl_swap (nor_lib frail) nor_sys (fun _ => true) (stopping_write limit) (fun _ => None) switch_image
     (mk_hdata (Some POSTINSTALL) 0) nor_state).

(** The record that is in use after a run. *)
Definition chosen {E V} (r : option (Z * img_type * machine E V (gmap Z nor_chip))) : option (Z * nat * ssbl_admin_sector) :=
  match r with
  | Some (ret, _, m) =>
      match retrieve_all switch_image ssbl_proplist (no_admin, no_admin) with
      | Some a =>
          match read_admin (nor_lib false) nor_sys (m_world m) a.1, read_admin (nor_lib false) nor_sys (m_world m) a.2 with
          | inr p0, inr p1 => Some (ret, get_active_ssbl (p0, p1), ssbl (admin_at (p0, p1) (get_active_ssbl (p0, p1))))
          | _, _ => None
          end
      | None => None
      end
  | None => None
  end.

(** The switch, one that stops in the record and one that stops in the magic number. *)
Example switch_runs :
  chosen (run_switch false (fun _ => 16%nat)) = Some (0, 1%nat, mk_sector (SSBL_MAGIC * 8 + 2) 0x280 0x50) /\
  chosen (run_switch false (fun _ => 7%nat)) = Some (- EIO, 0%nat, in_use) /\
  chosen (run_switch false (fun n => if (n =? 4)%nat then 3%nat else n)) = Some (- EIO, 0%nat, in_use).
Proof. split_and!; vm_compute; reflexivity. Qed.

(** When erasing fails, the handler goes on, and reports success for a switch that did not happen. *)
Theorem failed_erase_succeeds :
  (flash_erase (nor_lib true) nor_sys (fun _ => true) 1 (fun _ => sector_bytes older)) =
    Some (- EIO, fun _ => sector_bytes older) /\
  chosen (run_switch true (fun _ => 16%nat)) = Some (0, 0%nat, in_use).
Proof. split; [done|vm_compute; reflexivity]. Qed.

(** The copies of the example. *)
Definition sample_admins : admins :=
  match retrieve_all switch_image ssbl_proplist (no_admin, no_admin) with Some a => a | None => (no_admin, no_admin) end.
Definition sample_copy (p : ssbl_priv) : ssbl_priv :=
  match read_admin (nor_lib false) nor_sys (m_world nor_state) p with inr q => q | inl _ => no_admin end.
#[local] Abbreviation copy0 := (sample_copy sample_admins.1).
#[local] Abbreviation copy1 := (sample_copy sample_admins.2).

Lemma sample_retrieved : retrieve_all switch_image ssbl_proplist (no_admin, no_admin) = Some sample_admins.
Proof. vm_compute. reflexivity. Qed.

Lemma sample_read :
  read_admin (nor_lib false) nor_sys (m_world nor_state) sample_admins.1 = inr copy0 /\
  read_admin (nor_lib false) nor_sys (m_world nor_state) sample_admins.2 = inr copy1 /\
  ssbl_mtdnum copy0 <> ssbl_mtdnum copy1 /\ ssbl_verify_magic (admin_at (copy0, copy1) (get_active_ssbl (copy0, copy1))) = true /\
  ssbl_mtdnum (admin_at (copy0, copy1) (get_inactive_ssbl (copy0, copy1))) = 1.
Proof. split_and!; vm_compute; try reflexivity. discriminate. Qed.

Lemma sample_device n : nor_device (nor_lib false) nor_sys (fun _ => true) n (fun _ => sector_bytes older)
  (MtdSpec0 := nor_mtd_spec false).
Proof.
  split; try done.
  - exists 2%nat. split; [lia|done].
  - split_and!; cbn; lia.
  - cbn. unfold SECTOR_SIZE. lia.
  - intros ret f' H. vm_compute in H. by injection H.
Qed.

Lemma ssbl_swap_safe_witness :
  exists ret m' q0 q1, run_switch false (fun n => if (n =? 4)%nat then 3%nat else n) = Some (ret, switch_image, m') /\
    read_admin (nor_lib false) nor_sys (m_world m') sample_admins.1 = inr q0 /\
    read_admin (nor_lib false) nor_sys (m_world m') sample_admins.2 = inr q1 /\
    ssbl_verify_magic (admin_at (q0, q1) (get_active_ssbl (q0, q1))) = true.
Proof.
  destruct sample_read as (R0 & R1 & Hne & Hact & Hn).
  destruct (ssbl_swap_safe (nor_lib false) nor_sys (fun _ => true) (stopping_write (fun n => if (n =? 4)%nat then 3%nat else n))
    (fun _ => None) switch_image (mk_hdata (Some POSTINSTALL) 0) nor_state sample_admins copy0 copy1
    (fun _ => sector_bytes older) (MtdSpec0 := nor_mtd_spec false) (NorSpec0 := stopping_nor_spec false _))
    as (ret & m' & q0 & q1 & H1 & H2 & H3 & H4 & _).
  - apply nor_supports.
  - by intros f b e [= <-].
  - done.
  - apply sample_retrieved.
  - exact R0.
  - exact R1.
  - exact Hne.
  - exact Hact.
  - rewrite Hn. done.
  - apply sample_device.
  - exists ret, m', q0, q1. split_and!; [exact H1|exact H2|exact H3|exact H4].
Defined.
