(* ===== verification/Ucfw.v ===== *)
(** * Firmware of a microcontroller: [handlers/ucfw_handler.c]

    The microcontroller is reset into its loader with two GPIO lines, and the firmware is sent over a serial line, record by
    record. Every record is answered with a message that carries a checksum. The serial line and libgpiod (version 2) are
    parameters: plans say what writes, reads and GPIO calls give. *)
From stdpp Require Import list.
From S2P Require Import Prelude CString Util Dict Crypto Keys Cpio Memory.
From S2P Require Import Copyfile Image Installer Handlers.

(** ** Messages *)

Definition CR : ascii := "013".
Definition LF : ascii := "010".
Definition DOLLAR : ascii := "$".

Definition is_eol (c : ascii) : bool := Ascii.eqb c CR || Ascii.eqb c LF.

(** The [while] that drops the end of the line. *)
Fixpoint drop_eol (rev_buf : bytes) : bytes :=
  match rev_buf with
  | c :: rest => if is_eol c then drop_eol rest else rev_buf
  | [] => []
  end.
Definition strip_eol (buf : bytes) : bytes := reverse (drop_eol (reverse buf)).

(** Only the low byte of the sum is used, so that it does not matter whether [char] is signed. *)
Definition chksum_add (bs : bytes) (chksum : Z) : Z := foldl (fun c b => u16 (c + byte_of b)) chksum bs.

(** Whether the checksum is right, and the message without it. A message that is nothing but a start marker and ends
    of line has its checksum read from the byte in front of the array, [below]; it is not shortened. *)
Definition verify_chksum (below : ascii) (buf : bytes) : bool * bytes :=
  if (length buf <? 3)%nat then (false, buf)
  else
    let line := strip_eol buf in
    match line with
    | [c] => (Z.land (from_ascii [below; c] 2 LG_16) 255 =? 0, buf)
    | _ =>
        let text := take (length line - 2) line in
        let chksum := u16 (from_ascii (drop (length line - 2) line) 2 LG_16) in
        (Z.land (chksum_add (drop 1 text) chksum) 255 =? 0, text)
    end.

Definition HEX_CODES : string := "0123456789ABCDEF".
Definition upper_hex (d : Z) : ascii := default NUL (String.get (Z.to_nat d) HEX_CODES).

(** [sprintf "%02X"] of a byte. *)
Definition print_02X (b : Z) : bytes := [upper_hex (b / 16); upper_hex (b mod 16)].

Definition insert_chksum (buf : bytes) : bytes :=
  let chksum := u16 (Z.lnot (chksum_add (drop 1 buf) 0) + 1) in
  buf ++ print_02X (Z.land chksum 255) ++ [CR; LF].

(** ** The state of the handler *)

Inductive gpio_line := Reset_line | Prog_line.

(** What happens outside, in order. [EvNull]: libgpiod is called without a line; [EvOverrun]: a byte is stored behind the
    buffer of the record. *)
Inductive uc_event :=
  | EvGpio (line : gpio_line) (value : Z)
  | EvTx (data : bytes)
  | EvRx (data : bytes)
  | EvClose (fd : Z)
  | EvNull (line : gpio_line)
  | EvOverrun.

Inductive rx_answer := RxTimeout | RxError | RxBytes (data : bytes).

Record handler_priv := mk_priv {
  reset_request : bool;
  prog_request : bool;
  fduart : Z;
  rec_buf : bytes;
  events : list uc_event;
  rx_plan : list rx_answer;
  tx_plan : list nat;
  gpio_plan : list Z;
}.

Definition log (e : uc_event) (p : handler_priv) : handler_priv :=
  mk_priv (reset_request p) (prog_request p) (fduart p) (rec_buf p) (events p ++ [e]) (rx_plan p) (tx_plan p) (gpio_plan p).
Definition set_requests (reset prog : bool) (p : handler_priv) : handler_priv :=
  mk_priv reset prog (fduart p) (rec_buf p) (events p) (rx_plan p) (tx_plan p) (gpio_plan p).
Definition set_fduart (fd : Z) (p : handler_priv) : handler_priv :=
  mk_priv (reset_request p) (prog_request p) fd (rec_buf p) (events p) (rx_plan p) (tx_plan p) (gpio_plan p).
Definition set_rec (buf : bytes) (p : handler_priv) : handler_priv :=
  mk_priv (reset_request p) (prog_request p) (fduart p) buf (events p) (rx_plan p) (tx_plan p) (gpio_plan p).
Definition set_rx (l : list rx_answer) (p : handler_priv) : handler_priv :=
  mk_priv (reset_request p) (prog_request p) (fduart p) (rec_buf p) (events p) l (tx_plan p) (gpio_plan p).
Definition set_tx (l : list nat) (p : handler_priv) : handler_priv :=
  mk_priv (reset_request p) (prog_request p) (fduart p) (rec_buf p) (events p) (rx_plan p) l (gpio_plan p).
Definition set_gpio (l : list Z) (p : handler_priv) : handler_priv :=
  mk_priv (reset_request p) (prog_request p) (fduart p) (rec_buf p) (events p) (rx_plan p) (tx_plan p) l.

(** ** The serial line *)

Definition EPROTO : Z := 71.
Definition EBADMSG : Z := 74.
Definition REC_SIZE : nat := 1024.

(** [write] takes all of the data, or what the plan says. *)
Definition write_data (buf : bytes) (p : handler_priv) : Z * handler_priv :=
  let '(n, plan) := match tx_plan p with [] => (length buf, []) | n :: plan => (Nat.min n (length buf), plan) end in
  (if (n =? length buf)%nat then 0 else - EFAULT, log (EvTx (take n buf)) (set_tx plan p)).

Definition write_msg (msg : string) (p : handler_priv) : Z * handler_priv :=
  write_data (insert_chksum (String.list_ascii_of_string msg)) p.

(** The result, and the string in the array of [size] bytes when it is 0. *)
Definition receive_msg (below : ascii) (size : nat) (p : handler_priv) : (Z * string) * handler_priv :=
  let '(answer, plan) := match rx_plan p with [] => (RxTimeout, []) | a :: plan => (a, plan) end in
  let p := set_rx plan p in
  match answer with
  | RxTimeout => ((- EPROTO, ""), p)
  | RxError => ((- EBADMSG, ""), p)
  | RxBytes data =>
      let rx := take size data in
      let p := log (EvRx rx) p in
      if (length rx <? 3)%nat then ((- EBADMSG, ""), p)
      else
        match rx with
        | c :: _ =>
            if negb (Ascii.eqb c DOLLAR) then ((- EBADMSG, ""), p)
            else
              let '(ok, text) := verify_chksum below rx in
              (if ok then (0, cstring text) else (- EBADMSG, ""), p)
        | [] => ((- EBADMSG, ""), p)
        end
  end.

(** ** GPIO lines *)

Record mode_setup := mk_setup {
  gpiodev : string;
  offset : Z;
  active_low : bool;
}.

(** What libgpiod answers when lines are requested. *)
Record gpio_lib := mk_gpio_lib {
  settings_new : bool;
  request_config_new : bool;
  line_config_new : gpio_line -> bool;
  add_line_settings : gpio_line -> Z;
  chip_open : string -> bool;
  chip_request : string -> Z -> bool;
}.

Section Handler.
Context (gl : gpio_lib) (uart_open : string -> option Z) (below : ascii).

Definition request_lines (reset prog : mode_setup) (p : handler_priv) : Z * handler_priv :=
  if negb (chip_open gl (gpiodev reset)) then (- ENODEV, p)
  else if negb (chip_request gl (gpiodev reset) (offset reset)) then (0, p)
  else
    let p := set_requests true (prog_request p) p in
    if negb (chip_open gl (gpiodev prog)) then (- ENODEV, set_requests false (prog_request p) p)
    else if negb (chip_request gl (gpiodev prog) (offset prog)) then (- ENODEV, p)
    else (0, set_requests true true p).

Definition register_gpios (reset prog : mode_setup) (p : handler_priv) : Z * handler_priv :=
  if negb (settings_new gl) then (- ENODEV, p)
  else if negb (request_config_new gl) then (- ENODEV, p)
  else if negb (line_config_new gl Reset_line) then (- ENODEV, p)
  else if negb (add_line_settings gl Reset_line =? 0) then (add_line_settings gl Reset_line, p)
  else if negb (line_config_new gl Prog_line) then (- ENODEV, p)
  else if negb (add_line_settings gl Prog_line =? 0) then (add_line_settings gl Prog_line, p)
  else request_lines reset prog p.

Definition free_gpios (p : handler_priv) : handler_priv := set_requests false false p.

(** A call without a line is not defined; here it fails. *)
Definition set_value (line : gpio_line) (value : Z) (p : handler_priv) : Z * handler_priv :=
  if match line with Reset_line => reset_request p | Prog_line => prog_request p end then
    let '(ret, plan) := match gpio_plan p with [] => (0, []) | r :: plan => (r, plan) end in
    (ret, log (EvGpio line value) (set_gpio plan p))
  else (-1, log (EvNull line) p).

Definition MODE_PROG : Z := 0.
Definition MODE_NORMAL : Z := 1.

Definition switch_mode (mode : Z) (p : handler_priv) : Z * handler_priv :=
  let '(ret, p) := set_value Reset_line 0 p in
  if negb (ret =? 0) then (ret, p)
  else
    let '(ret, p) := set_value Prog_line mode p in
    if negb (ret =? 0) then (ret, p) else set_value Reset_line 1 p.

(** ** The update *)

Definition prepare_update (dev : string) (reset prog : mode_setup) (p : handler_priv) : Z * handler_priv :=
  let '(ret, p) := register_gpios reset prog p in
  if ret <? 0 then (- ENODEV, p)
  else
    let '(ret, p) := switch_mode MODE_PROG p in
    if ret <? 0 then (- ENODEV, p)
    else
      match uart_open dev with
      | None => (- ENODEV, set_fduart (-1) p)
      | Some fd =>
          let p := set_rec [] (set_fduart fd p) in
          let '(_, p) := write_msg "$PROG;" p in
          let '((len, msg), p) := receive_msg below 128 p in
          if (len <? 0) || negb (String.eqb msg "$READY;") then (- EBADMSG, p) else (0, p)
      end.

(** A byte goes into the buffer. *)
Definition store_byte (c : ascii) (p : handler_priv) : handler_priv :=
  set_rec (rec_buf p ++ [c]) (if (REC_SIZE <=? length (rec_buf p))%nat then log EvOverrun p else p).

Fixpoint update_fw_loop (buf : bytes) (p : handler_priv) : Z * handler_priv :=
  match buf with
  | [] => (0, p)
  | c :: buf =>
      let p := store_byte c p in
      if Ascii.eqb c LF then
        let '(ret, p) := write_data (rec_buf p) p in
        if ret <? 0 then (ret, p)
        else
          let p := if (REC_SIZE <=? length (rec_buf p))%nat then log EvOverrun p else p in
          let '((ret, msg), p) := receive_msg below 80 p in
          let p := set_rec [] p in
          if ret <? 0 then (ret, p)
          else if String.eqb msg "$READY;" then update_fw_loop buf p
          else if String.eqb msg "$COMPLETED;" then (0, p)
          else update_fw_loop buf p
      else update_fw_loop buf p
  end.

Definition update_fw (p : handler_priv) (buf : bytes) : Z * handler_priv := update_fw_loop buf p.

Definition finish_update (p : handler_priv) : Z * handler_priv :=
  let '(ret, p) := switch_mode MODE_NORMAL (log (EvClose (fduart p)) p) in
  (if ret <? 0 then - ENODEV else 0, free_gpios p).
End Handler.

(** ** The properties and the handler *)

Definition COLON : ascii := ":".

(** The text up to a colon, and what is behind it. *)
Fixpoint split_colon (s : string) : string * option string :=
  match s with
  | "" => ("", None)
  | String c s =>
      if Ascii.eqb c COLON then ("", Some s)
      else let '(field, rest) := split_colon s in (String c field, rest)
  end.

(** One value: the device, the number and whether the line is active at low level. [strtoul] does not set [EINVAL] for base
    10, so that the error of the function does not occur. *)
Definition gpio_fields (s : string) (g : mode_setup) : mode_setup :=
  let '(dev, rest) := split_colon s in
  let dev := strlcpy dev SWUPDATE_GENERAL_STRING_SIZE in
  match rest with
  | None => mk_setup dev (offset g) (active_low g)
  | Some s =>
      let '(num, rest) := split_colon s in
      let n := u32 (strtoul num 10) in
      match rest with
      | None => mk_setup dev n (active_low g)
      | Some s => mk_setup dev n (strtobool (Some (split_colon s).1))
      end
  end.

(** Every value of the list overwrites the one before. *)
Definition get_gpio_from_property (prop : list string) : mode_setup :=
  foldl (fun g s => gpio_fields s g) (mk_setup "" 0 false) prop.

Definition start_priv (rx : list rx_answer) (tx : list nat) (gpio : list Z) : handler_priv :=
  mk_priv false false 0 [] [] rx tx gpio.

Section Install.
Context {C D X : Type} (hl : hash_lib C) (dl : decrypt_lib D) (zcfg : config (X := X)) (keys : option decryption_key) (fuel : nat).
Context (gl : gpio_lib) (uart_open : string -> option Z) (below : ascii) (lseek_ok : bool).

(** [copyimage] with the callback. *)
Definition copyimage_uc (img : img_type) (p : handler_priv) : Z * img_type * handler_priv :=
  match copyfile hl dl (update_fw below) fuel zcfg keys (copy_image_args img lseek_ok) p with
  | None => (-1, img, p)
  | Some r => (r_ret r, set_checksum (r_checksum r) (set_fdin (r_fd r) img), r_out r)
  end.

(** The properties "debug" and "timeout" choose what is traced and how long an answer may take: the plan says when there
    is none. *)
Definition install_uc_firmware_image (img : img_type) (p : handler_priv) : Z * img_type * handler_priv :=
  match dict_get_list (properties img) "reset" with
  | None => (- EINVAL, img, p)
  | Some reset =>
      match dict_get_list (properties img) "prog" with
      | None => (- EINVAL, img, p)
      | Some prog =>
          let '(ret, p) :=
            prepare_update gl uart_open below (device img) (get_gpio_from_property reset) (get_gpio_from_property prog) p in
          let '(ret, img, p) := if ret =? 0 then copyimage_uc img p else (ret, img, p) in
          (ret, img, (finish_update p).2)
      end
  end.
End Install.

(** * Properties *)

(** ** The checksum *)

Definition byte_sum (bs : bytes) : Z := foldr (fun b s => byte_of b + s) 0 bs.

Lemma land_255 z : Z.land z 255 = z mod 256.
Proof. exact (Z.land_ones z 8 ltac:(lia)). Qed.

Lemma u16_low z : u16 z mod 256 = z mod 256.
Proof. unfold wrap. apply Z.mod_mod_divide. by exists 256. Qed.

Lemma chksum_add_sum bs c : chksum_add bs c mod 256 = (c + byte_sum bs) mod 256.
Proof.
  unfold chksum_add. revert c. induction bs as [|b bs IH]; intros c; cbn [foldl]; [cbn; by rewrite Z.add_0_r|].
  change (byte_sum (b :: bs)) with (byte_of b + byte_sum bs). rewrite IH, <- (Z.add_mod_idemp_l (u16 _)), u16_low, Z.add_mod_idemp_l by lia. f_equal. lia.
Qed.

Lemma strip_eol_app m : (forall c, last m = Some c -> is_eol c = false) -> m <> [] -> strip_eol (m ++ [CR; LF]) = m.
Proof.
  intros Hl Hm. unfold strip_eol. rewrite reverse_app. cbn [reverse]. change (reverse [CR; LF]) with [LF; CR].
  cbn [app drop_eol]. change (is_eol LF) with true. change (is_eol CR) with true. cbn iota.
  destruct (reverse m) as [|c r] eqn:Er; [by apply (f_equal reverse) in Er; rewrite reverse_involutive in Er|].
  cbn [drop_eol]. rewrite (Hl c); [by rewrite <- Er, reverse_involutive|].
  rewrite <- (reverse_involutive m), Er, reverse_cons. by rewrite last_snoc.
Qed.

Lemma upper_hex_code d : 0 <= d < 16 -> hex_code (upper_hex d) d /\ is_eol (upper_hex d) = false.
Proof.
  intros H. assert (In d (Z.of_nat <$> seq 0 16)) as Hin.
  { apply in_map_iff. exists (Z.to_nat d). split; [lia|]. apply in_seq. lia. }
  cbn in Hin. repeat (destruct Hin as [<-|Hin]; [by vm_compute|]). done.
Qed.

Lemma print_02X_read b : 0 <= b < 256 -> from_ascii (print_02X b) 2 LG_16 = b /\ (forall c, last (print_02X b) = Some c -> is_eol c = false).
Proof.
  intros Hb. pose proof (Z.div_lt_upper_bound b 16 16). pose proof (Z.div_pos b 16). pose proof (Z.mod_pos_bound b 16).
  pose proof (Z.div_mod b 16). split.
  - etrans; [apply (from_ascii_hex (print_02X b) [b / 16; b mod 16] [])|cbn; lia].
    + repeat constructor; apply upper_hex_code; lia.
    + cbn. lia.
  - intros c [= <-]. apply upper_hex_code. lia.
Qed.

(** The frame of a message, with other text in front of its checksum. *)
Lemma verify_framed below m v :
  (0 < length m)%nat -> 0 <= v < 256 ->
  verify_chksum below (m ++ print_02X v ++ [CR; LF]) = ((v + byte_sum (drop 1 m)) mod 256 =? 0, m).
Proof.
  intros Hm Hv. destruct (print_02X_read v Hv) as [Hr Hl]. unfold verify_chksum. rewrite app_assoc.
  assert (length (m ++ print_02X v) = (length m + 2)%nat) as Hlen by (by rewrite length_app).
  destruct (Nat.ltb_spec (length ((m ++ print_02X v) ++ [CR; LF])) 3); [rewrite !length_app in *; cbn in *; lia|].
  rewrite strip_eol_app; [| |by intros E; rewrite E in Hlen; cbn in Hlen; lia].
  2: { intros c Hc. rewrite last_app in Hc. by apply Hl. }
  destruct (m ++ print_02X v) as [|a [|b l]] eqn:E; [cbn in Hlen; lia|cbn in Hlen; lia|]. rewrite <- E in *. rewrite Hlen.
  replace (length m + 2 - 2)%nat with (length m) by lia. rewrite take_app_length, drop_app_length, Hr. f_equal.
  rewrite land_255, chksum_add_sum, <- (Z.add_mod_idemp_l (u16 _)), u16_low, Z.add_mod_idemp_l by lia. done.
Qed.

Lemma insert_chksum_frame m :
  exists v, 0 <= v < 256 /\ insert_chksum m = m ++ print_02X v ++ [CR; LF] /\ (v + byte_sum (drop 1 m)) mod 256 = 0.
Proof.
  unfold insert_chksum. rewrite land_255. set (s := chksum_add (drop 1 m) 0). exists (u16 (Z.lnot s + 1) mod 256).
  pose proof (Z.mod_pos_bound (u16 (Z.lnot s + 1)) 256 ltac:(lia)). split_and!; [lia|lia|done|].
  rewrite u16_low, Z.add_mod_idemp_l, <- Z.add_mod_idemp_r, <- (Z.add_0_l (byte_sum _)), <- chksum_add_sum by lia. fold s.
  rewrite Z.add_mod_idemp_r by lia. unfold Z.lnot. replace (Z.pred (- s) + 1 + s) with 0 by lia. done.
Qed.

(** A message survives: the checksum that is put behind it is accepted, and taken away again. *)
Theorem chksum_roundtrip (below : ascii) (m : bytes) :
  (0 < length m)%nat -> verify_chksum below (insert_chksum m) = (true, m).
Proof. intros Hm. destruct (insert_chksum_frame m) as (v & Hv & -> & Hz). by rewrite verify_framed, Hz. Qed.

Lemma byte_sum_insert i c b bs : bs !! i = Some b -> byte_sum (<[i := c]> bs) = byte_sum bs - byte_of b + byte_of c.
Proof.
  revert i. induction bs as [|x bs IH]; intros [|i] Hi; [done|done| |].
  - injection Hi as ->. cbn. lia.
  - cbn in Hi. cbn [insert list_insert byte_sum foldr]. change (foldr _ 0 (<[i := c]> bs)) with (byte_sum (<[i := c]> bs)).
    change (foldr _ 0 bs) with (byte_sum bs). rewrite (IH _ Hi). lia.
Qed.

(** A byte of the message that changes on the way is detected. *)
Theorem chksum_detects (below c b : ascii) (m : bytes) (i : nat) :
  (0 < i)%nat -> m !! i = Some b -> c <> b -> (verify_chksum below (<[i := c]> (insert_chksum m))).1 = false.
Proof.
  intros Hi Hb Hc. destruct (insert_chksum_frame m) as (v & Hv & -> & Hz). pose proof (lookup_lt_Some _ _ _ Hb) as Hlt.
  rewrite insert_app_l, verify_framed by (rewrite ?length_insert; lia). cbn [fst]. apply Z.eqb_neq. intros H0.
  destruct m as [|x m]; [done|]. destruct i as [|i]; [lia|]. cbn [insert list_insert drop] in *. rewrite !drop_0 in *. cbn in Hb.
  rewrite (byte_sum_insert _ _ _ _ Hb) in H0. pose proof (byte_of_range c). pose proof (byte_of_range b).
  apply Hc, byte_of_inj. apply Z.mod_divide in Hz as [k Hk]; [|lia]. apply Z.mod_divide in H0 as [k' Hk']; [|lia]. lia.
Qed.

(** ** The records *)

Section Records.
Context (below : ascii).

(** The text of an answer, if it is accepted. *)
Definition accepted (size : nat) (data : bytes) : option string :=
  let rx := take size data in
  match rx with
  | c :: _ =>
      if (length rx <? 3)%nat || negb (Ascii.eqb c DOLLAR) then None
      else let '(ok, text) := verify_chksum below rx in if ok then Some (cstring text) else None
  | [] => None
  end.

(** What a message that is received leaves: the next answer of the plan is gone. *)
Lemma receive_msg_ok size p ret msg p' :
  receive_msg below size p = ((ret, msg), p') -> 0 <= ret ->
  exists data rest, rx_plan p = RxBytes data :: rest /\ accepted size data = Some msg /\ p' = log (EvRx (take size data)) (set_rx rest p).
Proof.
  unfold receive_msg, accepted. destruct (rx_plan p) as [|[| |data] rest]; [by intros [= <- <- <-]|by intros [= <- <- <-]|by intros [= <- <- <-]|].
  destruct (_ <? 3)%nat eqn:E3; [by intros [= <- <- <-]|]. destruct (take size data) as [|c rx] eqn:Et; [by intros [= <- <- <-]|].
  destruct (Ascii.eqb c DOLLAR) eqn:Ec; cbn [negb]; [|by intros [= <- <- <-]].
  destruct (verify_chksum below (c :: rx)) as [[] text] eqn:Ev; [|by intros [= <- <- <-]].
  intros [= <- <- <-] _. exists data, rest. rewrite Et, Ec, Ev, E3. done.
Qed.

Lemma write_data_ok buf p ret p' :
  write_data buf p = (ret, p') -> 0 <= ret -> exists plan, p' = log (EvTx buf) (set_tx plan p).
Proof.
  unfold write_data. destruct (tx_plan p) as [|n plan].
  - rewrite Nat.eqb_refl, take_ge by lia. intros [= <- <-] _. by exists [].
  - destruct (Nat.eqb_spec (Nat.min n (length buf)) (length buf)) as [E|]; [|by intros [= <- <-]].
    rewrite E, take_ge by lia. intros [= <- <-] _. by exists plan.
Qed.

(** No record is longer than the buffer; [k] bytes of the first one are already there. *)
Fixpoint short_records (k : nat) (data : bytes) : bool :=
  match data with
  | [] => true
  | c :: data => (S k <? REC_SIZE)%nat && short_records (if Ascii.eqb c LF then 0%nat else S k) data
  end.

Definition records (data : bytes) : nat := length (filter (fun c => c = LF) data).

(** "Completed" is said to the last of [n] records, not before. *)
Definition completes_late (plan : list rx_answer) (n : nat) : Prop :=
  forall k data, plan !! k = Some (RxBytes data) -> accepted 80 data = Some "$COMPLETED;" -> (n <= S k)%nat.

(** The firmware ends with a record. *)
Definition whole_records (data : bytes) : Prop := data = [] \/ last data = Some LF.

Definition exchange (x : bytes * bytes) : list uc_event := [EvTx x.1; EvRx x.2].

(** A record, and an answer that was accepted. *)
Definition answered (x : bytes * bytes) : Prop :=
  (exists t, x.1 = t ++ [LF] /\ LF ∉ t) /\ exists msg, accepted 80 x.2 = Some msg.

(** What has happened between two states: records were sent and answered, in order, and the rest is in the buffer. *)
Definition delivered (p : handler_priv) (data : bytes) (p' : handler_priv) : Prop :=
  exists xs, events p' = events p ++ concat (map exchange xs) /\ rec_buf p ++ data = concat (map fst xs) ++ rec_buf p' /\
    Forall answered xs /\ (LF ∉ rec_buf p') /\ fduart p' = fduart p /\ gpio_plan p' = gpio_plan p /\
    reset_request p' = reset_request p /\ prog_request p' = prog_request p.

Lemma delivered_nil p : LF ∉ rec_buf p -> delivered p [] p.
Proof. intros H. exists []. cbn. by rewrite !app_nil_r. Qed.

Lemma delivered_trans p1 d1 p2 d2 p3 : delivered p1 d1 p2 -> delivered p2 d2 p3 -> delivered p1 (d1 ++ d2) p3.
Proof.
  intros (x1 & E1 & R1 & A1 & _ & F1 & G1 & Q1 & S1) (x2 & E2 & R2 & A2 & N2 & F2 & G2 & Q2 & S2). exists (x1 ++ x2).
  rewrite !map_app, !concat_app. split_and!; try congruence; [by rewrite E2, E1, app_assoc| |by apply Forall_app].
  by rewrite app_assoc, R1, <- !app_assoc, R2.
Qed.

Lemma completes_late_next plan a n : completes_late (a :: plan) (S n) -> completes_late plan n.
Proof. intros H k data Hk Hd. specialize (H (S k) data Hk Hd). lia. Qed.

Lemma whole_records_end data : whole_records data -> records data = 0%nat -> data = [].
Proof.
  intros [|Hl] H0; [done|]. unfold records in H0. apply nil_length_inv in H0. destruct (last_Some data LF) as [E _].
  destruct (E Hl) as [l ->]. rewrite filter_app in H0. cbn in H0. by apply app_eq_nil in H0 as [_ H0].
Qed.
Lemma whole_records_app buf rest : whole_records (buf ++ rest) -> whole_records rest.
Proof.
  intros H. destruct rest as [|c rest]; [by left|]. right. destruct H as [H|H]; [by apply app_eq_nil in H as [_ H]|].
  by rewrite last_app_cons in H.
Qed.

Lemma records_cons c data : records (c :: data) = ((if Ascii.eqb c LF then 1 else 0) + records data)%nat.
Proof.
  unfold records. rewrite filter_cons. destruct (Ascii.eqb_spec c LF); [rewrite decide_True by done|rewrite decide_False by done]; done.
Qed.

Lemma not_elem_snoc (c x : ascii) l : c <> x -> x ∉ l -> x ∉ l ++ [c].
Proof. intros Hc Hn. rewrite elem_of_app, list_elem_of_singleton. by intros [H|H]. Qed.

(** A byte in the middle of a record, and a record that is sent and answered. *)
Lemma delivered_byte c p :
  c <> LF -> LF ∉ rec_buf p -> delivered p [c] (set_rec (rec_buf p ++ [c]) p).
Proof.
  intros Hc Hn. exists []. cbn. rewrite !app_nil_r. split_and!; try done. by apply not_elem_snoc.
Qed.

Lemma delivered_record p plan rest data msg :
  LF ∉ rec_buf p -> accepted 80 data = Some msg ->
  delivered p [LF]
    (set_rec [] (log (EvRx (take 80 data)) (set_rx rest (log (EvTx (rec_buf p ++ [LF])) (set_tx plan (set_rec (rec_buf p ++ [LF]) p)))))).
Proof.
  intros Hn Ha. exists [(rec_buf p ++ [LF], take 80 data)]. cbn. rewrite !app_nil_r, <- app_assoc. split_and!; try done; [|apply not_elem_of_nil].
  constructor; [|done]. split; [by exists (rec_buf p)|]. exists msg. unfold accepted in *. cbn [snd]. by rewrite take_take.
Qed.

Lemma update_fw_loop_delivers buf rest p ret p' :
  update_fw_loop below buf p = (ret, p') -> 0 <= ret -> LF ∉ rec_buf p ->
  short_records (length (rec_buf p)) (buf ++ rest) = true -> completes_late (rx_plan p) (records (buf ++ rest)) ->
  whole_records (buf ++ rest) ->
  delivered p buf p' /\ short_records (length (rec_buf p')) rest = true /\ completes_late (rx_plan p') (records rest).
Proof.
  revert p. induction buf as [|c buf IH]; intros p; cbn [update_fw_loop app].
  { intros [= <- <-] _ Hn Hs Hc _. split_and!; [by apply delivered_nil|done|done]. }
  cbn [short_records]. intros E Hret Hn Hs Hc Hw. apply andb_true_iff in Hs as [Hk%Nat.ltb_lt Hs].
  assert (whole_records (buf ++ rest)) as Hw' by (by apply (whole_records_app [c])).
  rewrite records_cons in Hc. unfold store_byte in E. destruct (Nat.leb_spec REC_SIZE (length (rec_buf p))); [lia|].
  destruct (Ascii.eqb_spec c LF) as [->|Hne].
  2: { destruct (IH _ E Hret) as (H1 & H2 & H3); cbn [rec_buf set_rec rx_plan]; try done.
       - by apply not_elem_snoc.
       - by rewrite length_app, Nat.add_1_r.
       - split_and!; [|done|done]. by apply (delivered_trans p [c] _ buf _ (delivered_byte c p Hne Hn)). }
  cbn [rec_buf set_rec] in E. destruct (write_data _ _) as [r1 p1] eqn:Ew. destruct (Z.ltb_spec r1 0); [injection E as <- <-; lia|].
  destruct (write_data_ok _ _ _ _ Ew) as [plan ->]; [lia|]. cbn [rec_buf log set_tx set_rec] in E.
  rewrite length_app, Nat.add_1_r in E. destruct (Nat.leb_spec REC_SIZE (S (length (rec_buf p)))); [lia|].
  destruct (receive_msg below 80 _) as [[r2 msg] p2] eqn:Er. destruct (Z.ltb_spec r2 0); [injection E as <- <-; lia|].
  destruct (receive_msg_ok _ _ _ _ _ Er) as (data & rx & Hrx & Ha & ->); [lia|].
  pose proof (delivered_record p plan rx data msg Hn Ha) as Hd. cbn [rx_plan log set_tx set_rec] in Hrx. rewrite Hrx in Hc.
  assert (update_fw_loop below buf (set_rec [] (log (EvRx (take 80 data)) (set_rx rx
    (log (EvTx (rec_buf p ++ [LF])) (set_tx plan (set_rec (rec_buf p ++ [LF]) p)))))) = (ret, p') \/
    buf = [] /\ rest = [] /\ p' = set_rec [] (log (EvRx (take 80 data)) (set_rx rx
    (log (EvTx (rec_buf p ++ [LF])) (set_tx plan (set_rec (rec_buf p ++ [LF]) p)))))) as [E'|(-> & -> & ->)].
  { destruct (String.eqb_spec msg "$READY;"); [by left|]. destruct (String.eqb_spec msg "$COMPLETED;") as [->|]; [right|by left].
    specialize (Hc 0%nat data eq_refl Ha). assert (buf ++ rest = []) as Hnil by (apply whole_records_end; [done|lia]).
    apply app_eq_nil in Hnil as [-> ->]. by injection E as <- <-. }
  - destruct (IH _ E' Hret) as (D1 & D2 & D3); try done; [apply not_elem_of_nil|by apply completes_late_next in Hc|].
    split_and!; [by apply (delivered_trans p [LF] _ buf _ Hd)|done|done].
  - split_and!; [done|done|]. intros k d _ _. cbn. lia.
Qed.
End Records.

(** ** The whole update *)

Section Installed.
Context {C D X : Type} (hl : hash_lib C) (dl : decrypt_lib D) (zcfg : config (X := X)) (keys : option decryption_key) (fuel : nat).
Context (gl : gpio_lib) (uart_open : string -> option Z) (below : ascii) (lseek_ok : bool).

Lemma update_sent p out p' :
  sent (update_fw below) p out p' -> LF ∉ rec_buf p -> short_records (length (rec_buf p)) out = true ->
  completes_late below (rx_plan p) (records out) -> whole_records out -> delivered below p out p'.
Proof.
  induction 1 as [p|p b p1 out p2 ret Hc Hr _ IH]; intros Hn Hs Hl Hw; [by apply delivered_nil|].
  destruct (update_fw_loop_delivers below b out p ret p1 Hc Hr Hn Hs Hl Hw) as (Hd & Hs' & Hl'). apply (delivered_trans _ _ _ p1); [done|].
  apply IH; [|done|done|by apply (whole_records_app b)]. by destruct Hd as (? & _ & _ & _ & ? & _).
Qed.

Definition mode_events (mode : Z) : list uc_event := [EvGpio Reset_line 0; EvGpio Prog_line mode; EvGpio Reset_line 1].

Definition gpio_ok (p : handler_priv) : Prop := Forall (fun r => r <= 0) (gpio_plan p).

(** libgpiod sets every line. *)
Definition all_set (p : handler_priv) : Prop := Forall (fun r => r = 0) (gpio_plan p).

Lemma set_value_spec line v p ret p' :
  set_value line v p = (ret, p') -> gpio_ok p -> reset_request p = true -> prog_request p = true ->
  ret <= 0 /\ (all_set p -> ret = 0) /\
  exists plan, p' = log (EvGpio line v) (set_gpio plan p) /\ Forall (fun r => r <= 0) plan /\ plan `suffix_of` gpio_plan p.
Proof.
  unfold set_value, gpio_ok, all_set. intros H Hok Hr Hp. rewrite Hr, Hp in H. destruct line;
  (destruct (gpio_plan p) as [|r plan]; injection H as <- <-; [by split_and!; [| |exists []]|inversion Hok; subst; split_and!;
    [done|by intros [? _]%Forall_cons|exists plan; split_and!; [done|done|by apply suffix_cons_r]]]).
Qed.

Lemma all_set_suffix plan p q : plan `suffix_of` gpio_plan p -> gpio_plan q = plan -> all_set p -> all_set q.
Proof. unfold all_set. intros [l ->] -> H. by apply Forall_app in H as [_ ?]. Qed.

(** The lines are set in their order, as far as libgpiod does not fail. *)
Lemma switch_mode_spec mode p ret p' :
  switch_mode mode p = (ret, p') -> gpio_ok p -> reset_request p = true -> prog_request p = true ->
  exists ev plan, p' = mk_priv true true (fduart p) (rec_buf p) (events p ++ ev) (rx_plan p) (tx_plan p) plan /\
    ev `prefix_of` mode_events mode /\ ev <> [] /\ (0 <= ret -> ev = mode_events mode) /\ (all_set p -> 0 <= ret) /\
    Forall (fun r => r <= 0) plan /\ plan `suffix_of` gpio_plan p.
Proof.
  intros H Hok Hr Hp. unfold switch_mode in H. destruct (set_value Reset_line 0 p) as [r1 p1] eqn:E1.
  destruct (set_value_spec _ _ _ _ _ E1 Hok Hr Hp) as (L1 & A1 & plan1 & -> & F1 & S1).
  destruct (Z.eqb_spec r1 0); cbn [negb] in H.
  2: { injection H as <- <-. exists [EvGpio Reset_line 0], plan1. destruct p; unfold log, set_gpio; cbn in *. subst.
       split_and!; [done|by eexists|done|lia|intros Ha; specialize (A1 Ha); lia|done|done]. }
  destruct (set_value Prog_line mode _) as [r2 p2] eqn:E2.
  destruct (set_value_spec _ _ _ _ _ E2 F1 Hr Hp) as (L2 & A2 & plan2 & -> & F2 & S2).
  assert (all_set p -> r2 = 0) as B2 by (intros Ha; apply A2; by eapply (all_set_suffix plan1 p)). cbn in S2.
  destruct (Z.eqb_spec r2 0); cbn [negb] in H.
  2: { injection H as <- <-. exists [EvGpio Reset_line 0; EvGpio Prog_line mode], plan2. destruct p; unfold log, set_gpio; cbn in *. subst.
       rewrite <- app_assoc. split_and!; [done|by eexists|done|lia|intros Ha; specialize (B2 Ha); lia|done|by etrans]. }
  destruct (set_value_spec _ _ _ _ _ H F2 Hr Hp) as (L3 & A3 & plan3 & -> & F3 & S3).
  assert (all_set p -> ret = 0) as B3 by (intros Ha; apply A3; eapply (all_set_suffix plan2 p); [by etrans|done|done]). cbn in S3.
  exists (mode_events mode), plan3. destruct p; unfold log, set_gpio; cbn in *. subst. rewrite <- !app_assoc.
  split_and!; try done; [intros Ha; specialize (B3 Ha); lia|by etrans; [exact S3|etrans]].
Qed.

Lemma switch_mode_requested mode p ret p' :
  switch_mode mode p = (ret, p') -> 0 <= ret -> gpio_ok p -> reset_request p = true /\ prog_request p = true.
Proof.
  intros H Hr Hok. unfold switch_mode, set_value in H. destruct (reset_request p) eqn:Eq1; [|by injection H as <- <-].
  destruct (gpio_plan p) as [|r plan] eqn:Eg.
  - cbn [negb Z.eqb] in H. destruct (prog_request p) eqn:Eq2; [done|]. cbn in H. rewrite Eq2 in H. by injection H as <- <-.
  - unfold gpio_ok in Hok. rewrite Eg in Hok. inversion Hok; subst. destruct (Z.eqb_spec r 0); cbn [negb] in H; [|injection H as <- <-; lia].
    destruct (prog_request p) eqn:Eq2; [done|]. cbn in H. rewrite Eq2 in H. by injection H as <- <-.
Qed.

Lemma register_gpios_state reset prog p ret p' :
  register_gpios gl reset prog p = (ret, p') -> exists a b, p' = set_requests a b p.
Proof.
  unfold register_gpios, request_lines. intros H. repeat (destruct (negb _); [injection H as <- <-; destruct p; by eexists _, _|]).
  injection H as <- <-. by eexists _, _.
Qed.

(** A successful start: the loader runs and is ready. *)
Lemma prepare_update_ok dev reset prog p p' :
  gpio_ok p -> prepare_update gl uart_open below dev reset prog p = (0, p') ->
  exists fd m data rest plan txs, uart_open dev = Some fd /\ rx_plan p = RxBytes data :: rest /\
    m `prefix_of` insert_chksum (String.list_ascii_of_string "$PROG;") /\ accepted below 128 data = Some "$READY;" /\
    Forall (fun r => r <= 0) plan /\ plan `suffix_of` gpio_plan p /\
    p' = mk_priv true true fd [] (events p ++ mode_events MODE_PROG ++ [EvTx m; EvRx (take 128 data)]) rest txs plan.
Proof.
  intros Hok H. unfold prepare_update in H. destruct (register_gpios gl reset prog p) as [r1 p1] eqn:E1.
  destruct (register_gpios_state _ _ _ _ _ E1) as (a & b & ->). destruct (r1 <? 0); [done|].
  destruct (switch_mode MODE_PROG _) as [r2 p2] eqn:E2. destruct (Z.ltb_spec r2 0); [done|].
  destruct (switch_mode_requested _ _ _ _ E2 ltac:(lia) Hok) as [Ha Hb].
  destruct (switch_mode_spec _ _ _ _ E2 Hok Ha Hb) as (ev & plan & -> & _ & _ & Hev & _ & Hplan & Hsuf). rewrite (Hev ltac:(lia)) in H.
  destruct (uart_open dev) as [fd|] eqn:Eu; [|done]. destruct (write_msg "$PROG;" _) as [r3 p3] eqn:E3.
  unfold write_msg, write_data in E3. destruct (receive_msg below 128 p3) as [[len msg] p4] eqn:E4.
  destruct (Z.ltb_spec len 0); [done|]. destruct (receive_msg_ok below _ _ _ _ _ E4) as (data & rest & Hrx & Hacc & ->); [lia|].
  destruct (String.eqb_spec msg "$READY;") as [->|]; [|done]. cbn [orb negb] in H. injection H as <-.
  set (frame := insert_chksum _) in *. cbn [tx_plan set_rec set_fduart set_requests] in E3.
  destruct (tx_plan p) as [|n txs]; injection E3 as _ <-; cbn in Hrx;
    [exists fd, (take (length frame) frame), data, rest, plan, []|exists fd, (take (Nat.min n (length frame)) frame), data, rest, plan, txs];
    unfold log, set_rx, set_tx, set_rec, set_fduart; cbn; rewrite <- !app_assoc; (split_and!; try done; apply prefix_take).
Qed.
(** C26: a firmware is delivered as its records: when the handler succeeds, the microcontroller was put into its loader, said
    that it is ready, and got all the records of the image, whose hash was verified, in their order and unchanged, each
    after the one before was answered with a right checksum; then the port was closed and the reset was started, and
    completed unless libgpiod fails to set a line. For an image that is neither encrypted nor compressed and consists of
    whole records that fit into the buffer, and a microcontroller that does not say that it is completed before the last
    record: what is behind the last end of line, or behind an early completion, is not sent. *)
Theorem firmware_delivered `{!HashSpec hl} (img img' : img_type) (p p' : handler_priv) :
  plain_image img -> gpio_ok p -> events p = [] ->
  whole_records (img_data img) -> short_records 0 (img_data img) = true ->
  completes_late below (drop 1 (rx_plan p)) (records (img_data img)) ->
  install_uc_firmware_image hl dl zcfg keys fuel gl uart_open below lseek_ok img p = (0, img', p') ->
  exists fd m ready xs closing, uart_open (device img) = Some fd /\
    events p' = mode_events MODE_PROG ++ [EvTx m; EvRx ready] ++ concat (map exchange xs) ++ EvClose fd :: closing /\
    m `prefix_of` insert_chksum (String.list_ascii_of_string "$PROG;") /\ accepted below 128 ready = Some "$READY;" /\
    Forall (answered below) xs /\ concat (map fst xs) = img_data img /\
    closing `prefix_of` mode_events MODE_NORMAL /\ closing <> [] /\ (all_set p -> closing = mode_events MODE_NORMAL) /\
    (length (sha256 img) = SHA256_HASH_LENGTH -> valid_hash (Some (sha256 img)) = true -> sha (img_data img) = sha256 img).
Proof.
  intros [Henc Hcomp] Hok Hev Hw Hs Hl H. unfold install_uc_firmware_image in H.
  destruct (dict_get_list _ "reset") as [reset|]; [|done]. destruct (dict_get_list _ "prog") as [prog|]; [|done].
  destruct (prepare_update _ _ _ _ _ _ _) as [r1 p1] eqn:E1. destruct (Z.eqb_spec r1 0) as [->|Hne]; [|by injection H as ? _ _].
  destruct (prepare_update_ok _ _ _ _ _ Hok E1) as (fd & m & data & rest & plan & txs & Hfd & Hrx & Hm & Hr & Hplan & Hsuf & ->).
  rewrite Hev in *. cbn [app] in *. set (p1 := mk_priv _ _ _ _ _ _ _ _) in *. unfold copyimage_uc in H.
  destruct (copyfile _ _ _ _ _ _ _ p1) as [r|] eqn:Ec; [|done]. injection H as H0 _ <-.
  pose proof (copyfile_copies _ _ _ _ _ _ (copy_image_args img _) _ _ I Henc Hcomp eq_refl Ec H0) as Hsent.
  rewrite Hrx in Hl. cbn [drop] in Hl. rewrite drop_0 in Hl.
  destruct (update_sent _ _ _ Hsent) as (xs & Hx1 & Hx2 & Hx3 & Hx4 & Hx5 & Hx6 & Hx7 & Hx8);
    [apply not_elem_of_nil|exact Hs|exact Hl|exact Hw|]. cbn in Hx2.
  destruct (switch_mode MODE_NORMAL (log (EvClose (fduart (r_out r))) (r_out r))) as [r2 p2] eqn:E2.
  destruct (switch_mode_spec _ _ _ _ E2) as (closing & plan2 & -> & Hclose & Hne & Hall & Hset & _).
  { unfold gpio_ok. cbn. by rewrite Hx6. }
  { cbn. by rewrite Hx7. }
  { cbn. by rewrite Hx8. }
  exists fd, m, (take 128 data), xs, closing. unfold finish_update. rewrite E2. cbn [snd events free_gpios set_requests].
  split_and!; try done.
  - cbn [events log]. rewrite Hx1, Hx5. cbn [events fduart p1]. by rewrite <- !app_assoc.
  - unfold accepted in *. by rewrite take_take.
  - fold (img_data img) in Hx2. destruct Hw as [Hnil|Hlast]; [rewrite Hnil in *; by symmetry in Hx2; apply app_eq_nil in Hx2 as []|].
    destruct (decide (rec_buf (r_out r) = [])) as [Hn|Hn]; [by rewrite Hn, app_nil_r in Hx2|]. exfalso.
    apply Hx4. rewrite Hx2 in Hlast. destruct (rec_buf (r_out r)) as [|c l]; [done|]. rewrite last_app_cons in Hlast.
    by apply last_Some_elem_of in Hlast.
  - intros Ha. apply Hall, Hset. by eapply (all_set_suffix plan p); [|cbn; by rewrite Hx6|].
  - intros Hlen Hv. by apply (copyfile_hash_plain _ _ _ _ _ _ (copy_image_args img _) _ _ (sha256 img) I Henc Hcomp eq_refl Hlen Hv Ec H0).
Qed.
End Installed.

(** ** Examples *)

Definition toy_gpio (request : bool) : gpio_lib :=
  mk_gpio_lib true true (fun _ => true) (fun _ => 0) (fun _ => true) (fun _ _ => request).

Definition says (s : string) : rx_answer := RxBytes (insert_chksum (String.list_ascii_of_string s)).

Definition uc_image (data : bytes) : img_type :=
  dev_image "/dev/ttymxc5" 0 "fw" "" "" [mk_dict_entry "reset" ["/dev/gpiochip0:38:false"]; mk_dict_entry "prog" ["/dev/gpiochip0:39:true"]]
    data.

(** The result and the events; copies are made in blocks of 16 KiB. *)
Definition uc_run (request : bool) (data : bytes) (rx : list rx_answer) (gpio : list Z) : Z * list uc_event :=
  let '(ret, _, p) :=
    install_uc_firmware_image toy_hash_lib toy_stream toy_config toy_keys 40 (toy_gpio request) (fun _ => Some 7) NUL true
      (uc_image data) (start_priv rx [] gpio) in
  (ret, events p).

Definition record (s : string) : bytes := String.list_ascii_of_string s ++ [LF].
Definition two_records : bytes := record ":10A0" ++ record ":00FF".
Definition ready : bytes := insert_chksum (String.list_ascii_of_string "$READY;").
Definition started : list uc_event :=
  mode_events MODE_PROG ++ [EvTx (insert_chksum (String.list_ascii_of_string "$PROG;")); EvRx ready].

Example firmware_run :
  get_gpio_from_property ["/dev/gpiochip0:38:false"] = mk_setup "/dev/gpiochip0" 38 false /\
  uc_run true two_records [says "$READY;"; says "$READY;"; says "$COMPLETED;"] [] =
    (0, started ++ exchange (record ":10A0", ready) ++
        exchange (record ":00FF", insert_chksum (String.list_ascii_of_string "$COMPLETED;")) ++
        EvClose 7 :: mode_events MODE_NORMAL) /\
  uc_run true two_records [says "$READY;"; says "$READY;"] [] =
    (- ENOSPC, started ++ exchange (record ":10A0", ready) ++ EvTx (record ":00FF") :: EvClose 7 :: mode_events MODE_NORMAL).
Proof. split_and!; vm_compute; reflexivity. Qed.

(** The frame of a message does not fit into the copy that [strdup] made. *)
Theorem framed_message_overflows (msg : string) :
  (String.length msg + 1 < length (insert_chksum (String.list_ascii_of_string msg)))%nat.
Proof. unfold insert_chksum. rewrite length_app, list_ascii_length. cbn. lia. Qed.

(** Any message with a right checksum is an answer to a record, and no completion is needed. *)
Theorem refused_records_succeed :
  uc_run true two_records [says "$READY;"; says "$ERROR;"; says "$ERROR;"] [] =
    (0, started ++ exchange (record ":10A0", insert_chksum (String.list_ascii_of_string "$ERROR;")) ++
        exchange (record ":00FF", insert_chksum (String.list_ascii_of_string "$ERROR;")) ++ EvClose 7 :: mode_events MODE_NORMAL).
Proof. vm_compute. reflexivity. Qed.

(** What is behind the last end of line is not sent. *)
Theorem unfinished_record_lost :
  uc_run true (record ":10A0" ++ String.list_ascii_of_string ":00FF") [says "$READY;"; says "$READY;"] [] =
    (0, started ++ exchange (record ":10A0", ready) ++ EvClose 7 :: mode_events MODE_NORMAL).
Proof. vm_compute. reflexivity. Qed.

(** The rest of a block is dropped when completion is announced before. *)
Theorem early_completion_drops :
  uc_run true two_records [says "$READY;"; says "$COMPLETED;"] [] =
    (0, started ++ exchange (record ":10A0", insert_chksum (String.list_ascii_of_string "$COMPLETED;")) ++
        EvClose 7 :: mode_events MODE_NORMAL).
Proof. vm_compute. reflexivity. Qed.

(** A line that is not available is not an error: libgpiod is called without it, and the standard input is closed. *)
Theorem missing_line_unnoticed :
  (register_gpios (toy_gpio false) (mk_setup "/dev/gpiochip0" 38 false) (mk_setup "/dev/gpiochip0" 39 false) (start_priv [] [] [])).1 = 0 /\
  uc_run false two_records [] [] = (- ENODEV, [EvNull Reset_line; EvClose 0; EvNull Reset_line]).
Proof. split; vm_compute; reflexivity. Qed.

(** The microcontroller can be left in its loader. *)
Theorem failed_reset_succeeds :
  uc_run true (record ":10A0") [says "$READY;"; says "$COMPLETED;"] [0; 0; 0; -1] =
    (0, started ++ exchange (record ":10A0", insert_chksum (String.list_ascii_of_string "$COMPLETED;")) ++
        [EvClose 7; EvGpio Reset_line 0]).
Proof. vm_compute. reflexivity. Qed.

(** A record that is as long as the buffer is stored behind it. *)
Theorem long_record_overruns :
  In EvOverrun (uc_run true (replicate 1023 "0"%char ++ [LF]) [says "$READY;"; says "$COMPLETED;"] []).2.
Proof. vm_compute. intuition. Qed.

(** Whether a marker without a message is accepted depends on the byte in front of the array. *)
Theorem bare_marker_reads_below :
  (verify_chksum "0" [DOLLAR; CR; LF]).1 = true /\ (verify_chksum "1" [DOLLAR; CR; LF]).1 = false.
Proof. split; vm_compute; reflexivity. Qed.

Lemma completes_late_sample : completes_late NUL [says "$READY;"; says "$COMPLETED;"] (records two_records).
Proof. intros [|[|k]] data [= <-]; vm_compute; [intros [=]|lia]. Qed.

Lemma firmware_delivered_witness :
  exists fd m ready' xs closing, Some 7 = Some fd /\
    (uc_run true two_records [says "$READY;"; says "$READY;"; says "$COMPLETED;"] []).2 =
      mode_events MODE_PROG ++ [EvTx m; EvRx ready'] ++ concat (map exchange xs) ++ EvClose fd :: closing /\
    concat (map fst xs) = two_records /\ closing = mode_events MODE_NORMAL.
Proof.
  unfold uc_run. destruct (install_uc_firmware_image _ _ _ _ _ _ _ _ _ _ _) as [[ret img'] p'] eqn:E.
  assert (ret = 0) as -> by (vm_compute in E; by injection E).
  destruct (firmware_delivered toy_hash_lib toy_stream toy_config toy_keys 40 (toy_gpio true) (fun _ => Some 7) NUL true
    (uc_image two_records) img' (start_priv [says "$READY;"; says "$READY;"; says "$COMPLETED;"] [] []) p')
    as (fd & m & ready' & xs & closing & H1 & H2 & _ & _ & _ & H3 & _ & _ & H4 & _).
  - by split.
  - by constructor.
  - done.
  - right. vm_compute. reflexivity.
  - vm_compute. reflexivity.
  - exact completes_late_sample.
  - exact E.
  - exists fd, m, ready', xs, closing. split_and!; [exact H1|exact H2|rewrite H3; vm_compute; reflexivity|].
    apply H4. by constructor.
Defined.
