(* ===== verification/Ubi.v ===== *)
(** * UBI volumes: [handlers/ubivol_handler.c], [corelib/mtd-interface.c]

    Images are written to volumes of a UBI device. A volume can be created or resized before, and names can be exchanged
    after: a volume "replaces" another one, which goes on under its name. SWUpdate keeps a list of the volumes that
    it found when the update started. The library libubi is a parameter. *)
From stdpp Require Import gmap.
From S2P Require Import Prelude CString Util Versions Dict Crypto Keys Cpio Memory.
From S2P Require Import Copyfile Image Installer Handlers Flash.

Definition UBI_DYNAMIC_VOLUME : Z := 3.
Definition UBI_STATIC_VOLUME : Z := 4.
Definition UBI_VOL_NUM_AUTO : Z := -1.
Definition UBI_MAX_VOLUME_NAME : Z := 127.
Definition UBI_MAX_RNVOL : nat := 32.
Definition EBUSY : Z := 16.
Definition EEXIST : Z := 17.

(** [struct ubi_vol_info]. *)
Record ubi_vol_info := mk_vol {
  dev_num : Z;
  vol_id : Z;
  vol_name : string;
  vol_type : Z;
  rsvd_bytes : Z;
}.

(** What is known of the UBI device on a MTD partition. *)
Record mtd_ubi_info := mk_ubi {
  ubi_dev_num : Z;
  leb_size : Z;
  ubi_partitions : list ubi_vol_info;
  skipubi : bool;
  must_have_ubi : bool;
  scanned : bool;
}.

Definition no_ubi : mtd_ubi_info := mk_ubi 0 0 [] false false false.

(** [struct ubi_dev_info], as far as it is used. *)
Record ubi_dev_info := mk_ubi_dev {
  ud_dev_num : Z;
  ud_mtd_num : Z;
  ud_leb_size : Z;
  lowest_vol_id : Z;
  highest_vol_id : Z;
}.

(** An entry of [struct ubi_rnvol_req]. *)
Record rnvol_ent := mk_ent {
  ent_id : Z;
  ent_len : Z;
  ent_name : string;
}.

(** [struct ubi_mkvol_request], without the alignment, which is 1. *)
Record mkvol_request := mk_mkvol {
  mk_id : Z;
  mk_type : Z;
  mk_bytes : Z;
  mk_name : string;
}.

(** libubi on devices whose state is [U]; the device and the volume stand for their nodes. [ubi_mkvol] gives the number of
    the volume. [vol_write] is what writing to the open volume leaves, [mtd_erase_all] stands for [flash_erase]. *)
Record ubi_lib (U : Type) := mk_ubi_lib {
  ubi_get_info : U -> option (Z * Z);
  ubi_get_dev_info1 : U -> Z -> option ubi_dev_info;
  ubi_attach : U -> Z -> (Z + Z) * U;
  mtd_num2ubi_dev : U -> Z -> option Z;
  mtd_erase_all : U -> Z -> Z * U;
  ubi_probe_node : U -> Z -> Z -> Z;
  vol_open : U -> Z -> Z -> bool;
  vol_stat : U -> nat -> Z -> Z -> bool;
  ubi_update_start : U -> Z -> Z -> Z -> option Z * U;
  vol_write : U -> Z -> Z -> bytes -> U;
  ubi_rnvols : U -> Z -> list rnvol_ent -> Z * U;
  ubi_rmvol : U -> Z -> Z -> Z * U;
  ubi_mkvol : U -> Z -> mkvol_request -> Z * Z * U;
  ubi_get_vol_info1 : U -> Z -> Z -> Z + ubi_vol_info;
}.
Arguments ubi_get_info {U}. Arguments ubi_get_dev_info1 {U}. Arguments ubi_attach {U}. Arguments mtd_num2ubi_dev {U}.
Arguments mtd_erase_all {U}. Arguments ubi_probe_node {U}. Arguments vol_open {U}. Arguments vol_stat {U}. Arguments ubi_update_start {U}.
Arguments vol_write {U}. Arguments ubi_rnvols {U}. Arguments ubi_rmvol {U}. Arguments ubi_mkvol {U}.
Arguments ubi_get_vol_info1 {U}.

(** The devices, and the list of what was found on them. *)
Record ubi_world (U : Type) := mk_world {
  uw_dev : U;
  uw_mtd : gmap Z mtd_ubi_info;
}.
Arguments mk_world {U}. Arguments uw_dev {U}. Arguments uw_mtd {U}.

Section Ubi.
Context {E V U : Type} (lib : ubi_lib U) (has_ubi : bool) (sys : mtd_system).
Context {C D X : Type} (hl : hash_lib C) (dl : decrypt_lib D) (zcfg : config (X := X)) (keys : option decryption_key) (fuel : nat).
(** Allocations, and what writing to a volume gives. *)
Context (mem : bool) (plan : list wr_event) (lseek_ok : bool).
#[local] Abbreviation world := (ubi_world U).
#[local] Abbreviation mach := (machine E V (ubi_world U)).

Definition ubi_info (w : world) (mtdnum : Z) : mtd_ubi_info := default no_ubi (uw_mtd w !! mtdnum).
Definition set_dev (u : U) (w : world) : world := mk_world u (uw_mtd w).
Definition set_volumes (mtdnum : Z) (l : list ubi_vol_info) (w : world) : world :=
  let i := ubi_info w mtdnum in
  mk_world (uw_dev w) (<[mtdnum := mk_ubi (ubi_dev_num i) (leb_size i) l (skipubi i) (must_have_ubi i) (scanned i)]> (uw_mtd w)).
Definition set_info (mtdnum : Z) (i : mtd_ubi_info) (w : world) : world := mk_world (uw_dev w) (<[mtdnum := i]> (uw_mtd w)).

(** ** Finding a volume *)

Fixpoint search_volume (str : string) (l : list ubi_vol_info) : option ubi_vol_info :=
  match l with
  | [] => None
  | vol :: l => if String.eqb (vol_name vol) str then Some vol else search_volume str l
  end.

Fixpoint search_from (n : nat) (i : Z) (str : string) (w : world) : option ubi_vol_info :=
  match n with
  | O => None
  | S n =>
      match search_volume str (ubi_partitions (ubi_info w i)) with
      | Some vol => Some vol
      | None => search_from n (i + 1) str w
      end
  end.

Definition search_volume_global (str : string) (w : world) : option ubi_vol_info :=
  search_from (Z.to_nat (highest_mtd_num sys - lowest_mtd_num sys + 1)) (lowest_mtd_num sys) str w.

(** The partition by its device or its name. *)
Definition mtd_of (device : string) : option Z :=
  let n := get_mtd_from_device sys device in
  let n := if n <? 0 then get_mtd_from_name sys device else n in
  if (n <? 0) || negb (mtd_dev_present sys n) then None else Some n.

Definition search_volume_local (device volname : string) (w : world) : option ubi_vol_info :=
  match mtd_of device with
  | None => None
  | Some n => search_volume volname (ubi_partitions (ubi_info w n))
  end.

Definition find_volume (device volname : string) (w : world) : option ubi_vol_info :=
  if negb (strlen device =? 0) then search_volume_local device volname w else search_volume_global volname w.

(** ** Writing a volume *)

(** The volume to exchange names with, or the new name; [None]: the volumes are on different devices. *)
Definition check_replace (img : img_type) (vol1 : ubi_vol_info) (w : world)
  : option (option ubi_vol_info * option string) :=
  match dict_get_value (properties img) "replaces" with
  | None => Some (None, None)
  | Some tmpvol_name =>
      match find_volume (device img) tmpvol_name w with
      | None => Some (None, Some tmpvol_name)
      | Some tmpvol => if negb (dev_num vol1 =? dev_num tmpvol) then None else Some (Some tmpvol, None)
      end
  end.

Definition swap_volnames (vol1 vol2 : ubi_vol_info) (u : U) : Z * U :=
  ubi_rnvols lib u (dev_num vol1)
    [mk_ent (vol_id vol1) (strlen (vol_name vol2)) (vol_name vol2); mk_ent (vol_id vol2) (strlen (vol_name vol1)) (vol_name vol1)].

Definition rename_vol (vol : ubi_vol_info) (name : string) (u : U) : Z * U :=
  ubi_rnvols lib u (dev_num vol) [mk_ent (vol_id vol) (strlen name) (strlcpy name (UBI_MAX_VOLUME_NAME + 1))].

Definition check_ubi_alwaysremove (img : img_type) : bool := strtobool (dict_get_value (properties img) "always-remove").

(** A volume that is busy is tried again. *)
Fixpoint start_update (retries : nat) (vol : ubi_vol_info) (bytes : Z) (u : U) : bool * U :=
  match ubi_update_start lib u (dev_num vol) (vol_id vol) bytes with
  | (None, u) => (true, u)
  | (Some errno, u) =>
      if negb (errno =? EBUSY) then (false, u)
      else match retries with O => (false, u) | S retries => start_update retries vol bytes u end
  end.

(** The part behind the copy: the result of the copy is replaced by that of the exchange. *)
Definition handle_replace (err : Z) (vol : ubi_vol_info) (repl : option ubi_vol_info * option string) (u : U) : Z * U :=
  match repl with
  | (Some repl_vol, _) => swap_volnames vol repl_vol u
  | (None, Some rn_vol) => rename_vol vol rn_vol u
  | (None, None) => (err, u)
  end.

Definition update_volume (img : img_type) (vol : ubi_vol_info) (w : world) : Z * img_type * world :=
  let bytes := get_output_size img true in
  if bytes <=? 0 then (-1, img, w)
  else if negb has_ubi then (-1, img, w)
  else if bytes >? rsvd_bytes vol then (-1, img, w)
  else
    let u := uw_dev w in
    let err := ubi_probe_node lib u (dev_num vol) (vol_id vol) in
    if (err =? 1) || (err <? 0) then (-1, img, w)
    else
      match check_replace img vol w with
      | None => (-1, img, w)
      | Some repl =>
          if negb (vol_open lib u (dev_num vol) (vol_id vol)) then (-1, img, w)
          else
            let '(started, u) := start_update 2 vol bytes u in
            if negb started then (-1, img, set_dev u w)
            else
              let '(ret, img, data) := copyimage hl dl zcfg keys fuel img lseek_ok plan in
              let u := vol_write lib u (dev_num vol) (vol_id vol) data in
              let '(err, u) := handle_replace (if ret <? 0 then -1 else 0) vol repl u in
              (err, img, set_dev u w)
      end.

(** ** Creating a volume *)

Definition requested_type (img : img_type) : Z :=
  if String.eqb (type_data img) "static" then UBI_STATIC_VOLUME else UBI_DYNAMIC_VOLUME.

(** [req_vol_id] is the number of the volume that was removed, if any. *)
Definition create_volume (cfg : img_type) (size mtdnum req_vol_id : Z) (w : world) : Z * world :=
  let info := ubi_info w mtdnum in
  let '(err, id, u) := ubi_mkvol lib (uw_dev w) (ubi_dev_num info) (mk_mkvol req_vol_id (requested_type cfg) size (volname cfg)) in
  let w := set_dev u w in
  if err <? 0 then (err, w)
  else if negb mem then (- ENOMEM, w)
  else
    match ubi_get_vol_info1 lib u (ubi_dev_num info) id with
    | inl _ => (-1, w)
    | inr vol => (0, set_volumes mtdnum (vol :: ubi_partitions info) w)
    end.

(** The number of blocks is kept in 32 bits. *)
Definition requested_lebs (size leb : Z) : Z := u32 (size ÷ leb + if Z.rem size leb =? 0 then 0 else 1).
Definition allocated_lebs (vol : ubi_vol_info) (leb : Z) : Z := u32 (rsvd_bytes vol ÷ leb).

Fixpoint remove_volume (str : string) (l : list ubi_vol_info) : list ubi_vol_info :=
  match l with
  | [] => []
  | vol :: l => if String.eqb (vol_name vol) str then l else vol :: remove_volume str l
  end.

Definition resize_volume (cfg : img_type) (size : Z) (w : world) : Z * world :=
  match mtd_of (device cfg) with
  | None => (- ENODEV, w)
  | Some mtdnum =>
      let info := ubi_info w mtdnum in
      match search_volume (volname cfg) (ubi_partitions info) with
      | Some ubivol =>
          if leb_size info =? 0 then (- EFAULT, w)
          else if (requested_lebs size (leb_size info) =? allocated_lebs ubivol (leb_size info)) &&
                  (requested_type cfg =? vol_type ubivol) && negb (check_ubi_alwaysremove cfg) then (0, w)
          else
            let '(err, u) := ubi_rmvol lib (uw_dev w) (dev_num ubivol) (vol_id ubivol) in
            let w := set_dev u w in
            if negb (err =? 0) then (-1, w)
            else
              let w := set_volumes mtdnum (remove_volume (volname cfg) (ubi_partitions info)) w in
              if size =? 0 then (0, w) else create_volume cfg size mtdnum (vol_id ubivol) w
      | None => if size =? 0 then (0, w) else create_volume cfg size mtdnum UBI_VOL_NUM_AUTO w
      end
  end.

(** ** The handlers *)

Definition check_ubi_autoresize (img : img_type) : bool := strtobool (dict_get_value (properties img) "auto-resize").

(** The node appears within five seconds. *)
Definition wait_volume (img : img_type) (w : world) : Z :=
  match find_volume (device img) (volname img) w with
  | None => -1
  | Some vol => if existsb (fun k => vol_stat lib (uw_dev w) k (dev_num vol) (vol_id vol)) (seq 0 5) then 0 else -1
  end.

Definition set_ubi (w : world) (m : mach) : mach := mk_machine (m_files m) (m_env m) (m_vars m) (m_bootdict m) w.

Definition write_found (img : img_type) (w : world) : Z * img_type * world :=
  match find_volume (device img) (volname img) w with
  | None => (-1, img, w)
  | Some vol => update_volume img vol w
  end.

Definition install_ubivol_image (img : img_type) (d : handler_data) (m : mach) : Z * img_type * mach :=
  let w := m_world m in
  let '(ret, img, w) :=
    if check_ubi_autoresize img then
      let bytes := get_output_size img true in
      if bytes <=? 0 then (-1, img, w)
      else
        let '(ret, w) := resize_volume img bytes w in
        if ret <? 0 then (-1, img, w)
        else if wait_volume img w <? 0 then (-1, img, w)
        else write_found img w
    else write_found img w in
  (ret, img, set_ubi w m).

Definition adjust_volume (img : img_type) (d : handler_data) (m : mach) : Z * img_type * mach :=
  let '(ret, w) := resize_volume img (partsize img) (m_world m) in (ret, img, set_ubi w m).

(** ** Exchanging names *)

Definition swap_ent (vol : ubi_vol_info) (name : string) : rnvol_ent :=
  mk_ent (vol_id vol) (Z.min (strlen name) UBI_MAX_VOLUME_NAME) (strlcpy name UBI_MAX_VOLUME_NAME).

(** The properties "swap-0", "swap-1" and so on, [n] more of them. *)
Fixpoint swap_requests (n : nat) (count global_dev_num : Z) (img : img_type) (ents : list rnvol_ent) (w : world)
  : option (Z * list rnvol_ent) :=
  match dict_get_list (properties img) ("swap-" +:+ print_d count) with
  | None => Some (global_dev_num, ents)
  | Some volumes =>
      match n, volumes with
      | S n, [name0; name1] =>
          match find_volume (device img) name0 w, find_volume (device img) name1 w with
          | Some vol0, Some vol1 =>
              if negb (dev_num vol0 =? dev_num vol1) then None
              else if negb (global_dev_num =? -1) && negb (global_dev_num =? dev_num vol0) then None
              else swap_requests n (count + 1) (dev_num vol0) img (ents ++ [swap_ent vol0 name1; swap_ent vol1 name0]) w
          | _, _ => None
          end
      | _, _ => None
      end
  end.

Definition swap_volume (img : img_type) (d : handler_data) (m : mach) : Z * img_type * mach :=
  match scriptfn d with
  | None => (- EINVAL, img, m)
  | Some POSTINSTALL =>
      match swap_requests (UBI_MAX_RNVOL / 2) 0 (-1) img [] (m_world m) with
      | None | Some (_, []) => (-1, img, m)
      | Some (dev, ents) =>
          let '(ret, u) := ubi_rnvols lib (uw_dev (m_world m)) dev ents in (ret, img, set_ubi (set_dev u (m_world m)) m)
      end
  | Some _ => (0, img, m)
  end.

(** ** Looking for volumes *)

(** A MTD that is named in a list. *)
Definition ubi_insert_list (index : Z) (black : bool) (w : world) : world :=
  if (lowest_mtd_num sys <=? index) && (index <=? highest_mtd_num sys) then
    let i := ubi_info w index in
    set_info index (mk_ubi (ubi_dev_num i) (leb_size i) (ubi_partitions i) black (negb black) (scanned i)) w
  else w.

(** A number that is out of range ends the list. *)
Fixpoint insert_tokens (tokens : list string) (black : bool) (w : world) : world :=
  match tokens with
  | [] => w
  | token :: tokens =>
      let '(v, _, errno) := strtoull token 10 in
      if errno =? 0 then insert_tokens tokens black (ubi_insert_list (i32 v) black w) else w
  end.

(** The volumes [i], [i + 1] and so on, [n] of them. A volume that is not there is passed over; another error, or no
    memory, ends the search. *)
Fixpoint scan_vols (n : nat) (i dev : Z) (u : U) (l : list ubi_vol_info) : bool * list ubi_vol_info :=
  match n with
  | O => (true, l)
  | S n =>
      if negb mem then (false, l)
      else
        match ubi_get_vol_info1 lib u dev i with
        | inr vol => scan_vols n (i + 1) dev u (vol :: l)
        | inl errno => if (errno =? ENOENT) || (errno =? ENODEV) then scan_vols n (i + 1) dev u l else (false, l)
        end
  end.

Definition scan_ubi_volumes (mtdnum : Z) (d : ubi_dev_info) (w : world) : world :=
  let i := ubi_info w mtdnum in
  let '(complete, l) :=
    scan_vols (Z.to_nat (highest_vol_id d - lowest_vol_id d + 1)) (lowest_vol_id d) (ud_dev_num d) (uw_dev w) (ubi_partitions i) in
  set_info mtdnum (mk_ubi (ud_dev_num d) (ud_leb_size d) l (skipubi i) (must_have_ubi i) (complete || scanned i)) w.

Fixpoint scan_devices (n : nat) (i : Z) (w : world) : world :=
  match n with
  | O => w
  | S n =>
      scan_devices n (i + 1)
        (match ubi_get_dev_info1 lib (uw_dev w) i with
         | None => w
         | Some d => if (ud_mtd_num d <? 0) || skipubi (ubi_info w (ud_mtd_num d)) then w else scan_ubi_volumes (ud_mtd_num d) d w
         end)
  end.

Definition scan_for_ubi_devices (w : world) : world :=
  if negb has_ubi then w
  else
    match ubi_get_info lib (uw_dev w) with
    | None => w
    | Some (lowest, highest) => scan_devices (Z.to_nat (highest - lowest + 1)) lowest w
    end.

(** A MTD that must have UBI is erased and attached again, once. *)
Definition attach_mtd (mtd : Z) (must : bool) (u : U) : option Z * U :=
  match ubi_attach lib u mtd with
  | (inr dev, u) => (Some dev, u)
  | (inl errno, u) =>
      match (if errno =? EEXIST then mtd_num2ubi_dev lib u mtd else None) with
      | Some dev => (Some dev, u)
      | None =>
          if must then
            let '(ret, u) := mtd_erase_all lib u mtd in
            if negb (ret =? 0) then (None, u)
            else
              match ubi_attach lib u mtd with
              | (inr dev, u) => (Some dev, u)
              | (inl errno, u) => (if errno =? EEXIST then mtd_num2ubi_dev lib u mtd else None, u)
              end
          else (None, u)
      end
  end.

Definition scan_ubi_partitions (mtd : Z) (w : world) : world :=
  let '(dev, u) := attach_mtd mtd (must_have_ubi (ubi_info w mtd)) (uw_dev w) in
  let w := set_dev u w in
  match dev with
  | None => w
  | Some dev =>
      match ubi_get_dev_info1 lib u dev with
      | None => w
      | Some d => scan_ubi_volumes mtd d w
      end
  end.

(** The MTDs that are not attached yet, but for UBI volumes that pose as MTDs. *)
Fixpoint attach_all (is_volume : Z -> bool) (n : nat) (i : Z) (w : world) : world :=
  match n with
  | O => w
  | S n =>
      let info := ubi_info w i in
      attach_all is_volume n (i + 1)
        (if has_ubi && negb (skipubi info) && negb (scanned info) && negb (is_volume i) then scan_ubi_partitions i w else w)
  end.

(** The lists of the command line or the configuration; the table starts empty. *)
Definition scan_mtd_devices (attach : bool) (blacklist whitelist : string) (is_volume : Z -> bool) (w : world) : world :=
  let w := mk_world (uw_dev w) ∅ in
  let w := insert_tokens (strtok_all (strlcpy blacklist 100) " ") true w in
  let w := insert_tokens (strtok_all (strlcpy whitelist 100) " ") false w in
  let w := scan_for_ubi_devices w in
  if attach then attach_all is_volume (Z.to_nat (highest_mtd_num sys - lowest_mtd_num sys + 1)) (lowest_mtd_num sys) w else w.
End Ubi.

(** * Properties *)

(** ** What libubi promises *)

(** A volume on a device. *)
Record volume := mk_volume {
  v_name : string;
  v_type : Z;
  v_size : Z;
  v_data : bytes;
}.

Definition set_name (n : string) (v : volume) : volume := mk_volume n (v_type v) (v_size v) (v_data v).
Definition set_data (b : bytes) (v : volume) : volume := mk_volume (v_name v) (v_type v) (v_size v) b.

(** The new name of a volume in a request. *)
Fixpoint renamed (ents : list rnvol_ent) (id : Z) (v : volume) : volume :=
  match ents with
  | [] => v
  | e :: ents => if ent_id e =? id then set_name (ent_name e) v else renamed ents id v
  end.

Section Spec.
Context {U : Type} (lib : ubi_lib U).

(** [vols u d i] is volume [i] of device [d]. Names are changed all at once, or not at all, if no volume that is not in the
    request has one of the new names; starting an update costs the volume its data; a volume that is created
    gets the number that was asked for; no operation changes another volume. *)
Class UbiSpec := {
  vols : U -> Z -> Z -> option volume;
  start_spec : forall u d i n r u', ubi_update_start lib u d i n = (r, u') ->
    (forall d' i', (d', i') <> (d, i) -> vols u' d' i' = vols u d' i') /\
    exists b, vols u' d i = set_data b <$> vols u d i;
  write_vol_spec : forall u d i b d' i',
    vols (vol_write lib u d i b) d' i' = if (d' =? d) && (i' =? i) then set_data b <$> vols u d i else vols u d' i';
  rnvols_spec : forall u d ents r u', ubi_rnvols lib u d ents = (r, u') ->
    (forall e i v, e ∈ ents -> vols u d i = Some v -> v_name v = ent_name e -> i ∈ ent_id <$> ents) ->
    forall d' i', vols u' d' i' = if (r =? 0) && (d' =? d) then renamed ents i' <$> vols u d i' else vols u d' i';
  rmvol_spec : forall u d i r u', ubi_rmvol lib u d i = (r, u') -> forall d' i',
    vols u' d' i' = if (r =? 0) && (d' =? d) && (i' =? i) then None else vols u d' i';
  mkvol_spec : forall u d q r i u', ubi_mkvol lib u d q = (r, i, u') ->
    if r <? 0 then forall d' i', vols u' d' i' = vols u d' i'
    else vols u d i = None /\ (exists sz, mk_bytes q <= sz /\ vols u' d i = Some (mk_volume (mk_name q) (mk_type q) sz [])) /\
      (mk_id q <> UBI_VOL_NUM_AUTO -> i = mk_id q) /\
      (forall d' i', (d', i') <> (d, i) -> vols u' d' i' = vols u d' i');
  vol_info_spec : forall u d i v, ubi_get_vol_info1 lib u d i = inr v ->
    dev_num v = d /\ vol_id v = i /\
    exists b, vols u d i = Some (mk_volume (vol_name v) (vol_type v) (rsvd_bytes v) b);
}.
End Spec.
Arguments UbiSpec {U}.
Arguments vols {U lib UbiSpec}.

(** ** The list of volumes *)

Section Known.
Context {U : Type} (lib : ubi_lib U) `{Hspec : !UbiSpec lib} (has_ubi : bool) (sys : mtd_system) (mem : bool).
#[local] Abbreviation world := (ubi_world U).

(** An entry of the list is true. *)
Definition known (u : U) (v : ubi_vol_info) : Prop :=
  exists b, vols u (dev_num v) (vol_id v) = Some (mk_volume (vol_name v) (vol_type v) (rsvd_bytes v) b).

(** Every entry is, volumes are listed once, and two MTDs do not belong to one UBI device. *)
Record list_ok (w : world) : Prop := {
  lo_known : forall n v, v ∈ ubi_partitions (ubi_info w n) -> dev_num v = ubi_dev_num (ubi_info w n) /\ known (uw_dev w) v;
  lo_nodup : forall n, NoDup (vol_id <$> ubi_partitions (ubi_info w n));
  lo_dev : forall n n', ubi_partitions (ubi_info w n) <> [] -> ubi_partitions (ubi_info w n') <> [] ->
    ubi_dev_num (ubi_info w n) = ubi_dev_num (ubi_info w n') -> n = n';
}.

Lemma search_volume_In str l v : search_volume str l = Some v -> v ∈ l /\ vol_name v = str.
Proof.
  induction l as [|x l IH]; [done|]. cbn. destruct (String.eqb_spec (vol_name x) str) as [Hx|Hx].
  - intros [= <-]. split; [by apply list_elem_of_here|done].
  - intros H. destruct (IH H). split; [by apply list_elem_of_further|done].
Qed.

Lemma remove_volume_In str l v x : search_volume str l = Some v -> NoDup (vol_id <$> l) -> x ∈ remove_volume str l -> x ∈ l /\ vol_id x <> vol_id v.
Proof.
  induction l as [|y l IH]; [done|]. cbn [search_volume remove_volume fmap list_fmap]. destruct (String.eqb_spec (vol_name y) str).
  - intros [= <-] [Hy Hn]%NoDup_cons Hx. split; [by apply list_elem_of_further|]. intros E. apply Hy. rewrite <- E.
    by apply list_elem_of_fmap_2.
  - intros Hs [Hy Hn]%NoDup_cons Hx. apply elem_of_cons in Hx as [->|Hx].
    + split; [by apply list_elem_of_here|]. intros E. apply Hy. rewrite E. apply list_elem_of_fmap_2. apply (search_volume_In _ _ _ Hs).
    + destruct (IH Hs Hn Hx). split; [by apply list_elem_of_further|done].
Qed.

Lemma remove_volume_sublist str l : remove_volume str l `sublist_of` l.
Proof. induction l as [|y l IH]; [done|]. cbn. destruct (String.eqb _ _); [by apply sublist_cons|by apply sublist_skip]. Qed.

Lemma info_set (w : world) n l u n' :
  let w' := set_volumes n l (set_dev u w) in
  ubi_partitions (ubi_info w' n') = (if decide (n = n') then l else ubi_partitions (ubi_info w n')) /\
  ubi_dev_num (ubi_info w' n') = ubi_dev_num (ubi_info w n').
Proof. unfold set_volumes, set_dev, ubi_info. cbn [uw_dev uw_mtd]. rewrite lookup_insert. by destruct (decide (n = n')) as [<-|]. Qed.

(** A list can shrink while other volumes change. *)
Lemma list_ok_shrink w n l u :
  list_ok w -> l `sublist_of` ubi_partitions (ubi_info w n) ->
  (forall n' v, v ∈ ubi_partitions (ubi_info w n') -> (n' = n -> v ∈ l) -> known (uw_dev w) v -> known u v) ->
  list_ok (set_volumes n l (set_dev u w)).
Proof.
  intros [Hk Hn Hd] Hsub Hu. split.
  - intros n' v Hv. destruct (info_set w n l u n') as [Hp Hde]. rewrite Hp in Hv. rewrite Hde.
    assert (v ∈ ubi_partitions (ubi_info w n') /\ (n' = n -> v ∈ l)) as [Hin Hl].
    { destruct (decide (n = n')) as [<-|]; [|done]. split; [|done]. by apply (elem_of_sublist _ _ _ Hv Hsub). }
    destruct (Hk n' v Hin) as [? Hkn]. split; [done|]. by apply (Hu n' v).
  - intros n'. rewrite (proj1 (info_set w n l u n')). destruct (decide (n = n')) as [<-|]; [|done].
    apply (sublist_NoDup _ (vol_id <$> ubi_partitions (ubi_info w n))); [done|]. by apply fmap_sublist.
  - intros n1 n2 H1 H2. rewrite (proj2 (info_set w n l u n1)), (proj2 (info_set w n l u n2)).
    rewrite (proj1 (info_set w n l u n1)) in H1. rewrite (proj1 (info_set w n l u n2)) in H2. apply Hd.
    + destruct (decide (n = n1)) as [<-|]; [|done]. intros E. rewrite E in Hsub. by apply sublist_nil_r in Hsub.
    + destruct (decide (n = n2)) as [<-|]; [|done]. intros E. rewrite E in Hsub. by apply sublist_nil_r in Hsub.
Qed.

(** The devices change where no volume of the list is. *)
Lemma list_ok_dev w u : list_ok w -> (forall v, known (uw_dev w) v -> known u v) -> list_ok (set_dev u w).
Proof. intros [Hk Hn Hd] Hu. split; [|done|done]. intros n v Hv. destruct (Hk n v Hv). split; [done|]. by apply Hu. Qed.

Lemma list_ok_add w n v :
  list_ok w -> dev_num v = ubi_dev_num (ubi_info w n) -> known (uw_dev w) v ->
  vol_id v ∉ vol_id <$> ubi_partitions (ubi_info w n) ->
  (forall n', ubi_partitions (ubi_info w n') <> [] -> ubi_dev_num (ubi_info w n') = ubi_dev_num (ubi_info w n) -> n' = n) ->
  list_ok (set_volumes n (v :: ubi_partitions (ubi_info w n)) w).
Proof.
  intros [Hk Hn Hd] Hdev Hkn Hnew Hone. set (l := v :: _).
  assert (set_volumes n l w = set_volumes n l (set_dev (uw_dev w) w)) as -> by (by destruct w). split.
  - intros n' x Hx. destruct (info_set w n l (uw_dev w) n') as [Hp Hde]. rewrite Hp in Hx. rewrite Hde.
    destruct (decide (n = n')) as [<-|]; [|by apply Hk]. unfold l in Hx. apply elem_of_cons in Hx as [->|Hx]; [done|by apply Hk].
  - intros n'. rewrite (proj1 (info_set w n l (uw_dev w) n')). destruct (decide (n = n')) as [<-|]; [|done].
    cbn. apply NoDup_cons. done.
  - intros n1 n2. rewrite (proj2 (info_set w n l (uw_dev w) n1)), (proj2 (info_set w n l (uw_dev w) n2)),
      (proj1 (info_set w n l (uw_dev w) n1)), (proj1 (info_set w n l (uw_dev w) n2)).
    destruct (decide (n = n1)) as [<-|], (decide (n = n2)) as [<-|]; intros H1 H2 H; [done| | |by apply Hd].
    + symmetry. by apply Hone.
    + by apply Hone.
Qed.

(** The UBI device of a MTD is not the one of another MTD. *)
Definition own_device (w : world) (n : Z) : Prop :=
  forall n', ubi_partitions (ubi_info w n') <> [] -> ubi_dev_num (ubi_info w n') = ubi_dev_num (ubi_info w n) -> n' = n.

Lemma known_other u u' d i v :
  (forall d' i', (d', i') <> (d, i) -> vols u' d' i' = vols u d' i') -> (dev_num v, vol_id v) <> (d, i) -> known u v -> known u' v.
Proof. intros H Hv [b Hb]. exists b. by rewrite H. Qed.

Lemma create_volume_ok cfg size n id w ret w' :
  list_ok w -> own_device w n -> create_volume lib mem cfg size n id w = (ret, w') -> list_ok w'.
Proof.
  intros Hok Hown. unfold create_volume. destruct (ubi_mkvol lib _ _ _) as [[r i] u] eqn:Em.
  pose proof (mkvol_spec lib _ _ _ _ _ _ Em) as Hm. destruct (r <? 0).
  { intros [= <- <-]. apply list_ok_dev; [done|]. intros v [b Hb]. exists b. by rewrite Hm. }
  destruct Hm as (Hnew & _ & _ & Hrest).
  assert (list_ok (set_dev u w)) as Hok'.
  { apply list_ok_dev; [done|]. intros v Hv. apply (known_other (uw_dev w) u (ubi_dev_num (ubi_info w n)) i); [done| |done].
    intros [= E1 E2]. destruct Hv as [b Hb]. congruence. }
  destruct mem; cbn [negb]; [|by intros [= <- <-]]. destruct (ubi_get_vol_info1 lib u _ i) as [e|v] eqn:Ei; [by intros [= <- <-]|].
  intros [= <- <-]. destruct (vol_info_spec lib _ _ _ _ Ei) as (Hd & Hid & b & Hv).
  apply (list_ok_add (set_dev u w)); [done|done| | |exact Hown].
  - exists b. by rewrite Hd, Hid.
  - intros Hin. apply list_elem_of_fmap in Hin as (x & Ex & Hx). destruct (lo_known _ Hok n x Hx) as [Hdx [bx Hbx]].
    rewrite Hdx, <- Ex, Hid, Hnew in Hbx. done.
Qed.

Lemma resize_volume_ok cfg size w ret w' :
  list_ok w -> (forall n, mtd_of sys (device cfg) = Some n -> own_device w n) -> resize_volume lib sys mem cfg size w = (ret, w') -> list_ok w'.
Proof.
  intros Hok Hown. unfold resize_volume. destruct (mtd_of sys (device cfg)) as [n|]; [|by intros [= <- <-]].
  specialize (Hown n eq_refl). destruct (search_volume _ _) as [v|] eqn:Es.
  2: { destruct (size =? 0); [by intros [= <- <-]|]. by apply create_volume_ok. }
  destruct (leb_size _ =? 0); [by intros [= <- <-]|]. destruct (_ && _ && _); [by intros [= <- <-]|].
  destruct (ubi_rmvol lib _ _ _) as [r u] eqn:Er. pose proof (rmvol_spec lib _ _ _ _ _ Er) as Hr.
  destruct (search_volume_In _ _ _ Es) as [Hin _]. destruct (lo_known _ Hok n v Hin) as [Hdv _].
  destruct (Z.eqb_spec r 0) as [->|Hne]; cbn [negb].
  2: { intros [= <- <-]. apply list_ok_dev; [done|]. intros x [b Hb]. exists b. by rewrite Hr. }
  set (l := remove_volume _ _). assert (list_ok (set_volumes n l (set_dev u w))) as Hok'.
  { apply list_ok_shrink; [done|apply remove_volume_sublist|]. intros n' x Hx Hl [b Hb]. exists b. rewrite Hr. cbn [andb Z.eqb].
    destruct (Z.eqb_spec (dev_num x) (dev_num v)) as [Ed|]; [|done]. destruct (Z.eqb_spec (vol_id x) (vol_id v)) as [Ei|]; [|done].
    exfalso. assert (n' = n) as ->.
    { destruct (lo_known _ Hok n' x Hx) as [Hdx _]. apply Hown; [by intros E; rewrite E in Hx; apply not_elem_of_nil in Hx|congruence]. }
    by apply (remove_volume_In _ _ _ _ Es (lo_nodup _ Hok n) (Hl eq_refl)). }
  destruct (size =? 0); [by intros [= <- <-]|]. apply create_volume_ok; [done|].
  intros n' Hne' Hd'. rewrite (proj2 (info_set w n l u n')), (proj2 (info_set w n l u n)) in Hd'. apply Hown; [|done].
  rewrite (proj1 (info_set w n l u n')) in Hne'. destruct (decide (n = n')) as [<-|]; [|done].
  intros E. by rewrite E in Hin; apply not_elem_of_nil in Hin.
Qed.
(** ** Resizing *)

(** Blocks of the UBI device are counted with 32 bits. *)
Definition lebs_fit (w : world) (n size : Z) : Prop :=
  let leb := leb_size (ubi_info w n) in
  0 <= leb /\ size < (2 ^ 32 - 1) * leb /\ forall v, v ∈ ubi_partitions (ubi_info w n) -> 0 <= rsvd_bytes v < 2 ^ 32 * leb.

Lemma same_lebs_fit size v leb :
  0 < leb -> 0 < size < (2 ^ 32 - 1) * leb -> 0 <= rsvd_bytes v < 2 ^ 32 * leb ->
  requested_lebs size leb = allocated_lebs v leb -> size <= rsvd_bytes v.
Proof.
  intros Hl Hs Hr. unfold requested_lebs, allocated_lebs. rewrite !Z.quot_div_nonneg, Z.rem_mod_nonneg by lia.
  pose proof (Z.div_lt_upper_bound size leb (2 ^ 32 - 1) Hl ltac:(lia)). pose proof (Z.div_pos size leb ltac:(lia) Hl).
  pose proof (Z.div_lt_upper_bound (rsvd_bytes v) leb (2 ^ 32) Hl ltac:(lia)). pose proof (Z.div_pos (rsvd_bytes v) leb ltac:(lia) Hl).
  rewrite (wrap_small 32 (size / leb + _)) by (destruct (size mod leb =? 0); lia). rewrite (wrap_small 32) by lia.
  pose proof (Z.div_mod size leb ltac:(lia)). pose proof (Z.mod_pos_bound size leb Hl).
  pose proof (Z.div_mod (rsvd_bytes v) leb ltac:(lia)). pose proof (Z.mod_pos_bound (rsvd_bytes v) leb Hl).
  destruct (Z.eqb_spec (size mod leb) 0); nia.
Qed.

(** Volumes with another name are as they were. *)
Definition others_kept (name : string) (u u' : U) : Prop :=
  forall d i v, vols u d i = Some v -> v_name v <> name -> vols u' d i = Some v.

Lemma others_kept_trans name u1 u2 u3 : others_kept name u1 u2 -> others_kept name u2 u3 -> others_kept name u1 u3.
Proof. intros H1 H2 d i v Hv Hn. by apply H2; [apply H1|]. Qed.

(** The list has a volume of that name, type and size. *)
Definition provided_volume (cfg : img_type) (size n : Z) (w : world) (v : ubi_vol_info) : Prop :=
  search_volume (volname cfg) (ubi_partitions (ubi_info w n)) = Some v /\ vol_type v = requested_type cfg /\
  size <= rsvd_bytes v /\ known (uw_dev w) v.

Lemma create_volume_keeps cfg size n id w ret w' d i v :
  create_volume lib mem cfg size n id w = (ret, w') -> vols (uw_dev w) d i = Some v -> vols (uw_dev w') d i = Some v.
Proof.
  unfold create_volume. destruct (ubi_mkvol lib _ _ _) as [[r i0] u] eqn:Em. pose proof (mkvol_spec lib _ _ _ _ _ _ Em) as Hm.
  intros H Hv. assert (uw_dev w' = u) as ->.
  { destruct (r <? 0); [by injection H as <- <-|]. destruct mem; [|by injection H as <- <-].
    destruct (ubi_get_vol_info1 lib u _ i0); by injection H as <- <-. }
  destruct (r <? 0); [by rewrite Hm|]. destruct Hm as (Hnew & _ & _ & Hrest). rewrite Hrest; [done|]. intros [= -> ->]. congruence.
Qed.

Lemma create_volume_gives cfg size n id w w' :
  create_volume lib mem cfg size n id w = (0, w') -> exists v, provided_volume cfg size n w' v.
Proof.
  unfold create_volume. destruct (ubi_mkvol lib _ _ _) as [[r i] u] eqn:Em. pose proof (mkvol_spec lib _ _ _ _ _ _ Em) as Hm.
  destruct (Z.ltb_spec r 0); [intros [= -> _]; lia|]. destruct Hm as (Hnew & (sz & Hsz & Hi) & _ & Hrest).
  destruct mem; cbn [negb]; [|done]. destruct (ubi_get_vol_info1 lib u _ i) as [e|v] eqn:Ei; [done|]. intros [= <-].
  destruct (vol_info_spec lib _ _ _ _ Ei) as (Hd & Hid & b & Hv). rewrite Hi in Hv. cbn in Hv, Hsz. injection Hv as Hn Ht Hs <-.
  exists v. unfold provided_volume. rewrite (proj1 (info_set w n (v :: ubi_partitions (ubi_info w n)) u n)), decide_True by done.
  cbn [search_volume]. rewrite <- Hn, String.eqb_refl. split_and!; [done|done|lia|]. exists [].
  rewrite Hd, Hid. cbn. by rewrite Hi, Hn, Ht, Hs.
Qed.

(** The volume that is removed has the name. *)
Lemma rmvol_keeps w n v r u name :
  list_ok w -> v ∈ ubi_partitions (ubi_info w n) -> vol_name v = name ->
  ubi_rmvol lib (uw_dev w) (dev_num v) (vol_id v) = (r, u) -> others_kept name (uw_dev w) u.
Proof.
  intros Hok Hin <- Er d i x Hx Hnx. rewrite (rmvol_spec lib _ _ _ _ _ Er). destruct (lo_known _ Hok n v Hin) as [_ [b Hb]].
  destruct (r =? 0); [|done]. destruct (Z.eqb_spec d (dev_num v)) as [->|]; [|done]. destruct (Z.eqb_spec i (vol_id v)) as [->|]; [|done].
  rewrite Hb in Hx. injection Hx as <-. done.
Qed.

Lemma resize_volume_keeps cfg size w ret w' :
  list_ok w -> resize_volume lib sys mem cfg size w = (ret, w') -> others_kept (volname cfg) (uw_dev w) (uw_dev w').
Proof.
  intros Hok. unfold resize_volume. destruct (mtd_of sys (device cfg)) as [n|]; [|by intros [= <- <-] d i x].
  destruct (search_volume _ _) as [v|] eqn:Es.
  2: { destruct (size =? 0); [by intros [= <- <-] d i x|]. intros H d i x Hx _. by apply (create_volume_keeps _ _ _ _ _ _ _ _ _ _ H). }
  destruct (search_volume_In _ _ _ Es) as [Hin Hname]. destruct (_ =? 0); [by intros [= <- <-] d i x|].
  destruct (_ && _ && _); [by intros [= <- <-] d i x|]. destruct (ubi_rmvol lib _ _ _) as [r u] eqn:Er.
  pose proof (rmvol_keeps _ _ _ _ _ _ Hok Hin Hname Er) as Hr. destruct (negb (r =? 0)); [by intros [= <- <-]|].
  destruct (size =? 0); [by intros [= <- <-]|]. intros H. apply (others_kept_trans _ _ u); [done|]. intros d i x Hx _.
  by apply (create_volume_keeps _ _ _ _ _ _ _ _ _ _ H).
Qed.

Lemma resize_volume_provides cfg size n w w' :
  list_ok w -> mtd_of sys (device cfg) = Some n -> lebs_fit w n size -> 0 < size ->
  resize_volume lib sys mem cfg size w = (0, w') -> exists v, provided_volume cfg size n w' v.
Proof.
  intros Hok Hn (Hl & Hfit & Hall) Hs. unfold resize_volume. rewrite Hn. destruct (Z.eqb_spec size 0); [lia|].
  destruct (search_volume _ _) as [v|] eqn:Es; [|apply create_volume_gives].
  destruct (search_volume_In _ _ _ Es) as [Hin Hname]. destruct (lo_known _ Hok n v Hin) as [Hdv Hkv].
  destruct (Z.eqb_spec (leb_size (ubi_info w n)) 0); [done|]. destruct (_ && _ && _) eqn:Esame.
  { intros [= <-]. apply andb_true_iff in Esame as [[H1%Z.eqb_eq H2%Z.eqb_eq]%andb_true_iff _].
    exists v. split_and!; [done|done| |done]. apply (same_lebs_fit size v (leb_size (ubi_info w n))); [lia|lia|by apply Hall|done]. }
  destruct (ubi_rmvol lib _ _ _) as [r u]. destruct (negb (r =? 0)); [done|]. apply create_volume_gives.
Qed.

(** A partition request is fulfilled: when the handler "ubipartition" succeeds, there is a volume of the name and the type,
    which is not smaller than the size that was asked for, volumes with other names are as they were, and the list of
    the volumes is still true. *)
Theorem ubi_partition_provided {E V} (cfg : img_type) (d : handler_data) (m m' : machine E V world) (cfg' : img_type) (n : Z) :
  list_ok (m_world m) -> own_device (m_world m) n -> mtd_of sys (device cfg) = Some n -> lebs_fit (m_world m) n (partsize cfg) ->
  0 < partsize cfg -> adjust_volume lib sys mem cfg d m = (0, cfg', m') ->
  (exists v, provided_volume cfg (partsize cfg) n (m_world m') v) /\
  others_kept (volname cfg) (uw_dev (m_world m)) (uw_dev (m_world m')) /\ list_ok (m_world m').
Proof.
  intros Hok Hown Hn Hfit Hs H. unfold adjust_volume in H. destruct (resize_volume _ _ _ _ _ _) as [ret w] eqn:Er. injection H as -> _ <-.
  split_and!; [by apply (resize_volume_provides _ _ _ _ _ Hok Hn Hfit Hs Er)|by apply (resize_volume_keeps _ _ _ _ _ Hok Er)|].
  apply (resize_volume_ok _ _ _ _ _ Hok) in Er; [done|]. intros n' Hn'. by replace n' with n by congruence.
Qed.
End Known.

(** ** Images *)

Section Written.
Context {E V U : Type} (lib : ubi_lib U) `{Hspec : !UbiSpec lib} (has_ubi : bool) (sys : mtd_system).
Context {C D X : Type} (hl : hash_lib C) (dl : decrypt_lib D) (zcfg : config (X := X)) (keys : option decryption_key) (fuel : nat).
Context (mem : bool) (plan : list wr_event) (lseek_ok : bool).
#[local] Abbreviation world := (ubi_world U).
#[local] Abbreviation mach := (machine E V (ubi_world U)).

(** The state in which only the data of a volume is new. *)
Definition new_data (u u' : U) (v : ubi_vol_info) (b : bytes) : Prop :=
  vols u' (dev_num v) (vol_id v) = set_data b <$> vols u (dev_num v) (vol_id v) /\
  forall d i, (d, i) <> (dev_num v, vol_id v) -> vols u' d i = vols u d i.

Lemma new_data_trans u1 u2 u3 v b1 b2 : new_data u1 u2 v b1 -> new_data u2 u3 v b2 -> new_data u1 u3 v b2.
Proof.
  intros [H1 K1] [H2 K2]. split; [rewrite H2, H1|intros d i Hn; by rewrite K2, K1].
  by destruct (vols u1 (dev_num v) (vol_id v)).
Qed.

Lemma start_update_data k v n u r u' : start_update lib k v n u = (r, u') -> exists b, new_data u u' v b.
Proof.
  revert u. induction k as [|k IH]; intros u; cbn [start_update];
  (destruct (ubi_update_start lib u _ _ n) as [[errno|] u1] eqn:Es; destruct (start_spec lib _ _ _ _ _ _ Es) as [Hk [b Hb]]);
  try (intros [= <- <-]; by exists b); destruct (negb (errno =? EBUSY)); try (intros [= <- <-]; by exists b).
  intros H. destruct (IH _ H) as [b' Hb']. exists b'. by apply (new_data_trans _ u1 _ _ b).
Qed.

Lemma vol_write_data u v b : new_data u (vol_write lib u (dev_num v) (vol_id v) b) v b.
Proof.
  split; [rewrite (write_vol_spec lib), !Z.eqb_refl; done|]. intros d i Hn. rewrite (write_vol_spec lib).
  destruct (Z.eqb_spec d (dev_num v)) as [->|]; [|done]. destruct (Z.eqb_spec i (vol_id v)) as [->|]; done.
Qed.

(** What is behind a success: the image was copied to the volume, with a result that only counts when no name is changed. *)
Lemma update_volume_inv img v w img' w' :
  update_volume lib has_ubi sys hl dl zcfg keys fuel plan lseek_ok img v w = (0, img', w') ->
  exists repl ret data u, check_replace sys img v w = Some repl /\ 0 < get_output_size img true <= rsvd_bytes v /\
    copyimage hl dl zcfg keys fuel img lseek_ok plan = (ret, img', data) /\ new_data (uw_dev w) u v data /\
    handle_replace lib (if ret <? 0 then -1 else 0) v repl u = (0, uw_dev w') /\ uw_mtd w' = uw_mtd w.
Proof.
  unfold update_volume. destruct (Z.leb_spec (get_output_size img true) 0); [done|]. destruct (negb has_ubi); [done|].
  rewrite Z.gtb_ltb. destruct (Z.ltb_spec (rsvd_bytes v) (get_output_size img true)); [done|]. destruct (_ || _); [done|].
  destruct (check_replace sys img v w) as [repl|]; [|done]. destruct (negb _); [done|].
  destruct (start_update lib 2 v _ _) as [[] u] eqn:Es; cbn [negb]; [|done]. destruct (start_update_data _ _ _ _ _ _ Es) as [b Hb].
  destruct (copyimage _ _ _ _ _ _ _ _) as [[ret img1] data] eqn:Ec. destruct (handle_replace _ _ _ _ _) as [err u2] eqn:Eh.
  intros [= -> <- <-]. exists repl, ret, data, (vol_write lib u (dev_num v) (vol_id v) data). split_and!; try done.
  apply (new_data_trans _ u _ _ b); [done|]. apply vol_write_data.
Qed.

Lemma copyimage_plain_ret img ret img' data :
  plain_image img -> copyimage hl dl zcfg keys fuel img lseek_ok plan = (ret, img', data) -> ret <= 0.
Proof.
  intros [He Hc]. unfold copyimage. destruct (copyfile _ _ _ _ _ _ _ _) as [r|] eqn:Hr; [|by intros [= <- _ _]].
  intros [= <- _ _]. by refine (copyfile_plain_ret _ _ _ _ _ _ (copy_image_args img lseek_ok) _ _ He Hc Hr).
Qed.

Lemma search_from_In k i name w v : search_from k i name w = Some v -> exists n, v ∈ ubi_partitions (ubi_info (U := U) w n) /\ vol_name v = name.
Proof.
  revert i. induction k as [|k IH]; intros i; [done|]. cbn. destruct (search_volume name _) as [x|] eqn:Es; [|apply IH].
  intros [= <-]. exists i. by apply search_volume_In.
Qed.

Lemma find_volume_In dev name w v : find_volume sys dev name w = Some v -> exists n, v ∈ ubi_partitions (ubi_info (U := U) w n) /\ vol_name v = name.
Proof.
  unfold find_volume, search_volume_local, search_volume_global. destruct (negb _); [|apply search_from_In].
  destruct (mtd_of sys dev) as [n|]; [|done]. intros H. exists n. by apply search_volume_In.
Qed.

Lemma find_volume_mtd dev name (w w' : world) : uw_mtd w' = uw_mtd w -> find_volume sys dev name w' = find_volume sys dev name w.
Proof.
  intros Hm. assert (forall n, ubi_info w' n = ubi_info w n) as Hi by (intros n; unfold ubi_info; by rewrite Hm).
  assert (forall k i, search_from k i name w' = search_from k i name w) as Hs.
  { induction k as [|k IH]; intros i; cbn [search_from]; [reflexivity|]. by rewrite Hi, IH. }
  unfold find_volume, search_volume_local, search_volume_global. rewrite Hs. destruct (mtd_of sys dev); by rewrite ?Hi.
Qed.

(** The list before the image is written: that of the start, or the one after resizing. *)
Lemma install_ubivol_inv img d (m : mach) img' m' :
  install_ubivol_image lib has_ubi sys hl dl zcfg keys fuel mem plan lseek_ok img d m = (0, img', m') ->
  exists w v, (w = m_world m \/ exists ret, check_ubi_autoresize img = true /\
      resize_volume lib sys mem img (get_output_size img true) (m_world m) = (ret, w)) /\
    find_volume sys (device img) (volname img) w = Some v /\
    update_volume lib has_ubi sys hl dl zcfg keys fuel plan lseek_ok img v w = (0, img', m_world m').
Proof.
  unfold install_ubivol_image, write_found. intros H. destruct (check_ubi_autoresize img) eqn:Ea.
  - destruct (_ <=? 0); [done|]. destruct (resize_volume _ _ _ _ _ _) as [ret w] eqn:Er. destruct (ret <? 0); [done|].
    destruct (wait_volume lib sys img w <? 0); [done|]. destruct (find_volume sys _ _ w) as [v|] eqn:Ef; [|done].
    exists w, v. destruct (update_volume _ _ _ _ _ _ _ _ _ _ _ _ _) as [[r i] w2] eqn:Eu. injection H as -> <- <-. cbn.
    split_and!; [right; by exists ret|done|done].
  - destruct (find_volume sys _ _ _) as [v|] eqn:Ef; [|done]. exists (m_world m), v.
    destruct (update_volume _ _ _ _ _ _ _ _ _ _ _ _ _) as [[r i] w2] eqn:Eu. injection H as -> <- <-. by split_and!; [left| |].
Qed.

Lemma installed_list img (m : mach) w v :
  list_ok lib (m_world m) -> (forall n, mtd_of sys (device img) = Some n -> own_device (m_world m) n) ->
  (w = m_world m \/ exists ret, check_ubi_autoresize img = true /\
    resize_volume lib sys mem img (get_output_size img true) (m_world m) = (ret, w)) ->
  find_volume sys (device img) (volname img) w = Some v ->
  list_ok lib w /\ others_kept lib (volname img) (uw_dev (m_world m)) (uw_dev w) /\ known lib (uw_dev w) v /\ vol_name v = volname img.
Proof.
  intros Hok Hown Hw Hf. assert (list_ok lib w /\ others_kept lib (volname img) (uw_dev (m_world m)) (uw_dev w)) as [H1 H2].
  { destruct Hw as [->|(ret & _ & Er)]; [by split; [|intros d i x]|].
    split; [by apply (resize_volume_ok _ _ _ _ _ _ _ _ Hok Hown Er)|by apply (resize_volume_keeps _ _ _ _ _ _ _ _ Hok Er)]. }
  destruct (find_volume_In _ _ _ _ Hf) as (n & Hin & Hname). split_and!; try done. by apply (lo_known _ _ H1 n).
Qed.

(** C25: an image that is neither encrypted nor compressed and replaces no other volume is in the volume of its name when the
    handler "ubivol" succeeds: it holds exactly the bytes of the artifact, whose hash was verified, and it is large enough. Volumes
    with other names are as they were. The list of volumes is as [scanned_list_ok] shows it to be, and the UBI device of the MTD is
    not that of another one. *)
Theorem ubi_image_written `{!HashSpec hl} (img img' : img_type) (d : handler_data) (m m' : mach) :
  list_ok lib (m_world m) -> (forall n, mtd_of sys (device img) = Some n -> own_device (m_world m) n) -> plain_image img ->
  dict_get_value (properties img) "replaces" = None ->
  install_ubivol_image lib has_ubi sys hl dl zcfg keys fuel mem plan lseek_ok img d m = (0, img', m') ->
  (exists v, find_volume sys (device img) (volname img) (m_world m') = Some v /\ img_size img <= rsvd_bytes v /\
    vols (uw_dev (m_world m')) (dev_num v) (vol_id v) =
      Some (mk_volume (volname img) (vol_type v) (rsvd_bytes v) (img_data img))) /\
  others_kept lib (volname img) (uw_dev (m_world m)) (uw_dev (m_world m')) /\
  (length (sha256 img) = SHA256_HASH_LENGTH -> valid_hash (Some (sha256 img)) = true -> sha (img_data img) = sha256 img).
Proof.
  intros Hok Hown Hp Hrep H. destruct (install_ubivol_inv _ _ _ _ _ H) as (w & v & Hw & Hf & Hu).
  destruct (installed_list _ _ _ _ Hok Hown Hw Hf) as (Hok' & Hkeep & [b Hb] & Hname).
  destruct (update_volume_inv _ _ _ _ _ Hu) as (repl & ret & data & u & Hr & Hsz & Hc & [Hn Ho] & Hh & Hm).
  unfold check_replace in Hr. rewrite Hrep in Hr. injection Hr as <-. cbn in Hh. injection Hh as Hret Hu'.
  assert (ret = 0) as ->.
  { pose proof (copyimage_plain_ret _ _ _ _ Hp Hc). destruct (Z.ltb_spec ret 0); [done|lia]. }
  rewrite (copyimage_data _ _ _ _ _ _ _ _ _ _ Hp Hc) in Hn. rewrite Hb, Hu' in Hn.
  assert (get_output_size img true = img_size img) as Hos.
  { destruct Hp as [He Hcomp]. unfold get_output_size. by rewrite Hcomp, He, bool_decide_false by (intros Hx; by apply Hx). }
  split_and!.
  - exists v. split_and!; [|lia|rewrite Hn; cbn; by rewrite Hname].
    rewrite <- Hf. by apply find_volume_mtd.
  - apply (others_kept_trans lib _ _ (uw_dev w)); [done|]. intros d' i' x Hx Hnx. rewrite <- Hu', Ho; [done|].
    intros [= -> ->]. rewrite Hb in Hx. injection Hx as <-. done.
  - intros Hl Hv. by apply (copyimage_hash _ _ _ _ _ _ _ _ _ _ Hp Hl Hv Hc).
Qed.

(** ** Names *)

Definition names_unique (u : U) (d : Z) : Prop :=
  forall i j v v', vols u d i = Some v -> vols u d j = Some v' -> v_name v = v_name v' -> i = j.

Definition pair_ents (p : ubi_vol_info * ubi_vol_info) : list rnvol_ent :=
  [mk_ent (vol_id p.1) (strlen (vol_name p.2)) (vol_name p.2); mk_ent (vol_id p.2) (strlen (vol_name p.1)) (vol_name p.1)].
Definition pairs_ents (ps : list (ubi_vol_info * ubi_vol_info)) : list rnvol_ent := concat (map pair_ents ps).
Definition pairs_ids (ps : list (ubi_vol_info * ubi_vol_info)) : list Z := ent_id <$> pairs_ents ps.

(** The volumes of every pair have exchanged their names, and nothing else has changed. *)
Definition exchanged (ps : list (ubi_vol_info * ubi_vol_info)) (dev : Z) (u u' : U) : Prop :=
  (forall a b, (a, b) ∈ ps ->
    vols u' dev (vol_id a) = set_name (vol_name b) <$> vols u dev (vol_id a) /\
    vols u' dev (vol_id b) = set_name (vol_name a) <$> vols u dev (vol_id b)) /\
  (forall i, i ∉ pairs_ids ps -> vols u' dev i = vols u dev i) /\ (forall d i, d <> dev -> vols u' d i = vols u d i).

Lemma renamed_In ents e v : NoDup (ent_id <$> ents) -> e ∈ ents -> renamed ents (ent_id e) v = set_name (ent_name e) v.
Proof.
  induction ents as [|x ents IH]; [by intros _ H%not_elem_of_nil|]. cbn. intros [Hx Hn]%NoDup_cons He.
  apply elem_of_cons in He as [->|He]; [by rewrite Z.eqb_refl|]. destruct (Z.eqb_spec (ent_id x) (ent_id e)) as [E1|]; [|by apply IH].
  exfalso. apply Hx. rewrite E1. by apply list_elem_of_fmap_2.
Qed.

Lemma renamed_other ents i v : i ∉ ent_id <$> ents -> renamed ents i v = v.
Proof.
  induction ents as [|x ents IH]; [done|]. cbn. intros [Hx Hn]%not_elem_of_cons.
  destruct (Z.eqb_spec (ent_id x) i) as [<-|]; [done|by apply IH].
Qed.

Lemma pairs_ents_In ps a b e : (a, b) ∈ ps -> e ∈ pair_ents (a, b) -> e ∈ pairs_ents ps.
Proof.
  intros Hp He. unfold pairs_ents. apply list_elem_of_In, in_concat. exists (pair_ents (a, b)).
  split; [|by apply list_elem_of_In]. apply in_map_iff. exists (a, b). split; [done|]. by apply list_elem_of_In.
Qed.

Lemma pairs_ents_inv ps e : e ∈ pairs_ents ps -> exists a b, (a, b) ∈ ps /\ e ∈ pair_ents (a, b).
Proof.
  intros He%list_elem_of_In. apply in_concat in He as (l & Hl & He). apply in_map_iff in Hl as ([a b] & <- & Hp).
  exists a, b. split; by apply list_elem_of_In.
Qed.

(** All the names are in use by the volumes of the request. *)
Lemma rnvols_exchange ps dev u u' :
  names_unique u dev -> (forall a b, (a, b) ∈ ps -> dev_num a = dev /\ dev_num b = dev /\ known lib u a /\ known lib u b) ->
  NoDup (pairs_ids ps) -> ubi_rnvols lib u dev (pairs_ents ps) = (0, u') -> exchanged ps dev u u'.
Proof.
  intros Hun Hps Hnd Hr. pose proof (rnvols_spec lib _ _ _ _ _ Hr) as Hs. cbn [Z.eqb andb] in Hs.
  assert (forall d' i', vols u' d' i' = if d' =? dev then renamed (pairs_ents ps) i' <$> vols u dev i' else vols u d' i') as Hv.
  { apply Hs. intros e i v He Hv Hname. apply pairs_ents_inv in He as (a & b & Hp & He).
    destruct (Hps a b Hp) as (Ha & Hb & [ba Hka] & [bb Hkb]). rewrite Ha in Hka. rewrite Hb in Hkb.
    assert (exists x, x ∈ [a; b] /\ i = vol_id x) as (x & Hx & ->).
    { unfold pair_ents in He. cbn in He. rewrite !elem_of_cons in He. destruct He as [->|[->|He%not_elem_of_nil]]; [| |done]; cbn in Hname.
      - exists b. split; [by do 2 constructor|]. by apply (Hun _ _ _ _ Hv Hkb).
      - exists a. split; [constructor|]. by apply (Hun _ _ _ _ Hv Hka). }
    rewrite !elem_of_cons in Hx. destruct Hx as [->|[->|Hx%not_elem_of_nil]]; [| |done].
    - apply (list_elem_of_fmap_2' ent_id (pairs_ents ps) (mk_ent (vol_id a) (strlen (vol_name b)) (vol_name b))); [|done].
      apply (pairs_ents_In _ a b); [done|constructor].
    - apply (list_elem_of_fmap_2' ent_id (pairs_ents ps) (mk_ent (vol_id b) (strlen (vol_name a)) (vol_name a))); [|done].
      apply (pairs_ents_In _ a b); [done|do 2 constructor]. }
  split_and!.
  - intros a b Hp. rewrite !Hv, Z.eqb_refl. split; (destruct (vols u dev _); [|done]); cbn; f_equal.
    + apply (renamed_In _ (mk_ent (vol_id a) (strlen (vol_name b)) (vol_name b))); [done|]. apply (pairs_ents_In _ a b); [done|constructor].
    + apply (renamed_In _ (mk_ent (vol_id b) (strlen (vol_name a)) (vol_name a))); [done|]. apply (pairs_ents_In _ a b); [done|do 2 constructor].
  - intros i Hi. rewrite Hv, Z.eqb_refl. destruct (vols u dev i); [|done]. cbn. by rewrite renamed_other.
  - intros d i Hd. rewrite Hv. by destruct (Z.eqb_spec d dev).
Qed.

Lemma new_data_lookup u u' v b d i x : new_data u u' v b -> vols u' d i = Some x -> exists y b', vols u d i = Some y /\ x = set_data b' y.
Proof.
  intros [Hn Ho] Hx. destruct (decide ((d, i) = (dev_num v, vol_id v))) as [[= -> ->]|Hne].
  - rewrite Hn in Hx. destruct (vols u (dev_num v) (vol_id v)) as [y|]; [|done]. injection Hx as <-. by exists y, b.
  - rewrite Ho in Hx by done. exists x, (v_data x). by destruct x.
Qed.

Lemma new_data_known u u' v b x : new_data u u' v b -> known lib u x -> known lib u' x.
Proof.
  intros [Hn Ho] [b' Hb']. destruct (decide ((dev_num x, vol_id x) = (dev_num v, vol_id v))) as [[= E1 E2]|Hne].
  - exists b. rewrite E1, E2, Hn, <- E1, <- E2, Hb'. done.
  - exists b'. by rewrite Ho.
Qed.

Lemma new_data_unique u u' v b d : new_data u u' v b -> names_unique u d -> names_unique u' d.
Proof.
  intros Hnew Hun i j x x' Hx Hx' Hname. destruct (new_data_lookup _ _ _ _ _ _ _ Hnew Hx) as (y & by_ & Hy & ->).
  destruct (new_data_lookup _ _ _ _ _ _ _ Hnew Hx') as (y' & by' & Hy' & ->). by apply (Hun i j y y').
Qed.

(** A volume that is replaced: when the handler succeeds, the volume that got the data has the name of the other one, which
    keeps its data under the old name. The data is the image if the copy succeeded: it is not the copy
    that decides on the result. *)
Theorem ubi_replace_exchanges (img img' : img_type) (d : handler_data) (m m' : mach) (v other : ubi_vol_info) (name : string) :
  list_ok lib (m_world m) -> plain_image img -> check_ubi_autoresize img = false ->
  dict_get_value (properties img) "replaces" = Some name ->
  find_volume sys (device img) (volname img) (m_world m) = Some v -> find_volume sys (device img) name (m_world m) = Some other ->
  vol_id v <> vol_id other -> names_unique (uw_dev (m_world m)) (dev_num v) ->
  install_ubivol_image lib has_ubi sys hl dl zcfg keys fuel mem plan lseek_ok img d m = (0, img', m') ->
  exists ret data, copyimage hl dl zcfg keys fuel img lseek_ok plan = (ret, img', data) /\ (ret = 0 -> data = img_data img) /\
    dev_num other = dev_num v /\
    vols (uw_dev (m_world m')) (dev_num v) (vol_id v) = Some (mk_volume name (vol_type v) (rsvd_bytes v) data) /\
    vols (uw_dev (m_world m')) (dev_num v) (vol_id other) = set_name (volname img) <$> vols (uw_dev (m_world m)) (dev_num v) (vol_id other) /\
    forall d' i, d' <> dev_num v \/ i <> vol_id v /\ i <> vol_id other ->
      vols (uw_dev (m_world m')) d' i = vols (uw_dev (m_world m)) d' i.
Proof.
  intros Hok Hp Ha Hrep Hf Hf2 Hne Hun H. destruct (install_ubivol_inv _ _ _ _ _ H) as (w & v' & Hw & Hf' & Hu).
  destruct Hw as [->|(? & Hbad & _)]; [|congruence]. rewrite Hf in Hf'. injection Hf' as <-.
  destruct (find_volume_In _ _ _ _ Hf) as (n1 & Hin1 & Hname1). destruct (find_volume_In _ _ _ _ Hf2) as (n2 & Hin2 & Hname2).
  destruct (lo_known _ _ Hok n1 v Hin1) as [_ Hk1]. destruct (lo_known _ _ Hok n2 other Hin2) as [_ Hk2].
  destruct (update_volume_inv _ _ _ _ _ Hu) as (repl & ret & data & u & Hr & _ & Hc & Hnew & Hh & _).
  unfold check_replace in Hr. rewrite Hrep, Hf2 in Hr. destruct (Z.eqb_spec (dev_num v) (dev_num other)) as [Ed|]; [|done].
  injection Hr as <-. cbn in Hh. unfold swap_volnames in Hh.
  destruct (rnvols_exchange [(v, other)] (dev_num v) u (uw_dev (m_world m'))) as (He & Hrest & Hdev).
  - by apply (new_data_unique _ _ _ _ _ Hnew).
  - intros a b Hab. apply list_elem_of_singleton in Hab as [= -> ->].
    split_and!; [done|done|by apply (new_data_known _ _ _ _ _ Hnew)|by apply (new_data_known _ _ _ _ _ Hnew)].
  - cbn. apply NoDup_cons. split; [by rewrite list_elem_of_singleton|apply NoDup_singleton].
  - exact Hh.
  - destruct (He v other) as [H1 H2]; [constructor|]. exists ret, data. destruct Hnew as [Hn Ho]. destruct Hk1 as [b1 Hb1].
    rewrite Hn, Hb1 in H1. rewrite Ho in H2 by (intros [= E1]; congruence). rewrite Hname1 in H2. split_and!; try done.
    + intros ->. by apply (copyimage_data _ _ _ _ _ _ _ _ _ _ Hp Hc).
    + rewrite H1. cbn. by rewrite Hname2.
    + intros d' i Hd. destruct (decide (d' = dev_num v)) as [->|Hd']; [|rewrite (Hdev _ _ Hd'); apply Ho; congruence].
      destruct Hd as [|[Hi1 Hi2]]; [done|]. rewrite Hrest, Ho; [done|congruence|].
      cbn. rewrite !not_elem_of_cons. split_and!; [done|done|apply not_elem_of_nil].
Qed.

(** The properties "swap-0" and so on are pairs of volumes on one device. *)
Lemma swap_requests_pairs n count gdev img ents w dev ents' :
  (forall k v, v ∈ ubi_partitions (ubi_info w k) -> 0 <= dev_num v) -> (forall k v, v ∈ ubi_partitions (ubi_info w k) -> strlen (vol_name v) < 127) ->
  swap_requests sys n count gdev img ents (U := U) w = Some (dev, ents') ->
  exists ps, ents' = ents ++ pairs_ents ps /\ (gdev <> -1 -> dev = gdev) /\
    (forall k a b, ps !! k = Some (a, b) ->
      dict_get_list (properties img) ("swap-" +:+ print_d (count + Z.of_nat k)) = Some [vol_name a; vol_name b] /\
      (exists n1 n2, a ∈ ubi_partitions (ubi_info w n1) /\ b ∈ ubi_partitions (ubi_info w n2)) /\ dev_num a = dev /\ dev_num b = dev) /\
    dict_get_list (properties img) ("swap-" +:+ print_d (count + Z.of_nat (length ps))) = None.
Proof.
  intros Hdev Hlen. revert count gdev ents. induction n as [|n IH]; intros count gdev ents; cbn [swap_requests].
  all: destruct (dict_get_list _ _) as [volumes|] eqn:Eg.
  1: done.
  1, 3: intros [= <- <-]; exists []; rewrite app_nil_r, Z.add_0_r; by split_and!.
  destruct volumes as [|n0 [|n1 [|]]]; try done. destruct (find_volume sys _ n0 w) as [a|] eqn:Ea; [|done].
  destruct (find_volume sys _ n1 w) as [b|] eqn:Eb; [|done]. destruct (Z.eqb_spec (dev_num a) (dev_num b)) as [Eab|]; [|done].
  destruct (_ && _) eqn:Egd; [done|]. cbn [negb]. destruct (find_volume_In _ _ _ _ Ea) as (k0 & Hin0 & <-).
  destruct (find_volume_In _ _ _ _ Eb) as (k1 & Hin1 & <-). intros H. destruct (IH _ _ _ H) as (ps & -> & Hd & Hps & Hend).
  pose proof (Hdev _ _ Hin0). specialize (Hd ltac:(lia)). exists ((a, b) :: ps). split_and!.
  - rewrite <- app_assoc. f_equal. cbn [pairs_ents map concat pair_ents fst snd app]. unfold swap_ent.
    pose proof (Hlen _ _ Hin0). pose proof (Hlen _ _ Hin1). unfold UBI_MAX_VOLUME_NAME. rewrite !Z.min_l, !strlcpy_fits by lia. done.
  - intros Hne. apply andb_false_iff in Egd as [Egd|Egd]; apply negb_false_iff, Z.eqb_eq in Egd; congruence.
  - intros [|k] a' b' Hk; [|apply Hps in Hk as (Hk & ? & ? & ?); split_and!; try done; rewrite <- Hk; do 3 f_equal; lia].
    injection Hk as <- <-. rewrite Z.add_0_r. split_and!; [done|by exists k0, k1|done|congruence].
  - cbn [length]. rewrite <- Hend. do 3 f_equal. lia.
Qed.

(** "ubiswap" exchanges the names of all its pairs at once: when the script succeeds, the volumes of every property "swap-0",
    "swap-1", ... have each the name of the other one, with their data, and all other volumes are as they were. *)
Theorem ubi_swap_exchanges (img img' : img_type) (d : handler_data) (m m' : mach) :
  list_ok lib (m_world m) -> (forall dev, names_unique (uw_dev (m_world m)) dev) ->
  (forall k v, v ∈ ubi_partitions (ubi_info (m_world m) k) -> 0 <= dev_num v /\ strlen (vol_name v) < 127) ->
  scriptfn d = Some POSTINSTALL -> swap_volume lib sys img d m = (0, img', m') ->
  exists dev ps, ps <> [] /\
    (forall k a b, ps !! k = Some (a, b) ->
      dict_get_list (properties img) ("swap-" +:+ print_d (Z.of_nat k)) = Some [vol_name a; vol_name b] /\
      known lib (uw_dev (m_world m)) a /\ known lib (uw_dev (m_world m)) b) /\
    dict_get_list (properties img) ("swap-" +:+ print_d (Z.of_nat (length ps))) = None /\
    (NoDup (pairs_ids ps) -> exchanged ps dev (uw_dev (m_world m)) (uw_dev (m_world m'))).
Proof.
  intros Hok Hun Hv Hd. unfold swap_volume. rewrite Hd. destruct (swap_requests _ _ _ _ _ _ _) as [[dev ents]|] eqn:Es; [|done].
  destruct (swap_requests_pairs _ _ _ _ _ _ _ _ (fun k v H => proj1 (Hv k v H)) (fun k v H => proj2 (Hv k v H)) Es) as (ps & -> & _ & Hps & Hend).
  cbn [app]. destruct (pairs_ents ps) as [|e es] eqn:Ee; [done|]. rewrite <- Ee.
  destruct (ubi_rnvols lib _ dev _) as [r u] eqn:Er. intros [= -> <- <-]. exists dev, ps. split_and!.
  - by intros ->.
  - intros k a b Hk. destruct (Hps k a b Hk) as (Hp & (n1 & n2 & Ha & Hb) & _). split_and!; [done| |]; by eapply lo_known.
  - done.
  - intros Hnd. apply rnvols_exchange; [done| |done|done]. intros a b Hab. apply list_elem_of_lookup_1 in Hab as [k Hk].
    destruct (Hps k a b Hk) as (_ & (n1 & n2 & Ha & Hb) & Hd1 & Hd2). split_and!; [done|done| |]; by eapply lo_known.
Qed.
End Written.

(** ** The list after a scan *)

Section Scanned.
Context {U : Type} (lib : ubi_lib U) `{Hspec : !UbiSpec lib} (has_ubi : bool) (sys : mtd_system) (mem : bool).
#[local] Abbreviation world := (ubi_world U).

Lemma scan_vols_list n i dev u l c l' :
  scan_vols lib mem n i dev u l = (c, l') ->
  exists l0, l' = l0 ++ l /\ NoDup (vol_id <$> l0) /\ forall v, v ∈ l0 -> dev_num v = dev /\ known lib u v /\ i <= vol_id v.
Proof.
  revert i l. induction n as [|n IH]; intros i l; cbn [scan_vols].
  { intros [= <- <-]. exists []. split_and!; [done|constructor|by intros v ?%not_elem_of_nil]. }
  assert (forall c1 l1, (c1, l1) = (c, l') -> l1 = l -> exists l0, l' = l0 ++ l /\ NoDup (vol_id <$> l0) /\
    forall v, v ∈ l0 -> dev_num v = dev /\ known lib u v /\ i <= vol_id v) as Hstop.
  { intros c1 l1 [= <- <-] ->. exists []. split_and!; [done|constructor|by intros v ?%not_elem_of_nil]. }
  destruct mem; cbn [negb]; [|intros H; by apply (Hstop _ _ H)].
  destruct (ubi_get_vol_info1 lib u dev i) as [errno|v] eqn:Ei.
  - destruct (_ || _); [|intros H; by apply (Hstop _ _ H)]. intros H. destruct (IH _ _ H) as (l0 & -> & Hn & Hall).
    exists l0. split_and!; [done|done|]. intros x Hx. destruct (Hall x Hx) as (? & ? & ?). split_and!; [done|done|lia].
  - intros H. destruct (IH _ _ H) as (l0 & -> & Hn & Hall). destruct (vol_info_spec lib _ _ _ _ Ei) as (Hd & Hi & b & Hb).
    exists (l0 ++ [v]). rewrite <- app_assoc. split_and!; [done| |].
    + rewrite fmap_app. apply NoDup_app. split_and!; [done| |apply NoDup_singleton]. intros x Hx Hx'.
      apply list_elem_of_singleton in Hx' as ->. apply list_elem_of_fmap in Hx as (y & Ey & Hy). destruct (Hall y Hy) as (_ & _ & ?). lia.
    + intros x Hx. apply elem_of_app in Hx as [Hx|Hx]; [destruct (Hall x Hx) as (? & ? & ?); split_and!; [done|done|lia]|].
      apply list_elem_of_singleton in Hx as ->. split_and!; [done|exists b; by rewrite Hd, Hi|lia].
Qed.

(** Devices have their number, and a MTD belongs to one of them. *)
Definition devices_ok (u : U) : Prop :=
  (forall i d, ubi_get_dev_info1 lib u i = Some d -> ud_dev_num d = i) /\
  (forall i j d e, ubi_get_dev_info1 lib u i = Some d -> ubi_get_dev_info1 lib u j = Some e -> ud_mtd_num d = ud_mtd_num e -> i = j).

(** What was found so far, on devices before [i]. *)
Definition scanned_to (i : Z) (w : world) : Prop :=
  list_ok lib w /\ forall n, ubi_partitions (ubi_info w n) <> [] ->
    ubi_dev_num (ubi_info w n) < i /\ exists d, ubi_get_dev_info1 lib (uw_dev w) (ubi_dev_num (ubi_info w n)) = Some d /\ ud_mtd_num d = n.

Lemma info_set_info (w : world) n x n' : ubi_info (set_info n x w) n' = if decide (n = n') then x else ubi_info w n'.
Proof. unfold set_info, ubi_info. cbn [uw_mtd]. rewrite lookup_insert. by destruct (decide (n = n')). Qed.

Lemma scan_ubi_volumes_ok i d w :
  devices_ok (uw_dev w) -> scanned_to i w -> ubi_get_dev_info1 lib (uw_dev w) i = Some d ->
  scanned_to (i + 1) (scan_ubi_volumes lib mem (ud_mtd_num d) d w).
Proof.
  intros [Hnum Hone] [[Hk Hn Hd] Hto] Hi. set (n := ud_mtd_num d). unfold scan_ubi_volumes.
  assert (ubi_partitions (ubi_info w n) = []) as Hempty.
  { destruct (ubi_partitions (ubi_info w n)) eqn:E1; [done|]. destruct (Hto n) as (Hlt & e & He & Hm); [by rewrite E1|].
    pose proof (Hone _ _ _ _ He Hi Hm). lia. }
  rewrite Hempty. destruct (scan_vols _ _ _ _ _ _ _) as [c l] eqn:Es. destruct (scan_vols_list _ _ _ _ _ _ _ Es) as (l0 & -> & Hnd & Hall).
  rewrite app_nil_r. rewrite (Hnum _ _ Hi) in *. set (x := mk_ubi _ _ l0 _ _ _).
  assert (forall n', ubi_info (set_info n x w) n' = if decide (n = n') then x else ubi_info w n') as Hinfo by (intros; apply info_set_info).
  assert (forall n', n <> n' -> ubi_partitions (ubi_info w n') <> [] -> ubi_dev_num (ubi_info w n') < i) as Hlt by (intros; by apply Hto).
  split; [split|].
  - intros n' v. rewrite !Hinfo. destruct (decide (n = n')) as [<-|]; [|apply Hk]. intros Hv. destruct (Hall v Hv) as (Hv1 & Hv2 & _).
    split; [exact Hv1|exact Hv2].
  - intros n'. rewrite Hinfo. by destruct (decide (n = n')).
  - intros n1 n2. rewrite !Hinfo. destruct (decide (n = n1)) as [<-|H1], (decide (n = n2)) as [<-|H2]; cbn [ubi_dev_num x]; [done| | |apply Hd].
    + intros _ Hne E1. specialize (Hlt n2 H2 Hne). lia.
    + intros Hne _ E1. specialize (Hlt n1 H1 Hne). lia.
  - intros n'. rewrite Hinfo. destruct (decide (n = n')) as [<-|Hne]; cbn [ubi_dev_num x].
    + intros _. split; [lia|]. by exists d.
    + intros Hp. destruct (Hto n' Hp) as [? ?]. split; [lia|done].
Qed.

Lemma scan_devices_ok k i w : devices_ok (uw_dev w) -> scanned_to i w -> scanned_to (i + Z.of_nat k) (scan_devices lib mem k i w).
Proof.
  revert i w. induction k as [|k IH]; intros i w Hdev Hw; cbn [scan_devices]; [by rewrite Z.add_0_r|].
  replace (i + Z.of_nat (S k)) with (i + 1 + Z.of_nat k) by lia.
  assert (scanned_to (i + 1) w) as Hnext.
  { destruct Hw as [Hok Hto]. split; [done|]. intros n Hn. destruct (Hto n Hn). split; [lia|done]. }
  destruct (ubi_get_dev_info1 lib (uw_dev w) i) as [d|] eqn:Ed; [|by apply IH]. destruct (_ || _); [by apply IH|].
  apply IH; [|by apply scan_ubi_volumes_ok]. unfold scan_ubi_volumes. destruct (scan_vols _ _ _ _ _ _ _). done.
Qed.

Lemma insert_tokens_empty tokens black w :
  uw_dev (insert_tokens sys tokens black w) = uw_dev (U := U) w /\
  ((forall n, ubi_partitions (ubi_info w n) = []) -> forall n, ubi_partitions (ubi_info (insert_tokens sys tokens black w) n) = []).
Proof.
  revert w. induction tokens as [|t tokens IH]; intros w; cbn [insert_tokens]; [done|]. destruct (strtoull t 10) as [[v r] errno].
  destruct (errno =? 0); [|done]. destruct (IH (ubi_insert_list sys (i32 v) black w)) as [H1 H2]. unfold ubi_insert_list in *.
  destruct (_ && _); [|done]. split; [done|]. intros Hw. apply H2. intros n. rewrite info_set_info. destruct (decide _); apply Hw.
Qed.

(** The list of the volumes is true when the update starts: every entry names a volume that is there, with its name, type
    and size, no volume is listed twice, and no two partitions claim one UBI device. *)
Theorem scanned_list_ok (blacklist whitelist : string) (is_volume : Z -> bool) (w : world) :
  devices_ok (uw_dev w) -> list_ok lib (scan_mtd_devices lib has_ubi sys mem false blacklist whitelist is_volume w).
Proof.
  intros Hdev. unfold scan_mtd_devices. set (w0 := mk_world (uw_dev w) ∅). set (w1 := insert_tokens _ _ true w0).
  set (w2 := insert_tokens _ _ false w1). destruct (insert_tokens_empty (strtok_all (strlcpy blacklist 100) " ") true w0) as [D1 E1].
  destruct (insert_tokens_empty (strtok_all (strlcpy whitelist 100) " ") false w1) as [D2 E2]. fold w1 in D1, E1. fold w2 in D2, E2.
  assert (forall n, ubi_partitions (ubi_info w2 n) = []) as Hempty by (apply E2, E1; done).
  assert (forall i, scanned_to i w2) as Hstart.
  { intros i. split; [|intros n Hn; by rewrite Hempty in Hn]. split; intros n.
    - rewrite Hempty. by intros v ?%not_elem_of_nil.
    - rewrite Hempty. constructor.
    - intros n' Hn. by rewrite Hempty in Hn. }
  unfold scan_for_ubi_devices. destruct (negb has_ubi); [apply (Hstart 0)|].
  destruct (ubi_get_info lib (uw_dev w2)) as [[lo hi]|]; [|apply (Hstart 0)].
  apply (scan_devices_ok (Z.to_nat (hi - lo + 1)) lo w2); [|done]. by rewrite D2, D1.
Qed.
End Scanned.

(** ** Examples *)

(** Volumes of device 0, which is on MTD 0. *)
Abbreviation toy_ubi := (gmap (Z * Z) volume).

Definition toy_mkvol (u : toy_ubi) (d : Z) (q : mkvol_request) : Z * Z * toy_ubi :=
  let i := if mk_id q =? UBI_VOL_NUM_AUTO then Z.of_nat (size u) else mk_id q in
  match u !! (d, i) with
  | Some _ => (-1, 0, u)
  | None => (0, i, <[(d, i) := mk_volume (mk_name q) (mk_type q) (mk_bytes q) []]> u)
  end.

Definition toy_ubi_lib : ubi_lib toy_ubi := {|
  ubi_get_info u := Some (0, 0);
  ubi_get_dev_info1 u i := if i =? 0 then Some (mk_ubi_dev 0 0 16 0 7) else None;
  ubi_attach u n := (inl EBUSY, u);
  mtd_num2ubi_dev u n := None;
  mtd_erase_all u n := (0, u);
  ubi_probe_node u d i := 2;
  vol_open u d i := true;
  vol_stat u k d i := true;
  ubi_update_start u d i n := (None, alter (set_data []) (d, i) u);
  vol_write u d i b := alter (set_data b) (d, i) u;
  ubi_rnvols u d ents := (0, map_imap (fun k v => Some (if k.1 =? d then renamed ents k.2 v else v)) u);
  ubi_rmvol u d i := (0, delete (d, i) u);
  ubi_mkvol := toy_mkvol;
  ubi_get_vol_info1 u d i :=
    match u !! (d, i) with
    | Some v => inr (mk_vol d i (v_name v) (v_type v) (v_size v))
    | None => inl ENOENT
    end;
|}.

Lemma lookup_alter_pair (f : volume -> volume) (u : toy_ubi) d i d' i' :
  alter f (d, i) u !! (d', i') = if (d' =? d) && (i' =? i) then f <$> u !! (d, i) else u !! (d', i').
Proof.
  destruct (Z.eqb_spec d' d) as [->|Hd]; [destruct (Z.eqb_spec i' i) as [->|Hi]|]; cbn [andb].
  - by rewrite lookup_alter_eq.
  - rewrite lookup_alter_ne by congruence. done.
  - rewrite lookup_alter_ne by congruence. done.
Qed.

#[export] Program Instance toy_ubi_spec : UbiSpec toy_ubi_lib := { vols u d i := u !! (d, i) }.
Next Obligation.
  cbn. intros u d i n r u' [= <- <-]. split; [|exists []; by rewrite lookup_alter_eq].
  intros d' i' Hn. by rewrite lookup_alter_ne by congruence.
Qed.
Next Obligation. cbn. intros. apply lookup_alter_pair. Qed.
Next Obligation.
  cbn. intros u d ents r u' [= <- <-] _ d' i'. rewrite map_lookup_imap. cbn. destruct (Z.eqb_spec d' d) as [->|]; by destruct (u !! _).
Qed.
Next Obligation.
  cbn. intros u d i r u' [= <- <-] d' i'. rewrite lookup_delete.
  destruct (Z.eqb_spec d' d) as [->|]; [destruct (Z.eqb_spec i' i) as [->|]|]; cbn [andb Z.eqb]; case_decide; congruence.
Qed.
Next Obligation.
  cbn. unfold toy_mkvol. intros u d q r i u'. set (k := if _ =? _ then _ else _). destruct (u !! (d, k)) eqn:El; intros [= <- <- <-]; [done|].
  cbn. split_and!; [done|exists (mk_bytes q); split; [lia|apply lookup_insert_eq]| |].
  - intros Hk. unfold k. by destruct (Z.eqb_spec (mk_id q) UBI_VOL_NUM_AUTO).
  - intros d' i' Hn. by rewrite lookup_insert_ne by congruence.
Qed.
Next Obligation.
  cbn. intros u d i v. destruct (u !! (d, i)) as [x|] eqn:El; [|done]. intros [= <-]. cbn. split_and!; [done|done|].
  exists (v_data x). by destruct x.
Qed.

(** MTD 1 has no UBI. *)
Definition ubi_sys : mtd_system :=
  mk_mtd_system 0 1 (fun _ => toy_mtd true) (fun n => (0 <=? n) && (n <=? 1)) (fun _ => Some 32) Some (fun _ => None) (fun _ => None)
    (fun _ => None).

#[local] Abbreviation ubi_machine := (machine unit unit (ubi_world toy_ubi)).

Definition text (s : string) : bytes := String.list_ascii_of_string s.

(** Two copies of a bootloader. *)
Definition two_volumes : toy_ubi :=
  {[ (0, 0) := mk_volume "u-boot" UBI_DYNAMIC_VOLUME 32 (text "old"); (0, 1) := mk_volume "u-boot_r" UBI_DYNAMIC_VOLUME 32 (text "older") ]}.

Definition ubi_state : ubi_machine :=
  mk_machine ∅ tt tt [] (scan_mtd_devices toy_ubi_lib true ubi_sys true false "" "" (fun _ => false) (mk_world two_volumes ∅)).

Definition ubi_image (dev vol : string) (props : dict) (part : Z) (data : bytes) : img_type :=
  mk_img (mk_sw_version "" "" false false) "ubivol" "k" vol dev "" "" "" "" "" "" "" 0 SKIP_NONE
    true COMPRESSED_FALSE false false AES_CBC "" "" false false false props part (rd_block data)
    (Z.of_nat (length data)) 0 (toy_sha data).

#[local] Abbreviation ubi_install img m :=
  (install_ubivol_image toy_ubi_lib true ubi_sys toy_hash_lib toy_stream toy_config toy_keys 40 true [] true img (mk_hdata None 0) m).
#[local] Abbreviation ubi_adjust img m := (adjust_volume toy_ubi_lib ubi_sys true img (mk_hdata None 0) m).
#[local] Abbreviation ubi_swap img m := (swap_volume toy_ubi_lib ubi_sys img (mk_hdata (Some POSTINSTALL) 0) m).

(** The result and the names and data of the volumes of device 0. *)
Definition ubi_result (r : Z * img_type * ubi_machine) : Z * list (Z * string * bytes) :=
  let '(ret, _, m) := r in
  (ret, omap (fun i => match uw_dev (m_world m) !! (0, i) with Some v => Some (i, v_name v, v_data v) | None => None end) [0; 1; 2; 3]).

Definition replacing (data : bytes) : img_type := ubi_image "" "u-boot_r" [mk_dict_entry "replaces" ["u-boot"]] 0 data.
Definition new_boot : img_type := ubi_image "" "u-boot_r" [] 0 (text "new").
Definition swap_script : img_type := ubi_image "" "" [mk_dict_entry "swap-0" ["u-boot"; "u-boot_r"]] 0 [].

Example ubi_runs :
  ubi_result (ubi_install new_boot ubi_state) = (0, [(0, "u-boot", text "old"); (1, "u-boot_r", text "new")]) /\
  ubi_result (ubi_install (replacing (text "new")) ubi_state) = (0, [(0, "u-boot_r", text "old"); (1, "u-boot", text "new")]) /\
  ubi_result (ubi_swap swap_script ubi_state) = (0, [(0, "u-boot_r", text "old"); (1, "u-boot", text "older")]) /\
  ubi_result (ubi_adjust (ubi_image "mtd0" "data" [] 40 []) ubi_state) =
    (0, [(0, "u-boot", text "old"); (1, "u-boot_r", text "older"); (2, "data", [])]) /\
  ubi_result (ubi_adjust (ubi_image "mtd0" "u-boot_r" [] 0 []) ubi_state) = (0, [(0, "u-boot", text "old")]).
Proof. split_and!; vm_compute; reflexivity. Qed.

(** An image whose hash is wrong is refused, but not if it replaces a volume: it gets the name, and the handler succeeds. *)
Theorem corrupt_image_activated :
  (ubi_result (ubi_install (set_fdin (rd_block (text "bad")) new_boot) ubi_state)).1 < 0 /\
  ubi_result (ubi_install (set_fdin (rd_block (text "bad")) (replacing (text "new"))) ubi_state) =
    (0, [(0, "u-boot_r", text "old"); (1, "u-boot", text "bad")]).
Proof. split; [vm_compute; done|vm_compute; reflexivity]. Qed.

(** The list keeps the old names: after a replacement, "ubiswap" gives the volumes the names that they already have. *)
Theorem replaced_not_swapped_back :
  let '(_, _, m) := ubi_install (replacing (text "new")) ubi_state in
  ubi_result (ubi_swap swap_script m) = (0, [(0, "u-boot_r", text "old"); (1, "u-boot", text "new")]).
Proof. vm_compute. reflexivity. Qed.

(** A volume for a partition without UBI is created on the device with the number 0. *)
Theorem unattached_uses_ubi0 :
  ubi_result (ubi_adjust (ubi_image "mtd1" "data" [] 40 []) ubi_state) =
    (0, [(0, "u-boot", text "old"); (1, "u-boot_r", text "older"); (2, "data", [])]).
Proof. vm_compute. reflexivity. Qed.

(** *** Witnesses *)

Lemma toy_devices_ok : devices_ok toy_ubi_lib two_volumes.
Proof.
  split.
  - intros i d. cbn. destruct (Z.eqb_spec i 0) as [->|]; [|done]. by intros [= <-].
  - intros i j d e. cbn. destruct (Z.eqb_spec i 0) as [->|]; [|done]. by destruct (Z.eqb_spec j 0) as [->|].
Qed.

Lemma scanned_list_ok_witness : list_ok toy_ubi_lib (m_world ubi_state).
Proof. apply (scanned_list_ok toy_ubi_lib true ubi_sys true "" "" (fun _ => false) (mk_world two_volumes ∅)). exact toy_devices_ok. Defined.

(** The list of the example. *)
Definition boot_vol : ubi_vol_info := mk_vol 0 0 "u-boot" UBI_DYNAMIC_VOLUME 32.
Definition boot_r_vol : ubi_vol_info := mk_vol 0 1 "u-boot_r" UBI_DYNAMIC_VOLUME 32.

Lemma sample_info n : ubi_partitions (ubi_info (m_world ubi_state) n) = if n =? 0 then [boot_r_vol; boot_vol] else [].
Proof.
  assert (uw_mtd (m_world ubi_state) = {[ 0 := mk_ubi 0 16 [boot_r_vol; boot_vol] false false true ]}) as Hm by (vm_compute; reflexivity).
  unfold ubi_info. rewrite Hm. destruct (Z.eqb_spec n 0) as [->|Hn]; [by rewrite lookup_singleton_eq|by rewrite lookup_singleton_ne].
Qed.

Lemma sample_list_ok : list_ok toy_ubi_lib (m_world ubi_state).
Proof.
  split.
  - intros n v. rewrite sample_info. destruct (Z.eqb_spec n 0) as [->|]; [|by intros ?%not_elem_of_nil].
    rewrite !elem_of_cons. intros [->|[->|?%not_elem_of_nil]]; [| |done].
    + split; [vm_compute; reflexivity|]. exists (text "older"). vm_compute. reflexivity.
    + split; [vm_compute; reflexivity|]. exists (text "old"). vm_compute. reflexivity.
  - intros n. rewrite sample_info. destruct (n =? 0); [|constructor]. by apply (bool_decide_unpack (NoDup [1; 0])).
  - intros n n'. rewrite !sample_info. by destruct (Z.eqb_spec n 0) as [->|], (Z.eqb_spec n' 0) as [->|].
Qed.

Lemma sample_own : own_device (m_world ubi_state) 0.
Proof. intros n. rewrite sample_info. by destruct (Z.eqb_spec n 0). Qed.

Lemma sample_unique dev : names_unique toy_ubi_lib two_volumes dev.
Proof.
  intros i j v v'. cbn. unfold two_volumes. rewrite !lookup_insert_Some, !lookup_singleton_Some.
  intros H1 H2 Hn. destruct H1 as [[H1 ?]|[_ [H1 ?]]], H2 as [[H2 ?]|[_ [H2 ?]]]; by simplify_eq/=.
Qed.

Lemma ubi_partition_provided_witness :
  exists v, provided_volume toy_ubi_lib (ubi_image "mtd0" "data" [] 40 []) 40 0
    (m_world (ubi_adjust (ubi_image "mtd0" "data" [] 40 []) ubi_state).2) v.
Proof.
  destruct (ubi_adjust (ubi_image "mtd0" "data" [] 40 []) ubi_state) as [[ret cfg'] m'] eqn:Er.
  assert (ret = 0) as -> by (change ret with (ret, cfg', m').1.1; rewrite <- Er; vm_compute; reflexivity).
  destruct (ubi_partition_provided toy_ubi_lib ubi_sys true (ubi_image "mtd0" "data" [] 40 []) (mk_hdata None 0) ubi_state m' cfg' 0) as [H _].
  - exact sample_list_ok.
  - exact sample_own.
  - vm_compute. reflexivity.
  - unfold lebs_fit. rewrite sample_info. split; [vm_compute; discriminate|]. split; [vm_compute; reflexivity|].
    cbn [Z.eqb]. intros v. rewrite !elem_of_cons. intros [->|[->|?%not_elem_of_nil]]; [| |done]; vm_compute; split; (done || discriminate).
  - vm_compute. reflexivity.
  - exact Er.
  - exact H.
Defined.

Lemma ubi_image_written_witness :
  exists v, find_volume ubi_sys "" "u-boot_r" (m_world (ubi_install new_boot ubi_state).2) = Some v /\
    vols (lib := toy_ubi_lib) (uw_dev (m_world (ubi_install new_boot ubi_state).2)) (dev_num v) (vol_id v) =
      Some (mk_volume "u-boot_r" (vol_type v) (rsvd_bytes v) (img_data new_boot)).
Proof.
  destruct (ubi_install new_boot ubi_state) as [[ret img'] m'] eqn:Er.
  assert (ret = 0) as -> by (change ret with (ret, img', m').1.1; rewrite <- Er; vm_compute; reflexivity).
  destruct (ubi_image_written toy_ubi_lib true ubi_sys toy_hash_lib toy_stream toy_config toy_keys 40 true [] true new_boot img'
    (mk_hdata None 0) ubi_state m') as [(v & H1 & _ & H2) _].
  - exact sample_list_ok.
  - intros n Hn. vm_compute in Hn. discriminate.
  - by split.
  - reflexivity.
  - exact Er.
  - exists v. split; [exact H1|exact H2].
Defined.

Lemma ubi_swap_exchanges_witness :
  exists dev ps, ps <> [] /\ (NoDup (pairs_ids ps) ->
    exchanged toy_ubi_lib ps dev two_volumes (uw_dev (m_world (ubi_swap swap_script ubi_state).2))).
Proof.
  destruct (ubi_swap swap_script ubi_state) as [[ret img'] m'] eqn:Er.
  assert (ret = 0) as -> by (change ret with (ret, img', m').1.1; rewrite <- Er; vm_compute; reflexivity).
  destruct (ubi_swap_exchanges toy_ubi_lib ubi_sys swap_script img' (mk_hdata (Some POSTINSTALL) 0) ubi_state m') as (dev & ps & H1 & _ & _ & H2).
  - exact sample_list_ok.
  - intros d. exact (sample_unique d).
  - intros k v. rewrite sample_info. destruct (k =? 0); [|by intros ?%not_elem_of_nil].
    rewrite !elem_of_cons. intros [->|[->|?%not_elem_of_nil]]; [| |done]; vm_compute; split; (done || discriminate).
  - reflexivity.
  - exact Er.
  - exists dev, ps. split; [exact H1|exact H2].
Defined.
