(* ===== verification/Hamming.v ===== *)
(** * NAND images with a Hamming code: [handlers/flash_hamming1_handler.c]

    The boot ROM of some processors reads the flash with an error-correcting code of its own: one bit per
    sector can be corrected. The handler computes the code of every sector and writes it, with
    the page, into the spare area of the flash. *)
From stdpp Require Import list.
From S2P Require Import Prelude CString Util Crypto Cpio.

(** ** The code of a sector *)

Definition EVEN_WHOLE : Z := 255.
Definition EVEN_HALF : Z := 15.
Definition ODD_HALF : Z := 240.
Definition EVEN_FOURTH : Z := 51.
Definition ODD_FOURTH : Z := 204.
Definition EVEN_EIGHTH : Z := 85.
Definition ODD_EIGHTH : Z := 170.

Fixpoint parity_loop (n : nat) (val byte_mask result : Z) : Z :=
  match n with
  | O => result
  | S n => parity_loop n (Z.shiftr val 1) (Z.shiftr byte_mask 1)
             (if Z.land byte_mask 1 =? 0 then result else Z.lxor result (Z.land val 1))
  end.

Definition calc_bitwise_parity (val mask : Z) : Z := Z.land (parity_loop 8 val mask 0) 1.

(** [for (i = ...; i < sector_size; i += 2 * chunk_size)], with fuel for the turns. *)
Fixpoint row_loop (fuel : nat) (byte_parities : list Z) (chunk_size sector_size i : nat) (result : Z) : Z :=
  match fuel with
  | O => result
  | S fuel =>
      if (i <? sector_size)%nat then
        row_loop fuel byte_parities chunk_size sector_size (i + 2 * chunk_size)
          (foldl (fun r j => Z.lxor r (nth (i + j) byte_parities 0)) result (seq 0 chunk_size))
      else result
  end.

(** The chunk is not empty, so that there are at most [sector_size] turns. *)
Definition calc_row_parity_bits (byte_parities : list Z) (even : bool) (chunk_size sector_size : nat) : Z :=
  Z.land (row_loop sector_size byte_parities chunk_size sector_size (if even then 0 else chunk_size) 0) 1.

(** [LOG2]. *)
Definition LOG2 (n : nat) : nat := Nat.log2 n.

(** One turn of the loop over the rows, on [even_result] and [odd_result]. *)
Definition ecc_row (byte_parities : list Z) (sector_size : nat) (r : Z * Z) (i : nat) : Z * Z :=
  let bit even := calc_row_parity_bits byte_parities even (2 ^ i) sector_size in
  (u16 (Z.lor r.1 (Z.shiftl (bit true) (3 + Z.of_nat i))),
   u16 (Z.lor r.2 (Z.shiftl (bit false) (3 + Z.of_nat i)))).

(** The three parities of the columns. *)
Definition ecc_columns (bit_parities half fourth eighth : Z) : Z :=
  Z.lor (Z.lor (Z.shiftl (calc_bitwise_parity bit_parities half) 2)
               (Z.shiftl (calc_bitwise_parity bit_parities fourth) 1))
        (Z.shiftl (calc_bitwise_parity bit_parities eighth) 0).

(** [mem]: the parities can be allocated; the error is returned as the code. *)
Definition nand_calculate_ecc (mem : bool) (buf : list Z) : Z :=
  if negb mem then u32 (- ENOMEM)
  else
    let sector_size := length buf in
    let bit_parities := foldl Z.lxor 0 buf in
    let even := ecc_columns bit_parities EVEN_HALF EVEN_FOURTH EVEN_EIGHTH in
    let odd := ecc_columns bit_parities ODD_HALF ODD_FOURTH ODD_EIGHTH in
    let byte_parities := (fun b => calc_bitwise_parity b EVEN_WHOLE) <$> buf in
    let '(even, odd) := foldl (ecc_row byte_parities sector_size) (even, odd) (seq 0 (LOG2 sector_size)) in
    u32 (Z.lor (Z.shiftl odd 16) even).

(** The bytes of the code, the low one first. *)
Definition byte_at (ecc : Z) (n : Z) : Z := u8 (Z.shiftr ecc (8 * n)).

Definition ecc_sector (mem : bool) (sector : list Z) : list Z :=
  let ecc := nand_calculate_ecc mem sector in
  [byte_at ecc 0; byte_at ecc 2; u8 (Z.lor (byte_at ecc 1) (Z.shiftl (byte_at ecc 3) 4))].

(** ** Writing the pages *)

Definition EXIT_SUCCESS : Z := 0.
Definition EXIT_FAILURE : Z := 1.

Record mtd_dev_info := mk_mtd { min_io_size : nat; subpage_size : nat }.

(** What reaches the flash: a page, or the spare area of the page at [start]. *)
Inductive mtd_op :=
  | MtdWrite (page : list Z)
  | MtdOob (start : Z) (oobbuf : list Z).

(** The array [ecc\[12\]] of the stack; an index outside of it is undefined behaviour ([None]). *)
Definition ecc_set (ecc : option (list Z)) (idx : nat) (v : Z) : option (list Z) :=
  ecc ← ecc; if (idx <? 12)%nat then Some (<[idx := v]> ecc) else None.

Definition sector (mtd : mtd_dev_info) (page : list Z) (i : nat) : list Z :=
  take (subpage_size mtd) (drop (i * subpage_size mtd) page).

(** The loop over the sectors of a page; [code] is [ecc_sector]. *)
Definition store_codes (n : nat) (code : nat -> list Z) (ecc : list Z) : option (list Z) :=
  foldl (fun ecc i => foldl (fun ecc j => ecc_set ecc (i * 3 + j) (nth j (code i) 0)) ecc (seq 0 3))
    (Some ecc) (seq 0 n).

(** Dividing by zero is undefined as well. *)
Definition page_ecc (mem : bool) (mtd : mtd_dev_info) (page ecc : list Z) : option (list Z) :=
  if (subpage_size mtd =? 0)%nat then None
  else store_codes (min_io_size mtd / subpage_size mtd) (fun i => ecc_sector mem (sector mtd page i)) ecc.

(** [oobbuf] of [write_ecc]. *)
Definition oob_of (ecc : list Z) : list Z := replicate 2 255 ++ ecc ++ replicate 50 255.

(** One [read]; [None] is a negative result. *)
Definition page_read (f : fd) (n : nat) : option bytes * fd :=
  match f with
  | [] => (Some [], [])
  | RdData b bs :: f => (Some (take n (b :: bs)), rd_block (drop n (b :: bs)) ++ f)
  | RdIntr :: f | RdErr :: f => (None, f)
  end.

(** [NandUndefined]: a write outside of an array. *)
Inductive nand_result :=
  | NandDone (ret : Z) (ops : list mtd_op) (f : fd) (progress : list Z)
  | NandUndefined.

Section Write.
Context (mem : bool) (mtd : mtd_dev_info) (rawNand : bool) (size : Z).

(** The [while (imglen > 0)]; [plan] says which writes to the device succeed (those the
    list does not name do); [None]: the fuel is spent. *)
Fixpoint nand_loop (fuel : nat) (plan : list bool) (f : fd) (imglen page_idx : Z) (ecc : list Z)
    (ops : list mtd_op) (progress : list Z) : option nand_result :=
  match fuel with
  | O => None
  | S fuel =>
      if imglen <=? 0 then Some (NandDone EXIT_SUCCESS ops f progress)
      else
        match page_read f (Z.to_nat (Z.min (Z.of_nat (min_io_size mtd)) imglen)) with
        | (None, f) => Some (NandDone EXIT_FAILURE ops f progress)
        | (Some bs, f) =>
            let cnt := length bs in
            let page := (byte_of <$> bs) ++ replicate (min_io_size mtd - cnt) 255 in
            match (if rawNand then page_ecc mem mtd page ecc else Some ecc) with
            | None => Some NandUndefined
            | Some ecc =>
                let out := if rawNand then page else page ++ page in
                if negb (hd true plan) then Some (NandDone EXIT_FAILURE ops f progress)
                else
                  let ops := ops ++ [MtdWrite out] in
                  let plan := tail plan in
                  if rawNand && negb (hd true plan) then Some (NandDone EXIT_FAILURE ops f progress)
                  else
                    let ops := if rawNand
                               then ops ++ [MtdOob (page_idx * Z.of_nat (min_io_size mtd)) (oob_of ecc)] else ops in
                    let plan := if rawNand then tail plan else plan in
                    let imglen := imglen - Z.of_nat cnt in
                    nand_loop fuel plan f imglen (page_idx + 1) ecc ops
                      (progress ++ [u32 (Z.quot ((size - imglen) * 100) size)])
            end
        end
  end.

(** [page_mem], [opened] and [raw_mode]: the page can be allocated, the device opened and set to RAW mode;
    [ecc0] is what the array held. *)
Definition flash_write_nand_hamming1 (fuel : nat) (page_mem opened raw_mode : bool) (ecc0 : list Z)
    (plan : list bool) (f : fd) : option nand_result :=
  if size =? 0 then Some (NandDone 0 [] f [])
  else if negb page_mem || negb opened || (rawNand && negb raw_mode) then Some (NandDone EXIT_FAILURE [] f [])
  else if size <? 0 then Some (NandDone EXIT_FAILURE [] f [])
  else nand_loop fuel plan f size 0 ecc0 [] [].
End Write.

(** * Properties *)

(** ** One wrong bit *)

Definition flip (buf : list Z) (i : nat) (b : Z) : list Z := <[i := Z.lxor (nth i buf 0) (2 ^ b)]> buf.

Definition is_byte (z : Z) : Prop := 0 <= z < 256.

(** The indices that [row_loop] visits. *)
Fixpoint row_indices (fuel chunk_size sector_size i : nat) : list nat :=
  match fuel with
  | O => []
  | S fuel => if (i <? sector_size)%nat
              then seq i chunk_size ++ row_indices fuel chunk_size sector_size (i + 2 * chunk_size) else []
  end.

Definition xor_at (l : list Z) (idx : list nat) (r : Z) : Z := foldl (fun r j => Z.lxor r (nth j l 0)) r idx.

Lemma row_loop_indices fuel bp c n i r : row_loop fuel bp c n i r = xor_at bp (row_indices fuel c n i) r.
Proof.
  revert i r. induction fuel as [|fuel IH]; intros i r; [done|]. cbn [row_loop row_indices].
  case_if; [|done]. rewrite IH. unfold xor_at. rewrite foldl_app. f_equal.
  replace (seq i c) with (Nat.add i <$> seq 0 c) by (by rewrite fmap_add_seq, Nat.add_0_r).
  generalize (seq 0 c) as l. intros l. revert r. induction l as [|j l IHl]; intros r; [done|]. cbn. apply IHl.
Qed.

(** How often an index is visited. *)
Fixpoint count (x : nat) (l : list nat) : nat :=
  match l with [] => 0 | y :: l => (if (x =? y)%nat then 1 else 0) + count x l end%nat.

Lemma count_app x l1 l2 : count x (l1 ++ l2) = (count x l1 + count x l2)%nat.
Proof. induction l1 as [|y l1 IH]; [done|]. cbn. rewrite IH. lia. Qed.

Lemma count_seq x i n : count x (seq i n) = if ((i <=? x) && (x <? i + n))%nat then 1%nat else 0%nat.
Proof.
  revert i. induction n as [|n IH]; intros i; cbn [seq count].
  - destruct (Nat.leb_spec i x), (Nat.ltb_spec x (i + 0)); cbn; done || lia.
  - rewrite IH. destruct (Nat.eqb_spec x i), (Nat.leb_spec i x), (Nat.leb_spec (S i) x),
      (Nat.ltb_spec x (S i + n)), (Nat.ltb_spec x (i + S n)); cbn; lia.
Qed.

Lemma count_row fuel c n i x :
  (0 < c)%nat -> (n <= i + fuel)%nat -> (x < n)%nat ->
  count x (row_indices fuel c n i) = if ((i <=? x) && ((x - i) mod (2 * c) <? c))%nat then 1%nat else 0%nat.
Proof.
  intros Hc. revert i. induction fuel as [|fuel IH]; intros i Hf Hx; cbn [row_indices].
  - destruct (Nat.leb_spec i x); [lia|done].
  - destruct (Nat.ltb_spec i n) as [Hi|Hi].
    2:{ destruct (Nat.leb_spec i x); [lia|done]. }
    rewrite count_app, count_seq, IH by lia.
    destruct (Nat.leb_spec i x) as [Hix|Hix].
    2:{ destruct (Nat.leb_spec (i + 2 * c) x); [lia|done]. }
    destruct (Nat.leb_spec (i + 2 * c) x) as [H2|H2]; cbn [andb].
    + replace (x - i)%nat with (x - (i + 2 * c) + 1 * (2 * c))%nat by lia. rewrite Nat.Div0.mod_add.
      destruct (Nat.ltb_spec x (i + c)); [lia|done].
    + rewrite (Nat.mod_small (x - i)) by lia.
      destruct (Nat.ltb_spec x (i + c)), (Nat.ltb_spec (x - i) c); cbn; lia.
Qed.

(** Changing one entry changes the sum as often as the entry is visited. *)
Lemma xor_at_acc l idx r : xor_at l idx r = Z.lxor r (xor_at l idx 0).
Proof.
  unfold xor_at. revert r. induction idx as [|j idx IH]; intros r; cbn [foldl]; [by rewrite Z.lxor_0_r|].
  rewrite IH, (IH (Z.lxor 0 _)). by rewrite Z.lxor_0_l, Z.lxor_assoc.
Qed.

Lemma xor_at_cons l j idx : xor_at l (j :: idx) 0 = Z.lxor (nth j l 0) (xor_at l idx 0).
Proof. unfold xor_at at 1. cbn [foldl]. fold (xor_at l idx (Z.lxor 0 (nth j l 0))). by rewrite xor_at_acc, Z.lxor_0_l. Qed.

Lemma nth_insert (l : list Z) i j x :
  (i < length l)%nat -> nth j (<[i := x]> l) 0 = if (i =? j)%nat then x else nth j l 0.
Proof.
  intros Hi. destruct (Nat.eqb_spec i j) as [<-|Hj].
  - apply nth_lookup_Some. by rewrite list_lookup_insert_eq.
  - rewrite !nth_lookup. by rewrite list_lookup_insert_ne.
Qed.

Lemma xor_at_update l i d idx :
  (i < length l)%nat ->
  xor_at (<[i := Z.lxor (nth i l 0) d]> l) idx 0 = Z.lxor (xor_at l idx 0) (if Nat.odd (count i idx) then d else 0).
Proof.
  intros Hi. induction idx as [|j idx IH]; [by rewrite Z.lxor_0_r|].
  rewrite !xor_at_cons, IH, nth_insert by done. cbn [count].
  destruct (Nat.eqb_spec i j) as [<-|Hj]; cbn [Nat.add].
  - rewrite Nat.odd_succ, <- Nat.negb_odd. destruct (Nat.odd (count i idx)); cbn [negb].
    + rewrite Z.lxor_0_r, (Z.lxor_comm (xor_at l idx 0) d), Z.lxor_assoc, <- (Z.lxor_assoc d d), Z.lxor_nilpotent.
      by rewrite Z.lxor_0_l.
    + rewrite Z.lxor_0_r, !Z.lxor_assoc. f_equal. apply Z.lxor_comm.
  - by rewrite Z.lxor_assoc.
Qed.

Lemma foldl_xor_acc l r : foldl Z.lxor r l = Z.lxor r (foldl Z.lxor 0 l).
Proof.
  revert r. induction l as [|x l IH]; intros r; cbn [foldl]; [by rewrite Z.lxor_0_r|].
  by rewrite IH, (IH (Z.lxor 0 x)), Z.lxor_0_l, Z.lxor_assoc.
Qed.

Lemma foldl_xor_update l i d :
  (i < length l)%nat -> foldl Z.lxor 0 (<[i := Z.lxor (nth i l 0) d]> l) = Z.lxor (foldl Z.lxor 0 l) d.
Proof.
  revert i. induction l as [|x l IH]; intros i Hi; cbn [length] in Hi; [lia|].
  destruct i as [|i]; cbn [foldl insert list_insert nth]; rewrite !Z.lxor_0_l.
  - rewrite (foldl_xor_acc l (Z.lxor x d)), (foldl_xor_acc l x), !Z.lxor_assoc. f_equal. apply Z.lxor_comm.
  - etransitivity; [apply foldl_xor_acc|]. rewrite (foldl_xor_acc l x), Z.lxor_assoc. f_equal. apply IH. lia.
Qed.

(** ** The parities of a byte *)

Definition ecc_masks : list Z :=
  [EVEN_WHOLE; EVEN_HALF; ODD_HALF; EVEN_FOURTH; ODD_FOURTH; EVEN_EIGHTH; ODD_EIGHTH].

Definition b2z (b : bool) : Z := if b then 1 else 0.

Definition flips (mask v b : Z) : bool :=
  calc_bitwise_parity (Z.lxor v (2 ^ b)) mask =? Z.lxor (calc_bitwise_parity v mask) (b2z (Z.testbit mask b)).

Lemma flips_table :
  forallb (fun m => forallb (fun v => forallb (flips m v) (seqZ 0 8)) (seqZ 0 256)) ecc_masks = true.
Proof. vm_compute. reflexivity. Qed.

Lemma forallb_seqZ f n m x : forallb f (seqZ n m) = true -> n <= x < n + m -> f x = true.
Proof. intros H Hx. apply (proj1 (forallb_forall _ _) H), list_elem_of_In, elem_of_seqZ. lia. Qed.

Lemma parity_flip v b mask :
  is_byte v -> 0 <= b < 8 -> mask ∈ ecc_masks ->
  calc_bitwise_parity (Z.lxor v (2 ^ b)) mask = Z.lxor (calc_bitwise_parity v mask) (b2z (Z.testbit mask b)).
Proof.
  intros Hv Hb Hm. apply Z.eqb_eq. change (flips mask v b = true).
  pose proof (proj1 (forallb_forall _ _) flips_table mask (proj1 (list_elem_of_In _ _) Hm)) as H. cbv beta in H.
  apply (forallb_seqZ _ _ _ v) in H; [|exact Hv]. by apply (forallb_seqZ _ _ _ b) in H.
Qed.

Lemma parity_bit v mask : calc_bitwise_parity v mask = b2z (Z.testbit (parity_loop 8 v mask 0) 0).
Proof.
  unfold calc_bitwise_parity. rewrite (Z.land_ones _ 1) by lia. rewrite <- Z.bit0_mod.
  by destruct (Z.testbit _ 0).
Qed.

Lemma lxor_byte x y : is_byte x -> is_byte y -> is_byte (Z.lxor x y).
Proof.
  unfold is_byte. intros [? ?] [? ?]. split; [apply Z.lxor_nonneg; tauto|].
  destruct (Z.eq_dec (Z.lxor x y) 0) as [->|Hn]; [lia|].
  assert (0 < Z.lxor x y) as Hp by (pose proof (proj2 (Z.lxor_nonneg x y)); lia).
  apply (Z.log2_lt_pow2 _ 8); [done|]. eapply Z.le_lt_trans; [by apply Z.log2_lxor|].
  assert (forall z, 0 <= z < 256 -> Z.log2 z < 8) as Hl.
  { intros z Hz. destruct (Z.eq_dec z 0) as [->|]; [done|]. apply Z.log2_lt_pow2; lia. }
  apply Z.max_lub_lt; apply Hl; lia.
Qed.

Lemma foldl_xor_byte l : Forall is_byte l -> is_byte (foldl Z.lxor 0 l).
Proof.
  assert (forall r, is_byte r -> Forall is_byte l -> is_byte (foldl Z.lxor r l)) as H; [|by apply H].
  induction l as [|x l IH]; intros r Hr; [done|]. intros [Hx Hl]%Forall_cons. apply IH; [by apply lxor_byte|done].
Qed.

(** ** The parities of the rows *)

Lemma testbit_mod x m : Nat.testbit x m = (2 ^ m <=? x mod (2 * 2 ^ m))%nat.
Proof.
  rewrite Nat.testbit_eqb. assert (2 ^ m <> 0)%nat as Hc by (apply Nat.pow_nonzero; lia).
  set (c := (2 ^ m)%nat) in *. rewrite (Nat.mul_comm 2 c), Nat.Div0.mod_mul_r.
  pose proof (Nat.mod_upper_bound x c Hc). pose proof (Nat.mod_upper_bound (x / c) 2 ltac:(lia)).
  destruct (Nat.eqb_spec ((x / c) mod 2) 1), (Nat.leb_spec c (x mod c + c * ((x / c) mod 2))); try done; nia.
Qed.

Lemma row_bit bp even c n :
  calc_row_parity_bits bp even c n =
  b2z (Z.testbit (xor_at bp (row_indices n c n (if even then 0 else c)%nat) 0) 0).
Proof.
  unfold calc_row_parity_bits. rewrite row_loop_indices, (Z.land_ones _ 1), <- Z.bit0_mod by lia.
  by destruct (Z.testbit _ 0).
Qed.

(** A wrong bit in byte [i] changes the parity of the even rows of level [m] if bit [m] of [i] is clear, and
    that of the odd rows if it is set. *)
Lemma row_flip bp i m even :
  (i < length bp)%nat ->
  let bp' := <[i := Z.lxor (nth i bp 0) 1]> bp in
  calc_row_parity_bits bp' even (2 ^ m) (length bp) =
  Z.lxor (calc_row_parity_bits bp even (2 ^ m) (length bp)) (b2z (xorb even (Nat.testbit i m))).
Proof.
  intros Hi bp'. assert (0 < 2 ^ m)%nat as Hc by (apply Nat.neq_0_lt_0, Nat.pow_nonzero; lia).
  rewrite !row_bit. unfold bp'. rewrite xor_at_update, Z.lxor_spec, count_row by (done || lia).
  set (x := Z.testbit _ 0).
  assert (Nat.odd (if ((if even then 0 else 2 ^ m) <=? i) && ((i - (if even then 0 else 2 ^ m)) mod (2 * 2 ^ m) <? 2 ^ m)
    then 1 else 0)%nat = xorb even (Nat.testbit i m)) as ->.
  { destruct even.
    - rewrite Nat.sub_0_r, testbit_mod. cbn [Nat.leb andb]. rewrite Nat.ltb_antisym.
      by destruct (2 ^ m <=? i mod (2 * 2 ^ m))%nat.
    - rewrite xorb_false_l, testbit_mod. set (c := (2 ^ m)%nat) in *.
      pose proof (Nat.div_mod_eq i (2 * c)) as E. pose proof (Nat.mod_upper_bound i (2 * c) ltac:(lia)) as U.
      set (q := (i / (2 * c))%nat) in *. set (r := (i mod (2 * c))%nat) in *.
      destruct (Nat.leb_spec c i) as [H|H]; cbn [andb].
      + destruct (Nat.leb_spec c r) as [H1|H1].
        * replace (i - c)%nat with (r - c + q * (2 * c))%nat by nia. rewrite Nat.Div0.mod_add, Nat.mod_small by lia.
          by rewrite (proj2 (Nat.ltb_lt _ _)) by lia.
        * assert (1 <= q)%nat by nia. replace (i - c)%nat with (r + c + (q - 1) * (2 * c))%nat by nia.
          rewrite Nat.Div0.mod_add, Nat.mod_small by lia. by rewrite (proj2 (Nat.ltb_ge _ _)) by lia.
      + rewrite (proj2 (Nat.leb_gt c r)); [done|]. destruct (Nat.eq_dec q 0) as [Hq|Hq]; [rewrite Hq in E; lia|nia]. }
  by destruct x, (xorb even (Nat.testbit i m)).
Qed.

(** ** The code *)

Lemma bits_above r p j : 0 <= r < 2 ^ p -> p <= j -> Z.testbit r j = false.
Proof.
  intros Hr Hj. destruct (Z_lt_le_dec p 0); [by rewrite Z.pow_neg_r in Hr by lia; lia|].
  rewrite <- (Z.mod_small r (2 ^ p)) by lia. by apply Z.mod_pow2_bits_high.
Qed.

Lemma lor_shift r v p : 0 <= p -> 0 <= r < 2 ^ p -> Z.lor r (Z.shiftl v p) = r + v * 2 ^ p.
Proof.
  intros Hp Hr. assert (Z.land r (Z.shiftl v p) = 0) as H.
  { apply Z.bits_inj'. intros j Hj. rewrite Z.land_spec, Z.bits_0, Z.shiftl_spec by done.
    destruct (Z_lt_le_dec j p); [by rewrite (Z.testbit_neg_r v), andb_false_r by lia|by rewrite (bits_above r p)]. }
  rewrite <- Z.lxor_lor, <- Z.add_nocarry_lxor, Z.shiftl_mul_pow2 by done. done.
Qed.

Lemma xor_split r d v w p :
  0 <= p -> 0 <= r < 2 ^ p -> 0 <= d < 2 ^ p ->
  Z.lxor r d + Z.lxor v w * 2 ^ p = Z.lxor (r + v * 2 ^ p) (d + w * 2 ^ p) /\ 0 <= Z.lxor r d < 2 ^ p.
Proof.
  intros Hp Hr Hd.
  assert (Z.lxor r d = Z.lxor r d mod 2 ^ p) as Hm.
  { apply Z.bits_inj'. intros j Hj. destruct (Z_lt_le_dec j p).
    - by rewrite Z.mod_pow2_bits_low by lia.
    - rewrite Z.mod_pow2_bits_high by lia. rewrite Z.lxor_spec, !(bits_above _ p) by done. done. }
  pose proof (Z.mod_pos_bound (Z.lxor r d) (2 ^ p) ltac:(lia)) as Hb. rewrite <- Hm in Hb. split; [|done].
  rewrite <- !lor_shift by done. apply Z.bits_inj'. intros j Hj.
  rewrite !Z.lxor_spec, !Z.lor_spec, Z.lxor_spec, !Z.shiftl_spec, Z.lxor_spec by done.
  destruct (Z_lt_le_dec j p).
  - rewrite !(Z.testbit_neg_r _ (j - p)) by lia. by rewrite !orb_false_r.
  - by rewrite !(bits_above _ p) by done.
Qed.

(** The address of a bit in the sector, seen by the first [k] levels of rows. *)
Definition address (k i : nat) (b : Z) : Z := b + 8 * (Z.of_nat i mod 2 ^ Z.of_nat k).

Lemma address_range k i b : 0 <= b < 8 -> 0 <= address k i b < 2 ^ (3 + Z.of_nat k).
Proof.
  intros Hb. unfold address. pose proof (Z.mod_pos_bound (Z.of_nat i) (2 ^ Z.of_nat k) ltac:(lia)).
  rewrite Z.pow_add_r by lia. change (2 ^ 3) with 8. lia.
Qed.

Lemma address_succ k i b :
  address (S k) i b = address k i b + b2z (Nat.testbit i k) * 2 ^ (3 + Z.of_nat k).
Proof.
  unfold address. assert (b2z (Nat.testbit i k) = (Z.of_nat i / 2 ^ Z.of_nat k) mod 2) as ->.
  { pose proof (Nat.testbit_spec' i k) as H. apply (f_equal Z.of_nat) in H.
    rewrite Nat2Z.inj_mod, Nat2Z.inj_div, Nat2Z.inj_pow in H. change (Z.of_nat 2) with 2 in H. rewrite <- H. by destruct (Nat.testbit i k). }
  rewrite Nat2Z.inj_succ, Z.pow_succ_r, Z.pow_add_r by lia. rewrite (Z.mul_comm 2), Z.rem_mul_r by lia. lia.
Qed.

Lemma row_step r d v w p :
  0 <= p < 16 -> 0 <= r < 2 ^ p -> 0 <= d < 2 ^ p ->
  u16 (Z.lor (Z.lxor r d) (Z.shiftl (Z.lxor (b2z v) (b2z w)) p)) =
    Z.lxor (u16 (Z.lor r (Z.shiftl (b2z v) p))) (d + b2z w * 2 ^ p) /\
  0 <= u16 (Z.lor r (Z.shiftl (b2z v) p)) < 2 ^ (p + 1).
Proof.
  intros Hp Hr Hd. destruct (xor_split r d (b2z v) (b2z w) p ltac:(lia) Hr Hd) as [Hx Hrange].
  assert (2 ^ p * 2 <= 2 ^ 16) as Hw by (rewrite Z.mul_comm, <- Z.pow_succ_r by lia; apply Z.pow_le_mono_r; lia).
  assert (0 <= b2z v <= 1 /\ 0 <= Z.lxor (b2z v) (b2z w) <= 1) as [? ?] by (by destruct v, w).
  rewrite !lor_shift by lia. rewrite Z.pow_add_r by lia. change (2 ^ 1) with 2.
  rewrite !wrap_small by nia. split; [by rewrite <- Hx|nia].
Qed.

(** Both halves of the code after the columns and [k] levels of rows; a wrong bit adds its address to the
    odd half and the complement to the even one. *)
Lemma rows_flip bp i b k e o :
  (i < length bp)%nat -> 0 <= b < 8 -> 0 <= e < 8 -> 0 <= o < 8 -> (k <= 13)%nat ->
  let bp' := <[i := Z.lxor (nth i bp 0) 1]> bp in
  let r := foldl (ecc_row bp (length bp)) (e, o) (seq 0 k) in
  let r' := foldl (ecc_row bp' (length bp)) (Z.lxor e (7 - b), Z.lxor o b) (seq 0 k) in
  r'.1 = Z.lxor r.1 (2 ^ (3 + Z.of_nat k) - 1 - address k i b) /\ r'.2 = Z.lxor r.2 (address k i b) /\
  0 <= r.1 < 2 ^ (3 + Z.of_nat k) /\ 0 <= r.2 < 2 ^ (3 + Z.of_nat k).
Proof.
  intros Hi Hb He Ho. induction k as [|k IH]; intros Hk; cbn zeta.
  { cbn [seq foldl fst snd]. unfold address. rewrite Z.mod_1_r, Z.mul_0_r, Z.add_0_r.
    change (2 ^ (3 + Z.of_nat 0)) with 8. split_and!; try lia; f_equal; lia. }
  rewrite seq_S, !foldl_app. cbn [foldl Nat.add]. destruct (IH ltac:(lia)) as (H1 & H2 & R1 & R2). clear IH.
  set (r := foldl (ecc_row bp _) _ _) in *. set (r' := foldl (ecc_row _ _) (Z.lxor e _, _) _) in *.
  set (p := 3 + Z.of_nat k) in *. assert (0 <= p < 16) as Hp by lia.
  pose proof (address_range k i b Hb) as Ha. fold p in Ha. rewrite address_succ. fold p.
  replace (3 + Z.of_nat (S k)) with (p + 1) by lia.
  unfold ecc_row. cbn [fst snd]. fold p. rewrite H1, H2, !row_flip by done. rewrite !row_bit.
  set (w := Nat.testbit i k). rewrite xorb_true_l, xorb_false_l. cbv iota.
  destruct (row_step r.1 (2 ^ p - 1 - address k i b) (Z.testbit (xor_at bp (row_indices (length bp) (2 ^ k) (length bp) 0) 0) 0)
    (negb w) p) as [-> ?]; [lia..|].
  destruct (row_step r.2 (address k i b) (Z.testbit (xor_at bp (row_indices (length bp) (2 ^ k) (length bp) (2 ^ k)) 0) 0)
    w p) as [-> ?]; [lia..|].
  split_and!; [|done|lia..]. f_equal. rewrite Z.pow_add_r by lia. change (2 ^ 1) with 2.
  destruct w; cbn [b2z negb]; lia.
Qed.

(** ** Correcting a wrong bit

    What a reader of the flash does with the stored code: the halves of the code are read back from the three
    bytes and compared with those of the sector that was read. *)

Definition code_halves (code : list Z) : Z * Z :=
  (nth 0 code 0 + 256 * (nth 2 code 0 mod 16), nth 1 code 0 + 256 * (nth 2 code 0 / 16)).

(** Equal codes: the sector is intact. Complementary differences: the difference of the odd halves is the
    address of the wrong bit. Anything else is an error that cannot be corrected. *)
Definition correct (code data : list Z) : option (list Z) :=
  let stored := code_halves code in
  let found := code_halves (ecc_sector true data) in
  let even := Z.lxor stored.1 found.1 in
  let odd := Z.lxor stored.2 found.2 in
  if (even =? 0) && (odd =? 0) then Some data
  else if even + odd =? 8 * Z.of_nat (length data) - 1 then Some (flip data (Z.to_nat (odd / 8)) (odd mod 8))
  else None.

Definition columns_even (v : Z) : Z := ecc_columns v EVEN_HALF EVEN_FOURTH EVEN_EIGHTH.
Definition columns_odd (v : Z) : Z := ecc_columns v ODD_HALF ODD_FOURTH ODD_EIGHTH.

Definition columns_ok (v b : Z) : bool :=
  (columns_even (Z.lxor v (2 ^ b)) =? Z.lxor (columns_even v) (7 - b)) &&
  (columns_odd (Z.lxor v (2 ^ b)) =? Z.lxor (columns_odd v) b) &&
  (0 <=? columns_even v) && (columns_even v <? 8) && (0 <=? columns_odd v) && (columns_odd v <? 8).

Lemma columns_table : forallb (fun v => forallb (columns_ok v) (seqZ 0 8)) (seqZ 0 256) = true.
Proof. vm_compute. reflexivity. Qed.

Lemma columns_flip v b :
  is_byte v -> 0 <= b < 8 ->
  columns_even (Z.lxor v (2 ^ b)) = Z.lxor (columns_even v) (7 - b) /\
  columns_odd (Z.lxor v (2 ^ b)) = Z.lxor (columns_odd v) b /\
  0 <= columns_even v < 8 /\ 0 <= columns_odd v < 8.
Proof.
  intros Hv Hb. pose proof (forallb_seqZ _ _ _ v columns_table Hv) as H. cbv beta in H.
  apply (forallb_seqZ _ _ _ b) in H; [|done]. unfold columns_ok in H. bool_to_prop. lia.
Qed.

Lemma parities_flip buf i b :
  (i < length buf)%nat -> Forall is_byte buf -> 0 <= b < 8 ->
  let par := fun v => calc_bitwise_parity v EVEN_WHOLE in
  par <$> flip buf i b = <[i := Z.lxor (nth i (par <$> buf) 0) 1]> (par <$> buf).
Proof.
  intros Hi Hbuf Hb par. unfold flip. rewrite list_fmap_insert. f_equal.
  destruct (lookup_lt_is_Some_2 buf i Hi) as [v Hv].
  rewrite (nth_lookup_Some buf i 0 v Hv), (nth_lookup_Some (par <$> buf) i 0 (par v))
    by (by rewrite list_lookup_fmap, Hv).
  unfold par. rewrite parity_flip; [|by eapply (Forall_lookup_1 is_byte)|done|by left].
  f_equal. replace (Z.testbit EVEN_WHOLE b) with true; [done|].
  unfold EVEN_WHOLE. symmetry. apply (Z.ones_spec_low 8). lia.
Qed.

(** The halves of the code before they are put together. *)
Definition ecc_halves (buf : list Z) : Z * Z :=
  foldl (ecc_row ((fun v => calc_bitwise_parity v EVEN_WHOLE) <$> buf) (length buf))
    (columns_even (foldl Z.lxor 0 buf), columns_odd (foldl Z.lxor 0 buf)) (seq 0 (LOG2 (length buf))).

Lemma flip_length buf i b : length (flip buf i b) = length buf.
Proof. apply length_insert. Qed.

Lemma ecc_halves_flip k buf i b :
  (k <= 13)%nat -> length buf = (2 ^ k)%nat -> Forall is_byte buf -> (i < length buf)%nat -> 0 <= b < 8 ->
  let a := 8 * Z.of_nat i + b in
  let r := ecc_halves buf in
  let r' := ecc_halves (flip buf i b) in
  r'.1 = Z.lxor r.1 (8 * Z.of_nat (length buf) - 1 - a) /\ r'.2 = Z.lxor r.2 a /\
  0 <= r.1 < 2 ^ (3 + Z.of_nat k) /\ 0 <= r.2 < 2 ^ (3 + Z.of_nat k).
Proof.
  intros Hk Hlen Hbuf Hi Hb a. cbv zeta. unfold ecc_halves. rewrite flip_length, parities_flip by done.
  unfold flip. rewrite foldl_xor_update by done.
  destruct (columns_flip (foldl Z.lxor 0 buf) b (foldl_xor_byte _ Hbuf) Hb) as (-> & -> & He & Ho).
  replace (LOG2 (length buf)) with k by (rewrite Hlen; symmetry; apply Nat.log2_pow2; lia).
  set (bp := _ <$> buf). assert (length bp = length buf) as Hbp by apply length_fmap.
  pose proof (rows_flip bp i b k _ _ ltac:(lia) Hb He Ho Hk) as H. cbv zeta in H. rewrite Hbp in H.
  assert (address k i b = a) as Ha.
  { unfold address, a. rewrite Z.mod_small; [lia|]. change (2 ^ Z.of_nat k) with (Z.of_nat 2 ^ Z.of_nat k).
    rewrite <- Nat2Z.inj_pow, <- Hlen. lia. }
  rewrite Ha in H. replace (8 * Z.of_nat (length buf)) with (2 ^ (3 + Z.of_nat k)); [exact H|].
  rewrite Hlen, Nat2Z.inj_pow, Z.pow_add_r by lia. done.
Qed.

Lemma nand_halves buf : nand_calculate_ecc true buf = u32 (Z.lor (Z.shiftl (ecc_halves buf).2 16) (ecc_halves buf).1).
Proof. unfold nand_calculate_ecc, ecc_halves. cbn [negb]. cbv zeta. by destruct (foldl (ecc_row _ _) _ _). Qed.

(** The three bytes hold all of both halves if these have twelve bits. *)
Lemma ecc_sector_halves buf :
  0 <= (ecc_halves buf).1 < 4096 -> 0 <= (ecc_halves buf).2 < 4096 ->
  code_halves (ecc_sector true buf) = ecc_halves buf.
Proof.
  unfold ecc_sector, byte_at, code_halves. rewrite nand_halves. destruct (ecc_halves buf) as [e o]. cbn [fst snd nth].
  intros He Ho. rewrite Z.lor_comm, lor_shift, (wrap_small 32) by (change (2 ^ 16) with 65536; lia).
  rewrite !Z.shiftr_div_pow2 by lia. unfold wrap.
  change (2 ^ (8 * 0)) with 1. change (2 ^ (8 * 1)) with 256. change (2 ^ (8 * 2)) with 65536.
  change (2 ^ (8 * 3)) with 16777216. change (2 ^ 16) with 65536. change (2 ^ 8) with 256.
  replace ((e + o * 65536) / 256 mod 256) with (e / 256) by (Z.to_euclidean_division_equations; lia).
  replace ((e + o * 65536) / 16777216 mod 256) with (o / 256) by (Z.to_euclidean_division_equations; lia).
  rewrite (lor_shift (e / 256)) by (change (2 ^ 4) with 16; Z.to_euclidean_division_equations; lia).
  change (2 ^ 4) with 16. f_equal; Z.to_euclidean_division_equations; lia.
Qed.

Lemma pow2_byte b : 0 <= b < 8 -> is_byte (2 ^ b).
Proof. intros Hb. split; [lia|]. apply (Z.pow_lt_mono_r 2 b 8); lia. Qed.

(** A sector that the three bytes can protect: at most 512 bytes, and a power of two. *)
Definition protectable (buf : list Z) : Prop :=
  exists k, (k <= 9)%nat /\ length buf = (2 ^ k)%nat /\ Forall is_byte buf.

Lemma flip_protectable buf i b :
  protectable buf -> (i < length buf)%nat -> 0 <= b < 8 -> protectable (flip buf i b).
Proof.
  intros (k & Hk & Hlen & Hbuf) Hi Hb. exists k. rewrite flip_length. split_and!; [done..|].
  unfold flip. apply Forall_insert; [done|]. apply lxor_byte; [|by apply pow2_byte].
  destruct (lookup_lt_is_Some_2 buf i Hi) as [v Hv]. rewrite (nth_lookup_Some buf i 0 v Hv).
  by eapply (Forall_lookup_1 is_byte).
Qed.

Lemma protectable_halves buf : protectable buf -> code_halves (ecc_sector true buf) = ecc_halves buf.
Proof.
  intros (k & Hk & Hlen & Hbuf).
  assert (0 < length buf)%nat as Hpos by (rewrite Hlen; apply Nat.neq_0_lt_0, Nat.pow_nonzero; lia).
  destruct (ecc_halves_flip k buf 0 0 ltac:(lia) Hlen Hbuf Hpos ltac:(lia)) as (_ & _ & H1 & H2).
  assert (2 ^ (3 + Z.of_nat k) <= 2 ^ 12) by (apply Z.pow_le_mono_r; lia).
  change (2 ^ 12) with 4096 in *. apply ecc_sector_halves; lia.
Qed.

Lemma protectable_flip buf i b :
  protectable buf -> (i < length buf)%nat -> 0 <= b < 8 ->
  let a := 8 * Z.of_nat i + b in
  let r := ecc_halves buf in
  code_halves (ecc_sector true (flip buf i b)) =
    (Z.lxor r.1 (8 * Z.of_nat (length buf) - 1 - a), Z.lxor r.2 a).
Proof.
  intros Hp Hi Hb. cbv zeta. rewrite protectable_halves by (by apply flip_protectable).
  destruct Hp as (k & Hk & Hlen & Hbuf).
  destruct (ecc_halves_flip k buf i b ltac:(lia) Hlen Hbuf Hi Hb) as (H1 & H2 & _).
  destruct (ecc_halves (flip buf i b)). cbn [fst snd] in *. by rewrite H1, H2.
Qed.

Lemma lxor_cancel x y : Z.lxor x (Z.lxor x y) = y.
Proof. by rewrite <- Z.lxor_assoc, Z.lxor_nilpotent, Z.lxor_0_l. Qed.

Lemma flip_flip buf i b : (i < length buf)%nat -> flip (flip buf i b) i b = buf.
Proof.
  intros Hi. unfold flip. rewrite nth_insert, Nat.eqb_refl, list_insert_insert_eq by done.
  rewrite Z.lxor_assoc, Z.lxor_nilpotent, Z.lxor_0_r.
  destruct (lookup_lt_is_Some_2 buf i Hi) as [v Hv]. rewrite (nth_lookup_Some buf i 0 v Hv).
  by apply list_insert_id.
Qed.

Lemma intact_accepted buf : correct (ecc_sector true buf) buf = Some buf.
Proof. unfold correct. by rewrite !Z.lxor_nilpotent. Qed.

Lemma single_corrected buf i b :
  protectable buf -> (i < length buf)%nat -> 0 <= b < 8 ->
  correct (ecc_sector true buf) (flip buf i b) = Some buf.
Proof.
  intros Hp Hi Hb. unfold correct. rewrite protectable_flip, protectable_halves, flip_length by done.
  cbn [fst snd]. rewrite !lxor_cancel. set (a := 8 * Z.of_nat i + b).
  replace ((_ =? 0) && (a =? 0)) with false
    by (symmetry; apply andb_false_iff; rewrite !Z.eqb_neq; unfold a; lia).
  rewrite (proj2 (Z.eqb_eq _ _)) by lia. f_equal.
  replace (a / 8) with (Z.of_nat i) by (unfold a; Z.to_euclidean_division_equations; lia).
  replace (a mod 8) with b by (unfold a; Z.to_euclidean_division_equations; lia).
  rewrite Nat2Z.id. by apply flip_flip.
Qed.

Lemma odd_sum x y : Z.odd (x + y) = xorb (Z.testbit x 0) (Z.testbit y 0).
Proof. by rewrite Z.odd_add, !Z.bit0_odd. Qed.

Lemma double_detected buf i b j c :
  protectable buf -> (i < length buf)%nat -> 0 <= b < 8 -> (j < length buf)%nat -> 0 <= c < 8 -> (i, b) <> (j, c) ->
  correct (ecc_sector true buf) (flip (flip buf i b) j c) = None.
Proof.
  intros Hp Hi Hb Hj Hc Hne. pose proof (flip_protectable buf i b Hp Hi Hb) as Hp'.
  unfold correct. rewrite protectable_flip, protectable_halves, !flip_length by (by rewrite ?flip_length).
  cbn [fst snd]. rewrite <- (protectable_halves (flip buf i b)), protectable_flip by done. cbn [fst snd].
  rewrite !Z.lxor_assoc, !lxor_cancel. set (L := 8 * Z.of_nat (length buf)).
  set (x := 8 * Z.of_nat i + b). set (y := 8 * Z.of_nat j + c).
  assert (Z.lxor x y <> 0) as Hxy.
  { rewrite Z.lxor_eq_0_iff. intros E. apply Hne. unfold x, y in E. f_equal; lia. }
  rewrite (proj2 (Z.eqb_neq (Z.lxor x y) 0)), andb_false_r by done.
  destruct (Z.eqb_spec (Z.lxor (L - 1 - x) (L - 1 - y) + Z.lxor x y) (L - 1)) as [E|]; [|done].
  apply (f_equal Z.odd) in E. rewrite odd_sum, !Z.lxor_spec, !Z.bit0_odd, !Z.odd_sub in E.
  assert (Z.odd L = false) as HL by (unfold L; by rewrite Z.odd_mul).
  rewrite HL in E. by destruct (Z.odd x), (Z.odd y).
Qed.

(** ** The pages of an image *)

Definition stored_code (oobbuf : list Z) (i : nat) : list Z := take 3 (drop (2 + 3 * i) oobbuf).

(** The spare area repairs any wrong bit of any sector of the page, and tells two wrong bits. *)
Definition page_protected (mtd : mtd_dev_info) (page oobbuf : list Z) : Prop :=
  forall s, (s < min_io_size mtd / subpage_size mtd)%nat ->
  let code := stored_code oobbuf s in
  let data := sector mtd page s in
  length data = subpage_size mtd /\ correct code data = Some data /\
  forall i b, (i < subpage_size mtd)%nat -> 0 <= b < 8 ->
    correct code (flip data i b) = Some data /\
    forall j c, (j < subpage_size mtd)%nat -> 0 <= c < 8 -> (i, b) <> (j, c) ->
      correct code (flip (flip data i b) j c) = None.

(** The pages with their spare areas, as they are written. *)
Fixpoint page_ops (mtd : mtd_dev_info) (page_idx : Z) (pages : list (list Z * list Z)) : list mtd_op :=
  match pages with
  | [] => []
  | (page, oobbuf) :: pages =>
      MtdWrite page :: MtdOob (page_idx * Z.of_nat (min_io_size mtd)) oobbuf :: page_ops mtd (page_idx + 1) pages
  end.

Lemma store_codes_ok n code ecc :
  (n <= 4)%nat -> length ecc = 12%nat -> (forall i, length (code i) = 3%nat) ->
  exists ecc', store_codes n code ecc = Some ecc' /\ length ecc' = 12%nat /\
    forall i, (i < n)%nat -> take 3 (drop (3 * i) ecc') = code i.
Proof.
  intros Hn Hlen Hcode. do 12 (destruct ecc as [|? ecc]; [done|]). destruct ecc; [|done]. clear Hlen.
  assert (forall i, code i = [nth 0 (code i) 0; nth 1 (code i) 0; nth 2 (code i) 0]) as Hc.
  { intros i. pose proof (Hcode i) as H. destruct (code i) as [|? [|? [|? [|]]]]; done. }
  do 5 (destruct n as [|n]; [eexists; split_and!; [cbv -[nth]; reflexivity|reflexivity|]; intros i Hi;
    do 4 (destruct i as [|i]; [first [lia|symmetry; etransitivity; [apply Hc|reflexivity]]|]); lia|]). lia.
Qed.

Lemma stored_code_oob ecc i : (3 * i + 3 <= length ecc)%nat -> stored_code (oob_of ecc) i = take 3 (drop (3 * i) ecc).
Proof.
  intros Hi. unfold stored_code, oob_of. change (drop (2 + 3 * i) (replicate 2 255 ++ ecc ++ replicate 50 255))
    with (drop (3 * i) (ecc ++ replicate 50 255)).
  rewrite drop_app_le, take_app_le by (rewrite ?length_drop; lia). done.
Qed.

Lemma page_read_block bs n f : bs <> [] -> page_read (rd_block bs ++ f) n = (Some (take n bs), rd_block (drop n bs) ++ f).
Proof. by destruct bs. Qed.

(** A flash whose sectors the code protects, and whose pages have room for it in [ecc]. *)
Definition fitting (mtd : mtd_dev_info) : Prop :=
  exists n k, (1 <= n <= 4)%nat /\ (k <= 9)%nat /\ subpage_size mtd = (2 ^ k)%nat /\
    min_io_size mtd = (n * subpage_size mtd)%nat.

Lemma page_ecc_protects mtd page ecc :
  fitting mtd -> length ecc = 12%nat -> length page = min_io_size mtd -> Forall is_byte page ->
  exists ecc', page_ecc true mtd page ecc = Some ecc' /\ length ecc' = 12%nat /\ page_protected mtd page (oob_of ecc').
Proof.
  intros (n & k & Hn & Hk & Hsub & Hmin) Hecc Hpage Hbytes.
  assert (subpage_size mtd <> 0%nat) as Hs by (rewrite Hsub; apply Nat.pow_nonzero; lia).
  assert (min_io_size mtd / subpage_size mtd = n)%nat as Hdiv by (rewrite Hmin; by apply Nat.div_mul).
  destruct (store_codes_ok n (fun i => ecc_sector true (sector mtd page i)) ecc) as (ecc' & E & Hl & Hcodes);
    [lia|done..|].
  exists ecc'. unfold page_ecc. rewrite Hdiv, E, (proj2 (Nat.eqb_neq _ _)) by done. split_and!; [done..|].
  intros s Hsec. rewrite Hdiv in Hsec. cbv zeta. rewrite stored_code_oob, Hcodes by lia.
  assert (length (sector mtd page s) = subpage_size mtd) as Hlen.
  { unfold sector. rewrite length_take, length_drop, Hpage, Hmin. nia. }
  assert (protectable (sector mtd page s)) as Hp.
  { exists k. split_and!; [done|congruence|]. unfold sector. by apply Forall_take, Forall_drop. }
  split_and!; [done|apply intact_accepted|]. intros i b Hi Hb. rewrite <- Hlen in Hi |- *. split.
  - by apply single_corrected.
  - intros j c Hj Hc Hne. by apply double_detected.
Qed.

Lemma nand_loop_pages mtd size fuel image f page_idx ecc ops progress :
  fitting mtd -> length ecc = 12%nat -> (length image < fuel)%nat ->
  exists pages pad progress',
    nand_loop true mtd true size fuel [] (rd_block image ++ f) (Z.of_nat (length image)) page_idx ecc ops progress =
      Some (NandDone EXIT_SUCCESS (ops ++ page_ops mtd page_idx pages) f progress') /\
    concat (fst <$> pages) = (byte_of <$> image) ++ replicate pad 255 /\ (pad < min_io_size mtd)%nat /\
    Forall (fun p => length p.1 = min_io_size mtd /\ page_protected mtd p.1 p.2) pages.
Proof.
  intros Hfit. assert (1 <= min_io_size mtd)%nat as Hio.
  { destruct Hfit as (n & k & Hn & _ & Hsub & ->). rewrite Hsub. pose proof (Nat.pow_nonzero 2 k). lia. }
  revert image page_idx ecc ops progress. induction fuel as [|fuel IH]; intros image page_idx ecc ops progress Hecc Hf;
    [lia|]. cbn [nand_loop].
  destruct (decide (image = [])) as [->|Hne].
  { cbn [length]. exists [], 0%nat, progress. cbn. rewrite app_nil_r. split_and!; done || lia. }
  assert (0 < length image)%nat as Hpos by (destruct image; [done|cbn; lia]).
  rewrite (proj2 (Z.leb_gt _ _)) by lia. rewrite page_read_block by done.
  set (n := Z.to_nat _). assert (n = min (min_io_size mtd) (length image)) as Hn by lia.
  rewrite length_take. set (page := (byte_of <$> take n image) ++ _).
  assert (length page = min_io_size mtd) as Hpage.
  { unfold page. rewrite length_app, length_fmap, length_replicate, length_take. lia. }
  assert (Forall is_byte page) as Hbytes.
  { apply Forall_app. split; [|apply Forall_replicate; done].
    apply Forall_fmap, Forall_true. intros c. apply byte_of_range. }
  destruct (page_ecc_protects mtd page ecc Hfit Hecc Hpage Hbytes) as (ecc' & -> & Hecc' & Hprot).
  cbn [hd tail negb andb].
  replace (Z.of_nat (length image) - Z.of_nat (n `min` length image)) with (Z.of_nat (length (drop n image)))
    by (rewrite length_drop; lia).
  destruct (IH (drop n image) (page_idx + 1) ecc' ((ops ++ [MtdWrite page]) ++
    [MtdOob (page_idx * Z.of_nat (min_io_size mtd)) (oob_of ecc')])
    (progress ++ [u32 (Z.quot ((size - Z.of_nat (length (drop n image))) * 100) size)]) Hecc')
    as (pages & pad & progress' & -> & Hcat & Hpad & Hall); [rewrite length_drop; lia|].
  exists ((page, oob_of ecc') :: pages). cbn [fmap list_fmap fst concat page_ops].
  rewrite <- !app_assoc. cbn [app]. destruct (decide (n < length image)%nat) as [Hlt|Hge].
  - exists pad, progress'. split_and!; [done| |done|by constructor].
    cbn [concat]. fold (fmap (M := list) fst pages). rewrite Hcat. unfold page. rewrite <- app_assoc.
    replace (min_io_size mtd - n `min` length image)%nat with 0%nat by lia.
    cbn [replicate app]. by rewrite app_assoc, <- fmap_app, take_drop.
  - rewrite drop_ge in Hcat by lia. cbn [fmap list_fmap app] in Hcat.
    assert (pages = []) as ->.
    { destruct pages as [|p pages]; [done|]. apply Forall_cons in Hall as [[Hp _] _].
      apply (f_equal length) in Hcat. rewrite length_replicate in Hcat. cbn in Hcat. rewrite length_app in Hcat. lia. }
    exists (min_io_size mtd - length image)%nat, progress'. split_and!; [done| |lia|by constructor].
    cbn. rewrite app_nil_r. unfold page. rewrite take_ge by lia. do 2 f_equal. lia.
Qed.

(** C14: An image written to a NAND flash is there in full and every sector of it survives a wrong bit. For a
    flash of one to four sectors per page, each of a power of two of at most 512 bytes, an input that delivers
    the image without short reads, in one piece, and writes that do not fail: the handler succeeds, the pages
    written are the bytes of the image in order, padded in the last page only, and the code stored with each
    page lets a reader correct any single wrong bit of any sector and notice any two. Without these conditions
    it does not hold: see [short_read_pads], [many_sectors_overflow] and [truncated_image_never_ends]. *)
Theorem hamming_image_protected mtd image f ecc0 fuel :
  fitting mtd -> image <> [] -> length ecc0 = 12%nat -> (length image < fuel)%nat ->
  exists pages pad progress,
    flash_write_nand_hamming1 true mtd true (Z.of_nat (length image)) fuel true true true ecc0 [] (rd_block image ++ f) =
      Some (NandDone EXIT_SUCCESS (page_ops mtd 0 pages) f progress) /\
    concat (fst <$> pages) = (byte_of <$> image) ++ replicate pad 255 /\ (pad < min_io_size mtd)%nat /\
    Forall (fun p => length p.1 = min_io_size mtd /\ page_protected mtd p.1 p.2) pages.
Proof.
  intros Hfit Hne Hecc Hf. unfold flash_write_nand_hamming1.
  assert (0 < length image)%nat by (destruct image; [done|cbn; lia]).
  rewrite (proj2 (Z.eqb_neq _ _)), (proj2 (Z.ltb_ge _ _)) by lia. cbn [negb orb andb].
  by destruct (nand_loop_pages mtd (Z.of_nat (length image)) fuel image f 0 ecc0 [] [] Hfit Hecc Hf)
    as (pages & pad & progress & Hw); exists pages, pad, progress.
Qed.

Definition small_nand : mtd_dev_info := mk_mtd 4 2.

Lemma small_nand_fitting : fitting small_nand.
Proof. exists 2%nat, 1%nat. split_and!; done || lia. Qed.

(** Five bytes on a flash with two sectors of two bytes per page. *)
Definition small_image : bytes := ["i"; "m"; "a"; "g"; "e"]%char.

Lemma hamming_image_protected_witness :
  exists pages pad progress,
    flash_write_nand_hamming1 true small_nand true 5 6 true true true (replicate 12 0) []
      (rd_block small_image ++ [RdIntr]) =
      Some (NandDone EXIT_SUCCESS (page_ops small_nand 0 pages) [RdIntr] progress) /\
    concat (fst <$> pages) = (byte_of <$> small_image) ++ replicate pad 255 /\ (pad < 4)%nat /\
    Forall (fun p => length p.1 = 4%nat /\ page_protected small_nand p.1 p.2) pages.
Proof.
  apply (hamming_image_protected small_nand small_image [RdIntr] (replicate 12 0) 6 small_nand_fitting);
    [done|done|cbn; lia].
Defined.

(** ** Where the handler departs from what it means *)

(** Input that ends before the image does: the end of the file is read as a page of no bytes, again and
    again, so that the handler goes on writing empty pages for as long as the flash takes them. *)
Theorem truncated_image_never_ends mem mtd size fuel imglen page_idx ops progress :
  0 < imglen -> nand_loop mem mtd false size fuel [] [] imglen page_idx [] ops progress = None.
Proof.
  revert page_idx ops progress. induction fuel as [|fuel IH]; intros page_idx ops progress Hi; [done|].
  cbn [nand_loop page_read]. rewrite (proj2 (Z.leb_gt _ _)) by lia. cbn [hd tail negb andb length Z.of_nat].
  rewrite Z.sub_0_r. by apply IH.
Qed.

(** A short read in the middle of the image, as a pipe gives it, pads the page there: the bytes of
    the image are no longer where the loader looks for them. *)
Theorem short_read_pads :
  flash_write_nand_hamming1 true (mk_mtd 2 2) false 3 5 true true true [] []
    [RdData "a"%char []; RdData "b"%char ["c"%char]] =
  Some (NandDone EXIT_SUCCESS [MtdWrite [97; 255; 97; 255]; MtdWrite [98; 99; 98; 99]] [] [33; 100]).
Proof. reflexivity. Qed.

(** More than four sectors in a page: the codes are written past the end of [ecc]. *)
Theorem many_sectors_overflow :
  flash_write_nand_hamming1 true (mk_mtd 5 1) true 5 2 true true true (replicate 12 0) []
    (rd_block small_image) = Some NandUndefined.
Proof. reflexivity. Qed.
