(* ===== verification/Parse.v ===== *)
(** * Accepting an update: [core/parser.c], [core/hw-compatibility.c]

    The signature of sw-description is verified before it is parsed; the parsed
    description is then checked against the handlers, the rules for hashes and
    the range of versions of its update type. The parsers themselves are the
    functions of a table. *)
From S2P Require Import Prelude CString Util Versions Dict Handler Crypto Keys Cpio Image.

(** ** Hardware *)

(** [file]: the content of the hardware file, [None] if it cannot be opened. *)
Definition get_hw_revision (file : option string) (hw : option hw_type) : Z * option hw_type :=
  match hw with
  | None => (- EINVAL, None)
  | Some h =>
      if negb (strlen (boardname h) =? 0) then (0, hw)
      else
        match file with
        | None => (-1, Some (mk_hw "" ""))
        | Some text =>
            match splitargs text with
            | b1 :: b2 :: _ =>
                if (strlen b1 >? SWUPDATE_GENERAL_STRING_SIZE - 1) ||
                   (strlen b2 >? SWUPDATE_GENERAL_STRING_SIZE - 1)
                then (-1, Some (mk_hw "" ""))
                else (0, Some (mk_hw (strlcpy b1 SWUPDATE_GENERAL_STRING_SIZE)
                                     (strlcpy b2 SWUPDATE_GENERAL_STRING_SIZE)))
            | _ => (-1, Some (mk_hw "" ""))
            end
        end
  end.

(** [configured] is [CONFIG_HW_COMPATIBILITY]. *)
Definition check_hw_compatibility (configured : bool) (regcomp : string -> Z)
    (regexec : string -> string -> Z) (file : option string) (hwt : hw_type)
    (hardware : list hw_type) : Z :=
  if negb configured then 0
  else
    match get_hw_revision file (Some hwt) with
    | (ret, Some hwt) =>
        if ret <? 0 then -1
        else if existsb (fun hw => hwid_match regcomp regexec (revision hw) (revision hwt) =? 0) hardware
        then 0 else -1
    | (_, None) => -1
    end.

(** ** Checks of the description *)

Inductive IMGTYPE := IS_IMAGE_FILE | IS_SCRIPT | IS_PARTITION | IS_UNKNOWN.

#[export] Instance imgtype_eq_dec : EqDecision IMGTYPE.
Proof. solve_decision. Defined.

Definition get_entry_type (img : img_type) : IMGTYPE :=
  if negb (is_script img) && negb (is_partitioner img) then IS_IMAGE_FILE
  else if is_script img then IS_SCRIPT
  else if is_partitioner img then IS_PARTITION
  else IS_UNKNOWN.

(** [strnlen (image->sha256, SHA256_HASH_LENGTH)]. *)
Fixpoint hash_strnlen (n : nat) (h : bytes) : Z :=
  match n, h with
  | S n, c :: h => if byte_of c =? 0 then 0 else 1 + hash_strnlen n h
  | _, _ => 0
  end.

Fixpoint check_hash_absent (l : list img_type) : Z :=
  match l with
  | [] => 0
  | image :: l =>
      if hash_strnlen SHA256_HASH_LENGTH (sha256 image) >? 0 then - EINVAL else check_hash_absent l
  end.

Definition img_hash_valid (img : img_type) : bool := IsValidHash (Some (byte_of <$> sha256 img)).

Definition swupdate_find_update_type (l : list swupdate_type_cfg) (name : string)
  : option swupdate_type_cfg :=
  List.find (fun t => strcmp (type_name t) name =? 0) l.

Section Parse.
Context {H : Type} (reg : registry H).

Fixpoint check_missing_hash (l : list img_type) : Z :=
  match l with
  | [] => 0
  | image :: l =>
      if (Z.land (get_handler_mask (type image) reg) NO_DATA_HANDLER =? 0) && negb (img_hash_valid image)
      then - EINVAL else check_missing_hash l
  end.

Definition check_handler (item : img_type) (mask : Z) : Z :=
  match find_handler (type item) reg with
  | None => - EINVAL
  | Some hnd => if Z.land (Handler.mask hnd) mask =? 0 then - EINVAL else 0
  end.

Fixpoint check_handler_list (l : list img_type) (allowedmask : Z) (type : IMGTYPE) : Z :=
  match l with
  | [] => 0
  | item :: l =>
      if bool_decide (get_entry_type item <> type) then check_handler_list l allowedmask type
      else
        let ret := check_handler item allowedmask in
        if ret <? 0 then ret else check_handler_list l allowedmask type
  end.

(** The description and the dictionary of changes for the bootloader. *)
#[local] Abbreviation desc_state := (swupdate_cfg * dict)%type.

(** [CONFIG_SIGNED_IMAGES], [CONFIG_HASH_VERIFY]. *)
Variables signed hash_verify : bool.
(** [verify_file] of the digest library in use, [None] if there is none. *)
Variable dgstlib : option (string -> string -> Z).
(** The table of parsers: each gets the name of the file. *)
Variable parsers : list (string -> desc_state -> Z * desc_state).

Definition swupdate_verify_file (sigfile file : string) : Z :=
  match dgstlib with None => - EFAULT | Some verify_file => verify_file sigfile file end.

(** The parsers are tried in turn, each on what the one before left. *)
Fixpoint run_parsers (l : list (string -> desc_state -> Z * desc_state)) (descfile : string) (ret : Z)
    (s : desc_state) : Z * desc_state :=
  match l with
  | [] => (ret, s)
  | current :: l =>
      let '(ret, s) := current descfile s in
      if ret =? 0 then (0, s) else run_parsers l descfile ret s
  end.

Definition check_versions (sw : swupdate_cfg) (ret : Z) : Z :=
  let t := update_type sw in
  if no_downgrading t && (compare_versions (cfg_version sw) (minimum_version t) <? 0) then - EPERM
  else if check_max_version t && (compare_versions (cfg_version sw) (maximum_version t) >? 0) then - EPERM
  else if no_reinstalling t && (strcmp (cfg_version sw) (current_version t) =? 0) then - EPERM
  else ret.

(** The checks of the hashes. *)
Definition check_hashes (sw : swupdate_cfg) : Z :=
  if signed then
    if negb (check_missing_hash (images sw) =? 0) || negb (check_missing_hash (scripts sw) =? 0)
    then - EINVAL else 0
  else if hash_verify then 0
  else if negb (check_hash_absent (images sw) =? 0) || negb (check_hash_absent (scripts sw) =? 0)
  then - EINVAL else 0.

Definition check_handlers (sw : swupdate_cfg) : Z :=
  Z.lor (Z.lor (check_handler_list (scripts sw) SCRIPT_HANDLER IS_SCRIPT)
               (check_handler_list (images sw) (Z.lor IMAGE_HANDLER FILE_HANDLER) IS_IMAGE_FILE))
        (check_handler_list (images sw) PARTITION_HANDLER IS_PARTITION).

Definition DEFAULT_TYPE : string := "default".

(** The update type of the description, [default] if it has none. *)
Definition select_type (sw : swupdate_cfg) : Z * swupdate_cfg :=
  if (strlen (update_type_name sw) =? 0) && update_type_required sw then (- EINVAL, sw)
  else
    let sw := if strlen (update_type_name sw) =? 0 then set_update_type_name DEFAULT_TYPE sw else sw in
    match swupdate_find_update_type (swupdate_types sw) (update_type_name sw) with
    | None => (- EINVAL, sw)
    | Some t => (0, set_update_type t sw)
    end.

(** The environment of the bootloader is changed and no handler can do it. *)
Definition bootloader_absent (bootloader : dict) : bool :=
  match bootloader, find_handler "uboot" reg, find_handler "bootenv" reg with
  | _ :: _, None, None => true
  | _, _, _ => false
  end.

(** [mem]: the name of the signature file is allocated. *)
Definition parse (mem : bool) (descfile : string) (s : desc_state) : Z * desc_state :=
  if signed && negb mem then (- ENOMEM, s)
  else
    let ret := if signed then swupdate_verify_file (descfile +:+ ".sig") descfile else 0 in
    if negb (ret =? 0) then (ret, s)
    else
      let '(ret, (sw, bootloader)) := run_parsers parsers descfile (-1) s in
      if negb (ret =? 0) then (ret, (sw, bootloader))
      else if negb (check_handlers sw =? 0) then (- EINVAL, (sw, bootloader))
      else if bootloader_absent bootloader then (- EINVAL, (sw, bootloader))
      else
        let ret := check_hashes sw in
        let '(err, sw) := select_type sw in
        if negb (err =? 0) then (err, (sw, bootloader))
        else (check_versions sw ret, (sw, bootloader)).

(** * Properties *)

(** Every entry of a kind has a handler that is allowed for it. *)
Definition handled (l : list img_type) (mask : Z) (ty : IMGTYPE) : Prop :=
  Forall (fun item => get_entry_type item = ty ->
    exists hnd, find_handler (type item) reg = Some hnd /\ Z.land (Handler.mask hnd) mask <> 0) l.

(** Every artifact that has data has a hash. *)
Definition hashed (l : list img_type) : Prop :=
  Forall (fun img => Z.land (get_handler_mask (type img) reg) NO_DATA_HANDLER <> 0 \/
                     img_hash_valid img = true) l.

Definition in_range (version : string) (t : swupdate_type_cfg) : Prop :=
  (no_downgrading t = true -> 0 <= compare_versions version (minimum_version t)) /\
  (check_max_version t = true -> compare_versions version (maximum_version t) <= 0) /\
  (no_reinstalling t = true -> version <> current_version t).

(** What a description must satisfy, and the update type it is accepted under. *)
Record acceptable (sw : swupdate_cfg) (bootloader : dict) (t : swupdate_type_cfg) : Prop := {
  acc_scripts : handled (scripts sw) SCRIPT_HANDLER IS_SCRIPT;
  acc_images : handled (images sw) (Z.lor IMAGE_HANDLER FILE_HANDLER) IS_IMAGE_FILE;
  acc_partitions : handled (images sw) PARTITION_HANDLER IS_PARTITION;
  acc_bootloader : bootloader = [] \/ find_handler "uboot" reg <> None \/ find_handler "bootenv" reg <> None;
  acc_hashes : signed = true -> hashed (images sw) /\ hashed (scripts sw);
  acc_required : update_type_name sw = "" -> update_type_required sw = false;
  acc_type : swupdate_find_update_type (swupdate_types sw)
               (if String.eqb (update_type_name sw) "" then DEFAULT_TYPE else update_type_name sw) = Some t;
  acc_range : in_range (cfg_version sw) t;
}.

Lemma check_handler_range item mask : check_handler item mask <= 0.
Proof. unfold check_handler. repeat case_match; done. Qed.

Lemma check_handler_list_zero l mask ty : check_handler_list l mask ty = 0 <-> handled l mask ty.
Proof.
  unfold handled. induction l as [|item l IH]; cbn [check_handler_list]; [by split|].
  rewrite Forall_cons, <- IH. case_bool_decide as Ht; [tauto|].
  pose proof (check_handler_range item mask) as Hr.
  assert (check_handler item mask = 0 <->
    exists hnd, find_handler (type item) reg = Some hnd /\ Z.land (Handler.mask hnd) mask <> 0) as E.
  { unfold check_handler. destruct (find_handler (type item) reg) as [hnd|].
    - destruct (Z.eqb_spec (Z.land (Handler.mask hnd) mask) 0).
      + split; [done|]. intros (h & [= <-] & ?). done.
      + split; [|done]. eauto.
    - split; [done|]. by intros (h & ? & _). }
  rewrite <- E. destruct (Z.ltb_spec (check_handler item mask) 0) as [Hn|Hn].
  { split; [lia|]. intros [Hc _]. specialize (Hc Ht). lia. }
 
  assert (check_handler item mask = 0) by lia. tauto.
Qed.

Lemma check_missing_hash_zero l : check_missing_hash l = 0 <-> hashed l.
Proof.
  unfold hashed. induction l as [|img l IH]; cbn [check_missing_hash]; [by split|].
  rewrite Forall_cons, <- IH.
  destruct (Z.eqb_spec (Z.land (get_handler_mask (type img) reg) NO_DATA_HANDLER) 0), (img_hash_valid img);
    cbn [negb andb]; try tauto.
  split; [done|]. intros [[?|?] _]; done.
Qed.

Lemma check_handlers_zero sw :
  check_handlers sw = 0 <->
  handled (scripts sw) SCRIPT_HANDLER IS_SCRIPT /\
  handled (images sw) (Z.lor IMAGE_HANDLER FILE_HANDLER) IS_IMAGE_FILE /\
  handled (images sw) PARTITION_HANDLER IS_PARTITION.
Proof.
  unfold check_handlers. rewrite !Z.lor_eq_0_iff, !check_handler_list_zero. tauto.
Qed.

Lemma check_versions_zero sw ret :
  check_versions sw ret = 0 <-> ret = 0 /\ in_range (cfg_version sw) (update_type sw).
Proof.
  unfold check_versions, in_range. set (t := update_type sw). set (v := cfg_version sw).
  rewrite strcmp_eq.
  destruct (no_downgrading t), (check_max_version t), (no_reinstalling t); cbn [andb];
    repeat match goal with
    | |- context [?a <? ?b] => destruct (Z.ltb_spec a b)
    | |- context [?a >? ?b] => rewrite (Z.gtb_ltb a b)
    | |- context [bool_decide ?P] => case_bool_decide
    end; (split; [intros ?; try done; repeat split; intros; try done; try lia
                 |intros (? & ? & ? & ?); try done; exfalso; intuition lia]).
Qed.

Lemma select_type_zero sw sw1 :
  select_type sw = (0, sw1) <->
  (update_type_name sw = "" -> update_type_required sw = false) /\
  exists t, swupdate_find_update_type (swupdate_types sw)
      (if String.eqb (update_type_name sw) "" then DEFAULT_TYPE else update_type_name sw) = Some t /\
    sw1 = set_update_type t
            (if String.eqb (update_type_name sw) "" then set_update_type_name DEFAULT_TYPE sw else sw).
Proof.
  unfold select_type.
  assert ((strlen (update_type_name sw) =? 0) = String.eqb (update_type_name sw) "") as ->
    by (by destruct (update_type_name sw)).
  destruct (String.eqb_spec (update_type_name sw) "") as [E|E], (update_type_required sw) eqn:Hq; cbn [andb];
    try (split; [done|]; intros [HN _]; by specialize (HN E)).
  all: change (swupdate_types (set_update_type_name DEFAULT_TYPE sw)) with (swupdate_types sw).
  all: change (update_type_name (set_update_type_name DEFAULT_TYPE sw)) with DEFAULT_TYPE.
  all: destruct (swupdate_find_update_type _ _) as [t|]; split;
    [intros [= <-]; split; [congruence|by exists t]|intros (_ & t' & [= <-] & ->); done|done|by intros (_ & t' & ? & _)].
Qed.

Lemma bootloader_absent_false d :
  bootloader_absent d = false <->
  d = [] \/ find_handler "uboot" reg <> None \/ find_handler "bootenv" reg <> None.
Proof.
  unfold bootloader_absent. destruct d, (find_handler "uboot" reg), (find_handler "bootenv" reg);
    naive_solver.
Qed.

Lemma check_hashes_zero sw :
  signed = true -> check_hashes sw = 0 <-> hashed (images sw) /\ hashed (scripts sw).
Proof.
  intros Hs. unfold check_hashes. rewrite Hs, <- !check_missing_hash_zero.
  destruct (Z.eqb_spec (check_missing_hash (images sw)) 0), (Z.eqb_spec (check_missing_hash (scripts sw)) 0);
    cbn [negb orb]; split; try done; tauto.
Qed.

Lemma parse_verified mem descfile s s' :
  signed = true -> parse mem descfile s = (0, s') ->
  swupdate_verify_file (descfile +:+ ".sig") descfile = 0.
Proof.
  intros Hs. unfold parse. rewrite Hs. cbn [andb]. case_if; [done|].
  destruct (Z.eqb_spec (swupdate_verify_file (descfile +:+ ".sig") descfile) 0) as [Hv|Hv]; cbn [negb];
    [done|by intros [= ? _]].
Qed.

(** C6: with signed images, an update is accepted exactly when the signature of its
    description was verified, one of the parsers accepts the description, every
    entry has a handler that is allowed for it, every artifact with data has a
    hash, there is a handler for the bootloader if its environment is changed,
    and the version is in the range of the configured update type: not lower
    than the minimum, not above the maximum, not the installed one. *)
Theorem parse_accepts (mem : bool) (descfile : string) (s : desc_state) (sw' : swupdate_cfg) (d' : dict) :
  signed = true ->
  parse mem descfile s = (0, (sw', d')) <->
  mem = true /\ swupdate_verify_file (descfile +:+ ".sig") descfile = 0 /\
  exists sw t, run_parsers parsers descfile (-1) s = (0, (sw, d')) /\ acceptable sw d' t /\
    sw' = set_update_type t
            (if String.eqb (update_type_name sw) "" then set_update_type_name DEFAULT_TYPE sw else sw).
Proof.
  intros Hs. unfold parse. rewrite Hs. cbn [andb]. split.
  - destruct mem; cbn [negb]; [|done].
    destruct (Z.eqb_spec (swupdate_verify_file (descfile +:+ ".sig") descfile) 0) as [Hv|Hv]; cbn [negb];
      [|by intros [= ? _]].
    destruct (run_parsers parsers descfile (-1) s) as [r [sw d]].
    destruct (Z.eqb_spec r 0) as [->|Hr]; cbn [negb]; [|by intros [= ? _]].
    destruct (Z.eqb_spec (check_handlers sw) 0) as [Hh|]; cbn [negb]; [|done].
    destruct (bootloader_absent d) eqn:Hb; [done|].
    destruct (select_type sw) as [err sw1] eqn:Ht.
    destruct (Z.eqb_spec err 0) as [->|]; cbn [negb]; [|by intros [= ? _]].
    intros [= Hz <- <-]. apply check_versions_zero in Hz as [Hz1%check_hashes_zero Hz2]; [|done].
    apply check_handlers_zero in Hh as (? & ? & ?). apply bootloader_absent_false in Hb.
    apply select_type_zero in Ht as (Hq & t & Ht & ->). split_and!; [done..|].
    exists sw, t. split_and!; [done| |done]. split; try done. by destruct (String.eqb _ _).
  - intros (-> & -> & sw & t & -> & A & ->). cbn [negb Z.eqb].
    rewrite (proj2 (check_handlers_zero sw)) by (split_and!; apply A). cbn [negb Z.eqb].
    rewrite (proj2 (bootloader_absent_false d')) by apply A.
    rewrite (proj2 (select_type_zero sw _)) by (split; [apply A|exists t; split; [apply A|reflexivity]]).
    cbn [negb Z.eqb]. f_equal. apply check_versions_zero. split; [by apply check_hashes_zero, A|].
    pose proof (acc_range _ _ _ A) as Hr. by destruct (String.eqb _ _).
Qed.
End Parse.

(** Without hash verification a description with hashes is refused, but only hashes
    that do not start with a zero byte are seen: the test takes the digest
    for a string. *)
Theorem check_hash_absent_zero_byte (img : img_type) (h : bytes) :
  sha256 img = ascii_of_Z 0 :: h -> check_hash_absent [img] = 0.
Proof. intros H. cbn [check_hash_absent]. by rewrite H. Qed.

(** ** The range of versions: [set_version_range] of [core/stream_interface.c] *)

Definition set_range (minversion maxversion current : option string) (t : swupdate_type_cfg)
  : swupdate_type_cfg :=
  let given s := match s with Some v => negb (strlen v =? 0) | None => false end in
  let field s := strlcpy (default "" s) SWUPDATE_GENERAL_STRING_SIZE in
  mk_type_cfg (type_name t)
    (if given minversion then field minversion else minimum_version t)
    (if given maxversion then field maxversion else maximum_version t)
    (if given current then field current else current_version t)
    (postupdatecmd t) (preupdatecmd t)
    (given minversion || no_downgrading t) (given current || no_reinstalling t)
    (given maxversion || check_max_version t) (type_reboot_enabled t).

(** The configuration found by [swupdate_find_update_type] is changed in place. *)
Fixpoint change_type (f : swupdate_type_cfg -> swupdate_type_cfg) (l : list swupdate_type_cfg)
    (name : string) : option (list swupdate_type_cfg) :=
  match l with
  | [] => None
  | t :: l => if strcmp (type_name t) name =? 0 then Some (f t :: l) else cons t <$> change_type f l name
  end.

Definition set_version_range (types : list swupdate_type_cfg)
    (update_type minversion maxversion current : option string) : Z * list swupdate_type_cfg :=
  let name := match update_type with
              | Some u => if strlen u =? 0 then DEFAULT_TYPE else u
              | None => DEFAULT_TYPE
              end in
  match change_type (set_range minversion maxversion current) types name with
  | None => (- EINVAL, types)
  | Some types => (0, types)
  end.

Lemma change_type_find f l name l' :
  (forall t, type_name (f t) = type_name t) -> change_type f l name = Some l' ->
  exists t, swupdate_find_update_type l name = Some t /\ swupdate_find_update_type l' name = Some (f t).
Proof.
  intros Hf. unfold swupdate_find_update_type. revert l'.
  induction l as [|t l IH]; intros l'; cbn [change_type find]; [done|].
  destruct (strcmp (type_name t) name =? 0) eqn:Ht.
  - intros [= <-]. exists t. cbn [find]. by rewrite Hf, Ht.
  - intros (l1 & H1 & ->)%fmap_Some. cbn [find]. rewrite Ht. by apply IH.
Qed.

(** A range of versions set at run time is enforced: an update that is in the range of
    the type is then not lower than the minimum, not above the maximum and not the
    version given as installed. *)
Theorem set_version_range_enforced (types types' : list swupdate_type_cfg) (u v lo hi cur : string)
    (t : swupdate_type_cfg) :
  Forall (fun s => 0 < strlen s < SWUPDATE_GENERAL_STRING_SIZE) [u; lo; hi; cur] ->
  set_version_range types (Some u) (Some lo) (Some hi) (Some cur) = (0, types') ->
  swupdate_find_update_type types' u = Some t -> in_range v t ->
  0 <= compare_versions v lo /\ compare_versions v hi <= 0 /\ v <> cur.
Proof.
  intros HF. rewrite !Forall_cons in HF. destruct HF as (Hu & Hlo & Hhi & Hcur & _).
  assert (forall s, 0 < strlen s < SWUPDATE_GENERAL_STRING_SIZE -> (strlen s =? 0) = false) as Hz.
  { intros s Hs. apply Z.eqb_neq. lia. }
  unfold set_version_range. rewrite (Hz u) by done.
  destruct (change_type _ types u) as [l'|] eqn:Hc; [|done]. intros [= <-] Hf.
  apply change_type_find in Hc as (t0 & _ & Hf'); [|done].
  rewrite Hf in Hf'. apply (inj Some) in Hf' as ->. intros (R1 & R2 & R3).
  cbn in R1, R2, R3. rewrite !Hz, !strlcpy_fits in * by lia.
  split_and!; [by apply R1|by apply R2|by apply R3].
Qed.

Definition no_limits : swupdate_type_cfg := mk_type_cfg "default" "" "" "" "" "" false false false REBOOT_UNSET.

Lemma set_version_range_enforced_witness :
  0 <= compare_versions "2.0" "1.5" /\ compare_versions "2.0" "3.0" <= 0 /\ "2.0" <> "1.6".
Proof.
  refine (set_version_range_enforced [no_limits] _ "default" "2.0" "1.5" "3.0" "1.6"
    (set_range (Some "1.5") (Some "3.0") (Some "1.6") no_limits) _ _ _ _).
  - repeat constructor.
  - reflexivity.
  - vm_compute. reflexivity.
  - split_and!; vm_compute; intros; discriminate.
Defined.

(** ** An example *)

Definition parse_registry : registry unit :=
  mk_registry [mk_handler "raw" tt 0 IMAGE_HANDLER false] 1 ULONG_MAX.

Definition signed_img : img_type :=
  mk_img (mk_sw_version "rootfs" "2.0" false false) "raw" "root.img" "" "" "" "" "" "" "" "" "" 0
    SKIP_NONE false COMPRESSED_FALSE false false AES_CBC "" "" false false false [] 0 [] 0 0
    (repeat (ascii_of_Z 7) 32).

Definition parsed_cfg : swupdate_cfg :=
  mk_cfg "" "2.0" true true false "" "" false false REBOOT_UNSET [] [no_limits] [signed_img] [] []
    (mk_parms false "" "") no_limits 0 "" "" (mk_hw "" "") [].

Lemma parse_accepts_witness :
  parse parse_registry true false (Some (fun _ _ => 0)) [fun _ _ => (-1, (parsed_cfg, [])); fun _ _ => (0, (parsed_cfg, []))]
    true "/tmp/sw-description" (parsed_cfg, []) =
  (0, (set_update_type no_limits (set_update_type_name "default" parsed_cfg), [])).
Proof.
  apply (proj2 (parse_accepts parse_registry true false (Some (fun _ _ => 0))
    [fun _ _ => (-1, (parsed_cfg, [])); fun _ _ => (0, (parsed_cfg, []))] true "/tmp/sw-description"
    (parsed_cfg, []) (set_update_type no_limits (set_update_type_name "default" parsed_cfg)) [] eq_refl)).
  split; [reflexivity|]. split; [reflexivity|]. exists parsed_cfg, no_limits.
  split; [reflexivity|]. split; [|reflexivity]. split; try (by constructor); try (by left).
  - constructor; [|constructor]. intros _. eexists. split; [vm_compute; reflexivity|done].
  - intros _. split; [|constructor]. constructor; [|constructor]. right. reflexivity.
Defined.

Lemma check_hash_absent_zero_byte_witness :
  let img := mk_img (mk_sw_version "" "" false false) "raw" "a" "" "" "" "" "" "" "" "" "" 0 SKIP_NONE
    false COMPRESSED_FALSE false false AES_CBC "" "" false false false [] 0 [] 0 0
    (ascii_of_Z 0 :: repeat (ascii_of_Z 7) 31) in
  img_hash_valid img = true /\ check_hash_absent [img] = 0.
Proof. split; [vm_compute; reflexivity|]. eapply check_hash_absent_zero_byte. reflexivity. Defined.
