(* ===== verification/Parselib.v ===== *)
(** * Reading configuration trees: [core/parsing_library.c],
    [corelib/parsing_library_libconfig.c], [corelib/parsing_library_libjson.c]

    sw-description is a tree in the syntax of libconfig or of JSON. The rest of the
    program reads it through one set of functions, which dispatch on
    the kind of tree: [parselib] is that set, [libconfig_lib] and [json_lib] are its two
    implementations over the functions of the libraries, which are parameters. An entry can be a
    link to another one, written as a path. *)
From S2P Require Import Prelude CString Util.

Definition MAX_PARSED_NODES : nat := 20.
Definition MAX_LINKS_DEPTH : nat := 10.

(** ** Links *)

Definition SLASH : ascii := "/".

(** The tokens of a link from left to right: [count] is the index in [nodes] where the next
    name is stored. *)
Fixpoint set_path_loop (tokens : list string) (first : bool) (count : nat) (nodes : list string)
  : bool * list string :=
  match tokens with
  | [] => (true, nodes)
  | token :: tokens =>
      if strcmp token ".." =? 0 then
        match count with
        | O => (false, nodes)
        | S count => set_path_loop tokens false count nodes
        end
      else if strcmp token "." =? 0 then set_path_loop tokens false count nodes
      else
        let count := if first then 0%nat else count in
        let nodes := take count nodes ++ [token] in
        if (MAX_PARSED_NODES <=? S count)%nat then (false, nodes)
        else set_path_loop tokens false (S count) nodes
  end.

(** The result and the new path. Allocations succeed. The terminating NULL of a path of
    [MAX_PARSED_NODES] names is written behind the array, just before the depth is refused. *)
Definition set_find_path (nodes : list string) (newpath : option string) : bool * list string :=
  match newpath with
  | Some (String c ref) =>
      if negb (Ascii.eqb c "#") || (strlen (String c ref) <? 3) then (false, nodes)
      else
        let tokens := strtok_all ref SLASH in
        match tokens with
        | [] => (false, nodes)
        | _ => set_path_loop tokens true (length nodes - 1) nodes
        end
  | _ => (false, nodes)
  end.

(** ** The interface *)

(** A tree of kind [R] with nodes [N]; pointers are never NULL here, a function that may
    return NULL has an option. A [path] of [None] is the node itself. [get_field_*] take the
    old value of the destination and return the new one; [iterate_field] gives the arguments
    of the calls of the callback, in order; [find_root] changes the path when it follows a
    link. *)
Record parselib (R N : Type) := mk_parselib {
  get_array_length : N -> nat;
  get_child : N -> string -> option N;
  iterate_field : N -> list (option string * option string);
  get_elem_from_idx : N -> nat -> option N;
  get_field_string : N -> option string -> option string;
  is_field_numeric : N -> option string -> bool;
  is_field_bool : N -> option string -> bool;
  is_field_string : N -> option string -> bool;
  get_field_int : N -> option string -> Z -> Z;
  get_field_int64 : N -> option string -> Z -> Z;
  get_field_bool : N -> option string -> bool -> bool;
  exist_field_string : N -> string -> bool;
  find_root : R -> list string -> option N * list string;
  get_node : R -> list string -> option N;
}.

Arguments get_array_length {R N} _ _.
Arguments get_child {R N} _ _ _.
Arguments iterate_field {R N} _ _.
Arguments get_elem_from_idx {R N} _ _ _.
Arguments get_field_string {R N} _ _ _.
Arguments is_field_numeric {R N} _ _ _.
Arguments is_field_bool {R N} _ _ _.
Arguments is_field_string {R N} _ _ _.
Arguments get_field_int {R N} _ _ _ _.
Arguments get_field_int64 {R N} _ _ _ _.
Arguments get_field_bool {R N} _ _ _ _.
Arguments exist_field_string {R N} _ _ _.
Arguments find_root {R N} _ _ _.
Arguments get_node {R N} _ _ _.

Definition strnlen (s : string) (n : Z) : Z := Z.min (strlen s) n.

(** A string of the tree in a [char] array of [n] bytes, as a C string: [strncpy] and then
    [check_field_string]. [behind] is what the memory holds from the end of the
    array to the next NUL, which is read when the array has none. *)
Definition check_field_string (behind s : string) (n : Z) : string :=
  if strlen s <? n then s
  else if strnlen s SWUPDATE_GENERAL_STRING_SIZE >? n then str_take (Z.to_nat (n - 1)) s
  else str_take (Z.to_nat n) s +:+ behind.

(** [GET_FIELD_STRING]: [old] is what the array held before. *)
Definition get_field_string_with_size {R N} (lib : parselib R N) (behind : string) (e : N)
    (path : option string) (n : Z) (old : string) : string :=
  match get_field_string lib e path with
  | Some s => check_field_string behind s n
  | None => old
  end.

(** The array for the hexadecimal digits is on the stack and set to zero. *)
Definition get_hash_value {R N} (lib : parselib R N) (behind : string) (e : N) (hash : list Z) : list Z :=
  let hash_ascii := get_field_string_with_size lib behind e (Some "sha256") 80 "" in
  (ascii_to_hash hash (Some hash_ascii)).2.

(** ** JSON *)

Inductive json_type := json_type_null | json_type_boolean | json_type_double | json_type_int
  | json_type_object | json_type_array | json_type_string.

#[export] Instance json_type_eq_dec : EqDecision json_type.
Proof. solve_decision. Defined.

(** The functions of json-c on pointers; the pointer NULL, [None], is the JSON value null.
    [json_object_object_get_ex] gives the value when the key was found. *)
Record json_c (J : Type) := mk_json_c {
  json_object_get_type : option J -> json_type;
  json_object_object_get_ex : option J -> string -> option (option J);
  json_object_object_foreach : option J -> list (string * option J);
  json_object_array_length : option J -> nat;
  json_object_array_get_idx : option J -> nat -> option J;
  json_object_get_string : option J -> option string;
  json_object_get_boolean : option J -> bool;
  json_object_get_int : option J -> Z;
}.

Arguments json_object_get_type {J} _ _.
Arguments json_object_object_get_ex {J} _ _ _.
Arguments json_object_object_foreach {J} _ _.
Arguments json_object_array_length {J} _ _.
Arguments json_object_array_get_idx {J} _ _ _.
Arguments json_object_get_string {J} _ _.
Arguments json_object_get_boolean {J} _ _.
Arguments json_object_get_int {J} _ _.

Section Json.
Context {J : Type} (jc : json_c J).
Abbreviation ty := (json_object_get_type jc).
Abbreviation get_ex := (json_object_object_get_ex jc).

(** The node that a path stands for: [None] if the key is absent. *)
Definition json_at (e : J) (path : option string) : option (option J) :=
  match path with
  | Some path => get_ex (Some e) path
  | None => Some (Some e)
  end.

Definition json_has_type (e : J) (path : option string) (p : json_type -> bool) : bool :=
  match json_at e path with Some fld => p (ty fld) | None => false end.

Definition is_field_numeric_json (e : J) (path : option string) : bool :=
  json_has_type e path (fun t => bool_decide (t = json_type_int) || bool_decide (t = json_type_double)).
Definition is_field_bool_json (e : J) (path : option string) : bool :=
  json_has_type e path (fun t => bool_decide (t = json_type_boolean)).
Definition is_field_string_json (e : J) (path : option string) : bool :=
  json_has_type e path (fun t => bool_decide (t = json_type_string)).

Fixpoint find_json_recursive_node (node : option J) (names : list string) : option J :=
  match names with
  | [] => node
  | n :: names =>
      match get_ex node n with
      | Some cnode => find_json_recursive_node cnode names
      | None => None
      end
  end.

Definition get_child_json (e : J) (path : string) : option J :=
  default None (get_ex (Some e) path).

Definition iterate_field_json (e : J) : list (option string * option string) :=
  if bool_decide (ty (Some e) = json_type_object) then
    concat ((fun kv : string * option J =>
      let '(key, node) := kv in
      match ty node with
      | json_type_string => [(Some key, json_object_get_string jc node)]
      | json_type_array =>
          omap (fun i =>
            let subnode := json_object_array_get_idx jc node i in
            if bool_decide (ty subnode = json_type_string)
            then Some (Some key, json_object_get_string jc subnode) else None)
          (seq 0 (json_object_array_length jc node))
      | _ => []
      end) <$> json_object_object_foreach jc (Some e))
  else [].

Definition get_field_string_json (e : J) (path : option string) : option string :=
  match json_at e path with
  | Some node => if bool_decide (ty node = json_type_string) then json_object_get_string jc node else None
  | None => None
  end.

(** [get_field_json] and [get_value_json] for a type of fields and its accessor. *)
Definition get_field_json {A} (expected : json_type) (get : option J -> A) (e : J)
    (path : option string) (dest : A) : A :=
  match json_at e path with
  | Some fld => if bool_decide (ty fld = expected) then get fld else dest
  | None => dest
  end.

Definition get_array_length_json (root : J) : nat :=
  match ty (Some root) with
  | json_type_array => json_object_array_length jc (Some root)
  | json_type_object => 1
  | _ => 0
  end.

Definition get_elem_from_idx_json (node : J) (idx : nat) : option J :=
  if bool_decide (ty (Some node) = json_type_array) then json_object_array_get_idx jc (Some node) idx
  else Some node.

(** [depth] is that of the caller; it is at least 1. *)
Fixpoint find_root_json (depth : nat) (root : J) (nodes : list string) : option J * list string :=
  match depth with
  | O | 1%nat => (None, nodes)
  | S depth =>
      match find_json_recursive_node (Some root) nodes with
      | None => (None, nodes)
      | Some node =>
          if bool_decide (ty (Some node) = json_type_object) || bool_decide (ty (Some node) = json_type_array)
          then
            match get_field_string_json node (Some "ref") with
            | Some str =>
                let '(ok, nodes) := set_find_path nodes (Some str) in
                if ok then find_root_json depth root nodes else (None, nodes)
            | None => (Some node, nodes)
            end
          else (Some node, nodes)
      end
  end.

Definition get_node_json (root : J) (nodes : list string) : option J :=
  find_json_recursive_node (Some root) nodes.

(** Integers of both widths are read with [json_object_get_int]. *)
Definition json_lib : parselib J J := {|
  get_array_length := get_array_length_json;
  get_child := get_child_json;
  iterate_field := iterate_field_json;
  get_elem_from_idx := get_elem_from_idx_json;
  get_field_string := get_field_string_json;
  is_field_numeric := is_field_numeric_json;
  is_field_bool := is_field_bool_json;
  is_field_string := is_field_string_json;
  get_field_int := get_field_json json_type_int (json_object_get_int jc);
  get_field_int64 := get_field_json json_type_int (json_object_get_int jc);
  get_field_bool := get_field_json json_type_boolean (json_object_get_boolean jc);
  exist_field_string e path := bool_decide (is_Some (get_ex (Some e) path));
  find_root := find_root_json MAX_LINKS_DEPTH;
  get_node := get_node_json;
|}.
End Json.

(** ** libconfig *)

Inductive config_type := CONFIG_TYPE_NONE | CONFIG_TYPE_GROUP | CONFIG_TYPE_INT | CONFIG_TYPE_INT64
  | CONFIG_TYPE_FLOAT | CONFIG_TYPE_STRING | CONFIG_TYPE_BOOL | CONFIG_TYPE_ARRAY | CONFIG_TYPE_LIST.

#[export] Instance config_type_eq_dec : EqDecision config_type.
Proof. solve_decision. Defined.

(** The functions of libconfig, on a configuration [R] and its settings [S]. *)
Record libconfig (R S : Type) := mk_libconfig {
  config_lookup : R -> string -> option S;
  config_setting_type : S -> config_type;
  config_setting_length : S -> nat;
  config_setting_name : S -> option string;
  config_setting_get_elem : S -> nat -> option S;
  config_setting_get_member : S -> string -> option S;
  config_setting_lookup : S -> string -> option S;
  config_setting_lookup_string : S -> string -> option string;
  config_setting_get_string : S -> option string;
  config_setting_get_int : S -> Z;
  config_setting_get_int64 : S -> Z;
  config_setting_get_bool : S -> bool;
}.

Arguments config_lookup {R S} _ _ _.
Arguments config_setting_type {R S} _ _.
Arguments config_setting_length {R S} _ _.
Arguments config_setting_name {R S} _ _.
Arguments config_setting_get_elem {R S} _ _ _.
Arguments config_setting_get_member {R S} _ _ _.
Arguments config_setting_lookup {R S} _ _ _.
Arguments config_setting_lookup_string {R S} _ _ _.
Arguments config_setting_get_string {R S} _ _.
Arguments config_setting_get_int {R S} _ _.
Arguments config_setting_get_int64 {R S} _ _.
Arguments config_setting_get_bool {R S} _ _.

Section Libconfig.
Context {R S : Type} (lc : libconfig R S).
Abbreviation ty := (config_setting_type lc).

Definition config_at (e : S) (path : option string) : option S :=
  match path with
  | Some path => config_setting_lookup lc e path
  | None => Some e
  end.

Definition config_has_type (e : S) (path : option string) (p : config_type -> bool) : bool :=
  match config_at e path with Some elem => p (ty elem) | None => false end.

Definition is_field_numeric_cfg (e : S) (path : option string) : bool :=
  config_has_type e path (fun t => bool_decide (t = CONFIG_TYPE_INT) ||
    bool_decide (t = CONFIG_TYPE_INT64) || bool_decide (t = CONFIG_TYPE_FLOAT)).
Definition is_field_bool_cfg (e : S) (path : option string) : bool :=
  config_has_type e path (fun t => bool_decide (t = CONFIG_TYPE_BOOL)).
Definition is_field_string_cfg (e : S) (path : option string) : bool :=
  config_has_type e path (fun t => bool_decide (t = CONFIG_TYPE_STRING)).

(** [entry->name] is the name of the entry; the elements are in range, so never NULL. *)
Definition iterate_field_libconfig (e : S) : list (option string * option string) :=
  concat ((fun i =>
    match config_setting_get_elem lc e i with
    | None => []
    | Some entry =>
        if (config_setting_length lc entry =? 0)%nat
        then [(config_setting_name lc entry, config_setting_get_string lc entry)]
        else omap (fun j =>
               match config_setting_get_elem lc entry j with
               | Some elem => Some (config_setting_name lc entry, config_setting_get_string lc elem)
               | None => None
               end) (seq 0 (config_setting_length lc entry))
    end) <$> seq 0 (config_setting_length lc e)).

Definition get_field_string_libconfig (e : S) (path : option string) : option string :=
  match config_at e path with
  | None => None
  | Some elem =>
      if negb (bool_decide (ty elem = CONFIG_TYPE_STRING)) then None
      else match path with
           | Some path => config_setting_lookup_string lc e path
           | None => config_setting_get_string lc e
           end
  end.

(** [get_field_cfg] and [get_value_libconfig]; the two integer types are accepted for each other. *)
Definition get_field_cfg {A} (expected : list config_type) (get : S -> A) (e : S)
    (path : option string) (dest : A) : A :=
  match config_at e path with
  | Some elem => if bool_decide (ty elem ∈ expected) then get elem else dest
  | None => dest
  end.

Definition get_array_length_libconfig (root : S) : nat :=
  match ty root with
  | CONFIG_TYPE_LIST | CONFIG_TYPE_ARRAY => config_setting_length lc root
  | CONFIG_TYPE_GROUP => 1
  | _ => 0
  end.

Definition get_node_libconfig (cfg : R) (nodes : list string) : option S :=
  match mstrcat nodes (Some ".") with
  | None => None
  | Some root => config_lookup lc cfg root
  end.

Fixpoint find_root_libconfig (depth : nat) (cfg : R) (nodes : list string) : option S * list string :=
  match depth with
  | O | 1%nat => (None, nodes)
  | Datatypes.S depth =>
      match mstrcat nodes (Some ".") with
      | None => (None, nodes)
      | Some root =>
          match config_lookup lc cfg root with
          | None => (None, nodes)
          | Some elem =>
              if bool_decide (ty elem = CONFIG_TYPE_GROUP) then
                match get_field_string_libconfig elem (Some "ref") with
                | Some ref =>
                    let '(ok, nodes) := set_find_path nodes (Some ref) in
                    if ok then find_root_libconfig depth cfg nodes else (None, nodes)
                | None => (Some elem, nodes)
                end
              else (Some elem, nodes)
          end
      end
  end.

Definition libconfig_lib : parselib R S := {|
  get_array_length := get_array_length_libconfig;
  get_child e name := config_setting_get_member lc e name;
  iterate_field := iterate_field_libconfig;
  get_elem_from_idx := config_setting_get_elem lc;
  get_field_string := get_field_string_libconfig;
  is_field_numeric := is_field_numeric_cfg;
  is_field_bool := is_field_bool_cfg;
  is_field_string := is_field_string_cfg;
  get_field_int := get_field_cfg [CONFIG_TYPE_INT; CONFIG_TYPE_INT64] (config_setting_get_int lc);
  get_field_int64 := get_field_cfg [CONFIG_TYPE_INT; CONFIG_TYPE_INT64] (config_setting_get_int64 lc);
  get_field_bool := get_field_cfg [CONFIG_TYPE_BOOL] (config_setting_get_bool lc);
  exist_field_string e path := bool_decide (is_Some (config_setting_lookup_string lc e path));
  find_root := find_root_libconfig MAX_LINKS_DEPTH;
  get_node := get_node_libconfig;
|}.
End Libconfig.

(** * Properties *)

(** ** Links are paths *)

Definition is_name (t : string) : bool := negb (strcmp t ".." =? 0) && negb (strcmp t "." =? 0).

(** A path relative to [base], as in a file system, of less than [MAX_PARSED_NODES] names. *)
Fixpoint resolve (base : list string) (tokens : list string) : option (list string) :=
  match tokens with
  | [] => Some base
  | t :: tokens =>
      if strcmp t ".." =? 0 then
        match base with [] => None | _ => resolve (take (length base - 1) base) tokens end
      else if strcmp t "." =? 0 then resolve base tokens
      else if (MAX_PARSED_NODES <=? S (length base))%nat then None
      else resolve (base ++ [t]) tokens
  end.

(** A link that starts with a name is absolute; other links start at the parent of the entry. *)
Definition link_base (nodes tokens : list string) : list string :=
  match tokens with
  | t :: _ => if is_name t then [] else take (length nodes - 1) nodes
  | [] => nodes
  end.

Lemma set_path_loop_resolve tokens count nodes nodes' :
  (count <= length nodes)%nat -> (tokens = [] -> count = length nodes) ->
  (forall t, last tokens = Some t -> is_name t = true) ->
  set_path_loop tokens false count nodes = (true, nodes') <-> resolve (take count nodes) tokens = Some nodes'.
Proof.
  revert count nodes. induction tokens as [|t tokens IH]; intros count nodes Hc He Hl.
  { cbn. rewrite take_ge by (rewrite He; done). naive_solver. }
  assert (forall t', last tokens = Some t' -> is_name t' = true) as Hl'.
  { intros t' H'. apply Hl. rewrite last_cons, H'. done. }
  assert (tokens = [] -> is_name t = true) as Hn by (intros ->; by apply Hl).
  cbn [set_path_loop resolve]. unfold is_name in Hn.
  destruct (strcmp t ".." =? 0) eqn:E1; [|destruct (strcmp t "." =? 0) eqn:E2].
  - destruct count as [|count]; [done|].
    rewrite (IH count nodes) by first [lia | intros ->; by specialize (Hn eq_refl) | done].
    rewrite length_take, take_take. replace (Init.Nat.min (Init.Nat.min (S count) (length nodes) - 1) (S count)) with count by lia.
    destruct nodes as [|n nodes]; [cbn in Hc; lia|]. done.
  - apply IH; [done| |done]. intros ->. by specialize (Hn eq_refl).
  - rewrite length_take. replace (Init.Nat.min count (length nodes)) with count by lia.
    destruct (MAX_PARSED_NODES <=? S count)%nat; [done|].
    assert (length (take count nodes ++ [t]) = S count) as Hlen by (rewrite length_app, length_take; cbn; lia).
    rewrite IH by first [lia | done]. by rewrite (take_ge _ (S count)) by lia.
Qed.

(** A link in sw-description is resolved like a path: from the parent of the entry if it starts
    with "." or "..", from the root otherwise, each ".." going up one level and
    failing at the root, for links that end with a name and paths that fit. *)
Theorem set_find_path_resolves (nodes nodes' : list string) (ref : string) :
  nodes <> [] -> 2 <= strlen ref ->
  (forall t, last (strtok_all ref SLASH) = Some t -> is_name t = true) -> strtok_all ref SLASH <> [] ->
  set_find_path nodes (Some (String "#" ref)) = (true, nodes') <->
  resolve (link_base nodes (strtok_all ref SLASH)) (strtok_all ref SLASH) = Some nodes'.
Proof.
  intros Hn Hs Hl Ht. unfold set_find_path.
  rewrite strlen_cons. destruct (Z.ltb_spec (1 + strlen ref) 3); [lia|]. cbn [Ascii.eqb negb orb Bool.eqb andb].
  destruct (strtok_all ref SLASH) as [|t tokens] eqn:E; [done|].
  unfold link_base. destruct (is_name t) eqn:Hi.
  - assert (set_path_loop (t :: tokens) true (length nodes - 1) nodes
            = set_path_loop (t :: tokens) false 0 nodes) as ->.
    { unfold is_name in Hi. apply andb_true_iff in Hi as [H1 H2]. apply negb_true_iff in H1, H2.
      cbn [set_path_loop]. by rewrite H1, H2. }
    rewrite set_path_loop_resolve by first [lia | done]. done.
  - assert (set_path_loop (t :: tokens) true (length nodes - 1) nodes
            = set_path_loop (t :: tokens) false (length nodes - 1) nodes) as ->.
    { unfold is_name in Hi. apply andb_false_iff in Hi as [H1|H1]; apply negb_false_iff in H1;
      cbn [set_path_loop]; rewrite H1; [done|]. by destruct (strcmp t ".." =? 0). }
    apply set_path_loop_resolve; [lia|done|done].
Qed.

Lemma set_find_path_resolves_witness :
  set_find_path ["software"; "board"; "images"] (Some "#./../common/images") =
  (true, ["software"; "common"; "images"]).
Proof.
  apply (proj2 (set_find_path_resolves ["software"; "board"; "images"] ["software"; "common"; "images"]
    "./../common/images" ltac:(discriminate) ltac:(vm_compute; discriminate)
    ltac:(intros t Ht; vm_compute in Ht; injection Ht as <-; reflexivity) ltac:(vm_compute; discriminate))).
  reflexivity.
Defined.

(** A link of dots alone, which should name a parent, leaves the path as it is: the entry is
    its own target. *)
Lemma link_of_dots nodes : (2 <= length nodes)%nat -> set_find_path nodes (Some "#./..") = (true, nodes).
Proof.
  intros H. unfold set_find_path.
  change (strtok_all "./.." SLASH) with ["."; ".."]. cbn.
  destruct nodes as [|a [|b nodes]]; cbn in *; try lia. done.
Qed.

(** ** What the parser relies on *)

(** An entry found by [find_root] is no link, and the path it returns is where it is;
    an entry that is no link is found where it is. *)
Class ParselibSpec {R N : Type} (lib : parselib R N) : Prop := {
  find_root_sound root nodes node nodes' :
    find_root lib root nodes = (Some node, nodes') ->
    get_node lib root nodes' = Some node /\ get_field_string lib node (Some "ref") = None;
  find_root_direct root nodes node :
    get_node lib root nodes = Some node -> get_field_string lib node (Some "ref") = None ->
    find_root lib root nodes = (Some node, nodes);
  find_root_absent root nodes : get_node lib root nodes = None -> find_root lib root nodes = (None, nodes);
  get_node_prefix root nodes field :
    nodes <> [] -> is_Some (get_node lib root (nodes ++ [field])) -> is_Some (get_node lib root nodes);
}.

(** json-c: NULL is the value null; only objects have members; integers are read as [int32_t],
    saturated. *)
Class JsonSpec {J : Type} (jc : json_c J) : Prop := {
  json_null_type : json_object_get_type jc None = json_type_null;
  json_member_object e k v :
    json_object_object_get_ex jc e k = Some v -> json_object_get_type jc e = json_type_object;
  json_int_range e : - 2 ^ 31 <= json_object_get_int jc e < 2 ^ 31;
}.

(** libconfig: names are looked up in groups; a path without its last name leads to a
    setting if the path does. *)
Class LibconfigSpec {R S : Type} (lc : libconfig R S) : Prop := {
  config_member_group e v :
    config_setting_lookup lc e "ref" = Some v -> config_setting_type lc e = CONFIG_TYPE_GROUP;
  config_lookup_prefix cfg path field :
    is_Some (config_lookup lc cfg (path +:+ "." +:+ field)) -> is_Some (config_lookup lc cfg path);
}.

Section JsonLaws.
Context {J : Type} (jc : json_c J) `{!JsonSpec jc}.

Lemma json_ref_container node str :
  get_field_string_json jc node (Some "ref") = Some str ->
  json_object_get_type jc (Some node) = json_type_object.
Proof.
  unfold get_field_string_json. cbn [json_at].
  destruct (json_object_object_get_ex jc (Some node) "ref") as [v|] eqn:E; [|done].
  intros _. by eapply json_member_object.
Qed.

Lemma find_root_json_sound depth root nodes node nodes' :
  find_root_json jc depth root nodes = (Some node, nodes') ->
  get_node_json jc root nodes' = Some node /\ get_field_string_json jc node (Some "ref") = None.
Proof.
  revert nodes. induction depth as [|[|depth] IH]; intros nodes; [done..|].
  change (find_root_json jc (S (S depth)) root nodes) with
    (match find_json_recursive_node jc (Some root) nodes with
     | None => (None, nodes)
     | Some node =>
          if bool_decide (json_object_get_type jc (Some node) = json_type_object) ||
             bool_decide (json_object_get_type jc (Some node) = json_type_array)
          then
            match get_field_string_json jc node (Some "ref") with
            | Some str =>
                let '(ok, nodes) := set_find_path nodes (Some str) in
                if ok then find_root_json jc (S depth) root nodes else (None, nodes)
            | None => (Some node, nodes)
            end
          else (Some node, nodes)
     end).
  destruct (find_json_recursive_node jc (Some root) nodes) as [n|] eqn:E; [|done].
  destruct (get_field_string_json jc n (Some "ref")) as [str|] eqn:Er.
  - rewrite (json_ref_container _ _ Er). cbn [bool_decide orb].
    destruct (set_find_path nodes (Some str)) as [[] nodes2]; [apply IH|done].
  - case_if; intros [= <- <-]; done.
Qed.

Lemma find_json_app node names field :
  find_json_recursive_node jc node (names ++ [field]) =
  match find_json_recursive_node jc node names with
  | Some e => default None (json_object_object_get_ex jc (Some e) field)
  | None => None
  end.
Proof.
  revert node. induction names as [|n names IH]; intros node; cbn.
  - destruct node as [e|]; [by destruct (json_object_object_get_ex jc (Some e) field)|].
    destruct (json_object_object_get_ex jc None field) as [v|] eqn:E; [|done].
    apply json_member_object in E. by rewrite json_null_type in E.
  - destruct (json_object_object_get_ex jc node n); [apply IH|done].
Qed.

#[export] Instance json_lib_spec : ParselibSpec (json_lib jc).
Proof.
  split.
  - intros root nodes node nodes'. apply find_root_json_sound.
  - intros root nodes node Hn Hr. cbn in *. unfold get_node_json in Hn. rewrite Hn, Hr. by case_if.
  - intros root nodes Hn. cbn in *. unfold get_node_json in Hn. by rewrite Hn.
  - intros root nodes field _ [v Hv]. cbn in *. unfold get_node_json in *.
    rewrite find_json_app in Hv. by destruct (find_json_recursive_node jc (Some root) nodes).
Qed.
End JsonLaws.

Section LibconfigLaws.
Context {R S : Type} (lc : libconfig R S) `{!LibconfigSpec lc}.

Lemma config_ref_group e str :
  get_field_string_libconfig lc e (Some "ref") = Some str -> config_setting_type lc e = CONFIG_TYPE_GROUP.
Proof.
  unfold get_field_string_libconfig. cbn [config_at].
  destruct (config_setting_lookup lc e "ref") as [v|] eqn:E; [|done].
  intros _. by eapply config_member_group.
Qed.

Lemma find_root_libconfig_sound depth root nodes node nodes' :
  find_root_libconfig lc depth root nodes = (Some node, nodes') ->
  get_node_libconfig lc root nodes' = Some node /\ get_field_string_libconfig lc node (Some "ref") = None.
Proof.
  revert nodes. induction depth as [|[|depth] IH]; intros nodes; [done..|].
  change (find_root_libconfig lc (Datatypes.S (Datatypes.S depth)) root nodes) with
    (match mstrcat nodes (Some ".") with
     | None => (None, nodes)
     | Some path =>
          match config_lookup lc root path with
          | None => (None, nodes)
          | Some elem =>
              if bool_decide (config_setting_type lc elem = CONFIG_TYPE_GROUP) then
                match get_field_string_libconfig lc elem (Some "ref") with
                | Some ref =>
                    let '(ok, nodes) := set_find_path nodes (Some ref) in
                    if ok then find_root_libconfig lc (Datatypes.S depth) root nodes else (None, nodes)
                | None => (Some elem, nodes)
                end
              else (Some elem, nodes)
          end
     end).
  destruct (mstrcat nodes (Some ".")) as [path|] eqn:Em; [|done].
  destruct (config_lookup lc root path) as [e|] eqn:Ec; [|done].
  destruct (get_field_string_libconfig lc e (Some "ref")) as [str|] eqn:Er.
  - rewrite (config_ref_group _ _ Er). cbn [bool_decide].
    destruct (set_find_path nodes (Some str)) as [[] nodes2]; [apply IH|done].
  - case_if; intros [= <- <-]; unfold get_node_libconfig; by rewrite Em.
Qed.

Lemma mstrcat_snoc nodes field d :
  mstrcat (nodes ++ [field]) d =
  Some (match mstrcat nodes d with Some s => s +:+ default "" d +:+ field | None => field end).
Proof. unfold mstrcat. rewrite foldl_app. cbn. by destruct (foldl _ None nodes). Qed.

Lemma mstrcat_nonempty nodes d : nodes <> [] -> is_Some (mstrcat nodes d).
Proof. intros Hn. destruct nodes as [|n nodes _] using rev_ind; [done|]. by rewrite mstrcat_snoc. Qed.

#[export] Instance libconfig_lib_spec : ParselibSpec (libconfig_lib lc).
Proof.
  split.
  - intros root nodes node nodes'. apply find_root_libconfig_sound.
  - intros root nodes node Hn Hr. cbn in *. unfold get_node_libconfig in Hn.
    destruct (mstrcat nodes (Some ".")); [|done]. rewrite Hn, Hr. by case_if.
  - intros root nodes Hn. cbn in *. unfold get_node_libconfig in Hn.
    destruct (mstrcat nodes (Some ".")); [|done]. by rewrite Hn.
  - intros root nodes field Hn Hv. cbn in *. unfold get_node_libconfig in *. rewrite mstrcat_snoc in Hv.
    destruct (mstrcat_nonempty nodes (Some ".") Hn) as [s Hs]. rewrite Hs in *.
    by apply config_lookup_prefix in Hv.
Qed.
End LibconfigLaws.

(** Whatever chain of links is followed, at most eight, the entry that [find_root] returns is not
    itself a link, and the path it leaves is where the entry is found; for both
    syntaxes. *)
Theorem find_root_links {J : Type} (jc : json_c J) {R S : Type} (lc : libconfig R S)
    `{!JsonSpec jc} `{!LibconfigSpec lc} :
  (forall root nodes node nodes', find_root (json_lib jc) root nodes = (Some node, nodes') ->
     get_node (json_lib jc) root nodes' = Some node /\
     get_field_string (json_lib jc) node (Some "ref") = None) /\
  (forall root nodes node nodes', find_root (libconfig_lib lc) root nodes = (Some node, nodes') ->
     get_node (libconfig_lib lc) root nodes' = Some node /\
     get_field_string (libconfig_lib lc) node (Some "ref") = None).
Proof. split; intros root; [exact (find_root_json_sound jc _ root)|exact (find_root_libconfig_sound lc _ root)]. Qed.

(** ** Concrete trees *)

(** JSON values other than null. *)
#[local] Set Warnings "-register-all".
Inductive jnode :=
  | JBool (b : bool) | JInt (z : Z) | JString (s : string)
  | JArray (l : list (option jnode)) | JObject (l : list (string * option jnode)).

Definition jtype (e : option jnode) : json_type :=
  match e with
  | None => json_type_null
  | Some (JBool _) => json_type_boolean
  | Some (JInt _) => json_type_int
  | Some (JString _) => json_type_string
  | Some (JArray _) => json_type_array
  | Some (JObject _) => json_type_object
  end.

Fixpoint assoc_find {A} (l : list (string * A)) (k : string) : option A :=
  match l with
  | [] => None
  | (k', v) :: l => if String.eqb k k' then Some v else assoc_find l k
  end.

Definition jnode_json : json_c jnode := {|
  json_object_get_type := jtype;
  json_object_object_get_ex e k := match e with Some (JObject l) => assoc_find l k | _ => None end;
  json_object_object_foreach e := match e with Some (JObject l) => l | _ => [] end;
  json_object_array_length e := match e with Some (JArray l) => length l | _ => 0%nat end;
  json_object_array_get_idx e i := match e with Some (JArray l) => default None (l !! i) | _ => None end;
  json_object_get_string e := match e with Some (JString s) => Some s | _ => None end;
  json_object_get_boolean e := match e with Some (JBool b) => b | _ => false end;
  json_object_get_int e :=
    match e with Some (JInt z) => Z.max (- 2 ^ 31) (Z.min z (2 ^ 31 - 1)) | _ => 0 end;
|}.

#[export] Instance jnode_json_spec : JsonSpec jnode_json.
Proof.
  split; [done| |].
  - intros e k v. cbn. by destruct e as [[]|].
  - intros e. cbn. destruct e as [[]|]; lia.
Qed.

(** Settings of libconfig, with their names. *)
Inductive cnode :=
  | CBool (b : bool) | CInt (z : Z) | CString (s : string)
  | CList (l : list cnode) | CGroup (l : list (string * cnode)).

Definition csetting : Type := option string * cnode.

Definition ctype (e : csetting) : config_type :=
  match e.2 with
  | CBool _ => CONFIG_TYPE_BOOL
  | CInt _ => CONFIG_TYPE_INT
  | CString _ => CONFIG_TYPE_STRING
  | CList _ => CONFIG_TYPE_LIST
  | CGroup _ => CONFIG_TYPE_GROUP
  end.

Definition cmember (e : csetting) (k : string) : option csetting :=
  match e.2 with CGroup l => pair (Some k) <$> assoc_find l k | _ => None end.

(** Elements of lists, and of groups, by their index. *)
Definition celem (e : csetting) (i : nat) : option csetting :=
  match e.2 with
  | CList l => pair None <$> l !! i
  | CGroup l => (fun kv => (Some kv.1, kv.2)) <$> l !! i
  | _ => None
  end.

(** Paths are names separated by dots. *)
Fixpoint clookup (e : csetting) (names : list string) : option csetting :=
  match names with
  | [] => Some e
  | n :: names => match cmember e n with Some e => clookup e names | None => None end
  end.

Definition cstring (e : csetting) : option string :=
  match e.2 with CString s => Some s | _ => None end.

Definition cnode_libconfig : libconfig csetting csetting := {|
  config_lookup cfg path := clookup cfg (split_on "." path);
  config_setting_type := ctype;
  config_setting_length e := match e.2 with CList l => length l | CGroup l => length l | _ => 0%nat end;
  config_setting_name e := e.1;
  config_setting_get_elem := celem;
  config_setting_get_member := cmember;
  config_setting_lookup e path := clookup e (split_on "." path);
  config_setting_lookup_string e path :=
    match clookup e (split_on "." path) with Some v => cstring v | None => None end;
  config_setting_get_string := cstring;
  config_setting_get_int e := match e.2 with CInt z => z | _ => 0 end;
  config_setting_get_int64 e := match e.2 with CInt z => z | _ => 0 end;
  config_setting_get_bool e := match e.2 with CBool b => b | _ => false end;
|}.

Lemma clookup_app e l1 l2 :
  clookup e (l1 ++ l2) = match clookup e l1 with Some e => clookup e l2 | None => None end.
Proof. revert e. induction l1 as [|n l1 IH]; intros e; cbn; [done|]. by destruct (cmember e n). Qed.

#[export] Instance cnode_libconfig_spec : LibconfigSpec cnode_libconfig.
Proof.
  split.
  - intros [n e] v. change (config_setting_lookup cnode_libconfig (n, e) "ref") with (clookup (n, e) ["ref"]).
    by destruct e.
  - intros cfg path field. cbn.
    assert (split_on "." (path +:+ "." +:+ field) = split_on "." path ++ split_on "." field) as ->
      by apply split_on_joined.
    rewrite clookup_app. by destruct (clookup cfg (split_on "." path)).
Qed.

(** The same description in both syntaxes: [board] takes its images from [common]. *)
Definition sample_json : jnode :=
  JObject [("software", Some (JObject
    [("board", Some (JObject [("images", Some (JObject [("ref", Some (JString "#./../common"))]))]));
     ("common", Some (JArray [Some (JString "image")]))]))].
Definition sample_config : csetting :=
  (None, CGroup [("software", CGroup
    [("board", CGroup [("images", CGroup [("ref", CString "#./../common")])]);
     ("common", CList [CString "image"])])]).

Lemma find_root_links_witness :
  find_root (json_lib jnode_json) sample_json ["software"; "board"; "images"] =
    (Some (JArray [Some (JString "image")]), ["software"; "common"]) /\
  get_node (json_lib jnode_json) sample_json ["software"; "common"] = Some (JArray [Some (JString "image")]) /\
  find_root (libconfig_lib cnode_libconfig) sample_config ["software"; "board"; "images"] =
    (Some (Some "common", CList [CString "image"]), ["software"; "common"]) /\
  get_node (libconfig_lib cnode_libconfig) sample_config ["software"; "common"] =
    Some (Some "common", CList [CString "image"]).
Proof.
  pose proof (find_root_links jnode_json cnode_libconfig) as [Hj Hc].
  split; [reflexivity|]. split; [apply (Hj sample_json ["software"; "board"; "images"]); reflexivity|].
  split; [reflexivity|]. apply (Hc sample_config ["software"; "board"; "images"]). reflexivity.
Defined.
