(* ===== verification/Settings.v ===== *)
(** * Settings from the configuration file: [corelib/swupdate_settings.c] and [channel_settings] of [corelib/server_utils.c]

    A module of the program reads its own node of the configuration, by a callback. Here are the callbacks that are shared: a list of
    names and values becomes a dictionary, a process gets the user it runs as, a channel gets its options. The tree is read by
    [Parselib]; the strings pass through arrays of fixed size. *)
From S2P Require Import Prelude CString Util Dict Parselib.

(** What libconfig documents: a string is looked up only where the setting is a string. *)
Class TypedStrings {R S} (lc : libconfig R S) := {
  lookup_string_typed e path s : config_setting_lookup_string lc e path = Some s ->
    exists elem, config_setting_lookup lc e path = Some elem /\ config_setting_type lc elem = CONFIG_TYPE_STRING;
}.

(** [struct run_as]. *)
Record run_as := mk_run_as {
  userid : Z;
  groupid : Z;
}.

(** The options of [channel_data_t] that the configuration sets. *)
Record channel_options := mk_channel_options {
  co_retries : Z;
  co_max_download_speed : Z;
  co_retry_sleep : Z;
  co_strictssl : bool;
  co_cafile : option string;
  co_sslkey : option string;
  co_sslkeypassword : option string;
  co_ciphers : option string;
  co_sslcert : option string;
  co_proxy : option string;
  co_iface : option string;
  co_api_key_header : option string;
  co_api_key : option string;
}.

Section Settings.
Context {R S : Type} (lc : libconfig R S).
(** What the memory holds behind an array, up to the next NUL. *)
Context (behind : string).
Abbreviation lib := (libconfig_lib lc).
Abbreviation str_field := (get_field_string_with_size lib behind).

(** The path is printed into an array of 1024 bytes. *)
Definition find_settings_node (cfg : R) (field : option string) : option S :=
  match field with
  | None => None
  | Some field => config_lookup lc cfg (str_take 1023 field)
  end.

(** The callback maps its data to what it leaves there. *)
Definition read_module_settings {D} (handle : option R) (module : string) (fcn : option (S -> D -> D)) (data : D) : Z * D :=
  match handle, fcn with
  | Some cfg, Some fcn =>
      match find_settings_node cfg (Some module) with
      | None => (- ENODATA, data)
      | Some elem => (0, fcn elem data)
      end
  | _, _ => (- EINVAL, data)
  end.

(** The identifiers are unsigned, the fields of the file [int]. *)
Definition get_run_as (getgrnam getpwnam : string -> option Z) (elem : S) (pid : run_as) : run_as :=
  let uid := u32 (get_field_int lib elem (Some "userid") (i32 (userid pid))) in
  let gid := u32 (get_field_int lib elem (Some "groupid") (i32 (groupid pid))) in
  let named (id : Z) (field : string) (find : string -> option Z) : Z :=
    if negb (id =? 0) then id
    else
      let tmp := str_field elem (Some field) SWUPDATE_GENERAL_STRING_SIZE "" in
      if strlen tmp =? 0 then id else match find tmp with Some id => id | None => id end in
  mk_run_as (named uid "user" getpwnam) (named gid "group" getgrnam).

(** The process runs as [uid] and [gid]. *)
Definition read_settings_user_id (getgrnam getpwnam : string -> option Z) (uid gid : Z) (handle : option R) (module : string)
    : Z * run_as :=
  let ids := mk_run_as uid gid in
  match read_module_settings handle module (Some (get_run_as getgrnam getpwnam)) ids with
  | (0, ids) => (0, ids)
  | _ => (- EINVAL, ids)
  end.

(** The loop over a list of groups: [key] and [val] are the names of two fields, [name] and [value] what the arrays hold. [mem] tells
    whether the memory for the entry and for its value is there. *)
Fixpoint table_into_dict (mem : nat -> bool * bool) (key val : string) (elems : list (option S)) (n : nat) (name value : string)
    (dictionary : dict) : dict :=
  match elems with
  | [] => dictionary
  | None :: elems => table_into_dict mem key val elems n name value dictionary
  | Some elem :: elems =>
      if negb (exist_field_string lib elem key) then table_into_dict mem key val elems n name value dictionary
      else if negb (exist_field_string lib elem val) then table_into_dict mem key val elems n name value dictionary
      else
        let name := str_field elem (Some key) 80 name in
        let value := str_field elem (Some val) 80 value in
        table_into_dict mem key val elems (n + 1) name value
          (dict_set_value (mem n).1 (mem n).2 dictionary name value).2
  end.

Definition elements (settings : S) : list (option S) :=
  get_elem_from_idx lib settings <$> seq 0 (get_array_length lib settings).

Definition settings_into_dict (mem : nat -> bool * bool) (name value : string) (settings : S) (data : dict) : dict :=
  table_into_dict mem "name" "value" (elements settings) 0 name value data.

(** A string that replaces the old one unless it is empty. *)
Definition set_field (elem : S) (field : string) (old : option string) : option string :=
  let tmp := str_field elem (Some field) 128 "" in if strlen tmp =? 0 then old else Some tmp.

(** [tmp_bool] is what the variable holds before. *)
Definition channel_settings (tmp_bool : bool) (elem : S) (chan : channel_options) : channel_options :=
  let text (field : string) := str_field elem (Some field) 128 "" in
  mk_channel_options
    (u32 (get_field_int lib elem (Some "retry") (i32 (co_retries chan))))
    (if strlen (text "max-download-speed") =? 0 then co_max_download_speed chan
     else u32 (ustrtoull (text "max-download-speed") 10).1.1)
    (if strlen (text "retrywait") =? 0 then co_retry_sleep chan else u32 (strtoul (text "retrywait") 10))
    (negb (get_field_bool lib elem (Some "nocheckcert") tmp_bool))
    (set_field elem "cafile" (co_cafile chan))
    (set_field elem "sslkey" (co_sslkey chan))
    (set_field elem "sslkeypassword" (co_sslkeypassword chan))
    (set_field elem "ciphers" (co_ciphers chan))
    (set_field elem "sslcert" (co_sslcert chan))
    (set_field elem "proxy" (co_proxy chan))
    (set_field elem "interface" (co_iface chan))
    (set_field elem "api_key_header" (co_api_key_header chan))
    (set_field elem "api_key" (co_api_key chan)).

(** * Properties *)

(** ** Dictionaries *)

(** The pairs of a list: the elements that have both strings. *)
Definition table_pairs (key val : string) (elems : list (option S)) : list (string * string) :=
  omap (fun e => e ← e; k ← config_setting_lookup_string lc e key; v ← config_setting_lookup_string lc e val;
                 Some (check_field_string behind k 80, check_field_string behind v 80)) elems.

Lemma str_field_lookup `{!TypedStrings lc} e path s n old :
  config_setting_lookup_string lc e path = Some s -> str_field e (Some path) n old = check_field_string behind s n.
Proof.
  intros E. unfold get_field_string_with_size. cbn. unfold get_field_string_libconfig, config_at.
  destruct (lookup_string_typed _ _ _ E) as (elem & -> & Ht). by rewrite bool_decide_eq_true_2, E by done.
Qed.

Lemma exist_lookup e path : exist_field_string lib e path = bool_decide (is_Some (config_setting_lookup_string lc e path)).
Proof. done. Qed.

Lemma table_pairs_cons key val e elems :
  table_pairs key val (Some e :: elems) =
    match config_setting_lookup_string lc e key, config_setting_lookup_string lc e val with
    | Some k, Some v => (check_field_string behind k 80, check_field_string behind v 80) :: table_pairs key val elems
    | _, _ => table_pairs key val elems
    end.
Proof.
  unfold table_pairs. cbn. destruct (config_setting_lookup_string lc e key); [|done]. cbn.
  by destruct (config_setting_lookup_string lc e val).
Qed.

Lemma table_into_dict_map `{!TypedStrings lc} key val elems n name value d :
  dict_ok d -> dict_ok (table_into_dict mem_ok key val elems n name value d) /\
  dict_abs (table_into_dict mem_ok key val elems n name value d) =
    foldl (fun m p => map_set p.1 p.2 m) (dict_abs d) (table_pairs key val elems).
Proof.
  revert n name value d. induction elems as [|[e|] elems IH]; intros n name value d Hd; [done| |by apply IH].
  cbn [table_into_dict]. rewrite !exist_lookup, table_pairs_cons.
  destruct (config_setting_lookup_string lc e key) as [k|] eqn:Ek;
    [|rewrite bool_decide_eq_false_2 by (by intros []); by apply IH].
  rewrite bool_decide_eq_true_2 by done. cbn [negb].
  destruct (config_setting_lookup_string lc e val) as [v|] eqn:Ev;
    [|rewrite bool_decide_eq_false_2 by (by intros []); by apply IH].
  rewrite bool_decide_eq_true_2 by done. cbn [negb]. rewrite (str_field_lookup _ _ _ _ _ Ek), (str_field_lookup _ _ _ _ _ Ev).
  edestruct IH as [H1 H2]; [by apply dict_set_value_ok|]. split; [exact H1|]. rewrite H2. cbn [foldl fst snd mem_ok]. by rewrite dict_set_value_abs.
Qed.

(** The section of the configuration is the dictionary: every group with a name and a value sets the value of the name, the last one
    counts, everything else stays, and other elements are ignored. *)
Theorem settings_into_dict_map `{!TypedStrings lc} (name value : string) (settings : S) (d : dict) :
  dict_ok d ->
  dict_abs (settings_into_dict mem_ok name value settings d) =
    foldl (fun m p => map_set p.1 p.2 m) (dict_abs d) (table_pairs "name" "value" (elements settings)).
Proof. intros Hd. by apply table_into_dict_map. Qed.

(** ** The user *)

(** A process of the superuser whose configuration names an unknown user keeps running as the superuser, and reading the settings
    succeeds. *)
Theorem unknown_user_stays_root (getgrnam getpwnam : string -> option Z) (gid : Z) (cfg : R) (module : string) (elem : S) :
  find_settings_node cfg (Some module) = Some elem -> config_setting_lookup lc elem "userid" = None ->
  getpwnam (str_field elem (Some "user") SWUPDATE_GENERAL_STRING_SIZE "") = None ->
  exists group, read_settings_user_id getgrnam getpwnam 0 gid (Some cfg) module = (0, mk_run_as 0 group).
Proof.
  intros Hn Hu Hp. unfold read_settings_user_id, read_module_settings. rewrite Hn. unfold get_run_as.
  assert (u32 (get_field_int lib elem (Some "userid") (i32 0)) = 0) as Eu.
  { cbn. unfold get_field_cfg, config_at. by rewrite Hu. }
  cbn [userid groupid]. rewrite Eu. cbn [negb Z.eqb]. rewrite Hp.
  eexists. f_equal. f_equal. by destruct (strlen _ =? 0).
Qed.

(** ** The channel *)

(** With [nocheckcert] in the configuration, the server is verified if and only if it is false. *)
Theorem nocheckcert_obeyed (tmp_bool : bool) (elem v : S) (chan : channel_options) :
  config_setting_lookup lc elem "nocheckcert" = Some v -> config_setting_type lc v = CONFIG_TYPE_BOOL ->
  co_strictssl (channel_settings tmp_bool elem chan) = negb (config_setting_get_bool lc v).
Proof.
  intros Hl Ht. cbn. unfold get_field_cfg, config_at. rewrite Hl, bool_decide_eq_true_2; [done|]. rewrite Ht. apply list_elem_of_here.
Qed.

(** Without it, whether the server is verified is what the uninitialised variable happens to hold: the default of the connector is
    lost. *)
Theorem unset_nocheckcert_undefined (elem : S) (chan : channel_options) :
  config_setting_lookup lc elem "nocheckcert" = None ->
  forall strict, exists tmp_bool, co_strictssl (channel_settings tmp_bool elem chan) = strict.
Proof.
  intros Hl strict. exists (negb strict). cbn. unfold get_field_cfg, config_at. rewrite Hl. apply negb_involutive.
Qed.
End Settings.

(** ** Examples *)

#[export] Instance cnode_typed_strings : TypedStrings cnode_libconfig.
Proof.
  split. intros e path s. cbn. destruct (clookup e (split_on "." path)) as [[n v]|]; [|done]. intros E.
  exists (n, v). split; [done|]. by destruct v.
Qed.

Definition identify_group (name value : string) : cnode := CGroup [("name", CString name); ("value", CString value)].

Definition sample_settings : csetting :=
  (None, CGroup
    [("globals", CGroup [("user", CString "nobody-such"); ("groupid", CInt 100)]);
     ("identify", CList [identify_group "serial" "17"; CGroup [("name", CString "lonely")]; identify_group "fw" "1.0";
                         identify_group "serial" "18"]);
     ("gservice", CGroup
       [("url", CString "https://server/poll"); ("logurl", CString "https://server/log"); ("polldelay", CInt 60); ("retry", CInt 5);
        ("logevent", CList [CGroup [("event", CString "started"); ("format", CString "#12,date,fw,hw")];
                            CGroup [("event", CString "success"); ("format", CString "#13,fw,serial")]])])]).

Definition sample_identify : csetting := (Some "identify", CList
  [identify_group "serial" "17"; CGroup [("name", CString "lonely")]; identify_group "fw" "1.0"; identify_group "serial" "18"]).

Lemma settings_into_dict_map_witness :
  dict_abs (settings_into_dict cnode_libconfig "" mem_ok "" "" sample_identify []) =
    <["serial" := ["18"]]> (<["fw" := ["1.0"]]> (<["serial" := ["17"]]> ∅)).
Proof. rewrite (settings_into_dict_map cnode_libconfig "" "" "" sample_identify []); [reflexivity|constructor]. Defined.

Lemma unknown_user_stays_root_witness :
  exists group, read_settings_user_id cnode_libconfig "" (fun _ => None) (fun _ => None) 0 0 (Some sample_settings) "globals" =
    (0, mk_run_as 0 group).
Proof. by eapply (unknown_user_stays_root cnode_libconfig "" (fun _ => None) (fun _ => None) 0 sample_settings "globals"). Defined.

(** The defaults of a connector. *)
Definition default_options : channel_options :=
  mk_channel_options 5 0 5 true None None None None None None None None None.

Lemma nocheckcert_obeyed_witness :
  co_strictssl (channel_settings cnode_libconfig "" true (None, CGroup [("nocheckcert", CBool false)]) default_options) = true.
Proof. by apply (nocheckcert_obeyed cnode_libconfig "" true _ (Some "nocheckcert", CBool false)). Defined.

Lemma unset_nocheckcert_undefined_witness :
  exists tmp_bool, co_strictssl (channel_settings cnode_libconfig "" tmp_bool (None, CGroup [("retry", CInt 3)]) default_options) = false.
Proof. by apply (unset_nocheckcert_undefined cnode_libconfig ""). Defined.
