(* ===== verification/Swdesc.v ===== *)
(** * The parser of sw-description: [parser/parser.c]

    The description is a tree ([Parselib]). Its entries can be given for a board, for a
    selection of software and mode, for both, or for all; the most specific one is used. Each
    section is a list whose elements are read into the records of [Image], in the order
    of the description; an element can be a link to a list that is read in its
    place. *)
From stdpp Require Import relations.
From S2P Require Import Prelude CString Util Versions Dict Handler Crypto Keys Cpio Image.
From S2P Require Import Installer Parse Parselib.

Definition MAX_VOLNAME : Z := SWUPDATE_GENERAL_STRING_SIZE.
Definition MAX_SEEK_STRING_SIZE : Z := 32.
Definition DESCRIPTION_SIZE : Z := 512.

(** [include/util.h]. *)
Definition is_enabled (s : string) : bool := strcmp s "enabled" =? 0.
Definition is_enabled_or_disabled (s : string) : bool :=
  (strcmp s "enabled" =? 0) || (strcmp s "disabled" =? 0).

(** ** Setters for what the parser fills in *)

(** [calloc]. *)
Definition zero_img : img_type :=
  mk_img (mk_sw_version "" "" false false) "" "" "" "" "" "" "" "" "" "" "" 0 SKIP_NONE
    false COMPRESSED_FALSE false false AES_CBC "" "" false false false [] 0 [] 0 0
    (repeat NUL SHA256_HASH_LENGTH).

Definition set_properties (p : dict) (i : img_type) : img_type :=
  mk_img (id i) (type i) (fname i) (volname i) (device i) (path i) (mtdname i) (type_data i)
    (extract_file i) (filesystem i) (lua_fcn_pre i) (lua_fcn_post i) (seek i) (skip i)
    (provided i) (compressed i) (preserve_attributes i) (is_encrypted i) (cipher i)
    (ivt_ascii i) (aes_ascii i) (install_directly i) (is_script i) (is_partitioner i)
    p (partsize i) (img_fdin i) (img_size i) (checksum i) (sha256 i).

Definition set_is_script (i : img_type) : img_type :=
  mk_img (id i) (type i) (fname i) (volname i) (device i) (path i) (mtdname i) (type_data i)
    (extract_file i) (filesystem i) (lua_fcn_pre i) (lua_fcn_post i) (seek i) (skip i)
    (provided i) (compressed i) (preserve_attributes i) (is_encrypted i) (cipher i)
    (ivt_ascii i) (aes_ascii i) (install_directly i) true (is_partitioner i)
    (properties i) (partsize i) (img_fdin i) (img_size i) (checksum i) (sha256 i).

Definition set_skip (s : skip_t) (i : img_type) : img_type :=
  mk_img (id i) (type i) (fname i) (volname i) (device i) (path i) (mtdname i) (type_data i)
    (extract_file i) (filesystem i) (lua_fcn_pre i) (lua_fcn_post i) (seek i) s
    (provided i) (compressed i) (preserve_attributes i) (is_encrypted i) (cipher i)
    (ivt_ascii i) (aes_ascii i) (install_directly i) (is_script i) (is_partitioner i)
    (properties i) (partsize i) (img_fdin i) (img_size i) (checksum i) (sha256 i).

(** The volume, the size of the partition, and the flags of a partition. *)
Definition set_partition (vol : string) (size : Z) (i : img_type) : img_type :=
  mk_img (id i) (type i) (fname i) vol (device i) (path i) (mtdname i) (type_data i)
    (extract_file i) (filesystem i) (lua_fcn_pre i) (lua_fcn_post i) (seek i) (skip i)
    true (compressed i) (preserve_attributes i) (is_encrypted i) (cipher i)
    (ivt_ascii i) (aes_ascii i) (install_directly i) (is_script i) true
    (properties i) size (img_fdin i) (img_size i) (checksum i) (sha256 i).

Definition set_id (v : sw_version) (i : img_type) : img_type :=
  mk_img v (type i) (fname i) (volname i) (device i) (path i) (mtdname i) (type_data i)
    (extract_file i) (filesystem i) (lua_fcn_pre i) (lua_fcn_post i) (seek i) (skip i)
    (provided i) (compressed i) (preserve_attributes i) (is_encrypted i) (cipher i)
    (ivt_ascii i) (aes_ascii i) (install_directly i) (is_script i) (is_partitioner i)
    (properties i) (partsize i) (img_fdin i) (img_size i) (checksum i) (sha256 i).

(** The common fields of the description. *)
Definition set_common (version desc utype : string) (state trans : bool) (reboot : swupdate_reboot_t)
    (out ns : string) (c : swupdate_cfg) : swupdate_cfg :=
  mk_cfg utype version trans state (update_type_required c) (output_swversions c)
    ns (no_transaction_marker c) (no_state_marker c) reboot
    (installed_sw_list c) (swupdate_types c) (images c) (scripts c) (cfg_vars c)
    (parms c) (update_type c) (swdesc_max_size c)
    desc out (hw c) (hardware c).

Definition set_cfg_vars (d : dict) (c : swupdate_cfg) : swupdate_cfg :=
  mk_cfg (update_type_name c) (cfg_version c) (bootloader_transaction_marker c)
    (bootloader_state_marker c) (update_type_required c) (output_swversions c)
    (namespace_for_vars c) (no_transaction_marker c) (no_state_marker c) (reboot_enabled c)
    (installed_sw_list c) (swupdate_types c) (images c) (scripts c) d
    (parms c) (update_type c) (swdesc_max_size c)
    (description c) (cfg_output c) (hw c) (hardware c).

Definition set_hw (h : hw_type) (l : list hw_type) (c : swupdate_cfg) : swupdate_cfg :=
  mk_cfg (update_type_name c) (cfg_version c) (bootloader_transaction_marker c)
    (bootloader_state_marker c) (update_type_required c) (output_swversions c)
    (namespace_for_vars c) (no_transaction_marker c) (no_state_marker c) (reboot_enabled c)
    (installed_sw_list c) (swupdate_types c) (images c) (scripts c) (cfg_vars c)
    (parms c) (update_type c) (swdesc_max_size c)
    (description c) (cfg_output c) h l.

Section Parser.
Context {R N : Type} (lib : parselib R N).
(** [NODEROOT]. *)
Variable NODEROOT : string.
(** What the memory behind an array holds, see [check_field_string]. *)
Variable behind : string.
(** Allocations succeed. *)
Abbreviation str_field := (get_field_string_with_size lib behind).

(** ** Finding an entry *)

Definition path_append (nodes : list string) (field : string) : bool * list string :=
  if (MAX_PARSED_NODES <=? length nodes)%nat then (false, nodes) else (true, nodes ++ [field]).

(** The four places where an entry is looked for; a place whose names are not all set is
    skipped. *)
Definition candidate_paths (sw : swupdate_cfg) : list (list string) :=
  let mode := running_mode (parms sw) in
  let set := software_set (parms sw) in
  let board := boardname (hw sw) in
  let given s := negb (strlen s =? 0) in
  (if given mode && given set && given board then [[NODEROOT; board; set; mode]] else []) ++
  (if given mode && given set then [[NODEROOT; set; mode]] else []) ++
  (if given board then [[NODEROOT; board]] else []) ++
  [[NODEROOT]].

Fixpoint find_in_paths (root : R) (field : string) (paths : list (list string)) (last : list string)
  : option N * list string :=
  match paths with
  | [] => (None, last)
  | nodes :: paths =>
      match find_root lib root nodes with
      | (Some _, nodes) =>
          let '(ok, nodes) := path_append nodes field in
          if negb ok then (None, nodes)
          else
            match find_root lib root nodes with
            | (Some node, nodes) => (Some node, nodes)
            | (None, nodes) => find_in_paths root field paths nodes
            end
      | (None, nodes) => find_in_paths root field paths nodes
      end
  end.

Definition find_node_and_path (root : R) (field : string) (sw : swupdate_cfg) : option N * list string :=
  find_in_paths root field (candidate_paths sw) [].

Definition find_node (root : R) (field : string) (sw : swupdate_cfg) : option N :=
  (find_node_and_path root field sw).1.

(** ** The common fields *)

(** The value of [reboot]. *)
Definition reboot_field (setting : option N) : swupdate_reboot_t :=
  match setting with
  | None => REBOOT_UNSET
  | Some e =>
      if is_field_bool lib e None then
        if get_field_bool lib e None true then REBOOT_ENABLED else REBOOT_DISABLED
      else if is_field_string lib e None then
        let tmp := str_field e None SWUPDATE_GENERAL_STRING_SIZE "" in
        if String.eqb tmp "" then REBOOT_UNSET
        else if negb (is_enabled_or_disabled tmp) then REBOOT_UNSET
        else if is_enabled tmp then REBOOT_ENABLED else REBOOT_DISABLED
      else REBOOT_UNSET
  end.

(** [None]: the version is missing. *)
Definition get_common_fields (cfg : R) (sw : swupdate_cfg) : option swupdate_cfg :=
  let str field size old :=
    match find_node cfg field sw with Some e => str_field e None size old | None => old end in
  let flag (disabled : bool) field :=
    if disabled then false
    else match find_node cfg field sw with Some e => get_field_bool lib e None true | None => true end in
  match find_node cfg "version" sw with
  | None => None
  | Some _ =>
      Some (set_common
        (str "version" SWUPDATE_GENERAL_STRING_SIZE (cfg_version sw))
        (str "description" DESCRIPTION_SIZE (description sw))
        (str "update-type" SWUPDATE_GENERAL_STRING_SIZE "")
        (flag (no_state_marker sw) "bootloader_state_marker")
        (flag (no_transaction_marker sw) "bootloader_transaction_marker")
        (reboot_field (find_node cfg "reboot" sw))
        (if strlen (cfg_output sw) =? 0 then cfg_output sw
         else str "output" SWUPDATE_GENERAL_STRING_SIZE (cfg_output sw))
        (str "namespace-for-vars" SWUPDATE_GENERAL_STRING_SIZE (namespace_for_vars sw))
        sw)
  end.

(** [hw_configured] is [CONFIG_HW_COMPATIBILITY]. *)
Definition parse_hw_compatibility (hw_configured : bool) (cfg : R) (sw : swupdate_cfg) : Z * swupdate_cfg :=
  if negb hw_configured then (0, sw)
  else
    match find_node cfg "hardware-compatibility" sw with
    | None => (-1, sw)
    | Some setting =>
        let add l i :=
          match get_elem_from_idx lib setting i with
          | None => l
          | Some e =>
              let s := str_field e None SWUPDATE_GENERAL_STRING_SIZE "" in
              if strlen s =? 0 then l
              else mk_hw "" (strlcpy s SWUPDATE_GENERAL_STRING_SIZE) :: l
          end in
        (0, set_hw (hw sw) (foldl add (hardware sw) (seq 0 (get_array_length lib setting))) sw)
    end.

(** ** The attributes of an element *)

(** The Lua interpreter: a hook, by its name ([None] is NULL), on an image, the dictionary of
    the bootloader and the state of the interpreter. *)
Context {L : Type}.
Variable lua_parser_fn : option string -> img_type -> dict -> L -> Z * img_type * dict * L.
(** [swcfg->embscript]. *)
Variable embscript : option string.

(** The configuration, the dictionary of the bootloader, the Lua state. *)
Record desc := mk_desc {
  d_sw : swupdate_cfg;
  d_boot : dict;
  d_lua : L;
}.

Definition run_embscript (elem : N) (img : img_type) (st : desc) : Z * img_type * desc :=
  match embscript with
  | None => (0, img, st)
  | Some _ =>
      if negb (exist_field_string lib elem "hook") then (0, img, st)
      else
        let '(ret, img, d, l) :=
          lua_parser_fn (get_field_string lib elem (Some "hook")) img (d_boot st) (d_lua st) in
        (ret, img, mk_desc (d_sw st) d l)
  end.

(** [add_properties] and its callback; a property that cannot be stored is skipped. *)
Definition add_properties (elem : N) (img : img_type) : img_type :=
  match get_child lib elem "properties" with
  | None => img
  | Some p =>
      set_properties (foldl (fun d nv =>
        match nv with
        | (Some name, Some value) => (dict_insert_value true true d name value).2
        | _ => d
        end) (properties img) (iterate_field lib p)) img
  end.

(** An array that is larger than the string and was set to zero. *)
Definition get_ivt_value (elem : N) (ivt : string) : string :=
  match get_field_string lib elem (Some "ivt") with
  | Some s => if strnlen s SWUPDATE_GENERAL_STRING_SIZE =? Z.of_nat AES_BLK_SIZE * 2 then s else ivt
  | None => ivt
  end.

Definition get_aes_value (elem : N) (aes : string) : string :=
  match get_field_string lib elem (Some "aes-key") with
  | Some s =>
      let keylen := strnlen s SWUPDATE_GENERAL_STRING_SIZE in
      if (keylen =? Z.of_nat AES_128_KEY_LEN * 2) || (keylen =? Z.of_nat AES_192_KEY_LEN * 2) ||
         (keylen =? Z.of_nat AES_256_KEY_LEN * 2) then s else aes
  | None => aes
  end.

(** The offset as a number or as a string with a unit; [None]: [errno] is set. *)
Definition get_offset (elem : N) : option Z :=
  if is_field_numeric lib elem (Some "offset")
  then Some (u64 (get_field_int64 lib elem (Some "offset") 0))
  else
    let seek_str := str_field elem (Some "offset") MAX_SEEK_STRING_SIZE "" in
    let '(v, _, err) := ustrtoull seek_str 0 in
    if err =? 0 then Some v else None.

Definition get_compression (elem : N) : option compression_type :=
  match get_field_string lib elem (Some "compressed") with
  | Some s => compressed_string_to_type s
  | None => Some (if get_field_bool lib elem (Some "compressed") false
                  then COMPRESSED_TRUE else COMPRESSED_FALSE)
  end.

(** [parse_common_attributes] on a zeroed image: [None] is the result -1, after which the
    image is freed. *)
Definition parse_common_attributes (elem : N) (sw : swupdate_cfg) : option img_type :=
  let str field size := str_field elem (Some field) size "" in
  let flag field := get_field_bool lib elem (Some field) false in
  let general field := str field SWUPDATE_GENERAL_STRING_SIZE in
  let '(enc, ciph) :=
    match get_field_string lib elem (Some "encrypted") with
    | Some s => (true, map_name_cipher s)
    | None => (flag "encrypted", AES_CBC)
    end in
  match get_offset elem, get_compression elem with
  | Some offset, Some ctype =>
      let hash := ascii_of_Z <$> get_hash_value lib behind elem (repeat 0 SHA256_HASH_LENGTH) in
      let img := mk_img
        (mk_sw_version (general "name") (general "version") (flag "install-if-different")
           (flag "install-if-higher"))
        (general "type") (str "filename" MAX_IMAGE_FNAME) (str "volume" MAX_VOLNAME)
        (str "device" MAX_VOLNAME) (str "path" MAX_IMAGE_FNAME) (str "mtdname" MAX_IMAGE_FNAME)
        (general "data") "" (str "filesystem" MAX_IMAGE_FNAME) (general "preinstall")
        (general "postinstall") offset SKIP_NONE false ctype (flag "preserve-attributes") enc ciph
        (get_ivt_value elem "") (get_aes_value elem "") (flag "installed-directly") false false []
        0 [] (get_field_int64 lib elem (Some "size") 0) 0 hash in
      Some (set_skip (image_skip (installed_sw_list sw) img) img)
  | _, _ => None
  end.

(** ** Elements of the sections *)

(** The end of an element: the hook, and the image at the head of its list unless it is
    skipped. *)
Definition hook_and_add (elem : N) (img : img_type) (complete : img_type -> bool)
    (add : img_type -> swupdate_cfg -> swupdate_cfg) (st : desc) : Z * desc :=
  let '(skipped, img, st) := run_embscript elem img st in
  if skipped <? 0 then (-1, st)
  else if negb (skipped =? 0) || bool_decide (skip img <> SKIP_NONE) then (0, st)
  else if negb (complete img) then (-1, st)
  else (0, mk_desc (add img (d_sw st)) (d_boot st) (d_lua st)).

Definition add_image (img : img_type) (sw : swupdate_cfg) : swupdate_cfg := set_images (img :: images sw) sw.
Definition add_script (img : img_type) (sw : swupdate_cfg) : swupdate_cfg := set_scripts (img :: scripts sw) sw.

Definition default_type (t : string) (img : img_type) : img_type :=
  if strlen (type img) =? 0 then set_type t img else img.

Definition build_partition (elem : N) (p : img_type) : img_type :=
  add_properties elem (set_partition (str_field elem (Some "name") MAX_VOLNAME (volname p))
    (get_field_int64 lib elem (Some "size") 0) (default_type "ubipartition" p)).

Definition partition_complete (p : img_type) : bool :=
  negb (((strlen (volname p) =? 0) && (strcmp (type p) "ubipartition" =? 0)) || (strlen (device p) =? 0)).

Definition parse_partition_elem (elem : N) (st : desc) : Z * desc :=
  match parse_common_attributes elem (d_sw st) with
  | None => (-1, st)
  | Some p => hook_and_add elem (build_partition elem p) partition_complete add_image st
  end.

Definition build_script (elem : N) (s : img_type) : img_type :=
  add_properties elem (set_is_script (default_type "lua" s)).

Definition parse_script_elem (elem : N) (st : desc) : Z * desc :=
  match parse_common_attributes elem (d_sw st) with
  | None => (-1, st)
  | Some s => hook_and_add elem (build_script elem s) (fun _ => true) add_script st
  end.

(** The handler of an image without a type follows from its target. *)
Definition image_type (img : img_type) : img_type :=
  if strlen (type img) =? 0 then
    if negb (strlen (volname img) =? 0) then set_type "ubivol" img
    else if negb (strlen (device img) =? 0) then set_type "raw" img else img
  else img.

Definition parse_image_elem (elem : N) (st : desc) : Z * desc :=
  if negb (exist_field_string lib elem "filename") then (0, st)
  else
    match parse_common_attributes elem (d_sw st) with
    | None => (-1, st)
    | Some img => hook_and_add elem (add_properties elem (image_type img)) (fun _ => true) add_image st
    end.

Definition parse_file_elem (elem : N) (st : desc) : Z * desc :=
  if negb (exist_field_string lib elem "filename") then (0, st)
  else
    match parse_common_attributes elem (d_sw st) with
    | None => (-1, st)
    | Some f => hook_and_add elem (add_properties elem (default_type "rawfile" f)) (fun _ => true) add_image st
    end.

(** The name and the value of a variable are in a dummy image for the hook. *)
Definition parse_variable (elem : N) (store : string -> string -> desc -> desc) (st : desc) : Z * desc :=
  if negb (exist_field_string lib elem "name") then (-1, st)
  else
    let str field := str_field elem (Some field) SWUPDATE_GENERAL_STRING_SIZE "" in
    let dummy := set_id (mk_sw_version (str "name") (str "value") false false) zero_img in
    let '(skipped, dummy, st) := run_embscript elem dummy st in
    if skipped <? 0 then (-1, st)
    else if negb (skipped =? 0) then (0, st)
    else (0, store (sw_name (id dummy)) (sw_vers (id dummy)) st).

Definition parse_bootloader_elem (elem : N) : desc -> Z * desc :=
  parse_variable elem (fun k v st => mk_desc (d_sw st) (dict_set_value true true (d_boot st) k v).2 (d_lua st)).

Definition parse_vars_elem (elem : N) : desc -> Z * desc :=
  parse_variable elem (fun k v st =>
    mk_desc (set_cfg_vars (dict_set_value true true (cfg_vars (d_sw st)) k v).2 (d_sw st)) (d_boot st) (d_lua st)).

(** ** Sections *)

Inductive section := SecPartitions | SecScripts | SecBootloader | SecVars | SecImages | SecFiles.

Definition parse_elem (sec : section) : N -> desc -> Z * desc :=
  match sec with
  | SecPartitions => parse_partition_elem
  | SecScripts => parse_script_elem
  | SecBootloader => parse_bootloader_elem
  | SecVars => parse_vars_elem
  | SecImages => parse_image_elem
  | SecFiles => parse_file_elem
  end.

(** The function that is passed to [parser_follow_link]. *)
Definition link_section (sec : section) : section :=
  match sec with SecVars => SecBootloader | sec => sec end.

Definition parser_follow_link (fn : N -> list string -> desc -> option (Z * desc)) (cfg : R) (elem : N)
    (nodes : list string) (st : desc) : option (Z * desc) :=
  let '(ok, linknodes) := set_find_path nodes (get_field_string lib elem (Some "ref")) in
  if negb ok then Some (-1, st)
  else
    match find_root lib cfg linknodes with
    | (Some link, linknodes) => fn link linknodes st
    | (None, _) => Some (0, st)
    end.

(** The loop of [_parse_partitions], [_parse_scripts] and so on over the indices, from the
    last one to 0. *)
Fixpoint parse_elems (fn : N -> list string -> desc -> option (Z * desc)) (cfg : R) (sec : section)
    (setting : N) (nodes : list string) (idx : list nat) (st : desc) : option (Z * desc) :=
  match idx with
  | [] => Some (0, st)
  | i :: idx =>
      match get_elem_from_idx lib setting i with
      | None => parse_elems fn cfg sec setting nodes idx st
      | Some elem =>
          '(ret, st) ← (if exist_field_string lib elem "ref"
                        then parser_follow_link fn cfg elem nodes st
                        else Some (parse_elem sec elem st));
          if negb (ret =? 0) then Some (ret, st) else parse_elems fn cfg sec setting nodes idx st
      end
  end.

(** [fuel] bounds the depth of links to lists; [None]: it is used up. *)
Fixpoint parse_section (fuel : nat) (cfg : R) (sec : section) (setting : N) (nodes : list string)
    (st : desc) : option (Z * desc) :=
  match fuel with
  | O => None
  | S fuel =>
      parse_elems (parse_section fuel cfg (link_section sec)) cfg sec setting nodes
        (rev (seq 0 (get_array_length lib setting))) st
  end.

Definition section_names (sec : section) : list string :=
  match sec with
  | SecPartitions => ["partitions"]
  | SecScripts => ["scripts"]
  | SecBootloader => ["bootenv"; "uboot"]
  | SecVars => ["vars"]
  | SecImages => ["images"]
  | SecFiles => ["files"]
  end.

(** [parse_partitions], [parse_scripts] and so on: the section under the first of its names. *)
Fixpoint parse_names (fuel : nat) (cfg : R) (sec : section) (names : list string) (st : desc)
  : option (Z * desc) :=
  match names with
  | [] => Some (0, st)
  | field :: names =>
      match find_node_and_path cfg field (d_sw st) with
      | (Some setting, nodes) => parse_section fuel cfg sec setting nodes st
      | (None, _) => parse_names fuel cfg sec names st
      end
  end.

Definition parse_named_section (fuel : nat) (cfg : R) (sec : section) (st : desc) : option (Z * desc) :=
  parse_names fuel cfg sec (section_names sec) st.

(** The operator || of C on the results. *)
Fixpoint parse_sections (fuel : nat) (cfg : R) (secs : list section) (st : desc) : option (Z * desc) :=
  match secs with
  | [] => Some (0, st)
  | sec :: secs =>
      '(ret, st) ← parse_named_section fuel cfg sec st;
      if negb (ret =? 0) then Some (1, st) else parse_sections fuel cfg secs st
  end.
End Parser.

Arguments mk_desc {L} _ _ _.
Arguments d_sw {L} _.
Arguments d_boot {L} _.
Arguments d_lua {L} _.

Section Parsers.
Context {R N : Type} (lib : parselib R N).
Variables NODEROOT behind : string.
Context {L : Type}.
Variable lua_parser_fn : option string -> img_type -> dict -> L -> Z * img_type * dict * L.
(** The session gets the dictionary of the bootloader; the result can be NULL. *)
Variable lua_session_init : dict -> L.
Variable lua_null : L -> bool.
Variable lua_load_buffer : L -> string -> Z * L.
(** [CONFIG_HW_COMPATIBILITY], and the file with the revision. *)
Variable hw_configured : bool.
Variable hw_file : option string.

(** The session and the embedded script: [None] is the result -1. *)
Definition load_embscript (embscript : option string) (boot : dict) : option L :=
  let l := lua_session_init boot in
  match embscript with
  | None => Some l
  | Some s =>
      if lua_null l then None
      else
        let '(ret, l) := lua_load_buffer l s in
        if negb (ret =? 0) then None else Some l
  end.

(** The Lua state of the configuration is that of [desc]; on the early returns it keeps its
    old value [old]. *)
Definition parser (fuel : nat) (cfg : R) (sw : swupdate_cfg) (boot : dict) (old : L)
  : option (Z * desc (L := L)) :=
  let embscript :=
    match find_node lib NODEROOT cfg "embedded-script" sw with
    | Some e => get_field_string lib e None
    | None => None
    end in
  match load_embscript embscript boot with
  | None => Some (-1, mk_desc sw boot old)
  | Some l =>
      let h := default (hw sw) (get_hw_revision hw_file (Some (hw sw))).2 in
      let sw := set_hw h (hardware sw) sw in
      let '(ret, sw) := parse_hw_compatibility lib NODEROOT behind hw_configured cfg sw in
      let st := mk_desc sw boot l in
      let sections := parse_sections lib NODEROOT behind lua_parser_fn embscript fuel cfg in
      '(ret, st) ← (if negb (ret =? 0) then Some (1, st)
                    else sections [SecFiles; SecImages; SecScripts; SecBootloader; SecVars] st);
      '(_, st) ← sections [SecPartitions] st;
      match images (d_sw st), scripts (d_sw st), d_boot st with
      | [], [], [] => Some (-1, st)
      | _, _, _ => Some (ret, st)
      end
  end.

(** [parse_cfg] and [parse_json] after the file was read; [cfg] is [None] if it is not
    well-formed. *)
Definition parse_tree (fuel : nat) (cfg : option R) (sw : swupdate_cfg) (boot : dict) (old : L)
  : option (Z * desc (L := L)) :=
  match cfg with
  | None => Some (-1, mk_desc sw boot old)
  | Some cfg =>
      match get_common_fields lib NODEROOT behind cfg sw with
      | None => Some (-1, mk_desc sw boot old)
      | Some sw => parser fuel cfg sw boot old
      end
  end.
End Parsers.

(** * Properties *)

Section Properties.
Context {R N : Type} (lib : parselib R N).
Variables NODEROOT behind : string.
Context {L : Type}.
Variable lua_parser_fn : option string -> img_type -> dict -> L -> Z * img_type * dict * L.
#[local] Abbreviation desc := (desc (L := L)).
#[local] Abbreviation section_of e := (parse_section lib behind lua_parser_fn e).

(** ** Where an entry is found *)

(** No entry of the description is a link. *)
Definition no_links (root : R) : Prop :=
  forall nodes node, get_node lib root nodes = Some node -> get_field_string lib node (Some "ref") = None.

Lemma find_root_no_links `{!ParselibSpec lib} root nodes :
  no_links root -> find_root lib root nodes = (get_node lib root nodes, nodes).
Proof.
  intros Hl. destruct (get_node lib root nodes) as [node|] eqn:E.
  - apply find_root_direct; [done|]. by apply (Hl nodes).
  - by apply find_root_absent.
Qed.

Lemma find_in_paths_spec `{!ParselibSpec lib} root field paths last :
  no_links root -> Forall (fun p => p <> [] /\ (length p < MAX_PARSED_NODES)%nat) paths ->
  (find_in_paths lib root field paths last).1 = head (omap (fun p => get_node lib root (p ++ [field])) paths).
Proof.
  intros Hl Hp. revert last. induction Hp as [|p paths [Hn Hlen] _ IH]; intros last; [done|].
  cbn [find_in_paths omap list_omap]. rewrite (find_root_no_links _ p) by done.
  destruct (get_node lib root p) eqn:Ep.
  - unfold path_append. destruct (Nat.leb_spec MAX_PARSED_NODES (length p)); [lia|]. cbn [negb].
    rewrite find_root_no_links by done. destruct (get_node lib root (p ++ [field])); [done|]. apply IH.
  - destruct (get_node lib root (p ++ [field])) eqn:Ef; [|apply IH].
    destruct (get_node_prefix root p field Hn) as [? Hx]; [by rewrite Ef|]. congruence.
Qed.

Lemma candidate_paths_ok sw :
  Forall (fun p => p <> [] /\ (length p < MAX_PARSED_NODES)%nat) (candidate_paths NODEROOT sw).
Proof.
  unfold candidate_paths. rewrite !Forall_app. split_and!; repeat case_if; repeat constructor; try done.
Qed.

(** C35: in a description without links, the entry [field] is the one given for the board and the selection (set and
    mode) of the device, under software.board.set.mode; if there is none, or they are not all known, the one for the
    selection, under software.set.mode; else the one for the board, under software.board; else the general one, under
    software. *)
Theorem find_node_most_specific `{!ParselibSpec lib} (root : R) (field : string) (sw : swupdate_cfg) :
  no_links root ->
  let board := boardname (hw sw) in
  let set := software_set (parms sw) in
  let mode := running_mode (parms sw) in
  find_node lib NODEROOT root field sw =
  match (if bool_decide (board <> "" /\ set <> "" /\ mode <> "")
         then get_node lib root [NODEROOT; board; set; mode; field] else None) with
  | Some node => Some node
  | None =>
      match (if bool_decide (set <> "" /\ mode <> "") then get_node lib root [NODEROOT; set; mode; field] else None) with
      | Some node => Some node
      | None =>
          match (if bool_decide (board <> "") then get_node lib root [NODEROOT; board; field] else None) with
          | Some node => Some node
          | None => get_node lib root [NODEROOT; field]
          end
      end
  end.
Proof.
  intros Hl board set mode. unfold find_node, find_node_and_path.
  rewrite find_in_paths_spec by (done || apply candidate_paths_ok). unfold candidate_paths. fold board set mode.
  assert (forall s, negb (strlen s =? 0) = bool_decide (s <> "")) as Hg.
  { intros [|c s]; [done|]. rewrite bool_decide_true by done. unfold strlen. cbn [String.length].
    by rewrite (proj2 (Z.eqb_neq _ _)) by lia. }
  rewrite !Hg. clear Hg.
  repeat case_bool_decide; cbn [andb app omap list_omap head]; repeat case_match; try done; exfalso; tauto.
Qed.

(** ** Links are inclusions *)

(** What an element of a section stands for: itself, or the elements of the list that it is a link
    to; [None] is a link that is no path. *)
Definition flat_elem (fn : N -> list string -> option (list (option N))) (cfg : R) (setting : N)
    (nodes : list string) (i : nat) : option (list (option N)) :=
  match get_elem_from_idx lib setting i with
  | None => Some []
  | Some elem =>
      if exist_field_string lib elem "ref" then
        let '(ok, linknodes) := set_find_path nodes (get_field_string lib elem (Some "ref")) in
        if negb ok then Some [None]
        else match find_root lib cfg linknodes with
             | (Some link, linknodes) => fn link linknodes
             | (None, _) => Some []
             end
      else Some [Some elem]
  end.

(** The elements of a section in their order, those of the linked lists in the place of the
    links. *)
Fixpoint flat (fuel : nat) (cfg : R) (setting : N) (nodes : list string) : option (list (option N)) :=
  match fuel with
  | O => None
  | S fuel =>
      ls ← mapM (flat_elem (flat fuel cfg) cfg setting nodes) (seq 0 (get_array_length lib setting));
      Some (concat ls)
  end.

(** One element after the other, up to the first error. *)
Fixpoint run_elems (e : option string) (sec : section) (l : list (option N)) (st : desc) : Z * desc :=
  match l with
  | [] => (0, st)
  | None :: _ => (-1, st)
  | Some elem :: l =>
      let '(ret, st) := parse_elem lib behind lua_parser_fn e sec elem st in
      if negb (ret =? 0) then (ret, st) else run_elems e sec l st
  end.

Lemma run_elems_app e sec l1 l2 st :
  run_elems e sec (l1 ++ l2) st =
  let '(ret, st) := run_elems e sec l1 st in
  if negb (ret =? 0) then (ret, st) else run_elems e sec l2 st.
Proof.
  revert st. induction l1 as [|[elem|] l1 IH]; intros st; cbn [run_elems app]; [done| |done].
  destruct (parse_elem _ _ _ _ _ _ _) as [ret st']. destruct (ret =? 0) eqn:E; cbn [negb]; [apply IH|].
  by rewrite E.
Qed.

Lemma rev_concat {A} (ls : list (list A)) : concat (map (@rev A) (rev ls)) = rev (concat ls).
Proof.
  induction ls as [|l ls IH]; [done|]. cbn. rewrite rev_app_distr, <- IH, map_app, concat_app. cbn.
  by rewrite app_nil_r.
Qed.

Lemma mapM_rev {A B} (f : A -> option B) l k : mapM f l = Some k -> mapM f (rev l) = Some (rev k).
Proof.
  rewrite !mapM_Some. intros H. induction H as [|x y l k Hxy _ IH]; [done|].
  cbn. apply Forall2_app; [done|]. by repeat constructor.
Qed.

Lemma parse_elems_flat e sec fn flatfn cfg setting nodes idx ls st :
  (forall link ln l st, flatfn link ln = Some l -> fn link ln st = Some (run_elems e sec (rev l) st)) ->
  mapM (flat_elem flatfn cfg setting nodes) idx = Some ls ->
  parse_elems lib behind lua_parser_fn e fn cfg sec setting nodes idx st =
  Some (run_elems e sec (concat (map (@rev _) ls)) st).
Proof.
  intros Hfn Hm. apply mapM_Some in Hm. revert st.
  induction Hm as [|i l idx ls Hi _ IH]; intros st; [done|].
  cbn [parse_elems map concat]. rewrite run_elems_app. unfold flat_elem in Hi.
  destruct (get_elem_from_idx lib setting i) as [elem|]; [|apply (inj Some) in Hi as <-; apply IH].
  destruct (exist_field_string lib elem "ref").
  - unfold parser_follow_link. destruct (set_find_path nodes _) as [[] ln]; cbn [negb] in *.
    + destruct (find_root lib cfg ln) as [[link|] ln'].
      * rewrite (Hfn _ _ _ st Hi). cbn [mbind option_bind].
        destruct (run_elems e sec (rev l) st) as [ret st']. destruct (ret =? 0); [apply IH|done].
      * apply (inj Some) in Hi as <-. apply IH.
    + by apply (inj Some) in Hi as <-.
  - apply (inj Some) in Hi as <-. cbn [rev app run_elems mbind option_bind].
    destruct (parse_elem _ _ _ _ _ _ _) as [ret st']. destruct (ret =? 0) eqn:Er; cbn [negb].
    + cbn. apply IH.
    + by rewrite Er.
Qed.

Lemma parse_section_flat fuel e cfg sec setting nodes l st :
  link_section sec = sec -> flat fuel cfg setting nodes = Some l ->
  section_of e fuel cfg sec setting nodes st = Some (run_elems e sec (rev l) st).
Proof.
  intros Hs. revert setting nodes l st. induction fuel as [|fuel IH]; intros setting nodes l st; [done|].
  cbn [flat parse_section]. rewrite Hs.
  destruct (mapM _ _) as [ls|] eqn:Hm; [|done]. cbn [mbind option_bind]. intros Hl. apply (inj Some) in Hl as <-.
  apply mapM_rev in Hm. erewrite parse_elems_flat; [by rewrite rev_concat| |done]. intros. by apply IH.
Qed.

(** ** The order of the entries *)

Definition kept (img : img_type) : option img_type :=
  if bool_decide (skip img = SKIP_NONE) then Some img else None.

(** An element without hooks: [None] is an error, [Some None] an element that is left out. *)
Definition read_elem (sec : section) (elem : N) (sw : swupdate_cfg) : option (option img_type) :=
  let attrs := parse_common_attributes lib behind elem sw in
  match sec with
  | SecImages =>
      if negb (exist_field_string lib elem "filename") then Some None
      else img ← attrs; Some (kept (add_properties lib elem (image_type img)))
  | SecFiles =>
      if negb (exist_field_string lib elem "filename") then Some None
      else f ← attrs; Some (kept (add_properties lib elem (default_type "rawfile" f)))
  | SecScripts => s ← attrs; Some (kept (build_script lib elem s))
  | SecPartitions =>
      p ← attrs;
      match kept (build_partition lib behind elem p) with
      | Some p => if partition_complete p then Some (Some p) else None
      | None => Some None
      end
  | SecBootloader | SecVars => Some None
  end.

Definition entry_section (sec : section) : bool :=
  match sec with SecBootloader | SecVars => false | _ => true end.

Definition entries (sec : section) (sw : swupdate_cfg) : list img_type :=
  match sec with SecScripts => scripts sw | _ => images sw end.

Definition put_entries (sec : section) (l : list img_type) (sw : swupdate_cfg) : swupdate_cfg :=
  match sec with SecScripts => set_scripts l sw | _ => set_images l sw end.

Definition with_entries (sec : section) (l : list img_type) (st : desc) : desc :=
  mk_desc (put_entries sec (l ++ entries sec (d_sw st)) (d_sw st)) (d_boot st) (d_lua st).

Lemma parse_elem_read sec elem st :
  entry_section sec = true ->
  parse_elem lib behind lua_parser_fn None sec elem st =
  match read_elem sec elem (d_sw st) with
  | None => (-1, st)
  | Some img => (0, with_entries sec (option_list img) st)
  end.
Proof.
  assert (forall sec, with_entries sec [] st = st) as Hnil.
  { intros sec'. destruct st as [[] b l]. by destruct sec'. }
  assert (forall img complete add, hook_and_add lib lua_parser_fn None elem img complete add st =
    match kept img with
    | None => (0, st)
    | Some img => if complete img then (0, mk_desc (add img (d_sw st)) (d_boot st) (d_lua st)) else (-1, st)
    end) as Hh.
  { intros img complete add. unfold hook_and_add, kept. cbn [run_embscript]. cbn [Z.ltb Z.eqb Z.compare negb orb].
    case_bool_decide as H1; case_bool_decide as H2; try done. by destruct (complete img). }
  intros Hs. destruct sec; try done; cbn [parse_elem read_elem].
  all: unfold parse_partition_elem, parse_script_elem, parse_image_elem, parse_file_elem.
  all: try (destruct (exist_field_string lib elem "filename"); cbn [negb]; [|by rewrite Hnil]).
  all: destruct (parse_common_attributes lib behind elem (d_sw st)) as [img|]; [|done].
  all: rewrite Hh; cbn [mbind option_bind]; destruct (kept _) as [i|]; cbn [option_list]; rewrite ?Hnil; try done.
  by destruct (partition_complete i).
Qed.

Lemma read_elem_installed sec elem sw sw' :
  installed_sw_list sw' = installed_sw_list sw -> read_elem sec elem sw' = read_elem sec elem sw.
Proof. intros H. unfold read_elem, parse_common_attributes. by rewrite H. Qed.

Lemma with_entries_installed sec l st :
  installed_sw_list (d_sw (with_entries sec l st)) = installed_sw_list (d_sw st).
Proof. by destruct sec. Qed.

Lemma with_entries_app sec l1 l2 st :
  with_entries sec l1 (with_entries sec l2 st) = with_entries sec (l1 ++ l2) st.
Proof. destruct st as [[] b lu], sec; unfold with_entries; cbn; by rewrite <- app_assoc. Qed.

Lemma run_elems_read sec elems st :
  entry_section sec = true ->
  match mapM (fun e => read_elem sec e (d_sw st)) elems with
  | Some imgs => run_elems None sec (Some <$> rev elems) st = (0, with_entries sec (omap (fun i => i) imgs) st)
  | None => exists st', run_elems None sec (Some <$> rev elems) st = (-1, st')
  end.
Proof.
  intros Hs. induction elems as [|elem elems IH].
  { destruct st as [[] b l]; destruct sec; done. }
  cbn [mapM rev]. rewrite fmap_app, run_elems_app.
  destruct (mapM (fun e => read_elem sec e (d_sw st)) elems) as [imgs|].
  - rewrite IH. cbn [fmap list_fmap run_elems Z.eqb negb].
    rewrite parse_elem_read, (read_elem_installed _ _ _ _ (with_entries_installed _ _ _)) by done.
    destruct (read_elem sec elem (d_sw st)) as [img|]; cbn [mbind option_bind].
    + rewrite with_entries_app. by destruct img.
    + by eexists.
  - destruct IH as [st' ->]. destruct (read_elem sec elem (d_sw st)); by exists st'.
Qed.

(** In a description without an embedded script, a section is read into its list in the order in
    which it is written, in front of what the list held: links to other lists are
    replaced by their elements, an image or file without a name and an artifact
    that need not be updated are left out, and nothing else changes. One element that
    cannot be read makes the whole section fail. *)
Theorem section_in_order (fuel : nat) (cfg : R) (sec : section) (setting : N) (nodes : list string)
    (elems : list N) (st : desc) :
  entry_section sec = true -> flat fuel cfg setting nodes = Some (Some <$> elems) ->
  match mapM (fun e => read_elem sec e (d_sw st)) elems with
  | Some imgs => section_of None fuel cfg sec setting nodes st = Some (0, with_entries sec (omap (fun i => i) imgs) st)
  | None => exists st', section_of None fuel cfg sec setting nodes st = Some (-1, st')
  end.
Proof.
  intros Hs Hf. assert (link_section sec = sec) as Hl by (by destruct sec).
  rewrite (parse_section_flat _ _ _ _ _ _ _ _ Hl Hf).
  assert (rev (Some <$> elems) = Some <$> rev elems) as ->.
  { clear. induction elems as [|x l IH]; [done|]. cbn [rev fmap list_fmap]. by rewrite fmap_app, <- IH. } pose proof (run_elems_read sec elems st Hs) as H.
  destruct (mapM _ elems) as [imgs|]; [by rewrite H|]. destruct H as [st' ->]. by exists st'.
Qed.

(** ** Termination *)

(** The lists that the elements of the list [p] are links to: an element with a field "ref" whose path, seen from where
    [p] is, leads to a list. A list is known with its path, from which its own links start. *)
Definition links_of (cfg : R) (p : N * list string) : list (N * list string) :=
  omap (fun i =>
    elem ← get_elem_from_idx lib p.1 i;
    if exist_field_string lib elem "ref" then
      match set_find_path p.2 (get_field_string lib elem (Some "ref")) with
      | (true, path) => match find_root lib cfg path with (Some l, path) => Some (l, path) | (None, _) => None end
      | (false, _) => None
      end
    else None) (seq 0 (get_array_length lib p.1)).

Definition linked (cfg : R) (p q : N * list string) : Prop := q ∈ links_of cfg p.

(** The links that start in [p] lead to the lists [lists] only, and never back to where they have been. *)
Record acyclic_from (cfg : R) (p : N * list string) (lists : list (N * list string)) : Prop := {
  ac_finite : forall q, rtc (linked cfg) p q -> q ∈ lists;
  ac_cycle : forall q, rtc (linked cfg) p q -> ~ tc (linked cfg) q q;
}.

(** What is behind a link has one list less. *)
Lemma acyclic_next cfg p q lists :
  acyclic_from cfg p lists -> linked cfg p q ->
  exists lists', acyclic_from cfg q lists' /\ length lists = S (length lists').
Proof.
  intros [Hf Hc] Hl. destruct (list_elem_of_split lists p (Hf p (rtc_refl _ _))) as (l1 & l2 & ->).
  exists (l1 ++ l2). split; [|rewrite !length_app; cbn; lia]. split.
  - intros r Hr. assert (r ∈ l1 ++ p :: l2) as Hin by (apply Hf; by eapply rtc_l).
    apply elem_of_app in Hin as [Hin|Hin]; [apply elem_of_app; by left|].
    apply elem_of_cons in Hin as [->|Hin]; [|apply elem_of_app; by right].
    exfalso. apply (Hc p (rtc_refl _ _)). by eapply tc_rtc_r; [apply tc_once|].
  - intros r Hr. apply Hc. by eapply rtc_l.
Qed.

Lemma parse_elems_returns fuel e cfg sec p idx st :
  (forall i, i ∈ idx -> (i < get_array_length lib p.1)%nat) ->
  (forall q sec st, linked cfg p q -> is_Some (section_of e fuel cfg sec q.1 q.2 st)) ->
  is_Some (parse_elems lib behind lua_parser_fn e (section_of e fuel cfg (link_section sec)) cfg sec p.1 p.2 idx st).
Proof.
  intros Hi Hq. revert st. induction idx as [|i idx IH]; intros st; [by eexists|].
  assert (forall st, is_Some (parse_elems lib behind lua_parser_fn e (section_of e fuel cfg (link_section sec)) cfg sec p.1 p.2 idx st))
    as Hrest by (intros st'; apply IH; intros j Hj; apply Hi; by right). clear IH.
  cbn [parse_elems]. destruct (get_elem_from_idx lib p.1 i) as [elem|] eqn:Ei; [|done].
  assert (is_Some (if exist_field_string lib elem "ref"
      then parser_follow_link lib (section_of e fuel cfg (link_section sec)) cfg elem p.2 st
      else Some (parse_elem lib behind lua_parser_fn e sec elem st))) as [[ret st'] ->].
  { destruct (exist_field_string lib elem "ref") eqn:Ex; [|done]. unfold parser_follow_link.
    destruct (set_find_path p.2 _) as [[] ln] eqn:Es; cbn [negb]; [|done].
    destruct (find_root lib cfg ln) as [[link|] ln'] eqn:Er; [|done].
    apply (Hq (link, ln')). unfold linked, links_of. apply list_elem_of_omap. exists i.
    split; [apply elem_of_seq; split; [lia|by apply Hi; left]|]. by rewrite Ei; cbn; rewrite Ex, Es, Er. }
  cbn [mbind option_bind]. case_if; [done|]. apply Hrest.
Qed.

(** C36: reading a section terminates when its links do not form a cycle: if the links that start in the list of the section
    lead to finitely many lists, and from none of them back to itself, then the parser returns, whatever the elements and
    the hooks are, with a depth of links of at most the number of these lists. *)
Theorem parse_section_terminates (cfg : R) (setting : N) (nodes : list string) (lists : list (N * list string))
    (fuel : nat) (e : option string) (sec : section) (st : desc) :
  acyclic_from cfg (setting, nodes) lists -> (length lists <= fuel)%nat ->
  is_Some (section_of e fuel cfg sec setting nodes st).
Proof.
  revert setting nodes lists sec st. induction fuel as [|fuel IH]; intros setting nodes lists sec st Ha Hf.
  { pose proof (ac_finite _ _ _ Ha _ (rtc_refl _ _)) as Hin. destruct lists; [by apply not_elem_of_nil in Hin|cbn in Hf; lia]. }
  cbn [parse_section]. apply (parse_elems_returns fuel e cfg sec (setting, nodes)).
  - intros i Hi%list_elem_of_In%in_rev%in_seq. cbn. lia.
  - intros q sec' st' Hq. destruct (acyclic_next _ _ _ _ Ha Hq) as (lists' & Ha' & Hl).
    apply (IH _ _ lists'); [by destruct q|lia].
Qed.

(** ** What the parser leaves *)

(** A relation that every element keeps is kept by a section. *)
Lemma parse_section_rel (P : desc -> desc -> Prop) `{!PreOrder P} e sec fuel cfg setting nodes st ret st' :
  (forall sec' elem st ret st', sec' = sec \/ sec' = link_section sec ->
     parse_elem lib behind lua_parser_fn e sec' elem st = (ret, st') -> P st st') ->
  section_of e fuel cfg sec setting nodes st = Some (ret, st') -> P st st'.
Proof.
  revert sec setting nodes st ret st'.
  induction fuel as [|fuel IH]; intros sec setting nodes st ret st' He; [done|]. cbn [parse_section].
  revert st. induction (rev (seq 0 (get_array_length lib setting))) as [|i idx IHi]; intros st; cbn [parse_elems].
  { intros Hq. apply (inj Some) in Hq. injection Hq as <- <-. reflexivity. }
  destruct (get_elem_from_idx lib setting i) as [elem|]; [|apply IHi].
  destruct (if exist_field_string lib elem "ref" then _ else _) as [[r1 st1]|] eqn:E1; [|done].
  assert (P st st1) as H1.
  { destruct (exist_field_string lib elem "ref").
    - unfold parser_follow_link in E1. destruct (set_find_path nodes _) as [[] ln]; cbn [negb] in E1.
      + destruct (find_root lib cfg ln) as [[link|] ln'].
        * eapply IH, E1. intros sec' elem' ? ? ? Hs. apply He. destruct sec, Hs as [-> | ->]; auto.
        * apply (inj Some) in E1. injection E1 as <- <-. reflexivity.
      + apply (inj Some) in E1. injection E1 as <- <-. reflexivity.
    - apply (inj Some) in E1. by eapply He; [left|]. }
  cbn [mbind option_bind]. case_if.
  - intros Hq. apply (inj Some) in Hq. by injection Hq as <- <-.
  - intros Hq. etransitivity; [exact H1|]. by apply IHi.
Qed.

Lemma parse_named_rel (P : desc -> desc -> Prop) `{!PreOrder P} e sec fuel cfg st ret st' :
  (forall sec' elem st ret st', sec' = sec \/ sec' = link_section sec ->
     parse_elem lib behind lua_parser_fn e sec' elem st = (ret, st') -> P st st') ->
  parse_named_section lib NODEROOT behind lua_parser_fn e fuel cfg sec st = Some (ret, st') -> P st st'.
Proof.
  intros He. unfold parse_named_section. induction (section_names sec) as [|field names IH]; cbn [parse_names].
  { intros Hq. apply (inj Some) in Hq. injection Hq as <- <-. reflexivity. }
  destruct (find_node_and_path _ _ _ _ _) as [[setting|] nodes]; [|done]. by apply parse_section_rel.
Qed.

(** An entry of a kind that is to be installed. *)
Definition entry (t : IMGTYPE) (img : img_type) : Prop := get_entry_type img = t /\ skip img = SKIP_NONE.

Definition section_type (sec : section) : IMGTYPE :=
  match sec with SecPartitions => IS_PARTITION | SecScripts => IS_SCRIPT | _ => IS_IMAGE_FILE end.

Lemma add_properties_entry t elem img : entry t (add_properties lib elem img) <-> entry t img.
Proof. unfold add_properties. by case_match. Qed.

Lemma common_attributes_entry elem sw img :
  parse_common_attributes lib behind elem sw = Some img -> is_script img = false /\ is_partitioner img = false.
Proof.
  unfold parse_common_attributes. repeat case_match; try done; intros Hq; apply (inj Some) in Hq as <-; done.
Qed.

Lemma default_type_flags t i :
  is_script (default_type t i) = is_script i /\ is_partitioner (default_type t i) = is_partitioner i.
Proof. unfold default_type. by case_if. Qed.

Lemma image_type_flags i :
  is_script (image_type i) = is_script i /\ is_partitioner (image_type i) = is_partitioner i.
Proof. unfold image_type. by repeat case_if. Qed.

Lemma read_elem_entry sec elem sw img :
  read_elem sec elem sw = Some (Some img) -> entry (section_type sec) img.
Proof.
  assert (forall t i j, kept (add_properties lib elem i) = Some j -> get_entry_type i = t -> entry t j) as Hk.
  { intros t i j. unfold kept, add_properties. case_bool_decide; [|done]. intros [= <-] Ht.
    split; [|done]. by case_match. }
  unfold read_elem. destruct (parse_common_attributes lib behind elem sw) as [i|] eqn:Ec.
  2:{ destruct sec; cbn; by repeat case_if. }
  apply common_attributes_entry in Ec as [H1 H2].
  destruct sec; cbn [mbind option_bind section_type]; try done.
  - destruct (kept _) as [p|] eqn:E; [|done]. case_if; [|done]. intros [= <-].
    eapply Hk; [exact E|]. destruct (default_type_flags "ubipartition" i) as [D1 D2].
    unfold get_entry_type. cbn. by rewrite D1, H1.
  - intros Hq. apply (inj Some) in Hq. eapply Hk; [exact Hq|]. done.
  - case_if; [done|]. intros Hq. apply (inj Some) in Hq. eapply Hk; [exact Hq|].
    destruct (image_type_flags i) as [D1 D2]. unfold get_entry_type. by rewrite D1, D2, H1, H2.
  - case_if; [done|]. intros Hq. apply (inj Some) in Hq. eapply Hk; [exact Hq|].
    destruct (default_type_flags "rawfile" i) as [D1 D2]. unfold get_entry_type. by rewrite D1, D2, H1, H2.
Qed.

(** The list of a section grew at its head, by entries of its kind; the lists stay otherwise. *)
Definition grows (sec : section) (st st' : desc) : Prop :=
  exists l, Forall (entry (section_type sec)) l /\
    images (d_sw st') = (if entry_section sec then match sec with SecScripts => [] | _ => l end else [])
                          ++ images (d_sw st) /\
    scripts (d_sw st') = (match sec with SecScripts => l | _ => [] end) ++ scripts (d_sw st).

#[local] Instance grows_preorder sec : PreOrder (grows sec).
Proof.
  split.
  - intros st. exists []. by destruct sec.
  - intros st1 st2 st3 (l1 & F1 & I1 & S1) (l2 & F2 & I2 & S2). exists (l2 ++ l1).
    split; [by apply Forall_app|]. rewrite I2, I1, S2, S1. by destruct sec; cbn; rewrite ?app_assoc.
Qed.

Lemma parse_elem_grows sec elem st ret st' :
  parse_elem lib behind lua_parser_fn None sec elem st = (ret, st') -> grows sec st st'.
Proof.
  destruct (entry_section sec) eqn:Hs.
  - rewrite parse_elem_read by done. destruct (read_elem sec elem (d_sw st)) as [[img|]|] eqn:E; intros [= <- <-].
    + exists [img]. split; [constructor; [by eapply read_elem_entry|constructor]|]. by destruct sec.
    + exists []. by destruct sec.
    + reflexivity.
  - destruct sec; try done; cbn [parse_elem]; unfold parse_bootloader_elem, parse_vars_elem, parse_variable;
      cbn [run_embscript]; repeat case_if; intros [= <- <-]; by exists [].
Qed.

Lemma parse_named_grows sec fuel cfg st ret st' :
  parse_named_section lib NODEROOT behind lua_parser_fn None fuel cfg sec st = Some (ret, st') -> grows sec st st'.
Proof.
  apply parse_named_rel; [typeclasses eauto|]. intros sec' elem st1 r1 st2 Hs Hq.
  apply parse_elem_grows in Hq. destruct sec, Hs as [-> | ->]; done.
Qed.

Lemma parse_sections_grows fuel cfg secs st ret st' :
  parse_sections lib NODEROOT behind lua_parser_fn None fuel cfg secs st = Some (ret, st') ->
  rtc (fun st1 st2 => exists sec, sec ∈ secs /\ grows sec st1 st2) st st'.
Proof.
  revert st. induction secs as [|sec secs IH]; intros st; cbn [parse_sections].
  { intros Hq. apply (inj Some) in Hq. by injection Hq as <- <-. }
  destruct (parse_named_section _ _ _ _ _ _ _ _ _) as [[r1 st1]|] eqn:E; [|done].
  apply parse_named_grows in E. cbn [mbind option_bind]. case_if; intros Hq.
  - apply (inj Some) in Hq. injection Hq as <- <-. apply rtc_once. exists sec. split; [left|done].
  - eapply rtc_l; [exists sec; split; [left|done]|]. eapply rtc_subrel; [|by apply IH].
    intros st2 st3 (sec' & Hin & Hg). exists sec'. split; [by right|done].
Qed.

(** Images and files, behind the partitions; scripts. *)
Definition lists_typed (sw : swupdate_cfg) : Prop :=
  exists parts imgs, images sw = parts ++ imgs /\ Forall (entry IS_PARTITION) parts /\
    Forall (entry IS_IMAGE_FILE) imgs /\ Forall (entry IS_SCRIPT) (scripts sw).

Lemma grows_typed secs st st' :
  rtc (fun st1 st2 => exists sec, sec ∈ secs /\ grows sec st1 st2) st st' ->
  SecPartitions ∉ secs \/ secs = [SecPartitions] ->
  (SecPartitions ∉ secs -> Forall (entry IS_IMAGE_FILE) (images (d_sw st))) ->
  lists_typed (d_sw st) ->
  lists_typed (d_sw st') /\ (SecPartitions ∉ secs -> Forall (entry IS_IMAGE_FILE) (images (d_sw st'))).
Proof.
  intros Hr Hs. induction Hr as [st|st1 st2 st3 (sec & Hin & (l & Hl & Hi & Hsc)) _ IH]; intros H1 H2; [done|].
  destruct H2 as (parts & imgs & E1 & F1 & F2 & F3). apply IH; clear IH.
  - intros Hn. specialize (H1 Hn). rewrite Hi. destruct sec; cbn in *; try done; by apply Forall_app.
  - destruct Hs as [Hn| ->].
    + specialize (H1 Hn). exists [], (images (d_sw st2)). rewrite Hi, Hsc.
      split_and!; [done|constructor| |]; destruct sec; cbn in *; try done; by apply Forall_app.
    + apply list_elem_of_singleton in Hin as ->. cbn in *. exists (l ++ parts), imgs.
      rewrite Hi, Hsc, E1, app_assoc. split_and!; try done. by apply Forall_app.
Qed.

Lemma parser_lists_typed lua_session_init lua_null lua_load_buffer hw_configured hw_file fuel cfg sw boot old
    ret st :
  (forall e, find_node lib NODEROOT cfg "embedded-script" sw = Some e -> get_field_string lib e None = None) ->
  images sw = [] -> scripts sw = [] ->
  parser lib NODEROOT behind lua_parser_fn lua_session_init lua_null lua_load_buffer hw_configured hw_file
    fuel cfg sw boot old = Some (ret, st) ->
  lists_typed (d_sw st) /\ (ret = 0 -> images (d_sw st) <> [] \/ scripts (d_sw st) <> [] \/ d_boot st <> []).
Proof.
  intros He Hi Hs. unfold parser.
  assert (match find_node lib NODEROOT cfg "embedded-script" sw with
          | Some e => get_field_string lib e None | None => None end = None) as ->.
  { destruct (find_node lib NODEROOT cfg "embedded-script" sw); [by apply He|done]. }
  cbn [load_embscript]. destruct (parse_hw_compatibility _ _ _ _ _ _) as [r1 sw1] eqn:E1.
  assert (images sw1 = [] /\ scripts sw1 = []) as [I1 S1].
  { unfold parse_hw_compatibility in E1. repeat case_match; injection E1 as <- <-; done. }
  destruct (if negb (r1 =? 0) then _ else _) as [[r2 st2]|] eqn:E2; [|done]. cbn [mbind option_bind].
  assert (lists_typed (d_sw st2)) as T2.
  { assert (lists_typed sw1) as T1 by (exists [], []; rewrite I1, S1; by repeat constructor).
    case_if; [apply (inj Some) in E2; by injection E2 as <- <-|].
    apply parse_sections_grows, grows_typed in E2; [apply E2| | |done].
    - left. rewrite !not_elem_of_cons. split_and!; [done..|apply not_elem_of_nil].
    - intros _. cbn. rewrite I1. constructor. }
  destruct (parse_sections _ _ _ _ _ _ _ [SecPartitions] st2) as [[r3 st3]|] eqn:E3; [|done].
  cbn [mbind option_bind]. apply parse_sections_grows, grows_typed in E3; [|by right|by intros []; left|done].
  destruct E3 as [T3 _].
  destruct (images (d_sw st3)) eqn:Ei, (scripts (d_sw st3)) eqn:Es, (d_boot st3) eqn:Eb; intros Hq;
    apply (inj Some) in Hq; injection Hq as <- <-; (split; [done|]); intros Hr; rewrite Ei, Es, Eb;
    first [done | by left | by right; left | by right; right].
Qed.
End Properties.

(** C37: what the parser leaves for a description without an embedded script, in either syntax and
    also when it fails: the list of images holds the partitions first and then only images and
    files, so that partitions are adjusted before anything is installed; the
    list of scripts holds only scripts; all of them are to be installed. A description
    is accepted only if there is something to install. *)
Theorem parser_typed {R N L : Type} (lib : parselib R N) (NODEROOT behind : string)
    (lua_parser_fn : option string -> img_type -> dict -> L -> Z * img_type * dict * L)
    (lua_session_init : dict -> L) (lua_null : L -> bool) (lua_load_buffer : L -> string -> Z * L)
    (hw_configured : bool) (hw_file : option string) (fuel : nat) (cfg : R) (sw : swupdate_cfg) (boot : dict)
    (old : L) (ret : Z) (st : desc) :
  (forall e, find_node lib NODEROOT cfg "embedded-script" sw = Some e -> get_field_string lib e None = None) ->
  images sw = [] -> scripts sw = [] ->
  parser lib NODEROOT behind lua_parser_fn lua_session_init lua_null lua_load_buffer hw_configured hw_file
    fuel cfg sw boot old = Some (ret, st) ->
  lists_typed (d_sw st) /\ (ret = 0 -> images (d_sw st) <> [] \/ scripts (d_sw st) <> [] \/ d_boot st <> []).
Proof. apply parser_lists_typed. Qed.

(** ** Examples *)

Definition blank_cfg : swupdate_cfg :=
  mk_cfg "" "" true true false "" "" false false REBOOT_UNSET [mk_sw_version "kernel" "5.0" false false]
    [no_limits] [] [] [] (mk_parms false "stable" "copy1") no_limits 0 "" "" (mk_hw "" "") [].

Definition no_lua (f : option string) (img : img_type) (d : dict) (l : unit) : Z * img_type * dict * unit :=
  (0, img, d, l).

Definition jobj (l : list (string * jnode)) : jnode := JObject ((fun kv => (kv.1, Some kv.2)) <$> l).
Definition jlist (l : list jnode) : jnode := JArray (Some <$> l).

(** An image of the selection, a link, a partition, a script and a variable. *)
Definition desc_json : jnode :=
  jobj [("software", jobj
    [("version", JString "2.0");
     ("stable", jobj [("copy1", jobj
        [("images", jlist
           [jobj [("filename", JString "root.img"); ("device", JString "/dev/mmcblk0p2"); ("size", JInt 6)];
            jobj [("ref", JString "#./extra")]]);
         ("extra", jlist
           [jobj [("filename", JString "data.img"); ("volume", JString "data")];
            jobj [("filename", JString "kernel.img"); ("name", JString "kernel"); ("version", JString "5.0");
                  ("install-if-different", JBool true)]])])]);
     ("partitions", jlist [jobj [("name", JString "data"); ("device", JString "mtd0"); ("size", JInt 4096)]]);
     ("scripts", jlist [jobj [("filename", JString "pre.sh"); ("type", JString "shellscript")]]);
     ("bootenv", jlist [jobj [("name", JString "bootpart"); ("value", JString "3")]])])].

Definition json_parser (fuel : nat) (cfg : jnode) : option (Z * desc) :=
  parser (json_lib jnode_json) "software" "" no_lua (fun _ => tt) (fun _ => true) (fun l _ => (0, l))
    false None fuel cfg blank_cfg [] tt.

Definition json_result (cfg : jnode) : Z * desc := default (1, mk_desc blank_cfg [] tt) (json_parser 3 cfg).

Lemma parser_typed_witness :
  (fname <$> images (d_sw (json_result desc_json).2)) = [""; "root.img"; "data.img"] /\
  (type <$> images (d_sw (json_result desc_json).2)) = ["ubipartition"; "raw"; "ubivol"] /\
  lists_typed (d_sw (json_result desc_json).2).
Proof.
  split; [vm_compute; reflexivity|]. split; [vm_compute; reflexivity|].
  refine (proj1 (parser_typed (json_lib jnode_json) "software" "" no_lua (fun _ => tt) (fun _ => true)
    (fun l _ => (0, l)) false None 3 desc_json blank_cfg [] tt 0 _ _ eq_refl eq_refl _)).
  - intros e He. vm_compute in He. discriminate.
  - vm_compute. reflexivity.
Defined.

(** The list of images of the selection, where it is. *)
Definition images_path : list string := ["software"; "stable"; "copy1"; "images"].
Definition images_node (cfg : jnode) : jnode :=
  default (JBool false) (get_node (json_lib jnode_json) cfg images_path).

Definition image_elems : list jnode :=
  [jobj [("filename", JString "root.img"); ("device", JString "/dev/mmcblk0p2"); ("size", JInt 6)];
   jobj [("filename", JString "data.img"); ("volume", JString "data")];
   jobj [("filename", JString "kernel.img"); ("name", JString "kernel"); ("version", JString "5.0");
         ("install-if-different", JBool true)]].
Definition image_entries : list (option img_type) :=
  default [] (mapM (fun e => read_elem (json_lib jnode_json) "" SecImages e blank_cfg) image_elems).

Lemma section_in_order_witness :
  fname <$> omap (fun i => i) image_entries = ["root.img"; "data.img"] /\
  parse_section (json_lib jnode_json) "" no_lua None 2 desc_json SecImages (images_node desc_json) images_path
    (mk_desc blank_cfg [] tt) =
  Some (0, with_entries SecImages (omap (fun i => i) image_entries) (mk_desc blank_cfg [] tt)).
Proof.
  split; [vm_compute; reflexivity|].
  pose proof (section_in_order (json_lib jnode_json) "" no_lua 2 desc_json SecImages (images_node desc_json)
    images_path image_elems (mk_desc blank_cfg [] tt) eq_refl ltac:(vm_compute; reflexivity)) as H.
  assert (mapM (fun e => read_elem (json_lib jnode_json) "" SecImages e blank_cfg) image_elems
    = Some image_entries) as Hm by (vm_compute; reflexivity).
  cbn [d_sw] in H. rewrite Hm in H. exact H.
Defined.

Lemma find_node_most_specific_witness :
  let cfg := jobj [("software", jobj [("version", JString "1"); ("images", JString "general");
               ("stable", jobj [("copy1", jobj [("images", JString "specific")])])])] in
  no_links (json_lib jnode_json) cfg /\
  find_node (json_lib jnode_json) "software" cfg "images" blank_cfg = Some (JString "specific").
Proof.
  cbv zeta. match goal with |- ?A /\ _ => assert A as Hn end.
  { intros nodes node. cbn [get_node json_lib]. unfold get_node_json.
    destruct nodes as [|a [|b [|c [|d [|e nodes]]]]]; cbn;
      repeat (match goal with |- context [String.eqb ?x ?y] => destruct (String.eqb x y) end; cbn);
      try (intros [= <-]; reflexivity); done. }
  split; [exact Hn|].
  rewrite (find_node_most_specific (json_lib jnode_json) "software" _ "images" blank_cfg Hn). reflexivity.
Defined.

(** A list with a link to a second one, which has one to a third one. *)
Definition chain_json : jnode :=
  jobj [("software", jobj
    [("images", jlist [jobj [("ref", JString "#./more")]; jobj [("filename", JString "a")]]);
     ("more", jlist [jobj [("filename", JString "b")]; jobj [("ref", JString "#./last")]]);
     ("last", jlist [jobj [("filename", JString "c")]])])].

Definition chain_list (name : string) : jnode * list string :=
  (default (JBool false) (get_node (json_lib jnode_json) chain_json ["software"; name]), ["software"; name]).

Lemma chain_links :
  links_of (json_lib jnode_json) chain_json (chain_list "images") = [chain_list "more"] /\
  links_of (json_lib jnode_json) chain_json (chain_list "more") = [chain_list "last"] /\
  links_of (json_lib jnode_json) chain_json (chain_list "last") = [].
Proof. split_and!; vm_compute; reflexivity. Qed.

Lemma chain_acyclic : acyclic_from (json_lib jnode_json) chain_json (chain_list "images")
  [chain_list "images"; chain_list "more"; chain_list "last"].
Proof.
  destruct chain_links as (H1 & H2 & H3). set (R := linked (json_lib jnode_json) chain_json).
  assert (forall q, rtc R (chain_list "last") q -> q = chain_list "last") as L3.
  { intros q Hq. apply rtc_inv in Hq as [->|(r & Hr & _)]; [done|]. unfold R, linked in Hr. rewrite H3 in Hr.
    by apply not_elem_of_nil in Hr. }
  assert (forall q, rtc R (chain_list "more") q -> q = chain_list "more" \/ q = chain_list "last") as L2.
  { intros q Hq. apply rtc_inv in Hq as [->|(r & Hr & Hq)]; [by left|right]. unfold R, linked in Hr. rewrite H2 in Hr.
    apply list_elem_of_singleton in Hr as ->. by apply L3. }
  assert (forall q, rtc R (chain_list "images") q -> q = chain_list "images" \/ q = chain_list "more" \/ q = chain_list "last") as L1.
  { intros q Hq. apply rtc_inv in Hq as [->|(r & Hr & Hq)]; [by left|right]. unfold R, linked in Hr. rewrite H1 in Hr.
    apply list_elem_of_singleton in Hr as ->. by apply L2. }
  split.
  - intros q Hq. rewrite !elem_of_cons. destruct (L1 q Hq) as [?|[?|?]]; auto.
  - intros q Hq Hc. assert (exists r, R q r /\ rtc R r q) as (r & Hr & Hc').
    { inversion Hc as [? ? Hr|? r ? Hr Hc']; subst; [by exists q|exists r; split; [done|by apply tc_rtc]]. }
    clear Hc. unfold R, linked in Hr.
    destruct (L1 q Hq) as [->|[->| ->]].
    + rewrite H1 in Hr. apply list_elem_of_singleton in Hr as ->. by apply L2 in Hc' as [Hc'|Hc'].
    + rewrite H2 in Hr. apply list_elem_of_singleton in Hr as ->. by apply L3 in Hc'.
    + rewrite H3 in Hr. by apply not_elem_of_nil in Hr.
Qed.

Lemma parse_section_terminates_witness :
  is_Some (parse_section (json_lib jnode_json) "" no_lua None 3 chain_json SecImages (chain_list "images").1
    ["software"; "images"] (mk_desc blank_cfg [] tt)).
Proof.
  exact (parse_section_terminates (json_lib jnode_json) "" no_lua chain_json _ _ _ 3 None SecImages (mk_desc blank_cfg [] tt)
    chain_acyclic (le_n 3)).
Defined.

(** *** What the examples show *)

(** The depth of links is bounded where an entry is looked up, but not where a list refers to a
    list: a section that refers to itself is read for ever. *)
Theorem link_loop_diverges (fuel : nat) (e : option string) (st : desc) :
  let l := jlist [jobj [("ref", JString "#./images")]] in
  let cfg := jobj [("software", jobj [("images", l)])] in
  parse_section (json_lib jnode_json) "" no_lua e fuel cfg SecImages l ["software"; "images"] st = None.
Proof.
  cbv zeta. revert st. induction fuel as [|fuel IH]; intros st; [done|].
  transitivity ('(ret, st) ← parse_section (json_lib jnode_json) "" no_lua e fuel
      (jobj [("software", jobj [("images", jlist [jobj [("ref", JString "#./images")]])])]) SecImages
      (jlist [jobj [("ref", JString "#./images")]]) ["software"; "images"] st;
    if negb (ret =? 0) then Some (ret, st) else Some (0, st)); [reflexivity|]. by rewrite IH.
Qed.

(** A link in the section of variables is read as a link of the section of the bootloader: the
    variables of the linked list go to the bootloader. *)
Theorem vars_link_to_bootloader :
  let cfg := jobj [("software", jobj
    [("vars", jlist [jobj [("ref", JString "#./more")]]);
     ("more", jlist [jobj [("name", JString "counter"); ("value", JString "1")]])])] in
  let '(ret, st) := json_result cfg in
  ret = 0 /\ cfg_vars (d_sw st) = [] /\ dict_get_value (d_boot st) "counter" = Some "1".
Proof. vm_compute. done. Qed.

(** The result of the section of partitions is dropped: an incomplete partition is not an error. *)
Theorem partition_error_ignored :
  let cfg := jobj [("software", jobj
    [("images", jlist [jobj [("filename", JString "a.img"); ("device", JString "/dev/sda1")]]);
     ("partitions", jlist [jobj [("name", JString "data"); ("size", JInt 4096)]])])] in
  (json_result cfg).1 = 0 /\ fname <$> images (d_sw (json_result cfg).2) = ["a.img"] /\
  exists st, parse_named_section (json_lib jnode_json) "software" "" no_lua None 3 cfg SecPartitions
    (mk_desc blank_cfg [] tt) = Some (-1, st).
Proof. cbv zeta. split; [vm_compute; reflexivity|]. split; [vm_compute; reflexivity|]. eexists. vm_compute. reflexivity. Qed.

(** A section that is a group instead of a list counts as a list of one element in both syntaxes, but
    the element is the group only in JSON; in libconfig it is the first setting of the
    group, and the image is lost. *)
Theorem group_is_no_list :
  let jcfg := jobj [("software", jobj [("images", jobj [("filename", JString "a.img")])])] in
  let ccfg := (None, CGroup [("software", CGroup [("images", CGroup [("filename", CString "a.img")])])]) in
  let images {R N} (lib : parselib R N) cfg :=
    match parse_named_section lib "software" "" no_lua None 2 cfg SecImages (mk_desc blank_cfg [] tt) with
    | Some (ret, st) => Some (ret, fname <$> images (d_sw st)) | None => None end in
  images (json_lib jnode_json) jcfg = Some (0, ["a.img"]) /\
  images (libconfig_lib cnode_libconfig) ccfg = Some (0, []).
Proof. vm_compute. done. Qed.

(** Sizes in JSON are read as [int]: an image of 3 GB is recorded with the largest [int]. *)
Theorem json_size_clamped (jc : json_c jnode) `{!JsonSpec jc} (e : jnode) (old : Z) :
  0 <= old < 2 ^ 31 -> get_field_int64 (json_lib jc) e (Some "size") old < 2 ^ 31.
Proof.
  intros Ho. cbn. unfold get_field_json. destruct (json_at _ _ _) as [v|]; [|lia].
  case_bool_decide; [|lia]. apply json_int_range.
Qed.

(** A string as long as its array is stored without the terminating NUL: what lies behind the
    array becomes a part of it. For an array of 256 bytes so is every longer string. *)
Theorem field_unterminated (behind s : string) (n : Z) :
  0 < n <= SWUPDATE_GENERAL_STRING_SIZE ->
  strlen s = n \/ (n = SWUPDATE_GENERAL_STRING_SIZE /\ n <= strlen s) ->
  check_field_string behind s n = str_take (Z.to_nat n) s +:+ behind.
Proof.
  intros Hn Hs. unfold check_field_string, strnlen.
  destruct (Z.ltb_spec (strlen s) n); [lia|]. destruct (Z.gtb_spec (Z.min (strlen s) SWUPDATE_GENERAL_STRING_SIZE) n); [lia|].
  done.
Qed.

(** A version that is not a string counts as present, but leaves the version of the last update in
    its place. *)
Theorem version_of_last_update :
  let cfg := jobj [("software", jobj [("version", JInt 5)])] in
  let sw := set_common "1.0" "" "" true true REBOOT_UNSET "" "" blank_cfg in
  cfg_version <$> get_common_fields (json_lib jnode_json) "software" "" cfg sw = Some "1.0".
Proof. vm_compute. done. Qed.
