(* ===== verification/Stream.v ===== *)
(** * The stream of an update: [core/stream_interface.c]

    The SWU is a cpio archive that is processed while it arrives: first
    sw-description, then its signature, then the artifacts in any order, up to the
    trailer. An artifact is skipped, copied to the temporary directory, or handed
    to its handler directly from the stream. After the last one the installer
    runs, and the state of the update is stored in the environment of the
    bootloader around it. *)
From stdpp Require Import gmap.
From S2P Require Import Prelude CString Util Versions Dict Handler Bootloader Grub State.
From S2P Require Import Vars Crypto Keys Cpio Copyfile Image Installer Parse.

Definition BOOTVAR_TRANSACTION : string := "recovery_status".
Definition TRAILER : string := "TRAILER!!!".

Definition check_reboot_enabled (sw : swupdate_cfg) : bool :=
  match reboot_enabled sw, type_reboot_enabled (update_type sw) with
  | REBOOT_ENABLED, _ => true
  | REBOOT_DISABLED, _ => false
  | REBOOT_UNSET, REBOOT_DISABLED => false
  | REBOOT_UNSET, _ => true
  end.

(** ** The state of the update *)

Section Transaction.
Context {E : Type} (bl : bootloader E) (STATE_KEY : string) (ipc_set_state : Z -> Z * msgtype).

(** The marker for the bootloader and the state for SWUpdate; errors of the former are
    ignored. The core process runs this. *)
Definition update_transaction_state (sw : swupdate_cfg) (newstate : Z) (e : E) : bool * E :=
  let dry := dry_run (parms sw) in
  let e := if negb dry && bootloader_transaction_marker sw then
             if newstate =? STATE_INSTALLED then (env_unset bl BOOTVAR_TRANSACTION e).2
             else (env_set bl BOOTVAR_TRANSACTION (get_state_string newstate) e).2
           else e in
  if negb dry && bootloader_state_marker sw then
    let '(ret, e) := save_state bl STATE_KEY ipc_set_state false newstate e in
    (ret =? 0, e)
  else (true, e).
End Transaction.

Section Stream.
Context {E V W : Type}.
#[local] Abbreviation mach := (machine E V W).
#[local] Abbreviation handler_fn := (img_type -> handler_data -> mach -> Z * img_type * mach).
#[local] Abbreviation desc_state := (swupdate_cfg * dict)%type.
(** As in [Installer]. *)
Variable bl : bootloader E.
Variable vars_apply_list : option string -> string -> V -> Z * V.
Variable lua_parser_fn : string -> img_type -> mach -> Z * img_type * mach.
Variable reg : registry handler_fn.
Variable os : io.
Variables TMPDIR tmpdir_scripts : string.
Context {C D X : Type} (hl : hash_lib C) (dl : decrypt_lib D).
Variable zcfg : config (X := X).
Variable keys : option decryption_key.
Variable fuel : nat.
(** The state in the environment. *)
Variables (STATE_KEY : string) (ipc_set_state : Z -> Z * msgtype).
(** [CONFIG_SIGNED_IMAGES], [CONFIG_HASH_VERIFY], [CONFIG_ENCRYPTED_SW_DESCRIPTION]; the
    cipher and the library for sw-description. *)
Variables signed hash_verify encrypted_sw_desc : bool.
Variables (desc_cipher : cipher_t) (desc_dl : decrypt_lib D).
(** The digest library and the parsers, which read the temporary files. *)
Variable dgstlib : gmap string bytes -> option (string -> string -> Z).
Variable parsers : gmap string bytes -> list (string -> desc_state -> Z * desc_state).
(** [check_hw_compatibility], [run_system_cmd], [fstatvfs]. *)
Variable hw_compatible : swupdate_cfg -> Z.
Variable run_system_cmd : string -> mach -> Z * mach.
Variable statvfs : option (Z * Z).
(** [CONFIG_NOCLEANUP]. *)
Variable nocleanup : bool.
(** What the stack holds where a header is read. *)
Variable stack : fd -> bytes.

(** ** Extraction *)

Definition no_header : filehdr := mk_filehdr 0 0 0 0 "".

Definition plain_args (f : fd) (nbytes offs : Z) (skip : bool) (hash : option bytes) : swupdate_copy :=
  mk_copy f None (Z.to_nat nbytes) offs 0 0 true skip COMPRESSED_FALSE hash false None None AES_UNKNOWN.

(** The tests of [extract_file_to_tmp] before the file is opened. *)
Definition desc_header_ok (fdh : filehdr) (name : string) (max_size : Z) : bool :=
  (strcmp (filename fdh) name =? 0) &&
  (strlen (TMPDIR +:+ filename fdh) <? MAX_IMAGE_FNAME) &&
  negb (negb (max_size =? 0) && (fsize fdh >=? u64 max_size)) &&
  is_filename_valid (Some (filename fdh)).

(** The result, the descriptor, the offset and the files; [None]: the fuel is used up. *)
Definition extract_file_to_tmp (f : fd) (name : string) (offs : Z) (encrypted : bool) (max_size : Z)
    (files : gmap string bytes) : option (Z * fd * Z * gmap string bytes) :=
  let '(ret, fdh, f, offs) := extract_cpio_header hl (stack f) f no_header offs in
  if negb (ret =? 0) then Some (-1, f, offs, files)
  else if negb (desc_header_ok fdh name max_size) then Some (-1, f, offs, files)
  else
    let output_file := TMPDIR +:+ filename fdh in
    if negb (can_write os output_file) then Some (-1, f, offs, files)
    else
      let args := mk_copy f None (Z.to_nat (fsize fdh)) offs 0 0 true false COMPRESSED_FALSE None
                    encrypted None None desc_cipher in
      r ← copyfile hl desc_dl copy_write fuel zcfg keys args (mk_sink [] (wr_plan os output_file));
      let files := <[output_file := written (r_out r)]> files in
      if r_ret r <? 0 then Some (-1, r_fd r, r_offs r, files)
      else if negb (swupdate_verify_chksum (r_checksum r) fdh) then Some (-1, r_fd r, r_offs r, files)
      else Some (0, r_fd r, r_offs r, files).

(** The variables of [extract_files]. *)
Record stream_state := mk_stream {
  s_fd : fd;
  s_offset : Z;
  s_sw : swupdate_cfg;
  s_mach : mach;
  s_direct : bool;
}.

(** One of the two lists of the configuration. *)
Inductive which_list := InImages | InScripts.

Definition get_list (w : which_list) (sw : swupdate_cfg) : list img_type :=
  match w with InImages => images sw | InScripts => scripts sw end.
Definition put_list (w : which_list) (l : list img_type) (sw : swupdate_cfg) : swupdate_cfg :=
  match w with InImages => set_images l sw | InScripts => set_scripts l sw end.

(** The loop over the two lists: the scripts are looked at if no image wants the file. *)
Definition find_member (fdh : filehdr) (sw : swupdate_cfg) : Z * option (which_list * nat) * swupdate_cfg :=
  let '(skip, pimg, l) := check_if_required (images sw) fdh TMPDIR in
  let sw := set_images l sw in
  if negb (skip =? SKIP_FILE) then (skip, pair InImages <$> pimg, sw)
  else
    let '(skip, pimg, l) := check_if_required (scripts sw) fdh TMPDIR in
    (skip, pair InScripts <$> pimg, set_scripts l sw).

(** Partitions are adjusted before the first image is streamed. *)
Fixpoint adjust_partitions (dry : bool) (l : list img_type) (m : mach) : Z * list img_type * mach :=
  match l with
  | [] => (0, [], m)
  | part :: l =>
      if negb (install_directly part) && is_partitioner part then
        let '(ret, part, m) := install_single_image lua_parser_fn reg part dry m in
        if negb (ret =? 0) then (-1, part :: l, m)
        else
          let '(ret, l, m) := adjust_partitions dry l m in
          (ret, set_install_directly part :: l, m)
      else
        let '(ret, l, m) := adjust_partitions dry l m in (ret, part :: l, m)
  end.

(** [COPY_FILE]. *)
Definition copy_member (fdh : filehdr) (img : img_type) (st : stream_state) : option (Z * stream_state) :=
  let out := extract_file img in
  if negb (can_write os out) then Some (-1, st)
  else
    let m := set_files (<[out := []]> (m_files (s_mach st))) (s_mach st) in
    if negb (img_check_free_space statvfs img)
    then Some (-1, mk_stream (s_fd st) (s_offset st) (s_sw st) m (s_direct st))
    else
      r ← copyfile hl dl copy_write fuel zcfg keys
            (plain_args (s_fd st) (fsize fdh) 0 false (Some (sha256 img))) (mk_sink [] (wr_plan os out));
      let m := set_files (<[out := written (r_out r)]> (m_files m)) m in
      let st := mk_stream (r_fd r) (r_offs r) (s_sw st) m (s_direct st) in
      if r_ret r <? 0 then Some (-1, st)
      else if negb (swupdate_verify_chksum (r_checksum r) fdh) then Some (-1, st)
      else Some (0, st).

(** [SKIP_FILE]. *)
Definition skip_member (fdh : filehdr) (st : stream_state) : option (Z * stream_state) :=
  r ← copyfile hl dl copy_write fuel zcfg keys
        (plain_args (s_fd st) (fsize fdh) 0 true None) (mk_sink [] []);
  let st := mk_stream (r_fd r) (r_offs r) (s_sw st) (s_mach st) (s_direct st) in
  if r_ret r <? 0 then Some (-1, st)
  else if negb (swupdate_verify_chksum (r_checksum r) fdh) then Some (-1, st)
  else Some (0, st).

(** [INSTALL_FROM_STREAM]: the handler reads the artifact from the stream; the image it
    leaves holds the descriptor. The offset of the stream was set to 0 before. *)
Definition stream_member (w : which_list) (i : nat) (st : stream_state) : Z * stream_state :=
  let sw := s_sw st in
  let dry := dry_run (parms sw) in
  let m := if s_direct st then s_mach st
           else set_env (update_transaction_state bl STATE_KEY ipc_set_state sw STATE_IN_PROGRESS
                           (m_env (s_mach st))).2 (s_mach st) in
  let '(ret, l, m) := adjust_partitions dry (images sw) m in
  let sw := set_images l sw in
  if negb (ret =? 0) then (-1, mk_stream (s_fd st) 0 sw m true)
  else
    match get_list w sw !! i with
    | None => (-1, mk_stream (s_fd st) 0 sw m true)
    | Some img =>
        let '(ret, img, m) := install_single_image lua_parser_fn reg (set_fdin (s_fd st) img) dry m in
        let sw := put_list w (<[i := img]> (get_list w sw)) sw in
        if negb (ret =? 0) then (-1, mk_stream (img_fdin img) 0 sw m true)
        else
          let installed := (update_installed_image_version (io_mem os) (installed_sw_list sw) img).2 in
          (0, mk_stream (img_fdin img) 0 (set_installed installed sw) m true)
    end.

(** A member of the archive after its header; a negative [skip] matches no case of the
    [switch], and nothing is done. *)
Definition process_member (fdh : filehdr) (st : stream_state) : option (Z * stream_state) :=
  let '(skip, pimg, sw) := find_member fdh (s_sw st) in
  let st := mk_stream (s_fd st) (s_offset st) sw (s_mach st) (s_direct st) in
  if negb (is_filename_valid (Some (filename fdh))) then Some (-1, st)
  else
    let st := mk_stream (s_fd st) 0 sw (s_mach st) (s_direct st) in
    if skip =? COPY_FILE then
      match pimg with
      | Some (w, i) =>
          match get_list w sw !! i with
          | Some img => copy_member fdh img st
          | None => Some (-1, st)
          end
      | None => Some (-1, st)
      end
    else if skip =? SKIP_FILE then skip_member fdh st
    else if skip =? INSTALL_FROM_STREAM then
      match pimg with
      | Some (w, i) => Some (stream_member w i st)
      | None => Some (-1, st)
      end
    else Some (0, st).

(** [STREAM_END]. *)
Fixpoint all_provided (l : list img_type) : Z :=
  match l with
  | [] => 0
  | img :: l =>
      if bool_decide (skip img <> SKIP_NONE) then all_provided l
      else if String.eqb (fname img) "" then all_provided l
      else if negb (provided img) then -1
      else all_provided l
  end.

(** [STREAM_DATA], [n] bounds the number of members. The padding after the trailer is read
    and dropped. *)
Fixpoint stream_data (n : nat) (st : stream_state) : option (Z * stream_state) :=
  match n with
  | O => None
  | S n =>
      let '(ret, fdh, f, offs) :=
        extract_cpio_header hl (stack (s_fd st)) (s_fd st) no_header (s_offset st) in
      let st := mk_stream f offs (s_sw st) (s_mach st) (s_direct st) in
      if negb (ret =? 0) then Some (-1, st)
      else if strcmp TRAILER (filename fdh) =? 0 then Some (all_provided (images (s_sw st)), st)
      else
        '(ret, st) ← process_member fdh st;
        if negb (ret =? 0) then Some (ret, st) else stream_data n st
  end.

(** [STREAM_WAIT_SIGNATURE] after the signature was extracted. *)
Definition check_description (st : stream_state) : Z * stream_state :=
  let m := s_mach st in
  let '(ret, (sw, bootdict)) :=
    parse reg signed hash_verify (dgstlib (m_files m)) (parsers (m_files m)) (io_mem os)
      (TMPDIR +:+ SW_DESCRIPTION_FILENAME) (s_sw st, m_bootdict m) in
  let m := mk_machine (m_files m) (m_env m) (m_vars m) bootdict (m_world m) in
  let st := mk_stream (s_fd st) (s_offset st) sw m (s_direct st) in
  if negb (ret =? 0) then (-1, st)
  else if negb (hw_compatible sw =? 0) then (-1, st)
  else
    let '(ret, m) := preupdatecmd run_system_cmd (Some sw) m in
    let st := mk_stream (s_fd st) (s_offset st) sw m (s_direct st) in
    if negb (ret =? 0) then (-1, st) else (0, st).

(** A description file from the stream. *)
Definition extract_description (name : string) (encrypted : bool) (st : stream_state)
  : option (Z * stream_state) :=
  '(ret, f, offs, files) ← extract_file_to_tmp (s_fd st) name (s_offset st) encrypted
     (swdesc_max_size (s_sw st)) (m_files (s_mach st));
  Some (ret, mk_stream f offs (s_sw st) (set_files files (s_mach st)) (s_direct st)).

Definition extract_files (n : nat) (f : fd) (sw : swupdate_cfg) (m : mach)
  : option (Z * stream_state) :=
  '(ret, st) ← extract_description SW_DESCRIPTION_FILENAME encrypted_sw_desc (mk_stream f 0 sw m false);
  if ret <? 0 then Some (-1, st)
  else
    '(ret, st) ← (if signed then extract_description (SW_DESCRIPTION_FILENAME +:+ ".sig") false st
                  else Some (0, st));
    if ret <? 0 then Some (-1, st)
    else
      let '(ret, st) := check_description st in
      if negb (ret =? 0) then Some (ret, st) else stream_data n st.

(** ** Saving the stream *)

Definition CP_BUFSIZE : nat := 16 * 1024.

(** The loop of [cpfiles]; an interrupted read is an error here. [left] is [max], which is
    not counted down when everything is to be copied. [n] is enough when it is larger
    than the number of bytes and events. *)
Fixpoint cpfiles_loop (n : nat) (cpyall : bool) (left : nat) (f : fd) (w : sink) : option (Z * fd * sink) :=
  match n with
  | O => None
  | S n =>
      let maxread := if cpyall then CP_BUFSIZE else Nat.min CP_BUFSIZE left in
      match f with
      | [] => Some (0, [], w)
      | RdIntr :: f | RdErr :: f => Some (- EIO, f, w)
      | RdData b bs :: f =>
          let chunk := take maxread (b :: bs) in
          let f := rd_block (drop maxread (b :: bs)) ++ f in
          let '(ret, w) := copy_write w chunk in
          if ret <? 0 then Some (- EIO, f, w)
          else if cpyall then cpfiles_loop n true left f w
          else
            let left := (left - length chunk)%nat in
            if (left =? 0)%nat then Some (0, f, w) else cpfiles_loop n false left f w
      end
  end.

Definition cpfiles (n : nat) (mem : bool) (f : fd) (w : sink) (max : nat) : option (Z * fd * sink) :=
  if mem then cpfiles_loop n (max =? 0)%nat max f w else Some (- ENOMEM, f, w).

(** The bytes of a cpio block after its header, in [unsigned int]. *)
Definition block_rest (fdh : filehdr) : Z :=
  let hdr := Z.of_nat HDR_SIZE in
  let t := u32 (hdr + namesize fdh) in
  let t := u32 (t + (NPAD_BYTES t + fsize fdh)) in
  let t := u32 (t + NPAD_BYTES t) in
  u32 (t - hdr).

(** One turn of the [while (files-- > 0)]: [heap] is what [malloc] left in the buffer. *)
Definition save_block (n : nat) (heap : bytes) (max_size : Z) (f : fd) (w : sink)
  : option (Z * fd * sink) :=
  let '(len, bs, f) := fill_buffer hl f HDR_SIZE in
  if len <? 0 then Some (- EFAULT, f, w)
  else
    let '(ret, fdh) := get_cpiohdr (overlay bs heap) no_header in
    if ret <? 0 then Some (- EINVAL, f, w)
    else
      let '(ret, w) := copy_write w (take (length bs) (overlay bs heap)) in
      if ret <? 0 then Some (- EIO, f, w)
      else if negb (max_size =? 0) && (fsize fdh >=? u64 max_size) then Some (- EINVAL, f, w)
      else
        '(ret, f, w) ← cpfiles n (io_mem os) f w (Z.to_nat (block_rest fdh));
        Some (if ret <? 0 then - EIO else 0, f, w).

Fixpoint save_blocks (files : nat) (n : nat) (heap : bytes) (max_size : Z) (f : fd) (w : sink)
  : option (Z * fd * sink) :=
  match files with
  | O => Some (0, f, w)
  | S files =>
      '(ret, f, w) ← save_block n heap max_size f w;
      if ret <? 0 then Some (ret, f, w) else save_blocks files n heap max_size f w
  end.

(** [save_stream]: the result, the saved file ([None] if it was not opened), the rest of the
    stream, the configuration and the machine after [cleanup_files]; [tmpfd] and
    [output] are opened ([mkpath] included) without error if [tmp_ok], [out_ok]. On
    the two early returns for [output] nothing is cleaned up. *)
Definition save_stream (n : nat) (heap : bytes) (tmp_ok out_ok : bool) (f : fd) (sw : swupdate_cfg) (m : mach)
  : option (Z * option bytes * fd * swupdate_cfg * mach) :=
  let finish ret out f sw m :=
    let '(sw, m) := cleanup_files TMPDIR tmpdir_scripts nocleanup signed sw m in Some (ret, out, f, sw, m) in
  if negb (io_mem os) then Some (- ENOMEM, None, f, sw, m)
  else if negb tmp_ok then finish (- EFAULT) None f sw m
  else
    '(ret, f, w) ← save_blocks (if signed then 2 else 1) n heap (swdesc_max_size sw) f (mk_sink [] []);
    if ret <? 0 then finish ret None f sw m
    else
      let cached := written w in
      '(ret, st) ← extract_description SW_DESCRIPTION_FILENAME encrypted_sw_desc
         (mk_stream (rd_block cached) 0 sw m false);
      if ret <? 0 then finish (- EINVAL) None f (s_sw st) (s_mach st)
      else
        '(ret, st) ← (if signed then extract_description (SW_DESCRIPTION_FILENAME +:+ ".sig") false st
                      else Some (0, st));
        if ret <? 0 then finish (- EINVAL) None f (s_sw st) (s_mach st)
        else
          let m := s_mach st in
          let '(ret, (sw, bootdict)) :=
            parse reg signed hash_verify (dgstlib (m_files m)) (parsers (m_files m)) (io_mem os)
              (TMPDIR +:+ SW_DESCRIPTION_FILENAME) (s_sw st, m_bootdict m) in
          let m := mk_machine (m_files m) (m_env m) (m_vars m) bootdict (m_world m) in
          if negb (ret =? 0) then finish (-1) None f sw m
          else if negb out_ok then Some (-1, None, f, sw, m)
          else
            '(ret, _, w) ← cpfiles n (io_mem os) (rd_block cached) (mk_sink [] []) 0;
            if ret <? 0 then finish ret (Some (written w)) f sw m
            else
              '(ret, f, w) ← cpfiles n (io_mem os) f w 0;
              finish (if ret <? 0 then ret else 0) (Some (written w)) f sw m.

(** ** Requests: the loop of [network_initializer] *)

Inductive RECOVERY_STATUS := IDLE | START | RUN | SUCCESS | FAILURE | DOWNLOAD | DONE | SUBPROCESS | PROGRESS.

Inductive run_type := RUN_DEFAULT | RUN_DRYRUN | RUN_INSTALL.

Record request := mk_request {
  req_dry_run : run_type;
  req_software_set : string;
  req_running_mode : string;
  disable_store_swu : bool;
}.

Definition apply_request (req : request) (sw : swupdate_cfg) : swupdate_cfg :=
  let p := parms sw in
  let dry := match req_dry_run req with
             | RUN_DRYRUN => true | RUN_INSTALL => false | RUN_DEFAULT => dry_run p end in
  let named := (strlen (req_software_set req) >? 0) && (strlen (req_running_mode req) >? 0) in
  let field s := strlcpy s (SWUPDATE_GENERAL_STRING_SIZE - 1) in
  set_parms (mk_parms dry (if named then field (req_software_set req) else software_set p)
               (if named then field (req_running_mode req) else running_mode p)) sw.

(** [status], [last_install] of the installer, the configuration and the machine. *)
Record served := mk_served {
  sv_status : RECOVERY_STATUS;
  sv_last : RECOVERY_STATUS;
  sv_sw : swupdate_cfg;
  sv_mach : mach;
}.

Definition transaction (sw : swupdate_cfg) (newstate : Z) (m : mach) : bool * mach :=
  let '(ok, e) := update_transaction_state bl STATE_KEY ipc_set_state sw newstate (m_env m) in
  (ok, set_env e m).

(** The installation after a successful extraction. *)
Definition install_request (sw : swupdate_cfg) (m : mach)
  : option (RECOVERY_STATUS * swupdate_cfg * mach) :=
  let m := (transaction sw STATE_IN_PROGRESS m).2 in
  '(ret, (sw, m)) ← install_images bl vars_apply_list lua_parser_fn reg os TMPDIR tmpdir_scripts
     hl dl zcfg keys fuel sw m;
  if negb (ret =? 0) then
    let m := (transaction sw STATE_FAILED m).2 in
    if dry_run (parms sw) then Some (FAILURE, sw, m)
    else
      let '(_, l, m) := run_prepost_scripts reg (scripts sw) POSTFAILURE m in
      Some (FAILURE, set_scripts l sw, m)
  else
    let '(ok, m) := transaction sw STATE_INSTALLED m in
    Some (if ok then SUCCESS else FAILURE, sw, m).

(** [save_stream] and the descriptor that replaces the stream; [old] is what was stored
    under the name before. *)
Definition store_request (n : nat) (heap : bytes) (tmp_ok out_ok : bool) (old : option bytes) (f : fd)
    (sw : swupdate_cfg) (m : mach) : option (Z * fd * swupdate_cfg * mach) :=
  '(ret, out, f, sw, m) ← save_stream n heap tmp_ok out_ok f sw m;
  match (match out with Some b => Some b | None => old end) with
  | Some b => Some (ret, rd_block b, sw, m)
  | None => Some (- ENODEV, [], sw, m)
  end.

(** A request from its start to its end. [dirs_ok]: the directories of the last update could
    be removed; if not, the loop goes on with the status as it is. *)
Definition serve_request (n : nat) (dirs_ok : bool) (heap : bytes) (tmp_ok out_ok : bool)
    (old : option bytes) (req : request) (last : RECOVERY_STATUS) (f : fd)
    (sw : swupdate_cfg) (m : mach) : option served :=
  if negb dirs_ok then Some (mk_served RUN last sw m)
  else
    let saved := parms sw in
    let sw := apply_request req sw in
    '(ret, f, sw, m) ← (if negb (disable_store_swu req) && negb (strlen (cfg_output sw) =? 0)
                        then store_request n heap tmp_ok out_ok old f sw m else Some (0, f, sw, m));
    '(ret, sw, m) ← (if ret =? 0 then
                       '(ret, st) ← extract_files n f sw m; Some (ret, s_sw st, s_mach st)
                     else Some (ret, sw, m));
    '(last, sw, m) ← (if ret =? 0 then install_request sw m else Some (FAILURE, sw, m));
    let '(sw, m) := cleanup_files TMPDIR tmpdir_scripts nocleanup signed (set_parms saved sw) m in
    Some (mk_served IDLE last sw m).

(** * Properties *)

(** ** Verification before anything else *)

(** The signature of the extracted description was verified. *)
Definition desc_verified (files : gmap string bytes) : Prop :=
  swupdate_verify_file (dgstlib files) (TMPDIR +:+ SW_DESCRIPTION_FILENAME +:+ ".sig")
    (TMPDIR +:+ SW_DESCRIPTION_FILENAME) = 0.

(** Only temporary files and the dictionary of the description differ. *)
Definition untouched (m m' : mach) : Prop :=
  m_env m' = m_env m /\ m_vars m' = m_vars m /\ m_world m' = m_world m.

Lemma untouched_trans m1 m2 m3 : untouched m1 m2 -> untouched m2 m3 -> untouched m1 m3.
Proof. intros (? & ? & ?) (? & ? & ?). unfold untouched. split_and!; congruence. Qed.

(** [st] is the stream behind the description and its signature, both extracted from [f]. *)
Definition descriptions_read (f : fd) (sw : swupdate_cfg) (m : mach) (st : stream_state) : Prop :=
  exists r0 st0 r1,
    extract_description SW_DESCRIPTION_FILENAME encrypted_sw_desc (mk_stream f 0 sw m false) = Some (r0, st0) /\
    extract_description (SW_DESCRIPTION_FILENAME +:+ ".sig") false st0 = Some (r1, st) /\ 0 <= r0 /\ 0 <= r1.

(** The description that [f] starts with was extracted, and its signature verified on the
    extracted files, before anything else was touched. *)
Definition description_signed (f : fd) (sw : swupdate_cfg) (m : mach) : Prop :=
  exists st, descriptions_read f sw m st /\ untouched m (s_mach st) /\ desc_verified (m_files (s_mach st)).

Lemma check_description_cases st ret st' :
  signed = true -> check_description st = (ret, st') ->
  desc_verified (m_files (s_mach st)) \/ (ret = -1 /\ untouched (s_mach st) (s_mach st')).
Proof.
  intros Hs. unfold check_description, desc_verified.
  destruct (parse _ _ _ _ _ _ _ _) as [r [sw d]] eqn:Hp.
  destruct (Z.eqb_spec r 0) as [->|Hr]; cbn [negb]; [|intros [= <- <-]; by right].
  intros _. left. apply parse_verified in Hp; [|done]. by rewrite str_app_assoc in Hp.
Qed.

Lemma extract_description_touch name enc st ret st' :
  extract_description name enc st = Some (ret, st') ->
  untouched (s_mach st) (s_mach st') /\ s_sw st' = s_sw st.
Proof.
  unfold extract_description. destruct (extract_file_to_tmp _ _ _ _ _ _) as [[[[r f] o] fs]|]; [|done].
  intros H. apply (inj Some) in H. by injection H as <- <-.
Qed.

(** The description was read and accepted, or the extraction failed without effect. *)
Lemma extract_files_cases n f sw m ret st' :
  extract_files n f sw m = Some (ret, st') ->
  (ret = -1 /\ untouched m (s_mach st') /\ s_sw st' = sw) \/
  exists st1 r st2, (signed = true -> descriptions_read f sw m st1) /\
    untouched m (s_mach st1) /\ s_sw st1 = sw /\ check_description st1 = (r, st2) /\
    (if negb (r =? 0) then (ret, st') = (r, st2) else stream_data n st2 = Some (ret, st')).
Proof.
  unfold extract_files.
  destruct (extract_description SW_DESCRIPTION_FILENAME _ _) as [[r1 st1]|] eqn:E1; [|done].
  pose proof (extract_description_touch _ _ _ _ _ E1) as [U1 W1]. cbn [mbind option_bind].
  destruct (Z.ltb_spec r1 0); [intros Hq; apply (inj Some) in Hq; injection Hq as <- <-; by left|].
  destruct (if signed then _ else _) as [[r2 st2]|] eqn:E2; [|done]. cbn [mbind option_bind].
  assert (untouched m (s_mach st2) /\ s_sw st2 = sw) as [U2 W2].
  { destruct signed.
    - pose proof (extract_description_touch _ _ _ _ _ E2) as [U2 W2]. split; [by eapply untouched_trans|by rewrite W2, W1].
    - apply (inj Some) in E2. by injection E2 as <- <-. }
  destruct (Z.ltb_spec r2 0); [intros H'; apply (inj Some) in H'; injection H' as <- <-; by left|].
  destruct (check_description st2) as [r3 st3] eqn:E3. intros Hq. right. exists st2, r3, st3.
  split_and!; [|done..|].
  { intros Hs. rewrite Hs in E2. by exists r1, st1, r2. }
  destruct (negb (r3 =? 0)); [|done]. by apply (inj Some) in Hq.
Qed.

Lemma extract_verified n f sw m ret st :
  signed = true -> extract_files n f sw m = Some (ret, st) ->
  (ret = -1 /\ untouched m (s_mach st)) \/ description_signed f sw m.
Proof.
  intros Hs [(? & ? & _)|(st1 & r & st2 & Hd & U & _ & Hc & Hr)]%extract_files_cases; [by left|].
  apply check_description_cases in Hc as [Hv|[-> U2]]; [right; exists st1; auto| |done].
  injection Hr as -> ->. left. split; [done|]. by eapply untouched_trans.
Qed.

Lemma extract_zero_verified n f sw m st :
  signed = true -> extract_files n f sw m = Some (0, st) -> description_signed f sw m.
Proof. intros Hs He. by destruct (extract_verified _ _ _ _ _ _ Hs He) as [[? _]|?]. Qed.

(** C1: with signed images, nothing outside the temporary files happens before the signature
    of the description was verified: the stream either fails leaving the
    environment, the variables and the devices alone, or the description and the signature
    at its start were extracted and the verification of exactly these files
    succeeded, with nothing else touched until then. In particular no handler, script
    or command has run for an image whose signature is wrong. *)
Theorem extract_files_verified (n : nat) (f : fd) (sw : swupdate_cfg) (m : mach) (ret : Z) (st : stream_state) :
  signed = true -> extract_files n f sw m = Some (ret, st) ->
  (ret = -1 /\ untouched m (s_mach st)) \/ description_signed f sw m.
Proof. apply extract_verified. Qed.

Lemma all_provided_zero l :
  all_provided l = 0 ->
  Forall (fun img => skip img = SKIP_NONE -> fname img <> "" -> provided img = true) l.
Proof.
  induction l as [|img l IH]; cbn [all_provided]; [constructor|].
  case_bool_decide as Hk; [intros H; constructor; [done|auto]|].
  destruct (String.eqb_spec (fname img) ""); [intros H; constructor; [done|auto]|].
  destruct (provided img) eqn:Hp; cbn [negb]; [|done]. intros H. constructor; auto.
Qed.

Lemma stream_data_provided n st st' :
  stream_data n st = Some (0, st') -> all_provided (images (s_sw st')) = 0.
Proof.
  revert st. induction n as [|n IH]; intros st; cbn [stream_data]; [done|].
  destruct (extract_cpio_header _ _ _ _ _) as [[[ret fdh] f] offs].
  case_if; [done|]. case_if.
  - intros H1. apply (inj Some) in H1. by injection H1 as H1 <-.
  - destruct (process_member _ _) as [[r st2]|]; [|done]. cbn [mbind option_bind].
    destruct (Z.eqb_spec r 0) as [->|Hn]; cbn [negb]; [apply IH|].
    intros H1. apply (inj Some) in H1. by injection H1 as ->.
Qed.

Lemma extract_provided (n : nat) (f : fd) (sw : swupdate_cfg) (m : mach) (st : stream_state) :
  extract_files n f sw m = Some (0, st) ->
  Forall (fun img => skip img = SKIP_NONE -> fname img <> "" -> provided img = true) (images (s_sw st)).
Proof.
  intros [(? & _)|(st1 & r & st2 & _ & _ & _ & _ & Hr)]%extract_files_cases; [done|].
  apply all_provided_zero. destruct (Z.eqb_spec r 0) as [->|Hn]; cbn [negb] in Hr.
  - by eapply stream_data_provided.
  - congruence.
Qed.

(** When the extraction succeeds, every image that the description requires was in the
    archive. *)
Theorem extract_files_complete (n : nat) (f : fd) (sw : swupdate_cfg) (m : mach) (st : stream_state) :
  extract_files n f sw m = Some (0, st) ->
  Forall (fun img => skip img = SKIP_NONE -> fname img <> "" -> provided img = true) (images (s_sw st)).
Proof. apply extract_provided. Qed.

(** ** The result of a request *)

Lemma transaction_keeps sw s m : m_files (transaction sw s m).2 = m_files m.
Proof. unfold transaction. by destruct (update_transaction_state _ _ _ _ _ _). Qed.

(** Once the directories of the last update are removed, a request always ends with the
    daemon idle, the parameters of the request undone, and no image, script or
    change for the bootloader left over, whatever its result was. If they
    cannot be removed, the status stays at [RUN]. *)
Theorem serve_request_idle (n : nat) (dirs_ok : bool) (heap : bytes) (tmp_ok out_ok : bool)
    (old : option bytes) (req : request) (last : RECOVERY_STATUS) (f : fd) (sw : swupdate_cfg) (m : mach)
    (sv : served) :
  serve_request n dirs_ok heap tmp_ok out_ok old req last f sw m = Some sv ->
  if dirs_ok then
    sv_status sv = IDLE /\ parms (sv_sw sv) = parms sw /\ images (sv_sw sv) = [] /\
    scripts (sv_sw sv) = [] /\ m_bootdict (sv_mach sv) = []
  else sv_status sv = RUN /\ sv_last sv = last /\ sv_sw sv = sw /\ sv_mach sv = m.
Proof.
  unfold serve_request. destruct dirs_ok; cbn [negb];
    [|intros Hq; apply (inj Some) in Hq as <-; done].
  destruct (if negb (disable_store_swu req) && _ then _ else _) as [[[[r1 f1] sw1] m1]|]; [|done].
  cbn [mbind option_bind].
  destruct (if r1 =? 0 then _ else _) as [[[r2 sw2] m2]|]; [|done]. cbn [mbind option_bind].
  destruct (if r2 =? 0 then _ else _) as [[[last' sw3] m3]|]; [|done]. cbn [mbind option_bind].
  cbn [cleanup_files]. intros Hq. apply (inj Some) in Hq as <-. cbn.
  split_and!; try done. by induction (m_bootdict m3).
Qed.

(** The names and values of the markers are supported by the back end. *)
Record markers_ok `{!EnvStore bl} : Prop := {
  marker_state_key : env_name_ok (check_state_var STATE_KEY) = true;
  marker_transaction : env_name_ok BOOTVAR_TRANSACTION = true;
  marker_values : forall v, is_valid_state v = true ->
    env_value_ok (state_string v) = true /\ env_value_ok (get_state_string v) = true;
}.

Lemma env_set_ok `{!EnvStore bl} k v e :
  env_ok e -> env_name_ok k = true -> env_value_ok v = true -> env_ok (env_set bl k v e).2.
Proof.
  intros He Hk Hv. destruct (env_set bl k v e) as [r e'] eqn:Hs.
  destruct (Z.eq_dec r 0) as [->|Hr]; [by eapply env_set_get|].
  by rewrite (env_set_fails _ _ _ _ _ He Hs Hr).
Qed.

Lemma env_unset_ok `{!EnvStore bl} k e : env_ok e -> env_ok (env_unset bl k e).2.
Proof.
  intros He. destruct (env_unset bl k e) as [r e'] eqn:Hs.
  destruct (Z.eq_dec r 0) as [->|Hr]; [by eapply env_unset_get|].
  by rewrite (env_unset_fails _ _ _ _ He Hs Hr).
Qed.

(** A stored state is read back by the core process. *)
Lemma transaction_state `{!EnvStore bl} sw v m m' ipc_get :
  markers_ok -> env_ok (m_env m) -> dry_run (parms sw) = false -> bootloader_state_marker sw = true ->
  is_valid_state v = true -> transaction sw v m = (true, m') ->
  get_state bl STATE_KEY ipc_get false (m_env m') = v.
Proof.
  intros [Hk Ht Hvs] He Hd Hm Hv. destruct (Hvs v Hv) as [Hv1 Hv2].
  unfold transaction, update_transaction_state. rewrite Hd, Hm. cbn [negb andb].
  match goal with |- context [save_state bl STATE_KEY ipc_set_state false v ?e] =>
    assert (env_ok e) as He1; [|destruct (save_state bl STATE_KEY ipc_set_state false v e) as [r e'] eqn:Hs] end.
  { case_if; [|done]. case_if; [by apply env_unset_ok|by apply env_set_ok]. }
  intros [= Hr <-]. apply Z.eqb_eq in Hr as ->.
  exact (proj1 (save_state_read bl STATE_KEY ipc_set_state ipc_get v _ _ He1 Hv Hk Hv1 Hs)).
Qed.

(** The installer on the machine marked as in progress. *)
Definition run_installer (sw : swupdate_cfg) (m : mach) : option (Z * (swupdate_cfg * mach)) :=
  install_images bl vars_apply_list lua_parser_fn reg os TMPDIR tmpdir_scripts hl dl zcfg keys fuel sw
    (transaction sw STATE_IN_PROGRESS m).2.

Lemma install_request_cases sw m res sw' m' :
  install_request sw m = Some (res, sw', m') ->
  exists ret sw2 m2, run_installer sw m = Some (ret, (sw2, m2)) /\
  ((ret = 0 /\ exists ok, transaction sw2 STATE_INSTALLED m2 = (ok, m') /\ sw' = sw2 /\
      res = if ok then SUCCESS else FAILURE) \/
   (ret <> 0 /\ res = FAILURE /\
      m' = if dry_run (parms sw2) then (transaction sw2 STATE_FAILED m2).2
           else (run_prepost_scripts reg (scripts sw2) POSTFAILURE (transaction sw2 STATE_FAILED m2).2).2)).
Proof.
  unfold install_request. fold (run_installer sw m).
  destruct (run_installer sw m) as [[ret [sw2 m2]]|]; [|done]. cbn [mbind option_bind].
  intros Hq. exists ret, sw2, m2. split; [done|].
  destruct (Z.eqb_spec ret 0) as [->|Hr]; cbn [negb] in Hq.
  - left. split; [done|]. destruct (transaction sw2 STATE_INSTALLED m2) as [ok m3].
    apply (inj Some) in Hq. injection Hq as <- <- <-. by exists ok.
  - right. split; [done|]. destruct (dry_run (parms sw2)).
    + apply (inj Some) in Hq. by injection Hq as <- <- <-.
    + destruct (run_prepost_scripts reg (scripts sw2) POSTFAILURE _) as [[r l] m3].
      apply (inj Some) in Hq. by injection Hq as <- <- <-.
Qed.

(** C8: the result that a request reports and the state left in the environment of the
    bootloader agree with the installer. Success is reported only if the installer
    succeeded, and then the stored state is [STATE_INSTALLED]; if the installer
    failed, failure is reported and the stored state is [STATE_FAILED], if it
    could be stored. For updates that are no dry run and keep the state
    marker, on back ends that keep their promises. *)
Theorem install_request_state `{!EnvStore bl} (sw sw' : swupdate_cfg) (m m' : mach) (res : RECOVERY_STATUS)
    (ipc_get : Z * msgtype * Z) :
  markers_ok -> keeps_env lua_parser_fn reg -> install_request sw m = Some (res, sw', m') ->
  exists ret sw2 m2, run_installer sw m = Some (ret, (sw2, m2)) /\
    (res = SUCCESS -> ret = 0) /\ (ret <> 0 -> res = FAILURE) /\
    (env_ok (m_env m2) -> dry_run (parms sw2) = false -> bootloader_state_marker sw2 = true ->
     (res = SUCCESS -> get_state bl STATE_KEY ipc_get false (m_env m') = STATE_INSTALLED) /\
     (ret <> 0 -> (transaction sw2 STATE_FAILED m2).1 = true ->
        get_state bl STATE_KEY ipc_get false (m_env m') = STATE_FAILED)).
Proof.
  intros Hmk Hk (ret & sw2 & m2 & Hi & Hc)%install_request_cases. exists ret, sw2, m2.
  split; [done|]. destruct Hc as [(-> & ok & Ht & -> & ->)|(Hn & -> & ->)].
  - split_and!; [done..|]. intros He Hd Hm. split; [|done]. intros Hok.
    destruct ok; [|done]. by eapply transaction_state.
  - split_and!; [done..|]. intros He Hd Hm. split; [done|]. intros _ Ht. rewrite Hd.
    rewrite (run_prepost_env lua_parser_fn reg Hk).
    destruct (transaction sw2 STATE_FAILED m2) as [ok m3] eqn:E3. cbn [fst snd] in *. subst ok.
    by eapply transaction_state.
Qed.


(** ** A well-formed archive *)

Record member := mk_member {
  mb_name : string;
  mb_data : bytes;
  mb_pre : bytes;
  mb_mid : bytes;
}.

Definition mb_size (mb : member) : Z := Z.of_nat (length (mb_data mb)).

Definition pad_to4 (n : Z) : bytes := repeat NUL (Z.to_nat (NPAD_BYTES n)).

(** The member in the CRC format of cpio: header, name, data, each padded. *)
Definition member_header (mb : member) : bytes :=
  cpio_entry "070702" (mb_pre mb) (mb_mid mb) (mb_size mb) (checksum_of 0 (mb_data mb)) (mb_name mb)
    (pad_to4 (Z.of_nat HDR_SIZE + strlen (mb_name mb) + 1)).

Definition member_bytes (mb : member) : bytes :=
  member_header mb ++ mb_data mb ++ pad_to4 (mb_size mb).

Definition member_hdr (mb : member) : filehdr :=
  mk_filehdr CPIO_CRCASCII (mb_size mb) (strlen (mb_name mb) + 1) (checksum_of 0 (mb_data mb)) (mb_name mb).

Record member_ok (mb : member) : Prop := {
  mb_pre_ok : length (mb_pre mb) = 48%nat;
  mb_mid_ok : length (mb_mid mb) = 32%nat;
  mb_size_ok : mb_size mb < 2 ^ 32;
  mb_fuel : (length (mb_data mb) < fuel)%nat;
  mb_name_fits : (String.length (mb_name mb) + 1 < FILENAME_SIZE)%nat;
  mb_name_nul : str_forall (fun c => negb (is_nul c)) (mb_name mb) = true;
}.

Lemma NPAD_add_aligned o x : o mod 4 = 0 -> NPAD_BYTES (o + x) = NPAD_BYTES x.
Proof. intros Ho. unfold NPAD_BYTES. rewrite <- (Zplus_mod_idemp_l o x), Ho. done. Qed.

Lemma checksum_range c bs : 0 <= c < 2 ^ 32 -> 0 <= checksum_of c bs < 2 ^ 32.
Proof.
  unfold checksum_of. revert c. induction bs as [|b bs IH]; intros c Hc; [done|].
  cbn [foldl]. apply IH, wrap_range. lia.
Qed.

Lemma pad_to4_length n : Z.of_nat (length (pad_to4 n)) = NPAD_BYTES n.
Proof. unfold pad_to4. rewrite repeat_length. pose proof (NPAD_range n). lia. Qed.

Lemma member_header_read mb f rest buf offs :
  member_ok mb -> healthy f -> content f = member_bytes mb ++ rest -> offs mod 4 = 0 -> 0 <= offs < 2 ^ 63 ->
  exists f' offs', extract_cpio_header hl buf f no_header offs = (0, member_hdr mb, f', offs') /\
    content f' = mb_data mb ++ pad_to4 (mb_size mb) ++ rest /\ healthy f'.
Proof.
  intros [H1 H2 H3 H4 H5 H6] Hf Hc Ho Hr.
  destruct (cpio_header_read hl "070702" CPIO_CRCASCII (mb_pre mb) (mb_mid mb) (mb_size mb)
    (checksum_of 0 (mb_data mb)) (mb_name mb) (pad_to4 (Z.of_nat HDR_SIZE + strlen (mb_name mb) + 1))
    (mb_data mb ++ pad_to4 (mb_size mb) ++ rest) buf offs f no_header) as (f' & o' & E1 & E2 & E3 & _).
  - split; try done.
    + unfold mb_size in *. lia.
    + apply checksum_range. lia.
    + rewrite pad_to4_length. rewrite <- (NPAD_add_aligned offs) by done. f_equal. lia.
  - done.
  - rewrite Hc. unfold member_bytes, member_header. by rewrite <- !app_assoc.
  - eauto.
Qed.

Lemma sent_content w bs w' :
  sent copy_write w bs w' -> plan w = [] -> written w' = written w ++ bs /\ plan w' = [].
Proof.
  induction 1 as [w|w b w1 out w2 ret Hc Hr _ IH]; intros Hp; [by rewrite app_nil_r|].
  unfold copy_write in Hc. rewrite Hp in Hc. destruct b as [|x b].
  - injection Hc as <- <-. destruct IH as [-> ->]; [done|]. done.
  - injection Hc as <- <-. destruct IH as [-> ->]; [done|]. cbn. by rewrite <- app_assoc.
Qed.

Lemma copy_write_accepting : accepting copy_write (fun w => plan w = []).
Proof.
  intros w b Hw. unfold copy_write. rewrite Hw. by destruct b.
Qed.

Lemma plain_member_copy `{!HashSpec hl} mb f rest skip hash :
  member_ok mb -> hash_total hl -> healthy f ->
  content f = mb_data mb ++ pad_to4 (mb_size mb) ++ rest ->
  (forall h, hash = Some h -> valid_hash (Some h) = true -> h = sha (mb_data mb)) ->
  exists r, copyfile hl dl copy_write fuel zcfg keys (plain_args f (mb_size mb) 0 skip hash) (mk_sink [] []) = Some r /\
    r_ret r = 0 /\ (skip = false -> written (r_out r) = mb_data mb) /\
    r_checksum r = checksum_of 0 (mb_data mb) /\ content (r_fd r) = rest /\ healthy (r_fd r) /\
    r_offs r mod 4 = 0 /\ 0 <= r_offs r < 2 ^ 63.
Proof.
  intros Hm Ht Hf Hc Hh. pose proof (mb_size_ok _ Hm) as Hs. unfold mb_size in *.
  set (args := plain_args f (Z.of_nat (length (mb_data mb))) 0 skip hash).
  assert (c_nbytes args = length (mb_data mb)) as En by (cbn; lia).
  assert (take (length (mb_data mb)) (content f) = mb_data mb) as Et by (rewrite Hc; apply take_app_length).
  destruct (copyfile_intact hl dl copy_write (fun w => plan w = []) fuel zcfg keys args (mk_sink [] []))
    as (r & Er & Hr & Ho & Hk & Hrest).
  - split; try done. rewrite En. lia.
  - done.
  - apply copy_write_accepting.
  - done.
  - intros h E1 E2. rewrite En. cbn [c_fdin args plain_args]. rewrite Et. by apply Hh.
  - rewrite En. apply Hm.
  - exists r. rewrite En in *. change (c_fdin args) with f in *. change (c_offs args) with 0 in *.
    change (c_skip_file args) with skip in *. rewrite Et in *. rewrite Z.add_0_l in *.
    pose proof (NPAD_range (Z.of_nat (length (mb_data mb)))) as Hnp.
    assert (drop (length (mb_data mb)) (content f) = pad_to4 (Z.of_nat (length (mb_data mb))) ++ rest) as Ed
      by (rewrite Hc; apply drop_app_length).
    destruct Hrest as (R1 & R2 & R3 & R4).
    { rewrite Hc, !length_app. unfold pad_to4. rewrite repeat_length. lia. }
    rewrite Ed in R1. unfold pad_to4 in R1. rewrite drop_app_length' in R1 by (by rewrite repeat_length).
    split_and!; try done; [|lia..]. intros ->. by destruct (sent_content _ _ _ Ho eq_refl) as [-> _].
Qed.

(** What an archive member does to the lists and the temporary files. *)
Definition store_member (s : swupdate_cfg * gmap string bytes) (mb : member)
  : swupdate_cfg * gmap string bytes :=
  let '(sw, files) := s in
  let h := member_hdr mb in
  let files' := <[TMPDIR +:+ mb_name mb := mb_data mb]> files in
  match users h (images sw), users h (scripts sw) with
  | _ :: _, _ => (set_images (found_image h TMPDIR <$> images sw) sw, files')
  | [], _ :: _ => (set_scripts (found_image h TMPDIR <$> scripts sw) sw, files')
  | [], [] => (sw, files)
  end.

(** An image or script is served by a member without streaming. *)
Record serves `{!HashSpec hl} (mb : member) (l : list img_type) : Prop := {
  srv_size : Forall (size_agrees (member_hdr mb)) (users (member_hdr mb) l);
  srv_copy : Forall (fun img => install_directly img = false) (users (member_hdr mb) l);
  srv_hash : Forall (fun img => valid_hash (Some (sha256 img)) = true -> sha256 img = sha (mb_data mb))
               (users (member_hdr mb) l);
  srv_space : Forall (fun img => img_check_free_space statvfs (found_image (member_hdr mb) TMPDIR img) = true)
                (users (member_hdr mb) l);
}.

Record storable `{!HashSpec hl} (mb : member) (sw : swupdate_cfg) : Prop := {
  sto_member : member_ok mb;
  sto_valid : is_filename_valid (Some (mb_name mb)) = true;
  sto_trailer : mb_name mb <> TRAILER;
  sto_path : strlen (TMPDIR +:+ mb_name mb) < MAX_IMAGE_FNAME;
  sto_write : can_write os (TMPDIR +:+ mb_name mb) = true;
  sto_plan : wr_plan os (TMPDIR +:+ mb_name mb) = [];
  sto_images : serves mb (images sw);
  sto_scripts : serves mb (scripts sw);
}.

(** The stream stands behind a member, with the effect of the member. *)
Definition stored (st st' : stream_state) (mb : member) (rest : bytes) : Prop :=
  (s_sw st', m_files (s_mach st')) = store_member (s_sw st, m_files (s_mach st)) mb /\
  s_mach st' = set_files (m_files (s_mach st')) (s_mach st) /\
  content (s_fd st') = rest /\ healthy (s_fd st') /\ s_offset st' mod 4 = 0 /\ 0 <= s_offset st' < 2 ^ 63.

Lemma verify_member mb : swupdate_verify_chksum (checksum_of 0 (mb_data mb)) (member_hdr mb) = true.
Proof. unfold swupdate_verify_chksum. cbn. apply Z.eqb_refl. Qed.

Lemma users_wants pfdh l img : img ∈ users pfdh l -> wants pfdh img = true.
Proof. unfold users. by intros [? _]%list_elem_of_filter. Qed.

Section Archive.
Context `{!HashSpec hl} (Htotal : hash_total hl).

Lemma copy_member_stored mb sw0 st rest img l :
  storable mb sw0 -> img ∈ users (member_hdr mb) l -> serves mb l ->
  healthy (s_fd st) -> content (s_fd st) = mb_data mb ++ pad_to4 (mb_size mb) ++ rest ->
  exists st', copy_member (member_hdr mb) (found_image (member_hdr mb) TMPDIR img) st = Some (0, st') /\
    s_sw st' = s_sw st /\
    s_mach st' = set_files (<[TMPDIR +:+ mb_name mb := mb_data mb]> (m_files (s_mach st))) (s_mach st) /\
    content (s_fd st') = rest /\ healthy (s_fd st') /\ s_offset st' mod 4 = 0 /\ 0 <= s_offset st' < 2 ^ 63.
Proof.
  intros Hs Hin [Sz Sc Sh Sp] Hf Hc. rewrite Forall_forall in Sh, Sp.
  pose proof (users_wants _ _ _ Hin) as Hw. specialize (Sh img Hin). specialize (Sp img Hin).
  unfold copy_member. rewrite Sp. unfold found_image in *. rewrite Hw in *.
  cbn [extract_file set_extract_file filename member_hdr sha256 set_size set_provided].
  rewrite (sto_write _ _ Hs), (sto_plan _ _ Hs). cbn [negb].
  destruct (plain_member_copy mb (s_fd st) rest false (Some (sha256 img)) (sto_member _ _ Hs) Htotal Hf Hc)
    as (r & Er & Hr & Hwr & Hk & R1 & R2 & R3 & R4); [by intros h [= <-]|].
  change (fsize (member_hdr mb)) with (mb_size mb).
  change (sha256 (set_extract_file _ _)) with (sha256 img). rewrite Er. cbn [mbind option_bind].
  rewrite Hr, Hk, verify_member. cbn [Z.ltb Z.compare negb]. eexists. split; [reflexivity|].
  cbn [s_sw s_mach s_fd s_offset]. split_and!; [done| |done|done|done|lia|lia].
  unfold set_files. cbn. f_equal. rewrite Hwr by done. apply insert_insert_eq.
Qed.

Lemma skip_member_stored mb sw0 st rest :
  storable mb sw0 -> healthy (s_fd st) ->
  content (s_fd st) = mb_data mb ++ pad_to4 (mb_size mb) ++ rest ->
  exists st', skip_member (member_hdr mb) st = Some (0, st') /\
    s_sw st' = s_sw st /\ s_mach st' = s_mach st /\
    content (s_fd st') = rest /\ healthy (s_fd st') /\ s_offset st' mod 4 = 0 /\ 0 <= s_offset st' < 2 ^ 63.
Proof.
  intros Hs Hf Hc. unfold skip_member. change (fsize (member_hdr mb)) with (mb_size mb).
  destruct (plain_member_copy mb (s_fd st) rest true None (sto_member _ _ Hs) Htotal Hf Hc)
    as (r & Er & Hr & _ & Hk & R1 & R2 & R3 & R4); [done|].
  rewrite Er. cbn [mbind option_bind]. rewrite Hr, Hk, verify_member. cbn [Z.ltb Z.compare negb].
  eexists. split; [reflexivity|]. done.
Qed.

Lemma last_users_cases pfdh l :
  match last (users pfdh l) with
  | None => users pfdh l = []
  | Some img => img ∈ users pfdh l /\ exists x r, users pfdh l = x :: r
  end.
Proof.
  destruct (last (users pfdh l)) as [img|] eqn:Hl; [|by apply last_None].
  split; [by apply last_Some_elem_of|]. destruct (users pfdh l); [done|eauto].
Qed.

Lemma process_member_stored mb st rest :
  storable mb (s_sw st) -> healthy (s_fd st) ->
  content (s_fd st) = mb_data mb ++ pad_to4 (mb_size mb) ++ rest ->
  exists st', process_member (member_hdr mb) st = Some (0, st') /\ stored st st' mb rest.
Proof.
  intros Hs Hf Hc. pose proof (sto_images _ _ Hs) as Hi. pose proof (sto_scripts _ _ Hs) as Hsc.
  unfold process_member, find_member, stored, store_member.
  pose proof (check_if_required_copy (images (s_sw st)) (member_hdr mb) TMPDIR (srv_size _ _ Hi)
    (sto_path _ _ Hs) (srv_copy _ _ Hi)) as Ci.
  pose proof (last_users_cases (member_hdr mb) (images (s_sw st))) as Li.
  destruct (last (users (member_hdr mb) (images (s_sw st)))) as [img|].
  - destruct Ci as (i & Hl & ->). destruct Li as (Hin & x & r & ->).
    change (COPY_FILE =? SKIP_FILE) with false. cbn [negb fmap option_fmap option_map].
    change (filename (member_hdr mb)) with (mb_name mb). rewrite (sto_valid _ _ Hs).
    change (COPY_FILE =? COPY_FILE) with true. cbn [negb].
    change (get_list InImages (set_images ?l _)) with l. rewrite list_lookup_fmap, Hl.
    cbn [fmap option_fmap option_map s_fd s_mach s_direct s_sw].
    destruct (copy_member_stored mb (s_sw st) (mk_stream (s_fd st) 0
      (set_images (found_image (member_hdr mb) TMPDIR <$> images (s_sw st)) (s_sw st)) (s_mach st) (s_direct st))
      rest img (images (s_sw st)) Hs Hin Hi Hf Hc) as (st' & -> & E1 & E2 & E3 & E4 & E5 & E6).
    exists st'. split; [done|]. rewrite E1, E2. cbn. split_and!; try done; lia.
  - rewrite Ci, Li. change (SKIP_FILE =? SKIP_FILE) with true. cbn [negb].
    assert (set_images (images (s_sw st)) (s_sw st) = s_sw st) as -> by (by destruct (s_sw st)).
    pose proof (check_if_required_copy (scripts (s_sw st)) (member_hdr mb) TMPDIR (srv_size _ _ Hsc)
      (sto_path _ _ Hs) (srv_copy _ _ Hsc)) as Cs.
    pose proof (last_users_cases (member_hdr mb) (scripts (s_sw st))) as Ls.
    destruct (last (users (member_hdr mb) (scripts (s_sw st)))) as [img|].
    + destruct Cs as (i & Hl & ->). destruct Ls as (Hin & x & r & ->).
      change (filename (member_hdr mb)) with (mb_name mb). rewrite (sto_valid _ _ Hs).
      change (COPY_FILE =? COPY_FILE) with true. cbn [negb fmap option_fmap option_map].
      change (get_list InScripts (set_scripts ?l _)) with l. rewrite list_lookup_fmap, Hl.
    cbn [fmap option_fmap option_map s_fd s_mach s_direct s_sw].
      destruct (copy_member_stored mb (s_sw st) (mk_stream (s_fd st) 0
        (set_scripts (found_image (member_hdr mb) TMPDIR <$> scripts (s_sw st)) (s_sw st)) (s_mach st) (s_direct st))
        rest img (scripts (s_sw st)) Hs Hin Hsc Hf Hc) as (st' & -> & E1 & E2 & E3 & E4 & E5 & E6).
      exists st'. split; [done|]. rewrite E1, E2. cbn. split_and!; try done; lia.
    + rewrite Cs, Ls. assert (set_scripts (scripts (s_sw st)) (s_sw st) = s_sw st) as -> by (by destruct (s_sw st)).
      change (filename (member_hdr mb)) with (mb_name mb). rewrite (sto_valid _ _ Hs).
      destruct (skip_member_stored mb (s_sw st) (mk_stream (s_fd st) 0 (s_sw st) (s_mach st) (s_direct st))
        rest Hs Hf Hc) as (st' & Es & E1 & E2 & E3 & E4 & E5 & E6).
      exists st'. split; [exact Es|]. rewrite E1, E2. cbn. split_and!; try done; try lia. by destruct (s_mach st).
Qed.
(** Every member can be stored, given the lists that the ones before it left. *)
Fixpoint archive_ok (l : list member) (s : swupdate_cfg * gmap string bytes) : Prop :=
  match l with
  | [] => True
  | mb :: l => storable mb s.1 /\ archive_ok l (store_member s mb)
  end.

(** C4: a well-formed archive is extracted exactly. Whatever the sizes in which the stream
    delivers it, every member that an image or a script of the description names
    ends up, complete, under its name in the temporary directory, with its
    users marked as provided; the other members are skipped; nothing else
    changes; the trailer ends the extraction, which then succeeds if all
    required images were provided. The number of turns is that of the members. *)
Theorem archive_extracted (l : list member) (tr : member) (rest : bytes) (n : nat) (st : stream_state) :
  archive_ok l (s_sw st, m_files (s_mach st)) -> member_ok tr -> mb_name tr = TRAILER ->
  healthy (s_fd st) -> content (s_fd st) = concat (member_bytes <$> l) ++ member_bytes tr ++ rest ->
  s_offset st mod 4 = 0 -> 0 <= s_offset st < 2 ^ 63 -> (length l < n)%nat ->
  exists st', stream_data n st = Some (all_provided (images (s_sw st')), st') /\
    (s_sw st', m_files (s_mach st')) = foldl store_member (s_sw st, m_files (s_mach st)) l /\
    s_mach st' = set_files (m_files (s_mach st')) (s_mach st).
Proof.
  revert n st. induction l as [|mb l IH]; intros n st Ha Ht Hn Hf Hc Ho Hr Hl.
  - destruct n as [|n]; [cbn in Hl; lia|]. cbn [stream_data fmap list_fmap concat app] in *.
    destruct (member_header_read tr (s_fd st) rest (stack (s_fd st)) (s_offset st) Ht Hf Hc Ho Hr)
      as (f' & o' & -> & _ & _). cbn [negb Z.eqb].
    change (filename (member_hdr tr)) with (mb_name tr). rewrite Hn.
    change (strcmp TRAILER TRAILER =? 0) with true.
    eexists. split; [reflexivity|]. split; [done|]. by destruct (s_mach st).
  - destruct n as [|n]; [cbn in Hl; lia|]. destruct Ha as [Hs Ha].
    cbn [stream_data fmap list_fmap concat foldl] in *. rewrite <- app_assoc in Hc.
    destruct (member_header_read mb (s_fd st) _ (stack (s_fd st)) (s_offset st) (sto_member _ _ Hs) Hf Hc Ho Hr)
      as (f' & o' & -> & Hc' & Hf'). cbn [negb Z.eqb].
    change (filename (member_hdr mb)) with (mb_name mb). rewrite strcmp_eq, bool_decide_false
      by (intros Hq; by apply (sto_trailer _ _ Hs)).
    destruct (process_member_stored mb (mk_stream f' o' (s_sw st) (s_mach st) (s_direct st)) _ Hs Hf' Hc')
      as (st1 & -> & E1 & E2 & E3 & E4 & E5 & E6). cbn [mbind option_bind negb Z.eqb].
    cbn [s_sw s_mach s_fd s_offset] in *. rewrite <- E1 in Ha |- *.
    destruct (IH n st1 Ha Ht Hn E4 E3 E5 E6 ltac:(cbn in Hl; lia)) as (st' & H1 & H2 & H3).
    exists st'. split_and!; [done|done|]. by rewrite H3, E2.
Qed.
End Archive.
End Stream.

(** ** An example: a signed update of one image, on GRUB *)

Definition text (s : string) : bytes := String.list_ascii_of_string s.

Definition mb (name data : string) : member := mk_member name (text data) (repeat "0"%char 48) (repeat "0"%char 32).

Definition sample_swu (sig : string) : fd :=
  rd_block (concat (member_bytes <$> [mb "sw-description" "desc"; mb "sw-description.sig" sig;
                                      mb "root.img" "rootfs"; mb "extra" "xy"; mb TRAILER ""])).

Definition sample_dgst (files : gmap string bytes) : option (string -> string -> Z) :=
  Some (fun sigfile _ => if bool_decide (files !! sigfile = Some (text "good")) then 0 else -1).

Definition swu_image : img_type :=
  mk_img (mk_sw_version "rootfs" "2.0" true false) "raw" "root.img" "" "" "" "" "" "" "" "" "" 0
    SKIP_NONE false COMPRESSED_FALSE false false AES_CBC "" "" false false false [] 0 [] 0 0
    (toy_sha (text "rootfs")).

(** The parser: the configuration of one image, and a variable for the bootloader. *)
Definition swu_cfg : swupdate_cfg :=
  mk_cfg "" "2.0" true true false "" "" false false REBOOT_UNSET [] [sample_type] [swu_image] [] []
    (mk_parms false "" "") sample_type 0 "" "" (mk_hw "" "") [].

Definition sample_parsers (files : gmap string bytes)
  : list (string -> swupdate_cfg * dict -> Z * (swupdate_cfg * dict)) :=
  [fun _ _ => (0, (swu_cfg, [mk_dict_entry "bootpart" ["3"]]))].

Definition sample_registry2 :=
  mk_registry [mk_handler "raw" (log_handler "raw" 0) 0 IMAGE_HANDLER false;
               mk_handler "bootenv" quiet_handler 0 BOOTLOADER_HANDLER false] 2 ULONG_MAX.

Definition start_cfg : swupdate_cfg := set_images [] swu_cfg.
Definition start_machine : sample_machine :=
  mk_machine ∅ (grub_block ["ustate=0"; "bootpart=2"]) tt [] [].

Definition sample_extract (sig : string) : option (Z * stream_state) :=
  extract_files (grub true) sample_lua sample_registry2 sample_io "/tmp/" toy_hash_lib toy_stream toy_config
    None 16 "ustate" (fun _ => (0, ACK)) true true false AES_CBC toy_stream sample_dgst sample_parsers
    (fun _ => 0) (fun _ m => (0, m)) None (fun _ => []) 8 (sample_swu sig) start_cfg start_machine.

Definition sample_serve (sig : string) : option served :=
  serve_request (grub true) (fun _ _ v => (0, v)) sample_lua sample_registry2 sample_io "/tmp/" "/tmp/scripts/"
    toy_hash_lib toy_stream toy_config None 16 "ustate" (fun _ => (0, ACK)) true true false AES_CBC toy_stream
    sample_dgst sample_parsers (fun _ => 0) (fun _ m => (0, m)) None false (fun _ => []) 8 true [] true true
    None (mk_request RUN_DEFAULT "" "" false) IDLE (sample_swu sig) start_cfg start_machine.

Definition no_stream : stream_state := mk_stream [] 0 start_cfg start_machine false.
Definition extracted (sig : string) : Z * stream_state := default (1, no_stream) (sample_extract sig).
Definition served_state (sig : string) : served :=
  default (mk_served RUN RUN start_cfg start_machine) (sample_serve sig).

Lemma extract_files_verified_witness :
  untouched start_machine (s_mach (extracted "bad").2) /\
  description_signed sample_io "/tmp/" toy_hash_lib toy_config None 16 false AES_CBC toy_stream sample_dgst
    (fun _ => []) (sample_swu "good") start_cfg start_machine.
Proof.
  split; [vm_compute; split_and!; reflexivity|].
  destruct (extract_files_verified (grub true) sample_lua sample_registry2 sample_io "/tmp/" toy_hash_lib
    toy_stream toy_config None 16 "ustate" (fun _ => (0, ACK)) true true false AES_CBC toy_stream sample_dgst
    sample_parsers (fun _ => 0) (fun _ m => (0, m)) None (fun _ => []) 8 (sample_swu "good") start_cfg
    start_machine 0 (extracted "good").2 eq_refl ltac:(vm_compute; reflexivity)) as [[Hr _]|Hv]; [discriminate Hr|].
  exact Hv.
Defined.

Lemma extract_files_complete_witness :
  images (s_sw (extracted "good").2) <> [] /\
  Forall (fun img => skip img = SKIP_NONE -> fname img <> "" -> provided img = true)
    (images (s_sw (extracted "good").2)).
Proof.
  split; [vm_compute; discriminate|].
  refine (extract_files_complete (grub true) sample_lua sample_registry2 sample_io "/tmp/" toy_hash_lib toy_stream
    toy_config None 16 "ustate" (fun _ => (0, ACK)) true true false AES_CBC toy_stream sample_dgst sample_parsers
    (fun _ => 0) (fun _ m => (0, m)) None (fun _ => []) 8 (sample_swu "good") start_cfg start_machine _ _).
  vm_compute. reflexivity.
Defined.

Lemma serve_request_idle_witness :
  sv_last (served_state "good") = SUCCESS /\
  env_get (grub true) "bootpart" (m_env (sv_mach (served_state "good"))) = Some "3" /\
  sv_status (served_state "good") = IDLE /\ parms (sv_sw (served_state "good")) = parms start_cfg /\
  images (sv_sw (served_state "good")) = [] /\ scripts (sv_sw (served_state "good")) = [] /\
  m_bootdict (sv_mach (served_state "good")) = [].
Proof.
  split; [vm_compute; reflexivity|]. split; [vm_compute; reflexivity|].
  refine (serve_request_idle (grub true) (fun _ _ v => (0, v)) sample_lua sample_registry2 sample_io "/tmp/"
    "/tmp/scripts/" toy_hash_lib toy_stream toy_config None 16 "ustate" (fun _ => (0, ACK)) true true false AES_CBC
    toy_stream sample_dgst sample_parsers (fun _ => 0) (fun _ m => (0, m)) None false (fun _ => []) 8 true [] true
    true None (mk_request RUN_DEFAULT "" "" false) IDLE (sample_swu "good") start_cfg start_machine _ _).
  vm_compute. reflexivity.
Defined.


Lemma sample_keeps_env2 : keeps_env sample_lua sample_registry2.
Proof.
  split; [|done]. intros t hnd img d m Hf.
  unfold find_handler in Hf. case_match; [done|]. apply list_elem_of_lookup_2 in Hf.
  change (supported_types sample_registry2) with
    [mk_handler "raw" (log_handler "raw" 0) 0 IMAGE_HANDLER false;
     mk_handler "bootenv" quiet_handler 0 BOOTLOADER_HANDLER false] in Hf.
  repeat (apply elem_of_cons in Hf as [->|Hf]; [done|]). by apply elem_of_nil in Hf.
Qed.

Lemma valid_states v : is_valid_state v = true -> v ∈ [48; 49; 50; 51; 52; 53; 54; 55].
Proof.
  unfold is_valid_state, STATE_OK, STATE_LAST, STATE_IN_PROGRESS. intros Hv.
  assert (48 <= v <= 55) as Hr by (bool_to_prop; lia).
  assert (v = 48 \/ v = 49 \/ v = 50 \/ v = 51 \/ v = 52 \/ v = 53 \/ v = 54 \/ v = 55) as Hd by lia.
  rewrite !elem_of_cons. tauto.
Qed.

Lemma grub_markers_ok : markers_ok (grub true) "ustate".
Proof.
  split; [reflexivity|reflexivity|]. intros v Hv%valid_states.
  repeat (apply elem_of_cons in Hv as [->|Hv]; [split; reflexivity|]). by apply elem_of_nil in Hv.
Qed.

Definition sample_request (kind : string) : option (RECOVERY_STATUS * swupdate_cfg * sample_machine) :=
  install_request (grub true) (fun _ _ v => (0, v)) sample_lua sample_registry sample_io "/tmp/" "/tmp/scripts/"
    toy_hash_lib toy_stream toy_config None 8 "ustate" (fun _ => (0, ACK)) (sample_cfg false kind) sample_state.

Lemma install_request_state_witness :
  exists ret sw2 m2,
    run_installer (grub true) (fun _ _ v => (0, v)) sample_lua sample_registry sample_io "/tmp/" "/tmp/scripts/"
      toy_hash_lib toy_stream toy_config None 8 "ustate" (fun _ => (0, ACK)) (sample_cfg false "broken") sample_state =
      Some (ret, (sw2, m2)) /\ (FAILURE = SUCCESS -> ret = 0).
Proof.
  destruct (sample_request "broken") as [[[res sw'] m']|] eqn:Hq; [|vm_compute in Hq; discriminate].
  assert (res = FAILURE) as Hres.
  { assert (fst <$> (fst <$> sample_request "broken") = Some FAILURE) as Hf by (vm_compute; reflexivity).
    rewrite Hq in Hf. cbn in Hf. congruence. }
  destruct (install_request_state (grub true) (fun _ _ v => (0, v)) sample_lua sample_registry sample_io "/tmp/"
    "/tmp/scripts/" toy_hash_lib toy_stream toy_config None 8 "ustate" (fun _ => (0, ACK))
    (sample_cfg false "broken") sw' sample_state m' res (0, ACK, 0) grub_markers_ok sample_keeps_env Hq)
    as (ret & sw2 & m2 & H1 & H2 & _).
  exists ret, sw2, m2. split; [exact H1|]. rewrite <- Hres. exact H2.
Defined.

(** The state after the description of [sample_swu]. *)
Definition data_state : stream_state :=
  mk_stream (rd_block (concat (member_bytes <$> [mb "root.img" "rootfs"; mb "extra" "xy"; mb TRAILER ""])))
    0 swu_cfg start_machine false.

Lemma mb_ok name data :
  (String.length name + 1 < FILENAME_SIZE)%nat -> str_forall (fun c => negb (is_nul c)) name = true ->
  (String.length data < 16)%nat -> member_ok 16 (mb name data).
Proof.
  intros Hn Hz Hd. assert (length (text data) = String.length data) as El.
  { unfold text. clear. induction data as [|c s IH]; [done|]. cbn. by rewrite IH. }
  split; try done; cbn [mb mb_data mb_name]; unfold mb_size; cbn [mb mb_data]; rewrite ?El; lia.
Qed.

Lemma sample_serves name data l :
  users (member_hdr (mb name data)) l = [] ->
  serves "/tmp/" toy_hash_lib None (mb name data) l.
Proof. intros Hu. split; rewrite Hu; constructor. Qed.

Lemma sample_serves_image : serves "/tmp/" toy_hash_lib None (mb "root.img" "rootfs") [swu_image].
Proof.
  assert (users (member_hdr (mb "root.img" "rootfs")) [swu_image] = [swu_image]) as Hu by (vm_compute; reflexivity).
  split; rewrite Hu; apply Forall_singleton.
  - left. reflexivity.
  - reflexivity.
  - intros _. vm_compute. reflexivity.
  - vm_compute. reflexivity.
Qed.

Lemma sample_archive_ok :
  archive_ok sample_io "/tmp/" toy_hash_lib 16 None [mb "root.img" "rootfs"; mb "extra" "xy"] (swu_cfg, ∅).
Proof.
  split; [|split; [|exact I]].
  - split; try reflexivity; try discriminate.
    + apply mb_ok; vm_compute; [repeat constructor|reflexivity|repeat constructor].
    + apply sample_serves_image.
    + apply sample_serves. reflexivity.
  - split; try reflexivity; try discriminate.
    + apply mb_ok; vm_compute; [repeat constructor|reflexivity|repeat constructor].
    + apply sample_serves. vm_compute. reflexivity.
    + apply sample_serves. vm_compute. reflexivity.
Qed.

Lemma archive_extracted_witness :
  exists st', stream_data (grub true) sample_lua sample_registry2 sample_io "/tmp/" toy_hash_lib toy_stream
      toy_config None 16 "ustate" (fun _ => (0, ACK)) None (fun _ => []) 3 data_state =
      Some (all_provided (images (s_sw st')), st') /\
    m_files (s_mach st') !! "/tmp/root.img" = Some (text "rootfs") /\ m_files (s_mach st') !! "/tmp/extra" = None.
Proof.
  destruct (archive_extracted (grub true) sample_lua sample_registry2 sample_io "/tmp/" toy_hash_lib toy_stream
    toy_config None 16 "ustate" (fun _ => (0, ACK)) None (fun _ => []) toy_hash_total
    [mb "root.img" "rootfs"; mb "extra" "xy"] (mb TRAILER "") [] 3 data_state sample_archive_ok) as (st' & H1 & H2 & _).
  - apply mb_ok; vm_compute; [repeat constructor|reflexivity|repeat constructor].
  - reflexivity.
  - vm_compute. exact I.
  - vm_compute. reflexivity.
  - reflexivity.
  - vm_compute. split; [discriminate|reflexivity].
  - repeat constructor.
  - exists st'. split; [exact H1|]. apply (f_equal snd) in H2. cbn [snd] in H2. rewrite H2.
    split; vm_compute; reflexivity.
Defined.

(** ** Errors of [check_if_required] *)

(** An error of [check_if_required], here a member of the wrong size, is not one of the
    cases that [extract_files] distinguishes: the file is neither extracted nor
    skipped, the image counts as provided and the extraction goes on, and
    with an empty member it even succeeds. *)
Theorem member_error_ignored :
  let h := member_hdr (mb "root.img" "") in
  let img := set_size 5 swu_image in
  (check_if_required [img] h "/tmp/").1.1 = - EINVAL /\
  exists st', stream_data (grub true) sample_lua sample_registry2 sample_io "/tmp/" toy_hash_lib toy_stream
      toy_config None 16 "ustate" (fun _ => (0, ACK)) None (fun _ => []) 3
      (mk_stream (rd_block (concat (member_bytes <$> [mb "root.img" ""; mb TRAILER ""]))) 0
         (set_images [img] swu_cfg) start_machine false) = Some (0, st') /\
    m_files (s_mach st') !! "/tmp/root.img" = None.
Proof. split; [vm_compute; reflexivity|]. eexists. split; vm_compute; reflexivity. Qed.

(** ** Saving a block *)

Lemma NPAD_bytes_mod t : (t + NPAD_BYTES t) mod 4 = 0.
Proof. unfold NPAD_BYTES. Z.to_euclidean_division_equations. lia. Qed.

(** The number of bytes that [save_stream] copies after a header is the rest of the cpio
    block, padding included, when it fits in 32 bits; and whatever the
    header says it is never 0, the value that [cpfiles] takes for "copy everything". *)
Theorem block_rest_spec (fdh : filehdr) :
  (0 <= namesize fdh -> 0 <= fsize fdh -> namesize fdh + fsize fdh < 2 ^ 32 - 128 ->
   let name := namesize fdh + NPAD_BYTES (Z.of_nat HDR_SIZE + namesize fdh) in
   block_rest fdh = name + (fsize fdh + NPAD_BYTES (Z.of_nat HDR_SIZE + name + fsize fdh))) /\
  block_rest fdh <> 0.
Proof.
  unfold block_rest. change (Z.of_nat HDR_SIZE) with 110. split.
  - intros Hn Hs Hb. cbv zeta. pose proof (NPAD_range (110 + namesize fdh)) as P1.
    rewrite (wrap_small 32 (110 + namesize fdh)) by lia.
    rewrite (wrap_small 32 (110 + namesize fdh + _)) by lia.
    pose proof (NPAD_range (110 + namesize fdh + (NPAD_BYTES (110 + namesize fdh) + fsize fdh))) as P2.
    rewrite (wrap_small 32 (_ + NPAD_BYTES (110 + namesize fdh + (NPAD_BYTES (110 + namesize fdh) + fsize fdh)))) by lia.
    rewrite wrap_small by lia.
    replace (110 + namesize fdh + (NPAD_BYTES (110 + namesize fdh) + fsize fdh)) with
      (110 + (namesize fdh + NPAD_BYTES (110 + namesize fdh)) + fsize fdh) by lia. lia.
  - set (t := u32 (_ + (_ + fsize fdh))). pose proof (NPAD_bytes_mod t) as Hm. unfold wrap.
    revert Hm. generalize (t + NPAD_BYTES t). clear t. intros t Hm Hz.
    change (2 ^ 32) with 4294967296 in *. Z.to_euclidean_division_equations. lia.
Qed.
