(* ===== verification/Multipart.v ===== *)
(** * Multipart bodies: [corelib/multipart_parser.c]

    The answer of a server to a request for several ranges of a file: parts with headers and data, separated by a
    boundary. The parser is fed with the body in the pieces in which it arrives and calls back for
    every piece of data and at the edges of the parts. *)
From S2P Require Import Prelude CString Util Crypto.

(** ** The parser *)

Inductive state :=
  | s_uninitialized | s_start | s_start_boundary | s_header_field_start | s_header_field | s_headers_almost_done
  | s_header_value_start | s_header_value | s_header_value_almost_done | s_part_data_start | s_part_data
  | s_part_data_almost_boundary | s_part_data_boundary | s_part_data_almost_end | s_part_data_end
  | s_part_data_final_hyphen | s_end.

Definition LF : ascii := "010".
Definition CR : ascii := "013".

(** [lookbehind] is memory of [boundary_length + 2] bytes or more. *)
Record multipart_parser := mk_parser {
  index : nat;
  pstate : state;
  lookbehind : bytes;
  multipart_boundary : bytes;
}.

Definition boundary_length (p : multipart_parser) : nat := length (multipart_boundary p).

Definition goto (s : state) (p : multipart_parser) : multipart_parser :=
  mk_parser (index p) s (lookbehind p) (multipart_boundary p).
Definition set_index (i : nat) (p : multipart_parser) : multipart_parser :=
  mk_parser i (pstate p) (lookbehind p) (multipart_boundary p).
Definition look (i : nat) (c : ascii) (p : multipart_parser) : multipart_parser :=
  mk_parser (index p) (pstate p) (<[i := c]> (lookbehind p)) (multipart_boundary p).

Section Parser.
Context {U : Type}.

(** The callbacks on the data of the user; [None] is NULL. *)
Abbreviation data_cb := (option (bytes -> U -> Z * U)).
Abbreviation notify_cb := (option (U -> Z * U)).

Record multipart_parser_settings := mk_settings {
  on_header_field : data_cb;
  on_header_value : data_cb;
  on_part_data : data_cb;
  on_part_data_begin : notify_cb;
  on_headers_complete : notify_cb;
  on_part_data_end : notify_cb;
  on_body_end : notify_cb;
}.

Variable settings : multipart_parser_settings.

(** [memory]: what the memory for the parser held. *)
Definition multipart_parser_init (mem : bool) (boundary memory : bytes) : option multipart_parser :=
  if mem then Some (mk_parser 0 s_start memory boundary) else None.

(** The end of one turn of the loop: the next character, with the characters of the buffer since [mark], a return
    with the index of this one, or with 0. *)
Inductive turn :=
  | Next (p : multipart_parser) (u : U) (marked : bytes)
  | Return (p : multipart_parser) (u : U)
  | Fatal (p : multipart_parser) (u : U).

(** [EMIT_DATA_CB] and [NOTIFY_CB]: [k] is what follows, [p] the parser if the function returns here. *)
Definition EMIT_DATA_CB (cb : data_cb) (bs : bytes) (p : multipart_parser) (u : U) (k : U -> turn) : turn :=
  match cb with
  | None => k u
  | Some f => let '(r, u) := f bs u in if r =? 0 then k u else Return p u
  end.

Definition NOTIFY_CB (cb : notify_cb) (p : multipart_parser) (u : U) (k : U -> turn) : turn :=
  match cb with
  | None => k u
  | Some f => let '(r, u) := f u in if r =? 0 then k u else Return p u
  end.

(** The cases of the switch for the character [c]; [is_last]: it is the last one of the buffer. A case that
    decrements the index and changes the state is followed by the case of that state. *)
Definition start_boundary (c : ascii) (p : multipart_parser) (u : U) : turn :=
  if (index p =? boundary_length p)%nat then
    if Ascii.eqb c CR then Next (set_index (S (index p)) p) u [] else Return p u
  else if (index p =? boundary_length p + 1)%nat then
    if Ascii.eqb c LF then
      let p := set_index 0 p in
      NOTIFY_CB (on_part_data_begin settings) p u (fun u => Next (goto s_header_field_start p) u [])
    else Return p u
  else if Ascii.eqb c (nth (index p) (multipart_boundary p) "000"%char) then Next (set_index (S (index p)) p) u []
  else Return p u.

Definition part_data (c : ascii) (is_last : bool) (p : multipart_parser) (u : U) (marked : bytes) : turn :=
  if Ascii.eqb c CR then
    EMIT_DATA_CB (on_part_data settings) marked p u
      (fun u => Next (look 0 CR (goto s_part_data_almost_boundary p)) u [])
  else
    let marked := marked ++ [c] in
    if is_last then EMIT_DATA_CB (on_part_data settings) marked p u (fun u => Next p u marked) else Next p u marked.

Definition part_data_start (c : ascii) (is_last : bool) (p : multipart_parser) (u : U) : turn :=
  NOTIFY_CB (on_headers_complete settings) p u (fun u => part_data c is_last (goto s_part_data p) u []).

Definition header_name_char (c : ascii) : bool := Ascii.eqb c "-" || islower (tolower c).

Definition header_field (c : ascii) (is_last : bool) (p : multipart_parser) (u : U) (marked : bytes) : turn :=
  if Ascii.eqb c CR then Next (goto s_headers_almost_done p) u []
  else if Ascii.eqb c ":" then
    EMIT_DATA_CB (on_header_field settings) marked p u (fun u => Next (goto s_header_value_start p) u [])
  else if negb (header_name_char c) then part_data_start c is_last (goto s_part_data_start p) u
  else
    let marked := marked ++ [c] in
    if is_last then EMIT_DATA_CB (on_header_field settings) marked p u (fun u => Next p u marked) else Next p u marked.

Definition header_value (c : ascii) (is_last : bool) (p : multipart_parser) (u : U) (marked : bytes) : turn :=
  if Ascii.eqb c CR then
    EMIT_DATA_CB (on_header_value settings) marked p u (fun u => Next (goto s_header_value_almost_done p) u [])
  else
    let marked := marked ++ [c] in
    if is_last then EMIT_DATA_CB (on_header_value settings) marked p u (fun u => Next p u marked) else Next p u marked.

Definition part_data_boundary (c : ascii) (is_last : bool) (p : multipart_parser) (u : U) : turn :=
  if Ascii.eqb (nth (index p) (multipart_boundary p) "000"%char) c then
    let p := set_index (S (index p)) (look (2 + index p) c p) in
    if (index p =? boundary_length p)%nat then
      NOTIFY_CB (on_part_data_end settings) p u (fun u => Next (goto s_part_data_almost_end p) u [])
    else Next p u []
  else
    EMIT_DATA_CB (on_part_data settings) (take (2 + index p) (lookbehind p)) p u
      (fun u => part_data c is_last (goto s_part_data p) u []).

Definition execute_turn (c : ascii) (is_last : bool) (p : multipart_parser) (u : U) (marked : bytes) : turn :=
  match pstate p with
  | s_start => start_boundary c (goto s_start_boundary (set_index 0 p)) u
  | s_start_boundary => start_boundary c p u
  | s_header_field_start => header_field c is_last (goto s_header_field p) u []
  | s_header_field => header_field c is_last p u marked
  | s_headers_almost_done => if Ascii.eqb c LF then Next (goto s_part_data_start p) u [] else Return p u
  | s_header_value_start =>
      if Ascii.eqb c " " then Next p u [] else header_value c is_last (goto s_header_value p) u []
  | s_header_value => header_value c is_last p u marked
  | s_header_value_almost_done => if Ascii.eqb c LF then Next (goto s_header_field_start p) u [] else Return p u
  | s_part_data_start => part_data_start c is_last p u
  | s_part_data => part_data c is_last p u marked
  | s_part_data_almost_boundary =>
      if Ascii.eqb c LF then Next (set_index 0 (look 1 LF (goto s_part_data_boundary p))) u []
      else
        EMIT_DATA_CB (on_part_data settings) (take 1 (lookbehind p)) p u
          (fun u => part_data c is_last (goto s_part_data p) u [])
  | s_part_data_boundary => part_data_boundary c is_last p u
  | s_part_data_almost_end =>
      if Ascii.eqb c "-" then Next (goto s_part_data_final_hyphen p) u []
      else if Ascii.eqb c CR then Next (goto s_part_data_end p) u [] else Return p u
  | s_part_data_final_hyphen =>
      if Ascii.eqb c "-" then NOTIFY_CB (on_body_end settings) p u (fun u => Next (goto s_end p) u []) else Return p u
  | s_part_data_end =>
      if Ascii.eqb c LF then
        let p := goto s_header_field_start p in NOTIFY_CB (on_part_data_begin settings) p u (fun u => Next p u [])
      else Return p u
  | s_end => Next p u []
  | s_uninitialized => Fatal p u
  end.

(** The loop: how many characters were taken ([None]: the function returns 0), the parser, the data of the user. *)
Fixpoint execute_loop (p : multipart_parser) (u : U) (marked rest : bytes) : option nat * multipart_parser * U :=
  match rest with
  | [] => (Some 0%nat, p, u)
  | c :: rest =>
      match execute_turn c (match rest with [] => true | _ => false end) p u marked with
      | Next p u marked => let '(n, p, u) := execute_loop p u marked rest in (S <$> n, p, u)
      | Return p u => (Some 0%nat, p, u)
      | Fatal p u => (None, p, u)
      end
  end.

Definition multipart_parser_execute (p : multipart_parser) (u : U) (buf : bytes) : nat * multipart_parser * U :=
  let '(n, p, u) := execute_loop p u [] buf in (default 0%nat n, p, u).
End Parser.
Arguments multipart_parser_settings : clear implicits.

(** * Properties *)

(** ** What the callbacks keep *)

(** Data can only come after the headers of a part and before its end. *)
Definition in_data (s : state) : bool :=
  match s with s_part_data | s_part_data_almost_boundary | s_part_data_boundary => true | _ => false end.

Section Keep.
Context {U : Type} (settings : multipart_parser_settings U).

(** [Inv true] is kept while data comes, [Inv false] outside; the callback after the headers leads from the second to
    the first, the one at the end of a part back. *)
Context (Inv : bool -> U -> Prop).

Definition keeps_data (b : bool) (cb : option (bytes -> U -> Z * U)) : Prop :=
  forall bs u, Inv b u -> Inv b (match cb with None => u | Some f => (f bs u).2 end).

Definition leads (b b' : bool) (cb : option (U -> Z * U)) : Prop :=
  forall u, Inv b u ->
  match cb with None => Inv b' u | Some f => if (f u).1 =? 0 then Inv b' (f u).2 else Inv b (f u).2 end.

Record keeping : Prop := {
  keep_field : keeps_data false (on_header_field settings);
  keep_value : keeps_data false (on_header_value settings);
  keep_data : keeps_data true (on_part_data settings);
  keep_begin : leads false false (on_part_data_begin settings);
  keep_complete : leads false true (on_headers_complete settings);
  keep_end : leads true false (on_part_data_end settings);
  keep_body : leads false false (on_body_end settings);
}.
Context (keeps : keeping).

Definition turn_keeping (t : turn) : Prop :=
  match t with Next p u _ | Return p u | Fatal p u => Inv (in_data (pstate p)) u end.

Lemma emit_keeps b cb bs p u k :
  keeps_data b cb -> Inv b u -> in_data (pstate p) = b -> (forall u, Inv b u -> turn_keeping (k u)) ->
  turn_keeping (EMIT_DATA_CB cb bs p u k).
Proof.
  intros H Hu Hp Hk. unfold EMIT_DATA_CB. specialize (H bs u Hu). destruct cb as [f|]; [|by apply Hk].
  destruct (f bs u) as [r u1]. destruct (r =? 0); [by apply Hk|]. cbn. by rewrite Hp.
Qed.

Lemma notify_keeps b b' cb p u k :
  leads b b' cb -> Inv b u -> in_data (pstate p) = b -> (forall u, Inv b' u -> turn_keeping (k u)) ->
  turn_keeping (NOTIFY_CB cb p u k).
Proof.
  intros H Hu Hp Hk. unfold NOTIFY_CB. specialize (H u Hu). destruct cb as [f|]; [|by apply Hk].
  destruct (f u) as [r u1]. cbn in H. destruct (r =? 0); [by apply Hk|]. cbn. by rewrite Hp.
Qed.

Lemma turn_keeps c is_last p u m :
  Inv (in_data (pstate p)) u -> turn_keeping (execute_turn settings c is_last p u m).
Proof.
  intros Hu.
  assert (forall p u m, in_data (pstate p) = true -> Inv true u -> turn_keeping (part_data settings c is_last p u m)) as Hdata.
  { intros p' u' m' Hp Hu'. unfold part_data.
    destruct (Ascii.eqb c CR); [by apply (emit_keeps true); [apply keeps|..]|].
    destruct is_last; [|cbn; by rewrite Hp]. apply (emit_keeps true); [apply keeps|done|done|]. intros. cbn. by rewrite Hp. }
  assert (forall p u, in_data (pstate p) = false -> Inv false u -> turn_keeping (part_data_start settings c is_last p u)) as Hstart.
  { intros. unfold part_data_start. apply (notify_keeps false true); [apply keeps|done|done|]. intros. by apply Hdata. }
  unfold execute_turn, start_boundary, header_field, header_value, part_data_boundary.
  destruct (pstate p) eqn:Hp; cbn [in_data] in Hu;
  repeat first [done
    | by cbn; rewrite ?Hp
    | eapply notify_keeps; [solve [apply keeps]|solve [exact Hu]|by cbn; rewrite ?Hp|]
    | eapply emit_keeps; [solve [apply keeps]|solve [exact Hu]|by cbn; rewrite ?Hp|]
    | apply Hdata; [by cbn; rewrite ?Hp|done] | apply Hstart; [by cbn; rewrite ?Hp|done]
    | match goal with |- forall u, Inv _ u -> _ => intros ? ? end
    | match goal with |- turn_keeping (if ?b then _ else _) => destruct b end].
Qed.

Lemma execute_keeps p u buf :
  Inv (in_data (pstate p)) u ->
  let '(_, p', u') := multipart_parser_execute settings p u buf in Inv (in_data (pstate p')) u'.
Proof.
  intros Hu. unfold multipart_parser_execute.
  assert (forall p u m, Inv (in_data (pstate p)) u ->
    let '(_, p', u') := execute_loop settings p u m buf in Inv (in_data (pstate p')) u') as H.
  { induction buf as [|c buf IH]; intros p' u' m Hu'; [done|]. cbn [execute_loop].
    pose proof (turn_keeps c (match buf with [] => true | _ => false end) p' u' m Hu') as Ht.
    destruct (execute_turn _ _ _ _ _ _) as [p1 u1 m1|p1 u1|p1 u1]; cbn in Ht; [|done|done].
    specialize (IH p1 u1 m1 Ht). by destruct (execute_loop settings p1 u1 m1 buf) as [[n p2] u2]. }
  specialize (H p u [] Hu). by destruct (execute_loop settings p u [] buf) as [[n p1] u1].
Qed.
End Keep.

(** ** The body in pieces *)

Section Pieces.
Context {U : Type} (settings : multipart_parser_settings U).

(** The data callback on its own. *)
Definition emit_data (bs : bytes) (u : U) : Z * U :=
  match on_part_data settings with None => (0, u) | Some f => f bs u end.

(** A callback that succeeds. *)
Definition notified (cb : option (U -> Z * U)) (u u' : U) : Prop := match cb with None => (0, u) | Some f => f u end = (0, u').

(** A user who is not interested in headers and takes the data of a part in any pieces, as long as everything is well;
    [ok] says that it is, and that it was before. *)
Class StreamUser (ok : U -> Prop) : Prop := {
  no_header_field : on_header_field settings = None;
  no_header_value : on_header_value settings = None;
  emit_nil u : ok u -> emit_data [] u = (0, u);
  emit_app a b u u2 : ok u2 ->
    emit_data (a ++ b) u = (0, u2) <-> exists u1, emit_data a u = (0, u1) /\ emit_data b u1 = (0, u2);
  emit_ok bs u u' : emit_data bs u = (0, u') -> ok u' -> ok u;
  notify_ok cb u u' :
    cb ∈ [on_part_data_begin settings; on_headers_complete settings; on_part_data_end settings; on_body_end settings] ->
    notified cb u u' -> ok u' -> ok u;
}.
Context (ok : U -> Prop) {user : StreamUser ok}.

Lemma emit_next bs p u k p1 u1 m1 :
  EMIT_DATA_CB (on_part_data settings) bs p u k = Next p1 u1 m1 <->
  exists u0, emit_data bs u = (0, u0) /\ k u0 = Next p1 u1 m1.
Proof.
  unfold emit_data, EMIT_DATA_CB. destruct (on_part_data settings) as [f|].
  - destruct (f bs u) as [r u0]. destruct (Z.eqb_spec r 0) as [->|Hr].
    + split; [intros H; by exists u0|]. by intros (u2 & [= ->] & H).
    + split; [done|]. by intros (u2 & [= -> _] & _).
  - split; [intros H; by exists u|]. by intros (u2 & [= ->] & H).
Qed.

Lemma notify_next cb p u k p1 u1 m1 :
  NOTIFY_CB cb p u k = Next p1 u1 m1 <-> exists u0, notified cb u u0 /\ k u0 = Next p1 u1 m1.
Proof.
  unfold notified, NOTIFY_CB. destruct cb as [f|].
  - destruct (f u) as [r u0]. destruct (Z.eqb_spec r 0) as [->|Hr].
    + split; [intros H; by exists u0|]. by intros (u2 & [= ->] & H).
    + split; [done|]. by intros (u2 & [= -> _] & _).
  - split; [intros H; by exists u|]. by intros (u2 & [= ->] & H).
Qed.

(** Outside of the data the characters since [mark] do not matter. *)
Lemma loop_unmarked p u m m' rest :
  pstate p <> s_part_data -> execute_loop settings p u m rest = execute_loop settings p u m' rest.
Proof.
  revert p u m m'. induction rest as [|c rest IH]; intros p u m m' Hp; [done|]. cbn [execute_loop].
  unfold execute_turn. destruct (pstate p) eqn:Hs; try done.
  - unfold header_field, EMIT_DATA_CB. rewrite no_header_field. destruct (Ascii.eqb c CR); [done|].
    destruct (Ascii.eqb c ":"); [done|]. destruct (negb (header_name_char c)); [done|].
    destruct rest; [done|]. by rewrite (IH p u (m ++ [c]) (m' ++ [c])) by (by rewrite Hs).
  - unfold header_value, EMIT_DATA_CB. rewrite no_header_value. destruct (Ascii.eqb c CR); [done|].
    destruct rest; [done|]. by rewrite (IH p u (m ++ [c]) (m' ++ [c])) by (by rewrite Hs).
Qed.

(** [a] is taken in full, and all is well. *)
Definition runs (p : multipart_parser) (u : U) (m a : bytes) (p' : multipart_parser) (u' : U) : Prop :=
  execute_loop settings p u m a = (Some (length a), p', u') /\ ok u'.

Lemma runs_nil p u m p' u' : runs p u m [] p' u' <-> p' = p /\ u' = u /\ ok u.
Proof. unfold runs. cbn. split; [by intros [[= <- <-] ?]|by intros (-> & -> & ?)]. Qed.

Definition is_nil (l : bytes) : bool := match l with [] => true | _ => false end.

Lemma runs_cons p u m c rest p' u' :
  runs p u m (c :: rest) p' u' <->
  exists p1 u1 m1, execute_turn settings c (is_nil rest) p u m = Next p1 u1 m1 /\ runs p1 u1 m1 rest p' u'.
Proof.
  unfold runs. cbn [execute_loop length]. fold (is_nil rest).
  destruct (execute_turn settings c (is_nil rest) p u m) as [p1 u1 m1|p1 u1|p1 u1].
  - destruct (execute_loop settings p1 u1 m1 rest) as [[n p2] u2] eqn:E. split.
    + intros [[= Hn <- <-] Hok]. destruct n as [n|]; [|done]. injection Hn as ->. by exists p1, u1, m1; rewrite E.
    + intros (p3 & u3 & m3 & [= <- <- <-] & H & Hok). rewrite E in H. by injection H as -> <- <-.
  - split; [by intros [? _]|by intros (? & ? & ? & ? & _)].
  - split; [by intros [? _]|by intros (? & ? & ? & ? & _)].
Qed.

(** The turns that do not look at [is_last]. *)
Definition plain_state (s : state) : bool :=
  match s with
  | s_header_field_start | s_header_field | s_header_value_start | s_header_value | s_part_data_start | s_part_data
  | s_part_data_almost_boundary | s_part_data_boundary => false
  | _ => true
  end.

Lemma turn_plain c l l' p u m :
  plain_state (pstate p) = true -> execute_turn settings c l p u m = execute_turn settings c l' p u m.
Proof. unfold execute_turn. by destruct (pstate p). Qed.

Lemma turn_plain_unmarked c l p u m p1 u1 m1 :
  plain_state (pstate p) = true -> execute_turn settings c l p u m = Next p1 u1 m1 -> m1 = [].
Proof.
  unfold execute_turn. destruct (pstate p); try done; intros _; unfold start_boundary, NOTIFY_CB; intros H;
    repeat case_match; by simplify_eq.
Qed.

Lemma header_field_last c p u m l :
  pstate p = s_header_field ->
  header_field settings c l p u m =
    if Ascii.eqb c CR then Next (goto s_headers_almost_done p) u []
    else if Ascii.eqb c ":" then Next (goto s_header_value_start p) u []
    else if negb (header_name_char c) then part_data_start settings c l (goto s_part_data_start p) u
    else Next p u (m ++ [c]).
Proof. intros Hp. unfold header_field, EMIT_DATA_CB. rewrite no_header_field. repeat case_match; done. Qed.

Lemma header_value_last c p u m l :
  header_value settings c l p u m =
    if Ascii.eqb c CR then Next (goto s_header_value_almost_done p) u [] else Next p u (m ++ [c]).
Proof. unfold header_value, EMIT_DATA_CB. rewrite no_header_value. repeat case_match; done. Qed.

(** If all is well after a turn, then it was before. *)
Lemma part_data_ok c l p u m p1 u1 m1 : part_data settings c l p u m = Next p1 u1 m1 -> ok u1 -> ok u.
Proof.
  unfold part_data. destruct (Ascii.eqb c CR); [|destruct l]; [| |by intros [= _ <- _]];
    intros (u0 & He & [= _ <- _])%emit_next Hok; by eapply emit_ok.
Qed.

Lemma data_start_ok c l p u p1 u1 m1 : part_data_start settings c l p u = Next p1 u1 m1 -> ok u1 -> ok u.
Proof.
  intros (u0 & Hn & H)%notify_next Hok. eapply notify_ok; [|exact Hn|by eapply part_data_ok]. right. by left.
Qed.

Lemma emit_data_ok c l p q bs u p1 u1 m1 :
  EMIT_DATA_CB (on_part_data settings) bs p u (fun u => part_data settings c l q u []) = Next p1 u1 m1 -> ok u1 -> ok u.
Proof. intros (u0 & He & H)%emit_next Hok. eapply emit_ok; [exact He|by eapply part_data_ok]. Qed.

Lemma notify_goto_ok cb p q u p1 u1 m1 :
  cb ∈ [on_part_data_begin settings; on_headers_complete settings; on_part_data_end settings; on_body_end settings] ->
  NOTIFY_CB cb p u (fun u => Next q u []) = Next p1 u1 m1 -> ok u1 -> ok u.
Proof. intros Hc (u0 & Hn & [= _ <- _])%notify_next Hok. by eapply notify_ok. Qed.

Lemma turn_ok c l p u m p1 u1 m1 : execute_turn settings c l p u m = Next p1 u1 m1 -> ok u1 -> ok u.
Proof.
  assert (forall q, start_boundary settings c q u = Next p1 u1 m1 -> ok u1 -> ok u) as Hstart.
  { intros q. unfold start_boundary. repeat case_match; try done; try (by intros [= _ <- _]).
    apply notify_goto_ok. by left. }
  assert (forall q mm, pstate q = s_header_field -> header_field settings c l q u mm = Next p1 u1 m1 -> ok u1 -> ok u) as Hfield.
  { intros q mm Hq. rewrite header_field_last by done. repeat case_match; try (by intros [= _ <- _]).
    apply data_start_ok. }
  assert (forall q mm, header_value settings c l q u mm = Next p1 u1 m1 -> ok u1 -> ok u) as Hvalue.
  { intros q mm. rewrite header_value_last. case_match; by intros [= _ <- _]. }
  unfold execute_turn. destruct (pstate p) eqn:Hs; try done; try apply Hstart; try (by apply Hfield); try apply Hvalue;
    try (case_match; [by intros [= _ <- _]|done]); try (by intros [= _ <- _]).
  - case_match; [by intros [= _ <- _]|apply Hvalue].
  - apply data_start_ok.
  - apply part_data_ok.
  - case_match; [by intros [= _ <- _]|apply emit_data_ok].
  - unfold part_data_boundary. case_match; [|apply emit_data_ok]. case_match; [|by intros [= _ <- _]].
    apply notify_goto_ok. right. right. by left.
  - do 2 (case_match; [by intros [= _ <- _]|]). done.
  - case_match; [|done]. apply notify_goto_ok. by left.
  - case_match; [|done]. apply notify_goto_ok. do 3 right. by left.
Qed.

Lemma runs_ok p u m a p' u' : runs p u m a p' u' -> ok u.
Proof.
  revert p u m. induction a as [|c a IH]; intros p u m; [by intros (_ & _ & ?)%runs_nil|].
  intros (p1 & u1 & m1 & Ht & H)%runs_cons. eapply turn_ok; [exact Ht|by eapply IH].
Qed.

Lemma runs_unmarked p u m m' a p' u' : pstate p <> s_part_data -> runs p u m a p' u' <-> runs p u m' a p' u'.
Proof. intros Hp. unfold runs. by rewrite (loop_unmarked p u m m' a Hp). Qed.

(** Inside of the data, the characters since [mark] may as well have been given to the user before. *)
Lemma runs_flush p u m x rest p2 u2 :
  pstate p = s_part_data -> rest <> [] ->
  runs p u (m ++ x) rest p2 u2 <-> exists u', emit_data m u = (0, u') /\ runs p u' x rest p2 u2.
Proof.
  intros Hp. revert x. induction rest as [|c rest IH]; intros x Hr; [done|].
  setoid_rewrite runs_cons. unfold execute_turn. rewrite Hp. unfold part_data. destruct (Ascii.eqb c CR).
  - setoid_rewrite emit_next. split.
    + intros (p1 & u1 & m1 & (u0 & He & [= <- <- <-]) & Hrun). apply emit_app in He as (u' & He1 & He2); [|by eapply runs_ok].
      exists u'. split; [done|]. eexists _, u0, []. split; [by exists u0|done].
    + intros (u' & He & p1 & u1 & m1 & (u0 & He2 & [= <- <- <-]) & Hrun). eexists _, u0, []. split; [|done].
      exists u0. split; [|done]. apply emit_app; [by eapply runs_ok|by exists u'].
  - rewrite <- app_assoc. destruct rest as [|d rest]; cbn [is_nil].
    + setoid_rewrite emit_next. split.
      * intros (p1 & u1 & m1 & (u0 & He & [= <- <- <-]) & Hrun). apply emit_app in He as (u' & He1 & He2); [|by eapply runs_ok].
        exists u'. split; [done|]. eexists _, u0, _. split; [by exists u0|]. apply runs_nil in Hrun. by apply runs_nil.
      * intros (u' & He & p1 & u1 & m1 & (u0 & He2 & [= <- <- <-]) & Hrun). eexists _, u0, _. split.
        { exists u0. split; [|done]. apply emit_app; [by eapply runs_ok|by exists u']. }
        apply runs_nil in Hrun. by apply runs_nil.
    + specialize (IH (x ++ [c]) ltac:(done)). split.
      * intros (p1 & u1 & m1 & [= <- <- <-] & Hrun). apply IH in Hrun as (u' & He & Hrun). exists u'. split; [done|]. by eexists _, _, _.
      * intros (u' & He & p1 & u1 & m1 & [= <- <- <-] & Hrun). eexists _, _, _. split; [done|]. apply IH. by exists u'.
Qed.

(** A turn ends with a case for data, or [is_last] does not matter for it. *)
Definition shaped (c : ascii) (t : bool -> turn) : Prop :=
  (exists p0 u0 m0, pstate p0 = s_part_data /\ forall l, t l = part_data settings c l p0 u0 m0) \/
  (exists t0, (forall l, t l = t0) /\ forall p1 u1 m1, t0 = Next p1 u1 m1 -> m1 = [] \/ pstate p1 <> s_part_data).

Lemma shaped_data c p u m : pstate p = s_part_data -> shaped c (fun l => part_data settings c l p u m).
Proof. intros H. left. by exists p, u, m. Qed.

Lemma shaped_const c t0 :
  (forall p1 u1 m1, t0 = Next p1 u1 m1 -> m1 = [] \/ pstate p1 <> s_part_data) -> shaped c (fun _ => t0).
Proof. intros H. right. by exists t0. Qed.

Lemma shaped_next c p u m : m = [] \/ pstate p <> s_part_data -> shaped c (fun _ => Next p u m).
Proof. intros H. apply shaped_const. by intros ? ? ? [= <- <- <-]. Qed.

Lemma shaped_return c p u : shaped c (fun _ => Return p u).
Proof. by apply shaped_const. Qed.

Lemma shaped_ext c t t' : (forall l, t l = t' l) -> shaped c t' -> shaped c t.
Proof.
  intros Ht [(p0 & u0 & m0 & Hp & H)|(t0 & H & Hn)]; [left|right].
  - exists p0, u0, m0. split; [done|]. intros l. by rewrite Ht.
  - exists t0. split; [|done]. intros l. by rewrite Ht.
Qed.

Lemma shaped_emit c bs p u k : (forall u, shaped c (fun l => k l u)) ->
  shaped c (fun l => EMIT_DATA_CB (on_part_data settings) bs p u (k l)).
Proof.
  intros Hk. unfold EMIT_DATA_CB. destruct (on_part_data settings) as [f|]; [|apply Hk]. destruct (f bs u) as [r u1].
  destruct (r =? 0); [apply Hk|apply shaped_return].
Qed.

Lemma shaped_notify c cb p u k : (forall u, shaped c (fun l => k l u)) -> shaped c (fun l => NOTIFY_CB cb p u (k l)).
Proof.
  intros Hk. unfold NOTIFY_CB. destruct cb as [f|]; [|apply Hk]. destruct (f u) as [r u1].
  destruct (r =? 0); [apply Hk|apply shaped_return].
Qed.

Lemma shaped_data_start c p u : shaped c (fun l => part_data_start settings c l p u).
Proof. apply (shaped_notify c _ p u (fun l u => part_data settings c l (goto s_part_data p) u [])). intros u'. by apply shaped_data. Qed.

Lemma shaped_header_field c p u m : pstate p = s_header_field -> shaped c (fun l => header_field settings c l p u m).
Proof.
  intros Hp. eapply shaped_ext; [intros l; by apply header_field_last|].
  destruct (Ascii.eqb c CR); [apply shaped_next; by left|]. destruct (Ascii.eqb c ":"); [apply shaped_next; by left|].
  destruct (negb (header_name_char c)); [apply shaped_data_start|]. apply shaped_next. right. by rewrite Hp.
Qed.

Lemma shaped_header_value c p u m : pstate p = s_header_value -> shaped c (fun l => header_value settings c l p u m).
Proof.
  intros Hp. eapply shaped_ext; [intros l; by apply header_value_last|].
  destruct (Ascii.eqb c CR); [apply shaped_next; by left|]. apply shaped_next. right. by rewrite Hp.
Qed.

Lemma turn_shaped c p u m : shaped c (fun l => execute_turn settings c l p u m).
Proof.
  destruct (plain_state (pstate p)) eqn:Hpl.
  { eapply shaped_ext; [intros l; by apply (turn_plain c l false)|]. apply shaped_const.
    intros p1 u1 m1 H. left. by eapply turn_plain_unmarked. }
  unfold execute_turn. destruct (pstate p) eqn:Hs; try done.
  - by apply shaped_header_field.
  - by apply shaped_header_field.
  - destruct (Ascii.eqb c " "); [apply shaped_next; by left|]. by apply shaped_header_value.
  - by apply shaped_header_value.
  - apply shaped_data_start.
  - by apply shaped_data.
  - destruct (Ascii.eqb c LF); [apply shaped_next; by left|].
    apply (shaped_emit c _ p u (fun l u => part_data settings c l (goto s_part_data p) u [])). intros u'. by apply shaped_data.
  - unfold part_data_boundary. destruct (Ascii.eqb _ c).
    + destruct (_ =? _)%nat; [|apply shaped_next; by left].
      apply (shaped_notify c _ _ u (fun _ u => Next _ u [])). intros u'. apply shaped_next. by left.
    + apply (shaped_emit c _ p u (fun l u => part_data settings c l (goto s_part_data p) u [])). intros u'. by apply shaped_data.
Qed.

(** The last character of a piece, and the next piece. *)
Lemma runs_last c p u m b p2 u2 :
  b <> [] ->
  (exists p1 u1 m1, execute_turn settings c false p u m = Next p1 u1 m1 /\ runs p1 u1 m1 b p2 u2) <->
  (exists p1 u1 m1, execute_turn settings c true p u m = Next p1 u1 m1 /\ runs p1 u1 [] b p2 u2).
Proof.
  intros Hb. destruct (turn_shaped c p u m) as [(p0 & u0 & m0 & Hp & H)|(t0 & H & Hn)]; setoid_rewrite H.
  - unfold part_data. destruct (Ascii.eqb c CR).
    + split; intros (p1 & u1 & m1 & Ht & Hr); exists p1, u1, m1; (split; [done|]);
        apply emit_next in Ht as (u3 & _ & [= <- <- <-]); done.
    + setoid_rewrite emit_next. split.
      * intros (p1 & u1 & m1 & [= <- <- <-] & Hr). rewrite <- (app_nil_r (m0 ++ [c])) in Hr.
        apply runs_flush in Hr as (u' & He & Hr); [|done|done]. eexists _, u', _. split; [by exists u'|done].
      * intros (p1 & u1 & m1 & (u3 & He & [= <- <- <-]) & Hr). eexists _, _, _. split; [done|].
        rewrite <- (app_nil_r (m0 ++ [c])). apply runs_flush; [done|done|by exists u3].
  - split; intros (p1 & u1 & m1 & Ht & Hr); exists p1, u1, m1; (split; [done|]);
      destruct (Hn _ _ _ Ht) as [->|Hp]; try done; by eapply runs_unmarked.
Qed.

(** The pieces [a] and [b], one after the other. *)
Lemma runs_app p u m a b p2 u2 :
  a <> [] -> b <> [] ->
  runs p u m (a ++ b) p2 u2 <-> exists p1 u1, runs p u m a p1 u1 /\ runs p1 u1 [] b p2 u2.
Proof.
  intros Ha Hb. revert p u m Ha. induction a as [|c a IH]; intros p u m Ha; [done|]. destruct a as [|d a].
  - cbn [app]. rewrite runs_cons. assert (is_nil b = false) as -> by (by destruct b). rewrite runs_last by done. split.
    + intros (p1 & u1 & m1 & Ht & Hr). exists p1, u1. split; [|done]. apply runs_cons. exists p1, u1, m1.
      split; [done|]. apply runs_nil. split_and!; [done..|by eapply runs_ok].
    + intros (p1 & u1 & H & Hr). apply runs_cons in H as (p3 & u3 & m3 & Ht & (-> & -> & _)%runs_nil).
      by exists p3, u3, m3.
  - cbn [app]. setoid_rewrite runs_cons. cbn [is_nil]. split.
    + intros (p1 & u1 & m1 & Ht & Hr). apply IH in Hr as (p3 & u3 & H1 & H2); [|done]. exists p3, u3. split; [|done].
      by exists p1, u1, m1.
    + intros (p3 & u3 & (p1 & u1 & m1 & Ht & H1) & H2). exists p1, u1, m1. split; [done|]. apply IH; [done|]. by exists p3, u3.
Qed.

(** A body taken in full, piece by piece. *)
Fixpoint execute_pieces (p : multipart_parser) (u : U) (l : list bytes) : option (multipart_parser * U) :=
  match l with
  | [] => Some (p, u)
  | a :: l =>
      let '(n, p, u) := multipart_parser_execute settings p u a in
      if (n =? length a)%nat then execute_pieces p u l else None
  end.

Lemma execute_full p u a p' u' :
  multipart_parser_execute settings p u a = (length a, p', u') /\ ok u' <-> runs p u [] a p' u'.
Proof.
  unfold multipart_parser_execute, runs. destruct (execute_loop settings p u [] a) as [[n p1] u1] eqn:E. split.
  - intros [[= Hn <- <-] Hok]. split; [|done]. destruct n as [n|]; [by rewrite <- Hn|]. by destruct a.
  - intros [[= -> <- <-] Hok]. done.
Qed.

Lemma pieces_concat p u l p' u' :
  execute_pieces p u l = Some (p', u') /\ ok u' <-> runs p u [] (concat l) p' u'.
Proof.
  revert p u. induction l as [|a l IH]; intros p u; cbn [execute_pieces concat].
  { rewrite runs_nil. split; [by intros [[= <- <-] ?]|by intros (-> & -> & ?)]. }
  assert ((exists p1 u1, runs p u [] a p1 u1 /\ execute_pieces p1 u1 l = Some (p', u') /\ ok u') <->
    runs p u [] (a ++ concat l) p' u') as <-.
  { setoid_rewrite IH. destruct (decide (a = [])) as [->|Ha].
    { cbn [app]. split; [by intros (p1 & u1 & (-> & -> & _)%runs_nil & H)|]. intros H. exists p, u. split; [|done].
      apply runs_nil. split_and!; [done..|by eapply runs_ok]. }
    destruct (decide (concat l = [])) as [El|Hl].
    { rewrite El, app_nil_r. setoid_rewrite runs_nil. split; [by intros (p1 & u1 & H & -> & -> & _)|].
      intros H. exists p', u'. split_and!; [done..|by destruct H]. }
    by rewrite runs_app. }
  setoid_rewrite <- execute_full. destruct (multipart_parser_execute settings p u a) as [[n p1] u1].
  destruct (Nat.eqb_spec n (length a)) as [->|Hn].
  - split.
    + intros [H Hok]. exists p1, u1. split_and!; [done| |done..].
      eapply runs_ok, IH. by split.
    + by intros (p2 & u2 & [[= <- <-] _] & Hp & Hok).
  - split; [by intros [? _]|]. by intros (p2 & u2 & [[= ? ? ?] _] & _).
Qed.

(** C33: a multipart body is parsed the same way in whatever pieces it arrives from the network: for a user who takes
    data as it comes, as the handler for delta updates does, and as long as all is well, the pieces are
    taken in full exactly when the body as a whole is, and the parser and the user end in the same state. *)
Theorem pieces_independent p u l p' u' :
  ok u' ->
  execute_pieces p u l = Some (p', u') <->
  multipart_parser_execute settings p u (concat l) = (length (concat l), p', u').
Proof.
  intros Hok. pose proof (pieces_concat p u l p' u') as H. rewrite <- execute_full in H. split; intros E; by apply H.
Qed.

(** ** The data of a part *)

Section Boundary.
Context (b : bytes) (b_nonempty : b <> []) (b_no_cr : CR ∉ b).

Definition delimiter : bytes := CR :: LF :: b.

(** [s] is [d], the first delimiter, and [t]. *)
Inductive splits : bytes -> bytes -> bytes -> Prop :=
  | splits_here t : splits (delimiter ++ t) [] t
  | splits_later c s d t : ~ delimiter `prefix_of` c :: s -> splits s d t -> splits (c :: s) (c :: d) t.

Lemma splits_length s d t : splits s d t -> length s = (length d + length delimiter + length t)%nat.
Proof. induction 1 as [t|c s d t _ _ IH]; [by rewrite length_app|]. cbn [length] in *. lia. Qed.

Lemma splits_prefix s d t : splits (delimiter ++ s) d t -> d = [] /\ t = s.
Proof.
  intros H. remember (delimiter ++ s) as w eqn:E. destruct H as [t|c s' d t Hn H].
  - by apply app_inv_head in E.
  - exfalso. apply Hn. rewrite E. by apply prefix_app_r.
Qed.

Lemma splits_cons c s d t : ~ delimiter `prefix_of` c :: s -> splits (c :: s) d t -> exists d', d = c :: d' /\ splits s d' t.
Proof.
  intros Hn H. remember (c :: s) as w eqn:E. destruct H as [t|c' s' d t Hn' H].
  - exfalso. apply Hn. by apply prefix_app_r.
  - injection E as -> ->. by exists d.
Qed.

Lemma delimiter_cr j : delimiter !! j = Some CR -> j = 0%nat.
Proof.
  destruct j as [|[|j]]; [done|done|]. cbn. intros H. exfalso. apply b_no_cr. by eapply list_elem_of_lookup_2.
Qed.

(** No delimiter begins inside of a part of one. *)
Lemma splits_partial k c r d t :
  (0 < k < length delimiter)%nat -> delimiter !! k <> Some c ->
  splits (take k delimiter ++ c :: r) d t -> exists d', d = take k delimiter ++ d' /\ splits (c :: r) d' t.
Proof.
  intros Hk Hc.
  assert (forall n j d, n = (k - j)%nat -> (j <= k)%nat -> splits (drop j (take k delimiter) ++ c :: r) d t ->
    exists d', d = drop j (take k delimiter) ++ d' /\ splits (c :: r) d' t) as Hgen.
  { induction n as [|n IH]; intros j d0 Hn Hj H.
    - rewrite drop_ge in H |- * by (rewrite length_take; lia). by exists d0.
    - destruct (lookup_lt_is_Some_2 delimiter j ltac:(lia)) as [e He].
      assert (take k delimiter !! j = Some e) as He' by (by rewrite lookup_take_lt by lia).
      rewrite (drop_S _ _ _ He') in H |- *. cbn [app] in H.
      apply splits_cons in H as (d' & -> & H).
      + destruct (IH (S j) d' ltac:(lia) ltac:(lia) H) as (d2 & -> & H2). by exists d2.
      + intros [s Hs]. destruct (decide (j = 0%nat)) as [->|Hj0].
        * apply (f_equal (lookup k)) in Hs. rewrite lookup_app_l in Hs by lia.
          rewrite app_comm_cons, <- (drop_S _ _ _ He'), drop_0 in Hs.
          rewrite lookup_app_r in Hs by (rewrite length_take; lia).
          rewrite length_take, Nat.min_l, Nat.sub_diag in Hs by lia. by cbn in Hs.
        * apply (f_equal (lookup 0%nat)) in Hs. cbn in Hs. injection Hs as ->. by apply delimiter_cr in He. }
  intros H. destruct (Hgen k 0%nat d ltac:(lia) ltac:(lia)) as (d' & E & H'); [by rewrite drop_0|].
  rewrite drop_0 in E. by exists d'.
Qed.

(** The parser has seen the first [k] characters of a delimiter. *)
Definition at_match (k : nat) (p : multipart_parser) : Prop :=
  multipart_boundary p = b /\ (length delimiter <= length (lookbehind p))%nat /\
  take k (lookbehind p) = take k delimiter /\
  match k with
  | O => pstate p = s_part_data
  | S O => pstate p = s_part_data_almost_boundary
  | S (S j) => pstate p = s_part_data_boundary /\ index p = j
  end.

(** Inside of the data, with [r] ahead, which ends the data and goes on with [t]; the user will be [u1]. *)
Definition inside (k : nat) (x : bytes) (p : multipart_parser) (u : U) (r t : bytes) (u1 : U) : Prop :=
  ok u1 /\ at_match k p /\ (0 < k -> x = [])%nat /\ (k < length delimiter)%nat /\
  exists d, splits (take k delimiter ++ r) d t /\ emit_data (x ++ d) u = (0, u1).

Lemma delimiter_length_eq : length delimiter = S (S (length b)).
Proof. done. Qed.

Lemma delimiter_length : (3 <= length delimiter)%nat.
Proof. unfold delimiter. destruct b; [done|]. cbn [length]. lia. Qed.

Lemma part_data_inside c x p u r t u1 :
  inside 0 x p u (c :: r) t u1 ->
  exists k' x' p' u', part_data settings c false p u x = Next p' u' x' /\ inside k' x' p' u' r t u1.
Proof.
  intros (Hok & (Hb & Hl & _ & Hs) & _ & _ & d & Hd & He). pose proof delimiter_length as Hdl. unfold part_data.
  destruct (Ascii.eqb_spec c CR) as [->|Hc].
  - apply emit_app in He as (u0 & He0 & He1); [|done].
    eexists 1%nat, [], _, u0. split; [apply emit_next; by exists u0|]. split_and!; [done| |done|lia|by exists d].
    split_and!; [done|cbn; by rewrite length_insert| |done]. cbn [lookbehind look goto].
    destruct (lookbehind p); [cbn in Hl; lia|done].
  - exists 0%nat, (x ++ [c]), p, u. split; [done|]. split_and!; [done|done|lia|lia|].
    apply splits_cons in Hd as (d' & -> & Hd).
    + exists d'. split; [done|]. by rewrite <- app_assoc.
    + intros [s Hp]. by injection Hp as ->.
Qed.

Lemma mismatch_inside k c p u r t u1 :
  inside k [] p u (c :: r) t u1 -> (0 < k)%nat -> delimiter !! k <> Some c ->
  exists k' x' p' u',
    EMIT_DATA_CB (on_part_data settings) (take k (lookbehind p)) p u
      (fun u => part_data settings c false (goto s_part_data p) u []) = Next p' u' x' /\ inside k' x' p' u' r t u1.
Proof.
  intros (Hok & (Hb & Hl & Ht & Hs) & _ & Hk & d & Hd & He) Hk0 Hc. rewrite Ht.
  apply splits_partial in Hd as (d' & -> & Hd); [|lia|done]. rewrite app_nil_l in He.
  apply emit_app in He as (u0 & He0 & He1); [|done]. setoid_rewrite emit_next.
  destruct (part_data_inside c [] (goto s_part_data p) u0 r t u1) as (k' & x' & p' & u' & Hn & Hin).
  - split_and!; [done|done|done|lia|]. by exists d'.
  - exists k', x', p', u'. split; [by exists u0|done].
Qed.

Lemma take_insert_next (l q : bytes) k c :
  take k l = q -> (k < length l)%nat -> take (S k) (<[k := c]> l) = q ++ [c].
Proof.
  intros <- Hk. rewrite (take_S_r _ _ c) by (by apply list_lookup_insert_eq). by rewrite take_insert_ge by lia.
Qed.

Lemma take_delimiter k c : delimiter !! k = Some c -> take (S k) delimiter = take k delimiter ++ [c].
Proof. apply take_S_r. Qed.

(** The next character is one more of the delimiter. *)
Lemma match_inside k c p p' u r t u1 :
  inside k [] p u (c :: r) t u1 -> delimiter !! k = Some c -> (S k < length delimiter)%nat ->
  at_match (S k) p' -> inside (S k) [] p' u r t u1.
Proof.
  intros (Hok & (Hb & Hl & Ht & Hs) & _ & Hk & d & Hd & He) Hc Hk' Hp'. split_and!; [done..|].
  exists d. split; [|done]. rewrite (take_delimiter k c Hc), <- app_assoc. exact Hd.
Qed.

(** One character inside of the data: it stays inside, or it ends the delimiter. *)
Lemma inside_step k x p u c r t u1 :
  inside k x p u (c :: r) t u1 ->
  (exists k' x' p' u', execute_turn settings c false p u x = Next p' u' x' /\ inside k' x' p' u' r t u1) \/
  (r = t /\ u = u1 /\ exists p', multipart_boundary p' = b /\ (length delimiter <= length (lookbehind p'))%nat /\
     execute_turn settings c false p u x =
       NOTIFY_CB (on_part_data_end settings) p' u (fun u => Next (goto s_part_data_almost_end p') u [])).
Proof.
  intros Hin. pose proof Hin as (Hok & (Hb & Hl & Ht & Hs) & Hx & Hk & d & Hd & He). unfold execute_turn.
  destruct k as [|[|j]].
  - left. rewrite Hs. by apply part_data_inside.
  - left. rewrite Hs. rewrite (Hx ltac:(lia)) in Hin. destruct (Ascii.eqb_spec c LF) as [->|Hc].
    + eexists 2%nat, [], _, u. split; [done|]. pose proof delimiter_length.
      eapply match_inside; [exact Hin|done|lia|]. split_and!; [done|cbn; by rewrite length_insert| |done|done].
      cbn [lookbehind set_index look goto]. by rewrite (take_insert_next _ _ _ _ Ht) by lia.
    + apply (mismatch_inside 1); [done|lia|]. intros [= <-]. done.
  - destruct Hs as [Hs Hi]. rewrite Hs. rewrite (Hx ltac:(lia)) in Hin. unfold part_data_boundary, boundary_length. rewrite Hi, Hb.
    pose proof delimiter_length_eq as Hdl. destruct (lookup_lt_is_Some_2 b j ltac:(lia)) as [e Hj].
    rewrite (nth_lookup_Some b j _ e Hj). destruct (Ascii.eqb_spec e c) as [->|Hc].
    + cbn [index set_index look multipart_boundary]. rewrite Hb. destruct (Nat.eqb_spec (S j) (length b)) as [Hj'|Hj'].
      * right. assert (take (S (S j)) delimiter ++ c :: r = delimiter ++ r) as E.
        { change (c :: r) with ([c] ++ r). rewrite app_assoc, <- (take_delimiter (S (S j)) c) by exact Hj.
          rewrite take_ge; [done|]. lia. }
        rewrite E in Hd. apply splits_prefix in Hd as [-> ->]. rewrite (Hx ltac:(lia)), app_nil_r in He.
        rewrite emit_nil in He by (by eapply emit_ok). injection He as <-. split_and!; [done|done|]. eexists. split_and!; [| |done]; [done|].
        cbn [lookbehind set_index look]. by rewrite length_insert.
      * left. eexists (S (S (S j))), [], _, u. split; [done|].
        eapply match_inside; [exact Hin|exact Hj|lia|].
        split_and!; [done|cbn; by rewrite length_insert| |done|done]. cbn [lookbehind set_index look].
        rewrite (take_insert_next _ _ _ _ Ht) by lia. symmetry. by apply take_delimiter.
    + left. apply (mismatch_inside (S (S j))); [done|lia|].
      change (b !! j <> Some c). rewrite Hj. congruence.
Qed.

(** The parser takes [a] to the end of the body, and the user becomes [u']. *)
Definition ends (p : multipart_parser) (u : U) (m a : bytes) (u' : U) : Prop :=
  exists p', pstate p' = s_end /\ runs p u m a p' u'.

Lemma ends_step c rest p u m p1 u1 m1 u' :
  execute_turn settings c false p u m = Next p1 u1 m1 -> rest <> [] -> ends p1 u1 m1 rest u' ->
  ends p u m (c :: rest) u'.
Proof.
  intros Ht Hr (p' & Hs & H). exists p'. split; [done|]. apply runs_cons. exists p1, u1, m1.
  by destruct rest.
Qed.

Lemma ends_unmarked p u m m' a u' : pstate p <> s_part_data -> ends p u m a u' -> ends p u m' a u'.
Proof. intros Hp (p' & Hs & H). exists p'. split; [done|]. by eapply runs_unmarked. Qed.

(** The parser of a body with this boundary. *)
Definition bounded (p : multipart_parser) : Prop :=
  multipart_boundary p = b /\ (length delimiter <= length (lookbehind p))%nat.

(** From the state [s] the text [a] is taken to the end of the body. *)
Definition reaches (s : state) (u : U) (a : bytes) (u' : U) : Prop :=
  a <> [] /\ forall p, bounded p -> pstate p = s -> ends p u [] a u'.

(** The rest of the data is given to the user, the end of the part is announced, and the parser
    is behind the delimiter. *)
Lemma ends_data k x p u r t u1 u2 u' :
  inside k x p u r t u1 -> notified (on_part_data_end settings) u1 u2 -> reaches s_part_data_almost_end u2 t u' ->
  ends p u x r u'.
Proof.
  intros Hin Hn [Ht Hr]. revert k x p u Hin. induction r as [|c r IH]; intros k x p u Hin.
  { destruct Hin as (_ & _ & _ & Hk & d & Hd & _). apply splits_length in Hd. rewrite app_nil_r, length_take in Hd. lia. }
  assert (r <> []) as Hne.
  { intros ->. destruct Hin as (_ & _ & _ & Hk & d & Hd & _). apply splits_length in Hd. rewrite length_app, length_take in Hd.
    destruct t; [done|]. cbn [length] in Hd. lia. }
  destruct (inside_step _ _ _ _ _ _ _ _ Hin) as [(k' & x' & p' & u0 & Hstep & Hin')|H].
  - eapply ends_step; [exact Hstep|done|]. by eapply IH.
  - destruct H as (-> & -> & q & Hb & Hl & Hstep). eapply ends_step; [|done|].
    + rewrite Hstep. apply notify_next. by exists u2.
    + by apply Hr.
Qed.

(** ** A whole body *)

Lemma splits_body body t : (forall d t', body <> d ++ delimiter ++ t') -> splits (body ++ delimiter ++ t) body t.
Proof.
  induction body as [|c body IH]; intros Hb; [constructor|]. cbn [app]. apply splits_later.
  - intros [s Hs]. destruct (decide (length delimiter <= length (c :: body))%nat) as [Hl|Hl].
    + apply (Hb [] (drop (length delimiter) (c :: body))). cbn [app].
      rewrite <- (take_drop (length delimiter) (c :: body)) at 1. f_equal.
      apply (f_equal (take (length delimiter))) in Hs. rewrite take_app_length in Hs.
      change (c :: body ++ delimiter ++ t) with ((c :: body) ++ delimiter ++ t) in Hs. by rewrite take_app_le in Hs.
    + apply (f_equal (lookup (length (c :: body)))) in Hs.
      change (c :: body ++ delimiter ++ t) with ((c :: body) ++ CR :: LF :: b ++ t) in Hs.
      rewrite lookup_app_r, Nat.sub_diag in Hs by lia. cbn [lookup list_lookup] in Hs.
      rewrite lookup_app_l in Hs by lia. symmetry in Hs. by apply delimiter_cr in Hs.
  - apply IH. intros d t' ->. apply (Hb (c :: d) t'). done.
Qed.

Lemma notify_notified cb p u u' k : notified cb u u' -> NOTIFY_CB (U := U) cb p u k = k u'.
Proof. unfold notified, NOTIFY_CB. destruct cb as [f|]; [by intros ->|by intros [= ->]]. Qed.

Lemma reaches_step s s1 u u1 c rest u' :
  (forall p, bounded p -> pstate p = s -> exists p1 m1, execute_turn settings c false p u [] = Next p1 u1 m1 /\
     (m1 = [] \/ pstate p1 <> s_part_data) /\ bounded p1 /\ pstate p1 = s1) ->
  reaches s1 u1 rest u' -> reaches s u (c :: rest) u'.
Proof.
  intros Hstep [Hr Hrest]. split; [done|]. intros p Hp Hs. destruct (Hstep p Hp Hs) as (p1 & m1 & Ht & Hm & Hp1 & Hs1).
  pose proof (Hrest p1 Hp1 Hs1) as He. eapply ends_step; [exact Ht|done|].
  destruct Hm as [->|Hm]; [done|by eapply ends_unmarked].
Qed.

Lemma reaches_end u u' :
  ok u' -> notified (on_body_end settings) u u' -> reaches s_part_data_almost_end u ["-"; "-"]%char u'.
Proof.
  intros Hok Hn. split; [done|]. intros p Hp Hs.
  eapply (ends_step _ _ _ _ _ (goto s_part_data_final_hyphen p) u []); [unfold execute_turn; by rewrite Hs|done|].
  exists (goto s_end (goto s_part_data_final_hyphen p)). split; [done|]. apply runs_cons.
  eexists _, u', []. cbn [execute_turn pstate goto]. rewrite (notify_notified _ _ _ _ _ Hn). split; [done|].
  by apply runs_nil.
Qed.

Lemma reaches_next_part u u1 rest u' :
  notified (on_part_data_begin settings) u u1 -> reaches s_header_field_start u1 rest u' ->
  reaches s_part_data_almost_end u (CR :: LF :: rest) u'.
Proof.
  intros Hn H. apply (reaches_step _ s_part_data_end u u).
  { intros p Hp Hs. exists (goto s_part_data_end p), []. unfold execute_turn. rewrite Hs. by split_and!; [|left| |]. }
  apply (reaches_step _ s_header_field_start u u1); [|done].
  intros p Hp Hs. exists (goto s_header_field_start p), []. unfold execute_turn. rewrite Hs. cbn [Ascii.eqb].
  by rewrite (notify_notified _ _ _ _ _ Hn); split_and!; [|left| |].
Qed.

Lemma reaches_headers_done u rest u' : reaches s_part_data_start u rest u' -> reaches s_header_field_start u (CR :: LF :: rest) u'.
Proof.
  intros H. apply (reaches_step _ s_headers_almost_done u u).
  { intros p Hp Hs. exists (goto s_headers_almost_done (goto s_header_field p)), []. unfold execute_turn. rewrite Hs.
    by split_and!; [|left| |]. }
  apply (reaches_step _ s_part_data_start u u); [|done].
  intros p Hp Hs. exists (goto s_part_data_start p), []. unfold execute_turn. rewrite Hs. by split_and!; [|left| |].
Qed.

Lemma reaches_value v u rest u' :
  CR ∉ v -> reaches s_header_field_start u rest u' ->
  reaches s_header_value_start u (v ++ CR :: LF :: rest) u' /\ reaches s_header_value u (v ++ CR :: LF :: rest) u'.
Proof.
  intros Hv H. assert (reaches s_header_value_almost_done u (LF :: rest) u') as Hlf.
  { apply (reaches_step _ s_header_field_start u u); [|done]. intros p Hp Hs. exists (goto s_header_field_start p), [].
    unfold execute_turn. rewrite Hs. by split_and!; [|left| |]. }
  induction v as [|c v IH]; cbn [app].
  { split; apply (reaches_step _ s_header_value_almost_done u u); try done; intros p Hp Hs;
      [exists (goto s_header_value_almost_done (goto s_header_value p)), []|exists (goto s_header_value_almost_done p), []];
      unfold execute_turn; rewrite Hs; rewrite ?header_value_last; by split_and!; [|left| |]. }
  rewrite not_elem_of_cons in Hv. destruct Hv as [Hc Hv]. destruct (IH Hv) as [IH1 IH2].
  assert (Ascii.eqb c CR = false) as Ec by (apply Ascii.eqb_neq; congruence). split.
  - destruct (Ascii.eqb c " ") eqn:Esp.
    + apply (reaches_step _ s_header_value_start u u); [|done]. intros p Hp Hs. exists p, [].
      unfold execute_turn. rewrite Hs, Esp. by split_and!; [|left| |].
    + apply (reaches_step _ s_header_value u u); [|done]. intros p Hp Hs. exists (goto s_header_value p), [c].
      unfold execute_turn. rewrite Hs, Esp, header_value_last, Ec. by split_and!; [|right| |].
  - apply (reaches_step _ s_header_value u u); [|done]. intros p Hp Hs. exists p, [c].
    unfold execute_turn. rewrite Hs, header_value_last, Ec. by split_and!; [|right| |].
Qed.

Lemma name_char_other c : header_name_char c = true -> Ascii.eqb c CR = false /\ Ascii.eqb c ":" = false.
Proof. by destruct c as [[][][][][][][][]]. Qed.

(** A header: its name of letters and hyphens, and its value up to the end of the line. *)
Definition header_ok (h : bytes * bytes) : Prop :=
  h.1 <> [] /\ Forall (fun c => header_name_char c = true) h.1 /\ CR ∉ h.2.

Definition render_header (h : bytes * bytes) : bytes := h.1 ++ ":"%char :: h.2 ++ [CR; LF].

Lemma reaches_header h u rest u' :
  header_ok h -> reaches s_header_field_start u rest u' -> reaches s_header_field_start u (render_header h ++ rest) u'.
Proof.
  destruct h as [n v]. intros (Hne & Hn & Hv) H. cbn [fst snd] in *. unfold render_header. cbn [fst snd].
  replace ((n ++ ":"%char :: v ++ [CR; LF]) ++ rest) with (n ++ ":"%char :: v ++ CR :: LF :: rest)
    by (rewrite <- app_assoc; cbn [app]; by rewrite <- app_assoc).
  destruct (reaches_value v u rest u' Hv H) as [Hval _].
  assert (forall n, Forall (fun c => header_name_char c = true) n ->
    reaches s_header_field u (n ++ ":"%char :: v ++ CR :: LF :: rest) u') as Hname.
  { clear Hne Hn. intros m Hm. induction Hm as [|c m Hc _ IH]; cbn [app].
    - apply (reaches_step _ s_header_value_start u u); [|done]. intros p Hp Hs. exists (goto s_header_value_start p), [].
      unfold execute_turn. rewrite Hs, header_field_last by done. by split_and!; [|left| |].
    - apply (reaches_step _ s_header_field u u); [|done]. intros p Hp Hs. exists p, [c].
      destruct (name_char_other c Hc) as [E1 E2]. unfold execute_turn.
      rewrite Hs, header_field_last, E1, E2, Hc by done. by split_and!; [|right| |]. }
  destruct Hn as [|c n Hc Hn]; [done|]. cbn [app]. apply (reaches_step _ s_header_field u u); [|by apply Hname].
  intros p Hp Hs. exists (goto s_header_field p), [c]. destruct (name_char_other c Hc) as [E1 E2]. unfold execute_turn.
  rewrite Hs, header_field_last, E1, E2, Hc by done. by split_and!; [|right| |].
Qed.

Lemma reaches_headers l u rest u' :
  Forall header_ok l -> reaches s_header_field_start u rest u' ->
  reaches s_header_field_start u (concat (render_header <$> l) ++ rest) u'.
Proof.
  intros Hl H. induction Hl as [|h l Hh _ IH]; [done|]. rewrite fmap_cons. cbn [concat].
  rewrite <- app_assoc. by apply reaches_header.
Qed.

Lemma ends_data_start p u u0 m r u' :
  pstate p = s_part_data_start -> notified (on_headers_complete settings) u u0 -> r <> [] ->
  ends (goto s_part_data p) u0 [] r u' -> ends p u m r u'.
Proof.
  intros Hs Hn Hr (p' & He & H). exists p'. split; [done|]. destruct r as [|c r]; [done|]. apply runs_cons.
  apply runs_cons in H as (p1 & u1 & m1 & Ht & H). exists p1, u1, m1. split; [|done]. rewrite <- Ht.
  unfold execute_turn at 1. rewrite Hs. unfold part_data_start. by rewrite (notify_notified _ _ _ _ _ Hn).
Qed.

Lemma reaches_data body u u0 u1 u2 rest u' :
  (forall d t, body <> d ++ delimiter ++ t) ->
  notified (on_headers_complete settings) u u0 -> emit_data body u0 = (0, u1) -> ok u1 ->
  notified (on_part_data_end settings) u1 u2 ->
  reaches s_part_data_almost_end u2 rest u' -> reaches s_part_data_start u (body ++ delimiter ++ rest) u'.
Proof.
  intros Hb Hh Hd Hok He Hrest. assert (body ++ delimiter ++ rest <> []) as Hne by (by destruct body).
  split; [done|]. intros p [Hpb Hpl] Hs. eapply ends_data_start; [done|done|done|].
  eapply (ends_data 0); [|done|done]. split_and!; [done|done|lia|pose proof delimiter_length; lia|].
  exists body. split; [by apply splits_body|done].
Qed.

Lemma reaches_start u u1 rest u' :
  notified (on_part_data_begin settings) u u1 -> reaches s_header_field_start u1 rest u' ->
  reaches s_start u (b ++ CR :: LF :: rest) u'.
Proof.
  intros Hn [Hr Hrest].
  assert (forall b2 b1 p, b = b1 ++ b2 -> bounded p -> pstate p = s_start_boundary -> index p = length b1 ->
    ends p u [] (b2 ++ CR :: LF :: rest) u') as Hgen.
  { induction b2 as [|c b2 IH]; intros b1 p Hb Hp Hs Hi; pose proof Hp as [Hpb Hpl].
    - rewrite app_nil_r in Hb. cbn [app]. eapply (ends_step _ _ _ _ _ (set_index (S (index p)) p) u []); [|done|].
      { unfold execute_turn. rewrite Hs. unfold start_boundary, boundary_length. by rewrite Hi, Hpb, Hb, Nat.eqb_refl. }
      eapply ends_step; [|done|].
      { unfold execute_turn. cbn [pstate set_index]. rewrite Hs. unfold start_boundary, boundary_length.
        cbn [index set_index multipart_boundary]. rewrite Hi, Hpb, Hb.
        rewrite (proj2 (Nat.eqb_neq (S (length b1)) (length b1))), (proj2 (Nat.eqb_eq _ _)) by lia.
        by rewrite (notify_notified _ _ _ _ _ Hn). }
      by apply Hrest.
    - cbn [app]. eapply (ends_step _ _ _ _ _ (set_index (S (index p)) p) u []); [|by destruct b2|].
      + unfold execute_turn. rewrite Hs. unfold start_boundary, boundary_length.
        rewrite Hi, Hpb, Hb, length_app. cbn [length]. rewrite (proj2 (Nat.eqb_neq (length b1) _)) by lia.
        destruct (Nat.eqb_spec (length b1) (length b1 + S (length b2) + 1)) as [|_]; [lia|].
        rewrite app_nth2, Nat.sub_diag by lia. cbn [nth]. by rewrite Ascii.eqb_refl.
      + apply (IH (b1 ++ [c])); [by rewrite <- app_assoc|done|done|]. rewrite length_app. cbn. lia. }
  split; [by destruct b|]. intros p Hp Hs.
  destruct (Hgen b [] (goto s_start_boundary (set_index 0 p)) eq_refl Hp eq_refl eq_refl) as (p' & He & Hruns).
  exists p'. split; [done|]. destruct (b ++ CR :: LF :: rest) as [|c r] eqn:E; [by destruct b|]. apply runs_cons.
  apply runs_cons in Hruns as (p1 & u2 & m1 & Ht & H). exists p1, u2, m1. split; [|done]. rewrite <- Ht.
  unfold execute_turn. by rewrite Hs.
Qed.

(** A part: its headers and its data, which does not hold the delimiter. *)
Record part := mk_part { part_headers : list (bytes * bytes); part_body : bytes }.

Definition part_ok (x : part) : Prop :=
  Forall header_ok (part_headers x) /\ forall d t, part_body x <> d ++ delimiter ++ t.

Definition render_part (x : part) : bytes := concat (render_header <$> part_headers x) ++ [CR; LF] ++ part_body x.

Fixpoint render_more (l : list part) : bytes :=
  delimiter ++ match l with [] => ["-"; "-"]%char | x :: l => [CR; LF] ++ render_part x ++ render_more l end.

(** The body with the parts [x] and [l], as a server sends it. *)
Definition render (x : part) (l : list part) : bytes := b ++ [CR; LF] ++ render_part x ++ render_more l.

(** What the user is told of a part, and of a body; everything succeeds. *)
Inductive told_part : part -> U -> U -> Prop :=
  | told_part_intro x u u0 u1 u2 u3 :
      notified (on_part_data_begin settings) u u0 -> notified (on_headers_complete settings) u0 u1 ->
      emit_data (part_body x) u1 = (0, u2) -> notified (on_part_data_end settings) u2 u3 -> told_part x u u3.

Inductive told : list part -> U -> U -> Prop :=
  | told_end u u' : notified (on_body_end settings) u u' -> told [] u u'
  | told_more x l u u1 u' : told_part x u u1 -> told l u1 u' -> told (x :: l) u u'.

Lemma told_ok l u u' : told l u u' -> ok u' -> ok u.
Proof.
  induction 1 as [u u' Hn|x l u u1 u' Hx _ IH]; intros Hok; [eapply notify_ok; [|exact Hn|done]; do 3 right; by left|].
  destruct Hx as [x u u0 u1 u2 u3 H0 H1 H2 H3]. eapply notify_ok; [|exact H0|]; [by left|].
  eapply notify_ok; [|exact H1|]; [right; by left|]. eapply emit_ok; [exact H2|].
  eapply notify_ok; [|exact H3|]; [do 2 right; by left|]. by apply IH.
Qed.

Lemma reaches_part x u u1 u2 u3 rest u' :
  part_ok x -> notified (on_headers_complete settings) u u1 -> emit_data (part_body x) u1 = (0, u2) ->
  notified (on_part_data_end settings) u2 u3 -> ok u3 -> reaches s_part_data_almost_end u3 rest u' ->
  reaches s_header_field_start u (render_part x ++ delimiter ++ rest) u'.
Proof.
  intros [Hh Hb] H1 H2 H3 Hok Hr. unfold render_part. rewrite <- !app_assoc. apply reaches_headers; [done|].
  cbn [app]. apply reaches_headers_done. rewrite ?app_nil_l. eapply reaches_data; try done.
  eapply notify_ok; [|exact H3|done]. do 2 right. by left.
Qed.

Lemma reaches_more l u u' :
  Forall part_ok l -> told l u u' -> ok u' ->
  reaches s_part_data_almost_end u (match l with [] => ["-"; "-"]%char | x :: l => [CR; LF] ++ render_part x ++ render_more l end) u'.
Proof.
  intros Hl Ht Hok. induction Ht as [u u' Hn|x l u u1 u' Hx Ht IH]; [by apply reaches_end|].
  apply Forall_cons in Hl as [Hp Hl]. destruct Hx as [x u u0 u1' u2 u3 H0 H1 H2 H3]. cbn [app].
  eapply reaches_next_part; [done|]. specialize (IH Hl Hok). pose proof (told_ok _ _ _ Ht Hok).
  destruct l; by eapply reaches_part.
Qed.

(** C32: the parser finds the parts of a body: whatever the boundary and the data are, as long as the data does not hold
    the delimiter, and in whatever pieces the body arrives, the user is told of every part in order, with exactly
    the bytes of the part, and of the end of the body. The names of the headers consist of letters and hyphens, and
    their values hold no carriage return; a digit in a name is taken for the start of the data, see
    [digit_in_header_is_data]. The callbacks of the user succeed. *)
Theorem multipart_parsed memory p x l pieces u u' :
  multipart_parser_init true b memory = Some p -> (length delimiter <= length memory)%nat ->
  Forall part_ok (x :: l) -> told (x :: l) u u' -> ok u' -> concat pieces = render x l ->
  exists p', execute_pieces p u pieces = Some (p', u') /\ pstate p' = s_end.
Proof.
  intros [= <-] Hm Hl Ht Hok Hc. apply Forall_cons in Hl as [Hx Hl]. inversion Ht as [|x' l' ? u1 ? Hx' Ht']; subst.
  destruct Hx' as [x u u0 u1 u2 u3 H0 H1 H2 H3]. pose proof (reaches_more l u3 u' Hl Ht' Hok) as Hmore.
  pose proof (told_ok _ _ _ Ht' Hok) as Hok3.
  assert (reaches s_start u (render x l) u') as [_ Hr].
  { unfold render. cbn [app]. eapply reaches_start; [done|]. destruct l; by eapply reaches_part. }
  destruct (Hr (mk_parser 0 s_start memory b) (conj eq_refl Hm) eq_refl) as (p' & He & Hruns).
  exists p'. split; [|done]. rewrite <- Hc in Hruns. by apply pieces_concat in Hruns as [H _].
Qed.
End Boundary.
End Pieces.

(** ** Examples *)

(** A user who collects the data and marks the ends of the parts. *)
Definition collector : multipart_parser_settings bytes :=
  mk_settings None None (Some (fun bs u => (0, u ++ bs))) None None (Some (fun u => (0, u ++ ["|"%char]))) None.

#[export] Instance collector_user : StreamUser collector (fun _ => True).
Proof.
  split; try done.
  - intros u _. cbn. by rewrite app_nil_r.
  - intros a b u u2 _. cbn. rewrite app_assoc. split; [by intros [= <-]; eexists|by intros (u1 & [= <-] & [= <-])].
Qed.

Definition text (s : string) : bytes := String.list_ascii_of_string s.

Definition xboundary : bytes := text "--boundary".

Definition first_part : part :=
  mk_part [(text "Content-Range", text " bytes 0-3/10")] (text "da" ++ [CR; LF] ++ text "--b" ++ [CR]).
Definition second_part : part := mk_part [] (text "more").

Lemma short_body body d t :
  (length body < length (delimiter xboundary))%nat -> body <> d ++ delimiter xboundary ++ t.
Proof. intros H ->. rewrite !length_app in H. lia. Qed.

Lemma two_parts_ok : Forall (part_ok xboundary) [first_part; second_part].
Proof.
  repeat apply Forall_cons_2; [| |constructor]; (split; [|intros d t; apply short_body; cbn; lia]).
  - apply Forall_cons_2; [|constructor]. split_and!; [done|by repeat constructor|].
    by repeat (apply not_elem_of_cons; split; [done|]); apply not_elem_of_nil.
  - constructor.
Qed.

(** The body in pieces of five bytes. *)
Fixpoint pieces_of (n : nat) (fuel : nat) (s : bytes) : list bytes :=
  match fuel with O => [s] | S fuel => take n s :: pieces_of n fuel (drop n s) end.

Definition two_pieces : list bytes := pieces_of 5 20 (render xboundary first_part [second_part]).

Definition first_parser : multipart_parser := mk_parser 0 s_start (replicate 20 "z"%char) xboundary.

Definition collected : bytes := text "da" ++ [CR; LF] ++ text "--b" ++ [CR] ++ text "|more|".

Lemma multipart_parsed_witness :
  exists p', execute_pieces collector first_parser [] two_pieces = Some (p', collected) /\ pstate p' = s_end.
Proof.
  apply (multipart_parsed collector (fun _ => True) xboundary ltac:(done)
    ltac:(by repeat (apply not_elem_of_cons; split; [done|]); apply not_elem_of_nil)
    (replicate 20 "z"%char) first_parser first_part [second_part] two_pieces [] collected).
  - reflexivity.
  - cbn. lia.
  - exact two_parts_ok.
  - eapply told_more; [by eapply told_part_intro|]. eapply told_more; [by eapply told_part_intro|]. by apply told_end.
  - exact I.
  - reflexivity.
Defined.

Lemma pieces_independent_witness :
  execute_pieces collector first_parser [] two_pieces =
    Some (mk_parser 10 s_end ([CR; LF] ++ text "--boundary" ++ replicate 8 "z"%char) xboundary, collected).
Proof. apply (pieces_independent collector (fun _ => True) _ _ _ _ _ I). reflexivity. Defined.

(** ** Where the parser departs from what it means *)

(** A digit is taken for an invalid character of a header name, and the rest of the line for the data of the part. *)
Theorem digit_in_header_is_data :
  (multipart_parser_execute collector first_parser []
     (render xboundary (mk_part [(text "Content-MD5", text " x")] (text "data")) [])).2 =
  text "5: x" ++ [CR; LF; CR; LF] ++ text "data|".
Proof. reflexivity. Qed.

(** A part without headers and without the empty line that ends them is taken for data from the first character on
    that is no letter; the letters before it are lost. *)
Theorem letters_of_data_lost :
  (multipart_parser_execute collector first_parser []
     (xboundary ++ [CR; LF] ++ text "abc1" ++ delimiter xboundary ++ text "--")).2 = text "1|".
Proof. reflexivity. Qed.
