(* ===== verification/Ranges.v ===== *)
(** * Ranges of missing chunks: [handlers/zchunk_range.c]

    For a delta update the chunks of an image that the device does not have are asked for as ranges of bytes
    of a file on a server. The ranges are kept sorted and joined where they touch, and are printed for
    the header of the request. *)
From Stdlib Require Import Sorted.
From S2P Require Import Prelude CString Util Crypto Cpio Memory.

(** ** Chunks *)

(** What the functions of the zchunk library return for a chunk: [zck_get_chunk_valid], [zck_get_chunk_start] and
    so on. A chunk that is valid has a chunk of the running system with the same contents,
    [zck_get_src_chunk]. *)
Record src_chunk := mk_src {
  src_start : Z;
  src_size : Z;
  src_digest : option string;
}.

Record zckChunk := mk_chunk {
  chunk_valid : bool;
  chunk_start : Z;
  chunk_comp_size : Z;
  chunk_size : Z;
  chunk_digest : option string;
  chunk_digest_uncompressed : option string;
  chunk_src : src_chunk;
}.

(** ** The list of ranges *)

Record zck_range_item := mk_item {
  r_start : Z;
  r_end : Z;
}.

Record zck_range := mk_range {
  r_count : Z;
  r_items : list zck_range_item;
}.

(** [range_merge_combined] from the element [cur] on: the elements and the count. *)
Fixpoint merge_from (cur : zck_range_item) (l : list zck_range_item) (count : Z) : list zck_range_item * Z :=
  match l with
  | [] => ([cur], count)
  | n :: l =>
      if u64 (r_start n - 1) <=? r_end cur
      then merge_from (mk_item (r_start cur) (if r_end cur <? r_end n then r_end n else r_end cur)) l (u32 (count - 1))
      else let '(l, count) := merge_from n l count in (cur :: l, count)
  end.

Definition range_merge_combined (info : zck_range) : zck_range :=
  match r_items info with
  | [] => info
  | cur :: l => let '(l, count) := merge_from cur l (r_count info) in mk_range count l
  end.

(** The loop of [range_add]: before the first element with a larger start, into the one with the same start, or
    at the end. [None]: there is no memory for the element. *)
Fixpoint range_insert (mem : bool) (s e : Z) (l : list zck_range_item) : option (list zck_range_item) :=
  match l with
  | [] => if mem then Some [mk_item s e] else None
  | i :: l' =>
      if r_start i <? s then cons i <$> range_insert mem s e l'
      else if s <? r_start i then if mem then Some (mk_item s e :: l) else None
      else Some (mk_item (r_start i) (if r_end i <? e then e else r_end i) :: l')
  end.

Definition range_add (mem : bool) (info : zck_range) (chk : zckChunk) : option zck_range :=
  let start := u64 (chunk_start chk) in
  let end_ := u64 (chunk_start chk + chunk_comp_size chk - 1) in
  l ← range_insert mem start end_ (r_items info);
  Some (range_merge_combined (mk_range (u32 (r_count info + 1)) l)).

(** The loop of [zchunk_get_missing_range]; [mem] says for which chunks there is memory. *)
Fixpoint missing_loop (mem : zckChunk -> bool) (chunks : list zckChunk) (max_ranges : Z) (range : zck_range)
  : option zck_range :=
  match chunks with
  | [] => Some range
  | chk :: chunks =>
      if chunk_valid chk then missing_loop mem chunks max_ranges range
      else
        range ← range_add (mem chk) range chk;
        if (0 <=? max_ranges) && (max_ranges <=? r_count range) then Some range
        else missing_loop mem chunks max_ranges range
  end.

(** The chunks are those from [first] on. *)
Definition zchunk_get_missing_range (mem : zckChunk -> bool) (chunks : list zckChunk) (max_ranges : Z) : option zck_range :=
  missing_loop mem chunks max_ranges (mk_range 0 []).

Definition zchunk_get_range_count (range : zck_range) : Z := i32 (r_count range).

(** ** The text of the ranges *)

Definition BUF_SIZE : Z := 32768.

Definition item_text (i : zck_range_item) : string := print_d (r_start i) +:+ "-" +:+ print_d (r_end i) +:+ ",".

(** [snprintf] of [t] at the end of [out] in a buffer of [size] bytes: a text that just fits loses its last
    character. *)
Definition put_text (size : Z) (out : bytes) (t : string) : bytes :=
  let t' := String.list_ascii_of_string t in
  if strlen t =? size - Z.of_nat (length out) then out ++ removelast t' ++ [NUL] else out ++ t'.

(** The loop of [zchunk_get_range_char]: the bytes written, [None] if the fuel is not enough. [out] holds the first
    [loc] bytes of the buffer; there is memory when the buffer grows. *)
Fixpoint range_text (fuel : nat) (size : Z) (out : bytes) (l : list zck_range_item) : option bytes :=
  match l with
  | [] => Some out
  | i :: l' =>
      match fuel with
      | O => None
      | S fuel =>
          if size - Z.of_nat (length out) <? strlen (item_text i) then range_text fuel (i32 (size * 3 / 2)) out l
          else range_text fuel size (put_text size out (item_text i)) l'
      end
  end.

(** [zchunk_get_range_char]; without a range the character before the buffer is overwritten, which is undefined. *)
Definition zchunk_get_range_char (fuel : nat) (range : zck_range) : option string :=
  out ← range_text fuel BUF_SIZE [] (r_items range);
  match out with [] => None | _ => Some (cstring (removelast out)) end.

(** * Properties *)

(** ** Sorted and separate ranges *)

Definition item_ok (i : zck_range_item) : Prop := 0 <= r_start i <= r_end i /\ r_end i < 2 ^ 64.

Definition before (i j : zck_range_item) : Prop := r_start i < r_start j.
Definition apart (i j : zck_range_item) : Prop := r_end i + 1 < r_start j.

Definition covers (l : list zck_range_item) (b : Z) : Prop := Exists (fun i => r_start i <= b <= r_end i) l.

(** A list of ranges that do not touch each other, in order. *)
Definition separate (l : list zck_range_item) : Prop := Forall item_ok l /\ StronglySorted apart l.

Lemma separate_before l : separate l -> Forall item_ok l /\ StronglySorted before l.
Proof.
  intros [Hok H]. split; [done|]. induction H as [|i l _ IH Hl]; [constructor|].
  apply Forall_cons in Hok as [Hi Hok]. constructor; [by apply IH|]. eapply Forall_impl; [exact Hl|].
  unfold apart, before, item_ok in *. intros j Hj. lia.
Qed.

Lemma merge_from_spec cur l count l' count' :
  merge_from cur l count = (l', count') -> Forall item_ok (cur :: l) -> StronglySorted before (cur :: l) ->
  separate l' /\ (forall b, covers l' b <-> covers (cur :: l) b) /\
  (exists j l1, l' = j :: l1 /\ r_start j = r_start cur) /\ (length l' <= length (cur :: l))%nat /\
  (Z.of_nat (length (cur :: l)) <= count < 2 ^ 32 ->
   count' = count - Z.of_nat (length (cur :: l)) + Z.of_nat (length l')).
Proof.
  revert cur count l' count'. induction l as [|n l IH]; intros cur count l' count' H Hok Hs; cbn [merge_from] in H.
  { injection H as <- <-. split_and!; [by split; [|repeat constructor]|done|by eexists _, _|done|lia]. }
  apply Forall_cons in Hok as [Hc Hok]. pose proof Hok as Hok'. apply Forall_cons in Hok' as [Hn Hl].
  apply StronglySorted_inv in Hs as [Hs Hb]. apply StronglySorted_inv in Hs as Hs'. destruct Hs' as [Hsl Hbn].
  apply Forall_cons in Hb as [Hcn Hb]. unfold item_ok, before in Hc, Hn, Hcn.
  rewrite (wrap_small 64) in H by lia. destruct (Z.leb_spec (r_start n - 1) (r_end cur)) as [Hm|Hm].
  - apply IH in H as (H1 & H2 & H3 & Hle & H4).
    + split_and!; [done| |done|cbn [length] in *; lia|].
      * intros b. rewrite H2. unfold covers. rewrite !Exists_cons. cbn [r_start r_end].
        destruct (Z.ltb_spec (r_end cur) (r_end n)); split; intros [Hb1|Hb1]; auto; try lia;
          destruct (decide (b <= r_end cur)); try destruct Hb1; auto; lia.
      * cbn [length] in H4 |- *. intros Hlen. rewrite H4; [rewrite (wrap_small 32) by lia; lia|].
        rewrite (wrap_small 32) by lia. lia.
    + constructor; [|done]. unfold item_ok. cbn. destruct (Z.ltb_spec (r_end cur) (r_end n)); lia.
    + constructor; [done|]. done.
  - destruct (merge_from n l count) as [l1 c1] eqn:E. injection H as <- <-.
    apply IH in E as ([H1 H1'] & H2 & (j & l2 & -> & Hj) & Hle & H4); [|done|done]. split_and!.
    + split; [by constructor|]. constructor; [done|]. constructor; [unfold apart; lia|].
      apply StronglySorted_inv in H1' as [_ H1']. apply Forall_cons in H1 as [[Hj1 _] _].
      eapply Forall_impl; [exact H1'|]. unfold apart. intros k Hk. lia.
    + intros b. unfold covers in *. rewrite (Exists_cons _ cur), (H2 b). rewrite (Exists_cons _ cur (n :: l)). done.
    + by eexists _, _.
    + cbn [length] in *. lia.
    + cbn [length] in H4 |- *. intros Hlen. rewrite H4 by lia. lia.
Qed.

Lemma range_insert_spec mem s e l l' :
  range_insert mem s e l = Some l' -> item_ok (mk_item s e) -> Forall item_ok l -> StronglySorted before l ->
  Forall item_ok l' /\ StronglySorted before l' /\ (forall b, covers l' b <-> s <= b <= e \/ covers l b) /\
  (forall i, i ∈ l' -> r_start i = s \/ exists j, j ∈ l /\ r_start j = r_start i) /\
  length l' = if decide (s ∈ r_start <$> l) then length l else S (length l).
Proof.
  intros H Hse. revert l' H. induction l as [|i l IH]; intros l' H Hok Hs; cbn [range_insert] in H.
  { destruct mem; [|done]. injection H as <-. split_and!; [by constructor|by repeat constructor| | |].
    - intros b. unfold covers. rewrite Exists_cons, !Exists_nil. done.
    - intros j ->%list_elem_of_singleton. by left.
    - case_decide as Hd; [by apply elem_of_nil in Hd|done]. }
  pose proof Hok as [Hi Hl]%Forall_cons. pose proof Hs as [Hsl Hb]%StronglySorted_inv.
  unfold item_ok in Hse, Hi. cbn [r_start r_end] in Hse.
  destruct (Z.ltb_spec (r_start i) s) as [Hlt|Hge].
  - destruct (range_insert mem s e l) as [l1|] eqn:E; [|done]. injection H as <-.
    destruct (IH l1 eq_refl Hl Hsl) as (H1 & H2 & H3 & H4 & H5). split_and!.
    + by constructor.
    + constructor; [done|]. apply Forall_forall. intros j Hj. unfold before.
      destruct (H4 j Hj) as [->|(k & Hk & <-)]; [done|]. rewrite Forall_forall in Hb. by apply Hb.
    + intros b. unfold covers in *. rewrite !Exists_cons, H3. tauto.
    + intros j [->|Hj]%elem_of_cons; [right; exists i; split; [by left|done]|].
      destruct (H4 j Hj) as [?|(k & Hk & ?)]; [by left|right; exists k; split; [by right|done]].
    + cbn [length fmap list_fmap]. rewrite H5. destruct (decide (s ∈ r_start <$> l)) as [Hd|Hd]; case_decide as Hd'; try done.
      * exfalso. apply Hd'. by right.
      * exfalso. apply elem_of_cons in Hd' as [->|]; [lia|done].
  - clear IH. destruct (Z.ltb_spec s (r_start i)) as [Hlt|Hge'].
    + destruct mem; [|done]. injection H as <-. split_and!.
      * by constructor.
      * constructor; [done|]. constructor; [done|]. eapply Forall_impl; [exact Hb|]. unfold before. cbn. intros j Hj. lia.
      * intros b. unfold covers. by rewrite (Exists_cons _ (mk_item s e)).
      * intros j [->|Hj]%elem_of_cons; [by left|right; by exists j].
      * case_decide as Hd; [exfalso|reflexivity]. apply list_elem_of_fmap in Hd as (j & Ej & [->|Hj]%elem_of_cons); [lia|].
        rewrite Forall_forall in Hb. specialize (Hb j Hj). unfold before in Hb. lia.
    + assert (r_start i = s) as Es by lia. injection H as <-. split_and!.
      * constructor; [|done]. unfold item_ok. cbn. destruct (Z.ltb_spec (r_end i) e); lia.
      * by constructor.
      * intros b. unfold covers. rewrite !Exists_cons. cbn [r_start r_end].
        destruct (Z.ltb_spec (r_end i) e); destruct (decide (s <= b <= e)); destruct (decide (r_start i <= b <= r_end i));
          intuition lia.
      * intros j [->|Hj]%elem_of_cons; [by left|right; exists j; split; [by right|done]].
      * case_decide as Hd; [done|]. exfalso. apply Hd. cbn. rewrite Es. by left.
Qed.

(** One chunk added: the ranges stay separate, and cover its bytes besides the old ones. *)
Definition missing_ok (chk : zckChunk) : Prop :=
  0 <= chunk_start chk /\ 0 < chunk_comp_size chk /\ chunk_start chk + chunk_comp_size chk <= 2 ^ 64.

Definition in_chunk (chk : zckChunk) (b : Z) : Prop := chunk_start chk <= b < chunk_start chk + chunk_comp_size chk.

Lemma range_add_spec mem info chk info' :
  range_add mem info chk = Some info' -> missing_ok chk -> separate (r_items info) ->
  separate (r_items info') /\ (forall b, covers (r_items info') b <-> in_chunk chk b \/ covers (r_items info) b) /\
  (length (r_items info') <= S (length (r_items info)))%nat /\
  (r_count info = Z.of_nat (length (r_items info)) -> r_count info + 1 < 2 ^ 32 ->
   ~ covers (r_items info) (chunk_start chk) -> r_count info' = Z.of_nat (length (r_items info'))).
Proof.
  intros H (H0 & H1 & H2) Hs. unfold range_add in H. rewrite !(wrap_small 64) in H by lia.
  destruct (range_insert mem _ _ _) as [l|] eqn:E; [|done]. cbn in H. injection H as <-.
  destruct (separate_before _ Hs) as [Hok Hb].
  apply range_insert_spec in E as (E1 & E2 & E3 & _ & E4); [|unfold item_ok; cbn; lia|done|done].
  unfold range_merge_combined. cbn [r_items r_count]. destruct l as [|cur l].
  { exfalso. apply (Exists_nil (fun i => r_start i <= chunk_start chk <= r_end i)). apply E3. left. lia. }
  destruct (merge_from cur l (u32 (r_count info + 1))) as [l' c'] eqn:Em.
  apply merge_from_spec in Em as (M1 & M2 & _ & Hle & M3); [|done|done]. cbn [r_items r_count].
  split_and!; [done| |rewrite E4 in Hle; destruct (decide _); lia|].
  - intros b. rewrite M2, E3. unfold in_chunk. split; (intros [?|?]; [left; lia|by right]).
  - intros Hc Hr Hn. rewrite (wrap_small 32) in M3 by lia. rewrite E4, decide_False in M3.
    + rewrite M3; lia.
    + intros (j & Ej & Hj)%list_elem_of_fmap. apply Hn. apply Exists_exists. exists j. split; [done|].
      rewrite Forall_forall in Hok. destruct (Hok j Hj) as [[_ ?] _]. lia.
Qed.

(** ** The missing chunks *)

Definition missing (l : list zckChunk) : list zckChunk := filter (fun c => chunk_valid c = false) l.

(** The chunks of a file follow one another. *)
Fixpoint laid_out (pos : Z) (l : list zckChunk) : Prop :=
  match l with
  | [] => True
  | c :: l => chunk_start c = pos /\ 0 <= chunk_comp_size c /\ laid_out (pos + chunk_comp_size c) l
  end.

Definition chunks_ok (l : list zckChunk) : Prop := Forall missing_ok (missing l).

Lemma missing_cons c l : missing (c :: l) = if chunk_valid c then missing l else c :: missing l.
Proof. unfold missing. rewrite filter_cons. by destruct (chunk_valid c); cbn. Qed.

Lemma missing_app l k : missing (l ++ k) = missing l ++ missing k.
Proof. apply filter_app. Qed.

Lemma missing_loop_spec mem chunks max info info' pos :
  missing_loop mem chunks max info = Some info' -> laid_out pos chunks -> chunks_ok chunks ->
  separate (r_items info) -> (forall b, covers (r_items info) b -> b < pos) ->
  r_count info = Z.of_nat (length (r_items info)) -> r_count info + Z.of_nat (length chunks) < 2 ^ 32 ->
  (0 <= max -> r_count info < Z.max 1 max) ->
  exists asked later, chunks = asked ++ later /\ separate (r_items info') /\
    (forall b, covers (r_items info') b <-> covers (r_items info) b \/ Exists (fun c => in_chunk c b) (missing asked)) /\
    r_count info' = Z.of_nat (length (r_items info')) /\ (0 <= max -> r_count info' <= Z.max 1 max) /\
    (missing later = [] \/ 0 <= max <= r_count info' /\ missing asked <> []).
Proof.
  revert info pos. induction chunks as [|c chunks IH]; intros info pos H Hlay Hok Hs Hp Hc Hl Hx; cbn [missing_loop] in H.
  { injection H as <-. exists [], []. split_and!; [done|done| |done|intros Hm; specialize (Hx Hm); lia|by left].
    intros b. unfold missing. rewrite filter_nil, Exists_nil. tauto. }
  destruct Hlay as (Es & Hz & Hlay). unfold chunks_ok in Hok. rewrite missing_cons in Hok. cbn [length] in Hl.
  destruct (chunk_valid c) eqn:Ev.
  - destruct (IH info (pos + chunk_comp_size c)) as (asked & later & -> & H1 & H2 & H3 & Hb & H4);
      [done|done|done|done|intros b Hb; specialize (Hp b Hb); lia|done|lia|done|].
    exists (c :: asked), later. split_and!; [done|done| |done|done|].
    + intros b. rewrite missing_cons, Ev. apply H2.
    + by rewrite missing_cons, Ev.
  - apply Forall_cons in Hok as [Hm Hok]. destruct (range_add (mem c) info c) as [i1|] eqn:E; [|done]. cbn in H.
    assert (~ covers (r_items info) (chunk_start c)) as Hn by (intros Hcv; specialize (Hp _ Hcv); lia).
    apply range_add_spec in E as (E1 & E2 & Hle & E3); [|done|done]. specialize (E3 Hc ltac:(lia) Hn).
    assert (r_count i1 <= r_count info + 1) as Hgrow.
    { rewrite E3, Hc. lia. }
    destruct ((0 <=? max) && (max <=? r_count i1)) eqn:Em.
    + injection H as <-. exists [c], chunks. rewrite andb_true_iff, !Z.leb_le in Em.
      split_and!; [done|done| |done|intros Hm0; specialize (Hx Hm0); lia|].
      * intros b. rewrite E2, missing_cons, Ev. unfold missing. rewrite filter_nil, Exists_cons, Exists_nil. tauto.
      * right. split; [done|]. by rewrite missing_cons, Ev.
    + destruct (IH i1 (pos + chunk_comp_size c)) as (asked & later & -> & H1 & H2 & H3 & Hb & H4); [done|done|done|done| |done|lia| |].
      { intros b [Hb|Hb]%E2; [unfold in_chunk in Hb; lia|]. specialize (Hp b Hb). lia. }
      { intros Hm0. rewrite andb_false_iff, !Z.leb_gt in Em. lia. }
      exists (c :: asked), later. split_and!; [done|done| |done|done|].
      * intros b. rewrite H2, E2, missing_cons, Ev, Exists_cons. tauto.
      * rewrite missing_cons, Ev. destruct H4 as [?|[? _]]; [by left|by right].
Qed.

Lemma missing_loop_total mem chunks max info :
  (forall c, mem c = true) -> is_Some (missing_loop mem chunks max info).
Proof.
  intros Hm. revert info. induction chunks as [|c chunks IH]; intros info; cbn [missing_loop]; [done|].
  destruct (chunk_valid c); [apply IH|]. rewrite Hm.
  assert (is_Some (range_insert true (u64 (chunk_start c)) (u64 (chunk_start c + chunk_comp_size c - 1)) (r_items info)))
    as [l Hl].
  { induction (r_items info) as [|i k IHk]; cbn [range_insert]; [done|]. case_match; [|case_match; done].
    destruct IHk as [? ->]. done. }
  unfold range_add. rewrite Hl. cbn. case_match; [done|apply IH].
Qed.

(** C29: the request for missing chunks asks for exactly bytes the device does not have: the request is for the first
    chunks of the file, [asked]; the ranges are in order and do not touch, and they hold a byte of the file if and only
    if it belongs to a missing chunk among [asked]. Their number is what is counted, and with a limit it is at most the
    limit (at most one for the limit 0). [asked] has all the missing chunks, unless the limit was reached. For the
    chunks of a file, which follow one another, none of them empty where it is missing, fewer than 2^32, and with
    memory. *)
Theorem missing_ranges_exact mem chunks max pos :
  (forall c, mem c = true) -> laid_out pos chunks -> chunks_ok chunks -> Z.of_nat (length chunks) < 2 ^ 32 ->
  exists range asked later, zchunk_get_missing_range mem chunks max = Some range /\ chunks = asked ++ later /\
    separate (r_items range) /\
    (forall b, covers (r_items range) b <-> Exists (fun c => in_chunk c b) (missing asked)) /\
    r_count range = Z.of_nat (length (r_items range)) /\ (0 <= max -> r_count range <= Z.max 1 max) /\
    (missing later = [] \/ 0 <= max <= r_count range /\ missing asked <> []).
Proof.
  intros Hm Hl Hok Hn. destruct (missing_loop_total mem chunks max (mk_range 0 []) Hm) as [range H].
  destruct (missing_loop_spec _ _ _ _ _ _ H Hl Hok) as (asked & later & H1 & H2 & H3 & H4 & H5 & H6).
  - split; constructor.
  - intros b Hb. by apply Exists_nil in Hb.
  - done.
  - cbn. lia.
  - cbn. lia.
  - exists range, asked, later. split_and!; try done. intros b. rewrite H3. cbn. unfold covers. rewrite Exists_nil. tauto.
Qed.

(** Separate ranges are determined by what they cover. *)
Lemma separate_head i l :
  separate (i :: l) ->
  item_ok i /\ separate l /\ (forall b, covers l b -> r_end i + 1 < b) /\ (forall b, covers (i :: l) b -> r_start i <= b).
Proof.
  intros [[Hi Hl]%Forall_cons [Hs Ha]%StronglySorted_inv]. unfold covers.
  assert (forall b, Exists (fun i => r_start i <= b <= r_end i) l -> r_end i + 1 < b) as H.
  { intros b (j & Hj & Hb)%Exists_exists. rewrite Forall_forall in Ha. specialize (Ha j Hj). unfold apart in Ha. lia. }
  split_and!; [done|by split|done|]. intros b [Hb|Hb]%Exists_cons; [lia|]. specialize (H b Hb). destruct Hi. lia.
Qed.

Lemma separate_unique l k :
  separate l -> separate k -> (forall b, covers l b <-> covers k b) -> l = k.
Proof.
  revert k. induction l as [|i l IH]; intros [|j k] Hl Hk Hc; [done| | |].
  - exfalso. destruct Hk as [[[Hj _] _]%Forall_cons _]. apply (Exists_nil (fun i => r_start i <= r_start j <= r_end i)).
    apply Hc. apply Exists_cons. left. lia.
  - exfalso. destruct Hl as [[[Hi _] _]%Forall_cons _]. apply (Exists_nil (fun j => r_start j <= r_start i <= r_end j)).
    apply Hc. apply Exists_cons. left. lia.
  - apply separate_head in Hl as ([Hi _] & Hl & Hil & Hbi), Hk as ([Hj _] & Hk & Hjk & Hbj).
    assert (forall (i : zck_range_item) l, covers (i :: l) (r_start i) <-> r_start i <= r_end i \/ covers l (r_start i)) as Hh.
    { intros x y. unfold covers. rewrite Exists_cons. split; (intros [?|?]; [left; lia|by right]). }
    assert (r_start i = r_start j) as Es.
    { apply Z.le_antisymm; [apply Hbi, Hc, Hh; left; lia|apply Hbj, Hc, Hh; left; lia]. }
    assert (r_end i = r_end j) as Ee.
    { destruct (Z.lt_trichotomy (r_end i) (r_end j)) as [Hlt|[?|Hlt]]; [|done|].
      - exfalso. assert (covers (i :: l) (r_end i + 1)) as [Hx|Hx]%Exists_cons; [|lia|specialize (Hil _ Hx); lia].
        apply Hc, Exists_cons. left. lia.
      - exfalso. assert (covers (j :: k) (r_end j + 1)) as [Hx|Hx]%Exists_cons; [|lia|specialize (Hjk _ Hx); lia].
        apply Hc, Exists_cons. left. lia. }
    f_equal; [destruct i, j; cbn in *; congruence|]. apply IH; [done|done|]. intros b. split; intros Hb.
    + assert (covers (j :: k) b) as [Hx|Hx]%Exists_cons by (apply Hc, Exists_cons; by right); [|done].
      specialize (Hil b Hb). lia.
    + assert (covers (i :: l) b) as [Hx|Hx]%Exists_cons by (apply Hc, Exists_cons; by right); [|done].
      specialize (Hjk b Hb). lia.
Qed.

(** ** The text of a request *)

Definition range_spec (i : zck_range_item) : string := print_d (r_start i) +:+ "-" +:+ print_d (r_end i).

Fixpoint join (l : list string) : string :=
  match l with [] => "" | [t] => t | t :: l => t +:+ "," +:+ join l end.

(** The value of the header of a request for several ranges. *)
Definition ranges_text (l : list zck_range_item) : string := join (range_spec <$> l).

Definition texts (l : list zck_range_item) : bytes := concat (String.list_ascii_of_string ∘ item_text <$> l).

Lemma range_text_fits fuel size out l :
  (length l <= fuel)%nat -> Z.of_nat (length (out ++ texts l)) < size -> range_text fuel size out l = Some (out ++ texts l).
Proof.
  revert out fuel. induction l as [|i l IH]; intros out fuel Hf Hl.
  { unfold texts. cbn. rewrite app_nil_r. by destruct fuel. }
  destruct fuel as [|fuel]; [by inversion Hf|]. apply le_S_n in Hf. cbn [range_text].
  assert (texts (i :: l) = String.list_ascii_of_string (item_text i) ++ texts l) as E by done.
  rewrite E, !length_app, list_ascii_length in Hl. unfold strlen.
  destruct (Z.ltb_spec (size - Z.of_nat (length out)) (Z.of_nat (String.length (item_text i)))); [lia|].
  unfold put_text, strlen.
  destruct (Z.eqb_spec (Z.of_nat (String.length (item_text i))) (size - Z.of_nat (length out))); [lia|].
  rewrite IH; [by rewrite E, app_assoc|done|]. rewrite !length_app, list_ascii_length. lia.
Qed.

Lemma texts_join l : l <> [] -> texts l = String.list_ascii_of_string (ranges_text l) ++ [","%char].
Proof.
  intros Hl. induction l as [|i l IH]; [done|]. clear Hl.
  assert (texts (i :: l) = String.list_ascii_of_string (item_text i) ++ texts l) as -> by done.
  assert (item_text i = range_spec i +:+ ",") as ->.
  { unfold item_text, range_spec. by rewrite !str_app_assoc. }
  rewrite list_ascii_app. destruct l as [|j l]; [by rewrite app_nil_r|].
  rewrite IH by done.
  change (ranges_text (i :: j :: l)) with (range_spec i +:+ "," +:+ ranges_text (j :: l)).
  rewrite !list_ascii_app, <- !app_assoc. done.
Qed.

Lemma range_spec_not_nul i : item_ok i -> str_forall not_nul (range_spec i) = true.
Proof.
  intros [[H1 H2] _]. unfold range_spec. rewrite !str_forall_app.
  assert (forall v, 0 <= v -> str_forall not_nul (print_d v) = true) as H; [|by rewrite !H by lia].
  intros v Hv. apply (str_forall_weaken isdigit); [|by apply print_d_digits].
  intros c. unfold isdigit, byte_in, not_nul, is_nul. bool_to_prop. lia.
Qed.

Lemma ranges_text_not_nul l : Forall item_ok l -> str_forall not_nul (ranges_text l) = true.
Proof.
  induction 1 as [|i l Hi _ IH]; [done|]. unfold ranges_text in *. destruct l as [|j l]; [by apply range_spec_not_nul|].
  change (join (range_spec <$> i :: j :: l)) with (range_spec i +:+ "," +:+ join (range_spec <$> j :: l)).
  rewrite !str_forall_app, IH, range_spec_not_nul by done. done.
Qed.

(** Ranges whose text is shorter than the buffer are printed one after the other, separated by commas. *)
Lemma range_char_fits fuel range :
  separate (r_items range) -> r_items range <> [] -> (length (r_items range) <= fuel)%nat ->
  strlen (ranges_text (r_items range)) + 1 < BUF_SIZE ->
  zchunk_get_range_char fuel range = Some (ranges_text (r_items range)).
Proof.
  intros [Hok _] Hne Hf Hl. unfold zchunk_get_range_char.
  rewrite range_text_fits; [|done|]; cbn [app mbind option_bind].
  2: { rewrite texts_join, length_app, list_ascii_length by done. cbn [length]. unfold strlen in Hl. lia. }
  rewrite texts_join by done. rewrite removelast_last.
  destruct (String.list_ascii_of_string (ranges_text (r_items range)) ++ [","%char]) eqn:E; [by apply app_eq_nil in E as []|].
  f_equal. by apply cstring_all, ranges_text_not_nul.
Qed.

(** ** Examples *)

Definition no_src : src_chunk := mk_src 0 0 None.

(** A file of five chunks after a header of 100 bytes; the first and the fourth one are on the device. *)
Definition five_chunks : list zckChunk :=
  [mk_chunk true 100 0 0 None None no_src; mk_chunk false 100 20 50 None None no_src; mk_chunk false 120 5 9 None None no_src;
   mk_chunk true 125 30 60 None None no_src; mk_chunk false 155 10 12 None None no_src].

Lemma missing_ranges_exact_witness :
  exists range asked later, zchunk_get_missing_range (fun _ => true) five_chunks 10 = Some range /\
    five_chunks = asked ++ later /\ separate (r_items range) /\
    (forall b, covers (r_items range) b <-> Exists (fun c => in_chunk c b) (missing asked)) /\
    r_count range = Z.of_nat (length (r_items range)) /\ (0 <= 10 -> r_count range <= Z.max 1 10) /\
    (missing later = [] \/ 0 <= 10 <= r_count range /\ missing asked <> []).
Proof.
  apply (missing_ranges_exact (fun _ => true) five_chunks 10 100); [done|cbn; lia| |done].
  unfold chunks_ok, missing_ok. repeat constructor; cbn; lia.
Defined.

Example five_chunks_text :
  (range ← zchunk_get_missing_range (fun _ => true) five_chunks 10; zchunk_get_range_char 10 range) = Some "100-124,155-164".
Proof. vm_compute. reflexivity. Qed.

(** An empty missing chunk, as the dictionary of a file that has none, and the chunk behind it start at the same
    place: there is one range but two are counted, and a limit of two ranges ends the request here. *)
Theorem empty_chunk_counted chk mem :
  missing_ok chk -> chunk_valid chk = false -> 0 < chunk_start chk ->
  let dict := mk_chunk false (chunk_start chk) 0 0 None None no_src in
  mem dict = true ->
  missing_loop mem [dict; chk] 2 (mk_range 0 []) =
  Some (mk_range 2 [mk_item (chunk_start chk) (chunk_start chk + chunk_comp_size chk - 1)]).
Proof.
  intros (H0 & H1 & H2) Hv Hp dict Hm. cbn [missing_loop dict chunk_valid]. rewrite Hv, Hm.
  unfold range_add. cbn [r_items range_insert chunk_start chunk_comp_size dict mbind option_bind r_count].
  unfold range_merge_combined. cbn [r_items merge_from r_count].
  rewrite !(wrap_small 64), !(wrap_small 32) by lia. cbn [Z.add Z.leb andb].
  cbn [range_insert mbind option_bind r_items r_start r_end]. rewrite !Z.ltb_irrefl. cbn [merge_from mbind option_bind].
  destruct (Z.ltb_spec (chunk_start chk + 0 - 1) (chunk_start chk + chunk_comp_size chk - 1)); [done|lia].
Qed.

(** A text that fills the buffer to its end loses its comma, and with it all ranges behind it. *)
Theorem range_text_cut :
  ((fun out => cstring (removelast out)) <$> range_text 10 4 [] [mk_item 0 1; mk_item 5 6]) = Some "0-1".
Proof. vm_compute. reflexivity. Qed.
