(* ===== verification/Delta.v ===== *)
(** * Delta updates: [handlers/delta_handler.c]

    An image is put together from chunks that the running system has and chunks that are downloaded. The
    handler knows the chunks of the new image from the header of a zchunk file in the update, asks a process
    of its own, the downloader, for the missing ones, follows the answer with a state machine and the
    multipart parser, verifies every chunk and writes it to the pipe of a chained handler. *)
From S2P Require Import Prelude CString Util Crypto Keys Cpio Memory Copyfile Zstd Multipart Ranges.

(** ** Messages between the handler and the downloader *)

Definition RANGE_PAYLOAD_SIZE : Z := 32768.

(** [request_type]. *)
Definition RANGE_GET : Z := 0.
Definition RANGE_HEADERS : Z := 1.
Definition RANGE_DATA : Z := 2.
Definition RANGE_COMPLETED : Z := 3.
Definition RANGE_ERROR : Z := 4.

(** The rest of [q_data], an array of [RANGE_PAYLOAD_SIZE] bytes, is zero. *)
Record range_request_t := mk_request {
  q_id : Z;
  q_type : Z;
  q_urllen : Z;
  q_rangelen : Z;
  q_data : bytes;
}.

Record range_answer_t := mk_answer {
  a_id : Z;
  a_type : Z;
  a_len : Z;
  a_crc : Z;
  a_data : bytes;
}.

Definition ANSWER_SIZE : nat := Z.to_nat 32792.

(** An answer in memory; four bytes behind the array align the structure. *)
Definition encode_answer (a : range_answer_t) : bytes :=
  le 4 (a_id a) ++ le 4 (a_type a) ++ le 8 (a_len a) ++ le 4 (a_crc a) ++ a_data a ++ replicate 4 NUL.

Definition decode_answer (bs : bytes) : range_answer_t :=
  mk_answer (of_le (slice 0 4 bs)) (of_le (slice 4 4 bs)) (of_le (slice 8 8 bs)) (of_le (slice 16 4 bs))
    (slice 20 (Z.to_nat RANGE_PAYLOAD_SIZE) bs).

(** ** The state of the handler *)

Inductive dwl_state_t :=
  | NOTRUNNING | WAITING_FOR_HEADERS | WAITING_FOR_BOUNDARY | WAITING_FOR_FIRST_DATA | WAITING_FOR_DATA | END_TRANSFER.

Inductive range_type_t := NONE_RANGE | SINGLE_RANGE | MULTIPART_RANGE.

(** [d_buf] holds the first [d_nbytes] bytes of the buffer; [None] is NULL. *)
Record dwlchunk := mk_dwlchunk {
  d_buf : option bytes;
  d_chunksize : nat;
  d_nbytes : nat;
}.

(** How the process fares: it runs, it has called [exit], or nothing is known of it any more, because it waits for
    ever, its behaviour is undefined, or the fuel of a copy was used up. *)
Inductive fate_t := Running | Exits | Lost.

(** The part of [struct hnd_priv] that copying chunks changes, with the outside world: the pipe to the chained
    handler and how often it was closed, and the number of times the source was read. [chunk] is the list of
    the chunks from the current one on. *)
Record work_t := mk_work {
  fdout : sink;
  closes : nat;
  seeks : nat;
  fate : fate_t;
  current : dwlchunk;
  chunk : list zckChunk;
  content_range_received : bool;
  error_in_parser : bool;
}.

Definition set_out (fdout' : sink) (p : work_t) : work_t :=
  mk_work fdout' (closes p) (seeks p) (fate p) (current p) (chunk p) (content_range_received p)
    (error_in_parser p).
Definition set_closes (closes' : nat) (p : work_t) : work_t :=
  mk_work (fdout p) closes' (seeks p) (fate p) (current p) (chunk p) (content_range_received p)
    (error_in_parser p).
Definition set_seeks (seeks' : nat) (p : work_t) : work_t :=
  mk_work (fdout p) (closes p) seeks' (fate p) (current p) (chunk p) (content_range_received p)
    (error_in_parser p).
Definition set_fate (fate' : fate_t) (p : work_t) : work_t :=
  mk_work (fdout p) (closes p) (seeks p) fate' (current p) (chunk p) (content_range_received p)
    (error_in_parser p).
Definition set_current (current' : dwlchunk) (p : work_t) : work_t :=
  mk_work (fdout p) (closes p) (seeks p) (fate p) current' (chunk p) (content_range_received p)
    (error_in_parser p).
Definition set_chunk (chunk' : list zckChunk) (p : work_t) : work_t :=
  mk_work (fdout p) (closes p) (seeks p) (fate p) (current p) chunk' (content_range_received p)
    (error_in_parser p).
Definition set_received (content_range_received' : bool) (p : work_t) : work_t :=
  mk_work (fdout p) (closes p) (seeks p) (fate p) (current p) (chunk p) content_range_received'
    (error_in_parser p).
Definition set_error (error_in_parser' : bool) (p : work_t) : work_t :=
  mk_work (fdout p) (closes p) (seeks p) (fate p) (current p) (chunk p) (content_range_received p)
    error_in_parser'.

(** The rest of [struct hnd_priv] that changes, with the bytes that can be read from the downloader and the
    requests sent to it. *)
Record hnd_priv := mk_priv {
  work : work_t;
  from_dwl : fd;
  requests : list range_request_t;
  dwlrunning : bool;
  range_type : range_type_t;
  boundary : string;
  dwlstate : dwl_state_t;
  answer : range_answer_t;
  reqid : Z;
  rangelen : Z;
  rangestart : Z;
  parser : option multipart_parser;
  totaldwlbytes : Z;
}.

Definition set_work (work' : work_t) (p : hnd_priv) : hnd_priv :=
  mk_priv work' (from_dwl p) (requests p) (dwlrunning p) (range_type p) (boundary p) (dwlstate p) (answer p)
    (reqid p) (rangelen p) (rangestart p) (parser p) (totaldwlbytes p).
Definition set_pipe (from_dwl' : fd) (p : hnd_priv) : hnd_priv :=
  mk_priv (work p) from_dwl' (requests p) (dwlrunning p) (range_type p) (boundary p) (dwlstate p) (answer p)
    (reqid p) (rangelen p) (rangestart p) (parser p) (totaldwlbytes p).
Definition set_dwlrunning (dwlrunning' : bool) (p : hnd_priv) : hnd_priv :=
  mk_priv (work p) (from_dwl p) (requests p) dwlrunning' (range_type p) (boundary p) (dwlstate p) (answer p)
    (reqid p) (rangelen p) (rangestart p) (parser p) (totaldwlbytes p).
Definition set_range_type (range_type' : range_type_t) (p : hnd_priv) : hnd_priv :=
  mk_priv (work p) (from_dwl p) (requests p) (dwlrunning p) range_type' (boundary p) (dwlstate p) (answer p)
    (reqid p) (rangelen p) (rangestart p) (parser p) (totaldwlbytes p).
Definition set_boundary (boundary' : string) (p : hnd_priv) : hnd_priv :=
  mk_priv (work p) (from_dwl p) (requests p) (dwlrunning p) (range_type p) boundary' (dwlstate p) (answer p)
    (reqid p) (rangelen p) (rangestart p) (parser p) (totaldwlbytes p).
Definition set_dwlstate (dwlstate' : dwl_state_t) (p : hnd_priv) : hnd_priv :=
  mk_priv (work p) (from_dwl p) (requests p) (dwlrunning p) (range_type p) (boundary p) dwlstate' (answer p)
    (reqid p) (rangelen p) (rangestart p) (parser p) (totaldwlbytes p).
Definition set_answer (answer' : range_answer_t) (p : hnd_priv) : hnd_priv :=
  mk_priv (work p) (from_dwl p) (requests p) (dwlrunning p) (range_type p) (boundary p) (dwlstate p) answer'
    (reqid p) (rangelen p) (rangestart p) (parser p) (totaldwlbytes p).
Definition set_span (rangelen' : Z) (rangestart' : Z) (p : hnd_priv) : hnd_priv :=
  mk_priv (work p) (from_dwl p) (requests p) (dwlrunning p) (range_type p) (boundary p) (dwlstate p) (answer p)
    (reqid p) rangelen' rangestart' (parser p) (totaldwlbytes p).
Definition set_parser (parser' : option multipart_parser) (p : hnd_priv) : hnd_priv :=
  mk_priv (work p) (from_dwl p) (requests p) (dwlrunning p) (range_type p) (boundary p) (dwlstate p) (answer p)
    (reqid p) (rangelen p) (rangestart p) parser' (totaldwlbytes p).
Definition set_total (totaldwlbytes' : Z) (p : hnd_priv) : hnd_priv :=
  mk_priv (work p) (from_dwl p) (requests p) (dwlrunning p) (range_type p) (boundary p) (dwlstate p) (answer p)
    (reqid p) (rangelen p) (rangestart p) (parser p) totaldwlbytes'.

(** What the handler finds outside: whether there is memory for so many bytes, what uninitialised arrays hold,
    the source from a position on at the n-th attempt to read it ([None] if seeking fails), random
    numbers, whether the n-th request can be written, what the downloader then sends, and the checksum
    of zlib. *)
Record delta_env := mk_delta_env {
  env_mem : nat -> bool;
  env_stack : list Z;
  env_heap : nat -> bytes;
  env_read_src : nat -> Z -> option fd;
  env_rand : nat -> Z;
  env_write_ok : nat -> bool;
  env_downloader : nat -> range_request_t -> fd;
  env_crc32 : bytes -> Z;
}.

Section Delta.
Context {C D X : Type} (hl : hash_lib C) (dl : decrypt_lib D) (zcfg : config (X := X)) (keys : option decryption_key).
Context (cfuel : nat) (env : delta_env).

(** ** Copying chunks *)

(** [ascii_to_hash] into an array on the stack; its result is not looked at. *)
Definition chunk_hash (sha : option string) : bytes := bytes_of (ascii_to_hash (env_stack env) sha).2.

(** The copy of a downloaded chunk, compressed with zstd, out of its buffer. *)
Definition mem_copy (buf : bytes) (len : nat) (hash : bytes) : swupdate_copy :=
  mk_copy [] (Some buf) len 0 0 3 true false COMPRESSED_ZSTD (Some hash) false None None AES_CBC.

Definition copy_from_mem (buf : bytes) (len : nat) (hash : bytes) (w : sink) : option (copy_result (W := sink)) :=
  copyfile hl dl copy_write cfuel zcfg keys (mem_copy buf len hash) w.

(** The copy of a chunk of the running system. *)
Definition src_copy (f : fd) (len : nat) (offset : Z) (hash : bytes) : swupdate_copy :=
  mk_copy f None len offset 0 3 true false COMPRESSED_FALSE (Some hash) false None None AES_CBC.

Definition copy_from_src (f : fd) (len : nat) (offset : Z) (hash : bytes) (w : sink) : option (copy_result (W := sink)) :=
  copyfile hl dl copy_write cfuel zcfg keys (src_copy f len offset hash) w.

(** [copy_existing_chunks] from the chunks [l] on: the result, the chunks left, the state. *)
Fixpoint copy_existing_chunks (l : list zckChunk) (offset : Z) (p : work_t) : bool * list zckChunk * work_t :=
  match l with
  | [] => (true, l, p)
  | c :: l' =>
      if negb (chunk_valid c) then (true, l, p)
      else
        let src := chunk_src c in
        if src_size src =? 0 then copy_existing_chunks l' offset p
        else
          match src_digest src with
          | None => (false, l, p)
          | Some sha =>
              let f := env_read_src env (seeks p) (src_start src) in
              let p := set_seeks (S (seeks p)) p in
              match f with
              | None => (false, l, p)
              | Some f =>
                  match copy_from_src f (Z.to_nat (src_size src)) offset (chunk_hash (Some sha)) (fdout p) with
                  | None => (false, l, set_fate Lost p)
                  | Some r =>
                      let p := set_out (r_out r) p in
                      if negb (r_ret r =? 0) then (false, l, p) else copy_existing_chunks l' (r_offs r) p
                  end
              end
          end
  end.

Definition fresh_chunk (size : nat) : dwlchunk := mk_dwlchunk (if env_mem env size then Some [] else None) size 0.

Definition drop_buf (p : work_t) : work_t :=
  set_current (mk_dwlchunk None (d_chunksize (current p)) (d_nbytes (current p))) p.

Definition comp_size (c : zckChunk) : nat := Z.to_nat (chunk_comp_size c).

(** The loop of [network_process_data], with the chunks from the current one on. *)
Fixpoint process_data (l : list zckChunk) (bufSrc : bytes) (p : work_t) : Z * work_t :=
  match bufSrc with
  | [] => (0, p)
  | _ =>
      let cur := current p in
      match l, d_buf cur with
      | c :: l', Some buf =>
          let to_be_filled := (d_chunksize cur - d_nbytes cur)%nat in
          let buf := buf ++ take to_be_filled bufSrc in
          let nbytes := (d_nbytes cur + length (take to_be_filled bufSrc))%nat in
          let bufSrc := drop to_be_filled bufSrc in
          let p := set_current (mk_dwlchunk (Some buf) (d_chunksize cur) nbytes) p in
          if (nbytes =? d_chunksize cur)%nat then
            match (if (d_chunksize cur =? 0)%nat then Some (0, fdout p)
                   else (fun r => (r_ret r, r_out r)) <$>
                     copy_from_mem buf (d_chunksize cur) (chunk_hash (chunk_digest c)) (fdout p)) with
            | None => (- EFAULT, set_fate Lost p)
            | Some (ret, out) =>
                let p := drop_buf (set_out out p) in
                if negb (ret =? 0) then (- EFAULT, set_error true p)
                else
                  let p := set_chunk l' p in
                  match l' with
                  | [] => (0, match bufSrc with [] => p | _ => set_closes (S (closes p)) p end)
                  | n :: _ =>
                      if env_mem env (comp_size n) then process_data l' bufSrc (set_current (fresh_chunk (comp_size n)) p)
                      else (- ENOMEM, set_error true p)
                  end
            end
          else (0, p)
      | _, _ => (- EFAULT, set_fate Lost p)
      end
  end.

(** ** The callbacks of the multipart parser *)

Definition alive (p : work_t) : bool := match fate p with Running => true | _ => false end.

Definition network_process_data (bs : bytes) (p : work_t) : Z * work_t :=
  if negb (alive p) || error_in_parser p then (- EFAULT, p) else process_data (chunk p) bs p.

Definition multipart_data_complete (p : work_t) : Z * work_t :=
  if negb (alive p) then (- EFAULT, p)
  else
    match chunk p with
    | [] => (- EFAULT, set_fate Lost p)
    | c :: _ => (if env_mem env (comp_size c) then 0 else - ENOMEM, set_current (fresh_chunk (comp_size c)) p)
    end.

Definition multipart_data_end (p : work_t) : Z * work_t :=
  if negb (alive p) then (- EFAULT, p)
  else
    let p := set_received true (drop_buf p) in
    let '(_, l, p) := copy_existing_chunks (chunk p) 0 p in
    if alive p then (0, set_chunk l p) else (- EFAULT, p).

Definition multipart_callbacks : multipart_parser_settings work_t :=
  mk_settings None None (Some network_process_data) None (Some multipart_data_complete) (Some multipart_data_end) None.

(** ** Requests *)

(** [prepare_range_request]; [id] is a random number. *)
Definition prepare_range_request (id : Z) (url range : string) : option range_request_t :=
  if RANGE_PAYLOAD_SIZE - 1 <? strlen range then None
  else if RANGE_PAYLOAD_SIZE - 2 <? strlen url + strlen range then None
  else
    Some (mk_request (u32 id) RANGE_GET (strlen url) (strlen range)
      (String.list_ascii_of_string url ++ NUL :: String.list_ascii_of_string range ++ [NUL])).

Definition lose (p : hnd_priv) : hnd_priv := set_work (set_fate Lost (work p)) p.

(** [trigger_download]: the result, and the state with what the downloader sends. *)
Definition trigger_download (url : string) (max_ranges : Z) (p : hnd_priv) : bool * hnd_priv :=
  let n := length (requests p) in
  let p := set_boundary "" p in
  match zchunk_get_missing_range (fun _ => env_mem env 32) (chunk (work p)) (i32 max_ranges) with
  | None => (false, p)
  | Some range =>
      match zchunk_get_range_char (2 * length (chunk (work p))) range with
      | None => (false, lose p)
      | Some http_range =>
          match prepare_range_request (env_rand env n) url http_range with
          | None => (false, p)
          | Some req =>
              (env_write_ok env n,
               mk_priv (work p) (from_dwl p ++ if env_write_ok env n then env_downloader env n req else []) (requests p ++ [req])
                 true NONE_RANGE (boundary p) (dwlstate p) (answer p) (q_id req) (rangelen p) (rangestart p) (parser p)
                 (totaldwlbytes p))
          end
      end
  end.

(** ** Answers *)

Definition dwl_cleanup (p : hnd_priv) : hnd_priv := set_parser None p.

(** The end of reading a package. *)
Inductive package := PkBad (f : fd) | PkHang | PkRead (bs : bytes) (f : fd).

(** The inner loop of [read_and_validate_package] with [nbytes] bytes still to come behind the bytes [buf]: every
    [read] is for a whole package, and the end of the pipe is not noticed. *)
Fixpoint read_package (f : fd) (buf : bytes) (nbytes : nat) : package :=
  match f with
  | [] => PkHang
  | RdIntr :: f | RdErr :: f => PkBad f
  | RdData b bs :: f =>
      let data := take ANSWER_SIZE (b :: bs) in
      let f' := rd_block (drop ANSWER_SIZE (b :: bs)) ++ f in
      if (length data <? nbytes)%nat then read_package f (buf ++ data) (nbytes - length data)
      else if (length data =? nbytes)%nat then PkRead (buf ++ data) f'
      else PkBad f'
  end.

(** The package after one with another id: [nbytes] is 0 now, so that whatever is read is too much. *)
Definition read_after_mismatch (f : fd) : package :=
  match f with
  | [] => PkHang
  | RdIntr :: f | RdErr :: f => PkBad f
  | RdData b bs :: f => PkBad (rd_block (drop ANSWER_SIZE (b :: bs)) ++ f)
  end.

Definition answer_data (a : range_answer_t) : bytes := take (Z.to_nat (a_len a)) (a_data a).

Definition read_and_validate_package (p : hnd_priv) : bool * hnd_priv :=
  match read_package (from_dwl p) [] ANSWER_SIZE with
  | PkHang => (false, lose p)
  | PkBad f => (false, set_pipe f p)
  | PkRead bs f =>
      let a := decode_answer bs in
      let p := set_answer a (set_pipe f p) in
      if negb (a_id a =? reqid p) then
        match read_after_mismatch f with
        | PkBad f => (false, set_pipe f p)
        | _ => (false, lose p)
        end
      else if a_type a =? RANGE_ERROR then (false, dwl_cleanup (set_dwlrunning false p))
      else if (a_type a =? RANGE_DATA) && (RANGE_PAYLOAD_SIZE <? a_len a) then (false, lose p)
      else if (a_type a =? RANGE_DATA) && negb (u32 (env_crc32 env (answer_data a)) =? a_crc a)
      then (false, set_work (set_fate Exits (work p)) p)
      else (true, set_total (u64 (totaldwlbytes p + a_len a)) p)
  end.

(** [sscanf] with [%ms]: the next word. *)
Definition scan_word (s : string) : option (string * string) :=
  let s := skip_space s in
  let w := str_span (fun c => negb (isspace c)) s in
  if String.eqb w "" then None else Some (w, str_drop (String.length w) s).

(** [strncasecmp (s, key, strlen (key)) == 0]. *)
Definition starts_nocase (key s : string) : bool := is_prefix (string_tolower key) (string_tolower s).

Definition MAX_BOUNDARY : Z := SWUPDATE_GENERAL_STRING_SIZE - 2.

(** [parse_headers], which always returns [true]; a range without its two numbers hands NULL to [strtoul]. *)
Definition parse_headers (p : hnd_priv) : hnd_priv :=
  if RANGE_PAYLOAD_SIZE <=? a_len (answer p) then lose p
  else
    match scan_word (cstring (answer_data (answer p))) with
    | None => p
    | Some (header, s) =>
        match scan_word s with
        | None => p
        | Some (value, s) =>
            match scan_word s with
            | None => p
            | Some (boundary_string, _) =>
                let p :=
                  if starts_nocase "content-type" header && starts_nocase "boundary" boundary_string then
                    match string_split boundary_string "=" with
                    | [_; b] => set_range_type MULTIPART_RANGE (set_boundary ("--" +:+ strlcpy b MAX_BOUNDARY) p)
                    | _ => p
                    end
                  else p in
                if starts_nocase "content-range" header && starts_nocase "bytes" value then
                  match string_split boundary_string "-" with
                  | a :: b :: _ =>
                      let start := strtoul a 10 in
                      set_span (u64 (strtoul b 10 - start)) start (set_range_type SINGLE_RANGE p)
                  | _ => lose (set_range_type SINGLE_RANGE p)
                  end
                else p
            end
        end
    end.

(** The same comparison on bytes. *)
Fixpoint bytes_nocase (key s : bytes) : bool :=
  match key, s with
  | [], _ => true
  | k :: key, c :: s => Ascii.eqb (tolower k) (tolower c) && bytes_nocase key s
  | _, [] => false
  end.

(** The first [i < n] where the boundary is found in the data. *)
Fixpoint find_boundary (b : bytes) (data : bytes) (n i : nat) : option nat :=
  match n with
  | O => None
  | S n => if bytes_nocase b data then Some i else find_boundary b (drop 1 data) n (S i)
  end.

Definition search_boundary_in_body (p : hnd_priv) : bool * hnd_priv :=
  match range_type p with
  | NONE_RANGE => (false, p)
  | SINGLE_RANGE => (true, p)
  | MULTIPART_RANGE =>
      let a := answer p in
      match find_boundary (String.list_ascii_of_string (boundary p)) (a_data a) (Z.to_nat (a_len a)) 0 with
      | None => (false, p)
      | Some i =>
          (true, set_answer (mk_answer (a_id a) (a_type a) (a_len a - Z.of_nat i) (a_crc a)
                   (put (a_data a) (drop i (answer_data a)))) p)
      end
  end.

(** [fill_buffers_list]; the parser's result is not looked at. *)
Definition fill_buffers_list (p : hnd_priv) : bool * hnd_priv :=
  if RANGE_PAYLOAD_SIZE <? a_len (answer p) then (false, lose p)
  else
    match parser p with
    | None => (false, lose p)
    | Some mp =>
        match range_type p with
        | SINGLE_RANGE =>
            let '(ret, w) := network_process_data (answer_data (answer p)) (work p) in (ret =? 0, set_work w p)
        | _ =>
            let '(_, mp, w) := multipart_parser_execute multipart_callbacks mp (work p) (answer_data (answer p)) in
            (true, set_parser (Some mp) (set_work w p))
        end
    end.

(** ** The transfer *)

(** The turns of the loop of [copy_network_chunks]: [Again] for the next turn, [Done] for the return. *)
Inductive net_turn := Again (p : hnd_priv) | Done (ok : bool) (p : hnd_priv).

Definition network_turn (url : string) (max_ranges : Z) (p : hnd_priv) : net_turn :=
  match dwlstate p with
  | NOTRUNNING =>
      let '(ok, p) := trigger_download url max_ranges p in
      if ok then Again (set_dwlstate WAITING_FOR_HEADERS p) else Done false p
  | WAITING_FOR_HEADERS =>
      let '(ok, p) := read_and_validate_package p in
      if ok then
        let t := a_type (answer p) in
        let p := if t =? RANGE_HEADERS then parse_headers p else p in
        Again (if t =? RANGE_DATA then set_dwlstate WAITING_FOR_BOUNDARY p else p)
      else Done false p
  | WAITING_FOR_BOUNDARY =>
      let '(ok, p) := search_boundary_in_body p in
      if ok then
        let b := String.list_ascii_of_string (boundary p) in
        match multipart_parser_init (env_mem env (65 + 2 * length b)) b (env_heap env (length b + 16)) with
        | None => Done false (lose p)
        | Some mp => Again (set_dwlstate WAITING_FOR_FIRST_DATA (set_parser (Some mp) p))
        end
      else Done false p
  | WAITING_FOR_FIRST_DATA =>
      let '(ret, w) :=
        match range_type p with
        | SINGLE_RANGE => multipart_data_complete (work p)
        | _ => (0, work p)
        end in
      let p := set_work w p in
      if negb (ret =? 0) then Done false p
      else
        let '(ok, p) := fill_buffers_list p in
        if ok then Again (set_dwlstate WAITING_FOR_DATA p) else Done false p
  | WAITING_FOR_DATA =>
      let '(ok, p) := read_and_validate_package p in
      if negb ok then Done false p
      else if a_type (answer p) =? RANGE_COMPLETED then Again (set_dwlstate END_TRANSFER p)
      else let '(ok, p) := fill_buffers_list p in if ok then Again p else Done false p
  | END_TRANSFER =>
      let p :=
        match range_type p with
        | SINGLE_RANGE => set_work (multipart_data_end (work p)).2 p
        | _ => p
        end in
      Done (negb (error_in_parser (work p))) (set_dwlstate NOTRUNNING (dwl_cleanup p))
  end.

(** The loop; [None] if the fuel is not enough. It ends when the process does. *)
Fixpoint network_loop (fuel : nat) (url : string) (max_ranges : Z) (p : hnd_priv) : option (bool * hnd_priv) :=
  match fuel with
  | O => None
  | S fuel =>
      match network_turn url max_ranges p with
      | Done ok p => Some (ok && alive (work p), p)
      | Again p => if alive (work p) then network_loop fuel url max_ranges p else Some (false, p)
      end
  end.

(** [copy_network_chunks] from the chunks [l] on: the result, the chunks left, the state. *)
Definition copy_network_chunks (fuel : nat) (url : string) (max_ranges : Z) (l : list zckChunk) (p : hnd_priv)
  : option (bool * list zckChunk * hnd_priv) :=
  let p := set_work (set_error false (set_chunk l (work p))) p in
  match network_loop fuel url max_ranges p with
  | None => None
  | Some (ok, p) => Some (ok, if (ok : bool) then chunk (work p) else l, p)
  end.

(** ** The loop of [install_delta] *)

Fixpoint delta_loop (rounds fuel : nat) (url : string) (max_ranges : Z) (iter : list zckChunk) (p : hnd_priv)
  : option (bool * hnd_priv) :=
  match iter with
  | [] => Some (true, p)
  | c :: _ =>
      match rounds with
      | O => None
      | S rounds =>
          match (if chunk_valid c
                 then let '(ok, iter, w) := copy_existing_chunks iter 0 (work p) in
                      Some (ok && alive w, iter, set_work w p)
                 else copy_network_chunks fuel url max_ranges iter p) with
          | None => None
          | Some (ok, iter, p) => if ok then delta_loop rounds fuel url max_ranges iter p else Some (false, p)
          end
      end
  end.

(** * Properties *)

(** ** What a verified image is *)

(** A digest as the library prints it: that of 32 bytes which are not all zero. *)
Definition printed (sha : option string) (h : bytes) : Prop :=
  sha = Some (hash_to_ascii (byte_of <$> h)) /\ length h = SHA256_HASH_LENGTH /\ valid_hash (Some h) = true.

Definition chunk_ok (c : zckChunk) : Prop :=
  (exists h, printed (chunk_digest c) h) /\ (chunk_valid c = true -> exists h, printed (src_digest (chunk_src c)) h).

Context `{!HashSpec hl} (zl : zlib X) (x0 : X) `{!ZlibSpec zl} (zstd_built : cfg_zstd zcfg = Some (Some x0, zl)).

(** What is still to come of the pipe to the chained handler when an update starts. *)
Variable plan0 : list wr_event.

(** [out] was written to the pipe, behind [w0]. *)
Definition piped (w0 : bytes) (s : sink) (out : bytes) : Prop :=
  written s = w0 ++ out /\ plan s `suffix_of` plan0.

(** What a copy of a chunk of the running system that failed, by a read or write error or with a wrong digest, has written to the
    pipe. *)
Definition failed_copy (c : zckChunk) (junk : bytes) : Prop :=
  chunk_valid c = true /\ exists n f offset w r,
    plan w `suffix_of` plan0 /\ env_read_src env n (src_start (chunk_src c)) = Some f /\
    copy_from_src f (Z.to_nat (src_size (chunk_src c))) offset (chunk_hash (src_digest (chunk_src c))) w = Some r /\
    r_ret r <> 0 /\ written (r_out r) = written w ++ junk.

(** The bytes of a chunk: those read from the running system, whose digest is the one the library gives, or those
    that zstd makes of downloaded bytes with the digest of the compressed chunk. *)
Inductive verified (c : zckChunk) : bytes -> Prop :=
  | verified_src data h :
      chunk_valid c = true -> printed (src_digest (chunk_src c)) h -> sha data = h -> verified c data
  | verified_net consumed left x' data h :
      printed (chunk_digest c) h -> sha (consumed ++ left) = h -> z_rep x0 x' consumed data -> verified c data
  | verified_empty : comp_size c = 0%nat \/ chunk_valid c = true /\ src_size (chunk_src c) = 0 -> verified c [].

(** From the chunks [l] to [l'] the bytes [out] were written: verified bytes for every chunk in order, and before those
    of a chunk of the running system possibly what is left of failed copies of it: between two ranges the result of a copy is
    ignored, and the chunk is copied again. *)
Inductive built : list zckChunk -> list zckChunk -> bytes -> Prop :=
  | built_nil l : built l l []
  | built_chunk c l l' data out : verified c data -> built l l' out -> built (c :: l) l' (data ++ out)
  | built_retry c l l' junk out : failed_copy c junk -> built (c :: l) l' out -> built (c :: l) l' (junk ++ out).

Lemma built_trans l1 l2 l3 o1 o2 : built l1 l2 o1 -> built l2 l3 o2 -> built l1 l3 (o1 ++ o2).
Proof. induction 1; intros H'; rewrite <- ?app_assoc; [done|by constructor; auto|by constructor; auto]. Qed.

Lemma bytes_of_byte_of (h : bytes) : bytes_of (byte_of <$> h) = h.
Proof.
  induction h as [|c h IH]; [done|]. unfold bytes_of in *. cbn. rewrite IH. f_equal.
  unfold ascii_of_Z, byte_of. by rewrite N2Z.id, Ascii.ascii_N_embedding.
Qed.

Lemma chunk_hash_printed sha h : printed sha h -> chunk_hash sha = h.
Proof.
  intros (-> & Hl & _). unfold chunk_hash. rewrite hash_ascii_roundtrip.
  - cbn. apply bytes_of_byte_of.
  - by rewrite length_fmap.
  - apply Forall_fmap, Forall_true. intros c. cbn. apply byte_of_range.
Qed.

Definition grows (w w' : sink) : Prop := written w `prefix_of` written w' /\ plan w' `suffix_of` plan w.

#[local] Instance grows_preorder : PreOrder grows.
Proof. split; [by intros w|]. intros w1 w2 w3 [H1 H2] [H3 H4]. by split; etrans. Qed.

Lemma copy_write_grows w b : grows w (copy_write w b).2.
Proof.
  unfold grows, copy_write. split; [|apply copy_write_loop_plan]. destruct (copy_write_loop_wrote (plan w) (written w) b) as [[_ ->]|[_ (n & _ & ->)]]; by eexists.
Qed.

(** ** Copies *)

(** A copy of a chunk of the running system, whether it succeeds or not. *)
Lemma copy_src_spec n f offset c w r :
  chunk_ok c -> chunk_valid c = true -> plan w `suffix_of` plan0 -> env_read_src env n (src_start (chunk_src c)) = Some f ->
  copy_from_src f (Z.to_nat (src_size (chunk_src c))) offset (chunk_hash (src_digest (chunk_src c))) w = Some r ->
  exists out, piped (written w) (r_out r) out /\ if r_ret r =? 0 then verified c out else failed_copy c out.
Proof.
  intros [_ Hc] Hv Hpl Hf E. destruct (Hc Hv) as (h & Hp). pose proof Hp as (_ & Hl & Hh).
  rewrite (chunk_hash_printed _ _ Hp) in E. pose proof E as Eg.
  apply (copyfile_output _ _ _ grows) in Eg as [[out Hout] Hsuf]; [|apply copy_write_grows]. exists out.
  split; [split; [done|by etrans]|].
  destruct (Z.eqb_spec (r_ret r) 0) as [Hr|Hr].
  - pose proof E as Es. apply copyfile_copies in Es; [|done..]. apply sent_written in Es. rewrite Es in Hout.
    apply app_inv_head in Hout as <-. eapply verified_src; [done|done|].
    by eapply copyfile_hash_plain in E.
  - split; [done|]. exists n, f, offset, w, r. by rewrite (chunk_hash_printed _ _ Hp).
Qed.

Lemma copy_mem_spec buf c w r :
  chunk_ok c -> plan w `suffix_of` plan0 ->
  copy_from_mem buf (length buf) (chunk_hash (chunk_digest c)) w = Some r -> r_ret r = 0 ->
  exists out, piped (written w) (r_out r) out /\ verified c out.
Proof.
  intros [(h & Hp) _] Hpl E Hr. pose proof Hp as (_ & Hl & Hh). rewrite (chunk_hash_printed _ _ Hp) in E.
  pose proof E as Eg. apply (copyfile_output _ _ _ grows) in Eg as [_ Hsuf]; [|apply copy_write_grows].
  destruct (copyfile_inflated hl dl copy_write cfuel zcfg keys (mem_copy buf (length buf) h) w r Zstd zl x0 h)
    as (consumed & left & rest & out & x' & _ & _ & H1 & H2 & H3); try done.
  - cbn. lia.
  - cbn. by rewrite zstd_built.
  - apply sent_written in H3. exists out. split; [split; [done|by etrans]|]. by eapply verified_net.
Qed.

Lemma piped_nil s : plan s `suffix_of` plan0 -> piped (written s) s [].
Proof. intros H. split; [by rewrite app_nil_r|done]. Qed.

Lemma piped_trans w0 s1 s2 o1 o2 : piped w0 s1 o1 -> piped (written s1) s2 o2 -> piped w0 s2 (o1 ++ o2).
Proof. intros [H1 _] [H2 H3]. split; [by rewrite H2, H1, app_assoc|done]. Qed.

Lemma copy_existing_spec l offset p ok l' p' :
  copy_existing_chunks l offset p = (ok, l', p') -> Forall chunk_ok l -> alive p' = true -> plan (fdout p) `suffix_of` plan0 ->
  alive p = true /\ current p' = current p /\ closes p' = closes p /\ error_in_parser p' = error_in_parser p /\
  chunk p' = chunk p /\ (exists a, l = a ++ l') /\
  exists out, piped (written (fdout p)) (fdout p') out /\ built l l' out.
Proof.
  revert offset p. induction l as [|c l IH]; intros offset p E Hok Ha Hpl; cbn [copy_existing_chunks] in E.
  { injection E as <- <- <-. split_and!; try done; [by exists []|]. exists []. split; [by apply piped_nil|constructor]. }
  assert (forall o q, (o, c :: l, q) = (ok, l', p') -> alive q = alive p -> current q = current p -> closes q = closes p ->
    error_in_parser q = error_in_parser p -> chunk q = chunk p -> forall out, piped (written (fdout p)) (fdout q) out ->
    built (c :: l) (c :: l) out ->
    alive p = true /\ current p' = current p /\ closes p' = closes p /\ error_in_parser p' = error_in_parser p /\
    chunk p' = chunk p /\ (exists a, c :: l = a ++ l') /\
    exists out, piped (written (fdout p)) (fdout p') out /\ built (c :: l) l' out) as Hstop.
  { intros o q [= <- <- <-] H1 H2 H3 H4 H5 out H6 H7. rewrite H1 in Ha. split_and!; try done; [by exists []|]. by exists out. }
  pose proof (built_nil (c :: l)) as Hn. pose proof (piped_nil _ Hpl) as Hw.
  destruct (chunk_valid c) eqn:Hv; cbn [negb] in E; [|by eapply Hstop].
  apply Forall_cons in Hok as [Hc Hok]. destruct (Z.eqb_spec (src_size (chunk_src c)) 0) as [Hz|Hz].
  { destruct (IH _ _ E Hok Ha Hpl) as (H1 & H2 & H3 & H4 & H5 & (a & ->) & out & H6 & H7). split_and!; try done; [by exists (c :: a)|].
    exists ([] ++ out). split; [done|]. constructor; [|done]. apply verified_empty. by right. }
  destruct (src_digest (chunk_src c)) as [sha|] eqn:Es; [|by eapply Hstop].
  destruct (env_read_src env (seeks p) (src_start (chunk_src c))) as [f|] eqn:Ef; [|by eapply Hstop].
  destruct (copy_from_src _ _ _ _ _) as [r|] eqn:Er; [|by injection E as <- <- <-].
  rewrite <- Es in Er. apply copy_src_spec with (n := seeks p) in Er as (out & H1 & H2); [|done..]. cbn [fdout set_seeks] in H1.
  destruct (r_ret r =? 0); cbn [negb] in E.
  - destruct (IH _ _ E Hok Ha (proj2 H1)) as (G1 & G2 & G3 & G4 & G5 & (a & ->) & out' & G6 & G7).
    split_and!; try done; [by exists (c :: a)|]. exists (out ++ out'). split; [|by constructor].
    by eapply piped_trans.
  - eapply Hstop; [exact E|done..|exact H1|]. rewrite <- (app_nil_r out). by apply built_retry.
Qed.

(** ** The callbacks *)

(** The buffer is that of the current chunk, and holds the bytes that are counted. *)
Definition buffer_ok (p : work_t) : Prop :=
  forall buf, d_buf (current p) = Some buf ->
  length buf = d_nbytes (current p) /\ (d_nbytes (current p) <= d_chunksize (current p))%nat /\
  exists c l, chunk p = c :: l /\ d_chunksize (current p) = comp_size c.

(** As long as all is well, the bytes written since [w0] are those of the chunks from [l0] to the current one. [b]: there
    is a buffer for data. *)
Definition written_since (l0 : list zckChunk) (w0 : bytes) (b : bool) (p : work_t) : Prop :=
  alive p = true -> error_in_parser p = false ->
  (b = true -> buffer_ok p) /\ (exists a, l0 = a ++ chunk p) /\
  exists out, piped w0 (fdout p) out /\ built l0 (chunk p) out.

Lemma written_since_dead l0 w0 b p : alive p = false -> written_since l0 w0 b p.
Proof. intros H H'. congruence. Qed.

Lemma written_since_error l0 w0 b p : error_in_parser p = true -> written_since l0 w0 b p.
Proof. intros H _ H'. congruence. Qed.

Lemma written_since_weaken l0 w0 b p : written_since l0 w0 b p -> written_since l0 w0 false p.
Proof. intros H Ha He. by destruct (H Ha He) as (_ & ?). Qed.

Lemma fresh_buffer_ok n p : (exists l, chunk p = n :: l) -> buffer_ok (set_current (fresh_chunk (comp_size n)) p).
Proof.
  intros [l Hl] buf. cbn. destruct (env_mem env (comp_size n)); [|done]. intros [= <-]. cbn. split_and!; [done|lia|by eexists _, _].
Qed.

Lemma process_data_spec l0 w0 l bs p :
  Forall chunk_ok l0 -> chunk p = l -> alive p = true -> error_in_parser p = false ->
  written_since l0 w0 true p -> written_since l0 w0 true (process_data l bs p).2.
Proof.
  intros Hok. revert bs p. induction l as [|c l IH]; intros bs p Hl Ha He H; cbn [process_data];
    (destruct bs as [|b bs]; [done|]); [by apply written_since_dead|].
  destruct (d_buf (current p)) as [buf|] eqn:Eb; [|by apply written_since_dead].
  destruct (H Ha He) as (Hb & (a & El) & out & Hout & Hbuilt).
  destruct (Hb eq_refl buf Eb) as (Hlen & Hle & c' & l' & Hc & Hsz).
  rewrite Hl in Hc. injection Hc as <- <-. rewrite Hl in El, Hbuilt.
  set (n := (d_chunksize (current p) - d_nbytes (current p))%nat). set (got := take n (b :: bs)). set (rest := drop n (b :: bs)).
  assert (length (buf ++ got) = (d_nbytes (current p) + length got)%nat) as Hg by (rewrite length_app; lia).
  assert (length got <= n)%nat as Hn by (unfold got; rewrite length_take; lia).
  assert (chunk_ok c) as Hcok by (rewrite El, Forall_app in Hok; by destruct Hok as [_ [? _]%Forall_cons]).
  destruct (Nat.eqb_spec (d_nbytes (current p) + length got) (d_chunksize (current p))) as [Heq|Hne].
  2: { intros _ _. split_and!; [|exists a; by cbn; rewrite Hl|exists out; split; [done|by cbn; rewrite Hl]].
    intros _ buf' [= <-]. cbn. split_and!; [done|unfold n in Hn; lia|exists c, l; by cbn]. }
  match goal with |- written_since _ _ _ (match ?e with Some _ => _ | None => _ end).2 => destruct e as [[ret o]|] eqn:Ecp end;
    [|by apply written_since_dead].
  destruct (Z.eqb_spec ret 0) as [->|Hret]; cbn [negb]; [|by apply written_since_error].
  assert (exists data, piped (written (fdout p)) o data /\ verified c data) as (data & Hd & Hv).
  { destruct (Nat.eqb_spec (d_chunksize (current p)) 0) as [Hz|Hz].
    - injection Ecp as <-. exists []. split; [by apply piped_nil, (proj2 Hout)|]. apply verified_empty. left. congruence.
    - apply fmap_Some in Ecp as (r & Er & [= Hr ->]). rewrite <- Heq, <- Hg in Er. eapply copy_mem_spec in Er; [done|done|exact (proj2 Hout)|done]. }
  assert (exists out', piped w0 o out' /\ built l0 l out') as (out' & Ho & Hb').
  { exists (out ++ data). split; [by eapply piped_trans|]. eapply built_trans; [exact Hbuilt|].
    rewrite <- (app_nil_r data). by constructor; [|constructor]. }
  destruct l as [|n' l'].
  - cbn. destruct rest; intros _ _; (split_and!; [by intros _ ?|exists (a ++ [c]); by rewrite <- app_assoc|by exists out']).
  - destruct (env_mem env (comp_size n')); [|by apply written_since_error].
    apply IH; [done|done|done|]. intros _ _. split_and!; [|exists (a ++ [c]); by cbn; rewrite <- app_assoc|by exists out'].
    intros _. apply fresh_buffer_ok. by exists l'.
Qed.

Lemma network_data_keeps l0 w0 bs p :
  Forall chunk_ok l0 -> written_since l0 w0 true p -> written_since l0 w0 true (network_process_data bs p).2.
Proof.
  intros Hok H. unfold network_process_data. destruct (alive p) eqn:Ha; [|done]. destruct (error_in_parser p) eqn:He; [done|].
  by apply process_data_spec.
Qed.

Lemma data_complete_keeps l0 w0 b p : written_since l0 w0 b p -> written_since l0 w0 true (multipart_data_complete p).2.
Proof.
  intros H. unfold multipart_data_complete. destruct (alive p) eqn:Ha; [|by apply written_since_dead]. cbn [negb].
  destruct (chunk p) as [|c l] eqn:El; [by apply written_since_dead|]. intros _ He. cbn in He.
  destruct (H Ha He) as (_ & H2 & H3). split_and!; [|done|done]. intros _. apply fresh_buffer_ok. by exists l.
Qed.

Lemma copy_existing_error l offset p :
  error_in_parser (copy_existing_chunks l offset p).2 = error_in_parser p.
Proof.
  revert offset p. induction l as [|c l IH]; intros offset p; cbn [copy_existing_chunks]; [done|].
  repeat case_match; try done; rewrite IH; done.
Qed.

Lemma data_end_keeps l0 w0 b p :
  Forall chunk_ok l0 -> written_since l0 w0 b p -> written_since l0 w0 true (multipart_data_end p).2.
Proof.
  intros Hok H. unfold multipart_data_end. destruct (alive p) eqn:Ha; [|by apply written_since_dead]. cbn [negb].
  destruct (copy_existing_chunks _ _ _) as [[ok l] p1] eqn:E.
  destruct (alive p1) eqn:Ha1; [|by apply written_since_dead]. intros _ He. cbn in He.
  assert (error_in_parser p = false -> written_since l0 w0 true (set_chunk l p1)) as Hgo.
  { intros He0. destruct (H Ha He0) as (_ & (a & El) & out & H2 & H3). cbn in E. intros _ _.
    apply copy_existing_spec in E as (_ & G2 & _ & _ & _ & (a' & G3) & out' & G5 & G6); [| |done|exact (proj2 H2)].
    2: { rewrite El, Forall_app in Hok. apply Hok. }
    split_and!; [intros _ buf; cbn; by rewrite G2|exists (a ++ a'); cbn; rewrite <- app_assoc; congruence|].
    exists (out ++ out'). cbn. split; [by eapply piped_trans|]. by eapply built_trans. }
  destruct (error_in_parser p) eqn:He0; [|by apply Hgo].
  exfalso. pose proof (copy_existing_error (chunk p) 0 (set_received true (drop_buf p))) as Hf.
  cbn in E, Hf. rewrite E in Hf. cbn in Hf. congruence.
Qed.

Lemma callbacks_keep l0 w0 : Forall chunk_ok l0 -> keeping multipart_callbacks (written_since l0 w0).
Proof.
  intros Hok. split; unfold keeps_data, leads; cbn [multipart_callbacks on_header_field on_header_value on_part_data
    on_part_data_begin on_headers_complete on_part_data_end on_body_end]; [tauto|tauto| |tauto| | |tauto].
  - intros bs u. by apply network_data_keeps.
  - intros u H. pose proof (data_complete_keeps l0 w0 false u H). case_if; [done|by eapply written_since_weaken].
  - intros u H. pose proof (data_end_keeps l0 w0 true u Hok H). case_if; [by eapply written_since_weaken|done].
Qed.

(** ** The transfer *)

(** Only the callbacks touch the work. *)
Lemma read_package_work p : alive (work (read_and_validate_package p).2) = true -> work (read_and_validate_package p).2 = work p.
Proof. unfold read_and_validate_package. repeat case_match; done. Qed.

Lemma parse_headers_work p : alive (work (parse_headers p)) = true -> work (parse_headers p) = work p.
Proof. unfold parse_headers. repeat case_match; done. Qed.

Lemma read_package_frame p q :
  read_and_validate_package p = (true, q) -> work q = work p /\ dwlstate q = dwlstate p /\ range_type q = range_type p /\ parser q = parser p.
Proof. unfold read_and_validate_package. repeat case_match; intros ?; simplify_eq; done. Qed.

Lemma parse_headers_state p : dwlstate (parse_headers p) = dwlstate p.
Proof. unfold parse_headers. repeat case_match; done. Qed.

Lemma fill_buffers_state p : dwlstate (fill_buffers_list p).2 = dwlstate p.
Proof. unfold fill_buffers_list. repeat case_match; done. Qed.

Lemma set_dwlstate_id p s : dwlstate p = s -> set_dwlstate s p = p.
Proof. intros <-. by destruct p. Qed.

(** In which states of the transfer there is a buffer for data. *)
Definition expects_data (p : hnd_priv) : bool :=
  match dwlstate p with
  | WAITING_FOR_DATA =>
      match range_type p, parser p with
      | SINGLE_RANGE, _ => true
      | _, Some mp => in_data (pstate mp)
      | _, None => false
      end
  | _ => false
  end.

Definition transfer_ok (l0 : list zckChunk) (w0 : bytes) (p : hnd_priv) : Prop :=
  written_since l0 w0 (expects_data p) (work p) /\
  (dwlstate p = WAITING_FOR_FIRST_DATA -> forall mp, parser p = Some mp -> pstate mp = s_start).

(** The data is handed on in the right state. *)
Lemma fill_buffers_keeps l0 w0 p :
  Forall chunk_ok l0 ->
  written_since l0 w0 (match range_type p, parser p with
    | SINGLE_RANGE, _ => true | _, Some mp => in_data (pstate mp) | _, None => false end) (work p) ->
  transfer_ok l0 w0 (set_dwlstate WAITING_FOR_DATA (fill_buffers_list p).2).
Proof.
  intros Hok H. split; [|done]. unfold fill_buffers_list.
  destruct (RANGE_PAYLOAD_SIZE <? a_len (answer p)); [by apply written_since_dead|].
  destruct (parser p) as [mp|]; [|by apply written_since_dead].
  pose proof (execute_keeps multipart_callbacks _ (callbacks_keep l0 w0 Hok) mp (work p) (answer_data (answer p))) as H2.
  unfold expects_data. destruct (range_type p) eqn:Et.
  2: { pose proof (network_data_keeps l0 w0 (answer_data (answer p)) (work p) Hok H) as H1.
    destruct (network_process_data _ _) as [ret w]. cbn. by rewrite Et. }
  all: destruct (multipart_parser_execute _ _ _ _) as [[n mp'] w']; cbn; rewrite Et; by apply H2.
Qed.

Lemma network_turn_keeps url max l0 w0 p :
  Forall chunk_ok l0 -> transfer_ok l0 w0 p -> 
  match network_turn url max p with
  | Again q => transfer_ok l0 w0 q
  | Done _ q => written_since l0 w0 false (work q)
  end.
Proof.
  intros Hok [H Hst]. pose proof (written_since_weaken _ _ _ _ H) as Hw.
  assert (forall b q, expects_data p = b -> (alive (work q) = true -> work q = work p) -> written_since l0 w0 b (work q)) as Hsame.
  { intros b q Hb Hq. destruct (alive (work q)) eqn:Ha; [rewrite Hq by done; by rewrite <- Hb|by apply written_since_dead]. }
  assert (forall q, (alive (work q) = true -> work q = work p) -> written_since l0 w0 false (work q)) as Hsame'.
  { intros q Hq. destruct (alive (work q)) eqn:Ha; [by rewrite Hq|by apply written_since_dead]. }
  unfold network_turn. destruct (dwlstate p) eqn:Hd.
  - destruct (trigger_download url max p) as [ok q] eqn:E.
    assert (alive (work q) = true -> work q = work p) as Hq.
    { unfold trigger_download in E. repeat case_match; simplify_eq; done. }
    destruct ok; [|by apply Hsame']. split; [by apply Hsame'|done].
  - pose proof (read_package_work p) as Hr. destruct (read_and_validate_package p) as [ok q] eqn:E. cbn in Hr.
    destruct ok; [|by apply Hsame']. apply read_package_frame in E as (Hq & Hqd & _).
    set (q' := if a_type (answer q) =? RANGE_HEADERS then parse_headers q else q).
    assert (dwlstate q' = WAITING_FOR_HEADERS) as Hd'.
    { unfold q'. case_match; [rewrite parse_headers_state|]; congruence. }
    assert (alive (work q') = true -> work q' = work p) as Hw'.
    { unfold q'. case_match; [|done]. intros Ha. by rewrite parse_headers_work. }
    assert (transfer_ok l0 w0 q') as Ht.
    { split; [|by rewrite Hd']. unfold expects_data. rewrite Hd'. by apply Hsame'. }
    case_match; [|done]. split; [by apply Hsame'|done].
  - destruct (search_boundary_in_body p) as [ok q] eqn:E.
    assert (work q = work p) as Hq.
    { unfold search_boundary_in_body in E. repeat case_match; simplify_eq; done. }
    destruct ok; [|by apply Hsame']. destruct (env_mem _ _); cbn; [|by apply written_since_dead].
    split; [by apply Hsame'|]. cbn. by intros _ mp [= <-].
  - destruct (match range_type p with SINGLE_RANGE => _ | _ => _ end) as [ret w] eqn:E.
    assert (written_since l0 w0 (match range_type p, parser p with
      | SINGLE_RANGE, _ => true | _, Some mp => in_data (pstate mp) | _, None => false end) w) as Hw'.
    { pose proof (data_complete_keeps l0 w0 _ (work p) H) as Hc.
      destruct (range_type p); [|by rewrite E in Hc|]; injection E as <- <-;
        (destruct (parser p) as [mp|]; [by rewrite (Hst eq_refl mp eq_refl)|done]). }
    destruct (negb (ret =? 0)); [by eapply written_since_weaken|].
    pose proof (fill_buffers_keeps l0 w0 (set_work w p) Hok Hw') as Hf.
    destruct (fill_buffers_list _) as [ok q]. destruct ok; [done|]. cbn in Hf. destruct Hf as [Hf _]. by eapply written_since_weaken.
  - pose proof (read_package_work p) as Hr. destruct (read_and_validate_package p) as [ok q] eqn:E. cbn in Hr.
    destruct ok; cbn [negb]; [|by apply Hsame']. apply read_package_frame in E as (Hq & Hqd & Hqr & Hqp).
    destruct (a_type (answer q) =? RANGE_COMPLETED); [split; [by apply Hsame'|done]|].
    assert (transfer_ok l0 w0 (set_dwlstate WAITING_FOR_DATA (fill_buffers_list q).2)) as Hf.
    { apply fill_buffers_keeps; [done|]. rewrite Hq, Hqr, Hqp. unfold expects_data in H. by rewrite Hd in H. }
    pose proof (fill_buffers_state q) as Hs. destruct (fill_buffers_list q) as [ok q']. cbn in Hs, Hf.
    rewrite set_dwlstate_id in Hf by congruence. destruct ok; [done|]. destruct Hf as [Hf _]. by eapply written_since_weaken.
  - destruct (range_type p); [done| |done]. eapply written_since_weaken. by eapply data_end_keeps.
Qed.

Lemma network_loop_keeps fuel url max l0 w0 p ok p' :
  Forall chunk_ok l0 -> transfer_ok l0 w0 p -> network_loop fuel url max p = Some (ok, p') ->
  written_since l0 w0 false (work p').
Proof.
  intros Hok. revert p. induction fuel as [|fuel IH]; intros p H E; [done|]. cbn [network_loop] in E.
  pose proof (network_turn_keeps url max l0 w0 p Hok H) as Ht. destruct (network_turn url max p) as [q|o q]; cbn in Ht.
  - destruct (alive (work q)); [by eapply IH|]. injection E as <- <-. destruct Ht as [Ht _]. by eapply written_since_weaken.
  - by injection E as <- <-.
Qed.

(** A transfer that succeeds ends without an error in the parser. *)
Lemma network_loop_clean fuel url max p p' :
  network_loop fuel url max p = Some (true, p') ->
  alive (work p') = true /\ error_in_parser (work p') = false /\ dwlstate p' = NOTRUNNING.
Proof.
  revert p. induction fuel as [|fuel IH]; intros p E; [done|]. cbn [network_loop] in E.
  destruct (network_turn url max p) as [q|o q] eqn:Et.
  - destruct (alive (work q)); [by eapply IH|done].
  - injection E as Eo <-. apply andb_true_iff in Eo as [-> Ha].
    unfold network_turn in Et. repeat case_match; simplify_eq; (split_and!; [done|by apply negb_true_iff|done]).
Qed.

Lemma copy_network_spec fuel url max l p l' p' :
  Forall chunk_ok l -> dwlstate p = NOTRUNNING -> plan (fdout (work p)) `suffix_of` plan0 -> copy_network_chunks fuel url max l p = Some (true, l', p') ->
  dwlstate p' = NOTRUNNING /\ (exists a, l = a ++ l') /\ alive (work p') = true /\
  exists out, piped (written (fdout (work p))) (fdout (work p')) out /\ built l l' out.
Proof.
  intros Hok Hd Hpl E. unfold copy_network_chunks in E.
  set (p0 := set_work (set_error false (set_chunk l (work p))) p) in E.
  destruct (network_loop fuel url max p0) as [[ok q]|] eqn:El; [|done]. injection E as -> <- <-.
  pose proof (network_loop_clean _ _ _ _ _ El) as (Ha & He & Hs).
  apply (network_loop_keeps _ _ _ l (written (fdout (work p)))) in El; [|done|].
  - destruct (El Ha He) as (_ & H1 & H2). done.
  - split; [|cbn; congruence]. unfold expects_data. cbn. rewrite Hd. intros _ _.
    split_and!; [done|by exists []|]. exists []. split; [by apply piped_nil|constructor].
Qed.

Lemma delta_loop_built rounds fuel url max iter p p' :
  Forall chunk_ok iter -> dwlstate p = NOTRUNNING -> plan (fdout (work p)) `suffix_of` plan0 ->
  delta_loop rounds fuel url max iter p = Some (true, p') ->
  exists out, piped (written (fdout (work p))) (fdout (work p')) out /\ built iter [] out.
Proof.
  revert iter p. induction rounds as [|rounds IH]; intros iter p Hok Hd Hpl E; destruct iter as [|c iter]; cbn [delta_loop] in E; try done.
  1-2: injection E as <-; exists []; split; [by apply piped_nil|constructor].
  assert (forall l' q out, Some (true, l', q) = Some (true, l', q) -> (exists a, c :: iter = a ++ l') -> dwlstate q = NOTRUNNING ->
    piped (written (fdout (work p))) (fdout (work q)) out -> built (c :: iter) l' out ->
    delta_loop rounds fuel url max l' q = Some (true, p') ->
    exists out, piped (written (fdout (work p))) (fdout (work p')) out /\ built (c :: iter) [] out) as Hgo.
  { intros l' q out _ [a Ea] Hq H1 H2 E'. destruct (IH l' q) as (out' & H3 & H4); [|done|exact (proj2 H1)|done|].
    - rewrite Ea in Hok. by apply Forall_app in Hok as [_ ?].
    - exists (out ++ out'). split; [by eapply piped_trans|by eapply built_trans]. }
  destruct (chunk_valid c).
  - destruct (copy_existing_chunks (c :: iter) 0 (work p)) as [[ok l'] w] eqn:Ec.
    destruct (ok && alive w) eqn:Ea; [|done]. apply andb_true_iff in Ea as [-> Ha].
    apply copy_existing_spec in Ec as (_ & _ & _ & _ & _ & H1 & out & H2 & H3); [|done|done|done].
    by apply (Hgo l' (set_work w p) out).
  - destruct (copy_network_chunks fuel url max (c :: iter) p) as [[[ok l'] q]|] eqn:Ec; [|done].
    destruct ok; [|done]. apply copy_network_spec in Ec as (H0 & H1 & _ & out & H2 & H3); [|done|done|done].
    by apply (Hgo l' q out).
Qed.

(** Whatever a server and the downloader send, an image put together by a delta update without error consists of verified
    chunks only: for every chunk of the new image, in order, the chained handler got bytes of the running
    system whose digest is that of the chunk, or what zstd made of downloaded bytes with the digest of
    the compressed chunk. The only other bytes are those that a failed copy of a chunk from the running system has
    left before the copy was repeated. *)
Theorem delta_image_verified rounds fuel url max_ranges chunks p p' :
  Forall chunk_ok chunks -> dwlstate p = NOTRUNNING -> plan (fdout (work p)) = plan0 ->
  delta_loop rounds fuel url max_ranges chunks p = Some (true, p') ->
  exists out, written (fdout (work p')) = written (fdout (work p)) ++ out /\ built chunks [] out.
Proof.
  intros H1 H2 H3 E. destruct (delta_loop_built _ _ _ _ _ _ _ H1 H2 ltac:(by rewrite H3) E) as (out & [H4 _] & H5). by exists out.
Qed.

(** Without failed copies there is nothing else. *)
Lemma built_clean l l' out :
  (forall c junk, c ∈ l -> ~ failed_copy c junk) -> built l l' out ->
  exists a pieces, l = a ++ l' /\ Forall2 verified a pieces /\ out = concat pieces.
Proof.
  intros Hf H. induction H as [l|c l l' data out Hv _ IH|c l l' junk out Hj _ _]; [by exists [], []| |].
  - destruct IH as (a & ps & -> & H1 & ->); [intros c' junk Hc; apply Hf; by right|].
    exists (c :: a), (data :: ps). split_and!; [done|by constructor|done].
  - exfalso. by apply (Hf c junk); [left|].
Qed.

(** The chunks that were found in the running system can be read, and are still what they were: their bytes have the digest. *)
Definition intact (l : list zckChunk) : Prop :=
  forall c, c ∈ l -> chunk_valid c = true ->
  (Z.to_nat (src_size (chunk_src c)) < cfuel)%nat /\
  forall n f, env_read_src env n (src_start (chunk_src c)) = Some f ->
    healthy f /\ forall h, printed (src_digest (chunk_src c)) h -> sha (take (Z.to_nat (src_size (chunk_src c))) (content f)) = h.

(** With a chained handler that takes everything, no copy of such a chunk fails. *)
Lemma intact_copies l c junk : hash_total hl -> plan0 = [] -> Forall chunk_ok l -> intact l -> c ∈ l -> ~ failed_copy c junk.
Proof.
  intros Ht Hp Hok Hi Hc (Hv & n & f & offset & w & r & Hpl & Hf & Hr & Hne & _). apply Hne.
  destruct (proj1 (Forall_forall _ _) Hok c Hc) as [_ Hd]. destruct (Hd Hv) as (h & Hh).
  destruct (Hi c Hc Hv) as [Hfuel Hsrc]. destruct (Hsrc n f Hf) as [Hhe Hsha]. rewrite (chunk_hash_printed _ _ Hh) in Hr.
  rewrite Hp in Hpl. apply suffix_nil_inv in Hpl.
  destruct (plain_copy_result hl dl copy_write (fun w _ => plan w = []) cfuel zcfg keys
    (src_copy f (Z.to_nat (src_size (chunk_src c))) offset h) w) as (s' & w' & prog & _ & _ & E); try done.
  - intros w1 b m Hw. unfold copy_write. rewrite Hw. destruct b; by split_and!.
  - intros h' [= <-] _. symmetry. by apply Hsha.
  - unfold copy_from_src in Hr. rewrite E in Hr. destruct (fill_buffer_ _ _ _ _ _ _) as [[ret fs] f']. by injection Hr as <-.
Qed.
End Delta.

(** ** Examples *)

Definition printed_digest (bs : bytes) : option string := Some (hash_to_ascii (byte_of <$> toy_sha bs)).

Definition hello : bytes := String.list_ascii_of_string "hello".
Definition world : bytes := String.list_ascii_of_string "world!".

(** An image of two chunks: the first one is on the device, at position 3, the second one is missing. *)
Definition two_chunks : list zckChunk :=
  [mk_chunk true 90 10 5 (printed_digest hello) (printed_digest hello) (mk_src 3 5 (printed_digest hello));
   mk_chunk false 100 6 6 (printed_digest world) (printed_digest world) no_src].

Definition pad_data (bs : bytes) : bytes := bs ++ replicate (Z.to_nat RANGE_PAYLOAD_SIZE - length bs) NUL.

Definition package_of (id type : Z) (bs : bytes) : fd :=
  rd_block (encode_answer (mk_answer id type (Z.of_nat (length bs)) 0 (pad_data bs))).

(** A downloader whose server sends [body] for a single range. *)
Definition single_answer (head body : bytes) (req : range_request_t) : fd :=
  package_of (q_id req) RANGE_HEADERS head ++ package_of (q_id req) RANGE_DATA body ++ package_of (q_id req) RANGE_COMPLETED [].

Definition range_header : bytes := String.list_ascii_of_string "Content-Range: bytes 100-105/106".

Definition toy_env (dwl : nat -> range_request_t -> fd) : delta_env :=
  mk_delta_env (fun _ => true) (replicate 32 0) (fun n => replicate n NUL)
    (fun _ s => Some (rd_block (drop (Z.to_nat s) (String.list_ascii_of_string "---hello---")))) (fun n => Z.of_nat n + 7) (fun _ => true)
    dwl (fun _ => 0).

Definition idle_work (l : list zckChunk) : work_t :=
  mk_work (mk_sink [] []) 0 0 Running (mk_dwlchunk None 0 0) l false false.

Definition idle_priv : hnd_priv :=
  mk_priv (idle_work []) [] [] false NONE_RANGE "" NOTRUNNING (mk_answer 0 0 0 0 []) 0 0 0 None 0.

Abbreviation toy_delta dwl chunks :=
  (delta_loop toy_hash_lib toy_stream toy_zstd_config toy_keys 20 (toy_env dwl) 5 20 "http://a" 10 chunks idle_priv).

Definition seen (r : option (bool * hnd_priv)) : option (bool * string * fate_t) :=
  (fun r => (r.1, String.string_of_list_ascii (written (fdout (work r.2))), fate (work r.2))) <$> r.

Example two_chunks_installed : seen (toy_delta (fun _ => single_answer range_header world) two_chunks) = Some (true, "helloworld!", Running).
Proof. vm_compute. reflexivity. Qed.

Definition single_world : nat -> range_request_t -> fd := fun _ => single_answer range_header world.

Definition two_chunks_end : hnd_priv := default idle_priv (snd <$> toy_delta single_world two_chunks).

Lemma delta_image_verified_witness :
  exists out, written (fdout (work two_chunks_end)) = [] ++ out /\
    built toy_hash_lib toy_stream toy_zstd_config toy_keys 20 (toy_env single_world) toy_zlib tt [] two_chunks [] out.
Proof.
  assert (forall bs, valid_hash (Some (toy_sha bs)) = true -> printed (printed_digest bs) (toy_sha bs)) as Hp.
  { intros bs Hv. split; [done|]. split; [apply length_resize|done]. }
  assert (fst <$> toy_delta single_world two_chunks = Some true) as Hr by (vm_compute; reflexivity).
  destruct (toy_delta single_world two_chunks) as [[ok p']|] eqn:E; [|discriminate Hr].
  injection Hr as ->.
  unfold two_chunks_end. rewrite E.
  destruct (delta_image_verified toy_hash_lib toy_stream toy_zstd_config toy_keys 20 (toy_env single_world) toy_zlib tt eq_refl []
    5 20 "http://a" 10 two_chunks idle_priv p') as (out & H3 & H4); [|reflexivity|reflexivity|exact E|exists out; split; [exact H3|exact H4]].
  assert (valid_hash (Some (toy_sha hello)) = true) as H1 by (vm_compute; reflexivity).
  assert (valid_hash (Some (toy_sha world)) = true) as H2 by (vm_compute; reflexivity).
  apply Forall_cons. split; [|apply Forall_singleton]; split.
  - exists (toy_sha hello). exact (Hp _ H1).
  - intros _. exists (toy_sha hello). exact (Hp _ H1).
  - exists (toy_sha world). exact (Hp _ H2).
  - intros H. discriminate H.
Defined.

(** What the handler does not survive: an answer to an earlier request in the pipe, although it says that it
    skips such answers; ... *)
Theorem stale_answer_fails :
  seen (toy_delta (fun _ req => package_of 3 RANGE_DATA world ++ single_answer range_header world req) two_chunks) =
  Some (false, "hello", Running).
Proof. vm_compute. reflexivity. Qed.

(** ... the end of the downloader, which is read for ever; ... *)
Theorem dead_downloader_hangs : seen (toy_delta (fun _ _ => []) two_chunks) = Some (false, "hello", Lost).
Proof. vm_compute. reflexivity. Qed.

(** ... a package that arrives in two reads with the next one already behind it; ... *)
Theorem split_package_fails :
  let joined req := encode_answer (mk_answer (q_id req) RANGE_HEADERS 32 0 (pad_data range_header)) ++
    encode_answer (mk_answer (q_id req) RANGE_DATA 6 0 (pad_data world)) in
  seen (toy_delta (fun _ req => rd_block (take 100 (joined req)) ++ rd_block (drop 100 (joined req)) ++
    package_of (q_id req) RANGE_COMPLETED []) two_chunks) = Some (false, "hello", Running).
Proof. vm_compute. reflexivity. Qed.

(** ... an answer without a range, as a server gives it to a request it cannot satisfy, which is a null pointer. *)
Theorem unsatisfied_range_crashes :
  seen (toy_delta (fun _ => single_answer (String.list_ascii_of_string "Content-Range: bytes */106") []) two_chunks) =
  Some (false, "hello", Lost).
Proof. vm_compute. reflexivity. Qed.

(** A digest of another length than 32 bytes is not stored; with zeroes on the stack any data is taken for the
    chunk. *)
Theorem short_digest_unverified :
  seen (toy_delta (fun _ => single_answer range_header (String.list_ascii_of_string "wrong!"))
    [mk_chunk false 100 6 6 (Some "00112233445566778899aabbccddeeff") None no_src]) = Some (true, "wrong!", Running).
Proof. vm_compute. reflexivity. Qed.

(** Data behind the last chunk closes the pipe to the chained handler, which is closed again at the end. *)
Theorem extra_data_closes :
  (fun r => (r.1, closes (work r.2))) <$>
  toy_delta (fun _ => single_answer range_header (world ++ world)) two_chunks = Some (true, 1%nat).
Proof. vm_compute. reflexivity. Qed.

(** A copy from the running system that fails between two ranges is not noticed; when it is repeated after the
    transfer, what it has written before stays in the image. *)
Theorem failed_copy_repeated :
  let flaky := mk_delta_env (fun _ => true) (replicate 32 0) (fun n => replicate n NUL)
    (fun n s => Some (match n with O => rd_block (String.list_ascii_of_string "hXllo") | _ => rd_block hello end)) (fun _ => 7)
    (fun _ => true) single_world (fun _ => 0) in
  seen (delta_loop toy_hash_lib toy_stream toy_zstd_config toy_keys 20 flaky 5 20 "http://a" 10
    [mk_chunk false 100 6 6 (printed_digest world) (printed_digest world) no_src;
     mk_chunk true 106 10 5 (printed_digest hello) (printed_digest hello) (mk_src 0 5 (printed_digest hello))] idle_priv) =
  Some (true, "world!hXllohello", Running).
Proof. vm_compute. reflexivity. Qed.
