(* ===== verification/DeltaInstall.v ===== *)
(** * The handler for delta updates: [install_delta] of [handlers/delta_handler.c]

    The attributes of the image, the index of the running system, the header of the new image, and the
    chained handler that gets the image as it is put together. *)
From S2P Require Import Prelude CString Util Versions Dict Handler Bootloader Grub State Vars Crypto Keys Cpio Memory.
From S2P Require Import Copyfile Zstd Image Installer Handlers Multipart Ranges Delta.

(** ** Attributes *)

Inductive zck_log_type := ZCK_LOG_DDEBUG | ZCK_LOG_DEBUG | ZCK_LOG_INFO | ZCK_LOG_WARNING | ZCK_LOG_ERROR | ZCK_LOG_NONE.

(** The attributes in [struct hnd_priv]. *)
Record delta_attrs := mk_attrs {
  at_url : string;
  at_srcdev : string;
  at_chainhandler : string;
  at_zckloglevel : zck_log_type;
  at_detectsrcsize : bool;
  at_srcsize : Z;
  at_max_ranges : Z;
  at_debugchunks : bool;
}.

Definition DEFAULT_MAX_RANGES : Z := 10.
Definition handlername : string := "delta".

(** The names of the levels. *)
Definition zck_level (s : string) : zck_log_type :=
  if String.eqb s "debug" then ZCK_LOG_DEBUG else if String.eqb s "info" then ZCK_LOG_INFO
  else if String.eqb s "warn" then ZCK_LOG_WARNING else if String.eqb s "error" then ZCK_LOG_ERROR
  else if String.eqb s "none" then ZCK_LOG_NONE else ZCK_LOG_DDEBUG.

(** [delta_retrieve_attributes]; [urls] are the URLs that were set at run time. *)
Definition delta_retrieve_attributes (img : img_type) (urls : dict) : Z + delta_attrs :=
  let prop := dict_get_value (properties img) in
  let url :=
    match prop "url" with
    | Some u => if String.eqb u "dynamic" then None else Some u
    | None => None
    end in
  match (match url with
         | Some u => inr (Some u)
         | None => match prop "zckfile" with None => inl (- EINVAL) | Some f => inr (dict_get_value urls f) end
         end) with
  | inl e => inl e
  | inr url =>
      match url, prop "source", prop "chain" with
      | Some url, Some srcdev, Some chain =>
          if String.eqb chain handlername then inl (- EINVAL)
          else
            let '(max, errno) :=
              match prop "max-ranges" with
              | None => (0, 0)
              | Some s => let '(v, _, errno) := strtoull s 10 in (v, errno)
              end in
            let max := if negb (errno =? 0) || (max =? 0) then DEFAULT_MAX_RANGES else max in
            let '(detect, size) :=
              match prop "source-size" with
              | None => (false, 0)
              | Some s => if String.eqb s "detect" then (true, 0) else (false, (ustrtoull s 10).1.1)
              end in
            match prop "zckloglevel" with
            | None => inr (mk_attrs url srcdev chain ZCK_LOG_DDEBUG detect size max false)
            | Some s =>
                inr (mk_attrs url srcdev chain (zck_level s) detect size max (bool_decide (is_Some (prop "debug-chunks"))))
            end
      | _, _, _ => inl (- EINVAL)
      end
  end.

(** ** The index of the running system *)

Definition INDEX_BUFF_SIZE : nat := Z.to_nat 16384.

(** [create_zckindex]: the blocks given to the library and the result, [None] if the fuel is not enough. [wr] says
    whether [zck_write] accepts a block. *)
Fixpoint zckindex_loop (wr : bytes -> bool) (fuel : nat) (f : fd) (bufsize maxbytes count : nat) (blocks : list bytes)
  : option (bool * list bytes) :=
  match fuel with
  | O => None
  | S fuel =>
      match f with
      | [] => Some (true, blocks)
      | RdIntr :: _ | RdErr :: _ => Some (false, blocks)
      | RdData b bs :: f =>
          let data := take bufsize (b :: bs) in
          let rest := rd_block (drop bufsize (b :: bs)) ++ f in
          if (bufsize =? 0)%nat then Some (true, blocks)
          else if negb (wr data) then Some (false, blocks)
          else
            let blocks := blocks ++ [data] in
            if (maxbytes =? 0)%nat then zckindex_loop wr fuel rest bufsize maxbytes count blocks
            else
              let count := (count + length data)%nat in
              if (maxbytes <=? count)%nat then Some (true, blocks)
              else
                let bufsize := if (maxbytes - count <? INDEX_BUFF_SIZE)%nat then (maxbytes - count)%nat else bufsize in
                zckindex_loop wr fuel rest bufsize maxbytes count blocks
      end
  end.

Definition create_zckindex (wr : bytes -> bool) (end_ok : bool) (fuel : nat) (f : fd) (maxbytes : nat)
  : option (bool * list bytes) :=
  match zckindex_loop wr fuel f INDEX_BUFF_SIZE maxbytes 0 [] with
  | None => None
  | Some (ok, blocks) => Some (ok && end_ok, blocks)
  end.

(** [get_total_size]: the size of the image, and what is taken from the running system and downloaded. *)
Definition get_total_size (l : list zckChunk) : Z * Z * Z :=
  foldl (fun '(pos, reused, download) c =>
    (u64 (pos + chunk_size c),
     (if chunk_valid c then u64 (reused + chunk_size c) else reused),
     (if chunk_valid c then download else u64 (download + chunk_comp_size c)))) (0, 0, 0) l.

(** ** The handler *)

(** What the zchunk library answers: whether a context can be created, initialised for writing and given its options,
    which chunks a header describes, whether a block of the source is taken, and which chunks are marked as valid
    when they are looked for in the source. *)
Record zck_lib := mk_zck {
  zk_create : bool;
  zk_init_write : bool;
  zk_init_read : bytes -> option (list zckChunk);
  zk_set_ioption : bool;
  zk_write : bytes -> bool;
  zk_end_chunk : bool;
  zk_find_matching : list bytes -> list zckChunk -> list zckChunk;
}.

(** What the system answers: the descriptor of the downloader, whether pipes (and how they take data), the null device and a file in memory can be had,
    the size of the file system on the source, the source, and how the file in memory takes the header. *)
Record delta_sys := mk_delta_sys {
  sy_downloader : Z;
  sy_pipe : bool;
  sy_pipe_plan : list wr_event;
  sy_null : bool;
  sy_fs_size : option Z;
  sy_source : string -> option fd;
  sy_memfd : bool;
  sy_memfd_plan : list wr_event;
  sy_seek : bool;
}.

Definition TYPE_SIZE : Z := SWUPDATE_GENERAL_STRING_SIZE.

(** The image as the chained handler gets it. *)
Definition chain_image (img : img_type) (chain : string) (size : Z) (stream : bytes) : img_type :=
  mk_img (id img) (strlcpy chain TYPE_SIZE) (fname img) (volname img) (device img) (path img) (mtdname img) (type_data img)
    (extract_file img) (filesystem img) (lua_fcn_pre img) (lua_fcn_post img) (seek img) (skip img)
    (provided img) COMPRESSED_FALSE (preserve_attributes img) false (cipher img)
    (ivt_ascii img) (aes_ascii img) true (is_script img) (is_partitioner img)
    (properties img) (partsize img) (rd_block stream) size (checksum img) (replicate SHA256_HASH_LENGTH NUL).

Definition start_priv (pipe : list wr_event) : hnd_priv :=
  mk_priv (mk_work (mk_sink [] pipe) 0 0 Running (mk_dwlchunk None 0 0) [] false false) [] [] false NONE_RANGE "" NOTRUNNING
    (mk_answer 0 0 0 0 []) 0 0 0 None 0.

Section Install.
Context {E V : Type}.
#[local] Abbreviation mach := (machine E V storage).
Context {C D X : Type} (hl : hash_lib C) (dl : decrypt_lib D) (zcfg : config (X := X)) (keys : option decryption_key).
Context (cfuel : nat) (env : delta_env) (zck : zck_lib) (sys : delta_sys) (urls : dict).

(** [install_single_image] for the chained handler, and what it has done when the stream ends early. *)
Context (chain_install : img_type -> mach -> Z * img_type * mach) (chain_partial : img_type -> bytes -> mach -> mach).

(** The chunks of the new image, those found in the source marked. *)
Definition delta_chunks (fuel : nat) (at_ : delta_attrs) (src : fd) (dst : list zckChunk) : option (list zckChunk) :=
  let size := match at_detectsrcsize at_, sy_fs_size sys with true, Some n => n | _, _ => at_srcsize at_ end in
  match create_zckindex (zk_write zck) (zk_end_chunk zck) fuel src (Z.to_nat size) with
  | None => None
  | Some (true, blocks) => Some (zk_find_matching zck blocks dst)
  | Some (false, _) => Some dst
  end.

(** The copy of the header into a file in memory, and the chunks it describes. *)
Definition read_header (img : img_type) : Z * img_type * option (list zckChunk) :=
  let '(ret, img, hdr) := copyimage hl dl zcfg keys cfuel img true (sy_memfd_plan sys) in
  if negb (ret =? 0) then (ret, img, None)
  else (ret, img, if sy_seek sys then zk_init_read zck hdr else None).

(** [install_delta]; [None] if the fuel is not enough or the process does not come back. *)
Definition install_delta (rounds fuel : nat) (img : img_type) (d : handler_data) (m : mach) : option (Z * img_type * mach) :=
  if install_directly img then Some (- EINVAL, img, m)
  else if negb (env_mem env ANSWER_SIZE) then Some (- ENOMEM, img, m)
  else
    match delta_retrieve_attributes img urls with
    | inl _ => Some (- EINVAL, img, m)
    | inr at_ =>
        if sy_downloader sys <? 0 then Some (- EINVAL, img, m)
        else if negb (sy_pipe sys) then Some (- EFAULT, img, m)
        else if negb (sy_null sys) then Some (-1, img, m)
        else
          match sy_source sys (at_srcdev at_) with
          | None => Some (-1, img, m)
          | Some src =>
              if negb (zk_create zck && zk_init_write zck && sy_memfd sys) then Some (-1, img, m)
              else
                let '(ret, img, dst) := read_header img in
                match dst with
                | None => Some (ret, img, m)
                | Some dst =>
                    if negb (zk_set_ioption zck) then Some (ret, img, m)
                    else
                      chunks ← delta_chunks fuel at_ src dst;
                      let size := (get_total_size chunks).1.1 in
                      '(ok, p) ← delta_loop hl dl zcfg keys cfuel env rounds fuel (at_url at_) (at_max_ranges at_) chunks
                                   (start_priv (sy_pipe_plan sys));
                      let out := written (fdout (work p)) in
                      let chained := chain_image img (at_chainhandler at_) size out in
                      match fate (work p) with
                      | Running =>
                          if (ok : bool) then let '(ret, _, m) := chain_install chained m in Some (i32 ret, img, m)
                          else Some (-1, img, chain_partial chained out m)
                      | _ => None
                      end
                end
          end
    end.
End Install.

(** * Properties *)

(** ** The index *)

(** A descriptor that only delivers data. *)
Definition only_data (f : fd) : Prop := Forall (fun e => match e with RdData _ _ => True | _ => False end) f.

Lemma only_data_rest n b bs f : only_data (RdData b bs :: f) -> only_data (rd_block (drop n (b :: bs)) ++ f).
Proof. intros [_ H]%Forall_cons. apply Forall_app. split; [|done]. destruct (drop n (b :: bs)); by repeat constructor. Qed.

Lemma content_block bs f : content (rd_block bs ++ f) = bs ++ content f.
Proof. by destruct bs. Qed.

(** What is indexed of a source is all of it, or as much as was asked for. *)
Lemma zckindex_loop_reads wr f n maxbytes count blocks fuel :
  (forall b, wr b = true) -> only_data f -> (0 < n <= INDEX_BUFF_SIZE)%nat -> (length (content f) < fuel)%nat ->
  ((count < maxbytes)%nat /\ (n <= maxbytes - count)%nat \/ maxbytes = 0%nat) ->
  exists bl, zckindex_loop wr fuel f n maxbytes count blocks = Some (true, blocks ++ bl) /\
    concat bl = if (maxbytes =? 0)%nat then content f else take (maxbytes - count) (content f).
Proof.
  intros Hw. revert f n count blocks. induction fuel as [|fuel IH]; intros f n count blocks Hd Hn Hf Hm; [lia|]. cbn [zckindex_loop].
  destruct f as [|[b bs| |] f]; [|..|by apply Forall_cons in Hd as [? _]|by apply Forall_cons in Hd as [? _]].
  { exists []. rewrite app_nil_r. split; [done|]. cbn. rewrite take_nil. by destruct (maxbytes =? 0)%nat. }
  set (data := take n (b :: bs)). set (rest := rd_block (drop n (b :: bs)) ++ f).
  assert (content (RdData b bs :: f) = data ++ content rest) as Ec.
  { unfold rest, data. rewrite content_block, app_assoc, take_drop. done. }
  assert (0 < length data <= n)%nat as Hl by (unfold data; rewrite length_take; cbn; lia).
  assert (only_data rest) as Hr by (by apply only_data_rest). rewrite Ec, length_app in Hf. rewrite Ec.
  destruct (Nat.eqb_spec n 0); [lia|]. rewrite Hw. cbn [negb].
  destruct (Nat.eqb_spec maxbytes 0) as [Hz|Hz].
  - destruct (IH rest n count (blocks ++ [data])) as (bl & H1 & H2); [done|done|lia|by right|].
    exists (data :: bl). rewrite H1, <- app_assoc. split; [done|]. cbn [concat]. rewrite H2. destruct (Nat.eqb_spec maxbytes 0); done.
  - destruct Hm as [[Hm1 Hm2]|]; [|done]. destruct (Nat.leb_spec maxbytes (count + length data)) as [Hc|Hc].
    + exists [data]. split; [done|]. cbn. rewrite app_nil_r, take_app_le by lia. rewrite take_ge; [done|lia].
    + set (n' := if (maxbytes - (count + length data) <? INDEX_BUFF_SIZE)%nat then _ else _).
      destruct (IH rest n' (count + length data)%nat (blocks ++ [data])) as (bl & H1 & H2); [done| |lia| |].
      * unfold n'. destruct (Nat.ltb_spec (maxbytes - (count + length data)) INDEX_BUFF_SIZE); lia.
      * left. split; [lia|]. unfold n'. destruct (Nat.ltb_spec (maxbytes - (count + length data)) INDEX_BUFF_SIZE); [lia|].
        lia.
      * exists (data :: bl). rewrite H1, <- app_assoc. split; [done|]. cbn [concat]. rewrite H2.
        destruct (Nat.eqb_spec maxbytes 0); [done|]. rewrite take_app_ge by lia. do 2 f_equal. lia.
Qed.

(** ** The chain of trust *)

(** What the library documents of a search: the chunks stay the same, and one that is found has the digest of its
    uncompressed data in the source. *)
Definition matches (c c' : zckChunk) : Prop :=
  chunk_start c' = chunk_start c /\ chunk_comp_size c' = chunk_comp_size c /\ chunk_size c' = chunk_size c /\
  chunk_digest c' = chunk_digest c /\
  (chunk_valid c' = true ->
   src_digest (chunk_src c') = chunk_digest_uncompressed c /\ src_size (chunk_src c') = chunk_size c).

Class ZckSpec (zck : zck_lib) : Prop := {
  zck_matching blocks dst : Forall2 matches dst (zk_find_matching zck blocks dst);
}.

(** A chunk as the header of a file gives it, with digests of 32 bytes. *)
Definition header_chunk (c : zckChunk) : Prop :=
  chunk_valid c = false /\ (exists h, printed (chunk_digest c) h) /\ (exists h, printed (chunk_digest_uncompressed c) h).

Section Trust.
Context {E V : Type}.
#[local] Abbreviation mach := (machine E V storage).
Context {C D X : Type} (hl : hash_lib C) (dl : decrypt_lib D) (zcfg : config (X := X)) (keys : option decryption_key).
Context (cfuel : nat) (env : delta_env) (zck : zck_lib) (sys : delta_sys) (urls : dict).
Context (chain_install : img_type -> mach -> Z * img_type * mach) (chain_partial : img_type -> bytes -> mach -> mach).
Context `{!HashSpec hl} (zl : zlib X) (x0 : X) `{!ZlibSpec zl} (zstd_built : cfg_zstd zcfg = Some (Some x0, zl)).
Context `{!ZckSpec zck}.

(** The bytes of a chunk: they have its digest, or zstd has made them of bytes that have the digest of the compressed
    chunk. *)
Inductive described (c : zckChunk) : bytes -> Prop :=
  | described_plain data h : printed (chunk_digest_uncompressed c) h -> sha data = h -> described c data
  | described_zstd consumed left x' data h :
      printed (chunk_digest c) h -> sha (consumed ++ left) = h -> z_rep x0 x' consumed data -> described c data
  | described_empty : Z.to_nat (chunk_comp_size c) = 0%nat \/ chunk_size c = 0 -> described c [].

Lemma verified_described c c' data : matches c c' -> verified hl zl x0 c' data -> described c data.
Proof.
  intros (_ & Hz & _ & Hd & Hm) [data' h Hv Hp Hs|consumed left x' data' h Hp Hs Hr|[He|[Hv He]]].
  - destruct (Hm Hv) as [Hu _]. rewrite Hu in Hp. by eapply described_plain.
  - rewrite Hd in Hp. by eapply described_zstd.
  - apply described_empty. left. unfold comp_size in He. congruence.
  - apply described_empty. right. destruct (Hm Hv) as [_ Hu]. congruence.
Qed.

Lemma matches_ok dst chunks : Forall2 matches dst chunks -> Forall header_chunk dst -> Forall chunk_ok chunks.
Proof.
  induction 1 as [|c c' l l' Hm _ IH]; intros Hh; [constructor|]. apply Forall_cons in Hh as [(_ & H1 & H2) Hh].
  constructor; [|by apply IH]. destruct Hm as (_ & _ & _ & Hd & Hm). split; [by rewrite Hd|].
  intros Hv. destruct (Hm Hv) as [-> _]. done.
Qed.

Lemma matches_refl dst : Forall header_chunk dst -> Forall2 matches dst dst.
Proof.
  intros H. induction H as [|c l (Hv & _) _ IH]; [constructor|]. constructor; [|done].
  split_and!; try done. by rewrite Hv.
Qed.

Lemma delta_chunks_match fuel at_ src dst chunks :
  Forall header_chunk dst -> delta_chunks zck sys fuel at_ src dst = Some chunks -> Forall2 matches dst chunks.
Proof.
  intros Hh. unfold delta_chunks. destruct (create_zckindex _ _ _ _ _) as [[ok blocks]|]; [|done].
  destruct ok; intros [= <-]; [apply zck_matching|by apply matches_refl].
Qed.

(** What was found in the running system is still there, and the chained handler takes everything. *)
Record sound_source (dst : list zckChunk) : Prop := {
  ss_hash : hash_total hl;
  ss_pipe : sy_pipe_plan sys = [];
  ss_intact : forall blocks, intact hl cfuel env (zk_find_matching zck blocks dst);
}.

Lemma delta_chunks_intact fuel at_ src dst chunks :
  Forall header_chunk dst -> (forall blocks, intact hl cfuel env (zk_find_matching zck blocks dst)) ->
  delta_chunks zck sys fuel at_ src dst = Some chunks -> intact hl cfuel env chunks.
Proof.
  intros Hh Hi. unfold delta_chunks. destruct (create_zckindex _ _ _ _ _) as [[ok blocks]|]; [|done].
  destruct ok; intros [= <-]; [apply Hi|]. intros c Hc Hv.
  destruct (proj1 (Forall_forall _ _) Hh c Hc) as [Hv' _]. congruence.
Qed.

(** Without failed copies, the image is the described chunks. *)
Lemma built_described dst chunks out :
  sound_source dst -> Forall2 matches dst chunks -> Forall chunk_ok chunks -> intact hl cfuel env chunks ->
  built hl dl zcfg keys cfuel env zl x0 (sy_pipe_plan sys) chunks [] out ->
  exists pieces, Forall2 described dst pieces /\ out = concat pieces.
Proof.
  intros [Ht Hp _] Hm Hok Hi Hb. apply built_clean in Hb as (a & pieces & Ha & Hv & ->).
  2: { intros c junk Hc. by eapply (intact_copies hl dl zcfg keys cfuel env (sy_pipe_plan sys) chunks). }
  rewrite app_nil_r in Ha. subst a. exists pieces. split; [|done].
  clear -Hm Hv zstd_built. revert pieces Hv. induction Hm as [|c c' l l' Hc _ IH]; intros pieces Hv;
    inversion Hv as [|? data ? ps Hd Hps]; subst; constructor; [by eapply verified_described|by apply IH].
Qed.

End Trust.

(** ** Examples *)

(** A library that knows the word at position 3 of the source. *)
Definition toy_find (c : zckChunk) : zckChunk :=
  if decide (chunk_digest_uncompressed c = printed_digest hello /\ chunk_size c = 5)
  then mk_chunk true (chunk_start c) (chunk_comp_size c) (chunk_size c) (chunk_digest c) (chunk_digest_uncompressed c)
         (mk_src 3 5 (printed_digest hello))
  else mk_chunk false (chunk_start c) (chunk_comp_size c) (chunk_size c) (chunk_digest c) (chunk_digest_uncompressed c) no_src.

Definition header_chunks : list zckChunk :=
  [mk_chunk false 90 10 5 (printed_digest six_bytes) (printed_digest hello) no_src;
   mk_chunk false 100 6 6 (printed_digest world) (printed_digest world) no_src].

Definition toy_zck (readable : bool) : zck_lib :=
  mk_zck true true (fun _ => if readable then Some header_chunks else None) true (fun _ => true) true
    (fun _ dst => toy_find <$> dst).

#[local] Instance toy_zck_spec : ZckSpec (toy_zck true).
Proof.
  split. intros blocks dst. cbn. induction dst as [|c dst IH]; [constructor|]. cbn. constructor; [|exact IH].
  unfold toy_find. case_decide as Hd; (split_and!; [done..|]); cbn; [|done]. by destruct Hd as [-> ->].
Qed.

Definition toy_sys : delta_sys :=
  mk_delta_sys 5 true [] true None (fun _ => Some (rd_block (String.list_ascii_of_string "---hello---"))) true [] true.

Definition delta_image : img_type :=
  dev_image "/dev/boot1" 0 "zck" "" "" [mk_dict_entry "url" ["http://a"]; mk_dict_entry "source" ["/dev/boot0"];
    mk_dict_entry "chain" ["raw"]] six_bytes.

(** The chained handler writes to a device. *)
Definition toy_chain (img : img_type) (m : dev_machine) : Z * img_type * dev_machine :=
  install_raw_image sample_dev_io toy_hash_lib toy_stream toy_config None 8 img (mk_hdata None 0) m.

Abbreviation toy_install readable :=
  (install_delta toy_hash_lib toy_stream toy_zstd_config toy_keys 20 (toy_env single_world) (toy_zck readable) toy_sys []
    toy_chain (fun _ _ m => m) 5 30 delta_image (mk_hdata None 0) (dev_state ∅)).

Definition toy_installed : img_type * dev_machine :=
  match toy_install true with Some (_, img, m) => (img, m) | None => (delta_image, dev_state ∅) end.

Example delta_on_device :
  devices (m_world toy_installed.2) !! "/dev/boot1" = Some (String.list_ascii_of_string "helloworld!").
Proof. vm_compute. reflexivity. Qed.

Lemma toy_digest bs : valid_hash (Some (toy_sha bs)) = true -> printed (printed_digest bs) (toy_sha bs).
Proof. intros Hv. split; [done|]. split; [apply length_resize|done]. Qed.

Lemma toy_headers : Forall header_chunk header_chunks.
Proof.
  assert (valid_hash (Some (toy_sha hello)) = true) as H1 by (vm_compute; reflexivity).
  assert (valid_hash (Some (toy_sha world)) = true) as H2 by (vm_compute; reflexivity).
  assert (valid_hash (Some (toy_sha six_bytes)) = true) as H3 by (vm_compute; reflexivity).
  apply Forall_cons. split; [|apply Forall_singleton]; (split; [reflexivity|]); split.
  - exists (toy_sha six_bytes). exact (toy_digest _ H3).
  - exists (toy_sha hello). exact (toy_digest _ H1).
  - exists (toy_sha world). exact (toy_digest _ H2).
  - exists (toy_sha world). exact (toy_digest _ H2).
Qed.

(** The word is where it was. *)
Lemma toy_intact : intact toy_hash_lib 20 (toy_env single_world) (toy_find <$> header_chunks).
Proof.
  intros c Hc Hv. cbn [fmap list_fmap header_chunks] in Hc.
  assert (chunk_src (toy_find (mk_chunk false 90 10 5 (printed_digest six_bytes) (printed_digest hello) no_src)) =
    mk_src 3 5 (printed_digest hello)) as E1 by (vm_compute; reflexivity).
  assert (chunk_valid (toy_find (mk_chunk false 100 6 6 (printed_digest world) (printed_digest world) no_src)) = false) as E2
    by (vm_compute; reflexivity).
  apply elem_of_cons in Hc as [->|Hc]; [|apply list_elem_of_singleton in Hc as ->; congruence]. rewrite E1. cbn [src_size src_start src_digest].
  split; [lia|]. intros n f [= <-]. split; [vm_compute; exact I|]. intros h Hh.
  assert (toy_sha (take (Z.to_nat 5) (content (rd_block (drop (Z.to_nat 3) (String.list_ascii_of_string "---hello---"))))) = toy_sha hello)
    as E3 by (vm_compute; reflexivity).
  refine (eq_trans E3 _).
  assert (valid_hash (Some (toy_sha hello)) = true) as H1 by (vm_compute; reflexivity).
  rewrite <- (chunk_hash_printed (toy_env single_world) _ _ (toy_digest _ H1)). by apply (chunk_hash_printed (toy_env single_world)).
Qed.

Lemma toy_sound : sound_source toy_hash_lib 20 (toy_env single_world) (toy_zck true) toy_sys header_chunks.
Proof. split; [exact toy_hash_total|reflexivity|]. intros blocks. exact toy_intact. Qed.


(** A header that cannot be read, although its hash is right, ends the handler with the result of the copy before: the update
    reports success and has installed nothing. *)
Theorem unreadable_header_succeeds : toy_install false = Some (0, set_checksum 565 (set_fdin [] delta_image), dev_state ∅).
Proof. vm_compute. reflexivity. Qed.

(** The first block is read without regard to the limit. *)
Theorem index_limit_exceeded :
  create_zckindex (fun _ => true) true 9 (rd_block six_bytes) 2 = Some (true, [six_bytes]).
Proof. vm_compute. reflexivity. Qed.
