(* ===== verification/Progress.v ===== *)
(** * Progress of an update: [core/progress_thread.c], [core/notifier.c], [ipc/progress_ipc.c]

    The installer reports its steps to a structure that is broadcast, after each change, to all
    clients of the progress socket. A client that cannot be written to is dropped. Other
    processes of SWUpdate report through the notifier of the core process. *)
From S2P Require Import Prelude CString Util Versions Dict Handler Bootloader Grub State Vars Crypto Keys Cpio Memory.
From S2P Require Import Copyfile Image Installer Parse Stream.

(** ** The message *)

Definition PRINFOSIZE : nat := 2048.
Definition CUR_IMAGE_SIZE : nat := 256.
Definition HND_NAME_SIZE : nat := 64.
Definition PROGRESS_API_MAJOR : Z := 2.
Definition PROGRESS_API_MINOR : Z := 0.
Definition PROGRESS_API_PATCH : Z := 0.
Definition PROGRESS_API_VERSION : Z :=
  Z.lor (Z.lor (Z.shiftl (Z.land PROGRESS_API_MAJOR 65535) 16) (Z.shiftl (Z.land PROGRESS_API_MINOR 255) 8))
    (Z.land PROGRESS_API_PATCH 255).

(** The character arrays are the whole arrays, with what is left of earlier texts. *)
Record progress_msg := mk_pmsg {
  apiversion : Z;
  status : Z;
  dwl_percent : Z;
  dwl_bytes : Z;
  nsteps : Z;
  cur_step : Z;
  cur_percent : Z;
  cur_image : bytes;
  hnd_name : bytes;
  source : Z;
  infolen : Z;
  info : bytes;
}.

Definition status_value (s : RECOVERY_STATUS) : Z :=
  match s with
  | IDLE => 0 | START => 1 | RUN => 2 | SUCCESS => 3 | FAILURE => 4 | DOWNLOAD => 5 | DONE => 6
  | SUBPROCESS => 7 | PROGRESS => 8
  end.

(** The packed structure in memory. *)
Definition encode (m : progress_msg) : bytes :=
  le 4 (apiversion m) ++ le 4 (status m) ++ le 4 (dwl_percent m) ++ le 8 (dwl_bytes m) ++ le 4 (nsteps m) ++
  le 4 (cur_step m) ++ le 4 (cur_percent m) ++ cur_image m ++ hnd_name m ++ le 4 (source m) ++
  le 4 (infolen m) ++ info m.

Definition MSG_SIZE : nat := 2408.

(** The members, read from memory. *)
Definition decode (bs : bytes) : progress_msg :=
  mk_pmsg (of_le (slice 0 4 bs)) (of_le (slice 4 4 bs)) (of_le (slice 8 4 bs)) (of_le (slice 12 8 bs))
    (of_le (slice 20 4 bs)) (of_le (slice 24 4 bs)) (of_le (slice 28 4 bs)) (slice 32 256 bs)
    (slice 288 64 bs) (of_le (slice 352 4 bs)) (of_le (slice 356 4 bs)) (slice 360 2048 bs).

(** ** The clients of the socket *)

(** What the next calls of [send] do: bytes sent (at least one), nothing because the buffer of the
    socket is full, an interruption, an error. Past the end of the list everything is sent. *)
Inductive send_event := SendN (n : nat) | SendAgain | SendIntr | SendErr.

Record progress_conn := mk_conn {
  sockfd : nat;
  sends : list send_event;
  received : bytes;
}.

Definition maxAttempts : nat := 5.

(** The loops of [send_progress_msg] for one client, with [attempt] attempts for the rest [buf]: the bytes
    sent, whether all were, the further events. *)
Fixpoint send_msg (plan : list send_event) (attempt : nat) (buf : bytes) : bytes * bool * list send_event :=
  match buf with
  | [] => ([], true, plan)
  | _ =>
      match plan with
      | [] => (buf, true, [])
      | SendN n :: plan =>
          let '(sent, ok, plan) := send_msg plan 0 (drop (S n) buf) in (take (S n) buf ++ sent, ok, plan)
      | SendAgain :: plan =>
          if (S attempt <? maxAttempts)%nat then send_msg plan (S attempt) buf else ([], false, plan)
      | SendIntr :: plan | SendErr :: plan => ([], false, plan)
      end
  end.

(** The client afterwards, and whether it stays in the list. *)
Definition send_to (bs : bytes) (c : progress_conn) : progress_conn * bool :=
  let '(sent, ok, plan) := send_msg (sends c) 0 bs in (mk_conn (sockfd c) plan (received c ++ sent), ok).

(** [struct swupdate_progress]. *)
Record swupdate_progress := mk_progress {
  msg : progress_msg;
  conns : list progress_conn;
  step_running : bool;
}.

(** What an operation leaves: the structure, the clients that were closed, the messages that were broadcast. *)
Abbreviation outcome := (swupdate_progress * list progress_conn * list progress_msg)%type.

Definition set_msg (m : progress_msg) (p : swupdate_progress) : swupdate_progress :=
  mk_progress m (conns p) (step_running p).
Definition set_running (b : bool) (p : swupdate_progress) : swupdate_progress := mk_progress (msg p) (conns p) b.

(** Members of the message. *)
Definition set_steps (n c perc : Z) (m : progress_msg) : progress_msg :=
  mk_pmsg (apiversion m) (status m) (dwl_percent m) (dwl_bytes m) n c perc (cur_image m) (hnd_name m)
    (source m) (infolen m) (info m).
Definition set_status (s : RECOVERY_STATUS) (m : progress_msg) : progress_msg :=
  mk_pmsg (apiversion m) (status_value s) (dwl_percent m) (dwl_bytes m) (nsteps m) (cur_step m) (cur_percent m)
    (cur_image m) (hnd_name m) (source m) (infolen m) (info m).
Definition set_download (perc total : Z) (m : progress_msg) : progress_msg :=
  mk_pmsg (apiversion m) (status m) perc total (nsteps m) (cur_step m) (cur_percent m)
    (cur_image m) (hnd_name m) (source m) (infolen m) (info m).
Definition set_names (image handler : string) (m : progress_msg) : progress_msg :=
  mk_pmsg (apiversion m) (status m) (dwl_percent m) (dwl_bytes m) (nsteps m) (cur_step m) (cur_percent m)
    (put_str (cur_image m) image) (put_str (hnd_name m) handler) (source m) (infolen m) (info m).
Definition set_info (len : Z) (text : bytes) (m : progress_msg) : progress_msg :=
  mk_pmsg (apiversion m) (status m) (dwl_percent m) (dwl_bytes m) (nsteps m) (cur_step m) (cur_percent m)
    (cur_image m) (hnd_name m) (source m) len text.
Definition set_header (v s : Z) (m : progress_msg) : progress_msg :=
  mk_pmsg v (status m) (dwl_percent m) (dwl_bytes m) (nsteps m) (cur_step m) (cur_percent m)
    (cur_image m) (hnd_name m) s (infolen m) (info m).
Definition drop_info (m : progress_msg) : progress_msg := set_info 0 (info m) m.

(** A notifier: status, error, level, text. *)
Abbreviation notifier := (RECOVERY_STATUS -> Z -> Z -> option string -> swupdate_progress -> outcome).

Section Progress.
(** [get_install_source], and the information of the request that [get_install_info] copies. *)
Variable install_source : Z.
Variable install_info : string.

(** The message as it is sent: the source is only asked for when there is a client. *)
Definition stamped (p : swupdate_progress) : progress_msg :=
  set_header PROGRESS_API_VERSION (match conns p with [] => source (msg p) | _ => u32 install_source end) (msg p).

Definition send_progress_msg (p : swupdate_progress) : outcome :=
  let m := stamped p in
  let res := send_to (encode m) <$> conns p in
  (mk_progress m (filter (fun r : progress_conn * bool => r.2 = true) res).*1 (step_running p),
   (filter (fun r : progress_conn * bool => r.2 = false) res).*1, [m]).

(** Something done to the structure after the message was sent. *)
Definition then_set (f : progress_msg -> progress_msg) (o : outcome) : outcome :=
  let '(p, gone, log) := o in (set_msg (f (msg p)) p, gone, log).

Definition quiet (p : swupdate_progress) : outcome := (p, [], []).

(** [_swupdate_download_update]. *)
Definition swupdate_download_update_ (perc totalbytes : Z) (p : swupdate_progress) : outcome :=
  if u32 perc =? dwl_percent (msg p) then quiet p
  else send_progress_msg (set_msg (set_download (u32 perc) (u64 totalbytes) (set_status DOWNLOAD (msg p))) p).

(** [get_install_info]: the length, and the array. *)
Definition get_install_info (buf : bytes) : Z * bytes :=
  let len := Nat.min (length buf - 1) (String.length install_info) in
  (Z.of_nat len, put buf (take len (String.list_ascii_of_string install_info))).

Definition swupdate_progress_init (n : Z) (p : swupdate_progress) : outcome :=
  let m := set_status START (set_steps (u32 n) 0 0 (msg p)) in
  let '(len, text) := get_install_info (info m) in
  then_set drop_info
    (send_progress_msg (set_msg (set_header PROGRESS_API_VERSION (u32 install_source) (set_info len text m)) p)).

Definition swupdate_progress_addstep (p : swupdate_progress) : outcome :=
  let m := msg p in quiet (set_msg (set_steps (u32 (nsteps m + 1)) (cur_step m) (cur_percent m) m) p).

Definition swupdate_progress_update (perc : Z) (p : swupdate_progress) : outcome :=
  let m := msg p in
  if negb (u32 perc =? cur_percent m) && step_running p then
    send_progress_msg (set_msg (set_steps (nsteps m) (cur_step m) (u32 perc) (set_status PROGRESS m)) p)
  else quiet p.

Definition swupdate_progress_inc_step (image handler_name : string) (p : swupdate_progress) : outcome :=
  let m := msg p in
  let m := set_status RUN (set_names image handler_name (set_steps (nsteps m) (u32 (cur_step m + 1)) 0 m)) in
  send_progress_msg (set_running true (set_msg m p)).

Definition swupdate_progress_step_completed (p : swupdate_progress) : outcome :=
  quiet (set_running false (set_msg (set_status IDLE (msg p)) p)).

Definition swupdate_progress_end (s : RECOVERY_STATUS) (p : swupdate_progress) : outcome :=
  then_set (fun m => set_download 0 0 (set_steps 0 0 0 m))
    (send_progress_msg (set_running false (set_msg (set_status s (msg p)) p))).

(** The text with the cause, a quoted number. *)
Definition cause_text (cause : Z) (text : string) : string :=
  "{" +:+ String "034" (print_d cause +:+ String "034" (": " +:+ text +:+ "}")).

(** A text in the member [info], with its length there. *)
Definition put_info (text : string) (m : progress_msg) : progress_msg :=
  let buf := put_str (info m) text in set_info (strlen (cstring buf)) buf m.

Definition swupdate_progress_info (s : RECOVERY_STATUS) (cause : Z) (text : string) (p : swupdate_progress) : outcome :=
  then_set drop_info (send_progress_msg (set_msg (set_status s (put_info (cause_text cause text) (msg p))) p)).

Definition swupdate_progress_done (text : option string) (p : swupdate_progress) : outcome :=
  let m := match text with Some t => put_info t (msg p) | None => msg p end in
  then_set drop_info (send_progress_msg (set_running false (set_msg (set_status DONE m) p))).

(** ** New clients *)

Definition PROGRESS_CONNECT_ACK_MAGIC : bytes := ["A"; "C"; "K"; NUL]%char.

Definition connect_ack : bytes := le 4 PROGRESS_API_VERSION ++ PROGRESS_CONNECT_ACK_MAGIC.

(** The loop of [progress_send_connect_ack], which waits for room in the socket and tries again after an
    interruption. *)
Fixpoint send_ack (plan : list send_event) (buf : bytes) : bytes * bool * list send_event :=
  match buf with
  | [] => ([], true, plan)
  | _ =>
      match plan with
      | [] => (buf, true, [])
      | SendN n :: plan =>
          let '(sent, ok, plan) := send_ack plan (drop (S n) buf) in (take (S n) buf ++ sent, ok, plan)
      | SendIntr :: plan => send_ack plan buf
      | SendAgain :: plan | SendErr :: plan => ([], false, plan)
      end
  end.

(** One connection accepted by [progress_bar_thread]; [mem]: there is memory for it. *)
Definition progress_accept (mem : bool) (fd : nat) (plan : list send_event) (p : swupdate_progress) : outcome :=
  if negb mem then (p, [mk_conn fd plan []], [])
  else
    let '(sent, ok, plan) := send_ack plan connect_ack in
    let c := mk_conn fd plan sent in
    if ok then (mk_progress (msg p) (conns p ++ [c]) (step_running p), [], []) else (p, [c], []).

(** ** The notifiers *)

Definition RECOVERY_DWL : Z := 2.
Definition TRACELEVEL : Z := 4.
Definition CANCELUPDATE : Z := 6.
Definition NOTIFY_BUF_SIZE : Z := 2048.

(** [NULL] is [None]. *)
Definition register_notifier (mem : bool) (client : option notifier) (clients : list notifier) : Z * list notifier :=
  match client with
  | None => (-1, clients)
  | Some c => if mem then (0, clients ++ [c]) else (- ENOMEM, clients)
  end.

(** What [printf] makes of a missing string. *)
Definition shown (text : option string) : string := default "(null)" text.

Definition process_notifier : notifier := fun st event level text p =>
  match st with
  | SUBPROCESS => swupdate_progress_info (if event =? CANCELUPDATE then FAILURE else st) event (shown text) p
  | _ => quiet p
  end.

(** [sscanf (s, "%d-%llu")] with both numbers found. *)
Definition scan_download (s : string) : option (Z * Z) :=
  match scan_number 10 s with
  | Some (neg, v, String "-" r) =>
      match scan_number 10 r with
      | Some _ => Some (i32 (clamp LONG_MIN LONG_MAX (if neg then - v else v)), (strtoull r 10).1.1)
      | None => None
      end
  | _ => None
  end.

(** In the core process [swupdate_download_update] is [_swupdate_download_update]. *)
Definition progress_notifier : notifier := fun st event level text p =>
  match st with
  | PROGRESS =>
      match (if event =? RECOVERY_DWL then scan_download (shown text) else None) with
      | Some (perc, total) => swupdate_download_update_ perc total p
      | None => swupdate_progress_info st event (shown text) p
      end
  | _ => quiet p
  end.

(** One operation after the other. *)
Definition and_next (o : outcome) (f : swupdate_progress -> outcome) : outcome :=
  let '(p, gone, log) := o in let '(p, gone', log') := f p in (p, gone ++ gone', log ++ log').

(** [notify] in the core process. *)
Definition notify (clients : list notifier) (st : RECOVERY_STATUS) (error level : Z) (text : option string)
    (p : swupdate_progress) : outcome :=
  foldl (fun o c => and_next o (c st error level text)) (quiet p) clients.

(** [struct notify_ipc_msg]. *)
Record notify_ipc_msg := mk_notify {
  nm_status : RECOVERY_STATUS;
  nm_error : Z;
  nm_level : Z;
  nm_buf : string;
}.

(** [notify] in another process: the datagram, if its socket is open. *)
Definition notify_child (fd_open : bool) (st : RECOVERY_STATUS) (error level : Z) (text : option string)
  : option notify_ipc_msg :=
  if fd_open then Some (mk_notify st error level (strlcpy (default "" text) (NOTIFY_BUF_SIZE - 1))) else None.

(** The turn of [notifier_thread] that receives the datagram. *)
Definition notifier_receive (clients : list notifier) (m : notify_ipc_msg) (p : swupdate_progress) : outcome :=
  notify clients (nm_status m) (nm_error m) (nm_level m) (Some (nm_buf m)) p.

(** [swupdate_download_update] in another process. *)
Definition download_update_child (fd_open : bool) (perc totalbytes : Z) : option notify_ipc_msg :=
  notify_child fd_open PROGRESS RECOVERY_DWL TRACELEVEL
    (Some (strlcpy (print_d (i32 perc) +:+ "-" +:+ print_d (u64 totalbytes)) (Z.of_nat PRINFOSIZE - 1))).

(** ** All operations *)

Inductive call :=
  | PInit (n : Z) | PAddstep | PUpdate (perc : Z) | PDownload (perc totalbytes : Z)
  | PIncStep (image handler_name : string) | PStepCompleted | PEnd (s : RECOVERY_STATUS)
  | PInfo (s : RECOVERY_STATUS) (cause : Z) (text : string) | PDone (text : option string)
  | PNotify (m : notify_ipc_msg) | PAccept (mem : bool) (fd : nat) (plan : list send_event).

Definition perform (clients : list notifier) (c : call) : swupdate_progress -> outcome :=
  match c with
  | PInit n => swupdate_progress_init n
  | PAddstep => swupdate_progress_addstep
  | PUpdate perc => swupdate_progress_update perc
  | PDownload perc total => swupdate_download_update_ perc total
  | PIncStep image handler => swupdate_progress_inc_step image handler
  | PStepCompleted => swupdate_progress_step_completed
  | PEnd s => swupdate_progress_end s
  | PInfo s cause text => swupdate_progress_info s cause text
  | PDone text => swupdate_progress_done text
  | PNotify m => notifier_receive clients m
  | PAccept mem fd plan => progress_accept mem fd plan
  end.

Definition perform_all (clients : list notifier) (cs : list call) (p : swupdate_progress) : outcome :=
  foldl (fun o c => and_next o (perform clients c)) (quiet p) cs.

End Progress.

(** The notifiers of [notify_init]; the console is only written to. *)
Definition console_notifier : notifier := fun _ _ _ _ p => quiet p.

Definition core_notifiers (install_source : Z) : list notifier :=
  [console_notifier; process_notifier install_source; progress_notifier install_source].

(** ** The client: [ipc/progress_ipc.c] *)

Definition ETIME : Z := 62.
Definition EBADMSG : Z := 74.
Definition EOPNOTSUPP : Z := 95.
Definition ECONNRESET : Z := 104.

(** [progress_is_major_version_compatible]. *)
Definition progress_is_major_version_compatible (other_version : Z) : bool :=
  PROGRESS_API_MAJOR =? Z.land (Z.shiftr other_version 16) 65535.

(** What happens on the socket next, and after how many nanoseconds: bytes (at least one) arrive, the other
    end is closed, a signal, an error of [poll], another condition. *)
Inductive poll_event := PollIn (b : ascii) (bs : bytes) | PollHup | PollIntr | PollErr (errno : Z) | PollOther.

Definition bytes_left (bs : bytes) : list (Z * poll_event) :=
  match bs with [] => [] | b :: bs => [(0, PollIn b bs)] end.

(** [update_timeout], [elapsed] nanoseconds after the start. *)
Definition update_timeout (elapsed timeout_ms : Z) : Z := i32 (Z.quot (timeout_ms * 1000000 - elapsed) 1000000).

Definition ACK_SIZE : nat := 8.

(** [progress_ipc_recv_ack]: the result and the bytes read; [None] if it waits for ever. A negative timeout lets
    [poll] wait without a limit. A loop without [break] is the recursion on the next event. *)
Fixpoint recv_ack_loop (evs : list (Z * poll_event)) (elapsed timeout_ms ret : Z) (ack : bytes) : option (Z * bytes) :=
  if (ACK_SIZE <=? length ack)%nat then Some (ret, ack)
  else
    match evs with
    | [] => if timeout_ms <? 0 then None else Some (- ETIME, ack)
    | (dt, e) :: evs =>
        if (0 <=? timeout_ms) && (timeout_ms * 1000000 <? dt) then Some (- ETIME, ack)
        else
          let elapsed := elapsed + dt in
          let timeout_ms := update_timeout elapsed timeout_ms in
          match e with
          | PollIntr => recv_ack_loop evs elapsed timeout_ms ret ack
          | PollErr errno => Some (- errno, ack)
          | PollHup => Some (- ECONNRESET, ack)
          | PollIn b bs => recv_ack_loop evs elapsed timeout_ms ret (ack ++ take (ACK_SIZE - length ack) (b :: bs))
          | PollOther => recv_ack_loop evs elapsed timeout_ms (- EOPNOTSUPP) ack
          end
    end.

Definition progress_ipc_recv_ack (evs : list (Z * poll_event)) : option (Z * bytes) := recv_ack_loop evs 0 5000 0 [].

Definition progress_ipc_wait_for_ack (evs : list (Z * poll_event)) : option Z :=
  '(err, ack) ← progress_ipc_recv_ack evs;
  if negb (err =? 0) then Some err
  else if negb (progress_is_major_version_compatible (of_le (slice 0 4 ack))) then Some (- EBADMSG)
  else if negb (strcmp (cstring (slice 4 4 ack)) (cstring PROGRESS_CONNECT_ACK_MAGIC) =? 0) then Some (- EBADMSG)
  else Some 0.

(** [progress_ipc_receive] into [buf]: the result, whether the connection is still open, the buffer, what is left.
    The comparison of the result, an [int], with a size is one of unsigned numbers. *)
Definition progress_ipc_receive (f : fd) (buf : bytes) : Z * bool * bytes * fd :=
  let checked ret (buf : bytes) (f : fd) :=
    if (4 <? u64 ret) && negb (of_le (take 4 buf) =? PROGRESS_API_VERSION) then (- EBADMSG, true, buf, f)
    else if negb (ret =? Z.of_nat MSG_SIZE) then (-1, false, buf, f)
    else (ret, true, buf, f) in
  match f with
  | [] => checked 0 buf []
  | RdIntr :: f => (0, true, buf, f)
  | RdErr :: f => checked (-1) buf f
  | RdData b bs :: f =>
      let data := take MSG_SIZE (b :: bs) in
      checked (Z.of_nat (length data)) (put buf data) (rd_block (drop MSG_SIZE (b :: bs)) ++ f)
  end.

(** The messages a client gets from [n] calls, until one fails. *)
Fixpoint receive_all (n : nat) (f : fd) (buf : bytes) : list progress_msg * fd :=
  match n with
  | O => ([], f)
  | S n =>
      let '(ret, _, buf, f) := progress_ipc_receive f buf in
      if ret =? Z.of_nat MSG_SIZE then let '(l, f) := receive_all n f buf in (decode buf :: l, f) else ([], f)
  end.

(** * Properties *)

(** ** Messages in memory *)

(** Every number fits its member and every array has its size; the length of [info] is inside of it. *)
Record msg_ok (m : progress_msg) : Prop := {
  ok_api : 0 <= apiversion m < 2 ^ 32;
  ok_status : 0 <= status m < 2 ^ 32;
  ok_percent : 0 <= dwl_percent m < 2 ^ 32;
  ok_nsteps : 0 <= nsteps m < 2 ^ 32;
  ok_step : 0 <= cur_step m < 2 ^ 32;
  ok_cur : 0 <= cur_percent m < 2 ^ 32;
  ok_source : 0 <= source m < 2 ^ 32;
  ok_bytes : 0 <= dwl_bytes m < 2 ^ 64;
  ok_image : length (cur_image m) = CUR_IMAGE_SIZE;
  ok_handler : length (hnd_name m) = HND_NAME_SIZE;
  ok_infolen : 0 <= infolen m < Z.of_nat PRINFOSIZE;
  ok_info : length (info m) = PRINFOSIZE;
}.

Lemma encode_length m : msg_ok m -> length (encode m) = MSG_SIZE.
Proof.
  intros H. pose proof (ok_image _ H) as H1. pose proof (ok_handler _ H) as H2. pose proof (ok_info _ H) as H3.
  unfold encode. rewrite !length_app, !le_length, H1, H2, H3. done.
Qed.

Lemma decode_encode m : msg_ok m -> decode (encode m) = m.
Proof.
  intros [N1 N2 N3 N4 N5 N6 N7 Hb H1 H2 Hl H3].
  assert (0 <= infolen m < 2 ^ 32) as Hl' by (unfold PRINFOSIZE in Hl; lia).
  assert (forall z, 0 <= z < 2 ^ 32 -> of_le (le 4 z) = z) as L4 by (intros z Hz; by apply of_le_le).
  assert (forall z, 0 <= z < 2 ^ 64 -> of_le (le 8 z) = z) as L8 by (intros z Hz; by apply of_le_le).
  unfold CUR_IMAGE_SIZE, HND_NAME_SIZE, PRINFOSIZE in *.
  transitivity (mk_pmsg (apiversion m) (status m) (dwl_percent m) (dwl_bytes m) (nsteps m) (cur_step m)
    (cur_percent m) (cur_image m) (hnd_name m) (source m) (infolen m) (info m)); [|by destruct m].
  unfold decode, encode. f_equal; find_slice; auto.
Qed.

(** ** Every operation keeps the message well formed *)

Lemma status_range s : 0 <= status_value s < 2 ^ 32.
Proof. by destruct s. Qed.

Lemma set_status_ok s m : msg_ok m -> msg_ok (set_status s m).
Proof. intros []. constructor; done || apply status_range. Qed.

Lemma set_steps_ok n c perc m :
  msg_ok m -> 0 <= n < 2 ^ 32 -> 0 <= c < 2 ^ 32 -> 0 <= perc < 2 ^ 32 -> msg_ok (set_steps n c perc m).
Proof. intros []. by constructor. Qed.

Lemma set_download_ok perc total m :
  msg_ok m -> 0 <= perc < 2 ^ 32 -> 0 <= total < 2 ^ 64 -> msg_ok (set_download perc total m).
Proof. intros []. by constructor. Qed.

Lemma set_names_ok image handler m : msg_ok m -> msg_ok (set_names image handler m).
Proof.
  intros H. pose proof (ok_image _ H) as H1. pose proof (ok_handler _ H) as H2. destruct H.
  constructor; try done; cbn [set_names cur_image hnd_name]; rewrite put_str_length; rewrite ?H1, ?H2; done || apply Nat.lt_0_succ.
Qed.

Lemma set_header_ok v s m : msg_ok m -> 0 <= v < 2 ^ 32 -> 0 <= s < 2 ^ 32 -> msg_ok (set_header v s m).
Proof. intros []. by constructor. Qed.

Lemma set_info_ok len text m :
  msg_ok m -> 0 <= len < Z.of_nat PRINFOSIZE -> length text = PRINFOSIZE -> msg_ok (set_info len text m).
Proof. intros []. by constructor. Qed.

Lemma drop_info_ok m : msg_ok m -> msg_ok (drop_info m).
Proof. intros H. apply set_info_ok; [done|done|apply H]. Qed.

Lemma put_info_ok text m : msg_ok m -> msg_ok (put_info text m).
Proof.
  intros H. pose proof (ok_info _ H) as Hi. unfold put_info.
  assert (0 < length (info m))%nat as Hpos by (rewrite Hi; apply Nat.lt_0_succ).
  apply set_info_ok; [done|rewrite <- Hi; by apply put_str_strlen|by rewrite put_str_length].
Qed.

Create HintDb progress.
#[local] Hint Resolve set_status_ok set_steps_ok set_download_ok set_names_ok set_header_ok drop_info_ok put_info_ok
  u32_range : progress.

(** ** What the clients receive *)

Lemma send_msg_prefix plan attempt buf :
  let '(sent, ok, _) := send_msg plan attempt buf in sent `prefix_of` buf /\ (ok = true -> sent = buf).
Proof.
  revert attempt buf. induction plan as [|e plan IH]; intros attempt [|b buf]; cbn [send_msg]; try done.
  destruct e as [n| | |]; try (split; [apply prefix_nil|done]).
  - specialize (IH 0%nat (drop (S n) (b :: buf))). destruct (send_msg plan 0 _) as [[sent ok] plan'].
    destruct IH as [Hp Hok]. rewrite <- (take_drop (S n) (b :: buf)) at 2 4. split.
    + by apply prefix_app.
    + intros H. by rewrite Hok.
  - destruct (S attempt <? maxAttempts)%nat; [apply IH|split; [apply prefix_nil|done]].
Qed.

Lemma send_to_spec bs c :
  let '(c', ok) := send_to bs c in
  sockfd c' = sockfd c /\
  exists part, received c' = received c ++ part /\ part `prefix_of` bs /\ (ok = true -> part = bs).
Proof.
  unfold send_to. pose proof (send_msg_prefix (sends c) 0 bs) as H.
  destruct (send_msg (sends c) 0 bs) as [[sent ok] plan]. destruct H as [Hp Hok].
  split; [done|]. by exists sent.
Qed.

(** After the bytes [bs] were broadcast to the clients [l]: those that stay have got all of them, those that are gone
    a part. *)
Inductive delivered (bs : bytes) : list progress_conn -> list progress_conn -> list progress_conn -> Prop :=
  | delivered_nil : delivered bs [] [] []
  | delivered_stay c c' l l' gone :
      sockfd c' = sockfd c -> received c' = received c ++ bs -> delivered bs l l' gone ->
      delivered bs (c :: l) (c' :: l') gone
  | delivered_gone c c' part l l' gone :
      sockfd c' = sockfd c -> received c' = received c ++ part -> part `prefix_of` bs -> delivered bs l l' gone ->
      delivered bs (c :: l) l' (c' :: gone).

Lemma send_delivered bs l :
  let res := send_to bs <$> l in
  delivered bs l (filter (fun r : progress_conn * bool => r.2 = true) res).*1
    (filter (fun r : progress_conn * bool => r.2 = false) res).*1.
Proof.
  induction l as [|c l IH]; [constructor|]. cbv zeta. rewrite fmap_cons, !filter_cons.
  pose proof (send_to_spec bs c) as H. destruct (send_to bs c) as [c' ok]. cbn [snd].
  destruct H as (Hs & part & Hr & Hp & Hok). destruct ok.
  - rewrite decide_True, decide_False by done. rewrite fmap_cons. apply delivered_stay; [done| |done].
    by rewrite <- Hok.
  - rewrite decide_False, decide_True by done. rewrite fmap_cons. by eapply delivered_gone.
Qed.

Lemma delivered_none l : delivered [] l l [].
Proof. induction l as [|c l IH]; constructor; [done|by rewrite app_nil_r|done]. Qed.

Lemma delivered_app bs1 bs2 l l1 l2 g1 g2 :
  delivered bs1 l l1 g1 -> delivered bs2 l1 l2 g2 -> exists g, delivered (bs1 ++ bs2) l l2 g /\ g ≡ₚ g1 ++ g2.
Proof.
  intros H. revert l2 g2. induction H as [|c c' l l' gone Hs Hr _ IH|c c' part l l' gone Hs Hr Hp _ IH]; intros l2 g2 H2.
  - inversion H2; subst. exists []. split; [constructor|done].
  - inversion H2 as [|? c2 ? l3 ? Hs2 Hr2 H3|? c2 part ? l3 gone2 Hs2 Hr2 Hp2 H3]; subst.
    + destruct (IH _ _ H3) as (g & Hg & Hp). exists g. split; [|done].
      constructor; [congruence|by rewrite Hr2, Hr, app_assoc|done].
    + destruct (IH _ _ H3) as (g & Hg & Hp). exists (c2 :: g). split.
      * eapply delivered_gone; [congruence|by rewrite Hr2, Hr, <- app_assoc|by apply prefix_app|done].
      * rewrite Hp. by rewrite <- Permutation_middle.
  - destruct (IH _ _ H2) as (g & Hg & Hp2). exists (c' :: g). split; [|by rewrite Hp2].
    eapply delivered_gone; [done|done|by apply prefix_app_r|done].
Qed.

(** The clients [l] that were there at the start, among those there at the end and those gone. *)
Definition all_delivered (bs : bytes) (l l' gone : list progress_conn) : Prop :=
  exists l1 l2 g1 g2, l' = l1 ++ l2 /\ gone ≡ₚ g1 ++ g2 /\ delivered bs l l1 g1.

Lemma delivered_split bs l1 l2 l' g :
  delivered bs (l1 ++ l2) l' g ->
  exists l1' l2' g1 g2, l' = l1' ++ l2' /\ g = g1 ++ g2 /\ delivered bs l1 l1' g1.
Proof.
  revert l' g. induction l1 as [|c l1 IH]; cbn; intros l' g H; [exists [], l', [], g; split_and!; [done..|constructor]|].
  inversion H as [|? c2 ? l3 ? Hs2 Hr2 H3|? c2 part ? l3 gone2 Hs2 Hr2 Hp2 H3]; subst;
    destruct (IH _ _ H3) as (l1' & l2' & g1 & g2 & -> & -> & Hd).
  - exists (c2 :: l1'), l2', g1, g2. split_and!; [done..|by constructor].
  - exists l1', l2', (c2 :: g1), g2. split_and!; [done..|by eapply delivered_gone].
Qed.

Lemma all_delivered_app bs1 bs2 l l1 l2 g1 g2 :
  all_delivered bs1 l l1 g1 -> all_delivered bs2 l1 l2 g2 -> all_delivered (bs1 ++ bs2) l l2 (g1 ++ g2).
Proof.
  intros (a & a' & ga & ga' & -> & Hg & Ha) (b & b' & gb & gb' & -> & Hg2 & Hb).
  apply delivered_split in Hb as (c & c' & gc & gc' & -> & -> & Hc).
  destruct (delivered_app _ _ _ _ _ _ _ Ha Hc) as (g & Hd & Hp).
  exists c, (c' ++ b'), g, (ga' ++ gc' ++ gb'). split_and!; [by rewrite app_assoc| |done].
  rewrite Hg, Hg2, Hp. rewrite <- !app_assoc. f_equiv. rewrite !app_assoc. do 2 f_equiv. apply Permutation_app_comm.
Qed.

(** A message as it leaves the daemon. *)
Definition sent_ok (m : progress_msg) : Prop := msg_ok m /\ apiversion m = PROGRESS_API_VERSION.

(** What every operation does, from the structure [p]. *)
Definition outcome_ok (p : swupdate_progress) (o : outcome) : Prop :=
  let '(p', gone, log) := o in
  msg_ok (msg p') /\ Forall sent_ok log /\ all_delivered (concat (encode <$> log)) (conns p) (conns p') gone.

Lemma quiet_ok p p' : msg_ok (msg p') -> conns p' = conns p -> outcome_ok p (quiet p').
Proof.
  intros Hm Hc. split_and!; [done|constructor|]. exists (conns p), [], [], [].
  rewrite app_nil_r. split_and!; [done..|apply delivered_none].
Qed.

Lemma next_ok p o f : outcome_ok p o -> (forall q, msg_ok (msg q) -> outcome_ok q (f q)) -> outcome_ok p (and_next o f).
Proof.
  destruct o as [[q gone] log]. intros (Hm & Hl & Hd) Hf. specialize (Hf q Hm). unfold and_next.
  destruct (f q) as [[r gone'] log']. destruct Hf as (Hm' & Hl' & Hd').
  split_and!; [done|by apply Forall_app|]. rewrite fmap_app, concat_app. by eapply all_delivered_app.
Qed.

Lemma then_set_ok p f o : (forall m, msg_ok m -> msg_ok (f m)) -> outcome_ok p o -> outcome_ok p (then_set f o).
Proof. intros Hf. destruct o as [[q gone] log]. intros (Hm & Hl & Hd). split_and!; [by apply Hf|done..]. Qed.

Section Outcomes.
Context (install_source : Z) (install_info : string).

Lemma send_ok p q : msg_ok (msg q) -> conns q = conns p -> outcome_ok p (send_progress_msg install_source q).
Proof.
  intros Hm Hc. set (m := stamped install_source q).
  assert (msg_ok m) as Hm'. { apply set_header_ok; [done..|]. destruct (conns q); [apply Hm|apply u32_range]. }
  split_and!; [done|by apply Forall_singleton|]. cbn [fmap list_fmap concat]. rewrite app_nil_r, <- Hc.
  exists (filter (fun r : progress_conn * bool => r.2 = true) (send_to (encode m) <$> conns q)).*1, [],
    (filter (fun r : progress_conn * bool => r.2 = false) (send_to (encode m) <$> conns q)).*1, [].
  rewrite !app_nil_r. split_and!; [done..|apply send_delivered].
Qed.

Lemma info_ok s cause text p : msg_ok (msg p) -> outcome_ok p (swupdate_progress_info install_source s cause text p).
Proof. intros H. apply then_set_ok; [apply drop_info_ok|]. apply send_ok; [cbn [msg set_msg]; auto with progress|done]. Qed.

Lemma download_ok perc total p : msg_ok (msg p) -> outcome_ok p (swupdate_download_update_ install_source perc total p).
Proof.
  intros H. unfold swupdate_download_update_. case_if; [by apply quiet_ok|]. apply send_ok; [|done].
  cbn [msg set_msg]. apply set_download_ok; [auto with progress..|]. by apply wrap_range.
Qed.

Lemma notifiers_ok c st event level text p :
  c ∈ core_notifiers install_source -> msg_ok (msg p) -> outcome_ok p (c st event level text p).
Proof.
  unfold core_notifiers. intros Hc H. rewrite !elem_of_cons in Hc. destruct Hc as [->|[->|[->|[]%not_elem_of_nil]]].
  - by apply quiet_ok.
  - unfold process_notifier. destruct st; try (by apply quiet_ok). by apply info_ok.
  - unfold progress_notifier. destruct st; try (by apply quiet_ok).
    destruct (if event =? RECOVERY_DWL then _ else _) as [[perc total]|]; [by apply download_ok|by apply info_ok].
Qed.

Lemma notify_ok l st event level text p o :
  (forall c, c ∈ l -> c ∈ core_notifiers install_source) -> outcome_ok p o ->
  outcome_ok p (foldl (fun o c => and_next o (c st event level text)) o l).
Proof.
  revert o. induction l as [|c l IH]; intros o Hl Ho; [done|]. cbn [foldl]. apply IH.
  - intros d Hd. apply Hl. by right.
  - apply next_ok; [done|]. intros q Hq. apply notifiers_ok; [|done]. apply Hl. by left.
Qed.

Lemma accept_ok mem fd plan p : msg_ok (msg p) -> outcome_ok p (progress_accept mem fd plan p).
Proof.
  intros H. unfold progress_accept. destruct mem; cbn [negb].
  - destruct (send_ack plan connect_ack) as [[sent ok] plan']. destruct ok.
    + split_and!; [done|constructor|]. exists (conns p), [mk_conn fd plan' sent], [], [].
      split_and!; [done..|apply delivered_none].
    + split_and!; [done|constructor|]. exists (conns p), [], [], [mk_conn fd plan' sent].
      rewrite app_nil_r. split_and!; [done..|apply delivered_none].
  - split_and!; [done|constructor|]. exists (conns p), [], [], [mk_conn fd plan []].
    rewrite app_nil_r. split_and!; [done..|apply delivered_none].
Qed.

Lemma perform_ok c p :
  msg_ok (msg p) -> outcome_ok p (perform install_source install_info (core_notifiers install_source) c p).
Proof.
  intros H. destruct c; cbn [perform].
  - unfold swupdate_progress_init. destruct (get_install_info _ _) as [len text] eqn:E.
    apply then_set_ok; [apply drop_info_ok|]. apply send_ok; [|done]. cbn [msg set_msg].
    apply set_header_ok; [|done|apply u32_range]. unfold get_install_info in E.
    injection E as <- <-. cbn [info set_status set_steps]. pose proof (ok_info _ H) as Hi. apply set_info_ok.
    + apply set_status_ok, set_steps_ok; [done|apply u32_range|done|done].
    + rewrite Hi. unfold PRINFOSIZE. lia.
    + rewrite put_length; [done|]. rewrite length_take. lia.
  - apply quiet_ok; [|done]. apply set_steps_ok; [done|apply u32_range|apply H|apply H].
  - unfold swupdate_progress_update. case_if; [|by apply quiet_ok]. apply send_ok; [|done]. cbn [msg set_msg].
    apply set_steps_ok; [auto with progress|apply H|apply H|apply u32_range].
  - by apply download_ok.
  - apply send_ok; [|done]. cbn [msg set_msg set_running]. apply set_status_ok, set_names_ok, set_steps_ok;
      [done|apply H|apply u32_range|done].
  - apply quiet_ok; [|done]. cbn. by apply set_status_ok.
  - apply then_set_ok; [intros m Hm; apply set_download_ok; [by apply set_steps_ok|done|done]|].
    apply send_ok; [|done]. cbn. by apply set_status_ok.
  - by apply info_ok.
  - apply then_set_ok; [apply drop_info_ok|]. apply send_ok; [|done]. cbn. apply set_status_ok.
    destruct text; [by apply put_info_ok|done].
  - apply notify_ok; [done|by apply quiet_ok].
  - by apply accept_ok.
Qed.
End Outcomes.

Lemma perform_all_ok src inf cs p :
  msg_ok (msg p) -> outcome_ok p (perform_all src inf (core_notifiers src) cs p).
Proof.
  intros Hp. unfold perform_all. assert (outcome_ok p (quiet p)) as Hq by (by apply quiet_ok).
  revert Hq. generalize (quiet p) as o. induction cs as [|c cs IH]; intros o Ho; [done|]. cbn [foldl].
  apply IH. apply next_ok; [done|]. intros q Hq. by apply perform_ok.
Qed.

(** Whatever the installer and the other processes report, and whatever happens on the sockets, every client of the
    progress interface that is still connected has received all messages that were broadcast since it was
    there, complete and in order, and every client that was dropped a beginning of them; all messages
    have their members in range and the version of the interface. *)
Theorem progress_delivered src inf cs p p' gone log :
  msg_ok (msg p) ->
  perform_all src inf (core_notifiers src) cs p = (p', gone, log) ->
  msg_ok (msg p') /\ Forall sent_ok log /\ all_delivered (concat (encode <$> log)) (conns p) (conns p') gone.
Proof.
  intros Hp H. pose proof (perform_all_ok src inf cs p Hp) as Ho. by rewrite H in Ho.
Qed.

(** ** What a client makes of it *)

Lemma receive_message m rest f buf :
  sent_ok m -> length buf = MSG_SIZE ->
  progress_ipc_receive (rd_block (encode m ++ rest) ++ f) buf = (Z.of_nat MSG_SIZE, true, encode m, rd_block rest ++ f).
Proof.
  intros [Hm Hv] Hb. pose proof (encode_length m Hm) as Hl.
  assert (rd_block (encode m ++ rest) ++ f = match encode m ++ rest with [] => [] | b :: bs => RdData b bs :: f end) as ->.
  { by destruct (encode m). }
  assert (take MSG_SIZE (encode m ++ rest) = encode m) as Ht by (rewrite <- Hl; apply take_app_length).
  assert (drop MSG_SIZE (encode m ++ rest) = rest) as Hd by (rewrite <- Hl; apply drop_app_length).
  destruct (encode m ++ rest) as [|b bs] eqn:E; [by destruct (encode m)|].
  unfold progress_ipc_receive. rewrite Ht, Hd, Hl. unfold put. rewrite Hl, <- Hb, drop_all, app_nil_r, Hb.
  assert (of_le (take 4 (encode m)) = PROGRESS_API_VERSION) as ->.
  { unfold encode. rewrite take_app_le, take_ge by (rewrite le_length; lia). rewrite Hv. done. }
  done.
Qed.

Lemma receive_all_sent log f buf :
  Forall sent_ok log -> length buf = MSG_SIZE ->
  receive_all (length log) (rd_block (concat (encode <$> log)) ++ f) buf = (log, f).
Proof.
  intros H. revert buf. induction H as [|m log Hm _ IH]; intros buf Hb; [done|].
  cbn [length receive_all]. rewrite fmap_cons. cbn [concat]. rewrite receive_message by done.
  rewrite Z.eqb_refl, IH by (apply encode_length, Hm). by rewrite decode_encode by apply Hm.
Qed.

Lemma send_ack_sent plan buf sent plan' : send_ack plan buf = (sent, true, plan') -> sent = buf.
Proof.
  revert buf sent. induction plan as [|e plan IH]; intros [|b buf] sent; cbn [send_ack]; try (by intros [= <- <-]).
  destruct e as [n| | |]; try done.
  - destruct (send_ack plan _) as [[s ok] pl] eqn:E. intros [= <- -> <-]. rewrite (IH _ _ E).
    exact (take_drop (S n) (b :: buf)).
  - apply IH.
Qed.

Lemma delivered_last bs l c l' gone :
  delivered bs (l ++ [c]) l' gone ->
  exists c', sockfd c' = sockfd c /\
    ((c' ∈ l' /\ received c' = received c ++ bs) \/
     (c' ∈ gone /\ exists part, received c' = received c ++ part /\ part `prefix_of` bs)).
Proof.
  revert l' gone. induction l as [|d l IH]; cbn; intros l' gone H.
  - inversion H as [|? c2 ? l3 ? Hs2 Hr2 H3|? c2 part ? l3 gone2 Hs2 Hr2 Hp2 H3]; subst; exists c2; split; try done.
    + left. split; [by left|done].
    + right. split; [by left|by exists part].
  - inversion H as [|? c2 ? l3 ? Hs2 Hr2 H3|? c2 part ? l3 gone2 Hs2 Hr2 Hp2 H3]; subst;
      destruct (IH _ _ H3) as (c' & Hs & [[Hin Hr]|[Hin Hr]]); exists c'; split; try done.
    + left. split; [by right|done].
    + right. by split.
    + left. by split.
    + right. split; [by right|done].
Qed.

(** What a client that reads the bytes [bs] gets from connecting and from [n] calls for a message. *)
Definition client_view (bs : bytes) (n : nat) (buf : bytes) : option Z * list progress_msg :=
  (progress_ipc_wait_for_ack (bytes_left (take ACK_SIZE bs)), (receive_all n (rd_block (drop ACK_SIZE bs)) buf).1).

(** A client that connects sees the update as the daemon reports it: once its connection was accepted, and
    unless it is dropped because it does not read, the client finds the acknowledgment and then gets,
    message by message, exactly what the installer and the other processes reported. *)
Theorem progress_end_to_end src inf cs fd plan p q p' gone log buf :
  msg_ok (msg p) -> length buf = MSG_SIZE ->
  progress_accept true fd plan p = (q, [], []) ->
  perform_all src inf (core_notifiers src) cs q = (p', gone, log) ->
  exists c, sockfd c = fd /\
    ((c ∈ conns p' /\ client_view (received c) (length log) buf = (Some 0, log)) \/
     (c ∈ gone /\ received c `prefix_of` connect_ack ++ concat (encode <$> log))).
Proof.
  intros Hm Hb Ha Hc. unfold progress_accept in Ha. cbn [negb] in Ha.
  destruct (send_ack plan connect_ack) as [[sent ok] plan'] eqn:E. destruct ok; [|done]. injection Ha as <-.
  apply send_ack_sent in E as ->.
  match type of Hc with perform_all _ _ _ _ ?q = _ => pose proof (perform_all_ok src inf cs q Hm) as Ho end.
  rewrite Hc in Ho. destruct Ho as (_ & Hl & l1 & l2 & g1 & g2 & E1 & Hg & Hd). cbn [conns] in Hd.
  destruct (delivered_last _ _ _ _ _ Hd) as (c & Hs & [[Hin Hr]|[Hin (part & Hr & Hp)]]); exists c; (split; [done|]);
    cbn [received] in Hr.
  - left. split; [rewrite E1; apply elem_of_app; by left|]. rewrite Hr. unfold client_view. f_equal.
    change (drop ACK_SIZE (connect_ack ++ concat (encode <$> log))) with (concat (encode <$> log)).
    by rewrite <- (app_nil_r (rd_block _)), receive_all_sent.
  - right. split; [rewrite Hg; apply elem_of_app; by left|]. rewrite Hr. by apply prefix_app.
Qed.

(** ** Reports of other processes *)

Lemma and_next_quiet p f : and_next (quiet p) f = f p.
Proof. unfold and_next, quiet. by destruct (f p) as [[q gone] log]. Qed.

Lemma and_next_id o : and_next o quiet = o.
Proof. destruct o as [[q gone] log]. unfold and_next, quiet. by rewrite !app_nil_r. Qed.

Lemma u32_i32 z : u32 (i32 z) = u32 z.
Proof.
  unfold wrap, swrap. rewrite Zminus_mod, Zmod_mod, <- Zminus_mod. f_equal. lia.
Qed.

Lemma i32_range z : - 2 ^ 31 <= i32 z < 2 ^ 31.
Proof. unfold swrap. pose proof (Z.mod_pos_bound (z + 2 ^ (32 - 1)) (2 ^ 32) ltac:(lia)). cbn in *. lia. Qed.

Lemma scan_download_printed v w :
  - 2 ^ 31 <= v < 2 ^ 31 -> 0 <= w < 2 ^ 64 -> scan_download (print_d v +:+ "-" +:+ print_d w) = Some (v, w).
Proof.
  intros Hv Hw. unfold scan_download.
  assert (scan_number 10 (print_d v +:+ "-" +:+ print_d w) = Some (v <? 0, Z.abs v, "-" +:+ print_d w)) as ->.
  { unfold print_d at 1. unfold print_base. destruct (Z.ltb_spec v 0).
    - rewrite str_app_assoc, print_digits_app, str_app_nil_l. rewrite (Z.abs_neq v) by lia.
      apply (scan_number_digits true); [lia|done].
    - rewrite print_digits_app, str_app_nil_l, (Z.abs_eq v) by lia.
      apply (scan_number_digits false v ("-" +:+ print_d w)); [lia|done]. }
  rewrite str_app_cons, str_app_nil_l, scan_number_print_d by lia.
  f_equal. f_equal.
  - replace (if v <? 0 then - Z.abs v else Z.abs v) with v by (destruct (Z.ltb_spec v 0); lia).
    unfold clamp, LONG_MIN, LONG_MAX. rewrite swrap_small by lia. lia.
  - unfold strtoull. rewrite scan_number_print_d by lia.
    rewrite (proj2 (Z.leb_le _ _)); [done|unfold ULONG_MAX; lia].
Qed.

(** The progress of a download that another process makes reaches the clients as if the core process had reported
    it: the text that carries it is read back to the same percentage and the same number of bytes, and none
    of the other notifiers takes it for something else. *)
Theorem child_download_forwarded src perc total p :
  (m ← download_update_child true perc total; Some (notifier_receive (core_notifiers src) m p)) =
  Some (swupdate_download_update_ src perc total p).
Proof.
  unfold download_update_child, notify_child. cbn [mbind option_bind default].
  set (text := print_d (i32 perc) +:+ "-" +:+ print_d (u64 total)).
  assert (strlen text <= 131) as Hl.
  { unfold text. rewrite !strlen_app. pose proof (print_d_length (i32 perc)). pose proof (print_d_length (u64 total)).
    change (strlen "-") with 1. lia. }
  rewrite !(strlcpy_fits text) by (unfold NOTIFY_BUF_SIZE, PRINFOSIZE; lia). f_equal.
  unfold notifier_receive, notify, core_notifiers. cbn [foldl nm_status nm_error nm_level nm_buf].
  rewrite and_next_quiet. unfold console_notifier, process_notifier. rewrite and_next_quiet, and_next_quiet.
  unfold progress_notifier. rewrite Z.eqb_refl. change (shown (Some text)) with text. unfold text.
  rewrite scan_download_printed by (apply i32_range || by apply wrap_range).
  unfold swupdate_download_update_. by rewrite u32_i32, wrap_wrap.
Qed.

(** ** Examples *)

(** The structure when the program starts. *)
Definition progress_start : swupdate_progress :=
  mk_progress (mk_pmsg 0 0 0 0 0 0 0 (replicate CUR_IMAGE_SIZE NUL) (replicate HND_NAME_SIZE NUL) 0 0 (replicate PRINFOSIZE NUL))
    [] false.

Lemma progress_start_ok : msg_ok (msg progress_start).
Proof. constructor; done. Qed.

(** An update of one image, with a client that reads slowly and one that is gone. *)
Definition one_image : list call :=
  [PInit 1; PIncStep "rootfs.img" "raw"; PUpdate 50; PUpdate 100; PStepCompleted; PEnd SUCCESS].

Definition slow_client : progress_conn := mk_conn 7 [SendAgain; SendN 99; SendAgain; SendAgain; SendN 700] connect_ack.
Definition dead_client : progress_conn := mk_conn 8 [SendN 500; SendErr] connect_ack.

Definition two_clients : swupdate_progress := mk_progress (msg progress_start) [slow_client; dead_client] false.

Definition one_image_end : outcome := perform_all 1 "" (core_notifiers 1) one_image two_clients.

Lemma progress_delivered_witness :
  Forall sent_ok one_image_end.2 /\
  all_delivered (concat (encode <$> one_image_end.2)) (conns two_clients) (conns one_image_end.1.1) one_image_end.1.2.
Proof.
  unfold one_image_end. destruct (perform_all 1 "" (core_notifiers 1) one_image two_clients) as [[p' gone] log] eqn:E.
  exact (proj2 (progress_delivered 1 "" one_image two_clients p' gone log progress_start_ok E)).
Defined.

(** The client that reads slowly stays and the other one does not. *)
Lemma one_image_clients :
  (sockfd <$> conns one_image_end.1.1, sockfd <$> one_image_end.1.2, length one_image_end.2) = ([7%nat], [8%nat], 5%nat).
Proof. vm_compute. reflexivity. Qed.

(** A client that connects while nothing runs. *)
Definition accepted : swupdate_progress :=
  mk_progress (msg progress_start) [mk_conn 9 [SendN 1000; SendAgain] connect_ack] false.

Lemma progress_end_to_end_witness :
  let o := perform_all 1 "" (core_notifiers 1) one_image accepted in
  exists c, sockfd c = 9%nat /\
    ((c ∈ conns o.1.1 /\ client_view (received c) (length o.2) (replicate MSG_SIZE NUL) = (Some 0, o.2)) \/
     (c ∈ o.1.2 /\ received c `prefix_of` connect_ack ++ concat (encode <$> o.2))).
Proof.
  destruct (perform_all 1 "" (core_notifiers 1) one_image accepted) as [[p' gone] log] eqn:E.
  exact (progress_end_to_end 1 "" one_image 9 [SendN 1; SendIntr; SendN 6; SendN 1000; SendAgain] progress_start accepted
    p' gone log (replicate MSG_SIZE NUL) progress_start_ok eq_refl eq_refl E).
Defined.

(** ** Where the code departs from what it means *)

(** The five seconds a client waits for the acknowledgment are reduced at every turn by the whole time since the
    start. After a signal or two the rest is negative, which [poll] takes as no limit: the client then
    waits as long as the daemon is silent, here any time [d]. *)
Theorem ack_wait_unlimited d :
  progress_ipc_wait_for_ack ([(3000000000, PollIntr); (1500000000, PollIntr); (d, PollIn (hd NUL connect_ack) (tail connect_ack))]) = Some 0.
Proof. reflexivity. Qed.

(** The same daemon without a signal is given up after five seconds. *)
Theorem ack_wait_limited : progress_ipc_wait_for_ack [(5000000001, PollIn (hd NUL connect_ack) (tail connect_ack))] = Some (- ETIME).
Proof. reflexivity. Qed.

(** Another condition on the socket is no end of the loop, and the result is still the error when the
    acknowledgment has come. *)
Theorem poll_condition_kept n :
  progress_ipc_wait_for_ack (replicate n (0, PollOther) ++ [(0, PollOther); (0, PollIn (hd NUL connect_ack) (tail connect_ack))]) =
  Some (- EOPNOTSUPP).
Proof.
  unfold progress_ipc_wait_for_ack, progress_ipc_recv_ack.
  assert (forall ret, recv_ack_loop (replicate n (0, PollOther) ++ [(0, PollOther); (0, PollIn (hd NUL connect_ack) (tail connect_ack))])
    0 5000 ret [] = Some (- EOPNOTSUPP, connect_ack)) as H; [|by rewrite H].
  induction n as [|n IH]; intros ret; [reflexivity|]. cbn [replicate app recv_ack_loop]. apply IH.
Qed.

(** An error of [read] is compared with a size as a huge number: with a buffer that does not hold the version the
    result is the one for a wrong version, and the connection is not closed. *)
Theorem read_error_taken_for_version f :
  progress_ipc_receive (RdErr :: f) (replicate MSG_SIZE NUL) = (- EBADMSG, true, replicate MSG_SIZE NUL, f).
Proof. reflexivity. Qed.

(** The daemon sends a message in parts when the socket has no room for it; the client takes the first part
    for an error and closes the connection. *)
Theorem partial_message_closes m n f buf :
  sent_ok m -> (4 < n < MSG_SIZE)%nat -> length buf = MSG_SIZE ->
  (progress_ipc_receive (rd_block (take n (encode m)) ++ rd_block (drop n (encode m)) ++ f) buf).1.1 = (-1, false).
Proof.
  intros [Hm Hv] Hn Hb. pose proof (encode_length m Hm) as Hl.
  assert (length (take n (encode m)) = n) as Hn' by (rewrite length_take; lia).
  assert (take 4 (encode m) = le 4 PROGRESS_API_VERSION) as Ht.
  { unfold encode. rewrite take_app_le, take_ge by (rewrite le_length; lia). by rewrite Hv. }
  destruct (take n (encode m)) as [|b bs] eqn:E; [cbn in Hn'; lia|].
  cbn [rd_block app progress_ipc_receive]. rewrite (take_ge (b :: bs)) by lia. rewrite Hn'. unfold put.
  assert (take 4 ((b :: bs) ++ drop (length (b :: bs)) buf) = le 4 PROGRESS_API_VERSION) as ->.
  { rewrite take_app_le by lia. rewrite <- E, take_take, Nat.min_l by lia. done. }
  change (of_le (le 4 PROGRESS_API_VERSION) =? PROGRESS_API_VERSION) with true. rewrite andb_false_r.
  rewrite (proj2 (Z.eqb_neq _ _)) by lia. done.
Qed.

(** The steps are announced as one per image and two per script. When the script after the installation
    fails, it is run once more to tell it so: the third step of two. *)
Theorem steps_exceed_total :
  exists m, last (perform_all 1 "" (core_notifiers 1)
      [PInit (0 + 2 * 1); PIncStep "s.sh" "shellscript"; PStepCompleted; PIncStep "s.sh" "shellscript"; PStepCompleted;
       PIncStep "s.sh" "shellscript"] progress_start).2 = Some m /\ (nsteps m, cur_step m) = (2, 3).
Proof. eexists. split; vm_compute; reflexivity. Qed.
