(* ===== verification/Ebg.v ===== *)
(** * EFI Boot Guard and CBoot: [bootloader/ebg.c], [bootloader/cboot.c]

    The two back ends work on libraries that are not part of SWUpdate. EFI Boot Guard keeps several
    environments, the boot paths, and boots the one with the highest revision; changes are
    collected in a working copy in memory, the transaction, and written as a new boot path
    when the state [STATE_INSTALLED] is set. *)
From stdpp Require Import gmap.
From S2P Require Import Prelude CString Util Versions Dict Handler Bootloader Grub State Vars Crypto Keys Cpio.
From S2P Require Import Copyfile Image Installer Stream.

Module Ebg.
Section Ebg.
(** libebgenv on its state [L], which is [ebgenv_t] and the disks. [env_get] without a buffer is
    [env_size]; [env_delete] is [env_set_ex] with the type of deleted variables. *)
Context {L : Type}.
Record libebg := mk_libebg {
  env_create_new : L -> Z * L;
  env_open_current : L -> Z * L;
  env_size : L -> string -> Z;
  env_value : L -> string -> Z * bytes;
  lib_env_set : L -> string -> string -> Z * L;
  env_delete : L -> string -> Z * L;
  env_getglobalstate : L -> Z;
  env_setglobalstate : L -> Z -> Z * L;
  env_close : L -> Z * L;
  env_finalize_update : L -> Z * L;
}.
Variable lib : libebg.
(** Allocations succeed. *)
Variable mem : bool.

Definition EBGENV_IN_PROGRESS : string := "in_progress".
Definition EBGENV_REVISION : string := "revision".
Definition EBGENV_USTATE : string := "ustate".

(** [ebgenv] and [inflight]. *)
Record ebgenv := mk_ebgenv {
  ebg_lib : L;
  inflight : bool;
}.

Definition same (s1 s2 : string) : bool := strcmp s1 s2 =? 0.

(** [_env_get]. *)
Definition lib_env_get (name : string) (l : L) : option string :=
  let size := env_size lib l name in
  if size <=? 0 then None
  else if negb mem then None
  else
    let '(result, value) := env_value lib l name in
    if negb (result =? 0) then None
    else
      match value !! Z.to_nat (size - 1) with
      | Some c => if Ascii.eqb c NUL
                  then Some (str_span (fun c => negb (Ascii.eqb c NUL)) (String.string_of_list_ascii value))
                  else None
      | None => None
      end.

Definition UINT32_MAX : Z := 4294967295.
Definition UINT8_MAX : Z := 255.

Definition env_to_uint32 (value : option string) : Z :=
  match value with
  | None => UINT32_MAX
  | Some value => let '(v, _, errno) := strtoull value 10 in if negb (errno =? 0) then UINT32_MAX else u32 v
  end.

Definition ascii_to_uint8 (value : Z) : Z := u8 (value - 48).
Definition uint8_to_ascii (value : Z) : Z := u8 (value + 48).

(** The environment that is opened stays open; opening it again changes nothing, and every operation
    opens it first, so that the state after a reading access is not kept. *)
Definition ebg_do_env_get (name : string) (s : ebgenv) : option string :=
  let '(result, l) := env_open_current lib (ebg_lib s) in
  if negb (result =? 0) then None
  else if negb (inflight s) && same name EBGENV_USTATE then
    if mem then Some (print_d (env_getglobalstate lib l)) else None
  else lib_env_get name l.

Definition create_new_environment (l : L) (inflight : bool) : Z * ebgenv :=
  if inflight then (0, mk_ebgenv l inflight)
  else
    let revision := env_to_uint32 (lib_env_get EBGENV_REVISION l) in
    let in_progress := u8 (env_to_uint32 (lib_env_get EBGENV_IN_PROGRESS l)) in
    if (revision =? UINT32_MAX) || (in_progress =? UINT8_MAX) then (- EIO, mk_ebgenv l inflight)
    else if in_progress =? 1 then (0, mk_ebgenv l inflight)
    else
      let '(result, l) := env_create_new lib l in
      if negb (result =? 0) then (- result, mk_ebgenv l inflight)
      else
        let new_revision := env_to_uint32 (lib_env_get EBGENV_REVISION l) in
        if new_revision =? UINT32_MAX then (- EIO, mk_ebgenv l inflight)
        else if negb (u32 (revision + 1) =? new_revision) then (- ENOENT, mk_ebgenv l inflight)
        else (0, mk_ebgenv l true).

(** The acknowledgment of an update, [ustate] = [STATE_OK] outside of a transaction. *)
Definition acknowledge (value : string) (l : L) : Z * L :=
  let global_ustate := uint8_to_ascii (u8 (env_getglobalstate lib l)) in
  if global_ustate =? STATE_NOT_AVAILABLE then (- EIO, l)
  else
    let current_ustate := uint8_to_ascii (u8 (env_to_uint32 (lib_env_get EBGENV_USTATE l))) in
    if negb (is_valid_state current_ustate) then (- EIO, l)
    else if global_ustate =? STATE_FAILED then
      let '(result, l) := env_setglobalstate lib l (ascii_to_uint8 STATE_OK) in
      if negb (result =? 0) then (result, l)
      else if current_ustate =? STATE_OK then (0, l)
      else lib_env_set lib l EBGENV_USTATE (String (ascii_of_Z current_ustate) "")
    else if current_ustate =? STATE_TESTING then
      let '(result, l) := lib_env_set lib l EBGENV_USTATE value in
      if negb (result =? 0) then (result, l)
      else let '(result, l) := env_close lib l in (- result, l)
    else (- EINVAL, l).

(** What may be set without a transaction: it is started or an update is acknowledged. *)
Definition allowed (name value : string) : bool :=
  if same name BOOTVAR_TRANSACTION then same value (get_state_string STATE_IN_PROGRESS)
  else same name EBGENV_USTATE && ((first_char value =? STATE_OK) || (first_char value =? STATE_IN_PROGRESS)).

(** [ustate] with the environment open. *)
Definition set_ustate (value : string) (l : L) (inflight : bool) : Z * ebgenv :=
  let c := first_char value in
  let keep '(result, l) := (result, mk_ebgenv l inflight) in
  if c =? STATE_IN_PROGRESS then create_new_environment l inflight
  else if c =? STATE_OK then
    keep (if inflight then lib_env_set lib l EBGENV_USTATE value else acknowledge value l)
  else if c =? STATE_INSTALLED then
    let '(result, l) := env_finalize_update lib l in
    if negb (result =? 0) then (- result, mk_ebgenv l inflight)
    else
      let '(result, l) := env_close lib l in
      if negb (result =? 0) then (- result, mk_ebgenv l inflight) else (0, mk_ebgenv l false)
  else if c =? STATE_FAILED then (0, mk_ebgenv l inflight)
  else (- EINVAL, mk_ebgenv l inflight).

Definition ebg_do_env_set (name value : string) (s : ebgenv) : Z * ebgenv :=
  if negb (inflight s) && negb (allowed name value) then (- EINVAL, s)
  else
    let '(result, l) := env_open_current lib (ebg_lib s) in
    let keep '(result, l) := (result, mk_ebgenv l (inflight s)) in
    if negb (result =? 0) then keep (- result, l)
    else if same name BOOTVAR_TRANSACTION then
      if same value (get_state_string STATE_IN_PROGRESS) then create_new_environment l (inflight s)
      else if same value (get_state_string STATE_FAILED) || same value (get_state_string STATE_INSTALLED) ||
              same value (get_state_string STATE_OK)
      then keep (lib_env_set lib l EBGENV_IN_PROGRESS "0")
      else keep (- EINVAL, l)
    else if same name EBGENV_USTATE then set_ustate value l (inflight s)
    else keep (lib_env_set lib l name value).

Definition ebg_do_env_unset (name : string) (s : ebgenv) : Z * ebgenv :=
  let '(result, l) := env_open_current lib (ebg_lib s) in
  let s := mk_ebgenv l (inflight s) in
  if negb (result =? 0) then (- result, s)
  else if same name EBGENV_USTATE then ebg_do_env_set EBGENV_USTATE (state_string STATE_OK) s
  else if same name BOOTVAR_TRANSACTION then ebg_do_env_set EBGENV_IN_PROGRESS "0" s
  else let '(result, l) := env_delete lib l name in (result, mk_ebgenv l (inflight s)).

(** The loop over the lines of the file, up to the first that fails. *)
Fixpoint ebg_apply_lines (lines : list string) (s : ebgenv) : Z * ebgenv :=
  match lines with
  | [] => (0, s)
  | line :: lines =>
      let '(key, rest) := strtok_r line "=" in
      let '(value, _) := strtok_r rest (String "009" (String nl "")) in
      match key, value with
      | Some key, Some value =>
          let '(result, s) := ebg_do_env_set key value s in
          if negb (result =? 0) then (result, s) else ebg_apply_lines lines s
      | _, _ => ebg_apply_lines lines s
      end
  end.

Definition ebg_do_apply_list (file : option string) (s : ebgenv) : Z * ebgenv :=
  match file with
  | None => (- EIO, s)
  | Some text => ebg_apply_lines (getlines text) s
  end.

Definition ebg : bootloader ebgenv :=
  mk_bootloader ebg_do_env_set ebg_do_env_unset ebg_do_env_get ebg_do_apply_list.

(** [probe], once the library was loaded. *)
Definition ebg_probe (STATE_KEY : string) : option (bootloader ebgenv) :=
  if same STATE_KEY EBGENV_USTATE then Some ebg else None.

(** * Properties *)

(** Only [env_close] and [env_setglobalstate] write to the disks; everything else works on the
    copy in memory. *)
Class EbgSpec := {
  Disk : Type;
  disk : L -> Disk;
  open_disk : forall l, disk (env_open_current lib l).2 = disk l;
  set_disk : forall l n v, disk (lib_env_set lib l n v).2 = disk l;
  delete_disk : forall l n, disk (env_delete lib l n).2 = disk l;
  create_disk : forall l, disk (env_create_new lib l).2 = disk l;
  finalize_disk : forall l, disk (env_finalize_update lib l).2 = disk l;
}.

Context {spec : EbgSpec}.
#[local] Abbreviation on_disk s := (disk (ebg_lib s)).

Lemma create_on_disk l b : on_disk (create_new_environment l b).2 = disk l.
Proof.
  unfold create_new_environment. pose proof (create_disk l) as H.
  destruct (env_create_new lib l) as [r l']. cbn in H. by repeat case_if.
Qed.

(** A change that reaches the disks outside of the two states that are meant to. *)
Definition writes (name value : string) (s : ebgenv) : bool :=
  same name EBGENV_USTATE &&
  (if inflight s then first_char value =? STATE_INSTALLED else first_char value =? STATE_OK).

Lemma set_ustate_disk v l (b : bool) :
  (if b then first_char v =? STATE_INSTALLED else first_char v =? STATE_OK) = false ->
  b || ((first_char v =? STATE_OK) || (first_char v =? STATE_IN_PROGRESS)) = true ->
  on_disk (set_ustate v l b).2 = disk l.
Proof.
  intros Hw Ha. unfold set_ustate.
  case_if; [apply create_on_disk|]. destruct (first_char v =? STATE_OK) eqn:Hok.
  - destruct b; [|done].
    pose proof (set_disk l EBGENV_USTATE v) as H. by destruct (lib_env_set lib l EBGENV_USTATE v).
  - destruct (first_char v =? STATE_INSTALLED) eqn:Hi; [|by case_if]. by destruct b.
Qed.

Lemma set_on_disk n v s : writes n v s = false -> on_disk (ebg_do_env_set n v s).2 = on_disk s.
Proof.
  intros Hw. unfold ebg_do_env_set. destruct (negb (inflight s) && negb (allowed n v)) eqn:Ha; [done|].
  pose proof (open_disk (ebg_lib s)) as Ho. destruct (env_open_current lib (ebg_lib s)) as [r l]. cbn in Ho.
  assert (forall k x, on_disk (let '(result, l0) := lib_env_set lib l k x in (result, mk_ebgenv l0 (inflight s))).2
            = on_disk s) as Hs.
  { intros k x. pose proof (set_disk l k x) as H. destruct (lib_env_set lib l k x). cbn in *. congruence. }
  case_if; [done|]. destruct (same n BOOTVAR_TRANSACTION) eqn:Ht.
  { case_if; [by rewrite create_on_disk|]. case_if; [apply Hs|done]. }
  destruct (same n EBGENV_USTATE) eqn:Hu; [|apply Hs]. rewrite <- Ho. unfold writes in Hw. rewrite Hu in Hw. apply set_ustate_disk; [done|].
  unfold allowed in Ha. rewrite Ht, Hu in Ha. destruct (inflight s); [done|]. cbn in Ha |- *.
  by apply negb_false_iff in Ha.
Qed.

Lemma unset_on_disk n s : same n EBGENV_USTATE = false -> on_disk (ebg_do_env_unset n s).2 = on_disk s.
Proof.
  intros Hn. unfold ebg_do_env_unset. pose proof (open_disk (ebg_lib s)) as Ho.
  destruct (env_open_current lib (ebg_lib s)) as [r l]. cbn in Ho. case_if; [done|]. rewrite Hn.
  case_if; [by rewrite set_on_disk|]. pose proof (delete_disk l n) as H. destruct (env_delete lib l n).
  cbn in *. congruence.
Qed.

(** A list of variables without [ustate]. *)
Definition line_key (line : string) : option string := (strtok_r line "=").1.

Definition no_ustate (text : string) : bool :=
  forallb (fun line => match line_key line with Some k => negb (same k EBGENV_USTATE) | None => true end)
    (getlines text).

Lemma apply_on_disk file s :
  match file with Some t => no_ustate t | None => true end = true ->
  on_disk (ebg_do_apply_list file s).2 = on_disk s.
Proof.
  destruct file as [t|]; [|done]. unfold no_ustate, ebg_do_apply_list. revert s.
  induction (getlines t) as [|line lines IH]; intros s; [done|]. cbn [forallb ebg_apply_lines].
  intros [Hk Hl]%andb_true_iff. unfold line_key in Hk. destruct (strtok_r line "=") as [key rest].
  destruct (strtok_r rest _) as [value rest']. cbn in Hk.
  destruct key as [key|]; [|by apply IH]. destruct value as [value|]; [|by apply IH].
  assert (writes key value s = false) as Hw.
  { unfold writes. apply negb_true_iff in Hk. by rewrite Hk. }
  pose proof (set_on_disk key value s Hw) as Hs. destruct (ebg_do_env_set key value s) as [r s'].
  cbn in Hs. case_if; [done|]. rewrite <- Hs. by apply IH.
Qed.

(** The markers of an update that is not installed yet. *)
Lemma save_on_disk ipc v s :
  v = STATE_IN_PROGRESS \/ v = STATE_FAILED -> on_disk (save_state ebg EBGENV_USTATE ipc false v s).2 = on_disk s.
Proof.
  intros [-> | ->]; unfold save_state, do_save_state; cbn -[ebg_do_env_set]; apply set_on_disk;
    unfold writes; by destruct (inflight s).
Qed.

Lemma transaction_on_disk ipc sw v s :
  v = STATE_IN_PROGRESS \/ v = STATE_FAILED ->
  on_disk (update_transaction_state ebg EBGENV_USTATE ipc sw v s).2 = on_disk s.
Proof.
  intros Hv. unfold update_transaction_state. set (s1 := if negb _ && _ then _ else s).
  assert (on_disk s1 = on_disk s) as H1.
  { unfold s1. case_if; [|done]. destruct Hv as [-> | ->]; cbn -[ebg_do_env_set]; by apply set_on_disk. }
  case_if; [|done]. rewrite <- H1. pose proof (save_on_disk ipc v s1 Hv) as H2.
  by destruct (save_state ebg EBGENV_USTATE ipc false v s1).
Qed.

(** ** An update *)

Section Update.
Context {V W C D X : Type}.
#[local] Abbreviation mach := (machine ebgenv V W).
Context (vars_apply_list : option string -> string -> V -> Z * V).
Context (lua_parser_fn : string -> img_type -> mach -> Z * img_type * mach).
Context (reg : registry (img_type -> handler_data -> mach -> Z * img_type * mach)).
Context (os : io) (TMPDIR tmpdir_scripts : string) (hl : hash_lib C) (dl : decrypt_lib D).
Context (zcfg : config (X := X)) (keys : option decryption_key) (fuel : nat) (ipc : Z -> Z * msgtype).
#[local] Abbreviation do_request := (install_request ebg vars_apply_list lua_parser_fn reg os TMPDIR tmpdir_scripts
  hl dl zcfg keys fuel EBGENV_USTATE ipc).
#[local] Abbreviation run := (run_installer ebg vars_apply_list lua_parser_fn reg os TMPDIR tmpdir_scripts
  hl dl zcfg keys fuel EBGENV_USTATE ipc).
#[local] Abbreviation installed := (update_transaction_state ebg EBGENV_USTATE ipc).

(** The list of variables that is written for the dictionary of the update does not have [ustate]. *)
Definition dict_no_ustate (m : mach) : Prop :=
  match (prepare_var_script (can_write os (TMPDIR +:+ BOOT_SCRIPT_SUFFIX)) (wr_short os) (m_bootdict m)).2 with
  | Some text => no_ustate text = true
  | None => True
  end.

Lemma install_on_disk sw (m : mach) ret sw' m' :
  keeps_env lua_parser_fn reg -> keeps lua_parser_fn reg dict_no_ustate -> dict_no_ustate m ->
  install_images ebg vars_apply_list lua_parser_fn reg os TMPDIR tmpdir_scripts hl dl zcfg keys fuel sw m
    = Some (ret, (sw', m')) ->
  on_disk (m_env m') = on_disk (m_env m).
Proof.
  intros He Hd Hm Hi.
  destruct (install_images_env_change _ _ _ _ _ _ _ _ _ _ _ _ _ _ _ _ _ He Hi)
    as [->|(_ & sw3 & m3 & text & Ha & _ & Ht & ->)]; [done|].
  apply apply_on_disk. apply (all_installed_keeps _ _ _ _ _ _ _ _ _ _ dict_no_ustate) in Ha; [|done..].
  unfold dict_no_ustate in Ha. rewrite Ht in Ha. by destruct text.
Qed.

Lemma transaction_env sw v (m : mach) :
  v = STATE_IN_PROGRESS \/ v = STATE_FAILED ->
  on_disk (m_env (transaction ebg EBGENV_USTATE ipc sw v m).2) = on_disk (m_env m).
Proof.
  intros Hv. unfold transaction. pose proof (transaction_on_disk ipc sw v (m_env m) Hv) as H.
  by destruct (installed sw v (m_env m)).
Qed.

Lemma transaction_start sw (m : mach) :
  dict_no_ustate m ->
  let m1 := (transaction ebg EBGENV_USTATE ipc sw STATE_IN_PROGRESS m).2 in
  on_disk (m_env m1) = on_disk (m_env m) /\ dict_no_ustate m1.
Proof.
  intros Hm. split; [apply transaction_env; auto|]. unfold transaction.
  by destruct (installed sw STATE_IN_PROGRESS (m_env m)).
Qed.

(** The open transaction of [e] is finalized and written to the disks. *)
Definition commits (e e' : ebgenv) : Prop :=
  exists l1 l2 l3, env_open_current lib (ebg_lib e) = (0, l1) /\ env_finalize_update lib l1 = (0, l2) /\
    env_close lib l2 = (0, l3) /\ e' = mk_ebgenv l3 false.

(** The marker of the transaction is reset, if it is used. *)
Definition unmarked (sw : swupdate_cfg) (e : ebgenv) : ebgenv :=
  if bootloader_transaction_marker sw then (ebg_do_env_unset BOOTVAR_TRANSACTION e).2 else e.

(** [e'] is [e] with the variables of the update that starts in [m]: those of the dictionary as it
    was left when all scripts and images had been installed without error. *)
Definition variables_applied (sw : swupdate_cfg) (m : mach) (e e' : ebgenv) : Prop :=
  exists sw3 m3, all_installed lua_parser_fn reg os TMPDIR tmpdir_scripts hl dl zcfg keys fuel sw m sw3 m3 /\
    (m_bootdict m3 = [] /\ e' = e \/
     exists text, prepare_var_script (can_write os (TMPDIR +:+ BOOT_SCRIPT_SUFFIX)) (wr_short os)
         (m_bootdict m3) = (0, text) /\ ebg_do_apply_list text e = (0, e')).

(** The state [STATE_INSTALLED] is stored only by a commit. *)
Lemma transaction_committed sw e e' :
  installed sw STATE_INSTALLED e = (true, e') -> dry_run (parms sw) = false -> bootloader_state_marker sw = true ->
  commits (unmarked sw e) e'.
Proof.
  unfold update_transaction_state. intros H Hdry Hmk. rewrite Hdry, Hmk in H. cbn [negb andb] in H.
  change (if bootloader_transaction_marker sw then _ else e) with (unmarked sw e) in H.
  unfold commits. set (e1 := unmarked sw e) in *.
  unfold save_state, do_save_state in H.
  change (env_set ebg _ _ e1) with (ebg_do_env_set EBGENV_USTATE (state_string STATE_INSTALLED) e1) in H.
  change (if _ || _ then (- EINVAL, e1) else ?x) with x in H.
  destruct (ebg_do_env_set _ _ e1) as [r s'] eqn:Hs. injection H as Hr <-. apply Z.eqb_eq in Hr as ->.
  unfold ebg_do_env_set in Hs. destruct (negb (inflight e1) && _) eqn:Hi; [done|].
  destruct (env_open_current lib (ebg_lib e1)) as [r l1]. 
  destruct (Z.eqb_spec r 0) as [->|]; cbn [negb] in Hs; [|injection Hs; intros; lia].
  change (same EBGENV_USTATE BOOTVAR_TRANSACTION) with false in Hs.
  change (same EBGENV_USTATE EBGENV_USTATE) with true in Hs. cbv iota in Hs.
  unfold set_ustate in Hs. change (first_char (state_string STATE_INSTALLED)) with STATE_INSTALLED in Hs.
  cbn [Z.eqb Pos.eqb STATE_INSTALLED STATE_IN_PROGRESS STATE_OK] in Hs.
  destruct (env_finalize_update lib l1) as [r1 l2] eqn:H2. destruct (Z.eqb_spec r1 0) as [->|]; cbn [negb] in Hs;
    [|injection Hs; intros; lia].
  destruct (env_close lib l2) as [r3 l3] eqn:H3. destruct (Z.eqb_spec r3 0) as [->|]; cbn [negb] in Hs;
    [|injection Hs; intros; lia].
  injection Hs as <-. by exists l1, l2, l3.
Qed.

End Update.
End Ebg.
End Ebg.

(** ** A library in memory *)

(** The boot path on the disk, and the working copy once it is open. *)
Record toy_ebg := mk_toy_ebg {
  toy_disk : list (string * string);
  toy_copy : option (list (string * string));
}.

Definition toy_env (t : toy_ebg) : list (string * string) := default (toy_disk t) (toy_copy t).

Fixpoint toy_put (n v : string) (l : list (string * string)) : list (string * string) :=
  match l with
  | [] => [(n, v)]
  | (n', v') :: l => if String.eqb n n' then (n, v) :: l else (n', v') :: toy_put n v l
  end.

Definition toy_get (n : string) (l : list (string * string)) : option string :=
  snd <$> find (fun kv => String.eqb n kv.1) l.

Definition toy_change (f : list (string * string) -> list (string * string)) (t : toy_ebg) : Z * toy_ebg :=
  (0, mk_toy_ebg (toy_disk t) (Some (f (toy_env t)))).

Definition toy_number (n : string) (t : toy_ebg) : Z := strtoul (default "0" (toy_get n (toy_env t))) 10.

Definition toy_libebg : Ebg.libebg :=
  Ebg.mk_libebg
    (fun t => toy_change (fun l => toy_put "in_progress" "1"
       (toy_put "revision" (print_d (toy_number "revision" t + 1)) l)) t)
    (toy_change (fun l => l))
    (fun t n => match toy_get n (toy_env t) with Some v => strlen v + 1 | None => -2 end)
    (fun t n => match toy_get n (toy_env t) with
                | Some v => (0, String.list_ascii_of_string v ++ [NUL])
                | None => (-2, [])
                end)
    (fun t n v => toy_change (toy_put n v) t)
    (fun t n => toy_change (filter (fun kv => kv.1 <> n)) t)
    (toy_number "ustate")
    (fun t v => (0, t))
    (fun t => (0, mk_toy_ebg (toy_env t) None))
    (toy_change (fun l => toy_put "in_progress" "0" (toy_put "ustate" "1" l))).

#[export] Instance toy_ebg_spec : Ebg.EbgSpec toy_libebg.
Proof. by refine {| Ebg.disk := toy_disk |}. Defined.

Definition toy_path : list (string * string) := [("revision", "3"); ("in_progress", "0"); ("ustate", "0"); ("root", "a")].

Definition toy_start : Ebg.ebgenv := Ebg.mk_ebgenv (mk_toy_ebg toy_path None) false.

(** An update that fails after its variables were set, and one that succeeds and sets none. *)
Definition failed_update : list (string * string) :=
  [("recovery_status", "in_progress"); ("ustate", "7"); ("root", "b"); ("recovery_status", "failed"); ("ustate", "3")].
Definition next_update : list (string * string) :=
  [("recovery_status", "in_progress"); ("ustate", "7"); ("recovery_status", "installed"); ("ustate", "1")].

Definition toy_sets (l : list (string * string)) (s : Ebg.ebgenv) : Z * Ebg.ebgenv :=
  foldl (fun r kv => let '(ret, s) := Ebg.ebg_do_env_set toy_libebg true kv.1 kv.2 r.2 in
                     (if r.1 =? 0 then ret else r.1, s)) (0, s) l.

(** A failed update leaves its transaction open: the next one goes on with it, and commits the
    variables of the failed one. *)
Theorem ebg_failed_update_committed :
  (toy_sets failed_update toy_start).1 = 0 /\
  toy_disk (Ebg.ebg_lib (toy_sets failed_update toy_start).2) = toy_path /\
  toy_sets next_update (toy_sets failed_update toy_start).2 =
    (0, Ebg.mk_ebgenv (mk_toy_ebg [("revision", "4"); ("in_progress", "0"); ("ustate", "1"); ("root", "b")] None) false).
Proof. vm_compute. done. Qed.

(** Without a transaction the marker cannot be removed. *)
Theorem ebg_unset_refused :
  (Ebg.ebg_do_env_unset toy_libebg true BOOTVAR_TRANSACTION toy_start).1 = - EINVAL.
Proof. vm_compute. done. Qed.

(** ** CBoot: [bootloader/cboot.c] *)

Module Cboot.
Section Cboot.
(** libtegra-boot-tools: a context [Ctx] on the storage [D]; [set_env] with [None] removes. *)
Context {Ctx D : Type}.
Record libcboot := mk_libcboot {
  bootinfo_open : bool -> D -> Z * Ctx;
  bootinfo_close : Ctx -> D -> Z * D;
  bootinfo_var_get : Ctx -> string -> Z * string;
  bootinfo_var_set : Ctx -> string -> option string -> Z * Ctx;
}.
Variable lib : libcboot.

(** The result of closing a context that was opened for reading is only traced. *)
Definition cboot_do_env_get (name : string) (d : D) : option string :=
  let '(ret, ctx) := bootinfo_open lib false d in
  if ret <? 0 then None
  else
    let '(ret, value) := bootinfo_var_get lib ctx name in
    Some (if ret <? 0 then "" else value).

Definition cboot_set (name : string) (value : option string) (d : D) : Z * D :=
  let '(ret, ctx) := bootinfo_open lib true d in
  if ret <? 0 then (- ENOENT, d)
  else
    let '(set, ctx) := bootinfo_var_set lib ctx name value in
    let '(close, d) := bootinfo_close lib ctx d in
    (if (set <? 0) || (close <? 0) then - EFAULT else 0, d).

Definition cboot_do_env_set (name value : string) (d : D) : Z * D := cboot_set name (Some value) d.
Definition cboot_do_env_unset (name : string) (d : D) : Z * D := cboot_set name None d.

(** The loop over the lines, with the result of the last one. *)
Fixpoint cboot_lines (lines : list string) (result : Z) (ctx : Ctx) : Z * Ctx :=
  match lines with
  | [] => (result, ctx)
  | line :: lines =>
      let '(key, rest) := strtok_r line "=" in
      let '(value, _) := strtok_r rest (String "009" (String nl "")) in
      match key with
      | Some key => let '(result, ctx) := bootinfo_var_set lib ctx key value in cboot_lines lines result ctx
      | None => cboot_lines lines result ctx
      end
  end.

Definition cboot_do_apply_list (file : option string) (d : D) : Z * D :=
  match file with
  | None => (- EIO, d)
  | Some text =>
      let '(ret, ctx) := bootinfo_open lib true d in
      if ret <? 0 then (- ENOENT, d)
      else
        let '(result, ctx) := cboot_lines (getlines text) 0 ctx in
        let '(ret, d) := bootinfo_close lib ctx d in
        (if ret <? 0 then - EFAULT else result, d)
  end.

Definition cboot : bootloader D :=
  mk_bootloader cboot_do_env_set cboot_do_env_unset cboot_do_env_get cboot_do_apply_list.
End Cboot.
End Cboot.

(** A library that refuses long names. *)
Definition toy_libcboot : Cboot.libcboot (Ctx := list (string * string)) (D := list (string * string)) :=
  Cboot.mk_libcboot (fun _ d => (0, d)) (fun ctx _ => (0, ctx))
    (fun ctx n => match toy_get n ctx with Some v => (0, v) | None => (-1, "") end)
    (fun ctx n v =>
       if strlen n >? 4 then (-1, ctx)
       else (0, match v with Some v => toy_put n v ctx | None => filter (fun kv => kv.1 <> n) ctx end)).

(** A variable that does not exist is read as the empty one. *)
Theorem cboot_missing_is_empty : Cboot.cboot_do_env_get toy_libcboot "a" [] = Some "".
Proof. reflexivity. Qed.

(** The error of a variable is lost if a later one can be set. *)
Theorem cboot_error_lost :
  Cboot.cboot_do_apply_list toy_libcboot (Some (unlines ["toolong=1"; "a=2"])) [] = (0, [("a", "2")]) /\
  (Cboot.cboot_do_apply_list toy_libcboot (Some (unlines ["a=2"; "toolong=1"])) []).1 = -1.
Proof. split; reflexivity. Qed.

(** ** An update in that memory *)

Abbreviation ebg_machine := (machine (Ebg.ebgenv (L := toy_ebg)) unit unit).

Definition idle_handler (ret : Z) (img : img_type) (d : handler_data) (m : ebg_machine)
  : Z * img_type * ebg_machine := (ret, img, m).

Definition idle_registry :=
  mk_registry [mk_handler "raw" (idle_handler 0) 0 IMAGE_HANDLER false;
               mk_handler "broken" (idle_handler (-1)) 0 IMAGE_HANDLER false;
               mk_handler "shellscript" (idle_handler 0) 0 SCRIPT_HANDLER false] 3 ULONG_MAX.

Definition idle_lua (f : string) (img : img_type) (m : ebg_machine) : Z * img_type * ebg_machine := (0, img, m).

Definition ebg_machine_start : ebg_machine :=
  mk_machine (m_files sample_state) toy_start tt [mk_dict_entry "root" ["b"]] tt.

Definition ebg_request (kind : string) : option (RECOVERY_STATUS * swupdate_cfg * ebg_machine) :=
  install_request (Ebg.ebg toy_libebg true) (fun _ _ v => (0, v)) idle_lua idle_registry sample_io "/tmp/"
    "/tmp/scripts/" toy_hash_lib toy_stream toy_config None 8 Ebg.EBGENV_USTATE (fun _ => (0, ACK))
    (sample_cfg false kind) ebg_machine_start.

Definition ebg_end (kind : string) : RECOVERY_STATUS * swupdate_cfg * ebg_machine :=
  default (FAILURE, sample_cfg false kind, ebg_machine_start) (ebg_request kind).

Lemma idle_keeps (P : ebg_machine -> Prop) : keeps idle_lua idle_registry P.
Proof.
  split; [|done]. intros t hnd img d m Hf HP.
  unfold find_handler in Hf. case_match; [done|]. apply list_elem_of_lookup_2 in Hf.
  unfold idle_registry in Hf. cbn [supported_types] in Hf.
  repeat (apply elem_of_cons in Hf as [->|Hf]; [done|]). by apply elem_of_nil in Hf.
Qed.

(** The environment after the run of the installer. *)
Definition ebg_raw_installed : Ebg.ebgenv :=
  match run_installer (Ebg.ebg toy_libebg true) (fun _ _ v => (0, v)) idle_lua idle_registry sample_io "/tmp/"
    "/tmp/scripts/" toy_hash_lib toy_stream toy_config None 8 Ebg.EBGENV_USTATE (fun _ => (0, ACK))
    (sample_cfg false "raw") ebg_machine_start with
  | Some (_, (_, m)) => m_env m
  | None => toy_start
  end.

