(* ===== verification/Network.v ===== *)
(** * The daemon: requests and notifications, [core/network_thread.c]

    Two threads share the state of the installer under a mutex: the network thread
    answers requests and hands the connection of an install request over; the
    installer thread waits to be woken up, runs the update ([Stream]) and
    goes back to sleep. Their interleavings are the steps of [daemon_step]. *)
From S2P Require Import Prelude CString Dict State Stream.

(** ** Notifications *)

Definition NUM_CACHED_MESSAGES : nat := 100.

Record msg_elem := mk_msg {
  msg_status : RECOVERY_STATUS;
  msg_error : Z;
  msg_level : Z;
  msg_text : string;
}.

Record msg_queue := mk_queue {
  notifymsgs : list msg_elem;
  nrmsgs : Z;
}.

(** [clean_msg (msg, drop)]: every [drop] becomes a blank. *)
Definition clean_msg (drop : ascii) (s : string) : string :=
  str_map (fun c => if Ascii.eqb c drop then " "%char else c) s.

Definition TABc : ascii := "009".
Definition CRc : ascii := "013".

(** The queue of [network_notifier]; [mem]: the message is allocated. *)
Definition network_notifier (mem : bool) (status : RECOVERY_STATUS) (error level : Z)
    (msg : option string) (q : msg_queue) : msg_queue :=
  if negb mem then q
  else
    let nr := u64 (nrmsgs q + 1) in
    let '(l, nr) := if nr >? Z.of_nat NUM_CACHED_MESSAGES then (tail (notifymsgs q), u64 (nr - 1))
                    else (notifymsgs q, nr) in
    let newmsg := mk_msg status error level
      (clean_msg CRc (clean_msg nl (clean_msg TABc (default "" msg)))) in
    mk_queue (l ++ [newmsg]) nr.

Definition cleanum_msg_list (q : msg_queue) : msg_queue := mk_queue [] 0.

(** [GET_STATUS]: the first notification, if any, is taken from the queue. *)
Definition get_status (current : RECOVERY_STATUS) (last_error : Z) (q : msg_queue)
  : RECOVERY_STATUS * Z * string * msg_queue :=
  match notifymsgs q with
  | [] => (current, last_error, "", q)
  | m :: l => (msg_status m, msg_error m, msg_text m, mk_queue l (u64 (nrmsgs q - 1)))
  end.

(** ** Selections *)

(** [mem]: the selection string is allocated. *)
Definition is_selection_allowed (mem : bool) (software_set running_mode : string) (acceptedlist : dict) : bool :=
  if (strlen software_set =? 0) || (strlen running_mode =? 0) then true
  else if negb mem then false
  else
    match dict_get_list acceptedlist "accepted" with
    | None => false
    | Some sets =>
        existsb (fun value => strcmp (software_set +:+ "," +:+ running_mode) value =? 0) sets
    end.

(** ** Install requests *)

(** A connection is its descriptor; [inst_fd] is [None] before the first request.
    [busy]: the installer thread is between its wake-up and the end of the loop. *)
Record daemon := mk_daemon {
  inst_status : RECOVERY_STATUS;
  inst_fd : option nat;
  stream_wkup : bool;
  busy : bool;
}.

(** [REQ_INSTALL], with the mutex held: the answer, whether the socket is closed, the
    state. [allowed]: the version of the API and the selection are right. *)
Definition req_install (c : nat) (allowed : bool) (d : daemon) : msgtype * bool * daemon :=
  match inst_status d with
  | IDLE =>
      let d := mk_daemon IDLE (Some c) (stream_wkup d) (busy d) in
      if allowed then (ACK, false, mk_daemon IDLE (Some c) true (busy d))
      else (NACK, true, d)
  | _ => (NACK, true, d)
  end.

(** The installer thread: it wakes up, and comes to the end of its loop, either in the
    usual way or by the [continue] when old directories cannot be removed. *)
Definition wake (d : daemon) : option daemon :=
  if stream_wkup d && negb (busy d) then Some (mk_daemon RUN (inst_fd d) false true) else None.

Definition finish (d : daemon) : option daemon :=
  if busy d then Some (mk_daemon IDLE (inst_fd d) (stream_wkup d) false) else None.

Definition skip_request (d : daemon) : option daemon :=
  if busy d then Some (mk_daemon RUN (inst_fd d) (stream_wkup d) false) else None.

Inductive event :=
  | EvRequest (c : nat) (allowed : bool) (answer : msgtype)
  | EvWake (c : option nat)
  | EvFinish
  | EvSkip.

Inductive daemon_step : daemon -> event -> daemon -> Prop :=
  | step_request c allowed d : daemon_step d (EvRequest c allowed (req_install c allowed d).1.1)
      (req_install c allowed d).2
  | step_wake d d' : wake d = Some d' -> daemon_step d (EvWake (inst_fd d)) d'
  | step_finish d d' : finish d = Some d' -> daemon_step d EvFinish d'
  | step_skip d d' : skip_request d = Some d' -> daemon_step d EvSkip d'.

Inductive daemon_run : daemon -> list event -> daemon -> Prop :=
  | run_nil d : daemon_run d [] d
  | run_cons d e d1 l d2 : daemon_step d e d1 -> daemon_run d1 l d2 -> daemon_run d (e :: l) d2.

Definition daemon_start : daemon := mk_daemon IDLE None false false.

(** * Properties *)

(** ** The cache of notifications *)

Definition queue_ok (q : msg_queue) : Prop :=
  nrmsgs q = Z.of_nat (length (notifymsgs q)) /\ (length (notifymsgs q) <= NUM_CACHED_MESSAGES)%nat.

Definition last_n {A} (n : nat) (l : list A) : list A := drop (length l - n) l.

Lemma clean_msg_length c s : String.length (clean_msg c s) = String.length s.
Proof. unfold clean_msg. induction s as [|d s IH]; [done|]. cbn. by rewrite IH. Qed.

Lemma clean_msg_mem c d s :
  c <> " "%char -> c = d \/ str_mem c s = false -> str_mem c (clean_msg d s) = false.
Proof.
  intros Hb Hc. unfold clean_msg. induction s as [|x s IH]; [done|]. cbn [str_map str_mem] in *.
  destruct (Ascii.eqb_spec x d) as [->|Hx].
  - apply orb_false_iff. split; [by apply Ascii.eqb_neq; congruence|].
    apply IH. destruct Hc as [?|[_ ?]%orb_false_iff]; auto.
  - apply orb_false_iff. split.
    + destruct Hc as [->|[? _]%orb_false_iff]; [by apply Ascii.eqb_neq; congruence|done].
    + apply IH. destruct Hc as [?|[_ ?]%orb_false_iff]; auto.
Qed.

Lemma clean_msg_keeps c d s : c <> " "%char -> str_mem c s = false -> str_mem c (clean_msg d s) = false.
Proof. intros Hb Hc. apply clean_msg_mem; auto. Qed.

Lemma drop_tail {A} (l : list A) : drop 1 l = tail l.
Proof. by destruct l. Qed.

(** The cache of notifications is a queue of at most 100 messages: a new one is appended
    and drops the oldest one only when the cache is full, its text has no tabs or
    line ends, reading the status takes the oldest one, and the counter is
    always the number of messages. *)
Theorem notifier_queue (q : msg_queue) (status : RECOVERY_STATUS) (error level : Z) (msg : option string) :
  queue_ok q ->
  (let q' := network_notifier true status error level msg q in
   queue_ok q' /\
   exists m, notifymsgs q' = last_n NUM_CACHED_MESSAGES (notifymsgs q ++ [m]) /\
     msg_status m = status /\ msg_error m = error /\ msg_level m = level /\
     strlen (msg_text m) = strlen (default "" msg) /\
     forall c, c = nl \/ c = CRc \/ c = TABc -> str_mem c (msg_text m) = false) /\
  (let '(st, err, txt, q') := get_status status error q in
   queue_ok q' /\
   match notifymsgs q with
   | [] => st = status /\ q' = q
   | m :: l => st = msg_status m /\ err = msg_error m /\ txt = msg_text m /\ notifymsgs q' = l
   end).
Proof.
  intros [Hn Hl]. split.
  - cbv zeta. unfold network_notifier. cbn [negb].
    assert (u64 (nrmsgs q + 1) = Z.of_nat (S (length (notifymsgs q)))) as ->.
    { rewrite wrap_small; unfold NUM_CACHED_MESSAGES in *; lia. }
    set (m := mk_msg _ _ _ _).
    assert (strlen (msg_text m) = strlen (default "" msg) /\
      forall c, c = nl \/ c = CRc \/ c = TABc -> str_mem c (msg_text m) = false) as [Hlen Hclean].
    { split; [unfold strlen, m; cbn [msg_text]; by rewrite !clean_msg_length|].
      intros c [->|[->| ->]]; cbn [m msg_text].
      - apply clean_msg_keeps; [done|]. by apply clean_msg_mem; auto.
      - by apply clean_msg_mem; auto.
      - do 2 (apply clean_msg_keeps; [done|]). by apply clean_msg_mem; auto. }
    rewrite Z.gtb_ltb. destruct (Z.ltb_spec (Z.of_nat NUM_CACHED_MESSAGES) (Z.of_nat (S (length (notifymsgs q))))).
    + assert (length (notifymsgs q) = NUM_CACHED_MESSAGES) as El by lia.
      assert (length (tail (notifymsgs q)) = (NUM_CACHED_MESSAGES - 1)%nat) as Et.
      { rewrite <- drop_tail, length_drop. lia. }
      split.
      * split; cbn [nrmsgs notifymsgs]; rewrite length_app, Et; cbn [length]; unfold NUM_CACHED_MESSAGES in *; [|lia].
        rewrite wrap_small; lia.
      * exists m. split_and!; try done. cbn [notifymsgs]. unfold last_n. rewrite length_app, El. cbn [length].
        replace (NUM_CACHED_MESSAGES + 1 - NUM_CACHED_MESSAGES)%nat with 1%nat by (unfold NUM_CACHED_MESSAGES; lia).
        rewrite drop_app_le by (rewrite El; unfold NUM_CACHED_MESSAGES; lia). by rewrite drop_tail.
    + split.
      * split; cbn [nrmsgs notifymsgs]; rewrite length_app; cbn [length]; lia.
      * exists m. split_and!; try done. cbn [notifymsgs]. unfold last_n. rewrite length_app. cbn [length].
        replace (length (notifymsgs q) + 1 - NUM_CACHED_MESSAGES)%nat with 0%nat by lia. done.
  - unfold get_status. destruct (notifymsgs q) as [|m l] eqn:Eq; [by split; [split; rewrite ?Eq|]|].
    split; [|done]. split; cbn [nrmsgs notifymsgs]; cbn [length] in *; [|lia].
    rewrite Hn, wrap_small; unfold NUM_CACHED_MESSAGES in *; lia.
Qed.

Lemma notifier_queue_witness :
  queue_ok (mk_queue (replicate 100 (mk_msg RUN 0 0 "x")) 100) /\
  length (notifymsgs (network_notifier true RUN 0 0 (Some "new") (mk_queue (replicate 100 (mk_msg RUN 0 0 "x")) 100))) =
    100%nat.
Proof.
  assert (queue_ok (mk_queue (replicate 100 (mk_msg RUN 0 0 "x")) 100)) as Hq by (split; vm_compute; [reflexivity|lia]).
  split; [exact Hq|].
  destruct (proj1 (notifier_queue _ RUN 0 0 (Some "new") Hq)) as [_ (m & Hm & _)]. rewrite Hm. reflexivity.
Defined.

(** ** One installation at a time *)

Record daemon_ok (d : daemon) : Prop := {
  ok_busy : busy d = true -> inst_status d = RUN /\ stream_wkup d = false;
  ok_wkup : stream_wkup d = true -> inst_status d = IDLE /\ is_Some (inst_fd d);
  ok_status : inst_status d = IDLE \/ inst_status d = RUN;
}.

Lemma daemon_step_ok d e d' : daemon_ok d -> daemon_step d e d' -> daemon_ok d'.
Proof.
  intros Hok S. revert Hok. destruct S as [c a d0|d0 d1 Hw|d0 d1 Hf|d0 d1 Hf]; intros [H1 H2 H3].
  - unfold req_install. destruct (inst_status d0) eqn:Hs; try (split; cbn; rewrite ?Hs; done).
    assert (busy d0 = false) as Hb by (destruct (busy d0); [by destruct (H1 eq_refl)|done]).
    destruct a; cbn [snd]; split; cbn; rewrite ?Hb; auto; done.
  - unfold wake in Hw. destruct (stream_wkup d0), (busy d0); try done. apply (inj Some) in Hw as <-.
    split; cbn; auto. done.
  - unfold finish in Hf. destruct (busy d0); [|done]. apply (inj Some) in Hf as <-.
    destruct (H1 eq_refl) as [_ ->]. split; cbn; auto; done.
  - unfold skip_request in Hf. destruct (busy d0); [|done]. apply (inj Some) in Hf as <-.
    destruct (H1 eq_refl) as [_ ->]. split; cbn; auto; done.
Qed.

Lemma daemon_run_ok d l d' : daemon_ok d -> daemon_run d l d' -> daemon_ok d'.
Proof. intros H R. induction R as [|d e d1 l d2 S _ IH]; [done|]. apply IH. by eapply daemon_step_ok. Qed.

Lemma daemon_start_ok : daemon_ok daemon_start.
Proof. split; cbn; auto; done. Qed.

(** C31: however the two threads interleave, there is one installation at a time: while one
    is running every further request is refused and leaves the state of the
    installer, in particular its connection, untouched; the installer is woken
    up only with a connection, and never while it is running. *)
Theorem daemon_exclusive (l : list event) (d : daemon) :
  daemon_run daemon_start l d ->
  (busy d = true -> wake d = None /\ forall c allowed, req_install c allowed d = (NACK, true, d)) /\
  (forall d', wake d = Some d' -> is_Some (inst_fd d) /\ inst_status d = IDLE).
Proof.
  intros R. pose proof (daemon_run_ok _ _ _ daemon_start_ok R) as [H1 H2 _]. split.
  - intros Hb. destruct (H1 Hb) as [Hs Hw]. split.
    + unfold wake. by rewrite Hw.
    + intros c a. unfold req_install. by rewrite Hs.
  - intros d' Hw. unfold wake in Hw. destruct (stream_wkup d); [|done].
    destruct (H2 eq_refl) as [? ?]. done.
Qed.

Lemma req_step c a d : daemon_step d (EvRequest c a (req_install c a d).1.1) (req_install c a d).2.
Proof. constructor. Qed.

Lemma daemon_exclusive_witness :
  let d := mk_daemon RUN (Some 1%nat) false true in
  busy d = true /\ forall c allowed, req_install c allowed d = (NACK, true, d).
Proof.
  assert (daemon_run daemon_start [EvRequest 1 true ACK; EvWake (Some 1%nat)] (mk_daemon RUN (Some 1%nat) false true)) as R.
  { eapply run_cons; [exact (req_step 1 true daemon_start)|]. eapply run_cons; [|constructor].
    exact (step_wake (mk_daemon IDLE (Some 1%nat) true false) _ eq_refl). }
  split; [reflexivity|]. exact (proj2 (proj1 (daemon_exclusive _ _ R) eq_refl)).
Defined.

(** ** An accepted request is served, or replaced *)

(** An infinite run of the two threads. *)
Record execution := mk_execution {
  states : nat -> daemon;
  events : nat -> event;
  exec_start : states 0 = daemon_start;
  exec_step : forall n, daemon_step (states n) (events n) (states (S n));
}.

Definition installer_event (e : event) : bool := match e with EvRequest _ _ _ => false | _ => true end.

(** The installer thread is not kept from waking up for ever while it could. *)
Definition fair (x : execution) : Prop :=
  forall i, exists j, (i <= j)%nat /\ (installer_event (events x j) = true \/ stream_wkup (states x j) = false).

(** Every run of the installer comes to its end. *)
Definition runs_end (x : execution) : Prop :=
  forall i, busy (states x i) = true -> exists j, (i <= j)%nat /\ installer_event (events x j) = true.

Lemma execution_ok x n : daemon_ok (states x n).
Proof.
  induction n as [|n IH]; [rewrite exec_start; apply daemon_start_ok|]. by eapply daemon_step_ok, exec_step.
Qed.

(** What holds until the installer thread runs holds when it does. *)
Lemma holds_until (x : execution) (P : nat -> Prop) i k :
  (i <= k)%nat -> (P k -> installer_event (events x k) = true) ->
  (forall n, (i <= n)%nat -> P n -> installer_event (events x n) = false -> P (S n)) ->
  P i -> exists j, (i <= j)%nat /\ P j /\ installer_event (events x j) = true.
Proof.
  intros Hk He. remember (k - i)%nat as n eqn:Hn. revert i Hk Hn.
  induction n as [|n IH]; intros i Hk Hn Hs HP.
  - assert (k = i) as -> by lia. exists i. auto.
  - destruct (installer_event (events x i)) eqn:Ei; [by exists i; split_and!|].
    destruct (IH (S i) ltac:(lia) ltac:(lia)) as (j & Hj & H1 & H2).
    { intros m Hm. apply Hs. lia. }
    { by apply Hs. }
    exists j. split_and!; [lia|done..].
Qed.

Lemma request_keeps c a d :
  daemon_ok d ->
  (stream_wkup d = true -> stream_wkup (req_install c a d).2 = true /\ busy (req_install c a d).2 = busy d) /\
  (busy d = true -> (req_install c a d).2 = d).
Proof.
  intros [H1 _ _]. unfold req_install. split.
  - intros Hw. destruct (inst_status d); try done. by destruct a.
  - intros Hb. by destruct (H1 Hb) as [-> _].
Qed.

Lemma step_inv d e d' :
  daemon_step d e d' ->
  match e with
  | EvRequest c a t => t = (req_install c a d).1.1 /\ d' = (req_install c a d).2
  | EvWake c => c = inst_fd d /\ wake d = Some d'
  | EvFinish => finish d = Some d'
  | EvSkip => skip_request d = Some d'
  end.
Proof. by intros []. Qed.

Lemma request_pending d c a d' :
  daemon_ok d -> daemon_step d (EvRequest c a ACK) d' ->
  stream_wkup d' = true /\ busy d' = false /\ inst_fd d' = Some c.
Proof.
  intros [H1 _ _] [Ht ->]%step_inv. unfold req_install in *. destruct (inst_status d) eqn:Hs; try done.
  destruct a; [|done]. split_and!; [done| |done]. cbn. destruct (busy d); [|done]. by destruct (H1 eq_refl).
Qed.

(** The connection of the request at [i], or that of a later one, answered before [n], which replaced it. *)
Definition connection_of (x : execution) (i n c c' : nat) : Prop :=
  c' = c \/ exists i' allowed answer, (i < i' < n)%nat /\ events x i' = EvRequest c' allowed answer.

(** A request is pending until the installer wakes up. *)
Lemma pending_until (x : execution) i c allowed :
  fair x -> events x i = EvRequest c allowed ACK ->
  exists j c', (i < j)%nat /\ events x j = EvWake (Some c') /\ connection_of x i j c c' /\
    busy (states x (S j)) = true /\ inst_fd (states x (S j)) = Some c'.
Proof.
  intros Hf Hi. destruct (Hf (S i)) as (k & Hk & He).
  destruct (holds_until x (fun n => stream_wkup (states x n) = true /\ busy (states x n) = false /\
    exists c', inst_fd (states x n) = Some c' /\ connection_of x i n c c') (S i) k Hk)
    as (j & Hj & (Hw & Hb & c' & Hc & Hco) & Ej).
  { intros [Hw _]. destruct He as [He|He]; congruence. }
  { intros n Hn (Hw & Hb & c1 & Hc & Hco) Ei. pose proof (step_inv _ _ _ (exec_step x n)) as S.
    destruct (events x n) as [c2 a2 t2| | |] eqn:En; [|done..]. destruct S as [_ ->].
    destruct (request_keeps c2 a2 _ (execution_ok x n)) as [Hkp _]. destruct (Hkp Hw) as [-> ->].
    split_and!; [done|done|]. unfold req_install. pose proof (ok_wkup _ (execution_ok x n) Hw) as [-> _].
    exists c2. split; [by destruct a2|]. right. exists n, a2, t2. split; [lia|done]. }
  { pose proof (exec_step x i) as S. rewrite Hi in S.
    destruct (request_pending _ _ _ _ (execution_ok x i) S) as (H1 & H2 & H3). split_and!; [done|done|].
    exists c. split; [done|by left]. }
  exists j, c'. split; [lia|]. pose proof (step_inv _ _ _ (exec_step x j)) as S.
  destruct (events x j); try done; unfold wake, finish, skip_request in S; rewrite ?Hw, ?Hb in S; [|done..].
  destruct S as [-> S]. apply (inj Some) in S. rewrite <- S, Hc. done.
Qed.

(** C12: provided the installer thread is scheduled fairly and its runs end, every request that is
    acknowledged leads to a run of the installer that comes to its end. The run is on the connection
    of the request, unless another request arrived before the installer woke up: then it is on that of
    such a later request, even one that was refused, and the connection of the acknowledged request is
    lost. No other connection takes its place while the installer runs; when it ends in the usual way
    the daemon is ready for the next request (the other end is the [continue] after directories that
    cannot be removed, from which the daemon does not recover). *)
Theorem request_served (x : execution) (i c : nat) (allowed : bool) :
  fair x -> runs_end x -> events x i = EvRequest c allowed ACK ->
  exists j k c', (i < j < k)%nat /\ events x j = EvWake (Some c') /\ connection_of x i j c c' /\
    inst_fd (states x k) = Some c' /\ (forall n, (j < n < k)%nat -> exists c2 a2, events x n = EvRequest c2 a2 NACK) /\
    (events x k = EvFinish /\ inst_status (states x (S k)) = IDLE \/ events x k = EvSkip).
Proof.
  intros Hf Hr Hi. destruct (pending_until _ _ _ _ Hf Hi) as (j & c' & Hj & Ej & Hco & Hb & Hc).
  destruct (Hr _ Hb) as (k0 & Hk0 & Ek0).
  destruct (holds_until x (fun n => busy (states x n) = true /\ inst_fd (states x n) = Some c' /\
    forall m, (j < m < n)%nat -> exists c2 a2, events x m = EvRequest c2 a2 NACK) (S j) k0 Hk0)
    as (k & Hk & (Hbk & Hck & Hbetween) & Ek).
  { done. }
  { intros n Hn (Hbn & Hcn & Hm) Ei. pose proof (step_inv _ _ _ (exec_step x n)) as S.
    destruct (events x n) as [c2 a2 t2| | |] eqn:En; [|done..]. destruct S as [-> ->].
    destruct (request_keeps c2 a2 _ (execution_ok x n)) as [_ ->]; [|done]. split_and!; [done|done|].
    intros m Hm'. destruct (decide (m = n)) as [->|]; [|apply Hm; lia]. exists c2, a2. rewrite En.
    unfold req_install. by destruct (ok_busy _ (execution_ok x n) Hbn) as [-> _]. }
  { split_and!; [done|done|lia]. }
  exists j, k, c'. split_and!; [lia|lia|done..|]. pose proof (step_inv _ _ _ (exec_step x k)) as Sk.
  destruct (events x k); try done; unfold wake, finish, skip_request in Sk; rewrite Hbk in Sk.
  - by rewrite andb_false_r in Sk; destruct Sk.
  - left. apply (inj Some) in Sk. by rewrite <- Sk.
  - by right.
Qed.

(** Requests one after the other. *)
Definition cycle_state (n : nat) : daemon :=
  match (n mod 3)%nat with
  | O => mk_daemon IDLE (if (n =? 0)%nat then None else Some 1%nat) false false
  | 1%nat => mk_daemon IDLE (Some 1%nat) true false
  | _ => mk_daemon RUN (Some 1%nat) false true
  end.

Definition cycle_event (n : nat) : event :=
  match (n mod 3)%nat with O => EvRequest 1 true ACK | 1%nat => EvWake (Some 1%nat) | _ => EvFinish end.

Lemma cycle_step n : daemon_step (cycle_state n) (cycle_event n) (cycle_state (S n)).
Proof.
  pose proof (Nat.div_mod_eq n 3) as Hn. pose proof (Nat.mod_upper_bound n 3 ltac:(lia)) as Hb.
  assert (n mod 3 = 0 \/ n mod 3 = 1 \/ n mod 3 = 2)%nat as [H|[H|H]] by lia.
  - assert (S n mod 3 = 1)%nat as H' by (rewrite Hn, H; symmetry; apply (Nat.mod_unique _ _ (n / 3)); lia).
    unfold cycle_state, cycle_event. rewrite H, H'. exact (step_request 1 true _).
  - assert (S n mod 3 = 2)%nat as H' by (rewrite Hn, H; symmetry; apply (Nat.mod_unique _ _ (n / 3)); lia).
    unfold cycle_state, cycle_event. rewrite H, H'. by apply (step_wake (mk_daemon IDLE (Some 1%nat) true false)).
  - assert (S n mod 3 = 0)%nat as H' by (rewrite Hn, H; symmetry; apply (Nat.mod_unique _ _ (S (n / 3))); lia).
    unfold cycle_state, cycle_event. rewrite H, H'. by apply step_finish.
Qed.

Definition cycle : execution := mk_execution cycle_state cycle_event eq_refl cycle_step.

Lemma cycle_fair : fair cycle.
Proof.
  intros i. exists (3 * i + 1)%nat. split; [lia|]. left. cbn -[Nat.mul]. unfold cycle_event.
  replace ((3 * i + 1) mod 3)%nat with 1%nat; [done|]. apply (Nat.mod_unique _ _ i); lia.
Qed.

Lemma cycle_ends : runs_end cycle.
Proof.
  intros i _. exists (3 * i + 1)%nat. split; [lia|]. cbn -[Nat.mul]. unfold cycle_event.
  replace ((3 * i + 1) mod 3)%nat with 1%nat; [done|]. apply (Nat.mod_unique _ _ i); lia.
Qed.

Lemma request_served_witness :
  exists j k c', (0 < j < k)%nat /\ cycle_event j = EvWake (Some c') /\ connection_of cycle 0 j 1 c' /\
    inst_fd (cycle_state k) = Some c' /\
    (forall n, (j < n < k)%nat -> exists c2 a2, cycle_event n = EvRequest c2 a2 NACK) /\
    (cycle_event k = EvFinish /\ inst_status (cycle_state (S k)) = IDLE \/ cycle_event k = EvSkip).
Proof. exact (request_served cycle 0 1 true cycle_fair cycle_ends eq_refl). Defined.

(** ** Three defects *)

(** The status becomes [RUN] only when the installer thread wakes up. Two requests that
    arrive before that are both acknowledged, and the second replaces the
    connection of the first, which is never served; a second request that is
    refused replaces it as well, and the installer then starts on a connection that
    was closed with the refusal. *)
Theorem pending_request_replaced :
  (exists d, daemon_run daemon_start
     [EvRequest 1 true ACK; EvRequest 2 true ACK; EvWake (Some 2%nat); EvFinish] d /\
     stream_wkup d = false /\ busy d = false) /\
  (exists d, daemon_run daemon_start
     [EvRequest 1 true ACK; EvRequest 2 false NACK; EvWake (Some 2%nat)] d).
Proof.
  split.
  - exists (mk_daemon IDLE (Some 2%nat) false false). split; [|done].
    eapply run_cons; [exact (req_step 1 true daemon_start)|].
    eapply run_cons; [exact (req_step 2 true (mk_daemon IDLE (Some 1%nat) true false))|].
    eapply run_cons; [exact (step_wake (mk_daemon IDLE (Some 2%nat) true false) _ eq_refl)|].
    eapply run_cons; [|constructor]. exact (step_finish (mk_daemon RUN (Some 2%nat) false true) _ eq_refl).
  - exists (mk_daemon RUN (Some 2%nat) false true).
    eapply run_cons; [exact (req_step 1 true daemon_start)|].
    eapply run_cons; [exact (req_step 2 false (mk_daemon IDLE (Some 1%nat) true false))|].
    eapply run_cons; [|constructor]. exact (step_wake (mk_daemon IDLE (Some 2%nat) true false) _ eq_refl).
Qed.

(** When the directories of the last update cannot be removed the installer thread goes
    back to sleep with the status at [RUN]: from then on the daemon refuses every request
    for ever. *)
Theorem daemon_stuck (d d' : daemon) (l : list event) :
  daemon_ok d -> skip_request d = Some d' ->
  forall d2, daemon_run d' l d2 -> d2 = d' /\ Forall (fun e => exists c a, e = EvRequest c a NACK) l.
Proof.
  intros [H1 _ _] Hs. unfold skip_request in Hs. destruct (busy d) eqn:Hb; [|done].
  apply (inj Some) in Hs as <-. destruct (H1 eq_refl) as [_ Hw]. rewrite Hw. clear.
  intros d2 R. remember (mk_daemon RUN (inst_fd d) false false) as d' eqn:Ed.
  revert Ed. induction R as [d0|d0 e d1 l d2 S R IH]; intros ->; [done|].
  inversion S as [c a d0 E1 E2|d0 d3 Hw|d0 d3 Hf|d0 d3 Hf]; subst; try done.
  destruct (IH eq_refl) as [-> F]. split; [done|]. constructor; [by exists c, a|done].
Qed.

Lemma daemon_stuck_witness :
  let d := mk_daemon RUN (Some 1%nat) false true in
  let d' := mk_daemon RUN (Some 1%nat) false false in
  skip_request d = Some d' /\
  forall d2, daemon_run d' [EvRequest 2 true NACK] d2 -> d2 = d' /\
    Forall (fun e => exists c a, e = EvRequest c a NACK) [EvRequest 2 true NACK].
Proof.
  split; [reflexivity|]. apply (daemon_stuck (mk_daemon RUN (Some 1%nat) false true)); [|reflexivity].
  split; cbn; auto. discriminate.
Defined.
