(* ===== verification/Ipc.v ===== *)
(** * Messages of the control socket: [core/network_thread.c], [ipc/network_ipc.c]

    A client opens a connection, sends one message and reads the answer; for some messages the
    connection stays open and gets another owner. [handle_message] is the body of the loop of
    [network_thread] on the state of the core process; the functions it calls are those of the other
    components. *)
From stdpp Require Import relations.
From S2P Require Import Prelude CString Util Versions Dict Handler Bootloader Grub State Vars Crypto Keys Cpio.
From S2P Require Import Copyfile Image Installer Parse Parselib Swdesc Stream Ebg Network.

Definition SWUPDATE_API_VERSION : Z := 1.

(** The types and their members of [msgdata]; the other types are [MsgOther]. *)
Inductive message :=
  | ReqInstall (apiversion : Z) (req : request)
  | GetStatus
  | PostUpdate (info : option string)
  | Subprocess (source timeout : Z) (text : string)
  | SetAesKey (key_ascii ivt_ascii : string)
  | SetUpdateState (first : Z)
  | GetUpdateState
  | SetVersionsRange (minimum maximum current update_type : string)
  | NotifyStream
  | GetHwRevision
  | SetVars (namespace name value : string)
  | GetVars (namespace name : string)
  | SetDeltaUrl (filename url : string)
  | MsgOther.

Inductive payload :=
  | PEmpty
  | PText (s : string)
  | PStatus (current last_result : RECOVERY_STATUS) (error : Z) (desc : string)
  | PNotify (m : msg_elem)
  | PRevision (boardname revision : string)
  | PState (c : Z)
  | PVar (value : string)
  | PMessage (m : message).

Record answer := mk_answer {
  an_type : msgtype;
  an_data : payload;
}.

(** The sizes of the members. *)
Definition STATUS_DESC_SIZE : Z := 2048.
Definition IPC_STRING_SIZE : Z := 256.
Definition URL_SIZE : Z := 1024.

Section Ipc.
Context {E Ctx D W : Type}.
#[local] Abbreviation mach := (machine E D W).
(** As in [State], [Vars] and [Installer]. *)
Variable bl : bootloader E.
Variable STATE_KEY : string.
Variable lib : @Uboot.libuboot Ctx D.
Variable find_namespace : Ctx -> string -> option Ctx.
Variable namespace_default : option string.
Variable run_system_cmd : string -> mach -> Z * mach.
Variable hw_file : option string.
(** The allocation of this message succeeds; the n-th write to the connection succeeds; the bytes of
    an integer are stored from the most significant one on. *)
Variable mem : bool.
Variable write_ok : nat -> bool.
Variable big_endian : bool.

(** [struct installer], the lists of this file, the keys and [swcfg]. *)
Record core := mk_core {
  co_daemon : daemon;
  co_req : option request;
  co_last : RECOVERY_STATUS;
  co_error : Z;
  co_queue : msg_queue;
  co_conns : list nat;
  co_subs : list (nat * message);
  co_keys : option decryption_key;
  co_sw : swupdate_cfg;
  co_accepted : dict;
  co_urls : dict;
  co_mach : mach;
}.

Definition set_daemon (d : daemon) (r : option request) (q : msg_queue) (s : core) : core :=
  mk_core d r (co_last s) (co_error s) q (co_conns s) (co_subs s) (co_keys s) (co_sw s) (co_accepted s)
    (co_urls s) (co_mach s).
Definition set_queue (q : msg_queue) (s : core) : core :=
  set_daemon (co_daemon s) (co_req s) q s.
Definition set_conns (l : list nat) (subs : list (nat * message)) (s : core) : core :=
  mk_core (co_daemon s) (co_req s) (co_last s) (co_error s) (co_queue s) l subs (co_keys s) (co_sw s)
    (co_accepted s) (co_urls s) (co_mach s).
Definition set_config (k : option decryption_key) (sw : swupdate_cfg) (urls : dict) (m : mach) (s : core) : core :=
  mk_core (co_daemon s) (co_req s) (co_last s) (co_error s) (co_queue s) (co_conns s) (co_subs s) k sw
    (co_accepted s) urls m.
Definition set_core_mach (m : mach) (s : core) : core := set_config (co_keys s) (co_sw s) (co_urls s) m s.

Definition set_swupdate_types (l : list swupdate_type_cfg) (c : swupdate_cfg) : swupdate_cfg :=
  mk_cfg (update_type_name c) (cfg_version c) (bootloader_transaction_marker c)
    (bootloader_state_marker c) (update_type_required c) (output_swversions c)
    (namespace_for_vars c) (no_transaction_marker c) (no_state_marker c) (reboot_enabled c)
    (installed_sw_list c) l (images c) (scripts c) (cfg_vars c)
    (parms c) (update_type c) (swdesc_max_size c)
    (description c) (cfg_output c) (hw c) (hardware c).

Definition ack_if (b : bool) : msgtype := if b then ACK else NACK.

(** What was written, whether the connection was closed, the state. [reply]: the answer at the end
    of the loop, whose result is only traced. *)
Definition reply (t : msgtype) (p : payload) (close : bool) (s : core) : list answer * bool * core :=
  ((if write_ok 0 then [mk_answer t p] else []), close, s).

Definition handle_install (c : nat) (apiversion : Z) (req : request) (s : core) : list answer * bool * core :=
  match inst_status (co_daemon s) with
  | IDLE =>
      let allowed := (apiversion =? SWUPDATE_API_VERSION) &&
        is_selection_allowed mem (req_software_set req) (req_running_mode req) (co_accepted s) in
      let '(t, close, d) := req_install c allowed (co_daemon s) in
      let q := if allowed then cleanum_msg_list (co_queue s) else co_queue s in
      reply t PEmpty close (set_daemon d (Some req) q s)
  | _ => reply NACK (PText "Installation in progress") true s
  end.

Definition handle_status (s : core) : list answer * bool * core :=
  let '(current, error, text, q) := get_status (inst_status (co_daemon s)) (co_error s) (co_queue s) in
  reply ACK (PStatus current (co_last s) error (strlcpy text STATUS_DESC_SIZE)) true (set_queue q s).

(** The history of notifications, after [n] writes: [None] when one fails. *)
Fixpoint notify_history (n : nat) (l : list msg_elem) : option (list answer) :=
  match l with
  | [] => Some []
  | m :: l => if write_ok n then cons (mk_answer OTHER_MSG (PNotify m)) <$> notify_history (S n) l else None
  end.

(** What was written before a history that fails. *)
Fixpoint history_sent (n : nat) (l : list msg_elem) : list answer :=
  match l with
  | [] => []
  | m :: l => if write_ok n then mk_answer OTHER_MSG (PNotify m) :: history_sent (S n) l else []
  end.

Definition handle_notify (c : nat) (s : core) : list answer * bool * core :=
  let first := mk_answer ACK (PStatus (inst_status (co_daemon s)) (co_last s) (co_error s) "") in
  if negb (write_ok 0) then ([], true, s)
  else
    match notify_history 1 (notifymsgs (co_queue s)) with
    | None => (first :: history_sent 1 (notifymsgs (co_queue s)), true, s)
    | Some l =>
        if mem then (first :: l, false, set_conns (co_conns s ++ [c]) (co_subs s) s)
        else (first :: l, true, s)
    end.

(** The value of a state is read as an integer of four bytes, of which the client has set the first. *)
Definition state_value (first : Z) : Z := if big_endian then swrap 32 (wrap 8 first * 2 ^ 24) else wrap 8 first.

Definition handle_message (c : nat) (magic : bool) (msg : message) (s : core) : list answer * bool * core :=
  let m := co_mach s in
  if negb magic then reply NACK (PText "Wrong request: aborting") true s
  else
    match msg with
    | PostUpdate _ =>
        let '(ret, m) := postupdate run_system_cmd (Some (co_sw s)) m in
        reply (ack_if (ret =? 0)) (PText (if ret =? 0 then "Post-update actions successfully executed."
                                          else "Post-update actions failed.")) true (set_core_mach m s)
    | Subprocess _ _ _ =>
        if mem then ([], false, set_conns (co_conns s) (co_subs s ++ [(c, msg)]) s)
        else reply NACK (PMessage msg) true s
    | ReqInstall apiversion req => handle_install c apiversion req s
    | GetStatus => handle_status s
    | NotifyStream => handle_notify c s
    | SetAesKey key ivt =>
        if strcmp key "pkcs11" =? 0 then reply NACK (PMessage msg) true s
        else
          let '(ret, k) := set_aes_key key ivt (co_keys s) in
          reply (ack_if (ret =? 0)) (PMessage msg) true (set_config k (co_sw s) (co_urls s) m s)
    | SetVersionsRange min max cur ty =>
        let '(ret, l) := set_version_range (swupdate_types (co_sw s)) (Some ty) (Some min) (Some max) (Some cur) in
        reply (ack_if (ret =? 0)) (PMessage msg) true
          (set_config (co_keys s) (set_swupdate_types l (co_sw s)) (co_urls s) m s)
    | GetHwRevision =>
        let '(ret, h) := get_hw_revision hw_file (Some (hw (co_sw s))) in
        let h := default (hw (co_sw s)) h in
        let s := set_config (co_keys s) (set_hw h (hardware (co_sw s)) (co_sw s)) (co_urls s) m s in
        if ret <? 0 then reply NACK PEmpty true s
        else reply ACK (PRevision (strlcpy (boardname h) IPC_STRING_SIZE) (strlcpy (revision h) IPC_STRING_SIZE)) true s
    | SetUpdateState first =>
        let value := state_value first in
        if negb (is_valid_state value) then reply NACK (PMessage msg) true s
        else
          let '(ret, e) := save_state bl STATE_KEY (fun _ => (0, NACK)) false value (m_env m) in
          reply (ack_if (ret =? 0)) (PMessage msg) true (set_core_mach (set_env e m) s)
    | GetUpdateState => reply ACK (PState (get_state bl STATE_KEY (0, NACK, 0) false (m_env m))) true s
    | SetVars ns name value =>
        let '(ret, v) := swupdate_vars_set_ lib find_namespace namespace_default name
                           (if strlen value =? 0 then None else Some value) (Some ns) (m_vars m) in
        reply (ack_if (ret =? 0)) (PMessage msg) true (set_core_mach (set_vars v m) s)
    | GetVars ns name =>
        match swupdate_vars_get_ lib find_namespace namespace_default name (Some ns) (m_vars m) with
        | Some v => reply ACK (PVar (strlcpy v IPC_STRING_SIZE)) true s
        | None => reply NACK (PVar "") true s
        end
    | SetDeltaUrl file url =>
        let '(ret, d) := dict_insert_value mem mem (co_urls s) (strlcpy file IPC_STRING_SIZE) (strlcpy url URL_SIZE) in
        reply (ack_if (ret =? 0)) (PMessage msg) true (set_config (co_keys s) (co_sw s) d m s)
    | MsgOther => reply NACK (PMessage msg) true s
    end.

(** ** The thread for the messages to other processes *)

(** The pipe to a process: the messages that wait in it, and whether the process has closed its end. *)
Record channel := mk_channel {
  ch_queue : list answer;
  ch_closed : bool;
}.

(** Messages are dropped until none is there; the end of a closed pipe is always there to be read.
    [None]: the fuel is spent. *)
Fixpoint empty_pipe (fuel : nat) (ch : channel) : option channel :=
  match fuel with
  | O => None
  | S fuel =>
      match ch_queue ch with
      | _ :: q => empty_pipe fuel (mk_channel q (ch_closed ch))
      | [] => if ch_closed ch then empty_pipe fuel ch else Some ch
      end
  end.

Definition DEFAULT_INTERNAL_TIMEOUT : Z := 60.

Definition procmsg_timeout (msg : message) : Z :=
  match msg with Subprocess _ t _ => if t =? 0 then DEFAULT_INTERNAL_TIMEOUT else t | _ => 0 end.

(** The message as the function leaves it, and the pipe. [pipe] is the pipe of the process if there is one
    that can be used; [sent]: the message is written in full; [serve]: the answer of the process, and
    after how many seconds it comes. An answer that comes too late waits in the pipe. *)
Definition handle_subprocess_ipc (fuel : nat) (pipe : option channel) (sent : bool)
    (serve : message -> option (Z * answer)) (msg : message) : option (answer * option channel) :=
  let nack := mk_answer NACK (PMessage msg) in
  match pipe with
  | None => Some (nack, None)
  | Some ch =>
      ch ← empty_pipe fuel ch;
      if negb sent then Some (nack, Some ch)
      else
        match serve msg with
        | None => Some (nack, Some ch)
        | Some (delay, a) =>
            if delay <=? procmsg_timeout msg then Some (a, Some ch)
            else Some (nack, Some (mk_channel (ch_queue ch ++ [a]) (ch_closed ch)))
        end
  end.

(** The first message of the queue is answered and its connection closed. *)
Definition subprocess_step (fuel : nat) (pipe : option channel) (sent : bool)
    (serve : message -> option (Z * answer)) (s : core) : option (nat * answer * option channel * core) :=
  match co_subs s with
  | [] => None
  | (c, msg) :: subs =>
      '(a, pipe) ← handle_subprocess_ipc fuel pipe sent serve msg;
      Some (c, a, pipe, set_conns (co_conns s) subs s)
  end.

(** ** The client *)

(** [ipc_send_cmd]: its result, the message afterwards and the core process; for messages that are
    answered at once. [connected]: the socket could be opened. *)
Definition ipc_send_cmd (connected : bool) (c : nat) (msg : message) (s : core) : Z * answer * core :=
  if negb connected then (-1, mk_answer OTHER_MSG (PMessage msg), s)
  else
    let '(l, _, s) := handle_message c true msg s in
    match l with
    | a :: _ => (0, a, s)
    | [] => (-1, mk_answer OTHER_MSG (PMessage msg), s)
    end.

Definition answer_type (r : Z * answer * core) : Z * msgtype := (r.1.1, an_type r.1.2).

Definition AES_KEY_SIZE : Z := 65.
Definition AES_IVT_SIZE : Z := 33.

(** [None] is NULL. *)
Definition swupdate_set_aes (connected : bool) (c : nat) (key ivt : option string) (s : core) : Z * core :=
  match key, ivt with
  | Some key, Some ivt =>
      if negb (strlen key =? 64) && negb (strlen ivt =? 32) then (- EINVAL, s)
      else
        let '(ret, _, s) :=
          ipc_send_cmd connected c (SetAesKey (strlcpy key AES_KEY_SIZE) (strlcpy ivt AES_IVT_SIZE)) s in (ret, s)
  | _, _ => (- EINVAL, s)
  end.

Definition ipc_string (s : option string) : string := strlcpy (default "" s) IPC_STRING_SIZE.

Definition swupdate_set_version_range_type (connected : bool) (c : nat)
    (updatetype minversion maxversion currentversion : option string) (s : core) : Z * core :=
  let '(ret, _, s) := ipc_send_cmd connected c
    (SetVersionsRange (ipc_string minversion) (ipc_string maxversion) (ipc_string currentversion)
       (ipc_string updatetype)) s in
  (ret, s).

Definition swupdate_set_version_range (connected : bool) (c : nat)
    (minversion maxversion currentversion : option string) (s : core) : Z * core :=
  swupdate_set_version_range_type connected c None minversion maxversion currentversion s.

Definition swupdate_dwl_url (connected : bool) (c : nat) (artifact_name url : string) (s : core) : Z * core :=
  let '(ret, _, s) := ipc_send_cmd connected c
    (SetDeltaUrl (strlcpy artifact_name IPC_STRING_SIZE) (strlcpy url URL_SIZE)) s in
  (ret, s).

(** What [save_state] and [get_state] see of the core process in a child process. *)
Definition set_state_msg (connected : bool) (c : nat) (s : core) (v : Z) : Z * answer * core :=
  ipc_send_cmd connected c (SetUpdateState (swrap 8 v)) s.

Definition get_state_msg (connected : bool) (c : nat) (s : core) : Z * msgtype * Z :=
  let '(ret, a, _) := ipc_send_cmd connected c GetUpdateState s in
  (ret, an_type a, match an_data a with PState v => swrap 8 v | _ => 0 end).

(** The same for the variables. *)
Definition set_vars_msg (connected : bool) (c : nat) (s : core) (ns name value : string) : Z * answer * core :=
  ipc_send_cmd connected c (SetVars ns name value) s.

Definition get_vars_msg (connected : bool) (c : nat) (s : core) (ns name : string) : Z * msgtype * string :=
  let '(ret, a, _) := ipc_send_cmd connected c (GetVars ns name) s in
  (ret, an_type a, match an_data a with PVar v => v | _ => "" end).

(** * Properties *)

(** ** Connections *)

(** Who answers or closes a connection that [handle_message] leaves open. *)
Definition awaited (c : nat) (s : core) : Prop :=
  inst_fd (co_daemon s) = Some c /\ stream_wkup (co_daemon s) = true.

Definition owners (c : nat) (s : core) : Prop :=
  awaited c s \/ c ∈ co_conns s \/ (c ∈ (co_subs s).*1).

(** The lists of connections are as before. *)
Definition same_conns (s s' : core) : Prop :=
  co_daemon s' = co_daemon s /\ co_conns s' = co_conns s /\ co_subs s' = co_subs s.

Lemma same_owners s s' c : same_conns s s' -> owners c s' <-> owners c s.
Proof. unfold owners, awaited. by intros (-> & -> & ->). Qed.

(** A message that is answered at once. *)
Definition simple_message (msg : message) : bool :=
  match msg with ReqInstall _ _ | Subprocess _ _ _ | NotifyStream => false | _ => true end.

Lemma simple_closed c magic msg s l closed s' :
  negb magic || simple_message msg = true -> handle_message c magic msg s = (l, closed, s') ->
  closed = true /\ same_conns s s'.
Proof.
  unfold handle_message, handle_status, reply. destruct magic; cbn [negb orb]; [|by intros _ [= <- <- <-]].
  destruct msg; cbn [simple_message]; try done; intros _ H; repeat case_match; by simplify_eq/=.
Qed.

Lemma install_conns c v req s l closed s' :
  stream_wkup (co_daemon s) = false -> handle_install c v req s = (l, closed, s') ->
  co_conns s' = co_conns s /\ co_subs s' = co_subs s /\
  (if closed then stream_wkup (co_daemon s') = false else awaited c s').
Proof.
  intros Hw. unfold handle_install, reply, req_install.
  destruct (inst_status (co_daemon s)) eqn:Hs; try (by intros [= <- <- <-]).
  destruct (_ && is_selection_allowed _ _ _ _); by intros [= <- <- <-].
Qed.

(** No connection is lost and none is used after it was closed: a message that arrives while no install
    request waits for the installer leaves its connection either closed and forgotten, or open and
    known to exactly the part that will answer it, the installer, the list of listeners or the
    queue of the thread for other processes; no other connection changes its owner. *)
Theorem connection_accounted (c : nat) (magic : bool) (msg : message) (s s' : core) (l : list answer) (closed : bool) :
  stream_wkup (co_daemon s) = false -> ~ owners c s -> handle_message c magic msg s = (l, closed, s') ->
  (closed = true -> ~ owners c s') /\
  (closed = false ->
     (awaited c s' /\ (c ∉ co_conns s') /\ ~ (c ∈ (co_subs s').*1)) \/
     (~ awaited c s' /\ (c ∈ co_conns s') /\ ~ (c ∈ (co_subs s').*1)) \/
     (~ awaited c s' /\ (c ∉ co_conns s') /\ (c ∈ (co_subs s').*1))) /\
  (forall c', c' <> c -> owners c' s' <-> owners c' s).
Proof.
  intros Hw Hno H. destruct (negb magic || simple_message msg) eqn:Hm.
  { destruct (simple_closed _ _ _ _ _ _ _ Hm H) as [-> Hs].
    split_and!; [by rewrite (same_owners _ _ _ Hs)|done|]. intros. by apply same_owners. }
  apply orb_false_iff in Hm as [->%negb_false_iff Hm].
  assert (~ awaited c s /\ (c ∉ co_conns s) /\ ~ (c ∈ (co_subs s).*1)) as (Ha & Hc & Hsb) by (unfold owners in Hno; tauto).
  assert (forall c', ~ awaited c' s) as Hna by (intros c' [_ ?]; congruence).
  destruct msg as [v req| | |src t| | | | | | | | | |]; try done; cbn [handle_message negb] in H.
  - destruct (install_conns _ _ _ _ _ _ _ Hw H) as (E1 & E2 & H3). unfold owners. rewrite E1, E2.
    destruct closed; split_and!; try done.
    + unfold awaited. rewrite H3. intros _ [[_ ?]|?]; [done|tauto].
    + intros c' _. assert (~ awaited c' s') by (unfold awaited; rewrite H3; by intros [_ ?]).
      specialize (Hna c'). tauto.
    + intros _. by left.
    + intros c' Hne. assert (~ awaited c' s') by (destruct H3 as [Ec _]; unfold awaited; rewrite Ec; intros [[=] _]; congruence).
      specialize (Hna c'). tauto.
  - destruct mem; injection H as <- <- <-; unfold owners, awaited; cbn.
    + rewrite fmap_app. cbn. split_and!; [done| |].
      * intros _. right. right. split_and!; [done..|]. apply elem_of_app. right. by apply list_elem_of_singleton.
      * intros c' Hne. rewrite elem_of_app, list_elem_of_singleton. tauto.
    + by split_and!.
  - unfold handle_notify in H.
    destruct (negb (write_ok 0)); [injection H as <- <- <-; by split_and!|].
    destruct (notify_history _ _) as [h|]; [|injection H as <- <- <-; by split_and!].
    destruct mem; injection H as <- <- <-; unfold owners, awaited; cbn; [|by split_and!].
    split_and!; [done| |].
    + intros _. right. left. split_and!; [done| |done]. apply elem_of_app. right. by apply list_elem_of_singleton.
    + intros c' Hne. rewrite elem_of_app, list_elem_of_singleton. tauto.
Qed.

(** ** Child processes *)

Lemma send_answer connected c msg s a s' :
  ipc_send_cmd connected c msg s = (0, a, s') ->
  connected = true /\ exists l closed, handle_message c true msg s = (a :: l, closed, s').
Proof.
  unfold ipc_send_cmd. destruct connected; [|done]. cbn [negb].
  destruct (handle_message c true msg s) as [[[|a' l] closed] s1]; [done|]. intros [= <- <-]. split; [done|].
  by exists l, closed.
Qed.

Lemma reply_sent t p close s a l closed s' :
  reply t p close s = (a :: l, closed, s') -> write_ok 0 = true /\ a = mk_answer t p /\ s' = s.
Proof. unfold reply. destruct (write_ok 0); [|done]. by intros [= <- <- <- <-]. Qed.

Lemma valid_state_byte v : is_valid_state v = true -> swrap 8 v = v /\ wrap 8 v = v.
Proof.
  unfold is_valid_state, STATE_OK, STATE_LAST, STATE_IN_PROGRESS. intros H. bool_to_prop.
  split; [apply swrap_small|apply wrap_small]; lia.
Qed.

(** The answer to a state that was accepted, and the core process after it. *)
Lemma set_state_accepted connected c s v s' a :
  big_endian = false -> is_valid_state v = true ->
  set_state_msg connected c s v = (0, a, s') -> an_type a = ACK ->
  connected = true /\ write_ok 0 = true /\
  exists e, save_state bl STATE_KEY (fun _ => (0, NACK)) false v (m_env (co_mach s)) = (0, e) /\
    m_env (co_mach s') = e.
Proof.
  intros Hb Hv H Ha. apply send_answer in H as (-> & l & closed & H). split; [done|].
  destruct (valid_state_byte v Hv) as [E1 E2].
  unfold handle_message in H. cbn [negb] in H. unfold state_value in H. rewrite Hb, E1, E2, Hv in H. cbn [negb] in H.
  destruct (save_state _ _ _ false v _) as [r e]. apply reply_sent in H as (Hw & -> & ->). split; [done|].
  destruct (Z.eqb_spec r 0) as [->|]; [|done]. by exists e.
Qed.

(** A child process that stores the state of an update without error reads it back, and so does the core
    process: the messages of [save_state] and [get_state] and the thread that answers them fit
    together, on machines that store the low byte first and back ends that keep
    their promises. *)
Theorem child_state_roundtrip `{!EnvStore bl} (connected : bool) (c : nat) (v : Z) (s : core) (e e' : E) :
  big_endian = false -> env_ok (m_env (co_mach s)) -> is_valid_state v = true ->
  env_name_ok (check_state_var STATE_KEY) = true -> env_value_ok (state_string v) = true ->
  save_state bl STATE_KEY (fun v => answer_type (set_state_msg connected c s v)) true v e = (0, e') ->
  let s' := (set_state_msg connected c s v).2 in
  get_state bl STATE_KEY (get_state_msg connected c s') true e' = v /\
  get_state bl STATE_KEY (0, NACK, 0) false (m_env (co_mach s')) = v.
Proof.
  intros Hb He Hv Hk Hs H. unfold save_state, answer_type in H.
  destruct (set_state_msg connected c s v) as [[r a] s'] eqn:Hm. cbn [fst snd] in *.
  destruct (Z.eqb_spec r 0) as [->|]; [|done]. destruct (is_ack (an_type a)) eqn:Ha; [|done].
  assert (an_type a = ACK) as Ha' by (by destruct (an_type a)).
  destruct (set_state_accepted _ _ _ _ _ _ Hb Hv Hm Ha') as (-> & Hw & e1 & Hsv & <-).
  destruct (save_state_read bl STATE_KEY (fun _ => (0, NACK)) (0, NACK, 0) v _ _ He Hv Hk Hs Hsv) as [Hg _].
  split; [|done]. unfold get_state at 1. unfold get_state_msg, ipc_send_cmd.
  cbn -[get_state reply]. unfold reply. rewrite Hw. cbn -[get_state]. rewrite Hg. apply (valid_state_byte v Hv).
Qed.

Lemma vars_initialize_zero def ns d :
  match (swupdate_vars_initialize lib find_namespace def ns d).2 with
  | Some _ => (swupdate_vars_initialize lib find_namespace def ns d).1 = 0
  | None => (swupdate_vars_initialize lib find_namespace def ns d).1 = - EINVAL
  end.
Proof. unfold swupdate_vars_initialize. by repeat case_match. Qed.

(** A child process that sets a variable without error reads its value back, for names, namespaces and
    non-empty values that fit the messages. *)
Theorem child_vars_roundtrip `{!VarsStore lib find_namespace} (connected : bool) (c : nat)
    (name value : string) (namespace : option string) (s : core) (d d' : D) :
  strlen name < IPC_STRING_SIZE -> strlen (default "" namespace) < IPC_STRING_SIZE ->
  0 < strlen value < IPC_STRING_SIZE ->
  swupdate_vars_set lib find_namespace (fun ns n v => answer_type (set_vars_msg connected c s ns n v))
    IPC_STRING_SIZE namespace_default true (Some name) (Some value) namespace d = (0, d') ->
  let s' := (set_vars_msg connected c s (default "" namespace) name value).2 in
  swupdate_vars_get lib find_namespace (get_vars_msg connected c s') IPC_STRING_SIZE namespace_default true
    (Some name) namespace d' = Some value.
Proof.
  intros Hn Hns [Hv0 Hv] H. cbn zeta. unfold swupdate_vars_set, answer_type, ipc_field in H.
  change (default "" (Some ?x)) with x in H.
  rewrite (strlcpy_fits _ _ Hn), (strlcpy_fits _ _ Hns), (strlcpy_fits _ _ Hv) in H.
  destruct (set_vars_msg connected c s _ name value) as [[r a] s'] eqn:Hm. cbn [fst snd] in *.
  destruct (Z.eqb_spec r 0) as [->|]; [|done]. destruct (is_ack (an_type a)) eqn:Ha; [|done].
  apply send_answer in Hm as (-> & l & closed & Hm). unfold handle_message in Hm. cbn [negb] in Hm.
  rewrite (proj2 (Z.eqb_neq (strlen value) 0)) in Hm by lia. unfold swupdate_vars_set_ in Hm.
  pose proof (vars_initialize_zero namespace_default (Some (default "" namespace))
    (m_vars (co_mach s))) as Hz.
  destruct (swupdate_vars_initialize _ _ _ _ (m_vars (co_mach s))) as [ri [ctx|]] eqn:Hi; cbn [fst snd] in Hz.
  2:{ apply reply_sent in Hm as (_ & -> & _). by rewrite Hz in Ha. }
  subst ri. destruct (Uboot.env_store lib _ _) as [rs d1] eqn:Hst. apply reply_sent in Hm as (Hw & -> & ->).
  destruct (Z.eqb_spec rs 0) as [->|]; [|done].
  destruct (vars_store_read _ _ _ _ _ _ _ _ _ Hi Hst) as (ctx' & Hi' & Hg).
  unfold swupdate_vars_get, ipc_field. change (default "" (Some ?x)) with x.
  rewrite (strlcpy_fits _ _ Hn), (strlcpy_fits _ _ Hns).
  unfold get_vars_msg, ipc_send_cmd. cbn -[swupdate_vars_get_ reply].
  unfold swupdate_vars_get_. rewrite Hi', Hg, decide_True by done. unfold reply. rewrite Hw. cbn.
  by rewrite (strlcpy_fits _ _ Hv).
Qed.

(** ** The other processes *)

Lemma empty_pipe_ends fuel ch :
  ch_closed ch = false -> (length (ch_queue ch) < fuel)%nat -> empty_pipe fuel ch = Some (mk_channel [] false).
Proof.
  revert ch. induction fuel as [|fuel IH]; intros [q closed] Hc Hf; [lia|]. cbn in Hc, Hf |- *. subst closed.
  destruct q as [|a q]; [done|]. apply IH; [done|]. cbn in *. lia.
Qed.

(** A client that sends a message to another process gets the answer to that message or a refusal, never
    the late answer to an earlier one: whatever waits in the pipe of a process that runs, the message at the head
    of the queue is answered, its connection leaves the queue, and the answer is what the process
    gives to this message within the timeout of the message, else the message itself, refused. *)
Theorem subprocess_answer_fresh (fuel : nat) (ch : channel) (serve : message -> option (Z * answer))
    (c : nat) (msg : message) (subs : list (nat * message)) (s : core) :
  co_subs s = (c, msg) :: subs -> ch_closed ch = false -> (length (ch_queue ch) < fuel)%nat ->
  exists a pipe s', subprocess_step fuel (Some ch) true serve s = Some (c, a, pipe, s') /\
    co_subs s' = subs /\ co_daemon s' = co_daemon s /\ co_conns s' = co_conns s /\
    a = match serve msg with
        | Some (delay, a) => if delay <=? procmsg_timeout msg then a else mk_answer NACK (PMessage msg)
        | None => mk_answer NACK (PMessage msg)
        end.
Proof.
  intros Hs Hc Hf. unfold subprocess_step, handle_subprocess_ipc. rewrite Hs, empty_pipe_ends by done. cbn.
  destruct (serve msg) as [[delay a]|]; cbn; [case_if; cbn|]; by repeat eexists.
Qed.

(** The process is gone: reading the end of its pipe never fails, and the thread reads it for ever. *)
Theorem closed_pipe_blocks (fuel : nat) (ch : channel) : ch_closed ch = true -> empty_pipe fuel ch = None.
Proof.
  revert ch. induction fuel as [|fuel IH]; intros [q closed] Hc; [done|]. cbn in Hc. subst closed.
  destruct q as [|a q]; by apply IH.
Qed.

(** ** The threads together *)

(** A message, a step of the installer thread on its part of the state, or a step of the thread for other
    processes. *)
Inductive core_step (s : core) : core -> Prop :=
  | core_message c magic msg l closed s' : handle_message c magic msg s = (l, closed, s') -> core_step s s'
  | core_installer e d : installer_event e = true -> daemon_step (co_daemon s) e d ->
      core_step s (set_daemon d (co_req s) (co_queue s) s)
  | core_subprocess fuel pipe sent serve c a pipe' s' :
      subprocess_step fuel pipe sent serve s = Some (c, a, pipe', s') -> core_step s s'.

Lemma handle_daemon c magic msg s l closed s' :
  handle_message c magic msg s = (l, closed, s') ->
  co_daemon s' = co_daemon s \/ exists allowed, co_daemon s' = (req_install c allowed (co_daemon s)).2.
Proof.
  intros H. destruct (negb magic || simple_message msg) eqn:Hm.
  { left. by destruct (simple_closed _ _ _ _ _ _ _ Hm H) as (_ & -> & _). }
  apply orb_false_iff in Hm as [->%negb_false_iff Hm].
  destruct msg as [v req| | |src t| | | | | | | | | |]; try done; cbn [handle_message negb] in H.
  - unfold handle_install, reply in H. destruct (inst_status (co_daemon s)) eqn:Hs; try (left; by injection H as <- <- <-).
    right. set (a := _ && _) in H. exists a. destruct (req_install c a (co_daemon s)) as [[t close] d].
    by injection H as <- <- <-.
  - left. destruct mem; by injection H as <- <- <-.
  - left. unfold handle_notify in H. repeat case_match; by simplify_eq/=.
Qed.

Lemma core_step_daemon s s' :
  core_step s s' -> exists l, daemon_run (co_daemon s) l (co_daemon s').
Proof.
  intros [c magic msg l closed s1 H|e d _ H|fuel pipe sent serve c a pipe' s1 H].
  - destruct (handle_daemon _ _ _ _ _ _ _ H) as [->|[al ->]]; [exists []; constructor|].
    exists [EvRequest c al (req_install c al (co_daemon s)).1.1]. econstructor; [apply req_step|constructor].
  - exists [e]. econstructor; [exact H|constructor].
  - exists []. unfold subprocess_step in H. destruct (co_subs s) as [|[c' m'] subs]; [done|].
    destruct (handle_subprocess_ipc _ _ _ _ _) as [[a' p]|]; [|done]. cbn in H.
    injection H as _ _ _ <-. constructor.
Qed.

Lemma daemon_run_app d l d1 l' d2 : daemon_run d l d1 -> daemon_run d1 l' d2 -> daemon_run d (l ++ l') d2.
Proof. induction 1 as [|d e d1' l d1 S _ IH]; [done|]. intros H. econstructor; [done|]. by apply IH. Qed.

(** C13: the messages refine the steps of the daemon: whatever messages arrive and however the three threads
    interleave, the state of the installer goes through a run of the daemon. So while an
    installation is running no message changes it, and a request to install is refused. *)
Theorem messages_refine_daemon (s s' : core) :
  co_daemon s = daemon_start -> rtc core_step s s' ->
  (exists l, daemon_run daemon_start l (co_daemon s')) /\
  (busy (co_daemon s') = true -> forall c magic msg l closed s2,
     handle_message c magic msg s' = (l, closed, s2) ->
     co_daemon s2 = co_daemon s' /\
     (forall v req, msg = ReqInstall v req -> closed = true /\ Forall (fun a => an_type a = NACK) l)).
Proof.
  intros Hs R.
  assert (exists l, daemon_run daemon_start l (co_daemon s')) as [l Hl].
  { rewrite <- Hs. clear Hs. induction R as [s|s s1 s2 S _ [l2 IH]]; [exists []; constructor|].
    apply core_step_daemon in S as [l1 S]. exists (l1 ++ l2). by eapply daemon_run_app. }
  split; [by exists l|]. intros Hb. pose proof (daemon_run_ok _ _ _ daemon_start_ok Hl) as Hok.
  destruct (ok_busy _ Hok Hb) as [Hst _].
  intros c magic msg l2 closed s2 H. split.
  - destruct (handle_daemon _ _ _ _ _ _ _ H) as [->|[a ->]]; [done|]. by apply (proj2 (request_keeps c a _ Hok)).
  - intros v req ->. unfold handle_message in H. destruct magic; cbn [negb] in H.
    + unfold handle_install in H. rewrite Hst in H. unfold reply in H. injection H as <- <- _.
      split; [done|]. case_if; by repeat constructor.
    + unfold reply in H. injection H as <- <- _. split; [done|]. case_if; by repeat constructor.
Qed.
End Ipc.

(** ** An example: GRUB and a namespace in memory *)

Definition toy_libuboot : @Uboot.libuboot (list (string * string)) (list (string * string)) :=
  Uboot.mk_libuboot (fun d => (0, d)) None (fun ctx _ => ctx) (fun ctx _ => (0, ctx)) (fun ctx _ => (0, ctx))
    (fun ctx n => toy_get n ctx)
    (fun ctx n v => (0, match v with Some v => toy_put n v ctx | None => filter (fun kv => kv.1 <> n) ctx end))
    (fun ctx _ => (0, ctx)).

Definition toy_namespace (ctx : list (string * string)) (ns : string) : option (list (string * string)) :=
  if String.eqb ns "vars" then Some ctx else None.

Lemma toy_get_put n v l m : toy_get m (toy_put n v l) = if decide (m = n) then Some v else toy_get m l.
Proof.
  unfold toy_get. induction l as [|[k w] l IH]; cbn [toy_put find].
  - cbn. destruct (String.eqb_spec m n); case_decide; done.
  - destruct (String.eqb_spec n k) as [->|Hk]; cbn [find fst].
    + destruct (String.eqb_spec m k) as [->|]; [by rewrite decide_True|by rewrite decide_False].
    + destruct (String.eqb_spec m k) as [->|]; [by rewrite decide_False by done|done].
Qed.

#[export] Instance toy_vars_store : VarsStore toy_libuboot toy_namespace.
Proof.
  intros def ns d ctx name value d' Hi Hs. unfold swupdate_vars_initialize in *.
  destruct (choose_namespace def ns) as [n|]; [|done]. cbn in *. unfold toy_namespace in *.
  case_if; [|done]. injection Hi as <-. injection Hs as <-. eexists. split; [done|]. apply toy_get_put.
Qed.

Abbreviation toy_core := (core (E := option string) (D := list (string * string)) (W := unit)).

Definition sample_core (wkup : bool) : toy_core :=
  mk_core (mk_daemon IDLE None wkup false) None FAILURE 0 (mk_queue [] 0) [] [] None (sample_cfg false "raw") [] []
    (mk_machine ∅ sample_env [] [] tt).

Definition no_cmd (cmd : string) (m : machine (option string) (list (string * string)) unit) := (0, m).

Abbreviation toy_handle := (handle_message (grub true) "ustate" toy_libuboot toy_namespace (Some "vars") no_cmd None
  true (fun _ => true) false).

Lemma connection_accounted_witness :
  let s' := (toy_handle 5%nat true (Subprocess 1 0 "get") (sample_core false)).2 in
  co_subs s' = [(5%nat, Subprocess 1 0 "get")] /\ (forall c', c' <> 5%nat -> owners c' s' <-> owners c' (sample_core false)).
Proof.
  split; [reflexivity|].
  refine (proj2 (proj2 (connection_accounted (grub true) "ustate" toy_libuboot toy_namespace (Some "vars") no_cmd None
    true (fun _ => true) false 5 true (Subprocess 1 0 "get") (sample_core false) _ [] false eq_refl _ eq_refl))).
  intros [[H _]|[H|H]]; [discriminate H|inversion H|inversion H].
Defined.

(** The answer to an earlier message waits in the pipe. *)
Definition stale_channel : channel := mk_channel [mk_answer ACK (PText "earlier")] false.

Definition subs_core : toy_core := (toy_handle 5%nat true (Subprocess 1 0 "get") (sample_core false)).2.

Lemma subprocess_answer_fresh_witness :
  exists a pipe s',
    subprocess_step 2 (Some stale_channel) true (fun _ => Some (3, mk_answer ACK (PText "now"))) subs_core =
      Some (5%nat, a, pipe, s') /\
    co_subs s' = [] /\ co_daemon s' = co_daemon subs_core /\ co_conns s' = co_conns subs_core /\
    a = mk_answer ACK (PText "now").
Proof.
  exact (subprocess_answer_fresh 2 stale_channel (fun _ => Some (3, mk_answer ACK (PText "now"))) 5
    (Subprocess 1 0 "get") [] subs_core eq_refl eq_refl ltac:(cbn; lia)).
Defined.

Abbreviation toy_set_state := (set_state_msg (grub true) "ustate" toy_libuboot toy_namespace (Some "vars") no_cmd None
  true (fun _ => true) false true 5).
Abbreviation toy_get_state := (get_state_msg (grub true) "ustate" toy_libuboot toy_namespace (Some "vars") no_cmd None
  true (fun _ => true) false true 5).

Lemma child_state_roundtrip_witness :
  get_state (grub true) "ustate" (toy_get_state (toy_set_state (sample_core false) STATE_FAILED).2) true None = STATE_FAILED.
Proof.
  refine (proj1 (child_state_roundtrip (grub true) "ustate" toy_libuboot toy_namespace (Some "vars") no_cmd None true
    (fun _ => true) false true 5 STATE_FAILED (sample_core false) None None eq_refl sample_env_ok eq_refl eq_refl eq_refl _)).
  vm_compute. reflexivity.
Defined.

Abbreviation toy_set_vars := (set_vars_msg (grub true) "ustate" toy_libuboot toy_namespace (Some "vars") no_cmd None
  true (fun _ => true) false true 5).
Abbreviation toy_get_vars := (get_vars_msg (grub true) "ustate" toy_libuboot toy_namespace (Some "vars") no_cmd None
  true (fun _ => true) false true 5).

Lemma child_vars_roundtrip_witness :
  swupdate_vars_get toy_libuboot toy_namespace (toy_get_vars (toy_set_vars (sample_core false) "vars" "color" "red").2)
    IPC_STRING_SIZE (Some "vars") true (Some "color") (Some "vars") [] = Some "red".
Proof.
  refine (child_vars_roundtrip (grub true) "ustate" toy_libuboot toy_namespace (Some "vars") no_cmd None true
    (fun _ => true) false true 5 "color" "red" (Some "vars") (sample_core false) [] [] _ _ _ _).
  - vm_compute. reflexivity.
  - vm_compute. reflexivity.
  - vm_compute. split; reflexivity.
  - vm_compute. reflexivity.
Defined.

Definition install_msg : message := ReqInstall 1 (mk_request RUN_DEFAULT "" "" false).

Definition install_core (status : RECOVERY_STATUS) (wkup busy : bool) : toy_core :=
  set_daemon (mk_daemon status (Some 1%nat) wkup busy) (Some (mk_request RUN_DEFAULT "" "" false)) (mk_queue [] 0)
    (sample_core false).

Definition running_core : toy_core := install_core RUN false true.

Lemma messages_refine_daemon_witness :
  rtc (core_step (grub true) "ustate" toy_libuboot toy_namespace (Some "vars") no_cmd None true (fun _ => true) false)
    (sample_core false) running_core /\
  co_daemon (toy_handle 2%nat true install_msg running_core).2 = co_daemon running_core.
Proof.
  assert (rtc (core_step (grub true) "ustate" toy_libuboot toy_namespace (Some "vars") no_cmd None true
    (fun _ => true) false) (sample_core false) running_core) as R.
  { apply (rtc_l _ _ (install_core IDLE true false)); 
      [by apply (core_message _ _ _ _ _ _ _ _ _ _ _ 1%nat true install_msg [mk_answer ACK PEmpty] false)|].
    apply (rtc_l _ _ running_core); [|apply rtc_refl].
    exact (core_installer _ _ _ _ _ _ _ _ _ _ (install_core IDLE true false) (EvWake (Some 1%nat))
      (mk_daemon RUN (Some 1%nat) false true) eq_refl (step_wake (mk_daemon IDLE (Some 1%nat) true false) _ eq_refl)). }
  split; [exact R|].
  exact (proj1 (proj2 (messages_refine_daemon (grub true) "ustate" toy_libuboot toy_namespace (Some "vars") no_cmd None
    true (fun _ => true) false (sample_core false) running_core eq_refl R) eq_refl 2%nat true install_msg _ _ _ eq_refl)).
Defined.

(** ** Defects *)

(** The client of [SET_AES_KEY] reports success although the key was refused: it looks at the transfer
    and not at the answer, and it only refuses a key when the key and the vector both have a
    wrong length. *)
Theorem refused_key_reported_set :
  let s := sample_core false in
  (swupdate_set_aes (grub true) "ustate" toy_libuboot toy_namespace (Some "vars") no_cmd None true (fun _ => true) false
     true 5 (Some "00") (Some "00112233445566778899aabbccddeeff") s).1 = 0 /\
  an_type <$> (toy_handle 5%nat true (SetAesKey "00" "00112233445566778899aabbccddeeff") s).1.1 = [NACK].
Proof. split; vm_compute; reflexivity. Qed.

(** On a machine that stores the high byte first, a child process cannot store any state. *)
Theorem big_endian_state_refused (v : Z) (s : toy_core) :
  is_valid_state v = true ->
  an_type (set_state_msg (grub true) "ustate" toy_libuboot toy_namespace (Some "vars") no_cmd None true
    (fun _ => true) true true 5 s v).1.2 = NACK.
Proof.
  intros Hv. destruct (valid_state_byte v Hv) as [E1 E2].
  unfold set_state_msg, ipc_send_cmd. cbn [negb]. unfold handle_message, state_value. cbn [negb]. rewrite E1, E2.
  replace (is_valid_state (swrap 32 (v * 2 ^ 24))) with false; [done|].
  unfold is_valid_state, STATE_OK, STATE_LAST, STATE_IN_PROGRESS in *. symmetry. bool_to_prop.
  rewrite swrap_small by lia. apply andb_false_iff. right. lia.
Qed.
