(* ===== verification/Channel.v ===== *)
(** * Channels to a server: [corelib/channel_curl.c]

    A channel asks a server for replies, posts data, and downloads an artifact straight into the installer. A download
    that is interrupted is resumed behind the bytes that have arrived; it may start with a cached part. libcurl is a
    parameter: what its transfers deliver. *)
From S2P Require Import Prelude CString Util Crypto Cpio Copyfile.

(** [include/channel_op_res.h]. *)
Inductive channel_op_res_t := CHANNEL_OK | CHANNEL_EINIT | CHANNEL_ENONET | CHANNEL_ENOMEM | CHANNEL_EACCES
  | CHANNEL_ENOENT | CHANNEL_EIO | CHANNEL_EILSEQ | CHANNEL_EAGAIN | CHANNEL_ELOOP | CHANNEL_EBADMSG
  | CHANNEL_ENOTFOUND | CHANNEL_EREDIRECT | CHANNEL_ESSLCERT | CHANNEL_ESSLCONNECT | CHANNEL_REQUEST_PENDING.

#[export] Instance channel_op_res_eq_dec : EqDecision channel_op_res_t.
Proof. solve_decision. Defined.

Definition is_ok (r : channel_op_res_t) : bool := bool_decide (r = CHANNEL_OK).

(** The results of libcurl that the code tells apart; [CURLE_OTHER] are all others. *)
Inductive CURLcode := CURLE_OK | CURLE_NOT_BUILT_IN | CURLE_BAD_FUNCTION_ARGUMENT | CURLE_UNKNOWN_OPTION
  | CURLE_SSL_ENGINE_NOTFOUND | CURLE_SSL_ENGINE_SETFAILED | CURLE_SSL_CERTPROBLEM | CURLE_SSL_CIPHER
  | CURLE_SSL_ENGINE_INITFAILED | CURLE_SSL_CACERT_BADFILE | CURLE_SSL_CRL_BADFILE | CURLE_SSL_ISSUER_ERROR
  | CURLE_SSL_INVALIDCERTSTATUS | CURLE_SSL_PINNEDPUBKEYNOTMATCH | CURLE_COULDNT_RESOLVE_PROXY
  | CURLE_COULDNT_RESOLVE_HOST | CURLE_COULDNT_CONNECT | CURLE_INTERFACE_FAILED | CURLE_USE_SSL_FAILED
  | CURLE_HTTP2_STREAM | CURLE_OPERATION_TIMEDOUT | CURLE_SEND_ERROR | CURLE_RECV_ERROR | CURLE_GOT_NOTHING
  | CURLE_HTTP_POST_ERROR | CURLE_PARTIAL_FILE | CURLE_OUT_OF_MEMORY | CURLE_REMOTE_FILE_NOT_FOUND
  | CURLE_FILESIZE_EXCEEDED | CURLE_ABORTED_BY_CALLBACK | CURLE_WRITE_ERROR | CURLE_CHUNK_FAILED
  | CURLE_SSL_SHUTDOWN_FAILED | CURLE_TOO_MANY_REDIRECTS | CURLE_BAD_CONTENT_ENCODING | CURLE_CONV_FAILED
  | CURLE_CONV_REQD | CURLE_REMOTE_ACCESS_DENIED | CURLE_LOGIN_DENIED | CURLE_PEER_FAILED_VERIFICATION
  | CURLE_SSL_CONNECT_ERROR | CURLE_OTHER (code : Z).

Definition channel_map_curl_error (res : CURLcode) : channel_op_res_t :=
  match res with
  | CURLE_NOT_BUILT_IN | CURLE_BAD_FUNCTION_ARGUMENT | CURLE_UNKNOWN_OPTION | CURLE_SSL_ENGINE_NOTFOUND
  | CURLE_SSL_ENGINE_SETFAILED | CURLE_SSL_CERTPROBLEM | CURLE_SSL_CIPHER | CURLE_SSL_ENGINE_INITFAILED
  | CURLE_SSL_CACERT_BADFILE | CURLE_SSL_CRL_BADFILE | CURLE_SSL_ISSUER_ERROR | CURLE_SSL_INVALIDCERTSTATUS
  | CURLE_SSL_PINNEDPUBKEYNOTMATCH => CHANNEL_EINIT
  | CURLE_COULDNT_RESOLVE_PROXY | CURLE_COULDNT_RESOLVE_HOST | CURLE_COULDNT_CONNECT | CURLE_INTERFACE_FAILED
  | CURLE_USE_SSL_FAILED | CURLE_HTTP2_STREAM => CHANNEL_ENONET
  | CURLE_OPERATION_TIMEDOUT | CURLE_SEND_ERROR | CURLE_RECV_ERROR | CURLE_GOT_NOTHING | CURLE_HTTP_POST_ERROR
  | CURLE_PARTIAL_FILE => CHANNEL_EAGAIN
  | CURLE_OUT_OF_MEMORY => CHANNEL_ENOMEM
  | CURLE_REMOTE_FILE_NOT_FOUND => CHANNEL_ENOENT
  | CURLE_FILESIZE_EXCEEDED | CURLE_ABORTED_BY_CALLBACK | CURLE_WRITE_ERROR | CURLE_CHUNK_FAILED
  | CURLE_SSL_SHUTDOWN_FAILED => CHANNEL_EIO
  | CURLE_TOO_MANY_REDIRECTS => CHANNEL_ELOOP
  | CURLE_BAD_CONTENT_ENCODING | CURLE_CONV_FAILED | CURLE_CONV_REQD => CHANNEL_EILSEQ
  | CURLE_REMOTE_ACCESS_DENIED | CURLE_LOGIN_DENIED => CHANNEL_EACCES
  | CURLE_PEER_FAILED_VERIFICATION => CHANNEL_ESSLCERT
  | CURLE_SSL_CONNECT_ERROR => CHANNEL_ESSLCONNECT
  | CURLE_OK => CHANNEL_OK
  | CURLE_OTHER _ => CHANNEL_EINIT
  end.

(** What [curl_easy_getinfo] tells after a transfer: the response code ([None] if the option is unknown), the scheme,
    and the URL of a redirection. *)
Record curl_info := mk_curl_info {
  ci_response : option Z;
  ci_scheme : option string;
  ci_redirect : option string;
}.

Definition lower (s : string) : string := str_map tolower s.

(** The result, and the redirection that is stored. *)
Definition channel_map_http_code (info : curl_info) : channel_op_res_t * option string :=
  match ci_response info with
  | None => (CHANNEL_EINIT, None)
  | Some code =>
      if code =? 0 then
        (if bool_decide (lower <$> ci_scheme info = Some "file") then CHANNEL_OK else CHANNEL_EBADMSG, None)
      else if existsb (Z.eqb code) [401; 403; 405; 407; 503] then (CHANNEL_EACCES, None)
      else if existsb (Z.eqb code) [400; 406; 443; 409] then (CHANNEL_EBADMSG, None)
      else if code =? 404 then (CHANNEL_ENOTFOUND, None)
      else if code =? 429 then (CHANNEL_EAGAIN, None)
      else if existsb (Z.eqb code) [200; 201; 204; 206; 226] then (CHANNEL_OK, None)
      else if code =? 302 then (CHANNEL_EREDIRECT, ci_redirect info)
      else (CHANNEL_EBADMSG, None)
  end.

(** The stream to the installer, [ipc_send_data] of [ipc/network_ipc.c]: an interrupted write is an error. *)
Fixpoint ipc_send_loop (pl : list wr_event) (out buf : bytes) : bool * sink :=
  match buf with
  | [] => (true, mk_sink out pl)
  | _ =>
      match pl with
      | [] => (true, mk_sink (out ++ buf) [])
      | WrIntr :: pl | WrErr :: pl => (false, mk_sink out pl)
      | WrSome n :: pl => ipc_send_loop pl (out ++ take n buf) (drop n buf)
      end
  end.

Definition ipc_send_data (w : sink) (buf : bytes) : bool * sink := ipc_send_loop (plan w) (written w) buf.

(** ** Downloads *)

(** The parts of [channel_data_t] that a download uses. The callback [dwlwrdata] gets the block and the state of its
    owner, and gives the number of bytes it takes. *)
Record channel_data_t (S : Type) := mk_channel_data {
  cd_usessl : bool;
  cd_noipc : bool;
  cd_retries : Z;
  cd_cached_file : option string;
  cd_dwlwrdata : option (bytes -> S -> nat * S);
}.
Arguments mk_channel_data {S}. Arguments cd_usessl {S}. Arguments cd_noipc {S}. Arguments cd_retries {S}.
Arguments cd_cached_file {S}. Arguments cd_dwlwrdata {S}.

(** The variables of a download: the digest, the stream, [result_channel_callback_ipc] and the state of the owner. *)
Record download (C S : Type) := mk_download {
  dw_dgst : option C;
  dw_out : sink;
  dw_result : channel_op_res_t;
  dw_user : S;
}.
Arguments mk_download {C S}. Arguments dw_dgst {C S}. Arguments dw_out {C S}. Arguments dw_result {C S}.
Arguments dw_user {C S}.

(** What happens to a download: the calls that set up the transfer, the attempts to reach the installer, and for every
    attempt what [curl_easy_perform] delivers from an offset on. *)
Record curl_net := mk_curl_net {
  net_header : bool;
  net_options : channel_op_res_t;
  net_get : bool;
  net_start : list bool;
  net_writer : bool;
  net_cache : string -> option fd;
  net_cache_mem : bool;
  net_resume : nat -> bool;
  net_perform : nat -> nat -> list bytes * CURLcode;
  net_size : nat -> CURLcode;
  net_reply : curl_info;
}.

Section Download.
Context {C S : Type} (hl : hash_lib C) (cd : channel_data_t S) (net : curl_net).
Abbreviation dw := (download C S).

Definition dw_fail (d : dw) : dw := mk_download (dw_dgst d) (dw_out d) CHANNEL_EIO (dw_user d).

(** The response code, which is also looked up here for the log, is looked up again at the end. *)
Definition callback_send (block : bytes) (d : dw) : nat * dw :=
  let '(ok, out) := if cd_noipc cd then (true, dw_out d) else ipc_send_data (dw_out d) block in
  let d := mk_download (dw_dgst d) out (dw_result d) (dw_user d) in
  if negb ok then (0%nat, dw_fail d)
  else
    match cd_dwlwrdata cd with
    | Some dwlwrdata =>
        let '(n, u) := dwlwrdata block (dw_user d) in (n, mk_download (dw_dgst d) (dw_out d) (dw_result d) u)
    | None => (length block, d)
    end.

Definition channel_callback_ipc (block : bytes) (d : dw) : nat * dw :=
  if (length block =? 0)%nat then (0%nat, d)
  else
    let d := mk_download (dw_dgst d) (dw_out d) CHANNEL_OK (dw_user d) in
    if cd_usessl cd then
      match dw_dgst d ≫= fun c => HASH_update hl c block with
      | Some c => callback_send block (mk_download (Some c) (dw_out d) (dw_result d) (dw_user d))
      | None => (0%nat, dw_fail d)
      end
    else callback_send block d.

(** The blocks that [read] gives until it fails or ends. *)
Fixpoint pieces (n : nat) (b : bytes) : list bytes :=
  match n with
  | O => []
  | Datatypes.S n => match b with [] => [] | _ => take BUFF_SIZE b :: pieces n (drop BUFF_SIZE b) end
  end.

Fixpoint read_blocks (f : fd) : list bytes :=
  match f with
  | RdData b bs :: f => pieces (length (b :: bs)) (b :: bs) ++ read_blocks f
  | _ => []
  end.

Fixpoint cache_loop (blocks : list bytes) (processed : nat) (d : dw) : nat * dw :=
  match blocks with
  | [] => (processed, d)
  | block :: blocks =>
      let '(n, d) := channel_callback_ipc block d in
      if (n =? 0)%nat then (processed, d) else cache_loop blocks (processed + length block) d
  end.

(** The file is removed behind it, if there was memory to read it. *)
Definition resume_cache_file (fname : string) (d : dw) : nat * dw :=
  if strlen fname =? 0 then (0%nat, d)
  else
    match net_cache net fname with
    | None => (0%nat, d)
    | Some f => if negb (net_cache_mem net) then (0%nat, d) else cache_loop (read_blocks f) 0 d
    end.

(** libcurl gives the blocks to the callback; one that does not take a whole block ends the transfer. *)
Fixpoint curl_write (blocks : list bytes) (code : CURLcode) (got : nat) (d : dw) : CURLcode * nat * dw :=
  match blocks with
  | [] => (code, got, d)
  | block :: blocks =>
      let '(n, d) := channel_callback_ipc block d in
      if (n =? length block)%nat then curl_write blocks code (got + length block) d
      else (CURLE_WRITE_ERROR, (got + length block)%nat, d)
  end.

(** The [do] loop. [left] counts the increments of the [unsigned char] [try_count] up to its wrap-around, which ends the loop,
    [k] the transfers. [Some] is a [goto cleanup_file]. *)
Fixpoint get_loop (left : nat) (retries : Z) (k total : nat) (curlrc : CURLcode) (d : dw) : option channel_op_res_t * dw :=
  match left with
  | O => (None, d)
  | Datatypes.S left' =>
      let try_count := 256 - Z.of_nat left in
      if (0 <? try_count) && (retries =? 0) then (Some (channel_map_curl_error curlrc), d)
      else if (0 <? try_count) && (retries <? try_count) then (Some CHANNEL_ELOOP, d)
      else if (0 <? try_count) && negb (net_resume net k) then (Some (channel_map_curl_error curlrc), d)
      else
        let '(blocks, code) := net_perform net k total in
        let '(curlrc, got, d) := curl_write blocks code 0 d in
        let result := channel_map_curl_error curlrc in
        if negb (bool_decide (result = CHANNEL_ENONET)) && negb (is_ok result) && negb (bool_decide (result = CHANNEL_EAGAIN))
        then (Some result, d)
        else
          match net_size net k with
          | CURLE_OK =>
              if is_ok result then (None, d) else get_loop left' retries (Datatypes.S k) (total + got) curlrc d
          | err => (Some (channel_map_curl_error err), d)
          end
  end.

(** The hexadecimal digits of the hash. *)
Definition sha1_text (md : bytes) : string := hex_string (byte_of <$> md).

(** The part of [channel_get_file] behind the set-up of the transfer; the result, [sha1hash] and the variables. *)
Definition get_file_opened (d : dw) : channel_op_res_t * string * dw :=
  let '(total, d) := match cd_cached_file cd with Some f => resume_cache_file f d | None => (0%nat, d) end in
  let cached := (0 <? total)%nat in
  match get_loop (if cached then 255 else 256) (if cached then u32 (cd_retries cd + 1) else cd_retries cd) 0 total CURLE_OK d with
  | (Some result, d) => (result, "", d)
  | (None, d) =>
      let result := (channel_map_http_code (net_reply net)).1 in
      if negb (is_ok (dw_result d)) then (CHANNEL_EIO, "", d)
      else if cd_usessl cd then
        match dw_dgst d ≫= HASH_final hl with
        | Some md => (result, sha1_text md, d)
        | None => (result, "", d)
        end
      else (result, "", d)
  end.

(** The stream to the installer is [out]; asking for the size, which only serves the progress, is left out. *)
Definition channel_get_file (out : sink) (u : S) : channel_op_res_t * string * dw :=
  let dgst := if cd_usessl cd then HASH_init hl else None in
  let d := mk_download dgst out CHANNEL_OK u in
  if cd_usessl cd && bool_decide (dgst = None) then (CHANNEL_EINIT, "", d)
  else if negb (net_header net) then (CHANNEL_EINIT, "", d)
  else if negb (is_ok (net_options net)) then (net_options net, "", d)
  else if negb (net_get net) then (CHANNEL_EINIT, "", d)
  else if negb (cd_noipc cd) && negb (existsb id (take 4 (net_start net))) then (CHANNEL_EIO, "", d)
  else if negb (net_writer net) then (CHANNEL_EINIT, "", d)
  else get_file_opened d.
End Download.

(** ** Requests *)

Inductive channel_method_t := CHANNEL_GET | CHANNEL_POST | CHANNEL_PUT | CHANNEL_PATCH | CHANNEL_DELETE | CHANNEL_HEAD.

Inductive channel_body_t := CHANNEL_PARSE_NONE | CHANNEL_PARSE_JSON | CHANNEL_PARSE_RAW.

(** What happens to a request: the results of the calls that set it up, the reply, and memory for the [n]-th block. *)
Record curl_reply := mk_curl_reply {
  re_content : channel_op_res_t;
  re_options : channel_op_res_t;
  re_method : bool;
  re_malloc : bool;
  re_writer : bool;
  re_blocks : list bytes;
  re_code : CURLcode;
  re_realloc : nat -> bool;
  re_info : curl_info;
  re_strndup : bool;
}.

Section Request.
Context {J : Type} (json_tokener_parse : bytes -> option (option J)) (nocheckanswer : bool) (format : channel_body_t)
  (re : curl_reply).

(** The buffer of the reply; [None] behind a failure. *)
Definition channel_callback_membuffer (n : nat) (block : bytes) (memory : bytes) : nat * option bytes :=
  if (length block =? 0)%nat then (0%nat, Some memory)
  else if negb (re_realloc re n) then (0%nat, None)
  else (length block, Some (memory ++ block)).

Fixpoint reply_write (n : nat) (blocks : list bytes) (memory : bytes) : CURLcode * option bytes :=
  match blocks with
  | [] => (re_code re, Some memory)
  | block :: blocks =>
      match channel_callback_membuffer n block memory with
      | (k, Some memory) => if (k =? length block)%nat then reply_write (S n) blocks memory else (CURLE_WRITE_ERROR, Some memory)
      | (_, None) => (CURLE_WRITE_ERROR, None)
      end
  end.

Definition setup_reply_buffer : channel_op_res_t :=
  if negb (re_malloc re) then CHANNEL_ENOMEM else if negb (re_writer re) then CHANNEL_EINIT else CHANNEL_OK.

(** The result, [json_reply] and [raw_reply]. *)
Definition parse_reply (memory : option bytes) : channel_op_res_t * option J * option string :=
  match memory with
  | None => (CHANNEL_ENOMEM, None, None)
  | Some [] => (CHANNEL_OK, None, None)
  | Some memory =>
      match format with
      | CHANNEL_PARSE_JSON =>
          match json_tokener_parse memory with
          | Some j => (CHANNEL_OK, j, None)
          | None => (CHANNEL_EBADMSG, None, None)
          end
      | CHANNEL_PARSE_RAW =>
          if re_strndup re then (CHANNEL_OK, None, Some (cstring memory)) else (CHANNEL_ENOMEM, None, None)
      | CHANNEL_PARSE_NONE => (CHANNEL_OK, None, None)
      end
  end.

Definition perform_request : channel_op_res_t * option J * option string :=
  let '(curlrc, memory) := reply_write 0 (re_blocks re) [] in
  let result := channel_map_curl_error curlrc in
  if negb (is_ok result) then (result, None, None)
  else
    let result := (channel_map_http_code (re_info re)).1 in
    if nocheckanswer || negb (is_ok result) then (result, None, None) else parse_reply memory.

Definition channel_get : channel_op_res_t * option J * option string :=
  if negb (is_ok (re_content re)) then (re_content re, None, None)
  else if negb (is_ok (re_options re)) then (re_options re, None, None)
  else if negb (re_method re) then (CHANNEL_EINIT, None, None)
  else if negb (is_ok setup_reply_buffer) then (setup_reply_buffer, None, None)
  else perform_request.

(** The buffer is set up before the method. *)
Definition channel_post_method : channel_op_res_t * option J * option string :=
  if negb (is_ok (re_content re)) then (re_content re, None, None)
  else if negb (is_ok (re_options re)) then (re_options re, None, None)
  else if negb (is_ok setup_reply_buffer) then (setup_reply_buffer, None, None)
  else if negb (re_method re) then (CHANNEL_EINIT, None, None)
  else perform_request.

Definition channel_put (method : channel_method_t) : channel_op_res_t * option J * option string :=
  match method with
  | CHANNEL_GET => (CHANNEL_EINIT, None, None)
  | _ => channel_post_method
  end.
End Request.

(** * Properties *)

Lemma is_ok_eq r : is_ok r = true <-> r = CHANNEL_OK.
Proof. apply bool_decide_eq_true. Qed.

Lemma map_curl_ok code : channel_map_curl_error code = CHANNEL_OK <-> code = CURLE_OK.
Proof. by destruct code. Qed.

Lemma ipc_send_loop_all pl out buf w : ipc_send_loop pl out buf = (true, w) -> written w = out ++ buf /\ plan w `suffix_of` pl.
Proof.
  revert out buf. induction pl as [|e pl IH]; intros out [|b buf]; cbn [ipc_send_loop];
    try (intros [= <-]; cbn; by rewrite ?app_nil_r).
  destruct e as [n| |]; try done. intros E. apply IH in E as [E1 E2]. split; [|by apply suffix_cons_r].
  rewrite E1, <- app_assoc. by rewrite take_drop.
Qed.

(** A stream that never fails. *)
Definition open_sink (pl : list wr_event) : Prop := Forall (fun e => exists n, e = WrSome n) pl.

Lemma ipc_send_loop_open pl out buf : open_sink pl -> (ipc_send_loop pl out buf).1 = true.
Proof.
  intros H. revert out buf. induction H as [|e pl [n ->] H IH]; intros out [|b buf]; try done. apply IH.
Qed.

(** ** The state of the owner *)

Section Owner.
Context {C S : Type} (hl : hash_lib C) (cd : channel_data_t S) (net : curl_net) (I : S -> Prop).
Hypothesis step : forall f b u, cd_dwlwrdata cd = Some f -> I u -> I (f b u).2.
Abbreviation dw := (download C S).

Lemma callback_owner block (d : dw) : I (dw_user d) -> I (dw_user (channel_callback_ipc hl cd block d).2).
Proof.
  intros Hd. unfold channel_callback_ipc, callback_send. destruct (length block =? 0)%nat; [done|]. cbn [dw_dgst dw_out dw_result dw_user].
  assert (Hs : forall c : option C, I (dw_user (callback_send cd block (mk_download c (dw_out d) CHANNEL_OK (dw_user d))).2)).
  { intros c. unfold callback_send. cbn [dw_dgst dw_out dw_result dw_user]. destruct (if cd_noipc cd then _ else _) as [ok out].
    destruct ok; [|done]. cbn [negb]. destruct (cd_dwlwrdata cd) as [f|]; [|done].
    pose proof (step f block (dw_user d) eq_refl Hd) as Hu. by destruct (f _ _) as [n u]. }
  destruct (cd_usessl cd); [|apply Hs]. destruct (dw_dgst d ≫= _); [apply Hs|done].
Qed.

Lemma curl_write_owner blocks code got (d : dw) : I (dw_user d) -> I (dw_user (curl_write hl cd blocks code got d).2).
Proof.
  revert got d. induction blocks as [|block blocks IH]; intros got d Hd; [done|]. cbn [curl_write].
  pose proof (callback_owner block d Hd) as H1. destruct (channel_callback_ipc hl cd block d) as [n d1].
  destruct (n =? length block)%nat; [by apply IH|done].
Qed.

Lemma cache_loop_owner blocks n (d : dw) : I (dw_user d) -> I (dw_user (cache_loop hl cd blocks n d).2).
Proof.
  revert n d. induction blocks as [|block blocks IH]; intros n d Hd; [done|]. cbn [cache_loop].
  pose proof (callback_owner block d Hd) as H1. destruct (channel_callback_ipc hl cd block d) as [k d1].
  destruct (k =? 0)%nat; [done|by apply IH].
Qed.

Lemma get_loop_owner left retries k total curlrc (d : dw) :
  I (dw_user d) -> I (dw_user (get_loop hl cd net left retries k total curlrc d).2).
Proof.
  revert k total curlrc d. induction left as [|left IH]; intros k total curlrc d Hd; [done|]. cbn [get_loop].
  do 3 (destruct (_ && _); [done|]). destruct (net_perform net k total) as [blocks code].
  pose proof (curl_write_owner blocks code 0 d Hd) as H1. destruct (curl_write _ _ _ _ _ _) as [[c g] d1].
  destruct (negb (bool_decide _) && _ && _); [done|]. destruct (net_size net k); try done. destruct (is_ok _); [done|]. by apply IH.
Qed.

(** What the callback keeps, a download keeps. *)
Lemma get_file_owner out u : I u -> I (dw_user (channel_get_file hl cd net out u).2).
Proof.
  intros Hu. unfold channel_get_file. destruct (cd_usessl cd && _); [done|]. destruct (negb (net_header net)); [done|].
  destruct (negb (is_ok _)); [done|]. destruct (negb (net_get net)); [done|]. destruct (negb (cd_noipc cd) && _); [done|].
  destruct (negb (net_writer net)); [done|]. set (d := mk_download _ out _ u). unfold get_file_opened.
  assert (H1 : I (dw_user (match cd_cached_file cd with Some f => resume_cache_file hl cd net f d | None => (0%nat, d) end).2)).
  { unfold resume_cache_file. destruct (cd_cached_file cd); [|done]. destruct (_ =? 0); [done|]. destruct (net_cache net _); [|done].
    destruct (net_cache_mem net); [|done]. by apply cache_loop_owner. }
  destruct (match cd_cached_file cd with Some f => _ | None => _ end) as [total d1].
  pose proof (get_loop_owner (if (0 <? total)%nat then 255 else 256) (if (0 <? total)%nat then u32 (cd_retries cd + 1) else cd_retries cd)
    0 total CURLE_OK d1 H1) as H2.
  destruct (get_loop _ _ _ _ _ _ _ _ _) as [[r|] d2]; [done|]. destruct (negb (is_ok _)); [done|].
  destruct (cd_usessl cd); [|done]. by destruct (dw_dgst d2 ≫= _).
Qed.
End Owner.

Section Delivered.
Context {C S : Type} (hl : hash_lib C) `{!HashSpec hl} (cd : channel_data_t S) (net : curl_net) (out0 : bytes).
Abbreviation dw := (download C S).

(** What the owner knows of the bytes that it has taken, if the blocks are of some kind. *)
Context (P : bytes -> Prop) (R : bytes -> S -> Prop).
Definition owner_takes : Prop := forall g b u, b <> [] -> P b -> R g u ->
  match cd_dwlwrdata cd with Some f => (f b u).1 = length b -> R (g ++ b) (f b u).2 | None => R (g ++ b) u end.
Hypothesis takes : owner_takes.

(** The blocks that libcurl and the cache deliver. *)
Record blocks_are : Prop := {
  ba_net : forall k o, Forall P (net_perform net k o).1;
  ba_cache : forall name c, net_cache net name = Some c -> Forall P (read_blocks c);
}.

(** The stream and the owner have got the bytes [g], and the digest is theirs. *)
Record delivered (g : bytes) (d : dw) : Prop := {
  de_out : cd_noipc cd = false -> written (dw_out d) = out0 ++ g;
  de_hash : cd_usessl cd = true -> exists c, dw_dgst d = Some c /\ hash_rep c g;
  de_user : R g (dw_user d);
}.

(** Nothing fails: the stream, the digest, the callback. *)
Record smooth : Prop := {
  sm_update : forall c b, exists c', HASH_update hl c b = Some c';
  sm_final : forall c, exists md, HASH_final hl c = Some md;
  sm_dwl : forall f b u, cd_dwlwrdata cd = Some f -> (f b u).1 = length b;
}.

Lemma callback_takes g block (d d' : dw) :
  P block -> delivered g d -> channel_callback_ipc hl cd block d = (length block, d') ->
  delivered (g ++ block) d' /\ (dw_result d' = CHANNEL_OK \/ block = [] /\ d' = d) /\
    plan (dw_out d') `suffix_of` plan (dw_out d).
Proof.
  unfold channel_callback_ipc. intros HP [Ho Hh HR] E. destruct (Nat.eqb_spec (length block) 0) as [E0|E0].
  { apply nil_length_inv in E0 as ->. injection E as <-. rewrite app_nil_r. split_and!; [done|by right|done]. }
  assert (Hsend : forall d1 : dw, dw_out d1 = dw_out d -> dw_user d1 = dw_user d -> dw_result d1 = CHANNEL_OK ->
    (cd_usessl cd = true -> exists c, dw_dgst d1 = Some c /\ hash_rep c (g ++ block)) ->
    callback_send cd block d1 = (length block, d') ->
    delivered (g ++ block) d' /\ dw_result d' = CHANNEL_OK /\ plan (dw_out d') `suffix_of` plan (dw_out d)).
  { intros d1 Eo Eu0 Er Hc. unfold callback_send. pose proof (takes g block _ ltac:(by intros ->) HP HR) as Ht. rewrite <- Eu0 in Ht.
    destruct (if cd_noipc cd then _ else _) as [ok out] eqn:Es. destruct ok; [|cbn; intros [= H ?]; lia]. cbn [negb].
    assert (Hout : (cd_noipc cd = false -> written out = out0 ++ g ++ block) /\ plan out `suffix_of` plan (dw_out d)).
    { rewrite Eo in Es. destruct (cd_noipc cd); [injection Es as <-; done|].
      apply ipc_send_loop_all in Es as [E1 E2]. split; [|done]. intros _. by rewrite E1, Ho, app_assoc. }
    destruct Hout. cbn [dw_user]. destruct (cd_dwlwrdata cd) as [f|]; [destruct (f _ _) as [n u]|]; intros; simplify_eq;
      (split_and!; [split|..]; auto). }
  destruct (cd_usessl cd) eqn:Essl.
  - destruct (Hh eq_refl) as (c & Ec & Hc). cbn [dw_dgst] in E. rewrite Ec in E. cbn in E.
    destruct (HASH_update hl c block) as [c'|] eqn:Eu; [|injection E; lia].
    apply Hsend in E as (?&?&?); [by auto|done|done|done|]. intros _. exists c'. split; [done|]. by eapply hash_update_rep.
  - apply Hsend in E as (?&?&?); [by auto|done|done|done|]. done.
Qed.

Lemma callback_smooth block (d : dw) :
  smooth -> open_sink (plan (dw_out d)) -> (cd_usessl cd = true -> is_Some (dw_dgst d)) ->
  exists d', channel_callback_ipc hl cd block d = (length block, d').
Proof.
  intros [Hu _ Hc] Hp Hd. unfold channel_callback_ipc. destruct (Nat.eqb_spec (length block) 0) as [->|]; [by eexists|].
  assert (Hs : forall d1 : dw, dw_out d1 = dw_out d -> exists d', callback_send cd block d1 = (length block, d')).
  { intros d1 E1. unfold callback_send. rewrite E1. pose proof (ipc_send_loop_open _ (written (dw_out d)) block Hp) as Hok.
    unfold ipc_send_data. destruct (ipc_send_loop _ _ _) as [ok o]. cbn in Hok. subst ok.
    destruct (cd_noipc cd); cbn [negb]; (destruct (cd_dwlwrdata cd) as [f|] eqn:Ef; [|by eexists]);
      specialize (Hc f block); destruct (f _ _) as [m u] eqn:Efu; eexists; f_equal;
      erewrite <- (Hc _ eq_refl), Efu; done. }
  destruct (cd_usessl cd); [|by apply Hs]. destruct (Hd eq_refl) as [c Ec]. cbn [dw_dgst]. rewrite Ec. cbn.
  destruct (Hu c block) as [c' ->]. by apply Hs.
Qed.

Lemma curl_write_takes blocks code : forall g got (d d' : dw) code' got',
  Forall P blocks -> delivered g d -> curl_write hl cd blocks code got d = (code', got', d') -> code' <> CURLE_WRITE_ERROR ->
  code' = code /\ got' = (got + length (concat blocks))%nat /\ delivered (g ++ concat blocks) d' /\
    (dw_result d = CHANNEL_OK -> dw_result d' = CHANNEL_OK).
Proof.
  induction blocks as [|block blocks IH]; intros g got d d' code' got' HP Hg E Hne; cbn [curl_write concat] in *.
  { injection E as <- <- <-. rewrite app_nil_r, Nat.add_0_r. by split_and!. }
  destruct (channel_callback_ipc hl cd block d) as [n d1] eqn:Ec. destruct (Nat.eqb_spec n (length block)) as [->|]; [|congruence].
  apply Forall_cons in HP as [HP1 HP]. apply (callback_takes g) in Ec as (Hg1 & Hr & _); [|done|done].
  apply (IH (g ++ block)) in E as (-> & -> & Hg2 & Hr2); [|done|done|done]. rewrite app_assoc, length_app, Nat.add_assoc.
  split_and!; [done|done|done|]. intros Hok. apply Hr2. by destruct Hr as [|[_ ->]].
Qed.

Lemma curl_write_smooth blocks code : forall g got (d : dw),
  smooth -> Forall P blocks -> open_sink (plan (dw_out d)) -> delivered g d ->
  exists d', curl_write hl cd blocks code got d = (code, (got + length (concat blocks))%nat, d') /\
    open_sink (plan (dw_out d')) /\ delivered (g ++ concat blocks) d' /\ (dw_result d = CHANNEL_OK -> dw_result d' = CHANNEL_OK).
Proof.
  induction blocks as [|block blocks IH]; intros g got d Hs HP Hp Hg; cbn [curl_write concat].
  { exists d. rewrite app_nil_r, Nat.add_0_r. by split_and!. }
  destruct (callback_smooth block d Hs Hp) as [d1 E].
  { intros H. destruct (de_hash _ _ Hg H) as (c & -> & _). by eexists. }
  apply Forall_cons in HP as [HP1 HP]. rewrite E, Nat.eqb_refl. apply (callback_takes g) in E as (Hg1 & Hr & Hsuf); [|done|done].
  assert (Hp1 : open_sink (plan (dw_out d1))).
  { destruct Hsuf as [l Hl]. unfold open_sink in *. rewrite Hl in Hp. by apply Forall_app in Hp as [_ ?]. }
  destruct (IH (g ++ block) (got + length block)%nat d1 Hs HP Hp1 Hg1) as (d2 & -> & ? & ? & Hr2). exists d2.
  rewrite app_assoc, length_app, Nat.add_assoc. split_and!; [done|done|done|]. intros Hok. apply Hr2. by destruct Hr as [|[_ ->]].
Qed.

(** A transfer from an offset on, [m] or more, delivers what follows in [f], and is complete if it succeeds. *)
Definition serves_from (m : nat) (f : bytes) : Prop := forall k o, (m <= o <= length f)%nat ->
  concat (net_perform net k o).1 `prefix_of` drop o f /\
  ((net_perform net k o).2 = CURLE_OK -> concat (net_perform net k o).1 = drop o f).

(** The server has the file [f]: what a channel without ranges meets, since libcurl then asks for the file from the offset on. *)
Definition serves (f : bytes) : Prop := serves_from 0 f.

Lemma served_piece m f k total :
  serves_from m f -> (m <= total <= length f)%nat ->
  let n := (total + length (concat (net_perform net k total).1))%nat in
  (n <= length f)%nat /\ take total f ++ concat (net_perform net k total).1 = take n f.
Proof.
  intros Hf Ht. destruct (Hf k total Ht) as [[rest Hrest] _]. cbn. split.
  - apply (f_equal length) in Hrest. rewrite length_drop, length_app in Hrest. lia.
  - rewrite <- (take_drop total f) at 2. rewrite take_app_add', Hrest by (rewrite length_take; lia). by rewrite take_app_length.
Qed.

Lemma get_loop_delivers m f : blocks_are -> serves_from m f -> forall left retries k total curlrc (d d' : dw),
  0 <= retries < 255 -> (1 <= left <= 256)%nat -> (m <= total <= length f)%nat -> delivered (take total f) d ->
  get_loop hl cd net left retries k total curlrc d = (None, d') -> delivered f d' /\ (dw_result d = CHANNEL_OK -> dw_result d' = CHANNEL_OK).
Proof.
  intros Hb Hf. induction left as [|left IH]; intros retries k total curlrc d d' Hr Hl Ht Hg; [lia|]. cbn [get_loop].
  destruct ((0 <? 256 - _) && (retries =? 0)); [done|].
  destruct ((0 <? 256 - _) && (retries <? _)) eqn:E1; [done|]. destruct (_ && negb (net_resume net k)); [done|].
  destruct (Hf k total Ht) as [_ Hall]. pose proof (served_piece m f k total Hf Ht) as [Hlen Hd]. pose proof (ba_net Hb k total) as HP.
  destruct (net_perform net k total) as [blocks code]. cbn in Hall, Hlen, Hd, HP.
  destruct (curl_write _ _ _ _ _ _) as [[code' got] d1] eqn:Ew.
  destruct (negb (bool_decide _) && _ && _) eqn:E2; [done|].
  assert (Hne : code' <> CURLE_WRITE_ERROR) by by intros ->.
  destruct (curl_write_takes _ _ _ _ _ _ _ _ HP Hg Ew Hne) as (-> & -> & Hg1 & Hok).
  destruct (net_size net k); try done.
  destruct (is_ok _) eqn:Eok.
  { intros [= <-]. apply is_ok_eq, map_curl_ok in Eok. rewrite (Hall Eok), take_drop in Hg1. done. }
  destruct left as [|left]. { exfalso. apply andb_false_iff in E1 as [H|H]; bool_to_prop; lia. }
  intros E. rewrite Hd in Hg1. apply IH in E as [? Hok']; [|done|lia|lia|done]. split; [done|]. auto.
Qed.

(** A transfer that is tried again. *)
Definition retriable (code : CURLcode) : Prop :=
  channel_map_curl_error code = CHANNEL_ENONET \/ channel_map_curl_error code = CHANNEL_EAGAIN.

(** The transfers fail [j] times and then succeed. *)
Record recovers (k j : nat) : Prop := {
  rc_again : forall i o, (k <= i < k + j)%nat -> retriable (net_perform net i o).2;
  rc_last : forall o, (net_perform net (k + j) o).2 = CURLE_OK;
  rc_size : forall i, net_size net i = CURLE_OK;
  rc_resume : forall i, net_resume net i = true;
}.

Lemma attempt_allowed t retries :
  t <= retries -> 0 < retries \/ t = 0 -> (0 <? t) && (retries =? 0) = false /\ (0 <? t) && (retries <? t) = false.
Proof.
  intros. destruct (Z.ltb_spec 0 t); [|done]. cbn [andb].
  destruct (Z.eqb_spec retries 0), (Z.ltb_spec retries t); try done; lia.
Qed.

Lemma get_loop_completes f j : blocks_are -> serves f -> smooth -> forall left retries k total curlrc (d : dw),
  recovers k j -> 256 - Z.of_nat left + Z.of_nat j <= retries < 256 -> 0 < retries \/ (j = 0 /\ left = 256)%nat ->
  (left <= 256)%nat -> (total <= length f)%nat -> delivered (take total f) d -> open_sink (plan (dw_out d)) ->
  exists d', get_loop hl cd net left retries k total curlrc d = (None, d') /\ delivered f d' /\
    (dw_result d = CHANNEL_OK -> dw_result d' = CHANNEL_OK).
Proof.
  intros Hb Hf Hs. induction j as [|j IH]; intros left retries k total curlrc d Hrec Hr H0 Hl Ht Hg Hp;
    pose proof Hrec as [Ha Hlast Hsz Hres]; (destruct left as [|left]; [lia|]); cbn [get_loop];
    (destruct (attempt_allowed (256 - Z.of_nat (Datatypes.S left)) retries) as [-> ->]; [lia|lia|]);
    rewrite Hres, andb_false_r; pose proof (served_piece 0 f k total Hf ltac:(lia)) as [Hle Htk];
    pose proof (Hf k total ltac:(lia)) as [_ Hall]; pose proof (ba_net Hb k total) as HP.
  - specialize (Hlast total). rewrite Nat.add_0_r in Hlast. destruct (net_perform net k total) as [blocks code]. cbn in *. subst code.
    destruct (curl_write_smooth blocks CURLE_OK _ 0 d Hs HP Hp Hg) as (d' & -> & _ & Hg' & Hok). cbn. rewrite Hsz.
    exists d'. rewrite Hall, take_drop in Hg' by done. by split_and!.
  - specialize (Ha k total ltac:(lia)). destruct (net_perform net k total) as [blocks code]. cbn in *.
    destruct (curl_write_smooth blocks code _ 0 d Hs HP Hp Hg) as (d1 & -> & Hp1 & Hg1 & Hok). rewrite Hsz.
    assert (Hrec' : recovers (Datatypes.S k) j).
    { split; [|intros o; rewrite <- Hlast with o; f_equal; f_equal; lia|done|done].
      intros i o Hi. apply (rc_again _ _ Hrec). lia. }
    rewrite Htk in Hg1. cbn [plus] in *.
    destruct (IH left retries (Datatypes.S k) (total + length (concat blocks))%nat code d1) as (d' & E & Hd & Hok');
      [done|lia|lia|lia|done|done|done|].
    exists d'. split; [|by split; [|auto]]. rewrite <- E. destruct Ha as [-> | ->]; done.
Qed.

Lemma pieces_nonempty n b : Forall (fun p => p <> []) (pieces n b).
Proof.
  revert b. induction n as [|n IH]; intros b; cbn [pieces]; [done|]. destruct b as [|c b]; [done|].
  constructor; [|apply IH]. unfold BUFF_SIZE. destruct (Z.to_nat 16384) eqn:E; [done|]. done.
Qed.

Lemma read_blocks_nonempty f : Forall (fun p => p <> []) (read_blocks f).
Proof. induction f as [|[b bs| |] f IH]; cbn [read_blocks]; try done. apply Forall_app. split; [apply pieces_nonempty|done]. Qed.

Lemma cache_loop_smooth blocks : Forall (fun p => p <> []) blocks -> Forall P blocks -> smooth -> forall g n (d : dw),
  open_sink (plan (dw_out d)) -> delivered g d ->
  exists d', cache_loop hl cd blocks n d = ((n + length (concat blocks))%nat, d') /\ open_sink (plan (dw_out d')) /\
    delivered (g ++ concat blocks) d' /\ (dw_result d = CHANNEL_OK -> dw_result d' = CHANNEL_OK).
Proof.
  intros Hb HP Hs. induction Hb as [|block blocks Hne Hb IH]; intros g n d Hp Hg; cbn [cache_loop concat].
  { exists d. rewrite app_nil_r, Nat.add_0_r. by split_and!. }
  destruct (callback_smooth block d Hs Hp) as [d1 E].
  { intros H. destruct (de_hash _ _ Hg H) as (c & -> & _). by eexists. }
  rewrite E. destruct (Nat.eqb_spec (length block) 0) as [E0|_]; [by apply nil_length_inv in E0|].
  apply Forall_cons in HP as [HP1 HP]. apply (callback_takes g) in E as (Hg1 & Hr & [l Hl]); [|done|done].
  assert (Hp1 : open_sink (plan (dw_out d1))).
  { unfold open_sink in *. rewrite Hl in Hp. by apply Forall_app in Hp as [_ ?]. }
  destruct (IH HP (g ++ block) (n + length block)%nat d1 Hp1 Hg1) as (d2 & -> & ? & ? & Hr2). exists d2.
  rewrite app_assoc, length_app, Nat.add_assoc. split_and!; [done|done|done|]. intros Hok. apply Hr2. by destruct Hr as [|[_ ->]].
Qed.

Lemma get_loop_error left retries k total curlrc (d d' : dw) r :
  (channel_map_curl_error curlrc <> CHANNEL_OK \/ left = 256%nat \/ 0 < retries /\ net_resume net k = true) ->
  get_loop hl cd net left retries k total curlrc d = (Some r, d') -> r <> CHANNEL_OK.
Proof.
  revert k total curlrc d. induction left as [|left IH]; intros k total curlrc d Hc; [done|]. cbn [get_loop].
  destruct (_ && (retries =? 0)) eqn:E1.
  { intros [= <- _]. apply andb_true_iff in E1 as [H1%Z.ltb_lt H2%Z.eqb_eq]. destruct Hc as [|[|]]; [done|lia|lia]. }
  destruct (_ && (retries <? _)); [by intros [= <- _]|]. destruct (_ && negb _) eqn:E2.
  { intros [= <- _]. apply andb_true_iff in E2 as [H1%Z.ltb_lt H2%negb_true_iff]. destruct Hc as [|[|[_ Hc]]]; [done|lia|congruence]. }
  destruct (net_perform net k total) as [blocks code]. destruct (curl_write _ _ _ _ _ _) as [[code' got] d1].
  destruct (negb (bool_decide _) && _ && _) eqn:E3.
  { intros [= <- _]. intros H. rewrite H in E3. done. }
  destruct (net_size net k) eqn:Es; try (intros [= <- _]; done).
  destruct (is_ok _) eqn:Eok; [done|]. apply IH. left. intros H. by rewrite H in Eok.
Qed.

(** What the cache holds is the start of the file. *)
Definition cache_part (f : bytes) : Prop := forall name c,
  cd_cached_file cd = Some name -> net_cache net name = Some c -> concat (read_blocks c) `prefix_of` f.

Definition from_cache (d : dw) : nat * dw :=
  match cd_cached_file cd with Some name => resume_cache_file hl cd net name d | None => (0%nat, d) end.

Lemma from_cache_delivers f (d : dw) :
  blocks_are -> smooth -> cache_part f -> open_sink (plan (dw_out d)) -> delivered [] d ->
  exists n d', from_cache d = (n, d') /\ (n <= length f)%nat /\ delivered (take n f) d' /\ open_sink (plan (dw_out d')) /\
    (dw_result d = CHANNEL_OK -> dw_result d' = CHANNEL_OK).
Proof.
  intros Hb Hs Hc Hp Hg.
  assert (Hno : exists n d', (0%nat, d) = (n, d') /\ (n <= length f)%nat /\ delivered (take n f) d' /\
    open_sink (plan (dw_out d')) /\ (dw_result d = CHANNEL_OK -> dw_result d' = CHANNEL_OK)).
  { exists 0%nat, d. by split_and!; [|lia|..]. }
  unfold from_cache, resume_cache_file. destruct (cd_cached_file cd) as [name|] eqn:En; [|done].
  destruct (strlen name =? 0); [done|]. destruct (net_cache net name) as [c|] eqn:Ec; [|done].
  destruct (net_cache_mem net); [|done]. cbn [negb].
  destruct (cache_loop_smooth (read_blocks c) (read_blocks_nonempty c) (ba_cache Hb _ _ Ec) Hs [] 0 d Hp Hg) as (d' & -> & Hp' & Hg' & Hok).
  destruct (Hc name c En Ec) as [rest ->]. exists (length (concat (read_blocks c))), d'. rewrite length_app, take_app_length.
  by split_and!; [|lia|..].
Qed.

Lemma start_delivered out u dgst :
  written out = out0 -> R [] u -> (cd_usessl cd = true -> exists c, dgst = Some c /\ hash_rep c []) ->
  delivered [] (mk_download dgst out CHANNEL_OK u : dw).
Proof. intros Ho HR Hh. split; [|done|done]. intros _. cbn. by rewrite app_nil_r. Qed.
End Delivered.

Section Downloaded.
Context {C S : Type} (hl : hash_lib C) `{!HashSpec hl} (cd : channel_data_t S) (net : curl_net).
Abbreviation dw := (download C S).

(** A cache is read without failure, and the transfer continues behind it. *)
Definition cache_works (out : sink) (f : bytes) : Prop :=
  cache_part cd net f /\ smooth hl cd /\ open_sink (plan out) /\ net_resume net 0 = true.

(** The digest at the start. *)
Abbreviation dgst0 := (if cd_usessl cd then HASH_init hl else None).

Lemma dgst0_rep : cd_usessl cd && bool_decide (dgst0 = None) = false ->
  cd_usessl cd = true -> exists c, dgst0 = Some c /\ hash_rep c [].
Proof.
  intros H Hs. rewrite Hs in *. apply bool_decide_eq_false in H. destruct (HASH_init hl) as [c|] eqn:E; [|done].
  exists c. split; [done|by apply hash_init_rep].
Qed.

(** A download that succeeds has delivered the file, also to its owner. *)
Lemma get_file_delivers (P : bytes -> Prop) (R : bytes -> S -> Prop) (f : bytes) (out : sink) (u : S) text (d' : dw) :
  owner_takes cd P R -> blocks_are net P -> R [] u ->
  serves net f -> 0 <= cd_retries cd < 254 -> cd_cached_file cd = None \/ cache_works out f ->
  channel_get_file hl cd net out u = (CHANNEL_OK, text, d') ->
  delivered hl cd (written out) R f d' /\ (cd_usessl cd = true ->
   text = sha1_text (sha f) \/ text = "" /\ exists c, hash_rep c f /\ HASH_final hl c = None).
Proof.
  intros Htk Hb HR0 Hf Hr Hcache. pose proof (wrap_small 32 (cd_retries cd + 1) ltac:(lia)) as Hu. unfold channel_get_file. destruct (cd_usessl cd && _) eqn:Ed; [done|].
  pose proof (dgst0_rep Ed) as Hd0. destruct (net_header net); [|done]. cbn [negb].
  destruct (is_ok (net_options net)) eqn:Eo; [|cbn; intros [= H _ _]; by rewrite H in Eo]. cbn [negb].
  destruct (net_get net); [|done]. destruct (negb (cd_noipc cd) && _); [done|]. destruct (net_writer net); [|done]. cbn [negb].
  set (d0 := mk_download _ out _ u). pose proof (start_delivered hl cd (written out) R out u _ eq_refl HR0 Hd0 : delivered _ _ _ _ [] d0) as Hg0.
  assert (Hres : dw_result d0 = CHANNEL_OK) by done.
  unfold get_file_opened. change (match cd_cached_file cd with Some f0 => _ | None => _ end) with (from_cache hl cd net d0).
  assert (exists n d1, from_cache hl cd net d0 = (n, d1) /\ (n <= length f)%nat /\ delivered hl cd (written out) R (take n f) d1 /\
    (n = 0%nat \/ net_resume net 0 = true)) as (n & d1 & -> & Hn & Hg1 & Hn0).
  { destruct Hcache as [Hno|(Hc & Hs & Hp & Hres0)].
    - exists 0%nat, d0. unfold from_cache. rewrite Hno. by split_and!; [|lia| |left].
    - destruct (from_cache_delivers hl cd net (written out) P R Htk f d0 Hb Hs Hc Hp Hg0) as (n & d1 & -> & ? & ? & _).
      exists n, d1. split_and!; try done. by right. }
  destruct (get_loop _ _ _ _ _ _ _ _ _) as [[r|] d2] eqn:El.
  { intros [= -> _ _]. exfalso. eapply get_loop_error; [|exact El|done]. destruct (Nat.ltb_spec 0 n); [right; right|by right; left].
    split; [rewrite Hu; lia|by destruct Hn0; [lia|]]. }
  apply (get_loop_delivers hl cd net (written out) P R Htk 0 f Hb Hf) in El as [Hdel _]; [|by destruct (0 <? n)%nat; rewrite ?Hu; lia|by destruct (0 <? n)%nat; lia|lia|done].
  destruct (is_ok (dw_result d2)); [|done]. cbn [negb]. pose proof (de_hash _ _ _ _ _ _ Hdel) as Hhash. destruct (cd_usessl cd).
  - destruct (Hhash eq_refl) as (c & Ec & Hc). rewrite Ec. cbn [mbind option_bind]. destruct (HASH_final hl c) as [md|] eqn:Ef.
    + intros [= _ <- <-]. split; [done|]. intros _. left. by rewrite (hash_final_rep c f md Hc Ef).
    + intros [= _ <- <-]. split; [done|]. intros _. right. by split; [|exists c].
  - intros [= _ <- <-]. done.
Qed.

(** Without a cache, a download that succeeds has gone through the loop. *)
Lemma get_file_loop (out : sink) (u : S) text (d' : dw) :
  0 <= cd_retries cd < 254 -> cd_cached_file cd = None -> channel_get_file hl cd net out u = (CHANNEL_OK, text, d') ->
  (cd_usessl cd = true -> exists c, dgst0 = Some c /\ hash_rep c []) /\
  get_loop hl cd net 256 (cd_retries cd) 0 0 CURLE_OK (mk_download dgst0 out CHANNEL_OK u) = (None, d').
Proof.
  intros Hr Hc. unfold channel_get_file. destruct (cd_usessl cd && _) eqn:Ed; [done|].
  destruct (net_header net); [|done]. cbn [negb].
  destruct (is_ok (net_options net)) eqn:Eo; [|cbn; intros [= H _ _]; by rewrite H in Eo]. cbn [negb].
  destruct (net_get net); [|done]. destruct (negb (cd_noipc cd) && _); [done|]. destruct (net_writer net); [|done]. cbn [negb].
  unfold get_file_opened. rewrite Hc. cbn [Nat.ltb Nat.leb].
  destruct (get_loop _ _ _ _ _ _ _ _ _) as [[r|] d2] eqn:El.
  { intros [= -> _ _]. exfalso. eapply get_loop_error; [|exact El|done]. by right; left. }
  intros H. split; [exact (dgst0_rep Ed)|]. f_equal. destruct (is_ok (dw_result d2)); [|done]. cbn [negb] in H.
  destruct (cd_usessl cd); [destruct (dw_dgst d2 ≫= HASH_final hl)|]; by injection H as _ _ <-.
Qed.

Lemma owner_any : owner_takes cd (fun _ => True) (fun _ _ => True).
Proof. intros g b u _ _ _. by destruct (cd_dwlwrdata cd). Qed.

Lemma blocks_any : blocks_are net (fun _ => True).
Proof. split; intros; by apply Forall_true. Qed.

(** C22: a download that succeeds has given the installer exactly the file of the server, byte by byte and in order, in
    whatever pieces the data arrived and however often the connection was lost and resumed, with fewer than 254
    retries (with more, the counter wraps and a truncated file can succeed), and whatever part of it came from the cache,
    provided there is none, or reading it, the digest, the callbacks and the output do not fail on the way and the
    transfer can be resumed behind it. The hash that is compared with that of the server is the hash of the file;
    it is empty only if the digest cannot be finalised. *)
Theorem download_exact (f : bytes) (out : sink) (u : S) text (d' : dw) :
  serves net f -> 0 <= cd_retries cd < 254 -> cd_cached_file cd = None \/ cache_works out f ->
  channel_get_file hl cd net out u = (CHANNEL_OK, text, d') ->
  (cd_noipc cd = false -> written (dw_out d') = written out ++ f) /\
  (cd_usessl cd = true ->
   text = sha1_text (sha f) \/ text = "" /\ exists c, hash_rep c f /\ HASH_final hl c = None).
Proof.
  intros Hf Hr Hc E. destruct (get_file_delivers (fun _ => True) (fun _ _ => True) f out u text d' owner_any blocks_any I Hf Hr Hc E) as [[Hout _ _] Ht]. by split.
Qed.

(** Everything is set up, and the reply of the server is a success. *)
Record net_ready : Prop := {
  nr_header : net_header net = true;
  nr_options : net_options net = CHANNEL_OK;
  nr_get : net_get net = true;
  nr_start : cd_noipc cd = true \/ existsb id (take 4 (net_start net)) = true;
  nr_writer : net_writer net = true;
  nr_reply : (channel_map_http_code (net_reply net)).1 = CHANNEL_OK;
  nr_dgst : cd_usessl cd = true -> is_Some (HASH_init hl);
}.

(** C23: a download completes although the connection is lost as often as there are retries, of which there are fewer than 254:
    with a server, a digest and an output that do not fail otherwise it succeeds, the installer has got the whole
    file, and the hash is that of the file. *)
Theorem download_completes (f : bytes) (j : nat) (out : sink) (u : S) :
  serves net f -> smooth hl cd -> net_ready -> recovers net 0 j -> Z.of_nat j <= cd_retries cd < 254 ->
  cache_part cd net f -> open_sink (plan out) ->
  exists d', channel_get_file hl cd net out u = (CHANNEL_OK, if cd_usessl cd then sha1_text (sha f) else "", d') /\
    (cd_noipc cd = false -> written (dw_out d') = written out ++ f).
Proof.
  intros Hf Hs Hrd Hrec Hj Hc Hp. pose proof (wrap_small 32 (cd_retries cd + 1) ltac:(lia)) as Hu.
  destruct Hrd as [H1 H2 H3 H4 H5 H6 H7]. unfold channel_get_file.
  assert (Ed : cd_usessl cd && bool_decide (dgst0 = None) = false).
  { destruct (cd_usessl cd); [|done]. apply bool_decide_eq_false. destruct (H7 eq_refl) as [c ->]. done. }
  rewrite Ed, H1, H2, H3, H5. replace (negb (cd_noipc cd) && _) with false by (destruct H4 as [-> | ->]; by rewrite ?andb_false_r).
  change (negb (is_ok CHANNEL_OK)) with false. cbn [negb].
  set (d0 := mk_download _ out _ u).
  pose proof (start_delivered hl cd (written out) (fun _ _ => True) out u _ eq_refl I (dgst0_rep Ed) : delivered _ _ _ _ [] d0) as Hg0.
  unfold get_file_opened. change (match cd_cached_file cd with Some f0 => _ | None => _ end) with (from_cache hl cd net d0).
  destruct (from_cache_delivers hl cd net (written out) _ _ owner_any f d0 blocks_any Hs Hc Hp Hg0) as (n & d1 & -> & Hn & Hg1 & Hp1 & Hok1).
  destruct (get_loop_completes hl cd net (written out) _ _ owner_any f j blocks_any Hf Hs (if (0 <? n)%nat then 255 else 256)
    (if (0 <? n)%nat then u32 (cd_retries cd + 1) else cd_retries cd) 0 n CURLE_OK d1) as (d2 & -> & Hg2 & Hok2);
    try done; try (destruct (0 <? n)%nat; rewrite ?Hu; lia).
  rewrite (Hok2 (Hok1 eq_refl)), H6. change (negb (is_ok CHANNEL_OK)) with false. destruct Hg2 as [Hout Hhash _].
  destruct (cd_usessl cd) eqn:Essl; [|by exists d2].
  destruct (Hhash eq_refl) as (c & Ec & Hrep). rewrite Ec. cbn [mbind option_bind].
  destruct (sm_final _ _ Hs c) as [md Em]. rewrite Em. rewrite (hash_final_rep c f md Hrep Em). by exists d2.
Qed.
End Downloaded.

(** ** Requests *)

Lemma reply_write_all re n blocks memory mem :
  reply_write re n blocks memory = (CURLE_OK, mem) -> mem = Some (memory ++ concat blocks) /\ re_code re = CURLE_OK.
Proof.
  revert n memory. induction blocks as [|block blocks IH]; intros n memory; cbn [reply_write concat].
  { intros [= -> <-]. by rewrite app_nil_r. }
  unfold channel_callback_membuffer. destruct (Nat.eqb_spec (length block) 0) as [E|E].
  { apply nil_length_inv in E as ->. cbn. apply IH. }
  destruct (re_realloc re n); [|done]. cbn [negb]. rewrite Nat.eqb_refl. intros H. apply IH in H as [-> ->]. by rewrite app_assoc.
Qed.

(** A request whose reply is parsed: success means that the transfer was complete, the server answered with success, and
    [json_reply] is the document in the body, or nothing for an empty one. *)
Theorem channel_get_reply {J} (tok : bytes -> option (option J)) re j raw :
  channel_get tok false CHANNEL_PARSE_JSON re = (CHANNEL_OK, j, raw) ->
  re_code re = CURLE_OK /\ (channel_map_http_code (re_info re)).1 = CHANNEL_OK /\ raw = None /\
  match concat (re_blocks re) with [] => j = None | body => tok body = Some j end.
Proof.
  unfold channel_get, perform_request. destruct (is_ok (re_content re)) eqn:E1; [|intros [= H _ _]; by rewrite H in E1].
  destruct (is_ok (re_options re)) eqn:E2; [|intros [= H _ _]; by rewrite H in E2]. destruct (re_method re); [|done].
  destruct (is_ok (setup_reply_buffer re)) eqn:E3; [|intros [= H _ _]; by rewrite H in E3]. cbn [negb].
  destruct (reply_write _ _ _ _) as [code mem] eqn:Ew.
  destruct (is_ok (channel_map_curl_error code)) eqn:E4; [|intros [= H _ _]; by rewrite H in E4].
  apply is_ok_eq, map_curl_ok in E4 as ->. apply reply_write_all in Ew as [-> Hcode]. cbn [negb app orb].
  destruct (is_ok (channel_map_http_code _).1) eqn:E5; [|cbn; intros [= H _ _]; by rewrite H in E5]. apply is_ok_eq in E5.
  cbn [negb]. unfold parse_reply. destruct (concat (re_blocks re)) as [|b body]; [by intros [= <- <-]|].
  destruct (tok (b :: body)) as [j'|]; [|done]. by intros [= <- <-].
Qed.

(** ** Examples *)

(** The first [n] transfers deliver at most two bytes. *)
Definition flaky (f : bytes) (n k o : nat) : list bytes * CURLcode :=
  if (k <? n)%nat then ([take 2 (drop o f)], CURLE_RECV_ERROR) else ([take 1 (drop o f); drop (S o) f], CURLE_OK).

Definition toy_net (f : bytes) (n : nat) (cache : option bytes) (resume : bool) : curl_net :=
  mk_curl_net true CHANNEL_OK true [false; true] true (fun _ => rd_block <$> cache) true (fun _ => resume) (flaky f n)
    (fun _ => CURLE_OK) (mk_curl_info (Some 206) (Some "https") None).

Lemma flaky_serves f n cache resume : serves (toy_net f n cache resume) f.
Proof.
  intros k o Ho. cbn. unfold flaky. destruct (k <? n)%nat; cbn [fst snd concat app]; rewrite ?app_nil_r.
  - split; [|done]. exists (drop 2 (drop o f)). by rewrite take_drop.
  - replace (drop (S o) f) with (drop 1 (drop o f)) by (rewrite drop_drop; f_equal; lia). by rewrite take_drop.
Qed.

Definition toy_download (retries : Z) (cached : bool) : channel_data_t unit :=
  mk_channel_data true false retries (if cached then Some "/tmp/cache" else None) None.

Lemma toy_smooth retries cached : smooth toy_hash_lib (toy_download retries cached).
Proof. split; [by eexists|by eexists|done]. Qed.

Definition toy_file : bytes := String.list_ascii_of_string "abcdef".

Definition toy_get (n : nat) (retries : Z) (cache : option bytes) (resume : bool) : channel_op_res_t * string * download bytes unit :=
  channel_get_file toy_hash_lib (toy_download retries (bool_decide (is_Some cache))) (toy_net toy_file n cache resume)
    (mk_sink [] [WrSome 1; WrSome 0]) tt.

Lemma toy_cache_works n : cache_works toy_hash_lib (toy_download 2 true) (toy_net toy_file n (Some (take 1 toy_file)) true)
  (mk_sink [] [WrSome 1; WrSome 0]) toy_file.
Proof.
  split_and!; [|apply toy_smooth|by repeat constructor; eexists|done].
  intros name c _ [= <-]. exists (drop 1 toy_file). vm_compute. done.
Qed.

Lemma download_exact_witness :
  written (dw_out (toy_get 2 2 (Some (take 1 toy_file)) true).2) = toy_file /\
  (toy_get 2 2 (Some (take 1 toy_file)) true).1.2 = sha1_text (toy_sha toy_file).
Proof.
  assert (E : (toy_get 2 2 (Some (take 1 toy_file)) true).1 = (CHANNEL_OK, sha1_text (toy_sha toy_file))) by (vm_compute; reflexivity).
  destruct (toy_get 2 2 (Some (take 1 toy_file)) true) as [[r text] d] eqn:Eg. cbn in E. injection E as -> ->.
  destruct (download_exact toy_hash_lib (toy_download 2 true) (toy_net toy_file 2 (Some (take 1 toy_file)) true) toy_file
    (mk_sink [] [WrSome 1; WrSome 0]) tt _ d (flaky_serves _ _ _ _) ltac:(cbn; lia) (or_intror (toy_cache_works 2)) Eg) as [H _].
  split; [by apply H|done].
Defined.

Lemma download_completes_witness : exists d, toy_get 3 3 None true = (CHANNEL_OK, sha1_text (toy_sha toy_file), d) /\
  written (dw_out d) = toy_file.
Proof.
  destruct (download_completes toy_hash_lib (toy_download 3 false) (toy_net toy_file 3 None true) toy_file 3
    (mk_sink [] [WrSome 1; WrSome 0]) tt) as (d & E & H).
  - apply flaky_serves.
  - apply toy_smooth.
  - split; try done. by right.
  - split; try done. intros i o Hi. right. cbn. unfold flaky. destruct (Nat.ltb_spec i 3); [done|lia].
  - cbn. lia.
  - by intros name c.
  - by repeat constructor; eexists.
  - exists d. split; [exact E|by apply H].
Defined.

(** [try_count] is an [unsigned char]: with 255 retries or more it wraps around, the loop ends without having succeeded, and the
    result is that of the last response: a truncated download is a success. *)
Theorem many_retries_truncated :
  let cut := channel_get_file toy_hash_lib (toy_download 300 false)
    (mk_curl_net true CHANNEL_OK true [true] true (fun _ => None) true (fun _ => true)
       (fun k o => ([take (3 - o) (drop o toy_file)], CURLE_PARTIAL_FILE)) (fun _ => CURLE_OK) (mk_curl_info (Some 206) None None))
    (mk_sink [] []) tt in
  cut.1.1 = CHANNEL_OK /\ written (dw_out cut.2) = take 3 toy_file.
Proof. vm_compute. done. Qed.

(** A download with a cache of which the first block is refused, as it is when the server cancels the update meanwhile: the block has
    been sent already, it is sent again from the network, and the download goes on. *)
Theorem cached_cancel_duplicates :
  let cd := mk_channel_data false false 2 (Some "/tmp/cache") (Some (fun b (first : bool) => (if first then 0%nat else length b, false))) in
  let r := channel_get_file toy_hash_lib cd (toy_net toy_file 0 (Some (take 3 toy_file)) true) (mk_sink [] []) true in
  r.1.1 = CHANNEL_OK /\ written (dw_out r.2) = take 3 toy_file ++ toy_file.
Proof. vm_compute. done. Qed.

(** A download that cannot be set up to continue behind the cache is reported as a success. *)
Theorem cached_resume_succeeds :
  let r := toy_get 0 2 (Some (take 3 toy_file)) false in r.1.1 = CHANNEL_OK /\ written (dw_out r.2) = take 3 toy_file.
Proof. vm_compute. done. Qed.
