(* ===== verification/Backend.v ===== *)
(** * What the connectors to a server share

    A connector talks to the update server through a channel and to the core process through messages. Its operations are
    written in a state monad: the state of the connector, the world that answers, and a log of what was asked and
    answered. The answers are arbitrary: [backend] is what the channel ([Channel]), the state of the update ([State]),
    the variables ([Vars]), the installer and the clock may give. From [corelib/server_utils.c] and
    [corelib/parsing_library_libjson.c] come the helpers, from [ipc/network_ipc.c] the waiting for the installer. *)
From S2P Require Import Prelude CString Util Crypto Cpio Copyfile Parselib Stream Channel.

(** [server_op_res_t] of [include/util.h]. *)
Inductive server_op_res_t := SERVER_OK | SERVER_EERR | SERVER_EBADMSG | SERVER_EINIT | SERVER_EACCES | SERVER_EAGAIN
  | SERVER_UPDATE_AVAILABLE | SERVER_NO_UPDATE_AVAILABLE | SERVER_UPDATE_CANCELED | SERVER_ID_REQUESTED.

#[export] Instance server_op_res_eq_dec : EqDecision server_op_res_t.
Proof. solve_decision. Defined.

Definition server_ok (r : server_op_res_t) : bool := bool_decide (r = SERVER_OK).

Definition map_channel_retcode (response : channel_op_res_t) : server_op_res_t :=
  match response with
  | CHANNEL_ENONET | CHANNEL_EAGAIN | CHANNEL_ESSLCERT | CHANNEL_ESSLCONNECT | CHANNEL_REQUEST_PENDING => SERVER_EAGAIN
  | CHANNEL_EACCES => SERVER_EACCES
  | CHANNEL_ENOENT | CHANNEL_EIO | CHANNEL_EILSEQ | CHANNEL_ENOMEM | CHANNEL_EINIT | CHANNEL_ELOOP => SERVER_EERR
  | CHANNEL_EBADMSG | CHANNEL_ENOTFOUND => SERVER_EBADMSG
  | CHANNEL_OK | CHANNEL_EREDIRECT => SERVER_OK
  end.

(** ** JSON replies *)

Section Json.
Context {J : Type} (jc : json_c J).

Definition json_get_key (json_root : option J) (key : string) : option J :=
  match json_object_object_get_ex jc json_root key with Some child => child | None => None end.

Definition json_get_value (json_root : option J) (key : string) : option string :=
  match json_get_key json_root key with
  | None => Some ""
  | json_data => json_object_get_string jc json_data
  end.

Fixpoint json_get_path_key (json_root : option J) (json_path : list string) : option J :=
  match json_path with
  | [] => json_root
  | key :: json_path =>
      match json_get_key json_root key with None => None | json_data => json_get_path_key json_data json_path end
  end.

Definition MAX_URL_LENGTH : nat := Z.to_nat 2048.

(** [strndup] of the URL; the memory for it is taken for granted. *)
Definition json_get_data_url (json_root : option J) (key : string) : option string :=
  match json_get_path_key json_root ["_links"; key; "href"] with
  | None => None
  | json_data => str_take MAX_URL_LENGTH <$> json_object_get_string jc json_data
  end.
End Json.

(** ** Waiting for the installer *)

(** An answer to a request for the status: the current status, the last result and a text. *)
Record ipc_status := mk_ipc_status {
  is_current : RECOVERY_STATUS;
  is_last : RECOVERY_STATUS;
  is_desc : string;
}.

#[export] Instance recovery_status_eq_dec : EqDecision RECOVERY_STATUS.
Proof. solve_decision. Defined.

(** The loop of [ipc_wait_for_complete]: the result and the texts that the callback gets. An answer [None] is a request that
    failed; behind the last answer there is no connection. *)
Fixpoint wait_loop (answers : list (option ipc_status)) (status last : RECOVERY_STATUS) : RECOVERY_STATUS * list string :=
  match answers with
  | [] => (last, [])
  | None :: _ => (FAILURE, [])
  | Some a :: answers =>
      let calls := if negb (bool_decide (status = is_current a)) || negb (strlen (is_desc a) =? 0) then [is_desc a] else [] in
      if bool_decide (is_current a = IDLE) then (is_last a, calls)
      else let '(r, l) := wait_loop answers (is_current a) (is_last a) in (r, calls ++ l)
  end.

Definition ipc_wait_for_complete (answers : list (option ipc_status)) : RECOVERY_STATUS * list string :=
  wait_loop answers IDLE FAILURE.

(** ** Effects *)

(** The notifications a connector sends. *)
Inductive notification := CHANGE | CANCELUPDATE.

(** What is asked, with the answer. [EvDownload] is the start of a download, [EvDownloaded] its end: what the
    installer got, the result and the hash. *)
Inductive event (J : Type) :=
  | EvGet (url : string) (r : channel_op_res_t) (reply : option J)
  | EvPut (method : channel_method_t) (url body : string) (r : channel_op_res_t)
  | EvOpen (r : option channel_op_res_t)
  | EvDownload (url info : string) (token : bool) (cached : option string)
  | EvDownloaded (sent : bytes) (r : channel_op_res_t) (sha1hash : string)
  | EvWait (r : RECOVERY_STATUS)
  | EvPostUpdate (r : option bool)
  | EvGetState (state : Z)
  | EvSaveState (state ret : Z)
  | EvVarsGet (name : string) (value : option string)
  | EvVarsSet (name : string) (value : option string) (ret : Z)
  | EvDwlUrl (filename url : string) (ret : Z)
  | EvThread (action_id : Z)
  | EvNotify (what : notification) (text : string).
Arguments EvGet {J}. Arguments EvPut {J}. Arguments EvOpen {J}. Arguments EvDownload {J}. Arguments EvDownloaded {J}.
Arguments EvWait {J}. Arguments EvPostUpdate {J}. Arguments EvGetState {J}. Arguments EvSaveState {J}. Arguments EvVarsGet {J}.
Arguments EvVarsSet {J}. Arguments EvDwlUrl {J}. Arguments EvThread {J}. Arguments EvNotify {J}.

(** What answers: the world [W] is arbitrary. [b_alloc] tells whether the next block of memory is there. *)
Record backend (J W : Type) := mk_backend {
  b_alloc : W -> bool * W;
  b_time : W -> Z * W;
  b_date : W -> string * W;
  b_get : string -> W -> (channel_op_res_t * option J) * W;
  b_put : channel_method_t -> string -> string -> W -> channel_op_res_t * W;
  b_open : W -> option channel_op_res_t * W;
  b_net : string -> W -> (curl_net * sink) * W;
  b_wait : W -> list (option ipc_status) * W;
  b_postupdate : W -> option bool * W;
  b_get_state : W -> Z * W;
  b_save_state : Z -> W -> Z * W;
  b_vars_get : string -> W -> option string * W;
  b_vars_set : string -> option string -> W -> Z * W;
  b_dwl_url : string -> string -> W -> Z * W;
}.
Arguments b_alloc {J W}. Arguments b_time {J W}. Arguments b_date {J W}. Arguments b_get {J W}. Arguments b_put {J W}.
Arguments b_open {J W}. Arguments b_net {J W}. Arguments b_wait {J W}. Arguments b_postupdate {J W}. Arguments b_get_state {J W}.
Arguments b_save_state {J W}. Arguments b_vars_get {J W}. Arguments b_vars_set {J W}. Arguments b_dwl_url {J W}.

(** An operation maps the state of the connector and the world to its result, the new ones, and what was asked. *)
Definition op (H J W A : Type) : Type := H * W -> A * (H * W) * list (event J).

Definition ret {H J W A} (a : A) : op H J W A := fun s => (a, s, []).

Definition bind {H J W A B} (m : op H J W A) (k : A -> op H J W B) : op H J W B := fun s =>
  let '(a, s, t) := m s in let '(b, s, u) := k a s in (b, s, t ++ u).

Declare Scope op_scope.
Delimit Scope op_scope with op.
Notation "x <- m ;; k" := (bind m (fun x => k)) (at level 100, m at next level, right associativity) : op_scope.
Notation "m ;; k" := (bind m (fun _ => k)) (at level 100, right associativity) : op_scope.
#[global] Open Scope op_scope.

Section Ops.
Context {H J W : Type} (b : backend J W).
Abbreviation M := (op H J W).

Definition get : M H := fun s => (s.1, s, []).
Definition modify (f : H -> H) : M unit := fun s => (tt, (f s.1, s.2), []).
Definition ask {A} (q : W -> A * W) (ev : A -> list (event J)) : M A := fun s =>
  let '(a, w) := q s.2 in (a, (s.1, w), ev a).
Definition tell (e : event J) : M unit := fun s => (tt, s, [e]).

Definition quiet {A} (a : A) : list (event J) := [].

Definition alloc : M bool := ask (b_alloc b) quiet.
Definition time : M Z := ask (b_time b) quiet.
(** The time as text: [strftime] with the format ["%Y%m%dT%H%M%S"], or [swupdate_time_iso8601]. *)
Definition date : M string := ask (b_date b) quiet.
Definition http_get (url : string) : M (channel_op_res_t * option J) :=
  ask (b_get b url) (fun a => [EvGet url a.1 a.2]).
Definition http_put (method : channel_method_t) (url body : string) : M channel_op_res_t :=
  ask (b_put b method url body) (fun r => [EvPut method url body r]).
(** [channel_new] and [open] of a second channel; [None] is a failure of the former. *)
Definition channel_open : M (option channel_op_res_t) := ask (b_open b) (fun r => [EvOpen r]).
Definition ask_state : M Z := ask (b_get_state b) (fun v => [EvGetState v]).
Definition store_state (v : Z) : M Z := ask (b_save_state b v) (fun r => [EvSaveState v r]).
Definition vars_get (name : string) : M (option string) := ask (b_vars_get b name) (fun v => [EvVarsGet name v]).
Definition vars_set (name : string) (value : option string) : M Z :=
  ask (b_vars_set b name value) (fun r => [EvVarsSet name value r]).
Definition dwl_url (filename url : string) : M Z := ask (b_dwl_url b filename url) (fun r => [EvDwlUrl filename url r]).
Definition send_notification (what : notification) (text : string) : M unit := tell (EvNotify what text).
Definition finish_update : M (option bool) := ask (b_postupdate b) (fun r => [EvPostUpdate r]).
(** The result and the texts for the callback. *)
Definition wait_for_complete : M (RECOVERY_STATUS * list string) :=
  ask (fun w => let '(l, w) := b_wait b w in (ipc_wait_for_complete l, w)) (fun a => [EvWait a.1]).

(** [asprintf] with its arguments printed: [None] without memory. *)
Definition asprintf (text : string) : M (option string) := ok <- alloc ;; ret (if ok then Some text else None).

(** A download by a channel; the callback is an operation. *)
Definition get_file {C} (hl : hash_lib C) (usessl : bool) (retries : Z) (url info : string) (token : bool)
    (cached : option string) (dwlwrdata : bytes -> M nat) : M (channel_op_res_t * string) := fun s =>
  let '(net, out, w) := b_net b url s.2 in
  let cd := mk_channel_data usessl false retries cached
    (Some (fun block (u : H * W * list (event J)) => let '(n, s, t) := dwlwrdata block u.1 in (n, (s, u.2 ++ t)))) in
  let '(r, text, d) := channel_get_file hl cd net out (s.1, w, []) in
  (r, text, (dw_user d).1,
   EvDownload url info token cached :: (dw_user d).2 ++ [EvDownloaded (written (dw_out d)) r text]).
End Ops.

(** * Reasoning about operations *)

Section Rules.
Context {H J W : Type}.
Abbreviation M := (op H J W).

Lemma bind_inv {A B} (m : M A) (k : A -> M B) s r s' t :
  bind m k s = (r, s', t) -> exists a s1 t1 t2, m s = (a, s1, t1) /\ k a s1 = (r, s', t2) /\ t = t1 ++ t2.
Proof.
  unfold bind. destruct (m s) as [[a s1] t1]. destruct (k a s1) as [[r2 s2] t2] eqn:E. intros [= <- <- <-].
  by exists a, s1, t1, t2.
Qed.

Lemma ret_inv {A} (a r : A) s s' t : (ret a : M A) s = (r, s', t) -> r = a /\ s' = s /\ t = [].
Proof. by intros [= <- <- <-]. Qed.

Lemma get_inv (s : H * W) r s' (t : list (event J)) : get s = (r, s', t) -> r = s.1 /\ s' = s /\ t = [].
Proof. by intros [= <- <- <-]. Qed.

Lemma modify_inv f (s : H * W) r s' (t : list (event J)) : modify f s = (r, s', t) -> s' = (f s.1, s.2) /\ t = [].
Proof. by intros [= <- <- <-]. Qed.

Lemma tell_inv e (s : H * W) r s' (t : list (event J)) : tell e s = (r, s', t) -> s' = s /\ t = [e].
Proof. by intros [= <- <- <-]. Qed.

Lemma ask_inv {A} (q : W -> A * W) ev (s : H * W) r s' (t : list (event J)) : ask q ev s = (r, s', t) -> s'.1 = s.1 /\ t = ev r.
Proof. unfold ask. destruct (q s.2) as [a w]. by intros [= <- <- <-]. Qed.

Lemma asprintf_inv (b : backend J W) text (s : H * W) r s' t :
  asprintf b text s = (r, s', t) ->
  s'.1 = s.1 /\ t = [] /\ (r = None /\ (b_alloc b s.2).1 = false \/ r = Some text /\ (b_alloc b s.2).1 = true).
Proof.
  unfold asprintf, alloc, bind, ask. destruct (b_alloc b s.2) as [ok w]. intros [= <- <- <-]. destruct ok; auto.
Qed.

(** Everything that is asked satisfies [P]. *)
Definition emits {A} (P : event J -> Prop) (m : M A) : Prop := forall s, Forall P (m s).2.

Lemma emits_ret {A} P (a : A) : emits P (ret a).
Proof. constructor. Qed.

Lemma emits_bind {A B} P (m : M A) (k : A -> M B) : emits P m -> (forall a, emits P (k a)) -> emits P (bind m k).
Proof.
  intros Hm Hk s. unfold bind. specialize (Hm s). destruct (m s) as [[a s1] t1].
  specialize (Hk a s1). destruct (k a s1) as [[r s2] t2]. by apply Forall_app.
Qed.

Lemma emits_bind_run {A B} P (m : M A) (k : A -> M B) :
  emits P m -> (forall s a s' t, m s = (a, s', t) -> emits P (k a)) -> emits P (bind m k).
Proof.
  intros Hm Hk s. unfold bind. specialize (Hm s). destruct (m s) as [[a s1] t1] eqn:E.
  specialize (Hk _ _ _ _ E s1). destruct (k a s1) as [[r s2] t2]. by apply Forall_app.
Qed.

Lemma emits_get P : emits P (get : M H).
Proof. constructor. Qed.

Lemma emits_modify P f : emits P (modify f : M unit).
Proof. constructor. Qed.

Lemma emits_tell (P : event J -> Prop) e : P e -> emits P (tell e : M unit).
Proof. intros He s. by repeat constructor. Qed.

Lemma emits_ask {A} P (q : W -> A * W) ev : (forall a, Forall P (ev a)) -> emits P (ask q ev : M A).
Proof. intros He s. unfold ask. destruct (q s.2) as [a w]. apply He. Qed.

Lemma emits_weaken {A} (P Q : event J -> Prop) (m : M A) : (forall e, P e -> Q e) -> emits P m -> emits Q m.
Proof. intros HPQ Hm s. by eapply Forall_impl. Qed.

Lemma emits_run {A} P (m : M A) s r s' t : emits P m -> m s = (r, s', t) -> Forall P t.
Proof. intros Hm E. specialize (Hm s). by rewrite E in Hm. Qed.

Lemma get_file_runs {C} P (b : backend J W) (hl : hash_lib C) usessl retries url info token cached dwlwrdata s r text s' t :
  (forall block, emits P (dwlwrdata block)) ->
  (get_file b hl usessl retries url info token cached dwlwrdata : M _) s = (r, text, s', t) ->
  exists u sent, t = EvDownload url info token cached :: u ++ [EvDownloaded sent r text] /\ Forall P u.
Proof.
  intros Hd. unfold get_file. destruct (b_net b url s.2) as [[net out] w]. set (cd := mk_channel_data _ _ _ _ _).
  assert (Hstep : forall f block (u : H * W * list (event J)), cd_dwlwrdata cd = Some f -> Forall P u.2 -> Forall P (f block u).2.2).
  { cbn. intros f block u [= <-] Hu. specialize (Hd block u.1). destruct (dwlwrdata block u.1) as [[n s1] t1]. by apply Forall_app. }
  pose proof (get_file_owner hl cd net (fun u => Forall P u.2) Hstep out (s.1, w, []) (Forall_nil_2 _)) as Ho.
  destruct (channel_get_file _ _ _ _ _) as [[r1 text1] d]. intros [= -> -> <- <-]. by eexists _, _.
Qed.

Lemma emits_get_file {C} P (b : backend J W) (hl : hash_lib C) usessl retries url info token cached dwlwrdata :
  P (EvDownload url info token cached) -> (forall sent r text, P (EvDownloaded sent r text)) ->
  (forall block, emits P (dwlwrdata block)) ->
  emits P (get_file b hl usessl retries url info token cached dwlwrdata : M _).
Proof.
  intros H1 H2 H3 s. destruct (get_file _ _ _ _ _ _ _ _ _ s) as [[[r text] s'] t] eqn:E.
  apply (get_file_runs P) in E as (u & sent & -> & Hu); [|done]. cbn. constructor; [done|]. apply Forall_app. split; [done|].
  by repeat constructor.
Qed.

(** The state of the connector changes only within a reflexive and transitive relation. *)
Definition keeps {A} (R : H -> H -> Prop) (m : M A) : Prop := forall s, R s.1 (m s).1.2.1.

Lemma keeps_ret {A} R `{!Reflexive R} (a : A) : keeps R (ret a).
Proof. intros s. apply reflexivity. Qed.

Lemma keeps_bind {A B} R `{!Transitive R} (m : M A) (k : A -> M B) :
  keeps R m -> (forall a, keeps R (k a)) -> keeps R (bind m k).
Proof.
  intros Hm Hk s. unfold bind. specialize (Hm s). destruct (m s) as [[a s1] t1].
  specialize (Hk a s1). destruct (k a s1) as [[r s2] t2]. cbn in *. by etransitivity.
Qed.

Lemma keeps_ask {A} R `{!Reflexive R} (q : W -> A * W) ev : keeps R (ask q ev : M A).
Proof. intros s. unfold ask. destruct (q s.2) as [a w]. apply reflexivity. Qed.

Lemma keeps_get R `{!Reflexive R} : keeps R (get : M H).
Proof. intros s. apply reflexivity. Qed.

Lemma keeps_tell R `{!Reflexive R} e : keeps R (tell e : M unit).
Proof. intros s. apply reflexivity. Qed.

Lemma keeps_modify R f : (forall h, R h (f h)) -> keeps R (modify f : M unit).
Proof. intros Hf s. apply Hf. Qed.

Lemma keeps_get_file {C} R `{!PreOrder R} (b : backend J W) (hl : hash_lib C) usessl retries url info token cached dwlwrdata :
  (forall block, keeps R (dwlwrdata block)) -> keeps R (get_file b hl usessl retries url info token cached dwlwrdata : M _).
Proof.
  intros Hk s. unfold get_file. destruct (b_net b url s.2) as [[net out] w]. set (cd := mk_channel_data _ _ _ _ _).
  assert (Hstep : forall f block (u : H * W * list (event J)), cd_dwlwrdata cd = Some f -> R s.1 u.1.1 -> R s.1 (f block u).2.1.1).
  { cbn. intros f block u [= <-] Hu. specialize (Hk block u.1). destruct (dwlwrdata block u.1) as [[n s1] t]. cbn in *.
    by etransitivity. }
  pose proof (get_file_owner hl cd net (fun u => R s.1 u.1.1) Hstep out (s.1, w, []) (reflexivity _)) as Ho.
  by destruct (channel_get_file _ _ _ _ _) as [[r text] d].
Qed.

Lemma keeps_run {A} R (m : M A) s r s' t : keeps R m -> m s = (r, s', t) -> R s.1 s'.1.
Proof. intros Hm E. specialize (Hm s). by rewrite E in Hm. Qed.
End Rules.

(** Takes a run of an operation apart, along its structure. *)
Ltac run_inv E :=
  lazymatch type of E with
  | bind _ _ _ = _ =>
      let a := fresh "r" in let s1 := fresh "s" in let t1 := fresh "t" in let t2 := fresh "t" in
      let E1 := fresh "E" in let E2 := fresh "E" in
      apply bind_inv in E as (a & s1 & t1 & t2 & E1 & E2 & ->); run_inv E1; cbv beta match in E2; run_inv E2
  | ret _ _ = _ => let Er := fresh "Er" in apply ret_inv in E as (Er & -> & ->); simplify_eq
  | get _ = _ => apply get_inv in E as (-> & -> & ->)
  | modify _ _ = _ => apply modify_inv in E as (-> & ->)
  | tell _ _ = _ => apply tell_inv in E as (-> & ->)
  | ask _ _ _ = _ => let Es := fresh "Es" in apply ask_inv in E as [Es ->]
  | asprintf _ _ _ = _ => let Es := fresh "Es" in let Er := fresh "Er" in let Em := fresh "Em" in apply asprintf_inv in E as (Es & -> & [[Er Em]|[Er Em]]); simplify_eq
  | (match ?x with _ => _ end) _ = _ => let Ex := fresh "Ex" in destruct x eqn:Ex; run_inv E
  | _ => idtac
  end.

(** ** Automation *)

Create HintDb emits.
#[export] Hint Resolve emits_ret emits_get emits_modify : emits.

(** Follows the structure of an operation; what is asked directly is decided by computation. *)
Ltac emits_step :=
  match goal with
  | |- emits _ (bind _ _) => apply emits_bind; [|intros ?]
  | |- emits _ (ask _ _) => apply emits_ask; intros ?; repeat constructor
  | |- emits _ (tell _) => apply emits_tell; exact I
  | |- emits _ (let '(_, _) := ?x in _) => destruct x
  | |- emits _ (match ?x with _ => _ end) => destruct x
  | |- emits _ _ => solve [eauto 2 with emits]
  end.
Ltac emits_tac := repeat emits_step.

Create HintDb keeps.
#[export] Hint Resolve keeps_ret keeps_get keeps_tell keeps_ask : keeps.
#[export] Hint Extern 1 (Reflexive _) => apply _ : keeps.
#[export] Hint Extern 1 (PreOrder _) => apply _ : keeps.

Ltac keeps_step :=
  match goal with
  | |- keeps _ (bind _ _) => apply keeps_bind; [apply _| |intros ?]
  | |- keeps _ (ask _ _) => apply keeps_ask; apply _
  | |- keeps _ (modify _) => apply keeps_modify; intros ?; by split_and!
  | |- keeps _ (let '(_, _) := ?x in _) => destruct x
  | |- keeps _ (match ?x with _ => _ end) => destruct x
  | |- keeps _ _ => solve [eauto 3 with keeps]
  end.
Ltac keeps_tac := repeat keeps_step.

Lemma server_ok_eq r : server_ok r = true <-> r = SERVER_OK.
Proof. apply bool_decide_eq_true. Qed.

Lemma emits_asprintf {H J W} (b : backend J W) P s : emits P (asprintf b s : op H J W _).
Proof. unfold asprintf, alloc. emits_tac. Qed.
#[export] Hint Resolve emits_asprintf : emits.

Lemma keeps_asprintf {H J W} (b : backend J W) R `{!PreOrder R} s : keeps R (asprintf b s : op H J W _).
Proof. unfold asprintf, alloc. keeps_tac. Qed.
#[export] Hint Resolve keeps_asprintf : keeps.

(** ** An example: JSON documents and a server with prepared answers *)

Inductive json := JStr (s : string) | JInt (n : Z) | JBool (v : bool) | JObj (l : list (string * json)) | JArr (l : list json).

Definition json_field (j : option json) (key : string) : option (option json) :=
  match j with
  | Some (JObj l) => (fun p => Some p.2) <$> find (fun p => String.eqb p.1 key) l
  | _ => None
  end.

Definition toy_json : json_c json := {|
  json_object_get_type j := match j with
    | None => json_type_null | Some (JStr _) => json_type_string | Some (JInt _) => json_type_int
    | Some (JBool _) => json_type_boolean | Some (JObj _) => json_type_object | Some (JArr _) => json_type_array end;
  json_object_object_get_ex := json_field;
  json_object_object_foreach j := match j with Some (JObj l) => (fun p => (p.1, Some p.2)) <$> l | _ => [] end;
  json_object_array_length j := match j with Some (JArr l) => length l | _ => 0%nat end;
  json_object_array_get_idx j n := match j with Some (JArr l) => l !! n | _ => None end;
  json_object_get_string j := match j with Some (JStr s) => Some s | Some (JInt n) => Some (print_d n) | Some _ => Some "" | None => None end;
  json_object_get_boolean j := match j with Some (JBool v) => v | _ => false end;
  json_object_get_int j := match j with Some (JInt n) => n | _ => 0 end;
|}.

(** The answers to [get] and to [put], in order; without any, they fail. *)
Record toy_world := mk_toy_world {
  tw_get : list (channel_op_res_t * option json);
  tw_put : list channel_op_res_t;
}.

(** [state] is the stored state of the update, [saved] the result of storing it. *)
Definition toy_backend (net : curl_net) (state saved : Z) : backend json toy_world := {|
  b_alloc w := (true, w);
  b_time w := (1000, w);
  b_date w := ("20260101T120000", w);
  b_get url w := match tw_get w with a :: l => (a, mk_toy_world l (tw_put w)) | [] => ((CHANNEL_ENONET, None), w) end;
  b_put m url body w := match tw_put w with a :: l => (a, mk_toy_world (tw_get w) l) | [] => (CHANNEL_ENONET, w) end;
  b_open w := (Some CHANNEL_OK, w);
  b_net url w := ((net, mk_sink [] []), w);
  b_wait w := ([Some (mk_ipc_status RUN FAILURE "[INFO] running"); Some (mk_ipc_status IDLE SUCCESS "")], w);
  b_postupdate w := (Some true, w);
  b_get_state w := (state, w);
  b_save_state v w := (saved, w);
  b_vars_get name w := (None, w);
  b_vars_set name v w := (0, w);
  b_dwl_url f u w := (0, w);
|}.

Definition href (key url : string) : string * json := (key, JObj [("href", JStr url)]).

(** The reply about a device with these links. *)
Definition device_json (links : list (string * json)) : option json :=
  Some (JObj [("config", JObj [("polling", JObj [("sleep", JStr "00:01:00")])]); ("_links", JObj links)]).

Definition artifact_json (filename sha1 url : string) : json :=
  JObj [("filename", JStr filename); ("hashes", JObj [("sha1", JStr sha1)]); ("size", JInt 6);
        ("_links", JObj [href "download" url])].

Definition chunk_json (artifacts : list json) : json :=
  JObj [("part", JStr "os"); ("version", JStr "2.0"); ("name", JStr "image"); ("artifacts", JArr artifacts)].

Definition deployment_json (update : string) (chunks : list json) : option json :=
  Some (JObj [("id", JInt 7); ("deployment", JObj [("update", JStr update); ("chunks", JArr chunks)])]).

(** The two replies about a deployment. *)
Definition deploys (update : string) (chunks : list json) : list (channel_op_res_t * option json) :=
  [(CHANNEL_OK, device_json [href "deploymentBase" "https://server/d/7"]); (CHANNEL_OK, deployment_json update chunks)].
