(* ===== verification/Hawkbit.v ===== *)
(** * The connector to a hawkBit server: [suricatta/server_hawkbit.c]

    The device asks the server for pending actions, downloads the artifacts of a deployment into the installer, and
    reports what became of it. A cancelled deployment is acknowledged, also during the download. The operations are in
    the monad of [Backend], so that their log tells what the server and the device were asked, in which order. *)
From S2P Require Import Prelude CString Util Dict State Crypto Cpio Copyfile Parselib Stream Channel Backend.

(** ** State *)

Definition HAWKBIT_MAX_REPORTED_ERRORS : nat := 10.
Definition CHANNEL_DEFAULT_POLLING_INTERVAL : Z := 45.
Definition SWUPDATE_SHA_DIGEST_LENGTH : Z := 20.

(** [deployment_update_action]: the code compares the pointers to these strings. *)
Inductive update_action_t := action_skip | action_attempt | action_forced.

#[export] Instance update_action_eq_dec : EqDecision update_action_t.
Proof. solve_decision. Defined.

Definition action_text (a : update_action_t) : string :=
  match a with action_skip => "skip" | action_attempt => "attempt" | action_forced => "forced" end.

(** [server_hawkbit_t], with the variable [server_time] of the module. The channel and what configures it is left out. *)
Record server_hawkbit_t := mk_server_hawkbit {
  hb_url : string;
  hb_device_id : string;
  hb_tenant : string;
  hb_polling_interval : Z;
  hb_polling_interval_from_server : bool;
  hb_configdata : dict;
  hb_has_to_send_configData : bool;
  hb_configData_url : option string;
  hb_cancel_url : option string;
  hb_update_state : Z;
  hb_stop_id : Z;
  hb_cancelDuringUpdate : bool;
  hb_errors : list (option string);
  hb_errorcnt : nat;
  hb_update_action : option update_action_t;
  hb_cached_file : option string;
  hb_usetokentodwl : bool;
  hb_initial_report_resend_period : Z;
  hb_server_status : channel_op_res_t;
  hb_server_status_time : Z;
  hb_server_time : Z;
}.

Definition set_polling_interval (v : Z) (h : server_hawkbit_t) : server_hawkbit_t :=
  mk_server_hawkbit (hb_url h) (hb_device_id h) (hb_tenant h) v (hb_polling_interval_from_server h) (hb_configdata h)
    (hb_has_to_send_configData h) (hb_configData_url h) (hb_cancel_url h) (hb_update_state h) (hb_stop_id h)
    (hb_cancelDuringUpdate h) (hb_errors h) (hb_errorcnt h) (hb_update_action h) (hb_cached_file h) (hb_usetokentodwl
    h) (hb_initial_report_resend_period h) (hb_server_status h) (hb_server_status_time h) (hb_server_time h).

Definition set_polling_interval_from_server (v : bool) (h : server_hawkbit_t) : server_hawkbit_t :=
  mk_server_hawkbit (hb_url h) (hb_device_id h) (hb_tenant h) (hb_polling_interval h) v (hb_configdata h)
    (hb_has_to_send_configData h) (hb_configData_url h) (hb_cancel_url h) (hb_update_state h) (hb_stop_id h)
    (hb_cancelDuringUpdate h) (hb_errors h) (hb_errorcnt h) (hb_update_action h) (hb_cached_file h) (hb_usetokentodwl
    h) (hb_initial_report_resend_period h) (hb_server_status h) (hb_server_status_time h) (hb_server_time h).

Definition set_configdata (v : dict) (h : server_hawkbit_t) : server_hawkbit_t :=
  mk_server_hawkbit (hb_url h) (hb_device_id h) (hb_tenant h) (hb_polling_interval h) (hb_polling_interval_from_server
    h) v (hb_has_to_send_configData h) (hb_configData_url h) (hb_cancel_url h) (hb_update_state h) (hb_stop_id h)
    (hb_cancelDuringUpdate h) (hb_errors h) (hb_errorcnt h) (hb_update_action h) (hb_cached_file h) (hb_usetokentodwl
    h) (hb_initial_report_resend_period h) (hb_server_status h) (hb_server_status_time h) (hb_server_time h).

Definition set_has_to_send_configData (v : bool) (h : server_hawkbit_t) : server_hawkbit_t :=
  mk_server_hawkbit (hb_url h) (hb_device_id h) (hb_tenant h) (hb_polling_interval h) (hb_polling_interval_from_server
    h) (hb_configdata h) v (hb_configData_url h) (hb_cancel_url h) (hb_update_state h) (hb_stop_id h)
    (hb_cancelDuringUpdate h) (hb_errors h) (hb_errorcnt h) (hb_update_action h) (hb_cached_file h) (hb_usetokentodwl
    h) (hb_initial_report_resend_period h) (hb_server_status h) (hb_server_status_time h) (hb_server_time h).

Definition set_configData_url (v : option string) (h : server_hawkbit_t) : server_hawkbit_t :=
  mk_server_hawkbit (hb_url h) (hb_device_id h) (hb_tenant h) (hb_polling_interval h) (hb_polling_interval_from_server
    h) (hb_configdata h) (hb_has_to_send_configData h) v (hb_cancel_url h) (hb_update_state h) (hb_stop_id h)
    (hb_cancelDuringUpdate h) (hb_errors h) (hb_errorcnt h) (hb_update_action h) (hb_cached_file h) (hb_usetokentodwl
    h) (hb_initial_report_resend_period h) (hb_server_status h) (hb_server_status_time h) (hb_server_time h).

Definition set_cancel_url (v : option string) (h : server_hawkbit_t) : server_hawkbit_t :=
  mk_server_hawkbit (hb_url h) (hb_device_id h) (hb_tenant h) (hb_polling_interval h) (hb_polling_interval_from_server
    h) (hb_configdata h) (hb_has_to_send_configData h) (hb_configData_url h) v (hb_update_state h) (hb_stop_id h)
    (hb_cancelDuringUpdate h) (hb_errors h) (hb_errorcnt h) (hb_update_action h) (hb_cached_file h) (hb_usetokentodwl
    h) (hb_initial_report_resend_period h) (hb_server_status h) (hb_server_status_time h) (hb_server_time h).

Definition set_update_state (v : Z) (h : server_hawkbit_t) : server_hawkbit_t :=
  mk_server_hawkbit (hb_url h) (hb_device_id h) (hb_tenant h) (hb_polling_interval h) (hb_polling_interval_from_server
    h) (hb_configdata h) (hb_has_to_send_configData h) (hb_configData_url h) (hb_cancel_url h) v (hb_stop_id h)
    (hb_cancelDuringUpdate h) (hb_errors h) (hb_errorcnt h) (hb_update_action h) (hb_cached_file h) (hb_usetokentodwl
    h) (hb_initial_report_resend_period h) (hb_server_status h) (hb_server_status_time h) (hb_server_time h).

Definition set_stop_id (v : Z) (h : server_hawkbit_t) : server_hawkbit_t :=
  mk_server_hawkbit (hb_url h) (hb_device_id h) (hb_tenant h) (hb_polling_interval h) (hb_polling_interval_from_server
    h) (hb_configdata h) (hb_has_to_send_configData h) (hb_configData_url h) (hb_cancel_url h) (hb_update_state h) v
    (hb_cancelDuringUpdate h) (hb_errors h) (hb_errorcnt h) (hb_update_action h) (hb_cached_file h) (hb_usetokentodwl
    h) (hb_initial_report_resend_period h) (hb_server_status h) (hb_server_status_time h) (hb_server_time h).

Definition set_cancelDuringUpdate (v : bool) (h : server_hawkbit_t) : server_hawkbit_t :=
  mk_server_hawkbit (hb_url h) (hb_device_id h) (hb_tenant h) (hb_polling_interval h) (hb_polling_interval_from_server
    h) (hb_configdata h) (hb_has_to_send_configData h) (hb_configData_url h) (hb_cancel_url h) (hb_update_state h)
    (hb_stop_id h) v (hb_errors h) (hb_errorcnt h) (hb_update_action h) (hb_cached_file h) (hb_usetokentodwl h)
    (hb_initial_report_resend_period h) (hb_server_status h) (hb_server_status_time h) (hb_server_time h).

Definition set_update_action (v : option update_action_t) (h : server_hawkbit_t) : server_hawkbit_t :=
  mk_server_hawkbit (hb_url h) (hb_device_id h) (hb_tenant h) (hb_polling_interval h) (hb_polling_interval_from_server
    h) (hb_configdata h) (hb_has_to_send_configData h) (hb_configData_url h) (hb_cancel_url h) (hb_update_state h)
    (hb_stop_id h) (hb_cancelDuringUpdate h) (hb_errors h) (hb_errorcnt h) v (hb_cached_file h) (hb_usetokentodwl h)
    (hb_initial_report_resend_period h) (hb_server_status h) (hb_server_status_time h) (hb_server_time h).

Definition set_cached_file (v : option string) (h : server_hawkbit_t) : server_hawkbit_t :=
  mk_server_hawkbit (hb_url h) (hb_device_id h) (hb_tenant h) (hb_polling_interval h) (hb_polling_interval_from_server
    h) (hb_configdata h) (hb_has_to_send_configData h) (hb_configData_url h) (hb_cancel_url h) (hb_update_state h)
    (hb_stop_id h) (hb_cancelDuringUpdate h) (hb_errors h) (hb_errorcnt h) (hb_update_action h) v (hb_usetokentodwl h)
    (hb_initial_report_resend_period h) (hb_server_status h) (hb_server_status_time h) (hb_server_time h).

Definition set_server_time (v : Z) (h : server_hawkbit_t) : server_hawkbit_t :=
  mk_server_hawkbit (hb_url h) (hb_device_id h) (hb_tenant h) (hb_polling_interval h) (hb_polling_interval_from_server
    h) (hb_configdata h) (hb_has_to_send_configData h) (hb_configData_url h) (hb_cancel_url h) (hb_update_state h)
    (hb_stop_id h) (hb_cancelDuringUpdate h) (hb_errors h) (hb_errorcnt h) (hb_update_action h) (hb_cached_file h)
    (hb_usetokentodwl h) (hb_initial_report_resend_period h) (hb_server_status h) (hb_server_status_time h) v.

Definition set_errors (l : list (option string)) (n : nat) (h : server_hawkbit_t) : server_hawkbit_t :=
  mk_server_hawkbit (hb_url h) (hb_device_id h) (hb_tenant h) (hb_polling_interval h) (hb_polling_interval_from_server
    h) (hb_configdata h) (hb_has_to_send_configData h) (hb_configData_url h) (hb_cancel_url h) (hb_update_state h)
    (hb_stop_id h) (hb_cancelDuringUpdate h) l n (hb_update_action h) (hb_cached_file h) (hb_usetokentodwl h)
    (hb_initial_report_resend_period h) (hb_server_status h) (hb_server_status_time h) (hb_server_time h).

Definition set_server_status (r : channel_op_res_t) (t : Z) (h : server_hawkbit_t) : server_hawkbit_t :=
  mk_server_hawkbit (hb_url h) (hb_device_id h) (hb_tenant h) (hb_polling_interval h) (hb_polling_interval_from_server
    h) (hb_configdata h) (hb_has_to_send_configData h) (hb_configData_url h) (hb_cancel_url h) (hb_update_state h)
    (hb_stop_id h) (hb_cancelDuringUpdate h) (hb_errors h) (hb_errorcnt h) (hb_update_action h) (hb_cached_file h)
    (hb_usetokentodwl h) (hb_initial_report_resend_period h) r t (hb_server_time h).

(** ** Texts *)

(** [STRINGIFY] keeps the text with single blanks; quotes are written as ['] here. *)
Definition js (s : string) : string := str_map (fun c => if Ascii.eqb c "'" then "034"%char else c) s.

Definition deployment_feedback (id : Z) (fdate : string) (cnt max : Z) (finished execution detail : string) : string :=
  js "{ 'id': " +:+ print_d id +:+ js ", 'time': '" +:+ fdate +:+ js "', 'status': { 'result': { 'progress': { 'cnt' : "
  +:+ print_d cnt +:+ js ", 'of' : " +:+ print_d max +:+ js " }, 'finished': '" +:+ finished +:+ js "' }, 'execution': '"
  +:+ execution +:+ js "', 'details' : [ " +:+ detail +:+ " ] } }".

Definition cancelation_feedback (id : Z) (fdate finished execution detail : string) : string :=
  js "{ 'id': " +:+ print_d id +:+ js ", 'time': '" +:+ fdate +:+ js "', 'status': { 'result': { 'finished': '" +:+ finished
  +:+ js "' }, 'execution': '" +:+ execution +:+ js "', 'details' : [ '" +:+ detail +:+ js "' ] } }".

Definition config_feedback (fdate finished execution data : string) : string :=
  js "{ 'id': '', 'time': '" +:+ fdate +:+ js "', 'mode' : 'replace', 'status': { 'result': { 'finished': '" +:+ finished
  +:+ js "' }, 'execution': '" +:+ execution +:+ js "', 'details' : [ '' ] }, 'data' : { " +:+ data +:+ " } }".

Definition update_info (action part version name : string) (id : Z) : string :=
  js "{ 'server': 'hawkbit', 'update': '" +:+ action +:+ js "', 'part': '" +:+ part +:+ js "', 'version': '" +:+ version
  +:+ js "', 'name': '" +:+ name +:+ js "', 'id' : '" +:+ print_d id +:+ js "' }".

Definition execution_values : list string := ["closed"; "proceeding"; "canceled"; "scheduled"; "rejected"; "resumed"].
Definition finished_values : list string := ["success"; "failure"; "none"].
Definition hawkbit_enums : list (string * list string) := [("execution", execution_values); ("finished", finished_values)].

Fixpoint enum_check (table : list (string * list string)) (key value : string) : bool :=
  match table with
  | [] => false
  | (k, values) :: table => if strcmp key k =? 0 then existsb (fun v => strcmp value v =? 0) values else enum_check table key value
  end.

Definition hawkbit_enum_check (key value : string) : bool := enum_check hawkbit_enums key value.

(** A number of [strptime]: blanks, then at most two digits that do not lead past [hi]. *)
Definition strptime_number (hi : Z) (s : string) : option (Z * string) :=
  match str_skip (fun c => Ascii.eqb c " ") s with
  | String c s =>
      if negb (isdigit c) then None
      else
        let v := byte_of c - 48 in
        let '(v, s) := match s with
                       | String d s' => if (v * 10 <=? hi) && isdigit d then (v * 10 + (byte_of d - 48), s') else (v, s)
                       | EmptyString => (v, s)
                       end in
        if v <=? hi then Some (v, s) else None
  | EmptyString => None
  end.

Definition strptime_colon (s : string) : option string :=
  match s with String c s => if Ascii.eqb c ":" then Some s else None | EmptyString => None end.

(** [strptime] with ["%H:%M:%S"]. *)
Definition strptime_HMS (s : string) : option (Z * Z * Z) :=
  '(h, s) ← strptime_number 23 s; s ← strptime_colon s; '(m, s) ← strptime_number 59 s; s ← strptime_colon s;
  '(sec, _) ← strptime_number 61 s; Some (h, m, sec).

Definition get_target_data_length (configdata : dict) : Z :=
  foldl (fun len e => len + (strlen (default "" (dict_entry_get_key (Some e))) + strlen (default "" (dict_entry_get_value (Some e)))
    + strlen " : " + 6)) 0 configdata.

(** ** Replies *)

Section Hawkbit.
Context {J W C : Type} (jc : json_c J) (b : backend J W) (hl : hash_lib C).
(** [junk] is what a variable holds that is not initialised; [ssl] is [CONFIG_SURICATTA_SSL]; [retries] is that of the channel. *)
Context (junk : Z) (ssl : bool) (retries : Z).
Abbreviation M := (op server_hawkbit_t J W).
Abbreviation path := (json_get_path_key jc).
Abbreviation text := (json_object_get_string jc).

(** [server_hawkbit_error]. *)
Definition add_error (s : string) : M unit :=
  h <- get ;;
  if (hb_errorcnt h <? HAWKBIT_MAX_REPORTED_ERRORS)%nat then
    copy <- asprintf b s ;;
    modify (set_errors (<[hb_errorcnt h := copy]> (hb_errors h)) (hb_errorcnt h + match copy with Some _ => 1 | None => 0 end)%nat)
  else ret tt.

Definition json_get_deployment_update_action (json_reply : option J) : option update_action_t :=
  match json_reply with
  | None => None
  | Some _ =>
      match text (path json_reply ["deployment"; "update"]) with
      | None => Some action_skip
      | Some s =>
          if strncmp s "forced" 6 =? 0 then Some action_forced
          else if strncmp s "attempt" 7 =? 0 then Some action_attempt
          else Some action_skip
      end
  end.

Definition check_action_changed (action_id : Z) (update_action : option update_action_t) : M unit :=
  h <- get ;;
  match update_action with
  | None => ret tt
  | Some a =>
      if bool_decide (update_action = hb_update_action h) then ret tt
      else
        modify (set_update_action update_action) ;;
        buf <- asprintf b (js "{ 'id' : '" +:+ print_d action_id +:+ js "', 'update' : '" +:+ action_text a +:+ js "'}") ;;
        send_notification CHANGE (default "Update type changed by server" buf)
  end.

Definition server_send_cancel_reply (action_id : Z) : M server_op_res_t :=
  h <- get ;;
  url <- asprintf b (default "(null)" (hb_cancel_url h) +:+ "/feedback") ;;
  result <- match url with
            | None => ret SERVER_EINIT
            | Some url =>
                fdate <- date b ;;
                body <- asprintf b (cancelation_feedback (hb_stop_id h) fdate "success" "closed" "cancellation acknowledged.") ;;
                match body with
                | None => ret SERVER_EINIT
                | Some body => r <- http_put b CHANNEL_POST url body ;; ret (map_channel_retcode r)
                end
            end ;;
  buf <- asprintf b (js "{ 'id' : '" +:+ print_d action_id +:+ js "', 'stopId' : '" +:+ print_d (hb_stop_id h) +:+ js "'}") ;;
  send_notification CANCELUPDATE (default "Update cancelled" buf) ;;
  ret result.

Definition quoted (s : string) : string := js "'" +:+ s +:+ js "'".

(** The loop of [server_create_details]; [prev] is NULL before the first one. *)
Fixpoint create_details (prev : option string) (details : list string) : M (option string) :=
  match details with
  | [] => ret prev
  | d :: details =>
      next <- asprintf b (match prev with None => quoted d | Some prev => prev +:+ "," +:+ quoted d end) ;;
      match next with None => ret None | Some _ => create_details next details end
  end.

Definition server_create_details (details : list string) : M (option string) := create_details None details.

Definition feedback_url (h : server_hawkbit_t) (action_id : Z) : string :=
  hb_url h +:+ "/" +:+ hb_tenant h +:+ "/controller/v1/" +:+ hb_device_id h +:+ "/deploymentBase/" +:+ print_d action_id
  +:+ "/feedback".

Definition server_send_deployment_reply (action_id job_cnt_max job_cnt_cur : Z) (finished execution_status : string)
    (details : list string) : M server_op_res_t :=
  h <- get ;;
  detail <- server_create_details details ;;
  fdate <- date b ;;
  body <- asprintf b (deployment_feedback action_id fdate job_cnt_cur job_cnt_max finished execution_status (default " " detail)) ;;
  match body with
  | None => ret SERVER_EINIT
  | Some body =>
      url <- asprintf b (feedback_url h action_id) ;;
      match url with
      | None => ret SERVER_EINIT
      | Some url => r <- http_put b CHANNEL_POST url body ;; ret (map_channel_retcode r)
      end
  end.

(** ** Asking the server *)

Definition server_set_polling_interval_json (json_root : option J) : M server_op_res_t :=
  h <- get ;;
  if negb (hb_polling_interval_from_server h) then ret SERVER_OK
  else
    match path json_root ["config"; "polling"; "sleep"] with
    | None => ret SERVER_EBADMSG
    | json_data =>
        match strptime_HMS (default "" (text json_data)) with
        | None => ret SERVER_EBADMSG
        | Some (hour, min, sec) =>
            let interval := sec + min * 60 + hour * 60 * 60 in
            let interval := if hb_update_state h =? STATE_WAIT then interval / 10 else interval in
            modify (set_polling_interval (if interval =? 0 then CHANNEL_DEFAULT_POLLING_INTERVAL else interval)) ;;
            ret SERVER_OK
        end
    end.

Definition server_set_config_data (json_root : option J) : M server_op_res_t :=
  match json_get_data_url jc json_root "configData" with
  | None => ret SERVER_OK
  | tmp =>
      modify (fun h => set_has_to_send_configData (get_target_data_length (hb_configdata h) >? 0) (set_configData_url tmp h)) ;;
      ret SERVER_OK
  end.

Definition report_server_status (server_status : channel_op_res_t) : M unit :=
  t <- time b ;; modify (set_server_status server_status t).

Definition device_url (h : server_hawkbit_t) : string :=
  hb_url h +:+ "/" +:+ hb_tenant h +:+ "/controller/v1/" +:+ hb_device_id h.

(** The result and [channel_data->json_reply]. *)
Definition server_get_device_info : M (server_op_res_t * option J) :=
  h <- get ;;
  url <- asprintf b (device_url h) ;;
  match url with
  | None => ret (SERVER_EINIT, None)
  | Some url =>
      a <- http_get b url ;;
      let '(ch_response, json_reply) := a in
      report_server_status ch_response ;;
      let result := map_channel_retcode ch_response in
      if negb (server_ok result) then ret (result, json_reply)
      else
        result <- server_set_polling_interval_json json_reply ;;
        if negb (server_ok result) then ret (result, json_reply)
        else result <- server_set_config_data json_reply ;; ret (result, json_reply)
  end.

(** The part behind the choice of the URL. *)
Definition get_action (update_status : server_op_res_t) (url : string) (action_id : Z) : M (server_op_res_t * option J * Z) :=
  a <- http_get b url ;;
  let '(r, json_reply) := a in
  let result := map_channel_retcode r in
  if negb (server_ok result) then ret (result, json_reply, action_id)
  else
    match path json_reply ["id"] with
    | None => ret (SERVER_EBADMSG, json_reply, action_id)
    | json_data =>
        let action_id := json_object_get_int jc json_data in
        modify (set_stop_id action_id) ;;
        (if bool_decide (update_status = SERVER_UPDATE_CANCELED) then
           match path json_reply ["cancelAction"; "stopId"] with
           | None => ret tt
           | json_data => modify (set_stop_id (json_object_get_int jc json_data))
           end
         else ret tt) ;;
        ret (update_status, json_reply, action_id)
    end.

(** The result, [channel_data->json_reply] and [*action_id]. *)
Definition server_get_deployment_info (action_id : Z) : M (server_op_res_t * option J * Z) :=
  a <- server_get_device_info ;;
  let '(result, info) := a in
  if negb (server_ok result) then ret (result, None, action_id)
  else
    match json_get_data_url jc info "cancelAction" with
    | Some url_cancel =>
        copy <- asprintf b url_cancel ;;
        modify (set_cancel_url copy) ;;
        get_action SERVER_UPDATE_CANCELED url_cancel action_id
    | None =>
        match json_get_data_url jc info "deploymentBase" with
        | Some url_deployment_base => get_action SERVER_UPDATE_AVAILABLE url_deployment_base action_id
        | None => ret (SERVER_NO_UPDATE_AVAILABLE, None, action_id)
        end
    end.

(** The callback of the download. *)
Definition server_check_during_dwl (streamdata : bytes) : M nat :=
  now <- time b ;;
  h <- get ;;
  if now - hb_server_time h <? i32 (hb_polling_interval h) then ret (length streamdata)
  else
    modify (set_server_time now) ;;
    channel <- channel_open b ;;
    match channel with
    | Some CHANNEL_OK =>
        a <- server_get_deployment_info junk ;;
        let '(result, json_reply, action_id) := a in
        let cancelled := bool_decide (result = SERVER_UPDATE_CANCELED) in
        (if cancelled then modify (set_cancelDuringUpdate true) else ret tt) ;;
        let update_action := json_get_deployment_update_action json_reply in
        check_action_changed action_id update_action ;;
        ret (if cancelled || bool_decide (update_action = Some action_skip) then 0%nat else length streamdata)
    | _ => ret (length streamdata)
    end.

Definition server_has_pending_action (action_id : Z) : M (server_op_res_t * Z) :=
  a <- server_get_deployment_info action_id ;;
  let '(result, json_reply, action_id) := a in
  let update_action := if bool_decide (result = SERVER_UPDATE_AVAILABLE) then json_get_deployment_update_action json_reply else None in
  if bool_decide (result = SERVER_UPDATE_CANCELED) then
    server_send_cancel_reply action_id ;;
    modify (set_update_state STATE_OK) ;;
    store_state b STATE_OK ;;
    ret (SERVER_OK, action_id)
  else
    h <- get ;;
    if hb_update_state h =? STATE_WAIT then ret (SERVER_OK, action_id)
    else if hb_has_to_send_configData h then ret (SERVER_ID_REQUESTED, action_id)
    else if bool_decide (result = SERVER_UPDATE_AVAILABLE) then
      state <- ask_state b ;;
      if state =? STATE_INSTALLED then
        check_action_changed action_id update_action ;;
        ret (SERVER_NO_UPDATE_AVAILABLE, action_id)
      else ret (result, action_id)
    else ret (result, action_id).

(** ** Reports *)

Definition add_detail_error (s : string) : M unit := if strncmp s "ERROR" 5 =? 0 then add_error s else ret tt.

Definition handle_feedback (action_id : Z) (result : server_op_res_t) (reply_result reply_execution : string)
    (details : list string) : M server_op_res_t :=
  match result with
  | SERVER_OK | SERVER_ID_REQUESTED | SERVER_UPDATE_CANCELED | SERVER_NO_UPDATE_AVAILABLE => ret SERVER_OK
  | SERVER_EERR | SERVER_EBADMSG | SERVER_EINIT | SERVER_EACCES | SERVER_EAGAIN => ret result
  | SERVER_UPDATE_AVAILABLE =>
      r <- server_send_deployment_reply action_id 0 0 reply_result reply_execution details ;;
      ret (if negb (server_ok r) then SERVER_EAGAIN else SERVER_UPDATE_AVAILABLE)
  end.

Definition get_action_id_from_env (action_id : Z) : M Z :=
  action_str <- vars_get b "action_id" ;;
  match action_str with
  | None => ret action_id
  | Some s => let tmp := i32 (ustrtoull s 10).1.1 in ret (if tmp >? 0 then tmp else action_id)
  end.

(** What is reported of a state: the result, the execution and a message. *)
Definition state_report (state : Z) : option (string * string * string) :=
  if state =? STATE_INSTALLED then Some ("none", "proceeding", "Update Installed, Testing Pending.")
  else if state =? STATE_TESTING then Some ("success", "closed", "Update Installed.")
  else if state =? STATE_FAILED then Some ("failure", "closed", "Update Failed.")
  else None.

Definition report_state (state : Z) : M server_op_res_t :=
  match state_report state with
  | None => ret SERVER_OK
  | Some (reply_result, reply_execution, reply_message) =>
      a <- server_get_deployment_info junk ;;
      let '(result, _, action_id) := a in
      action_id <- get_action_id_from_env action_id ;;
      result <- handle_feedback action_id result reply_result reply_execution [reply_message] ;;
      if negb (bool_decide (result = SERVER_UPDATE_AVAILABLE)) then ret result
      else
        vars_set b "action_id" None ;;
        saved <- store_state b STATE_OK ;;
        ret (if saved =? 0 then SERVER_OK else SERVER_EERR)
  end.

Definition server_handle_initial_state (stateovrrd : Z) : M server_op_res_t :=
  if negb (stateovrrd =? STATE_NOT_AVAILABLE) then
    if negb (is_valid_state stateovrrd) then ret SERVER_EINIT else report_state stateovrrd
  else
    state <- ask_state b ;;
    if state =? STATE_ERROR then ret SERVER_EINIT else report_state state.

(** The loop at the end of [server_start], with at most [n] turns: whether it ended. *)
Fixpoint initial_loop (n : nat) (stateovrrd : Z) : M bool :=
  match n with
  | O => ret false
  | S n => r <- server_handle_initial_state stateovrrd ;; if server_ok r then ret true else initial_loop n stateovrrd
  end.

Definition start_reports (n : nat) (update_state : Z) : M bool :=
  modify (fun h => set_has_to_send_configData true (set_update_state update_state h)) ;;
  report_server_status CHANNEL_REQUEST_PENDING ;;
  if update_state =? STATE_WAIT then ret true else initial_loop n update_state.

(** The thread that sends the log to the server. Every turn has the answer to [ipc_get_status], [None] for an error, and
    whether the lock was got; the turns may end before the thread does. *)
Definition MAX_DETAILS : nat := 48.

Definition sanitize (s : string) : string :=
  str_map (fun c => if existsb (Ascii.eqb c) ["034"; "'"; "\"; "010"; "013"]%char then " "%char else c) s.

(** The answer, if there is a text. *)
Definition data_avail (answer : option ipc_status) : option ipc_status :=
  match answer with Some a => if strlen (is_desc a) =? 0 then None else Some a | None => None end.

Fixpoint notification_loop (action_id : Z) (turns : list (option ipc_status * bool)) (stop : bool) (details : list string)
    (step percent : Z) : M bool :=
  match turns with
  | [] => ret false
  | (answer, locked) :: turns =>
      let stop := stop || (locked || bool_decide (answer = None)) in
      let data := data_avail answer in
      if bool_decide (is_current <$> data = Some PROGRESS) then notification_loop action_id turns stop details step percent
      else
        let details := match data with
                       | Some a => if (length details <? MAX_DETAILS)%nat then details ++ [sanitize (is_desc a)] else details
                       | None => details
                       end in
        let over := stop && bool_decide (data = None) in
        if (length details =? MAX_DETAILS)%nat || over then
          server_send_deployment_reply action_id step percent "none" "proceeding" details ;;
          if over then ret true
          else
            let '(step, percent) := if percent + 1 >? 100 then (step + 1, 0) else (step, percent + 1) in
            notification_loop action_id turns stop [] step percent
        else notification_loop action_id turns stop details step percent
  end.

Definition process_notification_thread (action_id : Z) (turns : list (option ipc_status * bool)) : M bool :=
  channel <- channel_open b ;;
  match channel with
  | Some CHANNEL_OK => notification_loop action_id turns false [] 0 0
  | _ => ret true
  end.

(** ** Artifacts *)

Record artifact_t := mk_artifact {
  at_filename : string;
  at_url : string;
  at_sha1hash : string;
  at_size : Z;
  at_skip : bool;
}.

(** The rule for the last extension of the name; the result of a rule is not looked at. *)
Definition apply_rule (a : artifact_t) : M artifact_t :=
  match last (string_split (at_filename a) ".") with
  | None => ret (mk_artifact (at_filename a) (at_url a) (at_sha1hash a) (at_size a) true)
  | Some ext =>
      if String.eqb ext "swu" then ret a
      else if String.eqb ext "zck" then
        dwl_url b (at_filename a) (at_url a) ;;
        ret (mk_artifact (at_filename a) (at_url a) (at_sha1hash a) (at_size a) true)
      else ret a
  end.

(** The loop of [json_extract_artifact]; [None] is a failure. *)
Fixpoint extract_artifacts (items : list (option J)) : M (option (list artifact_t)) :=
  match items with
  | [] => ret (Some [])
  | item :: items =>
      let url_https := path item ["_links"; "download"; "href"] in
      let url_http := path item ["_links"; "download-http"; "href"] in
      if negb ssl && bool_decide (url_http = None) then add_error "No artifact download HTTP URL reported by server." ;; ret None
      else
        match (match url_https with None => url_http | _ => url_https end), path item ["filename"], path item ["hashes"; "sha1"],
              path item ["size"] with
        | None, _, _, _ => add_error ("No artifact download URL reported by server." +:+ String nl "") ;; ret None
        | (Some _) as url, (Some _) as filename, (Some _) as sha1hash, (Some _) as size =>
            a <- apply_rule (mk_artifact (default "" (text filename)) (default "" (text url)) (default "" (text sha1hash))
                   (json_object_get_int jc size) false) ;;
            rest <- extract_artifacts items ;;
            ret (cons a <$> rest)
        | _, _, _, _ =>
            add_error ("Got malformed JSON: Could not find fields 'filename', 'hashes->sha1', or 'size' in JSON." +:+ String nl "") ;;
            ret None
        end
  end.

Definition json_array (j : option J) : list (option J) :=
  json_object_array_get_idx jc j <$> seq 0 (json_object_array_length jc j).

(** [json_extract_artifact]. *)
Definition json_extract_artifact (json_data_artifact : option J) : M (option (list artifact_t)) :=
  extract_artifacts (json_array json_data_artifact).

(** [ipc_wait_for_complete] with [server_update_status_callback]. *)
Fixpoint add_detail_errors (descs : list string) : M unit :=
  match descs with [] => ret tt | s :: descs => add_detail_error s ;; add_detail_errors descs end.

Definition wait_installer : M RECOVERY_STATUS :=
  a <- wait_for_complete b ;; add_detail_errors a.2 ;; ret a.1.

Definition counts (r : RECOVERY_STATUS) : bool :=
  match r with DOWNLOAD | IDLE | START | RUN | SUCCESS => true | _ => false end.

(** One turn of the loop over the artifacts: the result and whether the artifact counts as installed. *)
Definition process_artifact (action_id : Z) (update_action : option update_action_t) (part version name : string)
    (a : artifact_t) : M (server_op_res_t * bool) :=
  info <- asprintf b (update_info (from_option action_text "(null)" update_action) part version name action_id) ;;
  match info with
  | None => ret (SERVER_EBADMSG, false)
  | Some info =>
      now <- time b ;;
      modify (set_server_time now) ;;
      tell (EvThread action_id) ;;
      h <- get ;;
      d <- get_file b hl ssl retries (at_url a) info (hb_usetokentodwl h) (hb_cached_file h) server_check_during_dwl ;;
      let '(cresult, sha1hash) := d in
      let result := map_channel_retcode cresult in
      if negb (server_ok result) then wait_installer ;; ret (result, false)
      else if ssl && negb (strncmp sha1hash (at_sha1hash a) SWUPDATE_SHA_DIGEST_LENGTH =? 0)
      then wait_installer ;; ret (SERVER_EBADMSG, false)
      else
        r <- wait_installer ;;
        ret (match r with FAILURE => SERVER_EERR | _ => SERVER_OK end, counts r)
  end.

(** The loop; the result and the number of installed artifacts. *)
Fixpoint process_artifacts (action_id : Z) (update_action : option update_action_t) (part version name : string)
    (result : server_op_res_t) (installed : nat) (artifacts : list artifact_t) : M (server_op_res_t * nat) :=
  match artifacts with
  | [] => ret (result, installed)
  | a :: artifacts =>
      if at_skip a then process_artifacts action_id update_action part version name result installed artifacts
      else
        r <- process_artifact action_id update_action part version name a ;;
        let '(result, counted) := r in
        let installed := (installed + if (counted : bool) then 1 else 0)%nat in
        if negb (server_ok result) then ret (result, installed)
        else process_artifacts action_id update_action part version name result installed artifacts
  end.

Definition no_errors : list (option string) := replicate HAWKBIT_MAX_REPORTED_ERRORS None.

Definition server_process_update_artifact (action_id : Z) (json_data_artifact : option J) (update_action : option update_action_t)
    (part version name : string) : M server_op_res_t :=
  modify (set_errors no_errors 0) ;;
  action_id_str <- asprintf b (print_d action_id) ;;
  match action_id_str with
  | None => ret SERVER_EERR
  | Some s =>
      vars_set b "action_id" (Some s) ;;
      ok <- alloc b ;;
      if negb ok then ret SERVER_EERR
      else
        artifacts <- json_extract_artifact json_data_artifact ;;
        r <- match artifacts with
             | None => ret (SERVER_OK, 0%nat)
             | Some artifacts => process_artifacts action_id update_action part version name SERVER_OK 0 artifacts
             end ;;
        let '(result, installed) := r in
        result <- (if (installed =? 0)%nat then add_error "No suitable .swu image found" ;; ret SERVER_EERR else ret result) ;;
        modify (set_cached_file None) ;;
        ret result
  end.

(** ** Installing *)

(** Turns of the loop over the chunks from number [count] on: the result, and whether the loop came to its end. *)
Fixpoint install_chunks (action_id max count : Z) (result : server_op_res_t) (chunks : list (option J))
    : M (server_op_res_t * bool) :=
  match chunks with
  | [] => ret (result, true)
  | chunk :: chunks =>
      match path chunk ["part"], path chunk ["version"], path chunk ["name"] with
      | (Some _) as part, (Some _) as version, (Some _) as name =>
          match path chunk ["artifacts"] with
          | None =>
              add_error "Got malformed JSON: Could not find field deployment->chunks->artifacts." ;;
              ret (SERVER_EBADMSG, false)
          | artifacts =>
              r <- server_send_deployment_reply action_id max count "none" "proceeding" ["Installing Update Chunk Artifacts."] ;;
              if negb (server_ok r) then ret (result, false)
              else
                modify (set_cancelDuringUpdate false) ;;
                h <- get ;;
                result <- server_process_update_artifact action_id artifacts (hb_update_action h) (default "" (text part))
                            (default "" (text version)) (default "" (text name)) ;;
                h <- get ;;
                if negb (server_ok result) then
                  (if hb_cancelDuringUpdate h then server_send_cancel_reply action_id
                   else server_send_deployment_reply action_id max count "failure" "closed"
                          (default "(null)" <$> take (hb_errorcnt h) (hb_errors h))) ;;
                  ret (result, false)
                else
                  server_send_deployment_reply action_id max (count + 1) "none" "proceeding" ["Installed Chunk."] ;;
                  install_chunks action_id max (count + 1) result chunks
          end
      | _, _, _ =>
          add_error "Got malformed JSON: Could not find fields 'part', 'version', or 'name'." ;;
          ret (SERVER_EBADMSG, false)
      end
  end.

(** The part behind [cleanup]. *)
Definition install_cleanup (result : server_op_res_t) : M server_op_res_t :=
  modify (fun h => set_errors no_errors (hb_errorcnt h) h) ;;
  if negb (server_ok result) then ret result
  else r <- finish_update b ;; ret (match r with Some true => SERVER_OK | _ => SERVER_EERR end).

Definition install_deployment (result : server_op_res_t) (json_reply : option J) (action_id : Z) : M server_op_res_t :=
  modify (set_update_action None) ;;
  check_action_changed action_id (json_get_deployment_update_action json_reply) ;;
  h <- get ;;
  if bool_decide (hb_update_action h = Some action_skip) then
    server_send_deployment_reply action_id 0 0 "success" "closed" ["Skipped Update."] ;;
    install_cleanup result
  else
    match path json_reply ["deployment"; "chunks"] with
    | None => add_error "Got malformed JSON: Could not find field deployment->chunks." ;; install_cleanup SERVER_EBADMSG
    | chunks =>
        let max := Z.of_nat (json_object_array_length jc chunks) in
        r <- install_chunks action_id max 0 result (json_array chunks) ;;
        let '(result, complete) := r in
        (if (complete : bool) then
           server_send_deployment_reply action_id max max "none" "proceeding" ["All Chunks Installed."] ;; ret tt
         else ret tt) ;;
        install_cleanup result
    end.

Definition server_install_update : M server_op_res_t :=
  a <- server_get_deployment_info junk ;;
  let '(result, json_reply, action_id) := a in
  match result with
  | SERVER_UPDATE_CANCELED | SERVER_UPDATE_AVAILABLE | SERVER_ID_REQUESTED | SERVER_OK => install_deployment result json_reply action_id
  | _ => install_cleanup result
  end.

(** ** Attributes of the device *)

Fixpoint set_attributes (attrs : list (option J)) : M unit :=
  match attrs with
  | [] => ret tt
  | a :: attrs =>
      m1 <- alloc b ;;
      m2 <- alloc b ;;
      modify (fun h => set_configdata
        (dict_set_value m1 m2 (hb_configdata h) (default "" (text (path a ["name"]))) (default "" (text (path a ["value"])))).2 h) ;;
      set_attributes attrs
  end.

Definition server_set_additional_device_attributes_ipc (json_data : option J) : M unit := set_attributes (json_array json_data).

(** [json_root] is the message, [None] if it is not JSON. *)
Definition server_configuration_ipc (json_root : option J) : M server_op_res_t :=
  match json_root with
  | None => ret SERVER_EERR
  | Some _ =>
      match path json_root ["polling"] with
      | None => ret tt
      | json_data =>
          let polling := u32 (json_object_get_int jc json_data) in
          if polling >? 0 then modify (fun h => set_polling_interval polling (set_polling_interval_from_server false h))
          else modify (set_polling_interval_from_server true)
      end ;;
      match path json_root ["identify"] with
      | None => ret tt
      | json_data => server_set_additional_device_attributes_ipc json_data ;; modify (set_has_to_send_configData true)
      end ;;
      ret SERVER_OK
  end.

(** Messages that the other thread serves. *)
Fixpoint serve_config (msgs : list (option J)) : M unit :=
  match msgs with [] => ret tt | m :: msgs => server_configuration_ipc m ;; serve_config msgs end.

(** The text of the attributes, appended to [configData]; [None] without memory. *)
Fixpoint config_text (first : bool) (configdata : dict) (configData : string) : M (option string) :=
  match configdata with
  | [] => ret (Some configData)
  | e :: configdata =>
      keyvalue <- asprintf b ((if first then " " else ",") +:+ quoted (default "" (dict_entry_get_key (Some e))) +:+ ": "
                    +:+ quoted (default "" (dict_entry_get_value (Some e)))) ;;
      match keyvalue with
      | None => ret None
      | Some keyvalue => config_text false configdata (configData +:+ keyvalue)
      end
  end.

Definition config_url (h : server_hawkbit_t) : string := device_url h +:+ "/configData".

(** The text is collected in a buffer of [get_target_data_length] and 16 bytes; [None] if it does not fit. [between] are the messages
    that the other thread serves after the length was taken and before the text is collected. *)
Definition server_send_target_data (between : list (option J)) : M (option server_op_res_t) :=
  h <- get ;;
  let len := get_target_data_length (hb_configdata h) in
  if len =? 0 then modify (set_has_to_send_configData false) ;; ret (Some SERVER_OK)
  else
    ok <- alloc b ;;
    if negb ok then ret (Some SERVER_EERR)
    else
      serve_config between ;;
      h <- get ;;
      data <- config_text true (hb_configdata h) "" ;;
      match data with
      | None => ret (Some SERVER_EINIT)
      | Some data =>
          if strlen data + 1 >? len + 16 then ret None
          else
            fdate <- date b ;;
            body <- asprintf b (config_feedback fdate "success" "closed" data) ;;
            match body with
            | None => ret (Some SERVER_EINIT)
            | Some body =>
                url <- asprintf b (config_url h) ;;
                match url with
                | None => ret (Some SERVER_EINIT)
                | Some url =>
                    r <- http_put b CHANNEL_PUT url body ;;
                    let result := map_channel_retcode r in
                    (if server_ok result then modify (set_has_to_send_configData false) else ret tt) ;;
                    ret (Some result)
                end
            end
      end.

(** ** Messages *)

(** The result is a [server_op_res_t], or what [save_state] returned. *)
Definition activate (action_id update_state : Z) (reply_result reply_execution : string) (details : list string)
    : M (server_op_res_t + Z) :=
  a <- server_get_deployment_info junk ;;
  let '(result, _, server_action_id) := a in
  match result with
  | SERVER_OK | SERVER_UPDATE_AVAILABLE | SERVER_NO_UPDATE_AVAILABLE | SERVER_UPDATE_CANCELED | SERVER_ID_REQUESTED =>
      (if bool_decide (result = SERVER_UPDATE_CANCELED) then server_send_cancel_reply server_action_id ;; ret tt else ret tt) ;;
      response <- (if negb (action_id =? server_action_id) then ret SERVER_OK
                   else handle_feedback action_id result reply_result reply_execution details) ;;
      match response with
      | SERVER_UPDATE_AVAILABLE | SERVER_OK =>
          modify (set_update_state STATE_OK) ;; saved <- store_state b STATE_OK ;; ret (inr saved)
      | _ => ret (inl SERVER_EERR)
      end
  | _ => ret (inl SERVER_EERR)
  end.

Definition server_activation_ipc (json_root : option J) : M (server_op_res_t + Z) :=
  match json_root with
  | None => ret (inl SERVER_EERR)
  | Some _ =>
      let action_id := match path json_root ["id"] with None => -1 | json_data => json_object_get_int jc json_data end in
      action_id <- (if action_id <=? 0 then get_action_id_from_env action_id else ret action_id) ;;
      if action_id <=? 0 then ret (inl SERVER_EERR)
      else match path json_root ["status"] with
      | None => ret (inl SERVER_EERR)
      | json_data =>
          let update_state := from_option byte_of 0 (head (String.list_ascii_of_string (default "" (text json_data)))) in
          let reply_result := default "" (json_get_value jc json_root "finished") in
          let reply_execution := default "" (json_get_value jc json_root "execution") in
          let json_details := json_get_key jc json_root "details" in
          if negb (hawkbit_enum_check "finished" reply_result) || negb (hawkbit_enum_check "execution" reply_execution)
            || negb (is_valid_state update_state) then ret (inl SERVER_EERR)
          else if bool_decide (json_details = None) then ret (inl SERVER_EERR)
          else
            ok <- alloc b ;;
            if negb ok then ret (inl SERVER_EERR)
            else
              let l := (fun j => default "(null)" (text j)) <$> json_array json_details in
              activate action_id update_state reply_result reply_execution (match l with [] => [""] | _ => l end)
      end
  end.

Definition channel_number (r : channel_op_res_t) : Z :=
  match r with
  | CHANNEL_OK => 0 | CHANNEL_EINIT => 1 | CHANNEL_ENONET => 2 | CHANNEL_ENOMEM => 3 | CHANNEL_EACCES => 4
  | CHANNEL_ENOENT => 5 | CHANNEL_EIO => 6 | CHANNEL_EILSEQ => 7 | CHANNEL_EAGAIN => 8 | CHANNEL_ELOOP => 9
  | CHANNEL_EBADMSG => 10 | CHANNEL_ENOTFOUND => 11 | CHANNEL_EREDIRECT => 12 | CHANNEL_ESSLCERT => 13
  | CHANNEL_ESSLCONNECT => 14 | CHANNEL_REQUEST_PENDING => 15
  end.

(** Messages to the connector; the JSON of their buffer, [None] if there is none. *)
Inductive hawkbit_cmd :=
  | CmdActivation (json_root : option J)
  | CmdConfig (json_root : option J)
  | CmdGetStatus
  | CmdOther.

(** The answer: whether it is an [ACK], the length and the contents of the buffer if it was written. *)
Record hawkbit_answer := mk_hawkbit_answer {
  ha_ack : bool;
  ha_len : Z;
  ha_buf : option string;
}.

(** [iso8601] is [swupdate_time_iso8601]. *)
Definition server_status_ipc (iso8601 : Z -> string) (h : server_hawkbit_t) : string :=
  js "{'server':{'status':" +:+ print_d (channel_number (hb_server_status h)) +:+ js ",'time':'" +:+ iso8601 (hb_server_status_time h)
  +:+ js "'}}".

(** The length is reset whatever the message was; [SERVER_EERR] is 1. *)
Definition server_ipc (iso8601 : Z -> string) (cmd : hawkbit_cmd) : M hawkbit_answer :=
  match cmd with
  | CmdActivation j =>
      r <- server_activation_ipc j ;;
      ret (mk_hawkbit_answer (match r with inl r => negb (bool_decide (r = SERVER_EERR)) | inr z => negb (z =? 1) end) 0 None)
  | CmdConfig j => r <- server_configuration_ipc j ;; ret (mk_hawkbit_answer (negb (bool_decide (r = SERVER_EERR))) 0 None)
  | CmdGetStatus => h <- get ;; ret (mk_hawkbit_answer true 0 (Some (server_status_ipc iso8601 h)))
  | CmdOther => ret (mk_hawkbit_answer false 0 None)
  end.
End Hawkbit.

(** * Properties *)

Section Log.
Context {J W C : Type} (jc : json_c J) (b : backend J W) (hl : hash_lib C) (junk : Z) (ssl : bool) (retries : Z).
Abbreviation M := (op server_hawkbit_t J W).
Abbreviation path := (json_get_path_key jc).
Abbreviation text := (json_object_get_string jc).

(** Talking to the server and to listeners. *)
Definition talk (e : event J) : Prop := match e with EvGet _ _ _ | EvPut _ _ _ _ | EvNotify _ _ => True | _ => False end.

Lemma add_error_talk s : emits talk (add_error b s : M _).
Proof. unfold add_error. emits_tac. Qed.

Lemma check_action_changed_talk id a : emits talk (check_action_changed b id a : M _).
Proof. unfold check_action_changed, send_notification. emits_tac. Qed.

Lemma create_details_quiet P prev l : emits P (create_details b prev l : M _).
Proof. revert prev. induction l as [|d l IH]; intros prev; cbn [create_details]; emits_tac. Qed.

#[local] Hint Resolve create_details_quiet : emits.

Lemma deployment_reply_talk id max cur fin ex l : emits talk (server_send_deployment_reply b id max cur fin ex l : M _).
Proof. unfold server_send_deployment_reply, server_create_details, date, http_put. emits_tac. Qed.

Lemma cancel_reply_talk id : emits talk (server_send_cancel_reply b id : M _).
Proof. unfold server_send_cancel_reply, date, http_put, send_notification. emits_tac. Qed.

Lemma deployment_info_talk id : emits talk (server_get_deployment_info jc b id : M _).
Proof.
  unfold server_get_deployment_info, server_get_device_info, get_action, report_server_status, server_set_polling_interval_json,
    server_set_config_data, http_get, time. emits_tac.
Qed.
End Log.

#[export] Hint Resolve add_error_talk check_action_changed_talk create_details_quiet deployment_reply_talk
  cancel_reply_talk deployment_info_talk : emits.

(** ** What stays *)

(** The address of the device on the server. *)
Definition same_device (h h' : server_hawkbit_t) : Prop :=
  hb_url h' = hb_url h /\ hb_tenant h' = hb_tenant h /\ hb_device_id h' = hb_device_id h.

#[export] Instance same_device_preorder : PreOrder same_device.
Proof.
  split; [by intros h; split_and!|]. intros h1 h2 h3 (E1 & E2 & E3) (E4 & E5 & E6). split_and!; congruence.
Qed.

Lemma same_device_url h h' id : same_device h h' -> device_url h' = device_url h /\ feedback_url h' id = feedback_url h id.
Proof. intros (E1 & E2 & E3). unfold device_url, feedback_url. by rewrite E1, E2, E3. Qed.

Section Keep.
Context {J W C : Type} (jc : json_c J) (b : backend J W) (hl : hash_lib C) (junk : Z) (ssl : bool) (retries : Z).
Abbreviation M := (op server_hawkbit_t J W).

Lemma add_error_device s : keeps same_device (add_error b s : M _).
Proof. unfold add_error. keeps_tac. Qed.

Lemma check_action_changed_device id a : keeps same_device (check_action_changed b id a : M _).
Proof. unfold check_action_changed, send_notification. keeps_tac. Qed.

Lemma create_details_device prev l : keeps same_device (create_details b prev l : M _).
Proof. revert prev. induction l as [|d l IH]; intros prev; cbn [create_details]; keeps_tac. Qed.

#[local] Hint Resolve create_details_device : keeps.

Lemma deployment_reply_device id max cur fin ex l : keeps same_device (server_send_deployment_reply b id max cur fin ex l : M _).
Proof. unfold server_send_deployment_reply, server_create_details, date, http_put. keeps_tac. Qed.

Lemma cancel_reply_device id : keeps same_device (server_send_cancel_reply b id : M _).
Proof. unfold server_send_cancel_reply, date, http_put, send_notification. keeps_tac. Qed.

Lemma deployment_info_device id : keeps same_device (server_get_deployment_info jc b id : M _).
Proof.
  unfold server_get_deployment_info, server_get_device_info, get_action, report_server_status, server_set_polling_interval_json,
    server_set_config_data, http_get, time. keeps_tac.
Qed.
End Keep.

#[export] Hint Resolve add_error_device check_action_changed_device create_details_device deployment_reply_device
  cancel_reply_device deployment_info_device : keeps.

(** ** The pending action *)

Section Pending.
Context {J W C : Type} (jc : json_c J) (b : backend J W) (hl : hash_lib C) (junk : Z) (ssl : bool) (retries : Z).
Abbreviation M := (op server_hawkbit_t J W).
Abbreviation path := (json_get_path_key jc).
Abbreviation text := (json_object_get_string jc).

Definition pending (r : server_op_res_t) : bool := bool_decide (r = SERVER_UPDATE_CANCELED) || bool_decide (r = SERVER_UPDATE_AVAILABLE).

(** The results of a request. *)
Definition plain (r : server_op_res_t) : bool :=
  match r with
  | SERVER_OK | SERVER_EERR | SERVER_EBADMSG | SERVER_EINIT | SERVER_EACCES | SERVER_EAGAIN => true
  | _ => false
  end.

Lemma device_info_runs s r j s' t :
  server_get_device_info jc b s = (r, j, s', t) ->
  plain r = true /\ (r <> SERVER_OK \/ exists res, t = [EvGet (device_url s.1) res j] /\ map_channel_retcode res = SERVER_OK).
Proof.
  unfold server_get_device_info, http_get, report_server_status, time, server_set_polling_interval_json, server_set_config_data.
  intros E. run_inv E.
  all: (split; [try done; by destruct c|]).
  all: try (by left).
  all: try (left; intros H; by rewrite H in *).
  all: right; eexists; (split; [done|]); by apply server_ok_eq, negb_false_iff.
Qed.

(** What the server has told when an action is pending: the reply about the device, [info], names the URL of the action. *)
Definition action_told (info : option J) (r : server_op_res_t) (url : string) : Prop :=
  match r with
  | SERVER_UPDATE_CANCELED => json_get_data_url jc info "cancelAction" = Some url
  | SERVER_UPDATE_AVAILABLE =>
      json_get_data_url jc info "cancelAction" = None /\ json_get_data_url jc info "deploymentBase" = Some url
  | _ => False
  end.

Lemma get_action_runs st url id s r reply id' s' t :
  get_action jc b st url id s = (r, reply, id', s', t) ->
  exists res, t = [EvGet url res reply] /\
    (r = st /\ map_channel_retcode res = SERVER_OK /\ is_Some (path reply ["id"]) /\ id' = json_object_get_int jc (path reply ["id"])
     \/ plain r = true /\ r <> SERVER_OK /\ id' = id).
Proof.
  unfold get_action, http_get. intros E. run_inv E; eexists; (split; [done|]).
  all: cbn [fst]; first
    [ by left; rewrite Ex1; split_and!; [|apply server_ok_eq, negb_false_iff|eexists|]
    | right; split_and!; [by destruct c|by intros H; rewrite H in Ex0|done]
    | by right ].
Qed.

Lemma deployment_info_runs id s r reply id' s' t :
  server_get_deployment_info jc b id s = (r, reply, id', s', t) ->
  if pending r then exists res info url res2, t = [EvGet (device_url s.1) res info; EvGet url res2 reply] /\ action_told info r url /\
    map_channel_retcode res = SERVER_OK /\ map_channel_retcode res2 = SERVER_OK /\
    is_Some (path reply ["id"]) /\ id' = json_object_get_int jc (path reply ["id"])
  else id' = id /\ (plain r = true /\ r <> SERVER_OK \/
    r = SERVER_NO_UPDATE_AVAILABLE /\ exists res info, t = [EvGet (device_url s.1) res info] /\ map_channel_retcode res = SERVER_OK /\
      json_get_data_url jc info "cancelAction" = None /\ json_get_data_url jc info "deploymentBase" = None).
Proof.
  unfold server_get_deployment_info. intros (a & s1 & t1 & t2 & E1 & E & ->)%bind_inv. destruct a as [r1 info].
  apply device_info_runs in E1 as [Hp H1]. destruct (server_ok r1) eqn:Eok; cbn [negb] in E.
  2:{ run_inv E. replace (pending r1) with false by by destruct r1. split; [done|]. left. split; [done|]. by intros ->. }
  apply server_ok_eq in Eok as ->. destruct H1 as [|(res & -> & Hres)]; [done|].
  assert (Hact : forall st url s2 t3, action_told info st url -> get_action jc b st url id s2 = (r, reply, id', s', t3) ->
    if pending r then exists res2, t3 = [EvGet url res2 reply] /\ r = st /\ map_channel_retcode res2 = SERVER_OK /\
      is_Some (path reply ["id"]) /\ id' = json_object_get_int jc (path reply ["id"])
    else id' = id /\ plain r = true /\ r <> SERVER_OK).
  { intros st url s2 t3 Htold Ha. apply get_action_runs in Ha as (res2 & -> & [(-> & ? & ? & ?)|(? & ? & ?)]).
    - replace (pending st) with true by by destruct st. by exists res2.
    - by replace (pending r) with false by by destruct r. }
  destruct (json_get_data_url jc info "cancelAction") as [url|] eqn:Ec.
  - apply bind_inv in E as (c & s2 & t3 & t4 & Ea & E & ->). apply asprintf_inv in Ea as (_ & -> & _).
    apply bind_inv in E as ([] & s3 & t5 & t6 & Em & E & ->). apply modify_inv in Em as (-> & ->).
    apply (Hact SERVER_UPDATE_CANCELED) in E; [|done]. destruct (pending r); [|by destruct E as (-> & ? & ?); split; [|left]].
    destruct E as (res2 & -> & -> & ? & ? & ?). by exists res, info, url, res2.
  - destruct (json_get_data_url jc info "deploymentBase") as [url|] eqn:Ed.
    + apply (Hact SERVER_UPDATE_AVAILABLE) in E; [|done]. destruct (pending r); [|by destruct E as (-> & ? & ?); split; [|left]].
      destruct E as (res2 & -> & -> & ? & ? & ?). by exists res, info, url, res2.
    + run_inv E. split; [done|]. right. split; [done|]. by exists res, info.
Qed.

(** ** Reports *)

(** The details as they are sent. *)
Definition join_details (prev : option string) (l : list string) : option string :=
  foldl (fun prev d => Some (match prev with None => quoted d | Some prev => prev +:+ "," +:+ quoted d end)) prev l.

Lemma create_details_runs l : forall prev s r s' t, create_details b prev l s = (r, s', t) ->
  s'.1 = s.1 /\ t = [] /\ (r = None \/ r = join_details prev l).
Proof.
  induction l as [|d l IH]; intros prev s r s' t E; cbn [create_details] in E.
  { run_inv E. split_and!; [done|done|by right]. }
  apply bind_inv in E as (o & s1 & t1 & t2 & Ea & E & ->). apply asprintf_inv in Ea as (Es & -> & [[-> _]|[-> _]]).
  { run_inv E. split_and!; [done|done|by left]. }
  apply IH in E as (Es' & -> & Hr). split_and!; [congruence|done|]. destruct Hr as [-> | ->]; [by left|]. right. by destruct prev.
Qed.

(** A report that is sent: with its details, or without them when there is no memory for them. *)
Definition report (h : server_hawkbit_t) (id max cur : Z) (finished execution : string) (l : list string) (res : channel_op_res_t)
    (e : event J) : Prop :=
  exists fdate detail, (detail = " " \/ join_details None l = Some detail) /\
    e = EvPut CHANNEL_POST (feedback_url h id) (deployment_feedback id fdate cur max finished execution detail) res.

(** Some allocation fails. *)
Definition out_of_memory : Prop := exists w, (b_alloc b w).1 = false.

Lemma deployment_reply_runs id max cur fin ex l s r s' t :
  server_send_deployment_reply b id max cur fin ex l s = (r, s', t) ->
  s'.1 = s.1 /\ (r = SERVER_EINIT /\ t = [] /\ out_of_memory \/ exists res e, t = [e] /\ report s.1 id max cur fin ex l res e /\ r = map_channel_retcode res).
Proof.
  unfold server_send_deployment_reply, server_create_details, date, http_put. intros E.
  apply bind_inv in E as (h & s0 & t0 & u0 & E0 & E & ->). apply get_inv in E0 as (-> & -> & ->).
  apply bind_inv in E as (detail & s1 & t1 & u1 & E1 & E & ->). apply create_details_runs in E1 as (Es1 & -> & Hd).
  run_inv E; (split; [cbn in *; congruence|]); [left; by split_and!; [| |eexists]..|right]. eexists _, _. split_and!; [done| |done].
  eexists _, _. split; [|reflexivity]. destruct Hd as [-> | ->]; [by left|]. destruct (join_details None l); [by right|by left].
Qed.

(** The server has no deployment that is not cancelled, or is asked to cancel one. *)
Definition no_deployment (h : server_hawkbit_t) (t : list (event J)) : Prop :=
  exists res info t', t = EvGet (device_url h) res info :: t' /\ map_channel_retcode res = SERVER_OK /\
    (is_Some (json_get_data_url jc info "cancelAction") \/ json_get_data_url jc info "deploymentBase" = None).

(** Nothing is changed on the device. *)
Definition asking (e : event J) : Prop := match e with EvVarsGet _ _ => True | _ => talk e end.

(** The log of reporting [state]: nothing is changed on the device, and success means that there was nothing to report; or the report
    was accepted, and then the state is reset. *)
Definition reported (h : server_hawkbit_t) (state : Z) (r : server_op_res_t) (t : list (event J)) : Prop :=
  Forall asking t /\ (r = SERVER_OK -> state_report state = None \/ no_deployment h t) \/
  exists fin ex msg t0 e id res y x, state_report state = Some (fin, ex, msg) /\
    t = t0 ++ [e; EvVarsSet "action_id" None y; EvSaveState STATE_OK x] /\ Forall asking t0 /\
    report h id 0 0 fin ex [msg] res e /\ map_channel_retcode res = SERVER_OK /\ r = (if x =? 0 then SERVER_OK else SERVER_EERR).

Lemma report_state_runs state s r s' t : report_state jc b junk state s = (r, s', t) -> reported s.1 state r t.
Proof.
  unfold report_state, reported. destruct (state_report state) as [[[fin ex] msg]|]; intros E; [|run_inv E; left; auto].
  apply bind_inv in E as ([[r1 reply] id] & s1 & t1 & u1 & E1 & E & ->).
  pose proof (emits_run _ _ _ _ _ _ (deployment_info_talk jc b junk) E1) as Ht1.
  pose proof (keeps_run _ _ _ _ _ _ (deployment_info_device jc b junk) E1) as Hdev. apply deployment_info_runs in E1.
  assert (Hask : Forall asking t1) by (eapply Forall_impl; [exact Ht1|]; by intros []).
  apply bind_inv in E as (id2 & s2 & t2 & u2 & E2 & E & ->).
  assert (s2.1 = s1.1 /\ Forall asking t2) as [Es2 Ht2].
  { unfold get_action_id_from_env, vars_get in E2. run_inv E2; cbn in *; (split; [done|by repeat constructor]). }
  apply bind_inv in E as (r2 & s3 & t3 & u3 & E3 & E & ->). unfold handle_feedback in E3.
  destruct (decide (r1 = SERVER_UPDATE_AVAILABLE)) as [->|Hne].
  - apply bind_inv in E3 as (r3 & s4 & t4 & u4 & E4 & E3 & ->). apply deployment_reply_runs in E4 as [Es4 H4]. run_inv E3.
    destruct H4 as [(-> & -> & _)|(res & e & -> & Hrep & ->)].
    { left. run_inv E. split; [|done]. rewrite !app_nil_r. by apply Forall_app. }
    destruct (server_ok (map_channel_retcode res)) eqn:Eok; cbn [negb] in E.
    + right. rewrite bool_decide_eq_true_2 in E by done. cbn [negb] in E.
      apply bind_inv in E as (y & s5 & t5 & u5 & E5 & E & ->). apply ask_inv in E5 as [_ ->].
      apply bind_inv in E as (x & s6 & t6 & u6 & E6 & E & ->). apply ask_inv in E6 as [_ ->]. run_inv E.
      exists fin, ex, msg, (t1 ++ t2), e, id2, res, y, x. split_and!; [done|..].
      * cbn. by rewrite <- !app_assoc.
      * by apply Forall_app.
      * destruct Hrep as (fdate & detail & Hd & ->). exists fdate, detail. split; [done|].
        rewrite Es2. by destruct (same_device_url _ _ id2 Hdev) as [_ ->].
      * by apply server_ok_eq.
      * done.
    + left. run_inv E. split; [|done]. cbn. rewrite ?app_nil_r. apply Forall_app. split; [done|]. apply Forall_app. split; [done|].
      destruct Hrep as (fdate & detail & _ & ->). by repeat constructor.
  - assert (t3 = [] /\ r2 = if plain r1 then r1 else SERVER_OK) as [-> ->] by (destruct r1; run_inv E3; done).
    rewrite bool_decide_eq_false_2 in E by (by destruct r1). cbn [negb] in E. run_inv E. left. cbn. rewrite !app_nil_r.
    split; [by apply Forall_app|]. intros Hok. right. destruct r1; cbn in E1, Hok; try done; try (destruct E1 as [_ [[]|[]]]; done).
    + destruct E1 as [_ [[]|[_ (res & info & -> & ? & ? & ?)]]]; [done|]. exists res, info, t2. by split_and!; [| |right].
    + destruct E1 as (res & info & url & res2 & -> & Htold & ? & _). exists res, info, (EvGet url res2 reply :: t2).
      split_and!; [done|done|]. left. by rewrite Htold.
Qed.

(** C21: the result of an update is not lost: when the connector starts after an update, the state on the device is reset, and the
    stored identifier of the action removed, only right after the server has accepted a report with the result of
    that state, whatever fails in between; and the start succeeds without a reset only if the state has nothing to report or
    the server has no deployment to report on. *)
Theorem result_reported (stateovrrd : Z) (s s' : server_hawkbit_t * W) (r : server_op_res_t) (t : list (event J)) :
  server_handle_initial_state jc b junk stateovrrd s = (r, s', t) ->
  exists state t0 t1, t = t0 ++ t1 /\
    (t0 = [] /\ state = stateovrrd \/ t0 = [EvGetState state] /\ stateovrrd = STATE_NOT_AVAILABLE) /\
    reported s.1 state r t1.
Proof.
  unfold server_handle_initial_state. intros E. destruct (Z.eqb_spec stateovrrd STATE_NOT_AVAILABLE) as [->|Hne]; cbn [negb] in E.
  - apply bind_inv in E as (state & s1 & t1 & t2 & E1 & E & ->). apply ask_inv in E1 as [Es ->]. exists state, [EvGetState state], t2.
    split_and!; [done|by right|]. rewrite <- Es. destruct (state =? STATE_ERROR); [run_inv E; by left|by apply report_state_runs in E].
  - exists stateovrrd, [], t. split_and!; [done|by left|]. destruct (is_valid_state stateovrrd); cbn [negb] in E; [by apply report_state_runs in E|].
    run_inv E. by left.
Qed.
End Pending.

(** ** Attributes *)

Section Attributes.
Context {J W : Type} (jc : json_c J) (b : backend J W).

Lemma js_length s : strlen (js s) = strlen s.
Proof. unfold js, strlen. f_equal. induction s as [|c s IH]; cbn; [done|by rewrite IH]. Qed.

Lemma quoted_length s : strlen (quoted s) = strlen s + 2.
Proof. unfold quoted. rewrite !strlen_app, !js_length. change (strlen "'") with 1. lia. Qed.

Definition entry_length (e : dict_entry) : Z :=
  strlen (default "" (dict_entry_get_key (Some e))) + strlen (default "" (dict_entry_get_value (Some e))).

Lemma target_data_length d : forall n, foldl (fun len e => len + (entry_length e + strlen " : " + 6)) n d
  = n + foldr (fun e len => entry_length e + 9 + len) 0 d.
Proof. induction d as [|e d IH]; intros n; cbn [foldl foldr]; [lia|]. rewrite IH. change (strlen " : ") with 3. lia. Qed.

Lemma config_text_length d : forall first text s r s' t, config_text b first d text s = (Some r, s', t) ->
  strlen r <= strlen text + foldr (fun e len => entry_length e + 9 + len) 0 d.
Proof.
  induction d as [|e d IH]; intros first text s r s' t E; cbn [config_text foldr] in *; [run_inv E; lia|].
  apply bind_inv in E as (kv & s1 & t1 & u1 & E1 & E & ->). apply asprintf_inv in E1 as (_ & -> & [[-> _]|[-> _]]); [run_inv E|].
  apply IH in E. unfold entry_length in *. rewrite !strlen_app, !quoted_length in E. change (strlen ": ") with 2 in E.
  assert (strlen (if first then " " else ",") = 1) by by destruct first. lia.
Qed.

(** The attributes of the device fit into the buffer that is allocated for them, whatever they are, if they do not change while they
    are sent. *)
Theorem config_data_fits (s : server_hawkbit_t * W) : (server_send_target_data jc b [] s).1.1 <> None.
Proof.
  destruct (server_send_target_data jc b [] s) as [[r s'] t] eqn:E. cbn. intros ->. unfold server_send_target_data in E.
  apply bind_inv in E as (h & s1 & t1 & u1 & E1 & E & ->). apply get_inv in E1 as (-> & -> & ->).
  destruct (_ =? 0); [run_inv E|]. apply bind_inv in E as (ok & s2 & t2 & u2 & E2 & E & ->). apply ask_inv in E2 as [Es2 ->].
  destruct ok; [|run_inv E]. cbn [negb serve_config] in E.
  apply bind_inv in E as ([] & s3 & t3 & u3 & E3 & E & ->). apply ret_inv in E3 as (_ & -> & ->).
  apply bind_inv in E as (h & s4 & t4 & u4 & E4 & E & ->). apply get_inv in E4 as (-> & -> & ->). rewrite Es2 in E.
  apply bind_inv in E as (data & s5 & t5 & u5 & E5 & E & ->). destruct data as [data|]; [|run_inv E].
  apply config_text_length in E5. pose proof (target_data_length (hb_configdata s.1) 0 : get_target_data_length _ = _) as Hlen.
  destruct (Z.gtb_spec (strlen data + 1) (get_target_data_length (hb_configdata s.1) + 16)) as [Hgt|_].
  { change (strlen "") with 0 in E5. lia. }
  unfold date, http_put in E. run_inv E.
Qed.
End Attributes.

(** ** The log of the installer *)

Section Notifications.
Context {J W : Type} (b : backend J W).
Abbreviation M := (op server_hawkbit_t J W).

(** What is sent of an answer. *)
Definition log_line (answer : option ipc_status) : list string :=
  match data_avail answer with
  | Some a => if bool_decide (is_current a = PROGRESS) then [] else [sanitize (is_desc a)]
  | None => []
  end.

Definition log_lines (turns : list (option ipc_status * bool)) : list string := turns ≫= fun t => log_line t.1.

(** The turn asks the thread to end. *)
Definition ending (turn : option ipc_status * bool) : bool := turn.2 || bool_decide (turn.1 = None).

(** Reports with these groups of lines. *)
Definition log_reports (h : server_hawkbit_t) (id : Z) (groups : list (list string)) (t : list (event J)) : Prop :=
  Forall2 (fun g e => exists step percent res, report h id step percent "none" "proceeding" g res e) groups t.

Lemma log_reply (h : server_hawkbit_t) id step percent l s r s' t :
  ~ out_of_memory b -> s.1 = h -> server_send_deployment_reply b id step percent "none" "proceeding" l s = (r, s', t) ->
  s'.1 = h /\ log_reports h id [l] t.
Proof.
  intros Hm <- [Es [(_ & _ & ?)|(res & e & -> & Hrep & _)]]%deployment_reply_runs; [done|]. split; [done|].
  constructor; [|constructor]. by exists step, percent, res.
Qed.

(** The reports of a thread that has [details] left over: it ends at a turn without text after it was asked to, and all lines before are
    in the reports, in order, in groups that are not too large. *)
Definition log_sent (h : server_hawkbit_t) (id : Z) (stop : bool) (turns : list (option ipc_status * bool)) (details : list string)
    (t : list (event J)) : Prop :=
  exists n turn groups, turns !! n = Some turn /\ data_avail turn.1 = None /\ stop || existsb ending (take (S n) turns) = true /\
    log_reports h id groups t /\ concat groups = details ++ log_lines (take n turns) /\
    Forall (fun g => (length g <= MAX_DETAILS)%nat) groups.

Lemma log_sent_cons h id stop turn turns details details' g0 t1 t0 :
  log_reports h id g0 t1 -> Forall (fun g => (length g <= MAX_DETAILS)%nat) g0 ->
  concat g0 ++ details' = details ++ log_line turn.1 ->
  log_sent h id (stop || ending turn) turns details' t0 -> log_sent h id stop (turn :: turns) details (t1 ++ t0).
Proof.
  intros Hg0 Hl0 Hcat (n & last & groups & H1 & H2 & H3 & H4 & H5 & H6). exists (S n), last, (g0 ++ groups).
  split_and!; [done|done| |by apply Forall2_app| |by apply Forall_app].
  - change (existsb ending (take (S (S n)) _)) with (ending turn || existsb ending (take (S n) turns)). by rewrite orb_assoc.
  - rewrite concat_app, H5, app_assoc, Hcat. unfold log_lines. cbn. by rewrite app_assoc.
Qed.

Lemma notification_loop_runs (h : server_hawkbit_t) id turns : ~ out_of_memory b -> forall stop details step percent s s' t,
  s.1 = h -> (length details < MAX_DETAILS)%nat ->
  notification_loop b id turns stop details step percent s = (true, s', t) -> log_sent h id stop turns details t.
Proof.
  intros Hm. induction turns as [|[answer locked] turns IH]; intros stop details step percent s s' t Hs Hd E;
    cbn [notification_loop] in E; [run_inv E|]. change (locked || _) with (ending (answer, locked)) in E.
  assert (Hnil : log_reports h id [] []) by constructor. destruct (data_avail answer) as [a|] eqn:Ea.
  - cbn [fmap option_fmap option_map] in E. destruct (decide (is_current a = PROGRESS)) as [Hp|Hp].
    { rewrite bool_decide_eq_true_2 in E by congruence. apply (log_sent_cons _ _ _ _ _ _ details [] [] t); try done; [|by eapply IH].
      unfold log_line. cbn. rewrite Ea, bool_decide_eq_true_2 by done. by rewrite app_nil_r. }
    assert (Hline : log_line answer = [sanitize (is_desc a)]) by (unfold log_line; by rewrite Ea, bool_decide_eq_false_2).
    rewrite bool_decide_eq_false_2 in E by congruence. rewrite (bool_decide_eq_false_2 (Some a = None)), andb_false_r, orb_false_r in E by done.
    destruct (Nat.ltb_spec (length details) MAX_DETAILS); [|lia]. rewrite <- Hline in E.
    destruct (Nat.eqb_spec (length (details ++ log_line answer)) MAX_DETAILS) as [Hfull|Hnf].
    + apply bind_inv in E as (r & s1 & t1 & u1 & E1 & E & ->). apply (log_reply h) in E1 as [Es1 H1]; [|done|done].
      destruct (if percent + 1 >? 100 then _ else _) as [st p].
      apply (log_sent_cons _ _ _ _ _ _ [] [details ++ log_line answer]); [done|by constructor; [lia|]|cbn; by rewrite !app_nil_r|].
      eapply IH; [done| |exact E]. unfold MAX_DETAILS. cbn. lia.
    + apply (log_sent_cons _ _ _ _ _ _ (details ++ log_line answer) [] [] t); try done. eapply IH; [done| |exact E].
      rewrite length_app, Hline in *. cbn in *. lia.
  - cbn [fmap option_fmap option_map] in E. rewrite bool_decide_eq_false_2, (bool_decide_eq_true_2 (None = None)), andb_true_r in E by done.
    assert (Hline : log_line answer = []) by (unfold log_line; by rewrite Ea).
    destruct (Nat.eqb_spec (length details) MAX_DETAILS); [lia|]. cbn [orb] in E.
    destruct (stop || ending (answer, locked)) eqn:Estop.
    + apply bind_inv in E as (r & s1 & t1 & u1 & E1 & E & ->). apply (log_reply h) in E1 as [Es1 H1]; [|done|done]. run_inv E.
      exists 0%nat, (answer, locked), [details]. rewrite app_nil_r. split_and!; try done; [cbn [take existsb]; by rewrite orb_false_r|by constructor; [lia|]].
    + apply (log_sent_cons _ _ _ _ _ _ details [] [] t); try done; [cbn; by rewrite Hline, app_nil_r|].
      rewrite Estop. by eapply IH.
Qed.

Lemma sanitize_clean s c : str_mem c (sanitize s) = true -> ~ c ∈ ["034"; "\"; "010"; "013"]%char.
Proof.
  unfold sanitize. induction s as [|d s IH]; cbn [str_map str_mem]; [done|]. intros [H|H]%orb_true_iff; [|by apply IH].
  apply Ascii.eqb_eq in H as <-. intros Hin. set (l := ["034"; "'"; "\"; "010"; "013"]%char) in *.
  destruct (existsb (Ascii.eqb d) l) eqn:E; [by repeat (apply elem_of_cons in Hin as [Hin|Hin]; [done|]); apply not_elem_of_nil in Hin|].
  repeat (apply elem_of_cons in Hin as [->|Hin]; [done|]). by apply not_elem_of_nil in Hin.
Qed.

(** The thread that sends the log of the installer loses nothing: with enough memory, when it ends, every line that the installer had
    told before, without the progress of downloads, has been sent to the server, in order, in reports of at most
    48 lines; it ends only after it was asked to and when there is nothing left to read. *)
Theorem log_delivered (id : Z) (turns : list (option ipc_status * bool)) (s s' : server_hawkbit_t * W) (t : list (event J)) :
  (forall w, (b_alloc b w).1 = true) -> process_notification_thread b id turns s = (true, s', t) ->
  (exists r, r <> Some CHANNEL_OK /\ t = [EvOpen r]) \/
  exists t', t = EvOpen (Some CHANNEL_OK) :: t' /\ log_sent s.1 id false turns [] t'.
Proof.
  intros Hm E. unfold process_notification_thread in E. apply bind_inv in E as (r & s1 & t1 & u1 & E1 & E & ->).
  apply ask_inv in E1 as [Es ->]. destruct (decide (r = Some CHANNEL_OK)) as [->|Hr].
  - right. exists u1. split; [done|]. eapply notification_loop_runs; [|exact Es| |exact E].
    + intros [w Hw]. by rewrite Hm in Hw.
    + unfold MAX_DETAILS. cbn. lia.
  - left. exists r. split; [done|]. destruct r as [[]|]; try done; by run_inv E.
Qed.
End Notifications.

(** ** Examples *)

Definition toy_hawkbit (configdata : dict) : server_hawkbit_t :=
  mk_server_hawkbit "https://server" "dev" "tenant" 45 true configdata false None None STATE_NOT_AVAILABLE 0 false no_errors 0 None None
    true 10 CHANNEL_OK 0 0.

(** After an update: the state is read, the server has the deployment, and takes the report. *)
Definition toy_start (saved : Z) : server_op_res_t * (server_hawkbit_t * toy_world) * list (event json) :=
  server_handle_initial_state toy_json (toy_backend (toy_net toy_file 0 None true) STATE_TESTING saved) (-5) STATE_NOT_AVAILABLE
    (toy_hawkbit [], mk_toy_world (deploys "forced" []) [CHANNEL_OK]).

Lemma result_reported_witness : (toy_start 0).1.1 = SERVER_OK /\ EvSaveState STATE_OK 0 ∈ (toy_start 0).2 /\
  exists state t0 t1, (toy_start 0).2 = t0 ++ t1 /\ reported toy_json (toy_hawkbit []) state SERVER_OK t1.
Proof.
  assert (H1 : (toy_start 0).1.1 = SERVER_OK) by (vm_compute; reflexivity).
  assert (H2 : (toy_start 0).2 !! 6%nat = Some (EvSaveState STATE_OK 0)) by (vm_compute; reflexivity).
  destruct (toy_start 0) as [[r s'] t] eqn:E. cbn in H1, H2. subst r.
  destruct (result_reported toy_json (toy_backend (toy_net toy_file 0 None true) STATE_TESTING 0) (-5) STATE_NOT_AVAILABLE _ _ _ _ E)
    as (state & t0 & t1 & Ht & _ & Hr).
  split_and!; [done|by eapply list_elem_of_lookup_2|by exists state, t0, t1].
Defined.

Definition toy_turns : list (option ipc_status * bool) :=
  [(Some (mk_ipc_status RUN FAILURE "[INFO] start"), false); (Some (mk_ipc_status PROGRESS FAILURE "50%"), false);
   (Some (mk_ipc_status RUN FAILURE ""), false); (Some (mk_ipc_status IDLE SUCCESS "done"), true);
   (Some (mk_ipc_status IDLE SUCCESS ""), false)].

Definition toy_thread : bool * (server_hawkbit_t * toy_world) * list (event json) :=
  process_notification_thread (toy_backend (toy_net toy_file 0 None true) STATE_OK 0) 7 toy_turns
    (toy_hawkbit [], mk_toy_world [] [CHANNEL_OK]).

Lemma log_delivered_witness : exists t', toy_thread.2 = EvOpen (Some CHANNEL_OK) :: t' /\ log_sent (toy_hawkbit []) 7 false toy_turns [] t'.
Proof.
  assert (H1 : toy_thread.1.1 = true) by (vm_compute; reflexivity).
  assert (H2 : head toy_thread.2 = Some (EvOpen (Some CHANNEL_OK))) by (vm_compute; reflexivity).
  destruct toy_thread as [[r s'] t] eqn:E. cbn in H1, H2. subst r.
  destruct (log_delivered (toy_backend (toy_net toy_file 0 None true) STATE_OK 0) 7 toy_turns _ _ _ (fun w => eq_refl) E)
    as [(r & Hr & ->)|H]; [cbn in H2; congruence|exact H].
Defined.

(** A message that adds an attribute while the attributes are sent: the text is longer than the buffer. *)
Theorem config_race_overflows :
  let attr := JObj [("name", JStr "serial number of the board"); ("value", JStr "0123456789")] in
  (server_send_target_data toy_json (toy_backend (toy_net toy_file 0 None true) STATE_OK 0) [Some (JObj [("identify", JArr [attr])])]
    (toy_hawkbit [mk_dict_entry "hw" ["1"]], mk_toy_world [] [CHANNEL_OK])).1.1 = None.
Proof. vm_compute. done. Qed.

(** A negative polling interval is taken as a large one, and then not waited for at all, because the loop uses a signed number. *)
Theorem negative_polling_busy :
  let s := (server_configuration_ipc toy_json (toy_backend (toy_net toy_file 0 None true) STATE_OK 0) (Some (JObj [("polling", JInt (-1))]))
    (toy_hawkbit [], mk_toy_world [] [])).1.2 in
  hb_polling_interval s.1 = 2 ^ 32 - 1 /\ i32 (hb_polling_interval s.1) = -1.
Proof. vm_compute. done. Qed.

(** An activation whose state cannot be stored is acknowledged: the error of [save_state] is not [SERVER_EERR]. *)
Theorem failed_save_acknowledged :
  let msg := JObj [("id", JInt 7); ("status", JStr "2"); ("finished", JStr "success"); ("execution", JStr "closed"); ("details", JArr [])] in
  let r := server_ipc toy_json (toy_backend (toy_net toy_file 0 None true) STATE_OK (-1)) 0 (fun _ => "") (CmdActivation (Some msg))
    (toy_hawkbit [], mk_toy_world (deploys "forced" []) [CHANNEL_OK]) in
  ha_ack r.1.1 = true /\ last r.2 = Some (EvSaveState STATE_OK (-1)).
Proof. vm_compute. done. Qed.
