(* ===== verification/Artifacts.v ===== *)
(** * What an update from the server downloads and installs: [server_install_update] of [suricatta/server_hawkbit.c]

    The log of an installation is taken apart: only URLs of the deployment are downloaded, after the server has accepted the
    announcement, and the update is confirmed to the core only when every artifact of the chunks that were processed was
    downloaded, had the hash that the server tells, and was installed. *)
From S2P Require Import Prelude CString Util Dict State Crypto Cpio Copyfile Parselib Stream Channel Backend Hawkbit.

Section Artifacts.
Context {J W C : Type} (jc : json_c J) (b : backend J W) (hl : hash_lib C) (junk : Z) (ssl : bool) (retries : Z).
Abbreviation M := (op server_hawkbit_t J W).
Abbreviation path := (json_get_path_key jc).
Abbreviation text := (json_object_get_string jc).

(** The URL of an artifact in the description of a deployment. *)
Definition item_url (item : option J) : string :=
  let url_https := path item ["_links"; "download"; "href"] in
  let url_http := path item ["_links"; "download-http"; "href"] in
  default "" (text (match url_https with None => url_http | _ => url_https end)).

(** Nothing but talk, except that the core may be told URLs for its handlers and the identifier of the action. *)
Definition preparing (e : event J) : Prop := match e with EvDwlUrl _ _ _ | EvVarsSet _ _ _ | EvOpen _ => True | _ => talk e end.

(** Downloads of these URLs only; the state on the device is not changed. *)
Definition offers (urls : list string) (e : event J) : Prop :=
  match e with
  | EvDownload url _ _ _ => url ∈ urls
  | EvDownloaded _ _ _ | EvWait _ | EvThread _ => True
  | _ => preparing e
  end.

Lemma talk_preparing e : talk e -> preparing e.
Proof. by destruct e. Qed.

Lemma preparing_offers urls e : preparing e -> offers urls e.
Proof. by destruct e. Qed.

Lemma emits_preparing {A} (m : M A) : emits talk m -> emits preparing m.
Proof. apply emits_weaken, talk_preparing. Qed.

Lemma emits_offers {A} urls (m : M A) : emits preparing m -> emits (offers urls) m.
Proof. apply emits_weaken, preparing_offers. Qed.

#[local] Hint Extern 2 (emits preparing _) => apply emits_preparing : emits.

Ltac emits_all := repeat first [solve [eauto 3 with emits] | apply emits_offers; solve [eauto 3 with emits] | emits_step].

Lemma check_during_dwl_preparing block : emits preparing (server_check_during_dwl jc b junk block : M _).
Proof. unfold server_check_during_dwl, time, channel_open. emits_all. Qed.

Lemma apply_rule_preparing a : emits preparing (apply_rule b a : M _).
Proof. unfold apply_rule, dwl_url. emits_tac. Qed.

Lemma extract_artifacts_preparing items : emits preparing (extract_artifacts jc b ssl items : M _).
Proof.
  induction items as [|item items IH]; cbn [extract_artifacts]; [emits_tac|].
  pose proof apply_rule_preparing. emits_all.
Qed.

Lemma add_detail_errors_quiet P l : emits P (add_detail_errors b l : M _).
Proof.
  induction l as [|d l IH]; cbn [add_detail_errors]; [emits_tac|]. unfold add_detail_error, add_error. emits_tac.
Qed.

(** ** The artifacts of a chunk *)

(** Files for delta updates, and files without a name, are not downloaded here. *)
Definition skipped (filename : string) : bool :=
  match last (string_split filename ".") with Some ext => String.eqb ext "zck" | None => true end.

Definition artifact_of (item : option J) (a : artifact_t) : Prop :=
  at_filename a = default "" (text (path item ["filename"])) /\ at_url a = item_url item /\
  at_sha1hash a = default "" (text (path item ["hashes"; "sha1"])) /\ at_skip a = skipped (at_filename a).

Lemma apply_rule_runs a s a' s' t :
  at_skip a = false -> apply_rule b a s = (a', s', t) ->
  at_filename a' = at_filename a /\ at_url a' = at_url a /\ at_sha1hash a' = at_sha1hash a /\ at_skip a' = skipped (at_filename a').
Proof.
  unfold apply_rule, dwl_url, skipped. intros Hs E. destruct (last _) as [ext|] eqn:El.
  - destruct (String.eqb_spec ext "swu") as [->|Hn]; [run_inv E; by rewrite El, Hs|].
    destruct (String.eqb ext "zck") eqn:Ez; run_inv E; cbn [at_filename at_url at_sha1hash at_skip]; by rewrite El, Ez.
  - run_inv E; cbn [at_filename at_url at_sha1hash at_skip]. by rewrite El.
Qed.

Lemma extract_artifacts_runs items : forall s l s' t, extract_artifacts jc b ssl items s = (Some l, s', t) -> Forall2 artifact_of items l.
Proof.
  induction items as [|item items IH]; intros s l s' t E; cbn [extract_artifacts] in E; [by run_inv E|].
  destruct (negb ssl && _); [run_inv E|].
  destruct (match path item ["_links"; "download"; "href"] with Some _ => _ | None => _ end) as [url|] eqn:Eu; [|run_inv E].
  destruct (path item ["filename"]) as [fn|] eqn:Ef; [|run_inv E]. destruct (path item ["hashes"; "sha1"]) as [sha|] eqn:Eh; [|run_inv E].
  destruct (path item ["size"]) as [size|]; [|run_inv E].
  apply bind_inv in E as (a & s1 & t1 & u1 & E1 & E & ->). apply apply_rule_runs in E1 as (H1 & H2 & H3 & H4); [|done].
  apply bind_inv in E as (rest & s2 & t2 & u2 & E2 & E & ->). run_inv E. destruct rest as [rest|]; [|done]. cbn in Er. simplify_eq.
  constructor; [|by eapply IH]. unfold artifact_of, item_url. rewrite Ef, Eh. split_and!; try done. cbn in H2. by rewrite H2, <- Eu.
Qed.

Definition wanted (l : list artifact_t) : list artifact_t := filter (fun a => at_skip a = false) l.

Lemma wait_installer_runs s r s' t : wait_installer b s = (r, s', t) -> t = [EvWait r].
Proof.
  unfold wait_installer, wait_for_complete. intros E. apply bind_inv in E as (a & s1 & t1 & u1 & E1 & E & ->).
  apply ask_inv in E1 as [_ ->]. apply bind_inv in E as (u & s2 & t2 & u2 & E2 & E & ->). run_inv E.
  apply (emits_run (fun _ => False) _ _ _ _ _ (add_detail_errors_quiet _ _)) in E2. by destruct E2.
Qed.

(** The log of an artifact that was downloaded with the right hash and installed. *)
Definition fetched (a : artifact_t) (t : list (event J)) : Prop :=
  exists id info token cached u sent res sha1hash r,
    t = EvThread id :: EvDownload (at_url a) info token cached :: u ++ [EvDownloaded sent res sha1hash; EvWait r] /\
    Forall preparing u /\ map_channel_retcode res = SERVER_OK /\
    (ssl = true -> strncmp sha1hash (at_sha1hash a) SWUPDATE_SHA_DIGEST_LENGTH = 0) /\ r <> FAILURE.

Lemma process_artifact_runs id ua part version name a s counted s' t :
  process_artifact jc b hl junk ssl retries id ua part version name a s = (SERVER_OK, counted, s', t) -> fetched a t.
Proof.
  unfold process_artifact. intros E. apply bind_inv in E as (info & s1 & t1 & u1 & E1 & E & ->).
  apply asprintf_inv in E1 as (_ & -> & [[-> _]|[-> _]]); [run_inv E|].
  apply bind_inv in E as (now & s2 & t2 & u2 & E2 & E & ->). apply ask_inv in E2 as [_ ->].
  apply bind_inv in E as ([] & s3 & t3 & u3 & E3 & E & ->). apply modify_inv in E3 as [-> ->].
  apply bind_inv in E as ([] & s4 & t4 & u4 & E4 & E & ->). apply tell_inv in E4 as [-> ->].
  apply bind_inv in E as (h & s5 & t5 & u5 & E5 & E & ->). apply get_inv in E5 as (-> & -> & ->).
  apply bind_inv in E as ([res sha1] & s6 & t6 & u6 & E6 & E & ->).
  apply (get_file_runs preparing) in E6 as (u & sent & -> & Hu); [|apply check_during_dwl_preparing].
  destruct (server_ok (map_channel_retcode res)) eqn:Eok; cbn [negb] in E.
  2:{ apply bind_inv in E as (r & s7 & t7 & u7 & E7 & E & ->). run_inv E. match goal with Ho : SERVER_OK = _ |- _ => by rewrite <- Ho in Eok end. }
  destruct (ssl && _) eqn:Essl.
  { apply bind_inv in E as (r & s7 & t7 & u7 & E7 & E & ->). run_inv E. }
  apply bind_inv in E as (r & s7 & t7 & u7 & E7 & E & ->). apply wait_installer_runs in E7 as ->. run_inv E.
  unfold fetched, quiet. eexists id, _, _, _, u, sent, res, sha1, r. split_and!; [|done|by apply server_ok_eq| |by intros ->].
  - cbn. by rewrite <- app_assoc.
  - intros ->. cbn in Essl. by apply negb_false_iff, Z.eqb_eq in Essl.
Qed.

Lemma process_artifact_offers urls id ua part version name a :
  at_url a ∈ urls -> emits (offers urls) (process_artifact jc b hl junk ssl retries id ua part version name a : M _).
Proof.
  intros Hu. unfold process_artifact, time, wait_installer, wait_for_complete.
  pose proof (fun P => add_detail_errors_quiet P). emits_tac. apply emits_get_file; [done|done|].
  intros block. apply emits_offers, check_during_dwl_preparing.
Qed.

Lemma process_artifacts_offers urls id ua part version name l : forall r n,
  Forall (fun a => at_url a ∈ urls) l ->
  emits (offers urls) (process_artifacts jc b hl junk ssl retries id ua part version name r n l : M _).
Proof.
  induction l as [|a l IH]; intros r n Hl; cbn [process_artifacts]; [emits_tac|]. apply Forall_cons in Hl as [Ha Hl].
  pose proof (process_artifact_offers urls id ua part version name a Ha). emits_tac.
Qed.

(** The loop succeeds only if all artifacts that are wanted were installed. *)
Lemma process_artifacts_runs id ua part version name l : forall r n s n' s' t,
  process_artifacts jc b hl junk ssl retries id ua part version name r n l s = (SERVER_OK, n', s', t) ->
  r = SERVER_OK -> exists ls, t = concat ls /\ Forall2 fetched (wanted l) ls /\ (n' <= n + length (wanted l))%nat.
Proof.
  induction l as [|a l IH]; intros r n s n' s' t E Hr; cbn [process_artifacts] in E.
  { run_inv E. exists []. cbn. split_and!; [done|constructor|lia]. }
  unfold wanted in *. destruct (at_skip a) eqn:Es.
  { rewrite filter_cons_False by congruence. by apply (IH _ _ _ _ _ _ E). }
  rewrite filter_cons_True by done. apply bind_inv in E as ([r1 counted] & s1 & t1 & u1 & E1 & E & ->).
  destruct (server_ok r1) eqn:Eok; cbn [negb] in E.
  - apply server_ok_eq in Eok as ->. apply process_artifact_runs in E1. apply IH in E as (ls & -> & Hls & Hn); [|done].
    exists (t1 :: ls). split_and!; [done|by constructor|]. cbn. destruct counted; lia.
  - by run_inv E.
Qed.

(** The log of a chunk of which all artifacts that are wanted were installed, and there was one at least. *)
Definition all_installed (artifacts : option J) (t : list (event J)) : Prop :=
  exists l t0 ls, Forall2 artifact_of (json_array jc artifacts) l /\ t = t0 ++ concat ls /\ Forall preparing t0 /\
    Forall2 fetched (wanted l) ls /\ wanted l <> [].

Lemma process_update_runs id j ua part version name s s' t :
  server_process_update_artifact jc b hl junk ssl retries id j ua part version name s = (SERVER_OK, s', t) -> all_installed j t.
Proof.
  unfold server_process_update_artifact. intros E.
  apply bind_inv in E as ([] & s1 & t1 & u1 & E1 & E & ->). apply modify_inv in E1 as [-> ->].
  apply bind_inv in E as (str & s2 & t2 & u2 & E2 & E & ->). apply asprintf_inv in E2 as (_ & -> & [[-> _]|[-> _]]); [run_inv E|].
  apply bind_inv in E as (vs & s3 & t3 & u3 & E3 & E & ->). apply ask_inv in E3 as [_ ->].
  apply bind_inv in E as (ok & s4 & t4 & u4 & E4 & E & ->). apply ask_inv in E4 as [_ ->]. destruct ok; [|run_inv E]. cbn [negb] in E.
  apply bind_inv in E as (arts & s5 & t5 & u5 & E5 & E & ->).
  pose proof (emits_run _ _ _ _ _ _ (extract_artifacts_preparing _) E5) as H5.
  apply bind_inv in E as ([r n] & s6 & t6 & u6 & E6 & E & ->).
  apply bind_inv in E as (r7 & s7 & t7 & u7 & E7 & E & ->).
  apply bind_inv in E as ([] & s8 & t8 & u8 & E8 & E & ->). apply modify_inv in E8 as [-> ->]. run_inv E.
  destruct (Nat.eqb_spec n 0) as [->|Hn].
  { apply bind_inv in E7 as ([] & s9 & t9 & u9 & _ & E7 & _). run_inv E7. }
  run_inv E7. destruct arts as [l|]; [|by run_inv E6]. apply extract_artifacts_runs in E5.
  apply process_artifacts_runs in E6 as (ls & -> & Hls & Hle); [|done]. exists l, (EvVarsSet "action_id" (Some (print_d id)) vs :: t5), ls.
  split_and!; [done| |by constructor|done|]. { cbn. by rewrite !app_nil_r. }
  intros Hw. rewrite Hw in Hle. cbn in Hle. lia.
Qed.

Definition chunk_urls (chunk : option J) : list string := item_url <$> json_array jc (path chunk ["artifacts"]).

Lemma process_update_offers urls id j ua part version name :
  (forall item, item ∈ json_array jc j -> item_url item ∈ urls) ->
  emits (offers urls) (server_process_update_artifact jc b hl junk ssl retries id j ua part version name : M _).
Proof.
  intros Hurls. unfold server_process_update_artifact, vars_set, alloc, json_extract_artifact.
  apply emits_bind; [emits_tac|intros []]. apply emits_bind; [emits_tac|intros [str|]; [|emits_tac]].
  apply emits_bind; [emits_tac|intros vs]. apply emits_bind; [emits_tac|intros ok; destruct ok; cbn [negb]; [|emits_tac]].
  apply emits_bind_run; [apply emits_offers, extract_artifacts_preparing|]. intros s arts s' t E.
  apply emits_bind; [|intros [r n]; emits_all]. destruct arts as [l|]; [|emits_tac]. apply process_artifacts_offers.
  apply extract_artifacts_runs in E. apply Forall_forall. intros a [i Ha]%list_elem_of_lookup.
  destruct (Forall2_lookup_r _ _ _ _ _ E Ha) as (item & Hi & _ & -> & _). apply Hurls. by eapply list_elem_of_lookup_2.
Qed.

(** ** The chunks of a deployment *)

Lemma install_chunks_offers urls id max : forall chunks count r,
  (forall chunk, chunk ∈ chunks -> chunk_urls chunk ⊆ urls) ->
  emits (offers urls) (install_chunks jc b hl junk ssl retries id max count r chunks : M _).
Proof.
  induction chunks as [|chunk chunks IH]; intros count r Hu; cbn [install_chunks]; [emits_tac|].
  assert (Hp : forall id ua part version name,
    emits (offers urls) (server_process_update_artifact jc b hl junk ssl retries id (path chunk ["artifacts"]) ua part version name : M _)).
  { intros. apply process_update_offers. intros item Hi. apply (Hu chunk); [by left|]. by apply list_elem_of_fmap_2. }
  specialize (IH (count + 1)). pose proof (fun r => IH r (fun c Hc => Hu c (list_elem_of_further _ _ _ Hc))) as IH'.
  emits_all.
Qed.

(** An accepted report. *)
Definition accepted (e : event J) : Prop :=
  exists url body res, e = EvPut CHANNEL_POST url body res /\ map_channel_retcode res = SERVER_OK.

Definition refused (e : event J) : Prop :=
  exists url body res, e = EvPut CHANNEL_POST url body res /\ map_channel_retcode res <> SERVER_OK.

Lemma reply_accepted id max cur fin ex l s r s' t :
  server_send_deployment_reply b id max cur fin ex l s = (r, s', t) ->
  if server_ok r then exists e, t = [e] /\ accepted e else out_of_memory b \/ exists e, t = [e] /\ refused e.
Proof.
  intros [_ [(-> & -> & Hm)|(res & e & -> & (fdate & detail & _ & ->) & ->)]]%deployment_reply_runs; [by left|].
  destruct (server_ok _) eqn:E.
  - apply server_ok_eq in E. eexists. split; [done|]. by eexists _, _, _.
  - right. eexists. split; [done|]. eexists _, _, _. split; [done|]. intros H. by rewrite H in E.
Qed.

(** Nothing is downloaded before a report was accepted. *)
Lemma install_chunks_announced id max count r chunks s r' s' t :
  install_chunks jc b hl junk ssl retries id max count r chunks s = (r', s', t) ->
  Forall talk t \/ exists e t', t = e :: t' /\ accepted e.
Proof.
  destruct chunks as [|chunk chunks]; cbn [install_chunks]; intros E; [run_inv E; by left|].
  assert (Hm : forall (x : server_op_res_t * bool) msg, (add_error b msg ;; ret x) s = (r', s', t) -> Forall talk t).
  { intros x msg Ea. refine (emits_run _ _ _ _ _ _ _ Ea). emits_tac. }
  destruct (path chunk ["part"]), (path chunk ["version"]), (path chunk ["name"]); try (left; by eapply Hm).
  destruct (path chunk ["artifacts"]) as [arts|]; [|left; by eapply Hm].
  apply bind_inv in E as (r1 & s1 & t1 & u1 & E1 & E & ->).
  pose proof (emits_run _ _ _ _ _ _ (deployment_reply_talk b _ _ _ _ _ _) E1) as Ht. apply reply_accepted in E1.
  destruct (server_ok r1); cbn [negb] in E.
  - destruct E1 as (e & -> & Hacc). right. by exists e, u1.
  - left. run_inv E. by rewrite app_nil_r.
Qed.

Definition inside (tc t : list (event J)) : Prop := exists u1 u2, t = u1 ++ tc ++ u2.

Lemma inside_app tc t1 t2 : inside tc t1 \/ inside tc t2 -> inside tc (t1 ++ t2).
Proof.
  intros [(u1 & u2 & ->)|(u1 & u2 & ->)].
  - exists u1, (u2 ++ t2). by rewrite <- !app_assoc.
  - exists (t1 ++ u1), u2. by rewrite <- !app_assoc.
Qed.

Lemma inside_refl t : inside t t.
Proof. exists [], []. by rewrite app_nil_r. Qed.

(** The first [k] chunks are installed. *)
Definition chunks_installed (k : nat) (chunks : list (option J)) (t : list (event J)) : Prop :=
  Forall (fun chunk => exists tc, inside tc t /\ all_installed (path chunk ["artifacts"]) tc) (take k chunks).

(** Success: at least one chunk is installed, and all of them unless a report failed. *)
Lemma install_chunks_runs id max : forall chunks count r s complete s' t,
  install_chunks jc b hl junk ssl retries id max count r chunks s = (SERVER_OK, complete, s', t) ->
  exists k, (k <= length chunks)%nat /\ chunks_installed k chunks t /\ (k = 0%nat -> r = SERVER_OK) /\
    (if complete then k = length chunks
     else (k < length chunks)%nat /\ (out_of_memory b \/ exists u e, t = u ++ [e] /\ refused e)).
Proof.
  induction chunks as [|chunk chunks IH]; intros count r s complete s' t E; cbn [install_chunks] in E.
  { run_inv E. exists 0%nat. split_and!; [done|constructor|done|done]. }
  assert (Hm : forall msg, ~ (add_error b msg ;; ret (SERVER_EBADMSG, false)) s = (SERVER_OK, complete, s', t)).
  { intros msg Ea. apply bind_inv in Ea as ([] & s1 & t1 & t2 & _ & Ea & _). run_inv Ea. }
  destruct (path chunk ["part"]), (path chunk ["version"]), (path chunk ["name"]); try (by apply Hm in E).
  destruct (path chunk ["artifacts"]) as [arts|] eqn:Earts; [|by apply Hm in E].
  apply bind_inv in E as (r1 & s1 & t1 & u1 & E1 & E & ->). apply reply_accepted in E1.
  destruct (server_ok r1); cbn [negb] in E.
  2:{ run_inv E. exists 0%nat. split_and!; [lia|constructor|done|cbn; lia|]. rewrite app_nil_r. destruct E1 as [?|(e & -> & ?)]; [by left|].
      right. by exists [], e. }
  apply bind_inv in E as ([] & s2 & t2 & u2 & E2 & E & ->). apply modify_inv in E2 as [-> ->].
  apply bind_inv in E as (h & s3 & t3 & u3 & E3 & E & ->). apply get_inv in E3 as (-> & -> & ->).
  apply bind_inv in E as (r4 & s4 & t4 & u4 & E4 & E & ->).
  apply bind_inv in E as (h' & s5 & t5 & u5 & E5 & E & ->). apply get_inv in E5 as (-> & -> & ->).
  destruct (server_ok r4) eqn:Eok; cbn [negb] in E.
  2:{ apply bind_inv in E as (x & s6 & t6 & u6 & _ & E & _). by run_inv E. }
  apply server_ok_eq in Eok as ->. apply process_update_runs in E4.
  apply bind_inv in E as (r6 & s6 & t6 & u6 & E6 & E & ->). apply IH in E as (k & Hk & Hin & _ & Hend). exists (S k).
  split_and!; [cbn; lia| |done|].
  - unfold chunks_installed in *. cbn [take]. constructor.
    + exists t4. split; [|by rewrite Earts]. cbn. apply inside_app. right. apply inside_app. left. apply inside_refl.
    + eapply Forall_impl; [exact Hin|]. intros c (tc & Htc & Hc). exists tc. split; [|done]. cbn.
      do 3 (apply inside_app; right). done.
  - destruct complete; [cbn; lia|]. destruct Hend as [Hlt Hend]. split; [cbn; lia|]. destruct Hend as [?|(u & e & -> & ?)]; [by left|].
    right. exists (t1 ++ t4 ++ t6 ++ u), e. split; [|done]. cbn. by rewrite <- !app_assoc.
Qed.

(** ** The installation *)

Lemma install_cleanup_runs r s r' s' t :
  install_cleanup b r s = (r', s', t) ->
  if server_ok r then exists x, t = [EvPostUpdate x] /\ r' = match x with Some true => SERVER_OK | _ => SERVER_EERR end else t = [].
Proof.
  unfold install_cleanup, finish_update. intros E. destruct (server_ok r) eqn:Eok; cbn [negb] in E; run_inv E; [|done]. by eexists.
Qed.

Lemma check_action_changed_runs id a s s' t r :
  check_action_changed b id a s = (r, s', t) -> hb_update_action s.1 = None -> hb_update_action s'.1 = a.
Proof.
  unfold check_action_changed, send_notification. intros E Hn. destruct a as [a|]; [|run_inv E; done].
  apply bind_inv in E as (h & s1 & t1 & u1 & E1 & E & ->). apply get_inv in E1 as (-> & -> & ->).
  rewrite Hn, bool_decide_eq_false_2 in E by done. run_inv E; cbn in *; by rewrite Es.
Qed.

Abbreviation update_of := (json_get_deployment_update_action jc).
Abbreviation chunks_of reply := (json_array jc (path reply ["deployment"; "chunks"])).

(** The log behind the replies of the server: nothing but talk, or the chunks are processed. *)
Lemma install_deployment_runs r reply id s r' s' t :
  r <> SERVER_OK -> install_deployment jc b hl junk ssl retries r reply id s = (r', s', t) ->
  Forall talk t \/
  update_of reply <> Some action_skip /\
  exists t1 s1 r1 complete s2 t2 t3 t4, Forall talk t1 /\ same_device s.1 s1.1 /\
    install_chunks jc b hl junk ssl retries id (Z.of_nat (json_object_array_length jc (path reply ["deployment"; "chunks"]))) 0 r
      (chunks_of reply) s1 = (r1, complete, s2, t2) /\
    t = t1 ++ t2 ++ t3 ++ t4 /\ Forall talk t3 /\ (complete = false -> t3 = []) /\
    (if server_ok r1 then exists x, t4 = [EvPostUpdate x] /\ r' = match x with Some true => SERVER_OK | _ => SERVER_EERR end else t4 = []).
Proof.
  intros Hr E. unfold install_deployment in E. apply bind_inv in E as ([] & s1 & t1 & u1 & E1 & E & ->). apply modify_inv in E1 as [-> ->].
  apply bind_inv in E as ([] & s2 & t2 & u2 & E2 & E & ->).
  pose proof (emits_run _ _ _ _ _ _ (check_action_changed_talk b id _) E2) as Ht2.
  pose proof (keeps_run _ _ _ _ _ _ (check_action_changed_device b id _) E2) as Hd2.
  apply check_action_changed_runs in E2; [|done].
  apply bind_inv in E as (h & s3 & t3 & u3 & E3 & E & ->). apply get_inv in E3 as (-> & -> & ->). rewrite E2 in E.
  assert (Hclean : forall q s0 t0, q <> SERVER_OK -> install_cleanup b q s0 = (r', s', t0) -> t0 = []).
  { intros q s0 t0 Hq Hc%install_cleanup_runs. destruct (server_ok q) eqn:Eq; [by apply server_ok_eq in Eq|done]. }
  destruct (bool_decide (update_of reply = Some action_skip)) eqn:Eskip.
  { left. apply bind_inv in E as (r4 & s4 & t4 & u4 & E4 & E & ->). apply Hclean in E as ->; [|done].
    pose proof (emits_run _ _ _ _ _ _ (deployment_reply_talk b _ _ _ _ _ _) E4). cbn. rewrite app_nil_r. by apply Forall_app. }
  apply bool_decide_eq_false in Eskip. destruct (path reply ["deployment"; "chunks"]) as [chunks|] eqn:Ech.
  2:{ left. apply bind_inv in E as ([] & s4 & t4 & u4 & E4 & E & ->). apply Hclean in E as ->; [|done].
      pose proof (emits_run _ _ _ _ _ _ (add_error_talk b _) E4). cbn. rewrite app_nil_r. by apply Forall_app. }
  right. split; [done|]. apply bind_inv in E as ([r4 complete] & s4 & t4 & u4 & E4 & E & ->).
  apply bind_inv in E as ([] & s5 & t5 & u5 & E5 & E & ->). apply install_cleanup_runs in E.
  exists t2, s2, r4, complete, s4, t4, t5, u5. split_and!; try done. destruct complete.
  - apply bind_inv in E5 as (r6 & s6 & t6 & u6 & E6 & E5 & ->). run_inv E5. rewrite app_nil_r.
    exact (emits_run _ _ _ _ _ _ (deployment_reply_talk b _ _ _ _ _ _) E6).
  - by run_inv E5.
  - intros ->. by run_inv E5.
Qed.

(** The log of an installation starts with the replies about the device and about the action, unless it is only talk. *)
Lemma install_update_runs s r s' t :
  server_install_update jc b hl junk ssl retries s = (r, s', t) ->
  Forall talk t \/
  exists res info url res2 reply q s1 u, t = [EvGet (device_url s.1) res info; EvGet url res2 reply] ++ u /\
    map_channel_retcode res = SERVER_OK /\ map_channel_retcode res2 = SERVER_OK /\ action_told jc info q url /\
    same_device s.1 s1.1 /\
    install_deployment jc b hl junk ssl retries q reply (json_object_get_int jc (path reply ["id"])) s1 = (r, s', u).
Proof.
  unfold server_install_update. intros E. apply bind_inv in E as ([[q reply] id] & s1 & t1 & u & E1 & E & ->).
  pose proof (emits_run _ _ _ _ _ _ (deployment_info_talk jc b junk) E1) as Ht1.
  pose proof (keeps_run _ _ _ _ _ _ (deployment_info_device jc b junk) E1) as Hd1. apply deployment_info_runs in E1.
  destruct (pending q) eqn:Ep.
  - right. destruct E1 as (res & info & url & res2 & -> & Htold & ? & ? & ? & ->).
    exists res, info, url, res2, reply, q, s1, u. split_and!; try done. by destruct q.
  - left. assert (Hq : install_cleanup b q s1 = (r, s', u) /\ q <> SERVER_OK).
    { destruct E1 as [_ [[? ?]|[-> _]]]; [|done]. by destruct q. }
    destruct Hq as [Hc%install_cleanup_runs Hq]. destruct (server_ok q) eqn:Eq; [by apply server_ok_eq in Eq|]. subst u. by rewrite app_nil_r.
Qed.

(** The URLs of a deployment. *)
Definition deployment_urls (chunks : list (option J)) : list string := chunks ≫= chunk_urls.

Lemma chunks_offered id max count r chunks s r' s' t :
  install_chunks jc b hl junk ssl retries id max count r chunks s = (r', s', t) -> Forall (offers (deployment_urls chunks)) t.
Proof.
  apply emits_run, install_chunks_offers. intros c Hc url Hu. apply list_elem_of_bind. by exists c.
Qed.

(** C20: the core is told to finish an update only if it was installed: the server has a deployment that is not to be skipped, and
    for every chunk that was processed, one at least, each artifact that is meant for the installer was downloaded from the
    URL of the deployment, and the installer did not report a failure. With SSL, and only then, the first 20 of the 40 digits of
    the hash are those that the server tells; the others are not compared, see [half_hash_compared]. All chunks of the deployment
    are processed, unless a report to the server was refused or memory was lacking. *)
Theorem update_confirmed (s s' : server_hawkbit_t * W) (r : server_op_res_t) (t : list (event J)) (x : option bool) :
  server_install_update jc b hl junk ssl retries s = (r, s', t) -> EvPostUpdate x ∈ t ->
  exists res info url res2 reply u k, t = [EvGet (device_url s.1) res info; EvGet url res2 reply] ++ u /\
    map_channel_retcode res = SERVER_OK /\ map_channel_retcode res2 = SERVER_OK /\ update_of reply <> Some action_skip /\
    (1 <= k <= length (chunks_of reply))%nat /\ chunks_installed k (chunks_of reply) u /\
    (k = length (chunks_of reply) \/ out_of_memory b \/ exists v e, u = v ++ [e; EvPostUpdate x] /\ refused e) /\
    r = match x with Some true => SERVER_OK | _ => SERVER_EERR end.
Proof.
  intros E Hx. assert (Htalk : forall l : list (event J), Forall talk l -> ~ EvPostUpdate x ∈ l).
  { intros l Hl Hin. by apply (proj1 (Forall_forall _ _) Hl) in Hin. }
  apply install_update_runs in E as [E|(res & info & url & res2 & reply & q & s1 & u & -> & ? & ? & Htold & _ & E)]; [by apply Htalk in Hx|].
  assert (Hxu : EvPostUpdate x ∈ u) by (do 2 (apply elem_of_cons in Hx as [Hx|Hx]; [done|]); done).
  apply install_deployment_runs in E as [E|(Hskip & t1 & s2 & r1 & complete & s3 & t2 & t3 & t4 & Ht1 & _ & E & -> & Ht3 & Hcut & Ht4)];
    [by apply Htalk in Hxu| |by intros ->].
  assert (Hx2 : ~ EvPostUpdate x ∈ t2).
  { intros Hin. by apply (proj1 (Forall_forall _ _) (chunks_offered _ _ _ _ _ _ _ _ _ E)) in Hin. }
  apply elem_of_app in Hxu as [Hin|[Hin|[Hin|Hin]%elem_of_app]%elem_of_app]; [by apply Htalk in Hin|done|by apply Htalk in Hin|].
  destruct (server_ok r1) eqn:Eok; [|subst t4; by apply not_elem_of_nil in Hin]. destruct Ht4 as (y & -> & ->). apply list_elem_of_singleton in Hin as [= ->].
  apply server_ok_eq in Eok as ->. apply install_chunks_runs in E as (k & Hk & Hall & Hk0 & Hend).
  exists res, info, url, res2, reply, (t1 ++ t2 ++ t3 ++ [EvPostUpdate y]), k. split_and!; try done.
  - destruct k; [|lia]. rewrite (Hk0 eq_refl) in Htold. destruct Htold.
  - eapply Forall_impl; [exact Hall|]. intros c (tc & Htc & Hc). exists tc. split; [|done]. apply inside_app. right. apply inside_app. by left.
  - destruct complete; [by left|]. destruct Hend as [_ [?|(v & e & -> & ?)]]; [by right; left|]. right. right.
    exists (t1 ++ v), e. split; [|done]. rewrite (Hcut eq_refl). by rewrite <- !app_assoc.
Qed.
End Artifacts.

(** ** Examples *)

Abbreviation toy_install ssl chunks puts :=
  (server_install_update toy_json (toy_backend (toy_net toy_file 1 None true) STATE_OK 0) toy_hash_lib (-5) ssl 3
    (toy_hawkbit [], mk_toy_world (deploys "forced" chunks) puts)).

Definition downloads {J} (t : list (event J)) : list string :=
  omap (fun e => match e with EvDownload url _ _ _ => Some url | _ => None end) t.

Definition toy_artifact : json := artifact_json "image.swu" (sha1_text (toy_sha toy_file)) "https://server/image.swu".

Abbreviation good_update := (toy_install true [chunk_json [toy_artifact]] (replicate 9 CHANNEL_OK)).

Lemma update_confirmed_witness : good_update.1.1 = SERVER_OK /\ EvPostUpdate (Some true) ∈ good_update.2 /\
  exists reply u, chunks_installed toy_json true 1 (json_array toy_json (json_get_path_key toy_json reply ["deployment"; "chunks"])) u.
Proof.
  assert (H1 : good_update.1.1 = SERVER_OK) by (vm_compute; reflexivity).
  assert (H2 : last good_update.2 = Some (EvPostUpdate (Some true))) by (vm_compute; reflexivity).
  assert (H3 : good_update.2 !! 1%nat = Some (EvGet "https://server/d/7" CHANNEL_OK (deployment_json "forced" [chunk_json [toy_artifact]])))
    by (vm_compute; reflexivity).
  destruct good_update as [[r s'] t] eqn:E. cbn [fst snd] in H1, H2, H3. subst r.
  assert (Hin : EvPostUpdate (Some true) ∈ t) by (apply last_Some in H2 as [l ->]; apply elem_of_app; right; by left).
  destruct (update_confirmed toy_json (toy_backend (toy_net toy_file 1 None true) STATE_OK 0) toy_hash_lib (-5) true 3 _ _ _ _ _ E Hin)
    as (res & info & url & res2 & reply & u & k & Ht & _ & _ & _ & Hk & Hall & _ & _).
  split_and!; [done|done|]. exists reply, u. rewrite Ht in H3. cbn in H3. injection H3 as -> -> ->. cbn in Hk.
  replace k with 1%nat in Hall by lia. exact Hall.
Defined.

(** The announcement of the second chunk is refused: its artifact is not downloaded, and yet the update is confirmed and succeeds. *)
Theorem refused_report_confirms :
  let chunk2 := chunk_json [artifact_json "second.swu" (sha1_text (toy_sha toy_file)) "https://server/second.swu"] in
  let r := toy_install true [chunk_json [toy_artifact]; chunk2] [CHANNEL_OK; CHANNEL_OK; CHANNEL_EBADMSG] in
  r.1.1 = SERVER_OK /\ last r.2 = Some (EvPostUpdate (Some true)) /\
  downloads r.2 = ["https://server/image.swu"].
Proof. vm_compute. done. Qed.

(** A file that is not an update is rejected by a rule whose result is not used: it is downloaded into the installer. *)
Theorem other_file_downloaded :
  let r := toy_install true [chunk_json [artifact_json "readme.txt" (sha1_text (toy_sha toy_file)) "https://server/readme.txt"]]
    (replicate 9 CHANNEL_OK) in
  downloads r.2 = ["https://server/readme.txt"].
Proof. vm_compute. done. Qed.

(** Only 20 of the 40 digits of the hash are compared. *)
Theorem half_hash_compared :
  let wrong := str_take 20 (sha1_text (toy_sha toy_file)) +:+ "ffffffffffffffffffff" in
  let r := toy_install true [chunk_json [artifact_json "image.swu" wrong "https://server/image.swu"]] (replicate 9 CHANNEL_OK) in
  wrong <> sha1_text (toy_sha toy_file) /\ r.1.1 = SERVER_OK.
Proof. vm_compute. done. Qed.
