(* ===== verification/Suricatta.v ===== *)
(** * Polling a server: [suricatta/suricatta.c] with the connector of [Hawkbit]

    The main loop asks the connector for a pending action and installs an update; between the turns it sleeps, and messages
    may wake it up. What it does is read off the log: a download starts only if the server offers a deployment that is not
    cancelled, nothing waits to be tested, and the download was announced; the result of an update is forgotten on the
    device only when the server has taken it. *)
From S2P Require Import Prelude CString Util Dict State Crypto Cpio Copyfile Parselib Stream Channel Backend Hawkbit Artifacts.

(** [server_t]: the operations of a connector, whose state is [H]. [send_target_data] has the messages of the other thread, [ipc] serves
    one. *)
Record server_t (H J W I A : Type) := mk_server {
  has_pending_action : Z -> op H J W (server_op_res_t * Z);
  install_update : op H J W server_op_res_t;
  send_target_data : list (option J) -> op H J W (option server_op_res_t);
  get_polling_interval : H -> Z;
  server_message : I -> op H J W A;
}.
Arguments has_pending_action {H J W I A}. Arguments install_update {H J W I A}. Arguments send_target_data {H J W I A}.
Arguments get_polling_interval {H J W I A}. Arguments server_message {H J W I A}.

(** The static variables. *)
Record suricatta := mk_suricatta {
  su_enable : bool;
  su_trigger : bool;
}.

(** A message to the process: [CMD_ENABLE] is served here, others by the connector. *)
Inductive suricatta_cmd (J I : Type) :=
  | CmdEnable (json_root : option J)
  | CmdServer (msg : I).
Arguments CmdEnable {J I}. Arguments CmdServer {J I}.

Section Suricatta.
Context {H J W I A : Type} (jc : json_c J) (server : server_t H J W I A).
Abbreviation M := (op H J W).

(** The answer ([true]: [ACK]), the variables, and whether the semaphore was posted. *)
Definition suricatta_enable (json_root : option J) (s : suricatta) : bool * suricatta * bool :=
  match json_root with
  | None => (false, s, false)
  | Some _ =>
      match json_get_path_key jc json_root ["enable"] with
      | Some j => (true, mk_suricatta (json_object_get_boolean jc (Some j)) (su_trigger s), true)
      | None =>
          match json_get_path_key jc json_root ["trigger"] with
          | Some j => (true, mk_suricatta (su_enable s) (json_object_get_boolean jc (Some j)), true)
          | None => (true, s, false)
          end
      end
  end.

(** The answer of the connector or of this process. *)
Definition suricatta_ipc (cmd : suricatta_cmd J I) (s : suricatta) : M (suricatta * (A + bool)) :=
  match cmd with
  | CmdEnable j => let '(ack, s, _) := suricatta_enable j s in ret (s, inr ack)
  | CmdServer msg => a <- server_message server msg ;; ret (s, inl a)
  end.

Fixpoint serve_all (cmds : list (suricatta_cmd J I)) (s : suricatta) : M suricatta :=
  match cmds with
  | [] => ret s
  | cmd :: cmds => r <- suricatta_ipc cmd s ;; serve_all cmds r.1
  end.

(** A sleep ends with the seconds that remain: [posted] is the time after which the semaphore was posted, [None] a timeout or an
    interruption. *)
Definition suricatta_wait (seconds : Z) (enable_entry : bool) (posted : option Z) (s : suricatta) : Z :=
  match posted with
  | None => 0
  | Some elapsed => if su_trigger s || (su_enable s && negb enable_entry) then 0 else seconds - elapsed
  end.

(** The inner [for] loop. Every sleep has the messages that are served meanwhile; behind the last one it ends by timeout. *)
Fixpoint wait_turns (wakes : list (list (suricatta_cmd J I) * option Z)) (wait_seconds : Z) (s : suricatta) : M suricatta :=
  if wait_seconds <=? 0 then ret s
  else
    match wakes with
    | [] => ret s
    | (cmds, posted) :: wakes =>
        s' <- serve_all cmds s ;;
        let wait_seconds := suricatta_wait wait_seconds (su_enable s) posted s' in
        h <- get ;;
        wait_turns wakes (Z.min wait_seconds (i32 (get_polling_interval server h))) s'
    end.

(** One turn of the main loop before it sleeps; [between] are the messages of the other thread while attributes are sent. *)
Definition poll_turn (between : list (option J)) (action_id : Z) (s : suricatta) : M (suricatta * Z) :=
  if negb (su_enable s || su_trigger s) then ret (s, action_id)
  else
    r <- has_pending_action server action_id ;;
    let '(result, action_id) := r in
    match result with
    | SERVER_UPDATE_AVAILABLE => install_update server ;; ret (mk_suricatta (su_enable s) false, action_id)
    | SERVER_ID_REQUESTED => send_target_data server between ;; ret (mk_suricatta (su_enable s) true, action_id)
    | _ => ret (mk_suricatta (su_enable s) false, action_id)
    end.

(** The main loop, for the turns that are given. *)
Fixpoint start_suricatta (turns : list (list (option J) * list (list (suricatta_cmd J I) * option Z))) (action_id : Z) (s : suricatta)
    : M (suricatta * Z) :=
  match turns with
  | [] => ret (s, action_id)
  | (between, wakes) :: turns =>
      r <- poll_turn between action_id s ;;
      let '(s, action_id) := r in
      h <- get ;;
      s <- wait_turns wakes (i32 (get_polling_interval server h)) s ;;
      start_suricatta turns action_id s
  end.
End Suricatta.

(** [server_hawkbit_funcs]. *)
Definition server_hawkbit_funcs {J W C} (jc : json_c J) (b : backend J W) (hl : hash_lib C) (junk : Z) (ssl : bool) (retries : Z)
    (iso8601 : Z -> string) : server_t server_hawkbit_t J W (@hawkbit_cmd J) hawkbit_answer :=
  mk_server _ _ _ _ _ (server_has_pending_action jc b) (server_install_update jc b hl junk ssl retries)
    (server_send_target_data jc b) hb_polling_interval (server_ipc jc b junk iso8601).

(** * Properties *)

Section Safe.
Context {J W C : Type} (jc : json_c J) (b : backend J W) (hl : hash_lib C) (junk : Z) (ssl : bool) (retries : Z).
Context (iso8601 : Z -> string).
Abbreviation M := (op server_hawkbit_t J W).
Abbreviation path := (json_get_path_key jc).
Abbreviation server := (server_hawkbit_funcs jc b hl junk ssl retries iso8601).
Abbreviation update_of := (json_get_deployment_update_action jc).
Abbreviation chunks_of reply := (json_array jc (path reply ["deployment"; "chunks"])).

(** No download. *)
Definition no_download (e : event J) : Prop := match e with EvDownload _ _ _ _ => False | _ => True end.

Lemma talk_no_download (t : list (event J)) : Forall talk t -> Forall no_download t.
Proof. intros Ht. eapply Forall_impl; [exact Ht|]. by intros []. Qed.

(** The server offers a deployment and does not cancel it; [u] is the rest of the log. *)
Definition offered (h : server_hawkbit_t) (reply : option J) (t u : list (event J)) : Prop :=
  exists res info url res2, t = [EvGet (device_url h) res info; EvGet url res2 reply] ++ u /\
    map_channel_retcode res = SERVER_OK /\ map_channel_retcode res2 = SERVER_OK /\ action_told jc info SERVER_UPDATE_AVAILABLE url.

Lemma has_pending_runs id s id' s' t :
  server_has_pending_action jc b id s = (SERVER_UPDATE_AVAILABLE, id', s', t) ->
  same_device s.1 s'.1 /\ hb_update_state s'.1 <> STATE_WAIT /\ hb_has_to_send_configData s'.1 = false /\
  exists reply state, offered s.1 reply t [EvGetState state] /\ state <> STATE_INSTALLED.
Proof.
  unfold server_has_pending_action. intros E. apply bind_inv in E as ([[q reply] id1] & s1 & t1 & u1 & E1 & E & ->).
  pose proof (keeps_run _ _ _ _ _ _ (deployment_info_device jc b id) E1) as Hd1. apply deployment_info_runs in E1.
  destruct (decide (q = SERVER_UPDATE_CANCELED)) as [->|Hc].
  { rewrite (bool_decide_eq_true_2 (SERVER_UPDATE_CANCELED = _)) in E by done. do 3 (apply bind_inv in E as (? & ? & ? & ? & _ & E & _)).
    run_inv E. }
  rewrite (bool_decide_eq_false_2 (q = SERVER_UPDATE_CANCELED)) in E by done.
  apply bind_inv in E as (h & s2 & t2 & u2 & E2 & E & ->). apply get_inv in E2 as (-> & -> & ->).
  destruct (Z.eqb_spec (hb_update_state s1.1) STATE_WAIT) as [|Hw]; [run_inv E|].
  destruct (hb_has_to_send_configData s1.1) eqn:Econf; [run_inv E|].
  destruct (decide (q = SERVER_UPDATE_AVAILABLE)) as [->|Hq].
  - rewrite !bool_decide_eq_true_2 in E by done. apply bind_inv in E as (state & s3 & t3 & u3 & E3 & E & ->).
    apply ask_inv in E3 as [Es ->]. destruct (Z.eqb_spec state STATE_INSTALLED) as [|Hst].
    { apply bind_inv in E as (? & ? & ? & ? & _ & E & _). run_inv E. }
    run_inv E. rewrite Es. split_and!; try done. destruct E1 as (res & info & url & res2 & -> & Htold & ? & ? & _).
    exists reply, state. split; [|done]. by exists res, info, url, res2.
  - rewrite (bool_decide_eq_false_2 (q = SERVER_UPDATE_AVAILABLE)) in E by done. run_inv E.
Qed.

Lemma has_pending_no_download id : emits no_download (server_has_pending_action jc b id : M _).
Proof.
  assert (Hw : forall A (m : M A), emits talk m -> emits no_download m) by (intros A m; apply emits_weaken; by intros []).
  unfold server_has_pending_action, ask_state, store_state. repeat first [solve [eauto 3 with emits] | apply Hw; solve [eauto 3 with emits] | emits_step].
Qed.

Lemma config_text_quiet P first d : forall text, emits P (config_text b first d text : M _).
Proof. revert first. induction d as [|e d IH]; intros first text; cbn [config_text]; emits_tac. Qed.

Lemma set_attributes_quiet P l : emits P (set_attributes jc b l : M _).
Proof. induction l as [|a l IH]; cbn [set_attributes]; [emits_tac|]. unfold alloc. emits_tac. Qed.

Lemma configuration_quiet P j : emits P (server_configuration_ipc jc b j : M _).
Proof.
  pose proof (set_attributes_quiet P). unfold server_configuration_ipc, server_set_additional_device_attributes_ipc. emits_tac.
Qed.

Lemma serve_config_quiet P l : emits P (serve_config jc b l : M _).
Proof. pose proof (configuration_quiet P). induction l as [|m l IH]; cbn [serve_config]; emits_tac. Qed.

Lemma target_data_talk between : emits talk (server_send_target_data jc b between : M _).
Proof.
  pose proof (serve_config_quiet talk). pose proof (config_text_quiet talk).
  unfold server_send_target_data, alloc, date, http_put. emits_tac.
Qed.

(** The installation downloads only what the deployment names, after the server has accepted its announcement. *)
Lemma install_authorised s r s' t url info token cached :
  server_install_update jc b hl junk ssl retries s = (r, s', t) -> EvDownload url info token cached ∈ t ->
  exists res dev action res2 reply q u e v, t = [EvGet (device_url s.1) res dev; EvGet action res2 reply] ++ u ++ e :: v /\
    map_channel_retcode res = SERVER_OK /\ map_channel_retcode res2 = SERVER_OK /\ action_told jc dev q action /\
    update_of reply <> Some action_skip /\ Forall no_download u /\ accepted e /\ url ∈ deployment_urls jc (chunks_of reply).
Proof.
  intros E Hd. assert (Hno : forall l : list (event J), Forall no_download l -> ~ EvDownload url info token cached ∈ l).
  { intros l Hl Hin. by apply (proj1 (Forall_forall _ _) Hl) in Hin. }
  apply install_update_runs in E as [E|(res & dev & action & res2 & reply & q & s1 & u & -> & ? & ? & Htold & _ & E)];
    [by apply Hno in Hd; [|apply talk_no_download]|].
  assert (Hdu : EvDownload url info token cached ∈ u) by (do 2 (apply elem_of_cons in Hd as [Hd|Hd]; [done|]); done).
  apply install_deployment_runs in E as [E|(Hskip & t1 & s2 & r1 & complete & s3 & t2 & t3 & t4 & Ht1 & _ & E & -> & Ht3 & Hcut & Ht4)];
    [by apply Hno in Hdu; [|apply talk_no_download]| |by intros ->].
  assert (Hd2 : EvDownload url info token cached ∈ t2).
  { apply talk_no_download in Ht1, Ht3. assert (Forall no_download t4).
    { destruct (server_ok r1); [destruct Ht4 as (x & -> & _)|subst t4]; by repeat constructor. }
    apply elem_of_app in Hdu as [Hin|[Hin|[Hin|Hin]%elem_of_app]%elem_of_app]; try done; by apply Hno in Hin. }
  pose proof (proj1 (Forall_forall _ _) (chunks_offered _ _ _ _ _ _ _ _ _ _ _ _ _ _ _ E) _ Hd2) as Hurl. cbn in Hurl.
  apply install_chunks_announced in E as [Ht2|(e & t' & -> & Hacc)]; [by apply talk_no_download, Hno in Ht2|].
  exists res, dev, action, res2, reply, q, t1, e, (t' ++ t3 ++ t4). split_and!; try done. by apply talk_no_download.
Qed.

(** C17: in a turn of the main loop an artifact is downloaded only if polling is enabled or triggered, the server offers a deployment
    and does not cancel it, no installed update waits to be tested, the connector does not wait for an external process,
    the attributes of the device have been sent, the deployment that the server then describes is not to be skipped and has an
    artifact with this URL, and the server has accepted the announcement of the download before. *)
Theorem download_authorised (between : list (option J)) (id : Z) (su : suricatta) (s s' : server_hawkbit_t * W) r (t : list (event J))
    (url info : string) (token : bool) (cached : option string) :
  poll_turn server between id su s = (r, s', t) -> EvDownload url info token cached ∈ t ->
  (su_enable su || su_trigger su) = true /\
  exists reply1 state t1 s1 res dev action res2 reply q u e v,
    t = t1 ++ [EvGet (device_url s.1) res dev; EvGet action res2 reply] ++ u ++ e :: v /\
    offered s.1 reply1 t1 [EvGetState state] /\ state <> STATE_INSTALLED /\
    same_device s.1 s1 /\ hb_update_state s1 <> STATE_WAIT /\ hb_has_to_send_configData s1 = false /\
    map_channel_retcode res = SERVER_OK /\ map_channel_retcode res2 = SERVER_OK /\ action_told jc dev q action /\
    update_of reply <> Some action_skip /\ Forall no_download u /\ accepted e /\ url ∈ deployment_urls jc (chunks_of reply).
Proof.
  unfold poll_turn. intros E Hd. destruct (su_enable su || su_trigger su); [|run_inv E; by apply not_elem_of_nil in Hd]. split; [done|].
  apply bind_inv in E as ([q1 id1] & s1 & t1 & u1 & E1 & E & ->). cbn in E1.
  pose proof (emits_run _ _ _ _ _ _ (has_pending_no_download id) E1) as Hn1.
  apply elem_of_app in Hd as [Hd|Hd]; [by apply (proj1 (Forall_forall _ _) Hn1) in Hd|].
  destruct (decide (q1 = SERVER_UPDATE_AVAILABLE)) as [->|Hq].
  - apply has_pending_runs in E1 as (Hdev & Hw & Hc & reply1 & state & Hoff & Hst).
    apply bind_inv in E as (r2 & s2 & t2 & u2 & E2 & E & ->). run_inv E. rewrite app_nil_r in *.
    eapply install_authorised in E2 as (res & dev & action & res2 & reply & q & u & e & v & -> & ?); [|done].
    exists reply1, state, t1, s1.1, res, dev, action, res2, reply, q, u, e, v.
    destruct (same_device_url _ _ 0 Hdev) as [-> _]. destruct_and!. by split_and!.
  - exfalso. assert (Hn : Forall no_download u1).
    { destruct q1; try done; try (run_inv E; constructor).
      apply bind_inv in E as (r2 & s2 & t2 & u2 & E2 & E & ->). run_inv E. rewrite app_nil_r.
      exact (talk_no_download _ (emits_run _ _ _ _ _ _ (target_data_talk between) E2)). }
    by apply (proj1 (Forall_forall _ _) Hn) in Hd.
Qed.

(** ** Cancelling *)

Definition same_cancel_url (h h' : server_hawkbit_t) : Prop := hb_cancel_url h' = hb_cancel_url h.

Lemma get_action_cancel_url q url id : keeps same_cancel_url (get_action jc b q url id : M _).
Proof.
  assert (PreOrder same_cancel_url) by (split; [done|]; intros h1 h2 h3 E1 E2; unfold same_cancel_url in *; congruence).
  unfold get_action, http_get. repeat match goal with |- keeps _ (modify _) => by apply keeps_modify | _ => keeps_step end.
Qed.

(** The URL at which a cancellation is to be acknowledged is the one the server has told. *)
Lemma cancel_told id s reply id' s' t :
  ~ out_of_memory b -> server_get_deployment_info jc b id s = (SERVER_UPDATE_CANCELED, reply, id', s', t) ->
  exists res info url res2, t = [EvGet (device_url s.1) res info; EvGet url res2 reply] /\
    json_get_data_url jc info "cancelAction" = Some url /\ hb_cancel_url s'.1 = Some url.
Proof.
  intros Hm. unfold server_get_deployment_info. intros (a & s1 & t1 & t2 & E1 & E & ->)%bind_inv. destruct a as [r1 info].
  apply device_info_runs in E1 as [Hp H1]. destruct (server_ok r1) eqn:Eok; cbn [negb] in E; [|run_inv E; done].
  apply server_ok_eq in Eok as ->. destruct H1 as [|(res & -> & Hres)]; [done|].
  destruct (json_get_data_url jc info "cancelAction") as [url|] eqn:Ec.
  - apply bind_inv in E as (c & s2 & t3 & t4 & Ea & E & ->). apply asprintf_inv in Ea as (_ & -> & [[_ Hf]|[-> _]]).
    { destruct Hm. by eexists. }
    apply bind_inv in E as ([] & s3 & t5 & t6 & Em & E & ->). apply modify_inv in Em as (-> & ->).
    pose proof (keeps_run _ _ _ _ _ _ (get_action_cancel_url _ _ _) E) as Hk. unfold same_cancel_url in Hk. cbn in Hk.
    apply get_action_runs in E as (res2 & -> & _). by exists res, info, url, res2.
  - destruct (json_get_data_url jc info "deploymentBase") as [url|]; [|run_inv E].
    apply get_action_runs in E as (res2 & -> & [(? & _)|(Hpl & _)]); done.
Qed.

Lemma cancel_reply_runs id s r s' t url :
  ~ out_of_memory b -> hb_cancel_url s.1 = Some url -> server_send_cancel_reply b id s = (r, s', t) ->
  s'.1 = s.1 /\ exists fdate res text, t = [EvPut CHANNEL_POST (url +:+ "/feedback")
    (cancelation_feedback (hb_stop_id s.1) fdate "success" "closed" "cancellation acknowledged.") res; EvNotify CANCELUPDATE text].
Proof.
  intros Hm Hu. unfold server_send_cancel_reply, date, http_put, send_notification. intros E. run_inv E.
  all: try (destruct Hm; by eexists).
  rewrite Hu. split; [cbn in *; congruence|]. by eexists _, _, _.
Qed.

(** A deployment that the server cancels is acknowledged and nothing is installed: the whole log of such a turn are the replies of the
    server, the acknowledgement at the URL that it has told, a notification, and the reset of the stored state. *)
Theorem cancel_acknowledged (between : list (option J)) (id : Z) (su : suricatta) (s s1 s' : server_hawkbit_t * W) reply id' r t t1 :
  (forall w, (b_alloc b w).1 = true) -> su_enable su || su_trigger su = true ->
  server_get_deployment_info jc b id s = (SERVER_UPDATE_CANCELED, reply, id', s1, t1) ->
  poll_turn server between id su s = (r, s', t) ->
  hb_update_state s'.1 = STATE_OK /\
  exists res info url res2 stop fdate res3 text saved, json_get_data_url jc info "cancelAction" = Some url /\
    t = [EvGet (device_url s.1) res info; EvGet url res2 reply;
         EvPut CHANNEL_POST (url +:+ "/feedback") (cancelation_feedback stop fdate "success" "closed" "cancellation acknowledged.") res3;
         EvNotify CANCELUPDATE text; EvSaveState STATE_OK saved].
Proof.
  intros Hmem Hen Hinfo E. assert (Hm : ~ out_of_memory b) by (intros [w Hw]; by rewrite Hmem in Hw).
  unfold poll_turn in E. rewrite Hen in E. cbn [negb] in E.
  apply bind_inv in E as ([q1 id1] & s2 & t2 & u2 & E2 & E & ->). cbn in E2. unfold server_has_pending_action in E2.
  apply bind_inv in E2 as (a & s3 & t3 & u3 & E3 & E2 & ->). rewrite Hinfo in E3. injection E3 as <- <- <-.
  rewrite (bool_decide_eq_true_2 (SERVER_UPDATE_CANCELED = _)) in E2 by done.
  apply cancel_told in Hinfo as (res & info & url & res2 & -> & Hurl & Hc); [|done].
  apply bind_inv in E2 as (r4 & s4 & t4 & u4 & E4 & E2 & ->).
  apply (cancel_reply_runs _ _ _ _ _ url) in E4 as (Es4 & fdate & res3 & text & ->); [|done|done].
  apply bind_inv in E2 as ([] & s5 & t5 & u5 & E5 & E2 & ->). apply modify_inv in E5 as [-> ->].
  apply bind_inv in E2 as (saved & s6 & t6 & u6 & E6 & E2 & ->). apply ask_inv in E6 as [Es6 ->]. run_inv E2. run_inv E.
  split; [by rewrite Es6|]. by eexists res, info, url, res2, _, fdate, res3, text, saved.
Qed.
End Safe.

(** ** Examples *)

Abbreviation toy_poll state gets puts :=
  (poll_turn (server_hawkbit_funcs toy_json (toy_backend (toy_net toy_file 1 None true) state 0) toy_hash_lib (-5) true 3 (fun _ => ""))
    [] 0 (mk_suricatta true false) (toy_hawkbit [], mk_toy_world gets puts)).

Abbreviation good_poll :=
  (toy_poll STATE_OK (deploys "forced" [chunk_json [toy_artifact]] ++ deploys "forced" [chunk_json [toy_artifact]]) (replicate 9 CHANNEL_OK)).

Lemma download_authorised_witness : downloads good_poll.2 = ["https://server/image.swu"] /\
  exists reply, "https://server/image.swu" ∈ deployment_urls toy_json (json_array toy_json (json_get_path_key toy_json reply ["deployment"; "chunks"])).
Proof.
  assert (H1 : downloads good_poll.2 = ["https://server/image.swu"]) by (vm_compute; reflexivity).
  assert (H2 : exists info, good_poll.2 !! 9%nat = Some (EvDownload "https://server/image.swu" info true None)) by (vm_compute; by eexists).
  destruct H2 as [info H2]. destruct good_poll as [[r s'] t] eqn:E. cbn [snd] in H1, H2. split; [done|].
  destruct (download_authorised toy_json (toy_backend (toy_net toy_file 1 None true) STATE_OK 0) toy_hash_lib (-5) true 3 (fun _ => "")
    [] 0 (mk_suricatta true false) _ _ _ _ _ _ _ _ E (list_elem_of_lookup_2 _ _ _ H2))
    as (_ & reply1 & state & t1 & s1 & res & dev & action & res2 & reply & q & u & e & v & _ & _ & _ & _ & _ & _ & _ & _ & _ & _ & _ & _ & Hurl).
  by exists reply.
Defined.

Definition cancels : list (channel_op_res_t * option json) :=
  [(CHANNEL_OK, device_json [href "cancelAction" "https://server/c/7"; href "deploymentBase" "https://server/d/7"]);
   (CHANNEL_OK, Some (JObj [("id", JInt 11); ("cancelAction", JObj [("stopId", JInt 7)])]))].

Abbreviation cancel_poll := (toy_poll STATE_OK cancels [CHANNEL_OK]).

Lemma cancel_acknowledged_witness : downloads cancel_poll.2 = [] /\ hb_update_state cancel_poll.1.2.1 = STATE_OK.
Proof.
  assert (H1 : downloads cancel_poll.2 = []) by (vm_compute; reflexivity). split; [exact H1|].
  destruct (server_get_deployment_info toy_json (toy_backend (toy_net toy_file 1 None true) STATE_OK 0) 0
    (toy_hawkbit [], mk_toy_world cancels [CHANNEL_OK])) as [[[[q reply] id'] s1] t1] eqn:Ei.
  assert (Hq : q = SERVER_UPDATE_CANCELED).
  { change q with (q, reply, id', s1, t1).1.1.1.1. rewrite <- Ei. vm_compute. reflexivity. }
  subst q. destruct cancel_poll as [[r s'] t] eqn:E. cbn [fst snd].
  exact (proj1 (cancel_acknowledged toy_json (toy_backend (toy_net toy_file 1 None true) STATE_OK 0) toy_hash_lib (-5) true 3 (fun _ => "")
    [] 0 (mk_suricatta true false) _ _ _ _ _ _ _ _ (fun w => eq_refl) eq_refl Ei E)).
Defined.
