(* ===== verification/General.v ===== *)
(** * The general purpose connector: [suricatta/server_general.c]

    The server answers a query about the device with an HTTP code: a redirection is an update, [404] none. The file is taken from where
    the redirection points to. A thread follows the progress and puts lines of comma separated values to a log of the server.
    The operations are written in the monad of [Backend] and are one of the connectors that [Suricatta] polls with. From
    [corelib/channel_curl.c] comes the collection of the headers of a reply. *)
From stdpp Require Import gmap.
From S2P Require Import Prelude CString Util Dict State Crypto Cpio Copyfile Parselib Settings Stream Channel Backend Suricatta.

(** What a [get] leaves besides its result: the header lines, and the URL of a redirection that the channel stores. *)
Record http_reply := mk_http_reply {
  hr_lines : list string;
  hr_redirect : option string;
}.

(** [server_general_t], with the options of the channel ([channel_data_defaults]), the URL of the last redirection, which the channel
    keeps, and [mandatory_argument_count]. An empty [url] is also NULL. *)
Record server_general_t := mk_server_general {
  g_url : string;
  g_logurl : option string;
  g_polling_interval : Z;
  g_cached_file : option string;
  g_configdata : dict;
  g_headers : dict;
  g_options : channel_options;
  g_redirect : option string;
  g_mandatory : Z;
}.

Definition set_url h v := mk_server_general v (g_logurl h) (g_polling_interval h) (g_cached_file h) (g_configdata h)
  (g_headers h) (g_options h) (g_redirect h) (g_mandatory h).
Definition set_logurl h v := mk_server_general (g_url h) v (g_polling_interval h) (g_cached_file h) (g_configdata h)
  (g_headers h) (g_options h) (g_redirect h) (g_mandatory h).
Definition set_polling h v := mk_server_general (g_url h) (g_logurl h) v (g_cached_file h) (g_configdata h)
  (g_headers h) (g_options h) (g_redirect h) (g_mandatory h).
Definition set_cached h v := mk_server_general (g_url h) (g_logurl h) (g_polling_interval h) v (g_configdata h)
  (g_headers h) (g_options h) (g_redirect h) (g_mandatory h).
Definition set_configdata h v := mk_server_general (g_url h) (g_logurl h) (g_polling_interval h) (g_cached_file h) v
  (g_headers h) (g_options h) (g_redirect h) (g_mandatory h).
Definition set_headers h v := mk_server_general (g_url h) (g_logurl h) (g_polling_interval h) (g_cached_file h) (g_configdata h)
  v (g_options h) (g_redirect h) (g_mandatory h).
Definition set_options h v := mk_server_general (g_url h) (g_logurl h) (g_polling_interval h) (g_cached_file h) (g_configdata h)
  (g_headers h) v (g_redirect h) (g_mandatory h).
Definition set_redirect h v := mk_server_general (g_url h) (g_logurl h) (g_polling_interval h) (g_cached_file h) (g_configdata h)
  (g_headers h) (g_options h) v (g_mandatory h).
Definition set_mandatory h v := mk_server_general (g_url h) (g_logurl h) (g_polling_interval h) (g_cached_file h) (g_configdata h)
  (g_headers h) (g_options h) (g_redirect h) v.

Definition URL_BIT : Z := 4.
Definition ALL_MANDATORY_SET : Z := URL_BIT.
Definition CHANNEL_DEFAULT_POLLING_INTERVAL : Z := 45.
Definition MAX_LOG_SIZE : Z := 1024.

(** What the formatting of a log gives; [Overrun] is a write behind the end of the buffer. *)
Inductive log_result := NoLog | Log (text : string) | Overrun.

(** The thread has ended, waits for the next message, or has written outside of its memory. *)
Inductive thread_state := Exited | Running (status : RECOVERY_STATUS) | Overran.

(** What [getopt_long] returns: the character, [optarg], and the argument behind. *)
Record getopt := mk_getopt {
  go_choice : ascii;
  go_arg : option string;
  go_next : option string;
}.

(** After an option: the loop goes on, the function returns, or a NULL pointer is followed. *)
Inductive option_step := Continue | Return (r : server_op_res_t) | Crash.

Definition map_http_retcode (response : channel_op_res_t) : server_op_res_t :=
  match response with
  | CHANNEL_ENONET | CHANNEL_EAGAIN | CHANNEL_ESSLCERT | CHANNEL_ESSLCONNECT | CHANNEL_REQUEST_PENDING => SERVER_EAGAIN
  | CHANNEL_EACCES => SERVER_EACCES
  | CHANNEL_ENOENT | CHANNEL_EIO | CHANNEL_EILSEQ | CHANNEL_ENOMEM | CHANNEL_EINIT | CHANNEL_ELOOP => SERVER_EERR
  | CHANNEL_EBADMSG => SERVER_EBADMSG
  | CHANNEL_EREDIRECT => SERVER_UPDATE_AVAILABLE
  | CHANNEL_ENOTFOUND => SERVER_NO_UPDATE_AVAILABLE
  | CHANNEL_OK => SERVER_EERR
  end.

(** The value is an [unsigned long], the variable an [unsigned int]. *)
Definition server_set_polling_interval (poll : string) (h : server_general_t) : server_general_t :=
  let polling_interval := strtoul poll 10 in
  set_polling h (u32 (if polling_interval =? 0 then CHANNEL_DEFAULT_POLLING_INTERVAL else polling_interval)).

(** ** Logs *)

(** A field behind the log: a comma unless the log is empty, then as much of the field as fits. [None] when the comma ends at the last
    byte of the buffer: its NUL is outside, and the room that is left wraps around. *)
Definition log_append (log field : string) : option string :=
  let log := if negb (strlen log =? 0) && (strlen log <? MAX_LOG_SIZE) then log +:+ "," else log in
  if strlen log <? MAX_LOG_SIZE then Some (log +:+ str_take (Z.to_nat (MAX_LOG_SIZE - strlen log - 1)) field) else None.

(** What stands for a field of the format. *)
Definition log_field (fdate : option string) (identify : dict) (token : string) : string :=
  match (if strcmp token "date" =? 0 then fdate else dict_get_value identify token) with
  | Some field => field
  | None => token
  end.

Fixpoint log_fields (fields : list string) (log : string) : option string :=
  match fields with
  | [] => Some log
  | field :: fields => match log_append log field with Some log => log_fields fields log | None => None end
  end.

Section General.
Context {W C : Type} (b : backend http_reply W) (hl : hash_lib C) (ssl : bool).
(** [curl_easy_escape]. *)
Context (escape : string -> string).
Abbreviation M := (op server_general_t http_reply W).

(** Without memory a line is not collected. *)
Definition channel_callback_headers (line : string) (headers : dict) : M dict :=
  ok <- alloc b ;;
  if negb ok then ret headers
  else
    match strchr line ":" with
    | None => ret headers
    | Some p =>
        let val := skip_space (str_drop 1 p) in
        let val := str_span (fun c => negb (Ascii.eqb c "013")) val in
        let val := str_span (fun c => negb (Ascii.eqb c "010")) val in
        entry <- alloc b ;;
        elem <- alloc b ;;
        ret (dict_set_value entry elem headers (str_before line p) val).2
    end.

Fixpoint receive_headers (lines : list string) (headers : dict) : M dict :=
  match lines with
  | [] => ret headers
  | line :: lines => headers <- channel_callback_headers line headers ;; receive_headers lines headers
  end.

(** The loop over the dictionary; [None] behind an error. *)
Fixpoint query_loop (url : string) (d : dict) (qry : option string) : M (option string) :=
  match d with
  | [] => ret qry
  | entry :: d =>
      encoded <- match dict_entry_get_value (Some entry) with Some value => asprintf b (escape value) | None => ret None end ;;
      match encoded with
      | None => ret None
      | Some encoded =>
          qry <- asprintf b (match qry with
                             | Some tmp => tmp +:+ "&" +:+ entry_key entry +:+ "=" +:+ encoded
                             | None => url +:+ "?" +:+ entry_key entry +:+ "=" +:+ encoded
                             end) ;;
          match qry with None => ret None | Some _ => query_loop url d qry end
      end
  end.

(** The first block of memory is the handle of the library. *)
Definition server_prepare_query (url : string) (d : dict) : M (option string) :=
  curl <- alloc b ;;
  if negb curl then ret None
  else
    qry <- query_loop url d None ;;
    match qry with Some _ => ret qry | None => asprintf b url end.

(** A channel without URL fails with [CHANNEL_EINIT]. *)
Definition server_get_deployment_info : M server_op_res_t :=
  h <- get ;;
  url <- server_prepare_query (g_url h) (g_configdata h) ;;
  r <- match url with Some url => http_get b url | None => ret (CHANNEL_EINIT, None) end ;;
  let '(response, reply) := r in
  match reply ≫= hr_redirect with Some url => modify (fun h => set_redirect h (Some url)) | None => ret tt end ;;
  headers <- receive_headers (match reply with Some reply => hr_lines reply | None => [] end) [] ;;
  match dict_get_value headers "Retry-After" with
  | Some pollstring => modify (server_set_polling_interval pollstring)
  | None => ret tt
  end ;;
  ret (map_http_retcode response).

(** The result and the identifier of the action. *)
Definition server_has_pending_action (action_id : Z) : M (server_op_res_t * Z) :=
  state <- ask_state b ;;
  if state =? STATE_INSTALLED then ret (SERVER_NO_UPDATE_AVAILABLE, 0)
  else r <- server_get_deployment_info ;; ret (r, 0).

Definition server_send_target_data (between : list (option http_reply)) : M (option server_op_res_t) := ret (Some SERVER_OK).

(** There is no callback for the data: a block is taken as a whole. The branch that releases the name of the cached file is run only
    when there is none. The memory for the copy of the URL is taken for granted. *)
Definition server_install_update : M server_op_res_t :=
  h <- get ;;
  match g_redirect h with
  | None => ret SERVER_EERR
  | Some url =>
      r <- get_file b hl ssl (co_retries (g_options h)) url "" false (g_cached_file h) (fun block => ret (length block)) ;;
      let result := map_channel_retcode r.1 in
      w <- wait_for_complete b ;;
      let result := if server_ok result then match w.1 with FAILURE => SERVER_EERR | _ => SERVER_OK end else result in
      (match g_cached_file h with None => modify (fun h => set_cached h None) | Some _ => ret tt end) ;;
      if server_ok result then
        p <- finish_update b ;;
        ret (match p with Some true => SERVER_OK | _ => SERVER_EERR end)
      else ret result
  end.

(** Nothing is served. *)
Definition server_ipc (msg : unit) : M server_op_res_t := ret SERVER_OK.

(** ** The thread that sends the log *)

Definition server_format_log (event : string) (fmtevents identify : dict) : M log_result :=
  match dict_get_value fmtevents event with
  | None => ret NoLog
  | Some tmp =>
      log <- alloc b ;;
      if negb log then ret NoLog
      else
        text <- date b ;;
        fdate <- asprintf b text ;;
        ret (match log_fields (log_field fdate identify <$> strtok_all tmp ",") "" with Some log => Log log | None => Overrun end)
  end.

(** A message with this status. *)
Definition progress_message (url : string) (fmtevents identify : dict) (status msg : RECOVERY_STATUS) : M thread_state :=
  started <- (if bool_decide (status = IDLE) && negb (bool_decide (msg = IDLE)) then server_format_log "started" fmtevents identify
              else ret NoLog) ;;
  match started with
  | Overrun => ret Overran
  | _ =>
      logbuffer <- match msg with
                   | SUCCESS => server_format_log "success" fmtevents identify
                   | FAILURE => server_format_log "fail" fmtevents identify
                   | _ => ret started
                   end ;;
      match logbuffer with
      | Overrun => ret Overran
      | Log log => http_put b CHANNEL_PUT url log ;; ret (Running msg)
      | NoLog => ret (Running msg)
      end
  end.

Fixpoint progress_loop (url : string) (fmtevents identify : dict) (msgs : list RECOVERY_STATUS) (status : RECOVERY_STATUS)
    : M thread_state :=
  match msgs with
  | [] => ret (Running status)
  | msg :: msgs =>
      r <- progress_message url fmtevents identify status msg ;;
      match r with Running status => progress_loop url fmtevents identify msgs status | _ => ret r end
  end.

(** ** Start *)

Section Config.
Context {R S : Type} (lc : libconfig R S) (behind : string) (mem : nat -> bool * bool).
Abbreviation lib := (libconfig_lib lc).

(** Without a dictionary the result is an error. [event] and [fmt] are what the arrays hold. *)
Definition server_logevent_settings (event fmt : string) (settings : S) (data : option dict) : Z * option dict :=
  match data with
  | None => (- EINVAL, None)
  | Some events => (0, Some (table_into_dict lc behind mem "event" "format" (elements lc settings) 0 event fmt events))
  end.

(** [cfg] is the configuration when the file can be read; [msgs] are the messages about the progress. *)
Definition server_progress_thread (event fmt : string) (cfg : option R) (msgs : list RECOVERY_STATUS) : M thread_state :=
  h <- get ;;
  match g_logurl h with
  | None | Some "" => ret Exited
  | Some url =>
      ch <- channel_open b ;;
      match ch with
      | Some CHANNEL_OK =>
          let fmtevents := match cfg with
            | Some cfg => (read_module_settings lc (Some cfg) "gservice.logevent"
                (Some (fun e d => default [] (server_logevent_settings event fmt e (Some d)).2)) []).2
            | None => []
            end in
          progress_loop url fmtevents (g_configdata h) msgs IDLE
      | _ => ret Exited
      end
  end.

Definition server_general_settings (tmp_bool : bool) (elem : S) (h : server_general_t) : server_general_t :=
  let text field := get_field_string_with_size lib behind elem (Some field) 128 "" in
  let h := if strlen (text "url") =? 0 then h else set_mandatory (set_url h (text "url")) (Z.lor (g_mandatory h) URL_BIT) in
  let h := if strlen (text "logurl") =? 0 then h else set_logurl h (Some (text "logurl")) in
  let h := set_polling h (u32 (get_field_int lib elem (Some "polldelay") (i32 (g_polling_interval h)))) in
  set_options h (channel_settings lc behind tmp_bool elem (g_options h)).

Definition set_retries o v := mk_channel_options v (co_max_download_speed o) (co_retry_sleep o) (co_strictssl o) (co_cafile o)
  (co_sslkey o) (co_sslkeypassword o) (co_ciphers o) (co_sslcert o) (co_proxy o) (co_iface o) (co_api_key_header o) (co_api_key o).
Definition set_speed o v := mk_channel_options (co_retries o) v (co_retry_sleep o) (co_strictssl o) (co_cafile o)
  (co_sslkey o) (co_sslkeypassword o) (co_ciphers o) (co_sslcert o) (co_proxy o) (co_iface o) (co_api_key_header o) (co_api_key o).
Definition set_retry_sleep o v := mk_channel_options (co_retries o) (co_max_download_speed o) v (co_strictssl o) (co_cafile o)
  (co_sslkey o) (co_sslkeypassword o) (co_ciphers o) (co_sslcert o) (co_proxy o) (co_iface o) (co_api_key_header o) (co_api_key o).

(** The body of the loop over the options. *)
Definition server_option (o : getopt) : M option_step :=
  let with_arg (k : string -> M option_step) : M option_step := match go_arg o with Some a => k a | None => ret Crash end in
  let set (f : string -> server_general_t -> server_general_t) : M option_step :=
    with_arg (fun a => modify (f a) ;; ret Continue) in
  match go_choice o with
  | "u"%char => set (fun a h => set_mandatory (set_url h a) (Z.lor (g_mandatory h) URL_BIT))
  | "l"%char => set (fun a h => set_logurl h (Some a))
  | "p"%char => set (fun a h => set_polling h (u32 (strtoul a 10)))
  | "r"%char => set (fun a h => set_options h (set_retries (g_options h) (u8 (strtoul a 10))))
  | "w"%char => set (fun a h => set_options h (set_retry_sleep (g_options h) (u32 (strtoul a 10))))
  | "2"%char => set (fun a h => set_cached h (Some a))
  | "a"%char => with_arg (fun a =>
      match go_next o with
      | None => ret (Return SERVER_EINIT)
      | Some value =>
          h <- get ;;
          entry <- alloc b ;;
          elem <- alloc b ;;
          let '(r, headers) := dict_insert_value entry elem (g_headers h) a value in
          modify (fun h => set_headers h headers) ;;
          ret (if r <? 0 then Return SERVER_EINIT else Continue)
      end)
  | "n"%char => with_arg (fun a =>
      let '(v, _, errno) := ustrtoull a 10 in
      modify (fun h => set_options h (set_speed (g_options h) (u32 v))) ;;
      ret (if errno =? 0 then Continue else Return SERVER_EINIT))
  | _ => ret Continue
  end.

Fixpoint server_options (opts : list getopt) : M option_step :=
  match opts with
  | [] => ret Continue
  | o :: opts => r <- server_option o ;; match r with Continue => server_options opts | _ => ret r end
  end.

(** [cfg] is the configuration when the file can be read, [unused] tells that arguments are left, [curl_ready] that the library was
    initialised; the result is [None] for a NULL pointer. *)
Definition server_start (tmp_bool : bool) (name value : string) (cfg : option R) (opts : list getopt) (unused curl_ready : bool)
    : M (option server_op_res_t) :=
  modify (fun h => set_headers (set_configdata h []) []) ;;
  match cfg with
  | Some cfg =>
      modify (fun h => (read_module_settings lc (Some cfg) "gservice" (Some (server_general_settings tmp_bool)) h).2) ;;
      modify (fun h => set_configdata h
        (read_module_settings lc (Some cfg) "identify" (Some (settings_into_dict lc behind mem name value)) (g_configdata h)).2)
  | None => ret tt
  end ;;
  r <- server_options opts ;;
  match r with
  | Crash => ret None
  | Return r => ret (Some r)
  | Continue =>
      h <- get ;;
      if negb (g_mandatory h =? ALL_MANDATORY_SET) then ret (Some SERVER_EINIT)
      else if unused then ret (Some SERVER_EINIT)
      else if negb curl_ready then ret (Some SERVER_EINIT)
      else
        ch <- channel_open b ;;
        match ch with
        | Some CHANNEL_OK => tell (EvThread 0) ;; ret (Some SERVER_OK)
        | _ => ret (Some SERVER_EINIT)
        end
  end.
End Config.

Definition server_stop : M server_op_res_t := modify (fun h => set_headers h (dict_drop_db (g_headers h))) ;; ret SERVER_OK.

(** [server]. *)
Definition server_general_funcs : server_t server_general_t http_reply W unit server_op_res_t :=
  mk_server _ _ _ _ _ server_has_pending_action server_install_update server_send_target_data g_polling_interval server_ipc.
End General.

(** * Properties *)

(** ** The format of a log *)

(** A field behind others: no comma in front of the first one that is not empty. *)
Definition csv_step (log field : string) : string := if strlen log =? 0 then field else log +:+ "," +:+ field.
Definition csv (fields : list string) : string := foldl csv_step "" fields.

(** The longest text that the buffer holds. *)
Definition log_room : nat := Z.to_nat (MAX_LOG_SIZE - 1).

Lemma str_take_app_ge n s t : (String.length s <= n)%nat -> str_take n (s +:+ t) = s +:+ str_take (n - String.length s) t.
Proof.
  revert n. induction s as [|c s IH]; intros n Hn; [by rewrite Nat.sub_0_r|]. destruct n as [|n]; [cbn in Hn; lia|].
  rewrite !str_app_cons. cbn [str_take String.length Nat.sub]. rewrite IH by (cbn in Hn; lia). done.
Qed.

Lemma csv_snoc fields field : csv (fields ++ [field]) = csv_step (csv fields) field.
Proof. unfold csv. by rewrite foldl_app. Qed.

Lemma log_fields_app l1 l2 log : log_fields (l1 ++ l2) log = log_fields l1 log ≫= log_fields l2.
Proof. revert log. induction l1 as [|f l1 IH]; intros log; cbn; [done|]. by destruct (log_append log f). Qed.

Lemma csv_step_length log field : strlen log <= strlen (csv_step log field).
Proof. unfold csv_step. case_if; [|rewrite strlen_app]; pose proof (strlen_nonneg field); pose proof (strlen_nonneg ("," +:+ field)); lia. Qed.

(** A text with room for another character gets as much of the next field as fits. *)
Lemma log_append_room log field :
  strlen log < MAX_LOG_SIZE - 1 -> log_append log field = Some (str_take log_room (csv_step log field)).
Proof.
  unfold MAX_LOG_SIZE. intros Hl. unfold log_append, csv_step, log_room, MAX_LOG_SIZE. pose proof (strlen_nonneg log).
  destruct (Z.eqb_spec (strlen log) 0) as [Hz|Hz]; cbn [negb andb].
  - apply strlen_zero in Hz as ->. done.
  - rewrite (proj2 (Z.ltb_lt (strlen log) 1024)) by lia. rewrite strlen_app. change (strlen ",") with 1.
    rewrite (proj2 (Z.ltb_lt _ _)) by lia. rewrite <- str_app_assoc, str_take_app_ge; unfold strlen in *.
    + rewrite str_app_length. cbn [String.length]. do 3 f_equal. lia.
    + rewrite str_app_length. cbn [String.length]. lia.
Qed.

Lemma log_append_full log field : strlen log = MAX_LOG_SIZE - 1 -> log_append log field = None.
Proof.
  unfold MAX_LOG_SIZE. intros Hl. unfold log_append, MAX_LOG_SIZE. rewrite Hl.
  change (negb (1024 - 1 =? 0) && (1024 - 1 <? 1024)) with true. cbv beta iota zeta. by rewrite strlen_app, Hl.
Qed.

Lemma str_take_short n s : strlen s <= Z.of_nat n -> str_take n s = s.
Proof. intros. apply str_take_all. unfold strlen in *. lia. Qed.

Lemma log_room_value : Z.of_nat log_room = MAX_LOG_SIZE - 1.
Proof. reflexivity. Qed.

Lemma csv_removelast fields : strlen (csv (removelast fields)) <= strlen (csv fields).
Proof.
  induction fields as [|f l _] using rev_ind; [done|]. rewrite removelast_last, csv_snoc. apply csv_step_length.
Qed.

(** A line of the log is the list of its fields, cut at the end of the buffer when the last field does not fit; a list whose fields but
    the last fill the buffer is written behind its end. *)
Theorem log_fields_exact (fields : list string) :
  log_fields fields "" =
    if strlen (csv (removelast fields)) <? MAX_LOG_SIZE - 1 then Some (str_take log_room (csv fields)) else None.
Proof.
  induction fields as [|field fields IH] using rev_ind; [done|].
  rewrite log_fields_app, removelast_last, csv_snoc, IH. pose proof log_room_value as Hr.
  pose proof (csv_removelast fields) as Hm.
  destruct (Z.ltb_spec (strlen (csv (removelast fields))) (MAX_LOG_SIZE - 1)) as [H1|H1];
    destruct (Z.ltb_spec (strlen (csv fields)) (MAX_LOG_SIZE - 1)) as [H2|H2]; cbn [option_bind mbind log_fields]; [| |lia|done].
  - rewrite (str_take_short log_room (csv fields)) by lia. by rewrite log_append_room.
  - rewrite log_append_full; [done|]. unfold strlen in *. rewrite str_take_length. lia.
Qed.

Lemma log_fields_fit fields : strlen (csv fields) < MAX_LOG_SIZE -> log_fields fields "" = Some (csv fields).
Proof.
  intros Hl. rewrite log_fields_exact. pose proof log_room_value as Hr. rewrite (str_take_short log_room) by lia.
  destruct fields as [|field fields _] using rev_ind; [done|]. rewrite removelast_last. rewrite csv_snoc in Hl at 1.
  rewrite (proj2 (Z.ltb_lt _ _)); [done|]. unfold csv_step, MAX_LOG_SIZE in *. pose proof (strlen_nonneg field).
  destruct (Z.eqb_spec (strlen (csv fields)) 0); [lia|]. rewrite !strlen_app in Hl. change (strlen ",") with 1 in Hl. lia.
Qed.

Lemma csv_join fields field : field <> "" -> csv (field :: fields) = foldl (fun log f => log +:+ "," +:+ f) field fields.
Proof.
  intros Hf. unfold csv. cbn [foldl]. change (csv_step "" field) with field. revert field Hf.
  induction fields as [|f fields IH]; intros field Hf; [done|]. cbn [foldl].
  assert (csv_step field f = field +:+ "," +:+ f) as ->.
  { unfold csv_step. destruct (Z.eqb_spec (strlen field) 0) as [E|]; [by apply strlen_zero in E|done]. }
  apply IH. by destruct field.
Qed.

(** ** Queries *)

(** What libcurl documents of [curl_easy_escape]: letters, digits and four marks stay, everything else becomes [%] with two digits, and
    [curl_easy_unescape] gives the text back. *)
Definition url_char (c : ascii) : bool :=
  isdigit c || isupper c || islower c || str_mem c "-._~%".

Class CurlEscape (escape unescape : string -> string) := {
  escape_chars s : str_forall url_char (escape s) = true;
  unescape_escape s : unescape (escape s) = s;
}.

Section Query.
Context {W C : Type} (b : backend http_reply W) (escape unescape : string -> string) `{!CurlEscape escape unescape}.
Abbreviation M := (op server_general_t http_reply W).
Hypothesis memory : forall w, (b_alloc b w).1 = true.

(** The names and values of the dictionary. *)
Definition query_pairs (d : dict) : list (string * string) := (fun e => (entry_key e, default "" (head (entry_list e)))) <$> d.

(** A server that takes a query apart. *)
Definition parse_pair (s : string) : string * string :=
  match strchr s "=" with Some p => (str_before s p, unescape (str_drop 1 p)) | None => (s, "") end.
Definition parse_query (q : string) : string * list (string * string) :=
  match strchr q "?" with
  | Some p => (str_before q p, parse_pair <$> split_on "&" (str_drop 1 p))
  | None => (q, [])
  end.

Definition pair_text (p : string * string) : string := p.1 +:+ "=" +:+ escape p.2.
Definition query_text (qry : string) (l : list (string * string)) : string := foldl (fun q p => q +:+ "&" +:+ pair_text p) qry l.

Lemma asprintf_memory text s r s' t : (asprintf b text : M _) s = (r, s', t) -> r = Some text /\ s'.1 = s.1 /\ t = [].
Proof. intros (? & ? & [[_ Hf]|[-> _]])%asprintf_inv; [by rewrite memory in Hf|done]. Qed.

Lemma alloc_memory s r s' t : (alloc b : M _) s = (r, s', t) -> r = true /\ s'.1 = s.1 /\ t = [].
Proof. unfold alloc, ask. pose proof (memory s.2) as Hm. destruct (b_alloc b s.2) as [ok w]. intros [= <- <- <-]. done. Qed.

Lemma query_loop_text url d : forall qry s r s' t,
  Forall (fun e => entry_list e <> []) d -> query_loop b escape url d (Some qry) s = (r, s', t) ->
  r = Some (query_text qry (query_pairs d)).
Proof.
  induction d as [|[k l] d IH]; intros qry s r s' t Hd E; cbn [query_loop] in E; [by apply ret_inv in E as (-> & _)|].
  apply Forall_cons in Hd as [Hv Hd]. destruct l as [|v l]; [done|]. cbn [dict_entry_get_value entry_list] in E.
  apply bind_inv in E as (enc & s1 & t1 & u1 & E1 & E & ->). apply asprintf_memory in E1 as (-> & _).
  apply bind_inv in E as (q & s2 & t2 & u2 & E2 & E & ->). apply asprintf_memory in E2 as (-> & _).
  by eapply IH in E.
Qed.

Lemma query_text_app a q l : query_text (a +:+ q) l = a +:+ query_text q l.
Proof. unfold query_text. revert q. induction l as [|p l IH]; intros q; [done|]. cbn [foldl]. by rewrite <- IH, !str_app_assoc. Qed.

Lemma prepare_query_text url d s r s' t :
  Forall (fun e => entry_list e <> []) d -> server_prepare_query b escape url d s = (r, s', t) ->
  r = Some (match query_pairs d with [] => url | p :: l => url +:+ "?" +:+ query_text (pair_text p) l end).
Proof.
  intros Hd E. unfold server_prepare_query in E. apply bind_inv in E as (ok & s1 & t1 & u1 & E1 & E & ->).
  apply alloc_memory in E1 as (-> & _). cbn [negb] in E. apply bind_inv in E as (q & s2 & t2 & u2 & E2 & E & ->).
  destruct d as [|[k [|v l]] d]; [|by apply Forall_cons in Hd as [? _]|].
  - apply ret_inv in E2 as (-> & _). by apply asprintf_memory in E as (-> & _).
  - apply Forall_cons in Hd as [_ Hd]. cbn [query_loop dict_entry_get_value entry_list] in E2.
    apply bind_inv in E2 as (enc & s3 & t3 & u3 & E3 & E2 & ->). apply asprintf_memory in E3 as (-> & _).
    apply bind_inv in E2 as (q2 & s4 & t4 & u4 & E4 & E2 & ->). apply asprintf_memory in E4 as (-> & _).
    eapply query_loop_text in E2 as ->; [|done]. apply ret_inv in E as (-> & _). f_equal. cbn [entry_key].
    change (query_pairs (mk_dict_entry k (v :: l) :: d)) with ((k, v) :: query_pairs d). cbv iota.
    by rewrite <- !query_text_app.
Qed.

Lemma split_query a l :
  Forall (fun p => str_mem "&" p.1 = false) l -> split_on "&" (query_text a l) = split_on "&" a ++ (pair_text <$> l).
Proof.
  revert a. induction l as [|p l IH]; intros a Hl; [by rewrite app_nil_r|]. apply Forall_cons in Hl as [Hp Hl].
  change (query_text a (p :: l)) with (query_text (a +:+ String "&" (pair_text p)) l).
  rewrite IH, split_on_joined, <- app_assoc by done. f_equal. rewrite fmap_cons. change (pair_text p :: (pair_text <$> l)) with
    ([pair_text p] ++ (pair_text <$> l)). f_equal.
  assert (str_mem "&" (pair_text p) = false) as Hm.
  { unfold pair_text. rewrite !str_mem_app, Hp. cbn. by eapply str_forall_mem; [apply escape_chars|]. }
  by destruct (strchr_none _ _ (strchr_none_mem _ _ Hm)) as [_ ->].
Qed.

Lemma parse_pair_text p : str_mem "=" p.1 = false -> parse_pair (pair_text p) = p.
Proof.
  intros Hp. unfold parse_pair, pair_text. change ("=" +:+ escape p.2) with (String "=" (escape p.2)).
  rewrite strchr_app, str_before_app by done. cbn [str_drop]. rewrite unescape_escape. by destruct p.
Qed.

(** C38: a server that takes a query apart gets the URL and every name and value of the device, whatever the values are: their characters
    cannot end a value or start another one. *)
Theorem query_roundtrip (url : string) (d : dict) (s s' : server_general_t * W) r t :
  str_mem "?" url = false -> Forall (fun e => entry_list e <> []) d ->
  Forall (fun e => str_mem "&" (entry_key e) = false /\ str_mem "=" (entry_key e) = false) d ->
  server_prepare_query b escape url d s = (r, s', t) -> parse_query <$> r = Some (url, query_pairs d).
Proof.
  intros Hu Hv Hk E. apply prepare_query_text in E as ->; [|done]. cbn. f_equal.
  assert (Hp : Forall (fun p => str_mem "&" p.1 = false /\ str_mem "=" p.1 = false) (query_pairs d)) by (by apply Forall_fmap).
  destruct (query_pairs d) as [|p l]; unfold parse_query; [by rewrite strchr_none_mem|].
  change ("?" +:+ query_text (pair_text p) l) with (String "?" (query_text (pair_text p) l)).
  rewrite strchr_app, str_before_app by done. cbn [str_drop].
  apply Forall_cons in Hp as [[Ha He] Hl]. rewrite split_query by (by eapply Forall_impl; [exact Hl|intros ? []]).
  assert (str_mem "&" (pair_text p) = false) as Hm.
  { unfold pair_text. rewrite !str_mem_app, Ha. cbn. by eapply str_forall_mem; [apply escape_chars|]. }
  destruct (strchr_none _ _ (strchr_none_mem _ _ Hm)) as [_ ->]. cbn. rewrite parse_pair_text by done. do 2 f_equal.
  clear -Hl CurlEscape0. induction Hl as [|q l [_ Hq] _ IH]; [done|]. cbn. by rewrite parse_pair_text, IH.
Qed.
End Query.

(** ** Polling *)

Section Poll.
Context {W C : Type} (b : backend http_reply W) (hl : hash_lib C) (ssl : bool) (escape : string -> string).
Abbreviation M := (op server_general_t http_reply W).
Abbreviation server := (server_general_funcs b hl ssl escape).

(** An operation that asks nothing but for memory. *)
Definition silent {A} (m : M A) : Prop := emits (fun _ => False) m /\ keeps eq m.

Lemma silent_run {A} (m : M A) s r s' t : silent m -> m s = (r, s', t) -> t = [] /\ s'.1 = s.1.
Proof.
  intros [He Hk] E. split; [|by symmetry; exact (keeps_run eq m s r s' t Hk E)].
  pose proof (emits_run _ _ _ _ _ _ He E) as Hf. by destruct Hf.
Qed.

Lemma receive_headers_silent lines : forall d, silent (receive_headers b lines d).
Proof.
  induction lines as [|line lines IH]; intros d; cbn [receive_headers]; [by split; [emits_tac|keeps_tac]|].
  split; unfold channel_callback_headers, alloc; [emits_tac; apply IH|keeps_tac; apply IH].
Qed.

Lemma query_loop_silent url d : forall qry, silent (query_loop b escape url d qry).
Proof.
  induction d as [|e d IH]; intros qry; cbn [query_loop]; [by split; [emits_tac|keeps_tac]|].
  split; [emits_tac; apply IH|keeps_tac; apply IH].
Qed.

Lemma prepare_query_silent url d : silent (server_prepare_query b escape url d).
Proof.
  pose proof (query_loop_silent url d) as Hq. split; unfold server_prepare_query, alloc.
  - emits_tac. apply Hq.
  - keeps_tac. apply Hq.
Qed.

(** The redirection that the channel holds after a reply. *)
Definition redirected (reply : option http_reply) (h : server_general_t) : option string :=
  match reply ≫= hr_redirect with Some url => Some url | None => g_redirect h end.

(** What a reply changes. *)
Definition replied (reply : option http_reply) (headers : dict) (h : server_general_t) : server_general_t :=
  let h := set_redirect h (redirected reply h) in
  match dict_get_value headers "Retry-After" with Some poll => server_set_polling_interval poll h | None => h end.

Lemma set_redirect_same h : set_redirect h (g_redirect h) = h.
Proof. by destruct h. Qed.

(** The query is the whole communication; the headers of its reply are the last thing that is looked at. *)
Lemma general_info_runs s r s' t :
  server_get_deployment_info b escape s = (r, s', t) ->
  exists url s1 t1 response reply headers s2 s3 t3,
    server_prepare_query b escape (g_url s.1) (g_configdata s.1) s = (url, s1, t1) /\ r = map_http_retcode response /\
    receive_headers b (match reply with Some reply => hr_lines reply | None => [] end) [] s2 = (headers, s3, t3) /\
    s'.1 = replied reply headers s.1 /\
    match url with Some url => t = [EvGet url response reply] | None => t = [] /\ response = CHANNEL_EINIT /\ reply = None end.
Proof.
  intros E. unfold server_get_deployment_info in E. apply bind_inv in E as (h & s0 & t0 & u0 & E0 & E & ->).
  apply get_inv in E0 as (-> & -> & ->). apply bind_inv in E as (url & s1 & t1 & u1 & E1 & E & ->).
  destruct (silent_run _ _ _ _ _ (prepare_query_silent _ _) E1) as [-> Hs1].
  apply bind_inv in E as ([response reply] & s2 & t2 & u2 & E2 & E & ->).
  assert (H2 : s2.1 = s.1 /\ match url with Some url => t2 = [EvGet url response reply]
    | None => t2 = [] /\ response = CHANNEL_EINIT /\ reply = None end).
  { destruct url; [apply ask_inv in E2 as [E2 ->]|apply ret_inv in E2 as ([= -> ->] & -> & ->)]; split; congruence || done. }
  destruct H2 as [Hs2 H2]. apply bind_inv in E as ([] & s3 & t3 & u3 & E3 & E & ->).
  assert (H3 : t3 = [] /\ s3.1 = set_redirect s.1 (redirected reply s.1)).
  { unfold redirected. destruct (reply ≫= hr_redirect); [apply modify_inv in E3 as [-> ->]|apply ret_inv in E3 as (_ & -> & ->)];
      cbn; rewrite Hs2; [done|]. by rewrite set_redirect_same. }
  destruct H3 as [-> Hs3]. apply bind_inv in E as (headers & s4 & t4 & u4 & E4 & E & ->).
  destruct (silent_run _ _ _ _ _ (receive_headers_silent _ _) E4) as [-> Hs4].
  apply bind_inv in E as ([] & s5 & t5 & u5 & E5 & E & ->). apply ret_inv in E as (-> & -> & ->).
  assert (H5 : t5 = [] /\ s5.1 = replied reply headers s.1).
  { unfold replied. destruct (dict_get_value headers "Retry-After"); [apply modify_inv in E5 as [-> ->]|apply ret_inv in E5 as (_ & -> & ->)];
      cbn; by rewrite Hs4, Hs3. }
  destruct H5 as [-> Hs5]. exists url, s1, [], response, reply, headers, s3, s4, []. split_and!; try done.
  rewrite !app_nil_r. cbn. by destruct url.
Qed.

Lemma replied_keeps reply headers h :
  g_redirect (replied reply headers h) = redirected reply h /\ g_cached_file (replied reply headers h) = g_cached_file h.
Proof. unfold replied. by destruct (dict_get_value headers "Retry-After"). Qed.

Lemma general_install_runs s r s' t :
  server_install_update b hl ssl s = (r, s', t) ->
  s'.1 = s.1 /\
  match g_redirect s.1 with
  | None => r = SERVER_EERR /\ t = []
  | Some url => exists sent res hash st p,
      t = EvDownload url "" false (g_cached_file s.1) :: [EvDownloaded sent res hash; EvWait st] ++ p /\ Forall no_download p /\
      (r = SERVER_OK -> map_channel_retcode res = SERVER_OK /\ st <> FAILURE /\ p = [EvPostUpdate (Some true)]) /\
      (map_channel_retcode res <> SERVER_OK -> r = map_channel_retcode res /\ p = [])
  end.
Proof.
  intros E. unfold server_install_update in E. apply bind_inv in E as (h & s0 & t0 & u0 & E0 & E & ->).
  apply get_inv in E0 as (-> & -> & ->). cbn [app]. destruct (g_redirect s.1) as [url|] eqn:Eu; [|by apply ret_inv in E as (-> & -> & ->)].
  apply bind_inv in E as ([res hash] & s1 & t1 & u1 & E1 & E & ->).
  assert (Hs1 : s1.1 = s.1).
  { symmetry. refine (keeps_run eq _ _ _ _ _ _ E1). apply keeps_get_file; [apply _|]. intros ?. keeps_tac. }
  apply (get_file_runs (fun _ => False)) in E1 as (u & sent & -> & Hu); [|intros ?; emits_tac]. destruct Hu; [|done].
  apply bind_inv in E as ([st texts] & s2 & t2 & u2 & E2 & E & ->). unfold wait_for_complete in E2. apply ask_inv in E2 as [Hs2 ->].
  apply bind_inv in E as ([] & s3 & t3 & u3 & E3 & E & ->).
  assert (H3 : t3 = [] /\ s3.1 = s.1).
  { destruct (g_cached_file s.1) eqn:Ec; [by apply ret_inv in E3 as (_ & -> & ->); rewrite Hs2, Hs1|].
    apply modify_inv in E3 as [-> ->]. split; [done|]. cbn. rewrite Hs2, Hs1. destruct (s.1). cbn in *. by rewrite Ec. }
  destruct H3 as [-> Hs3]. cbn [fst app] in *.
  destruct (server_ok (map_channel_retcode res)) eqn:Eok.
  - apply server_ok_eq in Eok. assert (Hst : {st = FAILURE} + {st <> FAILURE}) by apply decide, _. destruct Hst as [->|Hst].
    + apply ret_inv in E as (-> & -> & ->). split; [done|]. exists sent, res, hash, FAILURE, []. split_and!; [done|done|done|]. by rewrite Eok.
    + assert ((match st with FAILURE => SERVER_EERR | _ => SERVER_OK end) = SERVER_OK) as Est by (by destruct st).
      rewrite Est in E. cbn [server_ok bool_decide] in E.
      apply bind_inv in E as (p & s4 & t4 & u4 & E4 & E & ->). apply ask_inv in E4 as [Hs4 ->].
      apply ret_inv in E as (-> & -> & ->). split; [by rewrite Hs4|]. exists sent, res, hash, st, [EvPostUpdate p].
      split_and!; [done|by repeat constructor| |by rewrite Eok]. intros Hr. by destruct p as [[]|].
  - rewrite Eok in E. apply ret_inv in E as (-> & -> & ->). split; [done|]. exists sent, res, hash, st, []. split_and!; [done|done| |done].
    intros Hr. by rewrite Hr in Eok.
Qed.

(** C18: in a turn of the main loop something is downloaded only if polling is enabled or triggered, no installed update waits to be
    tested, and the server has redirected the query about this device; it comes from the URL of the redirection, and it is all that
    is asked before. *)
Theorem general_download_authorised (between : list (option http_reply)) (id : Z) (su : suricatta) (s s' : server_general_t * W) r
    (t : list (event http_reply)) (url info : string) (token : bool) (cached : option string) :
  poll_turn server between id su s = (r, s', t) -> EvDownload url info token cached ∈ t ->
  (su_enable su || su_trigger su) = true /\
  exists state q w s1 reply v,
    t = [EvGetState state; EvGet q CHANNEL_EREDIRECT reply; EvDownload url "" false (g_cached_file s.1)] ++ v /\
    state <> STATE_INSTALLED /\ redirected reply s.1 = Some url /\ Forall no_download v /\
    server_prepare_query b escape (g_url s.1) (g_configdata s.1) (s.1, w) = (Some q, s1, []).
Proof.
  unfold poll_turn. intros E Hd. destruct (su_enable su || su_trigger su); [|run_inv E; by apply not_elem_of_nil in Hd]. split; [done|].
  apply bind_inv in E as ([q1 id1] & s1 & t1 & u1 & E1 & E & ->). cbn in E1. unfold server_has_pending_action in E1.
  apply bind_inv in E1 as (state & s2 & t2 & u2 & E2 & E1 & ->). apply ask_inv in E2 as [Hs2 ->].
  destruct (Z.eqb_spec state STATE_INSTALLED) as [|Hst].
  { apply ret_inv in E1 as ([= -> ->] & -> & ->). apply ret_inv in E as (_ & _ & ->). by apply list_elem_of_singleton in Hd. }
  apply bind_inv in E1 as (q2 & s3 & t3 & u3 & E3 & E1 & ->). apply ret_inv in E1 as ([= -> ->] & -> & ->). rewrite app_nil_r in *.
  apply general_info_runs in E3 as (url0 & s4 & t4 & response & reply & headers & s5 & s6 & t6 & E4 & -> & _ & Hs3 & Ht).
  rewrite Hs2 in *. destruct (silent_run _ _ _ _ _ (prepare_query_silent _ _) E4) as [-> _].
  destruct (replied_keeps reply headers s.1) as [Hr Hc]. rewrite <- Hs3 in Hr, Hc.
  destruct (decide (response = CHANNEL_EREDIRECT)) as [->|Hn].
  - destruct url0 as [q|]; [subst t3|by destruct Ht as (_ & ? & _)]. cbn [map_http_retcode] in E.
    apply bind_inv in E as (r5 & s7 & t7 & u7 & E5 & E & ->). apply ret_inv in E as (_ & -> & ->). rewrite app_nil_r in *.
    apply general_install_runs in E5 as [_ E5]. rewrite Hr, Hc in E5.
    destruct (redirected reply s.1) as [u|] eqn:Eu.
    + destruct E5 as (sent & res & hash & st & p & -> & Hp & _).
      assert (Hq : Forall no_download ([EvDownloaded sent res hash; EvWait st] ++ p)) by (by repeat constructor).
      assert (u = url) as ->.
      { do 2 (apply elem_of_cons in Hd as [Hd|Hd]; [done|]). apply elem_of_cons in Hd as [[= -> _ _ _]|Hd]; [done|].
        by apply (proj1 (Forall_forall _ _) Hq) in Hd. }
      exists state, q, s2.2, s4, reply, ([EvDownloaded sent res hash; EvWait st] ++ p). split_and!; try done.
      destruct s2 as [h2 w2]. cbn in Hs2. by subst h2.
    + destruct E5 as [_ ->]. by do 2 (apply elem_of_cons in Hd as [Hd|Hd]; [done|]); apply not_elem_of_nil in Hd.
  - exfalso. assert (u1 = []) as ->.
    { destruct response; try done; by apply ret_inv in E as (_ & _ & ->). }
    rewrite app_nil_r in Hd. apply elem_of_cons in Hd as [Hd|Hd]; [done|].
    destruct url0; [subst t3|destruct Ht as [-> _]]; [by apply list_elem_of_singleton in Hd|by apply not_elem_of_nil in Hd].
Qed.
End Poll.

(** ** The headers of a reply *)

Section Headers.
Context {W C : Type} (b : backend http_reply W) (hl : hash_lib C) (ssl : bool) (escape : string -> string).
Abbreviation M := (op server_general_t http_reply W).
Hypothesis memory : forall w, (b_alloc b w).1 = true.

(** A header as it is sent, and one that can be sent. *)
Definition header_line (p : string * string) : string := p.1 +:+ ": " +:+ p.2 +:+ String "013" (String "010" "").
Definition header_ok (p : string * string) : Prop :=
  str_mem ":" p.1 = false /\ str_mem "013" p.2 = false /\ str_mem "010" p.2 = false /\ skip_space p.2 = p.2.

Lemma str_mem_forall d s : str_mem d s = false -> str_forall (fun c => negb (Ascii.eqb c d)) s = true.
Proof.
  induction s as [|c s IH]; cbn [str_mem str_forall]; [done|]. intros [Hc Hs]%orb_false_iff. by rewrite Hc, IH.
Qed.

Lemma skip_space_fixed s t : skip_space s = s -> s <> "" -> skip_space (s +:+ t) = s +:+ t.
Proof.
  destruct s as [|c s]; [done|]. rewrite str_app_cons. cbn [skip_space]. destruct (isspace c) eqn:E; [|done]. intros Hs _. exfalso.
  assert (Hl : forall u, (String.length (skip_space u) <= String.length u)%nat).
  { induction u as [|d u IH]; cbn; [lia|]. destruct (isspace d); cbn; lia. }
  specialize (Hl s). rewrite Hs in Hl. cbn in Hl. lia.
Qed.

Lemma header_collected p d s r s' t :
  header_ok p -> channel_callback_headers b (header_line p) d s = (r, s', t) -> r = (dict_set_value true true d p.1 p.2).2.
Proof.
  intros (Hk & Hr & Hn & Hsp) E. unfold channel_callback_headers in E. apply bind_inv in E as (ok & s1 & t1 & u1 & E1 & E & ->).
  apply (alloc_memory b memory) in E1 as (-> & _). cbn [negb] in E. destruct p as [k v]. cbn [fst snd] in *. unfold header_line in E.
  cbn [fst snd] in E. change (": " +:+ v +:+ String "013" (String "010" "")) with (String ":" (String " " (v +:+ String "013" (String "010" "")))) in E.
  rewrite strchr_app, str_before_app in E by done. cbn [str_drop] in E. change (skip_space (String " " ?x)) with (skip_space x) in E.
  assert (str_span (fun c => negb (Ascii.eqb c "013")) (skip_space (v +:+ String "013" (String "010" ""))) = v) as Ev.
  { destruct (decide (v = "")) as [->|Hne]; [done|]. rewrite skip_space_fixed by done. apply str_span_app; [by apply str_mem_forall|done]. }
  rewrite Ev, str_span_all in E by (by apply str_mem_forall).
  apply bind_inv in E as (m1 & s2 & t2 & u2 & E2 & E & ->). apply (alloc_memory b memory) in E2 as (-> & _).
  apply bind_inv in E as (m2 & s3 & t3 & u3 & E3 & E & ->). apply (alloc_memory b memory) in E3 as (-> & _).
  by apply ret_inv in E as (-> & _).
Qed.

Lemma headers_collected hs : forall d s r s' t,
  dict_ok d -> Forall header_ok hs -> receive_headers b (header_line <$> hs) d s = (r, s', t) ->
  dict_abs r = foldl (fun m p => map_set p.1 p.2 m) (dict_abs d) hs.
Proof.
  induction hs as [|p hs IH]; intros d s r s' t Hd Hok E; cbn in E; [by apply ret_inv in E as (-> & _)|].
  apply Forall_cons in Hok as [Hp Hok]. apply bind_inv in E as (d1 & s1 & t1 & u1 & E1 & E & ->).
  apply header_collected in E1 as ->; [|done]. apply IH in E as ->; [|by apply dict_set_value_ok|done].
  cbn [foldl]. by rewrite dict_set_value_abs.
Qed.

Lemma strtoul_print_d n : 0 <= n <= ULONG_MAX -> strtoul (print_d n) 10 = n.
Proof. intros Hn. unfold strtoul. pose proof (strtoull_print_d n "" Hn ltac:(done)) as E. rewrite str_app_nil_r in E. by rewrite E. Qed.

(** The server sets the time between two queries: the last header [Retry-After] of its reply, whatever the code of the reply is. *)
Theorem retry_after_obeyed (hs : list (string * string)) (n : Z) (s s' : server_general_t * W) r t q res redirect :
  Forall header_ok hs -> foldl (fun m p => map_set p.1 p.2 m) ∅ hs !! "Retry-After" = Some [print_d n] -> 0 < n < 2 ^ 32 ->
  server_get_deployment_info b escape s = (r, s', t) ->
  EvGet q res (Some (mk_http_reply (header_line <$> hs) redirect)) ∈ t -> g_polling_interval s'.1 = n.
Proof.
  intros Hok Hl Hn E Hin. apply general_info_runs in E as (url & s1 & t1 & res' & reply & headers & s2 & s3 & t3 & _ & _ & Eh & -> & Ht).
  destruct url as [url|]; [subst t|destruct Ht as [-> _]; by apply not_elem_of_nil in Hin].
  apply list_elem_of_singleton in Hin as [= <- <- <-]. cbn [hr_lines] in Eh.
  apply headers_collected in Eh; [|constructor|done]. rewrite dict_abs_nil in Eh. rewrite <- Eh, dict_abs_lookup in Hl.
  unfold replied. rewrite dict_value_list, Hl. cbn [mbind option_bind head]. unfold server_set_polling_interval.
  rewrite strtoul_print_d by (unfold ULONG_MAX; lia). rewrite (proj2 (Z.eqb_neq n 0)) by lia. cbn. unfold u32, wrap.
  by rewrite Z.mod_small by lia.
Qed.

(** Without that header the time stays: the spelling matters. *)
Theorem other_headers_ignored (hs : list (string * string)) (s s' : server_general_t * W) r t q res redirect :
  Forall header_ok hs -> Forall (fun p => p.1 <> "Retry-After") hs ->
  server_get_deployment_info b escape s = (r, s', t) ->
  EvGet q res (Some (mk_http_reply (header_line <$> hs) redirect)) ∈ t -> g_polling_interval s'.1 = g_polling_interval s.1.
Proof.
  intros Hok Hno E Hin. apply general_info_runs in E as (url & s1 & t1 & res' & reply & headers & s2 & s3 & t3 & _ & _ & Eh & -> & Ht).
  destruct url as [url|]; [subst t|destruct Ht as [-> _]; by apply not_elem_of_nil in Hin].
  apply list_elem_of_singleton in Hin as [= <- <- <-]. cbn [hr_lines] in Eh.
  apply headers_collected in Eh; [|constructor|done]. rewrite dict_abs_nil in Eh.
  assert (Hl : dict_get_list headers "Retry-After" = None).
  { rewrite <- dict_abs_lookup, Eh. clear -Hno. assert (H0 : (∅ : gmap string (list string)) !! "Retry-After" = None) by done.
    revert H0. generalize (∅ : gmap string (list string)). induction Hno as [|p hs Hp _ IH]; intros m Hm; [done|]. cbn. apply IH.
    unfold map_set. by rewrite lookup_insert_ne. }
  unfold replied. by rewrite dict_value_list, Hl.
Qed.
End Headers.

(** A time of 2^31 seconds or more is no time at all for the main loop, which then polls without a pause. *)
Theorem long_retry_polls_at_once (n : Z) (h : server_general_t) :
  2 ^ 31 <= n <= 2 ^ 32 -> i32 (g_polling_interval (server_set_polling_interval (print_d n) h)) <= 0.
Proof.
  intros Hn. unfold server_set_polling_interval. rewrite strtoul_print_d by (unfold ULONG_MAX; lia).
  rewrite (proj2 (Z.eqb_neq n 0)) by lia. cbn [g_polling_interval set_polling]. unfold i32, u32, swrap, wrap.
  assert (n = 2 ^ 32 \/ 2 ^ 31 <= n < 2 ^ 32) as [->|H] by lia; [done|]. rewrite (Z.mod_small n) by lia.
  change (32 - 1) with 31. replace (n + 2 ^ 31) with ((n - 2 ^ 31) + 1 * 2 ^ 32) by lia. rewrite Z.mod_add, Z.mod_small by lia. lia.
Qed.

(** ** What is reported *)

Section Report.
Context {W C : Type} (b : backend http_reply W).
Abbreviation M := (op server_general_t http_reply W).
Hypothesis memory : forall w, (b_alloc b w).1 = true.
Context (url : string) (fmtevents identify : dict).

(** The line for a format at some time. *)
Definition log_line (w : W) (fmt : string) : string := csv (log_field (Some (b_date b w).1) identify <$> strtok_all fmt ",").

(** The lines fit into the buffer. *)
Hypothesis fits : forall w event fmt, dict_get_value fmtevents event = Some fmt -> strlen (log_line w fmt) < MAX_LOG_SIZE.

(** The event that a message is, behind a message with [status]. *)
Definition event_of (status msg : RECOVERY_STATUS) : option string :=
  match msg with
  | SUCCESS => Some "success"
  | FAILURE => Some "fail"
  | _ => if bool_decide (status = IDLE) && negb (bool_decide (msg = IDLE)) then Some "started" else None
  end.

(** The formats of the events, in order; events without a format are left out. *)
Fixpoint report_formats (status : RECOVERY_STATUS) (msgs : list RECOVERY_STATUS) : list string :=
  match msgs with
  | [] => []
  | msg :: msgs =>
      match event_of status msg ≫= dict_get_value fmtevents with Some fmt => [fmt] | None => [] end ++ report_formats msg msgs
  end.

(** One request per line. *)
Definition reported (fmt : string) (e : event http_reply) : Prop :=
  exists w res, e = EvPut CHANNEL_PUT url (log_line w fmt) res.

Lemma format_log_runs event s r s' t :
  server_format_log b event fmtevents identify s = (r, s', t) ->
  t = [] /\ match dict_get_value fmtevents event with Some fmt => exists w, r = Log (log_line w fmt) | None => r = NoLog end.
Proof.
  intros E. unfold server_format_log in E. destruct (dict_get_value fmtevents event) as [fmt|] eqn:Ef;
    [|apply ret_inv in E as (-> & _ & ->); done].
  apply bind_inv in E as (ok & s1 & t1 & u1 & E1 & E & ->). apply (alloc_memory b memory) in E1 as (-> & _ & ->). cbn [negb] in E.
  apply bind_inv in E as (text & s2 & t2 & u2 & E2 & E & ->).
  assert (text = (b_date b s1.2).1 /\ t2 = []) as [-> ->].
  { unfold date, ask in E2. destruct (b_date b s1.2) as [a w]. by injection E2 as <- <- <-. }
  apply bind_inv in E as (fdate & s3 & t3 & u3 & E3 & E & ->). apply (asprintf_memory b memory) in E3 as (-> & _ & ->).
  apply ret_inv in E as (-> & _ & ->). split; [done|]. exists s1.2. by rewrite (log_fields_fit _ (fits s1.2 event fmt Ef)).
Qed.

Lemma progress_message_runs status msg s r s' t :
  progress_message b url fmtevents identify status msg s = (r, s', t) ->
  r = Running msg /\ match event_of status msg ≫= dict_get_value fmtevents with
                     | Some fmt => exists e, t = [e] /\ reported fmt e
                     | None => t = []
                     end.
Proof.
  intros E. unfold progress_message in E. apply bind_inv in E as (started & s1 & t1 & u1 & E1 & E & ->).
  assert (H1 : t1 = [] /\ match (if bool_decide (status = IDLE) && negb (bool_decide (msg = IDLE)) then Some "started" else None)
      ≫= dict_get_value fmtevents with Some fmt => exists w, started = Log (log_line w fmt) | None => started = NoLog end).
  { destruct (bool_decide (status = IDLE) && negb (bool_decide (msg = IDLE)));
      [by apply format_log_runs in E1|by apply ret_inv in E1 as (-> & _ & ->)]. }
  destruct H1 as [-> H1].
  assert (E' : exists logbuffer s2 t2 u2, u1 = t2 ++ u2 /\ t2 = [] /\
      match event_of status msg ≫= dict_get_value fmtevents with
      | Some fmt => exists w, logbuffer = Log (log_line w fmt) | None => logbuffer = NoLog end /\
      match logbuffer with
      | Overrun => ret Overran
      | Log log => http_put b CHANNEL_PUT url log ;; ret (Running msg)
      | NoLog => ret (Running msg)
      end s2 = (r, s', u2)).
  { destruct started as [|log|]; [| |by destruct (_ ≫= dict_get_value fmtevents) as [fmt|]; [destruct H1|]];
      apply bind_inv in E as (l & s2 & t2 & u2 & E2 & E & ->); exists l, s2, t2, u2;
      (split; [done|]); destruct msg; cbn [event_of];
      first [apply format_log_runs in E2 as [-> E2]; done | apply ret_inv in E2 as (-> & _ & ->); done]. }
  destruct E' as (l & s2 & t2 & u2 & -> & -> & Hl & E'). destruct (event_of status msg ≫= dict_get_value fmtevents) as [fmt|].
  - destruct Hl as [w ->]. apply bind_inv in E' as (res & s3 & t3 & u3 & E3 & E' & ->). apply ask_inv in E3 as [_ ->].
    apply ret_inv in E' as (-> & _ & ->). split; [done|]. eexists. split; [done|]. by exists w, res.
  - subst l. apply ret_inv in E' as (-> & _ & ->). done.
Qed.

(** The server gets exactly one line for every start, success and failure of an update that has a format, in this order, and the line
    is the list of its fields, each of them the date, the attribute of the device with this name, or the field itself. *)
Theorem general_progress_reported (msgs : list RECOVERY_STATUS) (status : RECOVERY_STATUS) (s s' : server_general_t * W) r t :
  progress_loop b url fmtevents identify msgs status s = (r, s', t) ->
  (exists last, r = Running last) /\ Forall2 reported (report_formats status msgs) t.
Proof.
  revert status s t. induction msgs as [|msg msgs IH]; intros status s t E; cbn [progress_loop] in E.
  { apply ret_inv in E as (-> & _ & ->). split; [by eexists|constructor]. }
  apply bind_inv in E as (r1 & s1 & t1 & u1 & E1 & E & ->). apply progress_message_runs in E1 as [-> H1].
  apply IH in E as [Hr Hu]. split; [done|]. cbn [report_formats]. apply Forall2_app; [|done].
  destruct (event_of status msg ≫= dict_get_value fmtevents) as [fmt|]; [destruct H1 as (e & -> & He)|subst t1]; by repeat constructor.
Qed.
End Report.

(** ** Flaws *)

(** The cached file is named to every later installation too: nothing ever releases it. *)
Theorem cached_file_reused {W C} (b : backend http_reply W) (hl : hash_lib C) (ssl : bool) (s s1 s' : server_general_t * W) r r' t t' f w :
  g_cached_file s.1 = Some f -> server_install_update b hl ssl s = (r, s1, t) ->
  server_install_update b hl ssl (s1.1, w) = (r', s', t') ->
  forall url info token cached, EvDownload url info token cached ∈ t' -> cached = Some f.
Proof.
  intros Hf E1 E2 url info token cached Hin. apply general_install_runs in E1 as [Hs1 _]. apply general_install_runs in E2 as [_ E2].
  cbn [fst] in E2. rewrite Hs1, Hf in E2. destruct (g_redirect s.1); [|destruct E2 as [_ ->]; by apply not_elem_of_nil in Hin].
  destruct E2 as (sent & res & hash & st & p & -> & Hp & _).
  apply elem_of_cons in Hin as [[= _ _ _ ->]|Hin]; [done|]. do 2 (apply elem_of_cons in Hin as [Hin|Hin]; [done|]).
  by apply (proj1 (Forall_forall _ _) Hp) in Hin.
Qed.

(** The option for the speed of a download has no argument in its short form: a NULL pointer is followed. *)
Theorem speed_option_crashes {W} (b : backend http_reply W) (next : option string) s :
  (server_option b (mk_getopt "n" None next) s).1.1 = Crash.
Proof. reflexivity. Qed.

(** ** Examples *)

Definition unreserved (c : ascii) : bool := isdigit c || isupper c || islower c || str_mem c "-._~".

Definition nibble (n : Z) : ascii := default "0"%char (String.get (Z.to_nat n) codetab).
Definition escape_char (c : ascii) : string :=
  if unreserved c then String c "" else String "%" (String (nibble (byte_of c / 16)) (String (nibble (byte_of c mod 16)) "")).
Fixpoint toy_escape (s : string) : string := match s with EmptyString => "" | String c s => escape_char c +:+ toy_escape s end.

Definition nibble_value (c : ascii) : Z := default 0 (code_index codetab c 0).
Fixpoint toy_unescape (s : string) : string :=
  match s with
  | String c (String h (String l rest) as r) =>
      if Ascii.eqb c "%" then String (ascii_of_Z (16 * nibble_value h + nibble_value l)) (toy_unescape rest)
      else String c (toy_unescape r)
  | String c r => String c (toy_unescape r)
  | EmptyString => ""
  end.

Lemma unescape_char c s : toy_unescape (escape_char c +:+ s) = String c (toy_unescape s).
Proof. destruct c as [[][][][][][][][]]; first [reflexivity | by destruct s as [|? []]]. Qed.

#[export] Instance toy_curl : CurlEscape toy_escape toy_unescape.
Proof.
  split.
  - induction s as [|c s IH]; [done|]. cbn [toy_escape]. rewrite str_forall_app, IH, andb_true_r.
    by destruct c as [[][][][][][][][]].
  - induction s as [|c s IH]; [done|]. cbn [toy_escape]. by rewrite unescape_char, IH.
Qed.

(** The answers to the queries, in order. *)
Definition general_world : Type := list (channel_op_res_t * option http_reply).

Definition general_backend (state : Z) : backend http_reply general_world := {|
  b_alloc w := (true, w);
  b_time w := (1000, w);
  b_date w := ("2026-01-01T12:00:00.000+0000", w);
  b_get url w := match w with a :: l => (a, l) | [] => ((CHANNEL_ENONET, None), w) end;
  b_put m url body w := (CHANNEL_OK, w);
  b_open w := (Some CHANNEL_OK, w);
  b_net url w := ((toy_net toy_file 1 None true, mk_sink [] []), w);
  b_wait w := ([Some (mk_ipc_status RUN FAILURE "[INFO] running"); Some (mk_ipc_status IDLE SUCCESS "")], w);
  b_postupdate w := (Some true, w);
  b_get_state w := (state, w);
  b_save_state v w := (0, w);
  b_vars_get name w := (None, w);
  b_vars_set name v w := (0, w);
  b_dwl_url f u w := (0, w);
|}.

Definition sample_dict : dict := [mk_dict_entry "fw" ["1.0 & more"]; mk_dict_entry "serial" ["17"]].

(** A connector before its start, and one that polls. *)
Definition general_init : server_general_t := mk_server_general "" None 30 None [] [] default_options None 0.
Definition sample_general : server_general_t :=
  mk_server_general "https://server/poll" (Some "https://server/log") 30 (Some "/tmp/cache") sample_dict [] default_options None URL_BIT.

Lemma query_roundtrip_witness :
  (server_prepare_query (general_backend STATE_OK) toy_escape "https://server/poll" sample_dict (sample_general, [])).1.1 =
    Some "https://server/poll?fw=1.0%20%26%20more&serial=17" /\
  parse_query toy_unescape "https://server/poll?fw=1.0%20%26%20more&serial=17" =
    ("https://server/poll", [("fw", "1.0 & more"); ("serial", "17")]).
Proof.
  assert (E : (server_prepare_query (general_backend STATE_OK) toy_escape "https://server/poll" sample_dict (sample_general, [])).1.1 =
    Some "https://server/poll?fw=1.0%20%26%20more&serial=17") by (vm_compute; reflexivity).
  split; [exact E|]. destruct (server_prepare_query _ _ _ _ _) as [[r s'] t] eqn:Eq. cbn [fst] in E. subst r.
  enough (H : Some (parse_query toy_unescape "https://server/poll?fw=1.0%20%26%20more&serial=17") =
    Some ("https://server/poll", [("fw", "1.0 & more"); ("serial", "17")])) by exact (f_equal (default ("", [])) H).
  refine (query_roundtrip (general_backend STATE_OK) toy_escape toy_unescape (fun _ => eq_refl) _ sample_dict _ _ _ _ _ _ _ Eq);
    repeat constructor; discriminate.
Defined.

Definition redirect_reply : channel_op_res_t * option http_reply :=
  (CHANNEL_EREDIRECT, Some (mk_http_reply (header_line <$> [("Server", "x"); ("Retry-After", "600")]) (Some "https://server/image.swu"))).

Abbreviation general_poll :=
  (poll_turn (server_general_funcs (general_backend STATE_OK) toy_hash_lib true toy_escape) [] 0 (mk_suricatta true false)
    (sample_general, [redirect_reply])).

Lemma general_download_authorised_witness :
  general_poll.2 !! 2%nat = Some (EvDownload "https://server/image.swu" "" false (Some "/tmp/cache")) /\
  g_polling_interval general_poll.1.2.1 = 600 /\
  exists reply, redirected reply sample_general = Some "https://server/image.swu".
Proof.
  assert (H1 : general_poll.2 !! 2%nat = Some (EvDownload "https://server/image.swu" "" false (Some "/tmp/cache")))
    by (vm_compute; reflexivity).
  split; [exact H1|]. split; [vm_compute; reflexivity|]. destruct general_poll as [[r s'] t] eqn:E. cbn [snd] in H1.
  destruct (general_download_authorised (general_backend STATE_OK) toy_hash_lib true toy_escape [] 0 (mk_suricatta true false)
    (sample_general, [redirect_reply]) _ _ _ _ _ _ _ E (list_elem_of_lookup_2 _ _ _ H1)) as (_ & state & q & w & s1 & reply & v & _ & _ & Hr & _).
  by exists reply.
Defined.

Definition sample_formats : dict := [mk_dict_entry "success" ["#13,fw,serial"]; mk_dict_entry "started" ["#12,date,hw"]].

Lemma general_progress_reported_witness :
  (progress_loop (general_backend STATE_OK) "https://server/log" sample_formats sample_dict [START; RUN; SUCCESS; IDLE; START; FAILURE] IDLE
    (sample_general, [])).2 =
    [EvPut CHANNEL_PUT "https://server/log" "#12,2026-01-01T12:00:00.000+0000,hw" CHANNEL_OK;
     EvPut CHANNEL_PUT "https://server/log" "#13,1.0 & more,17" CHANNEL_OK;
     EvPut CHANNEL_PUT "https://server/log" "#12,2026-01-01T12:00:00.000+0000,hw" CHANNEL_OK] /\
  exists t, Forall2 (reported (general_backend STATE_OK) "https://server/log" sample_dict) ["#12,date,hw"; "#13,fw,serial"; "#12,date,hw"] t.
Proof.
  split; [vm_compute; reflexivity|]. destruct (progress_loop (general_backend STATE_OK) "https://server/log" sample_formats sample_dict
    [START; RUN; SUCCESS; IDLE; START; FAILURE] IDLE (sample_general, [])) as [[r s'] t] eqn:E.
  exists t. refine (proj2 (general_progress_reported (general_backend STATE_OK) (fun _ => eq_refl) _ sample_formats sample_dict _ _ _ _ _ _ _ E)).
  intros w event fmt. unfold dict_get_value, sample_formats. cbn [get_entry entry_key].
  destruct (strcmp event "success" =? 0); [intros [= <-]; vm_compute; reflexivity|].
  destruct (strcmp event "started" =? 0); [intros [= <-]; vm_compute; reflexivity|done].
Defined.

(** The spelling of the documentation is another header. *)
Definition documented_reply : channel_op_res_t * option http_reply :=
  (CHANNEL_EACCES, Some (mk_http_reply (header_line <$> [("Retry-after", "600")]) None)).

Abbreviation general_info replies := (server_get_deployment_info (general_backend STATE_OK) toy_escape (sample_general, replies)).

Lemma retry_after_obeyed_witness : g_polling_interval (general_info [redirect_reply]).1.2.1 = 600.
Proof.
  assert (Hl : (general_info [redirect_reply]).2 !! 0%nat =
    Some (EvGet "https://server/poll?fw=1.0%20%26%20more&serial=17" redirect_reply.1 redirect_reply.2)) by (vm_compute; reflexivity).
  destruct (general_info [redirect_reply]) as [[r s'] t] eqn:E. cbn [fst snd] in *.
  refine (retry_after_obeyed (general_backend STATE_OK) toy_escape (fun _ => eq_refl) [("Server", "x"); ("Retry-After", "600")] 600
    _ _ _ _ _ _ _ _ _ _ E (list_elem_of_lookup_2 _ _ _ Hl)); [by repeat constructor|reflexivity|lia].
Defined.

Lemma other_headers_ignored_witness : g_polling_interval (general_info [documented_reply]).1.2.1 = 30.
Proof.
  assert (Hl : (general_info [documented_reply]).2 !! 0%nat =
    Some (EvGet "https://server/poll?fw=1.0%20%26%20more&serial=17" documented_reply.1 documented_reply.2)) by (vm_compute; reflexivity).
  destruct (general_info [documented_reply]) as [[r s'] t] eqn:E. cbn [fst snd] in *.
  refine (other_headers_ignored (general_backend STATE_OK) toy_escape (fun _ => eq_refl) [("Retry-after", "600")]
    _ _ _ _ _ _ _ _ _ E (list_elem_of_lookup_2 _ _ _ Hl)); by repeat constructor.
Defined.

Lemma long_retry_polls_at_once_witness :
  i32 (g_polling_interval (server_set_polling_interval (print_d (2 ^ 32)) sample_general)) <= 0.
Proof. apply (long_retry_polls_at_once (2 ^ 32)). lia. Defined.

Abbreviation general_install h := (server_install_update (general_backend STATE_OK) toy_hash_lib true (h, [])).

Lemma cached_file_reused_witness :
  forall url info token cached,
    EvDownload url info token cached ∈ (general_install (general_install (set_redirect sample_general (Some "u"))).1.2.1).2 ->
    cached = Some "/tmp/cache".
Proof.
  destruct (general_install (set_redirect sample_general (Some "u"))) as [[r s1] t] eqn:E1. cbn [fst snd].
  destruct (general_install s1.1) as [[r' s'] t'] eqn:E2. cbn [snd].
  exact (cached_file_reused (general_backend STATE_OK) toy_hash_lib true (set_redirect sample_general (Some "u"), []) s1 s' _ _ _ _ _ []
    eq_refl E1 E2).
Defined.

(** A format and an attribute of allowed length whose line is longer than the buffer. *)
Definition long_value : string := "xxxxxxxxxxxxxxxxxxxxxxxxxxxxxxxxxxxxxxxxxxxxxxxxxxxxxxxxxxxxxxxxxxxxxxxxxxxxxxx".

Theorem log_overruns :
  strlen long_value = 79 /\
  (server_format_log (general_backend STATE_OK) "started" [mk_dict_entry "started" ["a,a,a,a,a,a,a,a,a,a,a,a,a,a"]]
    [mk_dict_entry "a" [long_value]] (sample_general, [])).1.1 = Overrun.
Proof. split; vm_compute; reflexivity. Qed.

(** An attribute that is empty loses its column when it is the first one. *)
Theorem first_column_lost :
  (server_format_log (general_backend STATE_OK) "started" [mk_dict_entry "started" ["hw,fw"]]
    [mk_dict_entry "hw" [""]; mk_dict_entry "fw" ["1.0"]] (sample_general, [])).1.1 = Log "1.0".
Proof. vm_compute. reflexivity. Qed.

(** The start from the configuration; the number of retries of the command line keeps its last eight bits. *)
Theorem general_start_example :
  let '(r, s, t) := server_start (general_backend STATE_OK) cnode_libconfig "" mem_ok false "" "" (Some sample_settings)
    [mk_getopt "r" (Some "256") None; mk_getopt "2" (Some "/tmp/cache") None] false true (general_init, []) in
  r = Some SERVER_OK /\ t = [EvOpen (Some CHANNEL_OK); EvThread 0] /\ g_url s.1 = "https://server/poll" /\
  g_polling_interval s.1 = 60 /\ co_retries (g_options s.1) = 0 /\ query_pairs (g_configdata s.1) = [("serial", "18"); ("fw", "1.0")] /\
  (server_progress_thread (general_backend STATE_OK) cnode_libconfig "" mem_ok "" "" (Some sample_settings) [START; SUCCESS] s).2 =
    [EvOpen (Some CHANNEL_OK);
     EvPut CHANNEL_PUT "https://server/log" "#12,2026-01-01T12:00:00.000+0000,1.0,hw" CHANNEL_OK;
     EvPut CHANNEL_PUT "https://server/log" "#13,1.0,18" CHANNEL_OK].
Proof. vm_compute. repeat split. Qed.
