(* ===== verification/Downloader.v ===== *)
(** * The download of one file: [corelib/downloader.c]

    A process of its own downloads an update into the installer: once, when a URL is configured or given at the command line, or
    whenever a message names one. It is written with the operations of [Backend]; the options come from [Settings]. *)
From S2P Require Import Prelude CString Util Dict State Crypto Cpio Copyfile Parselib Settings Stream Channel Backend.

(** What [downloader.c] sets of its static [channel_data_t]. *)
Record downloader := mk_downloader {
  dl_url : option string;
  dl_auth : option string;
  dl_low_speed_timeout : Z;
  dl_options : channel_options;
}.

Definition DL_LOWSPEED_TIME : Z := 300.
Definition DL_DEFAULT_RETRIES : Z := 3.
Definition CHANNEL_DEFAULT_RESUME_DELAY : Z := 5.

(** [channel_options]: what is not named there is zero. *)
Definition downloader_init : downloader :=
  mk_downloader None None DL_LOWSPEED_TIME
    (mk_channel_options DL_DEFAULT_RETRIES 0 CHANNEL_DEFAULT_RESUME_DELAY false None None None None None None None None None).

(** A message to the process: one that is too short, [CMD_SET_DOWNLOAD_URL] with its parsed text, or another command. *)
Inductive download_cmd (J : Type) := ShortMessage | SetDownloadUrl (json_root : option J) | OtherCommand.
Arguments ShortMessage {J}. Arguments SetDownloadUrl {J}. Arguments OtherCommand {J}.

(** The answer to a message ([true]: [ACK]), if there is one, and the result. *)
Record download_answer := mk_download_answer {
  da_ack : option bool;
  da_result : server_op_res_t;
}.

(** The start: an error, the end of the process, or the loop that waits for messages. *)
Inductive download_start := Rejected (ret : Z) | Exit (success : bool) | Listening.

(** An option as [getopt_long] returns it. All of them have an argument, or the character is a question mark. *)
Record dl_getopt := mk_dl_getopt {
  dg_choice : ascii;
  dg_arg : string;
}.

Section Downloader.
Context {J W C : Type} (jc : json_c J) (b : backend J W) (hl : hash_lib C).
Abbreviation M := (op downloader J W).

(** [None] when there is no channel: a NULL pointer is followed. The download is logged with the fact that credentials are sent. There is
    no callback for the data. *)
Definition download_from_url : M (option RECOVERY_STATUS) :=
  ch <- channel_open b ;;
  match ch with
  | None => ret None
  | Some CHANNEL_OK =>
      h <- get ;;
      r <- get_file b hl false (co_retries (dl_options h)) (default "" (dl_url h)) "" (bool_decide (is_Some (dl_auth h))) None
             (fun block => ret (length block)) ;;
      w <- wait_for_complete b ;;
      let result := if is_ok r.1 then (if bool_decide (w.1 = SUCCESS) then SUCCESS else FAILURE) else FAILURE in
      match result with
      | FAILURE => ret (Some FAILURE)
      | _ => p <- finish_update b ;; ret (Some (match p with Some true => SUCCESS | _ => FAILURE end))
      end
  | Some _ => ret (Some FAILURE)
  end.

Definition set_request (url auth : option string) (h : downloader) : downloader :=
  mk_downloader url auth (dl_low_speed_timeout h) (dl_options h).

(** The text of a member of the message; a member that is there has one. *)
Definition msg_member (json_root : option J) (key : string) : option string :=
  match json_get_path_key jc json_root [key] with
  | Some j => Some (default "" (json_object_get_string jc (Some j)))
  | None => None
  end.

(** [None]: a NULL pointer is followed. *)
Definition download_server_ipc (msg : download_cmd J) : M (option download_answer) :=
  match msg with
  | ShortMessage => ret (Some (mk_download_answer None SERVER_EERR))
  | OtherCommand | SetDownloadUrl None => ret (Some (mk_download_answer (Some false) SERVER_EERR))
  | SetDownloadUrl json_root =>
      match msg_member json_root "url" with
      | None => ret (Some (mk_download_answer (Some false) SERVER_EERR))
      | Some url =>
          modify (fun h => set_request (Some url)
            (match msg_member json_root "userpassword" with Some auth => Some auth | None => dl_auth h end) h) ;;
          r <- download_from_url ;;
          modify (set_request None None) ;;
          ret ((fun st => mk_download_answer (Some true) (if bool_decide (st = SUCCESS) then SERVER_OK else SERVER_EERR)) <$> r)
      end
  end.

Fixpoint serve_messages (msgs : list (download_cmd J)) : M (option (list download_answer)) :=
  match msgs with
  | [] => ret (Some [])
  | msg :: msgs =>
      a <- download_server_ipc msg ;;
      match a with
      | None => ret None
      | Some a => l <- serve_messages msgs ;; ret (cons a <$> l)
      end
  end.

Section Start.
Context {R S : Type} (lc : libconfig R S) (behind : string).
Abbreviation lib := (libconfig_lib lc).

(** The callback gets the static variable as its data. *)
Definition download_settings (tmp_bool : bool) (elem : S) (opt : downloader) : downloader :=
  let text field := get_field_string_with_size lib behind elem (Some field) SWUPDATE_GENERAL_STRING_SIZE "" in
  let o := dl_options opt in
  let retries := u32 (get_field_int lib elem (Some "retries") (i32 (co_retries o))) in
  mk_downloader
    (if strlen (text "url") =? 0 then dl_url opt else Some (text "url"))
    (if strlen (text "authentication") =? 0 then None else Some (text "authentication"))
    (u32 (get_field_int lib elem (Some "timeout") (i32 (dl_low_speed_timeout opt))))
    (channel_settings lc behind tmp_bool elem
      (mk_channel_options retries (co_max_download_speed o) (co_retry_sleep o) (co_strictssl o) (co_cafile o)
        (co_sslkey o) (co_sslkeypassword o) (co_ciphers o) (co_sslcert o) (co_proxy o) (co_iface o) (co_api_key_header o) (co_api_key o))).

(** The numbers of [channel_options] that an option sets. *)
Definition set_numbers (o : channel_options) (retries speed sleep : Z) : channel_options :=
  mk_channel_options retries speed sleep (co_strictssl o) (co_cafile o) (co_sslkey o) (co_sslkeypassword o) (co_ciphers o)
    (co_sslcert o) (co_proxy o) (co_iface o) (co_api_key_header o) (co_api_key o).

(** The options, one after the other; an error ends the function. *)
Fixpoint download_options (opts : list dl_getopt) (h : downloader) : Z * downloader :=
  match opts with
  | [] => (0, h)
  | o :: opts =>
      let arg := dg_arg o in
      let c := dl_options h in
      let with_options c := mk_downloader (dl_url h) (dl_auth h) (dl_low_speed_timeout h) c in
      match dg_choice o with
      | "t"%char => download_options opts (mk_downloader (dl_url h) (dl_auth h) (u32 (strtoul arg 10)) c)
      | "w"%char => download_options opts (with_options (set_numbers c (co_retries c) (co_max_download_speed c) (u32 (strtoul arg 10))))
      | "u"%char => download_options opts (set_request (Some arg) (dl_auth h) h)
      | "a"%char => download_options opts (set_request (dl_url h) (Some arg) h)
      | "r"%char => download_options opts (with_options (set_numbers c (u32 (strtoul arg 10)) (co_max_download_speed c) (co_retry_sleep c)))
      | "n"%char =>
          let '(v, _, errno) := ustrtoull arg 10 in
          let h := with_options (set_numbers c (co_retries c) (u32 v) (co_retry_sleep c)) in
          if errno =? 0 then download_options opts h else (-1, h)
      | _ => (- EINVAL, h)
      end
  end.

(** [cfg] is the configuration when the file can be read, [unused] tells that arguments are left. *)
Definition start_download_server (tmp_bool : bool) (cfg : option R) (opts : list dl_getopt) (unused : bool) : M (option download_start) :=
  modify (fun h => match cfg with
    | Some cfg => (read_module_settings lc (Some cfg) "download" (Some (download_settings tmp_bool)) h).2
    | None => h
    end) ;;
  h <- get ;;
  let '(r, h) := download_options opts h in
  modify (fun _ => h) ;;
  if negb (r =? 0) then ret (Some (Rejected r))
  else if unused then ret (Some (Rejected (- EINVAL)))
  else
    match dl_url h with
    | None => ret (Some Listening)
    | Some _ =>
        r <- download_from_url ;;
        ret ((fun st => Exit (bool_decide (st = SUCCESS))) <$> r)
    end.
End Start.

(** * Properties *)

(** The log of a download that succeeds. *)
Definition installed_from (url : string) (auth : bool) (t : list (event J)) : Prop :=
  exists sent hash, t = [EvOpen (Some CHANNEL_OK); EvDownload url "" auth None; EvDownloaded sent CHANNEL_OK hash;
                         EvWait SUCCESS; EvPostUpdate (Some true)].

Lemma download_from_url_runs s r s' t :
  download_from_url s = (r, s', t) ->
  s'.1 = s.1 /\ (r = Some SUCCESS -> installed_from (default "" (dl_url s.1)) (bool_decide (is_Some (dl_auth s.1))) t) /\
  (forall url info token cached, EvDownload url info token cached ∈ t ->
    url = default "" (dl_url s.1) /\ token = bool_decide (is_Some (dl_auth s.1))).
Proof.
  intros E. unfold download_from_url in E. apply bind_inv in E as (ch & s1 & t1 & u1 & E1 & E & ->). apply ask_inv in E1 as [Hs1 ->].
  assert (Hnone : forall o, ret o s1 = (r, s', u1) -> o <> Some SUCCESS ->
    s'.1 = s.1 /\ (r = Some SUCCESS -> installed_from (default "" (dl_url s.1)) (bool_decide (is_Some (dl_auth s.1))) (EvOpen ch :: u1)) /\
    (forall url info token cached, EvDownload url info token cached ∈ EvOpen ch :: u1 ->
      url = default "" (dl_url s.1) /\ token = bool_decide (is_Some (dl_auth s.1)))).
  { intros o (-> & -> & ->)%ret_inv Ho. split_and!; [done|done|]. by intros * Hin%list_elem_of_singleton. }
  destruct ch as [[]|]; try (by eapply Hnone; [exact E|]). clear Hnone.
  apply bind_inv in E as (h & s2 & t2 & u2 & E2 & E & ->). apply get_inv in E2 as (-> & -> & ->). rewrite Hs1 in E.
  apply bind_inv in E as ([res hash] & s3 & t3 & u3 & E3 & E & ->).
  assert (Hs3 : s3.1 = s.1).
  { rewrite <- Hs1. symmetry. refine (keeps_run eq _ _ _ _ _ _ E3). apply keeps_get_file; [apply _|]. intros ?. keeps_tac. }
  apply (get_file_runs (fun _ => False)) in E3 as (u & sent & -> & Hu); [|intros ?; emits_tac]. destruct Hu; [|done].
  apply bind_inv in E as ([st texts] & s4 & t4 & u4 & E4 & E & ->). unfold wait_for_complete in E4. apply ask_inv in E4 as [Hs4 ->].
  cbn [fst app] in *.
  assert (Hend : s'.1 = s.1 /\ (r = Some SUCCESS -> res = CHANNEL_OK /\ st = SUCCESS /\ u4 = [EvPostUpdate (Some true)]) /\
    (u4 = [] \/ exists p, u4 = [EvPostUpdate p])).
  { destruct (is_ok res) eqn:Eok; [|apply ret_inv in E as (-> & -> & ->); split_and!; [congruence|done|by left]].
    apply is_ok_eq in Eok as ->. destruct (bool_decide_reflect (st = SUCCESS)) as [->|Hst];
      [|apply ret_inv in E as (-> & -> & ->); split_and!; [congruence|done|by left]].
    apply bind_inv in E as (p & s5 & t5 & u5 & E5 & E & ->). apply ask_inv in E5 as [Hs5 ->]. apply ret_inv in E as (-> & -> & ->).
    split_and!; [congruence| |right; by exists p]. intros Hr. by destruct p as [[]|]. }
  destruct Hend as (Hs & Hok & Hu4). split_and!; [done| |].
  - intros Hr. destruct (Hok Hr) as (-> & -> & ->). by exists sent, hash.
  - intros url info token cached Hin. do 2 (apply elem_of_cons in Hin as [Hin|Hin]; [by simplify_eq|]).
    do 2 (apply elem_of_cons in Hin as [Hin|Hin]; [done|]).
    destruct Hu4 as [->|[p ->]]; [by apply not_elem_of_nil in Hin|by apply list_elem_of_singleton in Hin].
Qed.

(** C19: a message is reported as done only when it names a URL, the download of that file succeeded, the installer ended with success
    and the post-update command was accepted; credentials are sent if the message or the configuration has some. *)
Theorem download_message_done (msg : download_cmd J) (s s' : downloader * W) a t :
  download_server_ipc msg s = (Some a, s', t) -> da_result a = SERVER_OK ->
  exists json_root url, msg = SetDownloadUrl (Some json_root) /\ msg_member (Some json_root) "url" = Some url /\ da_ack a = Some true /\
    installed_from url (bool_decide (is_Some (msg_member (Some json_root) "userpassword")) || bool_decide (is_Some (dl_auth s.1))) t.
Proof.
  intros E Ha. destruct msg as [|[root|]|]; cbn [download_server_ipc] in E; try (by apply ret_inv in E as ([= ->] & _)).
  destruct (msg_member (Some root) "url") as [url|] eqn:Eu; [|by apply ret_inv in E as ([= ->] & _)].
  apply bind_inv in E as ([] & s1 & t1 & u1 & E1 & E & ->). apply modify_inv in E1 as [-> ->].
  apply bind_inv in E as (r & s2 & t2 & u2 & E2 & E & ->). apply bind_inv in E as ([] & s3 & t3 & u3 & E3 & E & ->).
  apply modify_inv in E3 as [-> ->]. apply ret_inv in E as (Er & _ & ->). destruct r as [st|]; [|done]. injection Er as ->.
  cbn [da_result] in Ha. destruct (bool_decide_reflect (st = SUCCESS)) as [->|]; [|done].
  apply download_from_url_runs in E2 as (_ & Hi & _). specialize (Hi eq_refl). cbn [fst dl_url dl_auth set_request] in Hi.
  exists root, url. split_and!; [done|done|done|]. rewrite app_nil_r. cbn [app default] in *.
  by destruct (msg_member (Some root) "userpassword").
Qed.

(** The configured credentials are used for the first message only: a later one without its own is served without any. *)
Theorem credentials_used_once (msg : download_cmd J) (root : J) (s s1 s' : downloader * W) w a a' t t' url :
  download_server_ipc msg s = (Some a, s1, t) -> da_ack a = Some true ->
  msg_member (Some root) "userpassword" = None ->
  download_server_ipc (SetDownloadUrl (Some root)) (s1.1, w) = (a', s', t') ->
  forall info token cached, EvDownload url info token cached ∈ t' -> token = false.
Proof.
  intros E1 Ha Hp E2 info token cached Hin.
  assert (Hs1 : dl_auth s1.1 = None).
  { destruct msg as [|[r1|]|]; cbn [download_server_ipc] in E1; try (by apply ret_inv in E1 as ([= ->] & _)).
    destruct (msg_member (Some r1) "url"); [|by apply ret_inv in E1 as ([= ->] & _)].
    do 2 (apply bind_inv in E1 as (? & ? & ? & ? & _ & E1 & ->)). apply bind_inv in E1 as ([] & ? & ? & ? & E3 & E1 & ->).
    apply modify_inv in E3 as [-> ->]. by apply ret_inv in E1 as (_ & -> & _). }
  cbn [download_server_ipc] in E2. destruct (msg_member (Some root) "url") as [u|].
  - apply bind_inv in E2 as ([] & s2 & t2 & u2 & E3 & E2 & ->). apply modify_inv in E3 as [-> ->].
    apply bind_inv in E2 as (r & s3 & t3 & u3 & E3 & E2 & ->). apply bind_inv in E2 as ([] & s4 & t4 & u4 & E4 & E2 & ->).
    apply modify_inv in E4 as [-> ->]. apply ret_inv in E2 as (_ & _ & ->). rewrite app_nil_r in Hin. cbn [app] in Hin.
    apply download_from_url_runs in E3 as (_ & _ & Hd). apply Hd in Hin as [_ ->]. cbn. by rewrite Hp, Hs1.
  - apply ret_inv in E2 as (_ & _ & ->). by apply not_elem_of_nil in Hin.
Qed.
End Downloader.

(** ** Examples *)

Definition url_message (l : list (string * json)) : download_cmd json := SetDownloadUrl (Some (JObj (("url", JStr "https://server/a.swu") :: l))).

Abbreviation toy_download msgs h :=
  (serve_messages toy_json (toy_backend (toy_net toy_file 1 None true) STATE_OK 0) toy_hash_lib msgs (h, mk_toy_world [] [])).

Abbreviation one_download msg h :=
  (download_server_ipc toy_json (toy_backend (toy_net toy_file 1 None true) STATE_OK 0) toy_hash_lib msg (h, mk_toy_world [] [])).

Definition with_auth : downloader := set_request None (Some "user:password") downloader_init.

Lemma download_message_done_witness :
  exists t, installed_from (J := json) "https://server/a.swu" true t /\ t = (one_download (url_message []) with_auth).2.
Proof.
  assert (Ha : (one_download (url_message []) with_auth).1.1 = Some (mk_download_answer (Some true) SERVER_OK)) by (vm_compute; reflexivity).
  destruct (one_download (url_message []) with_auth) as [[a s'] t] eqn:E. cbn [fst snd] in *. subst a. exists t. split; [|done].
  destruct (download_message_done toy_json (toy_backend (toy_net toy_file 1 None true) STATE_OK 0) toy_hash_lib (url_message [])
    (with_auth, mk_toy_world [] []) s' _ t E eq_refl) as (root & url & [= <-] & Hu & _ & H).
  injection Hu as <-. exact H.
Defined.

(** The second message is served without the configured credentials. *)
Theorem second_download_anonymous :
  omap (fun e => match e with EvDownload _ _ token _ => Some token | _ => None end) (toy_download [url_message []; url_message []] with_auth).2 =
    [true; false].
Proof. vm_compute. reflexivity. Qed.

(** Without a configuration file the certificate of the server is not verified: nothing sets the option that asks for it. *)
Theorem default_download_unverified (opts : list dl_getopt) :
  co_strictssl (dl_options (download_options opts downloader_init).2) = false.
Proof.
  assert (H : forall h, co_strictssl (dl_options h) = false -> co_strictssl (dl_options (download_options opts h).2) = false); [|by apply H].
  induction opts as [|[c arg] opts IH]; intros h Hh; cbn [download_options]; [done|].
  cbn [dg_choice dg_arg]. destruct (ustrtoull arg 10) as [[v e] errno].
  destruct c as [[][][][][][][][]]; try exact Hh; try (apply IH; exact Hh). destruct (errno =? 0); [apply IH|]; exact Hh.
Qed.
