(* ===== verification/RangeDownloader.v ===== *)
(** * The process that downloads ranges: [handlers/delta_downloader.c]

    The handler of delta updates ([Delta]) asks this process for the missing ranges of a file. It downloads them with a channel
    ([Channel]) and relays the headers and the data in messages of fixed size, with a checksum each. Here are its callbacks, the
    loop over the requests and its settings; what it relays is what the server has sent, and the handler accepts it. A range whose
    connection is lost is resumed with the wrong bytes. *)
From S2P Require Import Prelude CString Util Dict Parselib Settings Crypto Keys Cpio Memory Copyfile Zstd Multipart Ranges Delta Channel.

(** [dwl_transfer_t]: the socket and the message, which is used again and again. [dwl_blocks] counts the blocks of data. *)
Record dwl := mk_dwl {
  dwl_out : sink;
  dwl_answer : range_answer_t;
  dwl_blocks : nat;
}.

(** [dwl_priv_t]. *)
Record dwl_priv_t := mk_dwl_priv {
  targettoken : option string;
  gatewaytoken : option string;
}.

(** What libcurl asks the server for: the ranges of [CURLOPT_RANGE], or everything from an offset of the file on. *)
Inductive http_range := HttpRanges (range : string) | HttpFrom (offset : nat).

(** The channel sets [CURLOPT_RANGE] once, and [CURLOPT_RESUME_FROM_LARGE] to the number of bytes that have arrived before it
    tries again. A request has one header [Range], and in libcurl an offset other than 0 takes the place of the ranges. *)
Definition requested (range : string) (offset : nat) : http_range :=
  if (offset =? 0)%nat then HttpRanges range else HttpFrom offset.

(** What a request meets: whether the channel opens, the calls that set up the transfers, what the k-th transfer delivers of what is
    asked for, the code of the reply when its first block arrives, and the header lines that libcurl delivers in front of the n-th
    block, or behind the last one. *)
Record range_server := mk_range_server {
  rs_open : bool;
  rs_net : curl_net;
  rs_reply : http_range -> nat -> list bytes * CURLcode;
  rs_code : Z;
  rs_headers : nat -> list bytes;
}.

Definition range_net (range : string) (srv : range_server) : curl_net :=
  let net := rs_net srv in
  mk_curl_net (net_header net) (net_options net) (net_get net) (net_start net) (net_writer net) (net_cache net) (net_cache_mem net)
    (net_resume net) (fun k offset => rs_reply srv (requested range offset) k) (net_size net) (net_reply net).

Definition PAYLOAD : nat := Z.to_nat RANGE_PAYLOAD_SIZE.

(** One call of [write], which must take all bytes. *)
Definition write_once (w : sink) (buf : bytes) : bool * sink :=
  match plan w with
  | [] => (true, mk_sink (written w ++ buf) [])
  | WrSome n :: pl => ((length buf <=? n)%nat, mk_sink (written w ++ take n buf) pl)
  | _ :: pl => (false, mk_sink (written w) pl)
  end.

Section Downloader.
Context {C : Type} (hl : hash_lib C) (crc32 : bytes -> Z).

(** The loop of [wrdata_callback]: [nbytes] are left; the start of the buffer does not move. *)
Fixpoint wrdata_loop (id : Z) (fuel nbytes : nat) (buffer : bytes) (u : dwl) : bool * dwl :=
  match fuel with
  | O => (true, u)
  | S fuel =>
      if (nbytes =? 0)%nat then (true, u)
      else
        let len := Nat.min nbytes PAYLOAD in
        let data := take len buffer in
        let a := mk_answer id RANGE_DATA (Z.of_nat len) (u32 (crc32 data)) (put (a_data (dwl_answer u)) data) in
        let '(ret, out) := copy_write (dwl_out u) (encode_answer a) in
        let u := mk_dwl out a (dwl_blocks u) in
        if ret <? 0 then (false, u) else wrdata_loop id fuel (nbytes - len) buffer u
  end.

(** Every turn of the loop takes a byte at least. *)
Definition wrdata_callback (id code : Z) (buffer : bytes) (u : dwl) : nat * dwl :=
  if (length buffer =? 0)%nat then (0%nat, u)
  else if negb (code =? 206) then (0%nat, u)
  else
    let '(ok, u) := wrdata_loop id (length buffer) (length buffer) buffer u in
    if ok then (length buffer, u) else (0%nat, u).

(** The length is incremented before the terminator is stored, so that the byte behind the line keeps its old value. *)
Definition delta_callback_headers (id : Z) (buffer : bytes) (u : dwl) : bool * dwl :=
  let len := Nat.min (length buffer) (PAYLOAD - 2) in
  let data := put (a_data (dwl_answer u)) (take len buffer) in
  let a := mk_answer id RANGE_HEADERS (Z.of_nat (len + 1)) (a_crc (dwl_answer u)) (<[(len + 1)%nat := NUL]> data) in
  let '(ok, out) := write_once (dwl_out u) (encode_answer a) in
  (ok, mk_dwl out a (dwl_blocks u)).

Fixpoint header_lines (id : Z) (lines : list bytes) (u : dwl) : bool * dwl :=
  match lines with
  | [] => (true, u)
  | line :: lines => let '(ok, u) := delta_callback_headers id line u in if ok then header_lines id lines u else (false, u)
  end.

(** A block with the header lines in front of it; a callback that refuses ends the transfer. *)
Definition relay_block (id : Z) (srv : range_server) (block : bytes) (u : dwl) : nat * dwl :=
  let '(ok, u) := header_lines id (rs_headers srv (dwl_blocks u)) u in
  let u := mk_dwl (dwl_out u) (dwl_answer u) (S (dwl_blocks u)) in
  if ok then wrdata_callback id (rs_code srv) block u else (0%nat, u).

(** [open] and [get_file] of the channel. *)
Definition transfer (retries id : Z) (range : string) (srv : range_server) (u : dwl) : channel_op_res_t * dwl :=
  if negb (rs_open srv) then (CHANNEL_EINIT, u)
  else
    let cd := mk_channel_data true true retries None (Some (relay_block id srv)) in
    let '(result, _, d) := channel_get_file hl cd (range_net range srv) (mk_sink [] []) u in
    let '(ok, u) := header_lines id (rs_headers srv (dwl_blocks (dw_user d))) (dw_user d) in
    (if ok then result else CHANNEL_EIO, u).

(** The body of the loop for a request of which [ret] bytes were read: the type of the last message and whether it was sent; [None] for a
    request that is ignored. *)
Definition serve_range (retries : Z) (server : string -> range_server) (req : range_request_t) (ret : Z) (u : dwl)
    : option (Z * bool) * dwl :=
  if ret <? u64 (q_urllen req + q_rangelen req) then (None, u)
  else
    let url := cstring (q_data req) in
    let range := cstring (drop (Z.to_nat (q_urllen req + 1)) (q_data req)) in
    let u := mk_dwl (dwl_out u) (dwl_answer u) 0 in
    let '(result, u) := transfer retries (q_id req) range (server url) u in
    let a := dwl_answer u in
    let type := if is_ok result then RANGE_COMPLETED else RANGE_ERROR in
    let a := mk_answer (q_id req) type 0 (a_crc a) (a_data a) in
    let '(ok, out) := write_once (dwl_out u) (encode_answer a) in
    (Some (type, ok), mk_dwl out a (dwl_blocks u)).

(** The loop over what is read; an error ends the process. *)
Fixpoint request_loop (retries : Z) (server : nat -> string -> range_server) (n : nat) (reqs : list (range_request_t * Z)) (u : dwl)
    : dwl :=
  match reqs with
  | [] => u
  | (req, ret) :: reqs =>
      if ret <? 0 then u else request_loop retries server (S n) reqs (serve_range retries (server n) req ret u).2
  end.

Section Start.
Context {R S : Type} (lc : libconfig R S) (behind : string).

Definition delta_downloader_settings (elem : S) (data : dwl_priv_t) : dwl_priv_t :=
  mk_dwl_priv (set_field lc behind elem "targettoken" (targettoken data)) (set_field lc behind elem "gatewaytoken" (gatewaytoken data)).

(** [channel_settoken]: the header with a token, if there is memory for it. *)
Definition channel_settoken (mem : bool) (type : string) (token auth_token : option string) : option string :=
  match token with
  | None => auth_token
  | Some token => if mem then Some ("Authorization: " +:+ type +:+ " " +:+ token) else auth_token
  end.

(** The settings of [start_delta_downloader]: the options of the channel and the header with a token. *)
Definition downloader_settings (tmp_bool : bool) (mem1 mem2 : bool) (cfg : option R) (options : channel_options)
    : channel_options * option string :=
  let '(options, data) := match cfg with
    | Some cfg => ((read_module_settings lc (Some cfg) "delta" (Some (channel_settings lc behind tmp_bool)) options).2,
                   (read_module_settings lc (Some cfg) "delta" (Some delta_downloader_settings) (mk_dwl_priv None None)).2)
    | None => (options, mk_dwl_priv None None)
    end in
  (options, channel_settoken mem2 "GatewayToken" (gatewaytoken data)
              (channel_settoken mem1 "TargetToken" (targettoken data) None)).
End Start.

(** * Properties *)

(** A message that carries a header line or, with a right checksum, data. *)
Definition relayed (id : Z) (a : range_answer_t) : Prop :=
  a_id a = id /\ length (a_data a) = PAYLOAD /\ 0 <= a_len a <= RANGE_PAYLOAD_SIZE /\ 0 <= a_crc a < 2 ^ 32 /\
  (a_type a = RANGE_HEADERS \/ a_type a = RANGE_DATA /\ a_crc a = u32 (crc32 (answer_data a))).

(** The data of messages. *)
Definition relayed_data (msgs : list range_answer_t) : bytes :=
  concat ((fun a => if a_type a =? RANGE_DATA then answer_data a else []) <$> msgs).

(** The messages that were sent since [out0]; the message in memory has its size. *)
Definition sent_since (out0 : bytes) (id : Z) (msgs : list range_answer_t) (u : dwl) : Prop :=
  written (dwl_out u) = out0 ++ concat (encode_answer <$> msgs) /\ Forall (relayed id) msgs /\
  length (a_data (dwl_answer u)) = PAYLOAD /\ 0 <= a_crc (dwl_answer u) < 2 ^ 32.

Lemma relayed_data_app l1 l2 : relayed_data (l1 ++ l2) = relayed_data l1 ++ relayed_data l2.
Proof. unfold relayed_data. by rewrite fmap_app, concat_app. Qed.

Lemma sent_snoc out0 id msgs u a out n :
  sent_since out0 id msgs u -> relayed id a -> written out = written (dwl_out u) ++ encode_answer a ->
  sent_since out0 id (msgs ++ [a]) (mk_dwl out a n).
Proof.
  intros (Hw & Hm & _) Ha Ho. refine (conj _ (conj _ (conj _ _))); cbn [dwl_out dwl_answer].
  - rewrite Ho, Hw, fmap_app, concat_app, <- app_assoc. cbn [fmap list_fmap concat]. by rewrite app_nil_r.
  - by apply Forall_app; split; [|constructor].
  - by destruct Ha as (_ & ? & _).
  - by destruct Ha as (_ & _ & _ & ? & _).
Qed.

Lemma write_once_ok w buf out : write_once w buf = (true, out) -> written out = written w ++ buf.
Proof.
  unfold write_once. destruct (plan w) as [|[n| |] pl]; [by intros [= <-]|intros [= Hn <-]|done|done]. cbn.
  apply Nat.leb_le in Hn. by rewrite firstn_all2.
Qed.

Lemma copy_write_ok w buf ret out : copy_write w buf = (ret, out) -> (ret <? 0) = false -> written out = written w ++ buf.
Proof.
  unfold copy_write. pose proof (copy_write_loop_wrote (plan w) (written w) buf) as H. intros E Hr. rewrite E in H.
  destruct H as [[_ H]|[H _]]; [done|]. cbn in H. by subst ret.
Qed.

Lemma payload_size : Z.of_nat PAYLOAD = RANGE_PAYLOAD_SIZE /\ (2 <= PAYLOAD)%nat.
Proof. assert (Z.of_nat PAYLOAD = RANGE_PAYLOAD_SIZE) as E by (apply Z2Nat.id; done). split; [done|]. unfold RANGE_PAYLOAD_SIZE in E. lia. Qed.

(** A header line that was sent is one more message without data. *)
Lemma header_sent out0 id msgs line u u' :
  sent_since out0 id msgs u -> delta_callback_headers id line u = (true, u') ->
  exists a, sent_since out0 id (msgs ++ [a]) u' /\ a_type a = RANGE_HEADERS /\ dwl_blocks u' = dwl_blocks u.
Proof.
  intros Hs. unfold delta_callback_headers. set (a := mk_answer _ _ _ _ _). destruct (write_once _ _) as [ok out] eqn:E. intros [= -> <-].
  exists a. split; [|done]. eapply sent_snoc; [exact Hs| |by apply write_once_ok in E].
  destruct Hs as (_ & _ & Hl & Hc). pose proof payload_size as [Hz H2].
  unfold a. refine (conj eq_refl (conj _ (conj _ (conj Hc (or_introl eq_refl))))); cbn [a_data a_len]; [|lia].
  rewrite length_insert, put_length; [done|]. rewrite length_take. lia.
Qed.

Lemma header_lines_sent out0 id lines : forall msgs u u',
  sent_since out0 id msgs u -> header_lines id lines u = (true, u') ->
  exists l, sent_since out0 id (msgs ++ l) u' /\ relayed_data l = [] /\ dwl_blocks u' = dwl_blocks u.
Proof.
  induction lines as [|line lines IH]; intros msgs u u' Hs; cbn [header_lines].
  { intros [= <-]. exists []. by rewrite app_nil_r. }
  destruct (delta_callback_headers id line u) as [[] u1] eqn:E; [|done]. intros E'.
  apply (header_sent out0 id msgs) in E as (a & H1 & Ht & Hb); [|done].
  apply (IH (msgs ++ [a])) in E' as (l & H2 & Hp & Hb2); [|done]. exists (a :: l).
  rewrite <- app_assoc in H2. split_and!; [done| |congruence]. change (relayed_data ([a] ++ l) = []). rewrite relayed_data_app, Hp, app_nil_r.
  cbn. by rewrite Ht.
Qed.

Lemma answer_data_put id type n crc buf data :
  length data = n -> answer_data (mk_answer id type (Z.of_nat n) crc (put buf data)) = data.
Proof. intros <-. unfold answer_data, put. cbn [a_len a_data]. by rewrite Nat2Z.id, take_app_length. Qed.

(** A block that was taken is one message, if it is not larger than that. *)
Lemma block_sent out0 id code msgs block u u' :
  (0 < length block <= PAYLOAD)%nat -> sent_since out0 id msgs u -> wrdata_callback id code block u = (length block, u') ->
  exists a, sent_since out0 id (msgs ++ [a]) u' /\ relayed_data [a] = block /\ dwl_blocks u' = dwl_blocks u.
Proof.
  intros Hb Hs. unfold wrdata_callback. destruct (Nat.eqb_spec (length block) 0) as [|_]; [lia|].
  destruct (code =? 206); [|intros [= H]; lia]. cbn [negb].
  destruct (length block) as [|n] eqn:El; [lia|]. cbn [wrdata_loop Nat.eqb]. rewrite Nat.min_l by lia. rewrite <- El, firstn_all.
  destruct (copy_write _ _) as [ret out] eqn:E. destruct (ret <? 0) eqn:Er; [intros [= H]; lia|].
  rewrite Nat.sub_diag. replace (wrdata_loop id n 0 block _) with (true, mk_dwl out
    (mk_answer id RANGE_DATA (Z.of_nat (length block)) (u32 (crc32 block)) (put (a_data (dwl_answer u)) block)) (dwl_blocks u))
    by (by destruct n).
  intros [= <-]. eexists. split; [|split; [|done]].
  - eapply sent_snoc; [exact Hs| |by eapply copy_write_ok]. destruct Hs as (_ & _ & Hl & _). pose proof payload_size as [Hz H2].
    refine (conj eq_refl (conj _ (conj _ (conj (u32_range _) (or_intror (conj eq_refl _)))))); cbn [a_data a_len a_crc];
      [by rewrite put_length; lia|lia|]. by rewrite answer_data_put.
  - unfold relayed_data. cbn [fmap list_fmap concat a_type]. change (RANGE_DATA =? RANGE_DATA) with true. by rewrite answer_data_put, app_nil_r.
Qed.

(** What the channel relays since [out0]. *)
Definition has_relayed (out0 : bytes) (id : Z) (g : bytes) (u : dwl) : Prop :=
  exists msgs, sent_since out0 id msgs u /\ relayed_data msgs = g.

(** A block of libcurl fits into a message. *)
Definition small_block (block : bytes) : Prop := (length block <= PAYLOAD)%nat.

Lemma relay_takes out0 id srv retries :
  owner_takes (mk_channel_data true true retries None (Some (relay_block id srv))) small_block (has_relayed out0 id).
Proof.
  intros g block u Hne Hb (msgs & Hs & Hp). cbn [cd_dwlwrdata]. unfold relay_block.
  assert (Hlen : (0 < length block <= PAYLOAD)%nat) by (unfold small_block in Hb; destruct block; [done|cbn in *; lia]).
  destruct (header_lines id (rs_headers srv (dwl_blocks u)) u) as [[] u1] eqn:E1; [|cbn; lia].
  apply (header_lines_sent out0 id _ msgs) in E1 as (l & H1 & Hl & _); [|done].
  assert (H2 : sent_since out0 id (msgs ++ l) (mk_dwl (dwl_out u1) (dwl_answer u1) (S (dwl_blocks u1)))) by done.
  destruct (wrdata_callback _ _ _ _) as [n u2] eqn:E2. cbn [fst snd]. intros ->.
  apply (block_sent out0 _ _ (msgs ++ l)) in E2 as (a & H3 & Ha & _); [|done|done].
  exists ((msgs ++ l) ++ [a]). split; [done|]. by rewrite !relayed_data_app, Hl, Ha, Hp, app_nil_r.
Qed.

(** The server has [file], and [body] is what it replies to a request for the ranges: a transfer delivers a part of what was asked for,
    and all of it if it succeeds. *)
Record has_ranges (srv : range_server) (range : string) (file body : bytes) : Prop := {
  hr_ranges : forall k, concat (rs_reply srv (HttpRanges range) k).1 `prefix_of` body /\
    ((rs_reply srv (HttpRanges range) k).2 = CURLE_OK -> concat (rs_reply srv (HttpRanges range) k).1 = body);
  hr_from : forall k o, (0 < o)%nat -> concat (rs_reply srv (HttpFrom o) k).1 `prefix_of` drop o file /\
    ((rs_reply srv (HttpFrom o) k).2 = CURLE_OK -> concat (rs_reply srv (HttpFrom o) k).1 = drop o file);
}.

(** The k-th transfer is lost behind the first [n] bytes of the reply. *)
Definition lost_behind (srv : range_server) (range : string) (k n : nat) : Prop :=
  (0 < n)%nat /\ length (concat (rs_reply srv (HttpRanges range) k).1) = n /\ (rs_reply srv (HttpRanges range) k).2 <> CURLE_OK.

(** What a download of the ranges gives: the reply, or, when a transfer was lost behind [n] bytes, these and the file behind its first
    [n] bytes. *)
Definition range_bytes (srv : range_server) (range : string) (file body f : bytes) : Prop :=
  f = body \/ exists k n, lost_behind srv range k n /\ f = take n body ++ drop n file.

(** Behind the first [n] bytes, the transfers go on in the file. *)
Lemma resumed_serves srv range file body n :
  has_ranges srv range file body -> (0 < n <= length body)%nat -> serves_from (range_net range srv) n (take n body ++ drop n file).
Proof.
  intros [_ H] Hn k o Ho. cbn [range_net net_perform]. unfold requested. destruct (Nat.eqb_spec o 0); [lia|].
  assert (drop o (take n body ++ drop n file) = drop o file) as ->.
  { rewrite drop_app_ge by (rewrite length_take; lia). rewrite drop_drop, length_take. f_equal. lia. }
  apply H. lia.
Qed.

Lemma get_loop_ranges `{!HashSpec hl} {S} (cd : channel_data_t S) out0 P R srv range file body :
  owner_takes cd P R -> blocks_are (range_net range srv) P -> has_ranges srv range file body ->
  forall left retries k curlrc (d d' : download C S), 0 <= retries < 255 -> (1 <= left <= 256)%nat ->
  delivered hl cd out0 R [] d -> get_loop hl cd (range_net range srv) left retries k 0 curlrc d = (None, d') ->
  exists f, range_bytes srv range file body f /\ delivered hl cd out0 R f d'.
Proof.
  intros Htk Hb Hs. induction left as [|left IH]; intros retries k curlrc d d' Hr Hl Hg; [lia|]. cbn [get_loop].
  destruct ((0 <? 256 - _) && (retries =? 0)); [done|].
  destruct ((0 <? 256 - _) && (retries <? _)) eqn:E1; [done|]. destruct (_ && negb (net_resume _ k)); [done|].
  pose proof (ba_net _ _ Hb k 0) as HP. destruct (hr_ranges _ _ _ _ Hs k) as [[rest Hpre] Hall].
  change (net_perform (range_net range srv) k 0) with (rs_reply srv (HttpRanges range) k) in *.
  destruct (rs_reply srv (HttpRanges range) k) as [blocks code] eqn:Ep. cbn [fst snd] in *.
  destruct (curl_write _ _ _ _ _ _) as [[code' got] d1] eqn:Ew. destruct (negb (bool_decide _) && _ && _) eqn:E2; [done|].
  assert (Hne : code' <> CURLE_WRITE_ERROR) by by intros ->.
  destruct (curl_write_takes hl cd out0 P R Htk _ _ _ _ _ _ _ _ HP Hg Ew Hne) as (-> & -> & Hg1 & _). cbn [app plus] in Hg1 |- *.
  destruct (net_size _ k); try done. destruct (is_ok _) eqn:Eok.
  { intros [= <-]. apply is_ok_eq, map_curl_ok in Eok. exists body. split; [by left|]. by rewrite <- (Hall Eok). }
  destruct left as [|left]. { exfalso. apply andb_false_iff in E1 as [H|H]; bool_to_prop; lia. }
  destruct (Nat.eq_dec (length (concat blocks)) 0) as [E0|E0].
  { intros E. apply nil_length_inv in E0 as Ec. rewrite E0 in E. rewrite Ec in Hg1. apply IH in E; [done|done|lia|done]. }
  intros E. set (n := length (concat blocks)) in *. assert (Hn : (0 < n <= length body)%nat) by (rewrite Hpre, length_app; lia).
  assert (concat blocks = take n body) as Hc by (unfold n; by rewrite Hpre, take_app_length). rewrite Hc in Hg1.
  assert (Hlen : length (take n body) = n) by (rewrite length_take; lia). exists (take n body ++ drop n file). split.
  { right. exists k, n. split; [|done]. unfold lost_behind. rewrite Ep. split_and!; [lia|done|]. cbn [snd]. intros ->. done. }
  apply (get_loop_delivers hl cd _ out0 P R Htk n (take n body ++ drop n file) Hb (resumed_serves _ _ _ _ _ Hs Hn)) in E as [? _]; [done|done|lia| |].
  - rewrite length_app, Hlen. lia.
  - by rewrite take_app_le, take_ge by lia.
Qed.

Lemma transfer_relays `{!HashSpec hl} (out0 : bytes) retries id range srv u u' file body :
  0 <= retries < 254 -> has_ranges srv range file body -> blocks_are (range_net range srv) small_block -> has_relayed out0 id [] u ->
  transfer retries id range srv u = (CHANNEL_OK, u') -> exists f, range_bytes srv range file body f /\ has_relayed out0 id f u'.
Proof.
  intros Hr Hf Hb Hu. unfold transfer. destruct (rs_open srv); [|done]. cbn [negb]. set (cd := mk_channel_data _ _ _ _ _).
  destruct (channel_get_file _ _ _ _ _) as [[result text] d] eqn:E. destruct (header_lines _ _ _) as [[] u1] eqn:E1; [|done].
  intros [= -> <-]. destruct (get_file_loop hl cd (range_net range srv) _ _ _ _ Hr eq_refl E) as [Hd El]. clear E.
  pose proof (start_delivered hl cd [] (has_relayed out0 id) (mk_sink [] []) u _ eq_refl Hu Hd) as Hg0.
  apply (get_loop_ranges cd [] small_block (has_relayed out0 id) srv range file body) in El as (f & Hrb & [_ _ HR]);
    [|apply relay_takes|done|done|cbn; lia|lia|done].
  exists f. split; [done|].
  destruct HR as (msgs & Hs & Hp). apply (header_lines_sent out0 id _ msgs) in E1 as (l & H1 & Hl & _); [|done].
  exists (msgs ++ l). split; [done|]. by rewrite relayed_data_app, Hp, Hl, app_nil_r.
Qed.

(** C27: a request is reported as completed only when the reply of the server to the range was relayed, once and in order, provided no
    transfer was lost in the middle of it: the messages since the request carry its number and right checksums, and the last one says
    that it is complete. When a transfer was lost behind [n] bytes and tried again, which needs retries to be configured, what was
    relayed is exactly these [n] bytes followed by the file behind its first [n] bytes, not by the rest of the range. For fewer than
    254 retries and blocks of libcurl that fit into a message. *)
Theorem range_relayed `{!HashSpec hl} (retries : Z) (server : string -> range_server) (req : range_request_t) (ret : Z)
    (u u' : dwl) (file body : bytes) :
  let srv := server (cstring (q_data req)) in
  let range := cstring (drop (Z.to_nat (q_urllen req + 1)) (q_data req)) in
  0 <= retries < 254 -> has_ranges srv range file body -> blocks_are (range_net range srv) small_block ->
  length (a_data (dwl_answer u)) = PAYLOAD -> 0 <= a_crc (dwl_answer u) < 2 ^ 32 ->
  serve_range retries server req ret u = (Some (RANGE_COMPLETED, true), u') ->
  exists msgs last, written (dwl_out u') = written (dwl_out u) ++ concat (encode_answer <$> (msgs ++ [last])) /\
    Forall (relayed (q_id req)) msgs /\
    (relayed_data msgs = body \/
     exists k n, lost_behind srv range k n /\ relayed_data msgs = take n body ++ drop n file) /\
    a_id last = q_id req /\ a_type last = RANGE_COMPLETED /\ a_len last = 0.
Proof.
  intros srv range Hr Hf Hb Hl Hc. unfold serve_range. destruct (ret <? _); [done|]. fold srv range.
  set (u0 := mk_dwl (dwl_out u) (dwl_answer u) 0).
  assert (H0 : has_relayed (written (dwl_out u)) (q_id req) [] u0).
  { exists []. split; [|done]. refine (conj _ (conj (Forall_nil_2 _) (conj Hl Hc))). cbn. by rewrite app_nil_r. }
  destruct (transfer retries (q_id req) range srv u0) as [result u1] eqn:E. destruct (is_ok result) eqn:Eok; [|by destruct (write_once _ _)].
  apply is_ok_eq in Eok as ->. destruct (write_once _ _) as [ok out] eqn:Ew. intros [= -> <-].
  apply (transfer_relays (written (dwl_out u)) _ _ _ _ _ _ file body) in E as (f & Hrb & msgs & (Hw & Hm & _) & Hp); [|done|done|done|done].
  exists msgs, (mk_answer (q_id req) RANGE_COMPLETED 0 (a_crc (dwl_answer u1)) (a_data (dwl_answer u1))).
  split_and!; try done; [|by rewrite Hp]. cbn [dwl_out]. apply write_once_ok in Ew.
  rewrite Ew, Hw, fmap_app, concat_app, <- app_assoc. cbn [fmap list_fmap concat]. by rewrite app_nil_r.
Qed.

(** ** A socket that takes everything *)

Lemma write_healthy w buf : plan w = [] -> write_once w buf = (true, mk_sink (written w ++ buf) []).
Proof. intros Hp. unfold write_once. by rewrite Hp. Qed.

Lemma copy_write_healthy w buf : plan w = [] -> copy_write w buf = (0, mk_sink (written w ++ buf) []).
Proof. intros Hp. unfold copy_write. rewrite Hp. destruct buf; cbn; by rewrite ?app_nil_r. Qed.

(** Header lines only, in whole messages. *)
Definition only_headers (out0 : bytes) (u : dwl) : Prop :=
  plan (dwl_out u) = [] /\ exists msgs, written (dwl_out u) = out0 ++ concat (encode_answer <$> msgs) /\
    Forall (fun a => a_type a = RANGE_HEADERS) msgs.

Lemma header_lines_only out0 id lines : forall u, only_headers out0 u -> only_headers out0 (header_lines id lines u).2.
Proof.
  induction lines as [|line lines IH]; intros u Hu; cbn [header_lines]; [done|]. destruct Hu as (Hp & msgs & Hw & Hm).
  unfold delta_callback_headers. set (a := mk_answer _ _ _ _ _). rewrite write_healthy by done. apply IH. split; [done|].
  exists (msgs ++ [a]). cbn [dwl_out written]. split; [|by apply Forall_app; split; [|constructor]].
  rewrite Hw, fmap_app, concat_app, <- app_assoc. cbn [fmap list_fmap concat]. by rewrite app_nil_r.
Qed.

(** Nothing of a reply that is not partial content is relayed: the whole file of a server that knows no ranges does not reach the handler,
    only its headers and a last message do. *)
Theorem whole_file_refused (retries : Z) (server : string -> range_server) (req : range_request_t) (ret : Z) (u u' : dwl) r :
  let srv := server (cstring (q_data req)) in
  plan (dwl_out u) = [] -> rs_code srv <> 206 -> serve_range retries server req ret u = (Some r, u') ->
  exists msgs last, written (dwl_out u') = written (dwl_out u) ++ concat (encode_answer <$> (msgs ++ [last])) /\
    Forall (fun a => a_type a = RANGE_HEADERS) msgs /\ (a_type last = RANGE_COMPLETED \/ a_type last = RANGE_ERROR).
Proof.
  intros srv Hp Hcode. unfold serve_range. destruct (ret <? _); [done|]. fold srv. set (range := cstring (drop _ _)). set (u0 := mk_dwl (dwl_out u) (dwl_answer u) 0).
  assert (H0 : only_headers (written (dwl_out u)) u0).
  { split; [done|]. exists []. split; [|done]. cbn. by rewrite app_nil_r. }
  assert (H1 : only_headers (written (dwl_out u)) (transfer retries (q_id req) range srv u0).2).
  { unfold transfer. destruct (rs_open srv); [|done]. cbn [negb].
    set (cd := mk_channel_data _ _ _ _ _).
    assert (Hstep : forall f b v, cd_dwlwrdata cd = Some f -> only_headers (written (dwl_out u)) v -> only_headers (written (dwl_out u)) (f b v).2).
    { intros f b v [= <-] Hv. unfold relay_block.
      pose proof (header_lines_only _ (q_id req) (rs_headers srv (dwl_blocks v)) v Hv) as Hh.
      destruct (header_lines _ _ _) as [[] v1]; [|done]. unfold wrdata_callback. destruct (_ =? 0)%nat; [done|].
      by rewrite (proj2 (Z.eqb_neq _ _) Hcode). }
    pose proof (get_file_owner hl cd (range_net range srv) _ Hstep (mk_sink [] []) u0 H0) as Hd.
    destruct (channel_get_file _ _ _ _ _) as [[result text] d]. cbn [snd] in Hd.
    pose proof (header_lines_only _ (q_id req) (rs_headers srv (dwl_blocks (dw_user d))) _ Hd) as Hh.
    by destruct (header_lines _ _ _) as [ok v]. }
  destruct (transfer retries (q_id req) range srv u0) as [result u1]. cbn [snd] in H1. destruct H1 as (Hp1 & msgs & Hw & Hm).
  set (a := mk_answer _ _ _ _ _). rewrite write_healthy by done. intros [= <- <-]. exists msgs, a. split_and!; [|done|].
  - cbn [dwl_out written]. rewrite Hw, fmap_app, concat_app, <- app_assoc. cbn [fmap list_fmap concat]. by rewrite app_nil_r.
  - unfold a. cbn [a_type]. destruct (is_ok result); auto.
Qed.

(** A block that is larger than a message is relayed wrong: the second message repeats its start. *)
Theorem large_block_repeats (id code : Z) (block : bytes) (u : dwl) :
  code = 206 -> plan (dwl_out u) = [] -> (PAYLOAD < length block <= 2 * PAYLOAD)%nat ->
  exists u' a1 a2, wrdata_callback id code block u = (length block, u') /\
    written (dwl_out u') = written (dwl_out u) ++ concat (encode_answer <$> [a1; a2]) /\
    relayed_data [a1; a2] = take PAYLOAD block ++ take (length block - PAYLOAD) block.
Proof.
  intros -> Hp Hb. pose proof payload_size as [_ H2]. unfold wrdata_callback. destruct (Nat.eqb_spec (length block) 0) as [|_]; [lia|].
  change (negb (206 =? 206)) with false. cbv iota. destruct (length block) as [|[|n]] eqn:El; [lia|lia|].
  cbn [wrdata_loop Nat.eqb]. rewrite Nat.min_r by lia. set (a1 := mk_answer _ _ _ _ _). rewrite copy_write_healthy by done.
  cbn [Z.ltb Z.compare dwl_out written]. destruct (S (S n) - PAYLOAD)%nat as [|m] eqn:Em; [lia|]. cbn [Nat.eqb].
  rewrite Nat.min_l by lia. set (a2 := mk_answer _ _ _ _ _). rewrite copy_write_healthy by done. cbn [Z.ltb Z.compare].
  rewrite Nat.sub_diag. replace (wrdata_loop id n 0 _ _) with (true, mk_dwl (mk_sink ((written (dwl_out u) ++ encode_answer a1) ++ encode_answer a2) []) a2
    (dwl_blocks u)) by (by destruct n).
  eexists _, a1, a2. split_and!; [done| |].
  - cbn [dwl_out written fmap list_fmap concat]. by rewrite app_nil_r, app_assoc.
  - change (relayed_data [a1; a2]) with (answer_data a1 ++ answer_data a2 ++ []). rewrite app_nil_r.
    unfold a1, a2. by rewrite !answer_data_put by (rewrite length_take; lia).
Qed.
End Downloader.

(** ** What the handler makes of it *)

Lemma answer_roundtrip a :
  0 <= a_id a < 2 ^ 32 -> 0 <= a_type a < 2 ^ 32 -> 0 <= a_len a < 2 ^ 64 -> 0 <= a_crc a < 2 ^ 32 -> length (a_data a) = PAYLOAD ->
  decode_answer (encode_answer a) = a.
Proof.
  intros H1 H2 H3 H4 H5. unfold decode_answer, encode_answer.
  rewrite (slice_here 4) by apply le_length. rewrite !(slice_skip 4 _ _ (le 4 (a_id a))) by (rewrite ?le_length; lia).
  rewrite (slice_here 4 (le 4 (a_type a))) by apply le_length. rewrite !(slice_skip 4 _ _ (le 4 (a_type a))) by (rewrite ?le_length; lia).
  rewrite (slice_here 8) by apply le_length. rewrite !(slice_skip 8 _ _ (le 8 (a_len a))) by (rewrite ?le_length; lia).
  rewrite (slice_here 4 (le 4 (a_crc a))) by apply le_length. rewrite !(slice_skip 4 _ _ (le 4 (a_crc a))) by (rewrite ?le_length; lia).
  rewrite (slice_here (Z.to_nat RANGE_PAYLOAD_SIZE)) by done. rewrite !of_le_le by done. by destruct a.
Qed.

Lemma encode_answer_length a : length (a_data a) = PAYLOAD -> length (encode_answer a) = ANSWER_SIZE.
Proof.
  intros H. unfold encode_answer. rewrite !length_app, !le_length, length_replicate, H. apply Nat2Z.inj. rewrite !Nat2Z.inj_add.
  rewrite (proj1 payload_size). unfold ANSWER_SIZE. rewrite Z2Nat.id by done. reflexivity.
Qed.

Lemma read_package_whole bs f : length bs = ANSWER_SIZE -> read_package (rd_block bs ++ f) [] ANSWER_SIZE = PkRead bs f.
Proof.
  intros Hl. destruct bs as [|b bs]; [by apply (f_equal Z.of_nat) in Hl; unfold ANSWER_SIZE in Hl; rewrite Z2Nat.id in Hl|].
  cbn [rd_block app read_package]. rewrite take_ge, drop_ge by (rewrite Hl; lia). rewrite Hl, Nat.ltb_irrefl, Nat.eqb_refl. done.
Qed.

(** The handler and the downloader agree: a message that is relayed for the current request is accepted by the handler as it was
    sent, and the next one is read behind it. *)
Theorem relayed_accepted (env : delta_env) (p : hnd_priv) (a : range_answer_t) (f : fd) :
  0 <= reqid p < 2 ^ 32 -> relayed (env_crc32 env) (reqid p) a -> from_dwl p = rd_block (encode_answer a) ++ f ->
  exists p', read_and_validate_package env p = (true, p') /\ answer p' = a /\ from_dwl p' = f /\
    totaldwlbytes p' = u64 (totaldwlbytes p + a_len a) /\ work p' = work p.
Proof.
  intros Hid (Ha & Hd & Hl & Hc & Ht) Hf. unfold read_and_validate_package. rewrite Hf, read_package_whole by (by apply encode_answer_length).
  assert (Htype : 0 <= a_type a < 2 ^ 32) by (destruct Ht as [->|[-> _]]; done).
  unfold RANGE_PAYLOAD_SIZE in Hl. rewrite answer_roundtrip by (done || lia). cbn [reqid set_answer set_pipe]. rewrite Ha, Z.eqb_refl. cbn [negb].
  assert ((a_type a =? RANGE_ERROR) = false) as -> by (destruct Ht as [->|[-> _]]; done).
  assert ((a_type a =? RANGE_DATA) && (RANGE_PAYLOAD_SIZE <? a_len a) = false) as ->.
  { unfold RANGE_PAYLOAD_SIZE. rewrite (proj2 (Z.ltb_ge _ _)) by lia. by rewrite andb_false_r. }
  assert ((a_type a =? RANGE_DATA) && negb (u32 (env_crc32 env (answer_data a)) =? a_crc a) = false) as ->.
  { destruct Ht as [->|[-> ->]]; [done|]. by rewrite !Z.eqb_refl. }
  eexists. split; [done|]. done.
Qed.

(** ** Examples *)

(** A server with [file], whose reply to a range is [body]: the connection is lost [k] times behind two bytes. *)
Definition toy_server (k : nat) (file body : bytes) : range_server :=
  mk_range_server true (toy_net [] 0 None true)
    (fun asked i => match asked with HttpRanges _ => flaky body k i 0 | HttpFrom o => flaky file k i o end) 206
    (fun n => match n with O => [range_header ++ [CR; LF]] | _ => [] end).

(** The file in which [world] is the range. *)
Definition toy_remote : bytes := replicate 100 "-"%char ++ world.

Definition idle_dwl : dwl := mk_dwl (mk_sink [] []) (mk_answer 0 0 0 0 (replicate PAYLOAD NUL)) 0.

(** The messages as the handler reads them. *)
Fixpoint message_reads (n : nat) (bs : bytes) : fd :=
  match n with
  | O => []
  | S n => match bs with [] => [] | _ => rd_block (take ANSWER_SIZE bs) ++ message_reads n (drop ANSWER_SIZE bs) end
  end.

Definition toy_request : range_request_t := default (mk_request 0 0 0 0 []) (prepare_range_request 9 "http://a" "100-105").

Abbreviation toy_serve k :=
  (serve_range toy_hash_lib (fun _ => 0) 3 (fun _ => toy_server k toy_remote world) toy_request 100 idle_dwl).

(** The answers of this downloader to the requests of the handler. *)
Definition toy_answers (k : nat) (req : range_request_t) : fd :=
  message_reads 20 (written (dwl_out
    (serve_range toy_hash_lib (fun _ => 0) 3 (fun _ => toy_server k toy_remote world) req 100 idle_dwl).2)).

(** A whole delta update with this downloader. *)
Theorem delta_with_downloader :
  seen (toy_delta (fun _ req => toy_answers 0 req) two_chunks) = Some (true, "helloworld!", Running).
Proof. vm_compute. reflexivity. Qed.

(** When the connection is lost behind two bytes of the range, the handler is given the file behind its first two bytes, finds a chunk
    with the wrong hash and fails, although retries are configured and the server is back at once. *)
Theorem lost_range_fails :
  (toy_serve 1).1 = Some (RANGE_COMPLETED, true) /\
  (fst <$> (fst <$> seen (toy_delta (fun _ req => toy_answers 1 req) two_chunks))) = Some false.
Proof. split; vm_compute; reflexivity. Qed.

Lemma toy_has_ranges k range : has_ranges (toy_server k toy_remote world) range toy_remote world.
Proof.
  split.
  - intros i. exact (flaky_serves world k None true i 0%nat ltac:(lia)).
  - intros i o _. cbn [toy_server rs_reply]. unfold flaky. destruct (i <? k)%nat; cbn [fst snd concat app]; rewrite ?app_nil_r.
    + split; [|done]. exists (drop 2 (drop o toy_remote)). by rewrite take_drop.
    + replace (drop (S o) toy_remote) with (drop 1 (drop o toy_remote)) by (rewrite drop_drop; f_equal; lia). by rewrite take_drop.
Qed.

Lemma toy_blocks_small k range : blocks_are (range_net range (toy_server k toy_remote world)) small_block.
Proof.
  assert (H : forall l, (length l <= length toy_remote)%nat -> small_block l).
  { intros l Hl. unfold small_block. change (length toy_remote) with 106%nat in Hl. pose proof payload_size as [Hz _].
    unfold RANGE_PAYLOAD_SIZE in Hz. lia. }
  assert (Hf : forall f i o, (length f <= length toy_remote)%nat -> Forall small_block (flaky f k i o).1).
  { intros f i o Hl. unfold flaky. destruct (i <? k)%nat; cbn [fst]; [apply Forall_singleton|apply Forall_cons; split; [|apply Forall_singleton]];
      apply H; rewrite ?length_take, ?length_drop; lia. }
  split; [|done]. intros i o. cbn [range_net net_perform toy_server rs_reply]. unfold requested. destruct (o =? 0)%nat; apply Hf;
    [change (length world) with 6%nat; change (length toy_remote) with 106%nat|]; lia.
Qed.

Lemma idle_data : length (a_data (dwl_answer idle_dwl)) = PAYLOAD.
Proof. unfold idle_dwl. cbn [dwl_answer a_data]. apply length_replicate. Qed.

Lemma idle_crc : 0 <= a_crc (dwl_answer idle_dwl) < 2 ^ 32.
Proof. unfold idle_dwl. cbn [dwl_answer a_crc]. lia. Qed.

(** Without a loss, and with one. *)
Lemma range_relayed_witness :
  (exists msgs last, written (dwl_out (toy_serve 0).2) = concat (encode_answer <$> (msgs ++ [last])) /\ relayed_data msgs = world) /\
  (exists msgs last, written (dwl_out (toy_serve 1).2) = concat (encode_answer <$> (msgs ++ [last])) /\
     (relayed_data msgs = world \/ exists n, relayed_data msgs = take n world ++ drop n toy_remote)).
Proof.
  assert (E0 : (toy_serve 0).1 = Some (RANGE_COMPLETED, true)) by (vm_compute; reflexivity).
  assert (E1 : (toy_serve 1).1 = Some (RANGE_COMPLETED, true)) by (vm_compute; reflexivity).
  split.
  - destruct (toy_serve 0) as [r u'] eqn:E. cbn [fst snd] in *. subst r.
    destruct (range_relayed toy_hash_lib (fun _ => 0) 3 (fun _ => toy_server 0 toy_remote world) toy_request 100 idle_dwl u' toy_remote world
      ltac:(lia) (toy_has_ranges 0 _) (toy_blocks_small 0 _) idle_data idle_crc E) as (msgs & last & H1 & _ & H2 & _).
    exists msgs, last. split; [exact H1|]. destruct H2 as [H2|(k & n & (_ & _ & Hc) & _)]; [exact H2|]. by destruct Hc.
  - destruct (toy_serve 1) as [r u'] eqn:E. cbn [fst snd] in *. subst r.
    destruct (range_relayed toy_hash_lib (fun _ => 0) 3 (fun _ => toy_server 1 toy_remote world) toy_request 100 idle_dwl u' toy_remote world
      ltac:(lia) (toy_has_ranges 1 _) (toy_blocks_small 1 _) idle_data idle_crc E) as (msgs & last & H1 & _ & H2 & _).
    exists msgs, last. split; [exact H1|]. destruct H2 as [H2|(k & n & _ & H2)]; [left; exact H2|right; exists n; exact H2].
Defined.

(** The first message of that request, as the handler gets it. *)
Definition first_message : range_answer_t := mk_answer 9 RANGE_DATA 6 0 (put (replicate PAYLOAD NUL) world).

Lemma first_relayed : relayed (env_crc32 (toy_env (fun _ _ => []))) 9 first_message /\ answer_data first_message = world.
Proof.
  assert (answer_data first_message = world) as Hw by (vm_compute; reflexivity). split; [|exact Hw].
  refine (conj eq_refl (conj _ (conj _ (conj _ (or_intror (conj eq_refl eq_refl)))))); [|by vm_compute|by vm_compute].
  unfold first_message. cbn [a_data]. rewrite put_length; [apply length_replicate|]. rewrite length_replicate.
  pose proof payload_size as [Hz _]. unfold RANGE_PAYLOAD_SIZE in Hz. change (length world) with 6%nat. lia.
Qed.

(** The handler when it waits for data. *)
Definition waiting_priv : hnd_priv :=
  mk_priv (idle_work []) (rd_block (encode_answer first_message)) [] true NONE_RANGE "" WAITING_FOR_DATA (mk_answer 0 0 0 0 []) 9 0 0 None 0.

Lemma waiting_pipe : from_dwl waiting_priv = rd_block (encode_answer first_message) ++ [].
Proof. symmetry. apply app_nil_r. Qed.

Lemma relayed_accepted_witness :
  exists p', read_and_validate_package (toy_env (fun _ _ => [])) waiting_priv = (true, p') /\ answer_data (answer p') = world.
Proof.
  assert (Hid : 0 <= reqid waiting_priv < 2 ^ 32) by (cbn; lia).
  destruct (relayed_accepted (toy_env (fun _ _ => [])) waiting_priv first_message [] Hid (proj1 first_relayed) waiting_pipe)
    as (p' & H1 & H2 & _).
  exists p'. split; [exact H1|]. rewrite H2. exact (proj2 first_relayed).
Defined.
